(* ===== verification/_CoqProject ===== *)
-Q . S2P
Prelude.v
NetDest.v
NetDestFacts.v
Types.v
FlitBuffer.v
Channels.v
ChannelFacts.v
RouterCore.v
MsgBuffer.v
MsgBufferFacts.v
NetState.v
Routing.v
Network.v
Spin.v
Example.v
RoutingFacts.v
MeshNet.v
RouterStep.v
NI.v
Frames.v
Sim.v
ConsumerFacts.v
AllocFacts.v
SpinFacts.v
SpinReady.v
DrainSpins.v
DrainEnd.v
RingFacts.v
ShippedRings.v
NIFacts.v
Multicast.v
StallFacts.v
Conserve.v
Account.v
CreditBalance.v
CreditSteps.v
CreditInterfaces.v
Credits.v
DrainReady.v
Wiring.v
WiringSteps.v
Topology.v
TopologyFacts.v
TopologyRoutes.v
Hookup.v
TopologyDelivery.v
AddrRange.v
AddrRangeFacts.v
AddrMapFacts.v
Setup.v
SetupFacts.v
Startup.v
SimpleNet.v
SimpleNetFacts.v
SimpleRuns.v
SimpleLoops.v
SimpleBandwidth.v
SimpleExample.v
Traffic.v
TrafficFacts.v
ExampleFacts.v
