(* ===== verification/Prelude.v ===== *)
(** * DRAIN on Garnet 2.0

    The repository is a copy of the gem5 simulator in which the on-chip
    network Garnet 2.0 (src/gem5/src/mem/ruby/network/garnet2.0) has DRAIN,
    a way to break deadlocks: every [m_spin_thrshld] cycles all routers halt,
    the packets of one virtual channel move one step along a ring that visits
    every link of the network, and the routers run on. This library models
    the network and proves it correct. Paths below are relative to
    src/gem5/.

    ** The program and its model

    A C++ object is a record, a method a function on the state it works on.
    A method that can fail returns a [Res] (below): assertions, [fatal],
    accesses outside a vector or through a null pointer are values of [err].
    [int]s are integers of [Z] with the wrap-around written out where the
    code can reach it. Pointers between objects are references (numbers, or
    [queue_ref]) into the store [Net.t], so that shared objects (links,
    message buffers, queues) are shared in the model too. [random()] is a
    stream in the state, the order of events of one tick is left open.

    - NetDest.v: sets of nodes, [Set] and [NetDest] (mem/ruby/common).
      The machine types, which SLICC generates, are the record
      [MachineTypes], with the class [MachineTypesOk] of what the code
      relies on.
    - Types.v: CommonTypes.hh, [flit], [Credit], [Message], the
      configuration and the wake-up times of [Consumer].
    - FlitBuffer.v: [flitBuffer] with the heap algorithms of libstdc++.
    - Channels.v: [OutVcState], [VirtualChannel], [NetworkLink],
      [OutputUnit], the local part of [InputUnit].
    - RouterCore.v: the data of [Router] and [RoutingUnit]; both stages of
      [SwitchAllocator] (module [SA]) and [CrossbarSwitch] ([XBar]).
    - MsgBuffer.v: [MessageBuffer], the queues of the protocol.
    - NetState.v: the data of [NetworkInterface] and [GarnetNetwork], the
      statistics, and [Net.t], the state of a run.
    - Routing.v: [RoutingUnit] ([Route]), the mesh algorithms ([Dirn]) and
      the geometry of the mesh ([Mesh]).
    - Network.v: links through their pointers ([Links]), the building of
      links ([Build]), halting, wake-ups, statistics ([GarnetNetwork],
      [NetStats]).
    - Spin.v: the spin file ([SpinRing]) and [doSpin] ([Spin]).
    - RouterStep.v: [Router::wakeup] with the DRAIN state machine.
    - NI.v: [NetworkInterface] ([NIState], [NI]).
    - Topology.v: [Topology], the links of BasicLink.cc, GarnetLink.cc and
      SimpleLink.cc; the class [NetworkOps] is the interface through which a
      topology builds either network.
    - AddrRange.v: which node is responsible for an address: [AddrRange] and
      the bit fields of base/, the block size and the line addresses of Ruby,
      the address map of [Network] ([AddrMap]) and the [DirectoryMemory].
    - Setup.v: [Network], the constructor and [init] of [GarnetNetwork].
    - Wiring.v, WiringSteps.v, Hookup.v: the graph of the network as the sides
      of its links ([Side]), what the calls of [Build] do to it, and the plugs
      that [createLinks] makes; Startup.v is the start-up of a configured
      network, from its parameters to the first event.
    - SimpleNet.v: the simple network (mem/ruby/network/simple), the other
      implementation of [NetworkOps]: [PerfectSwitch], [Throttle], [Switch];
      [Simple] holds its state, the wake-ups, the building of links and the
      runs ([Simple.run]) with what the controllers do.
    - Traffic.v: the synthetic traffic tester (cpu/testers), the processors
      of the experiments: destination patterns ([Pattern]) and the tester's
      tick ([Tester]).
    - Sim.v: [Sim.step] takes an earliest event and wakes its consumer;
      [Sim.reachable] are the states of a run, [Sim.open_run] those of a run
      in which the protocol puts messages into its queues and takes them out.
    - Example.v: the 2x2 mesh at which theorems are instantiated.

    The components interact through [Net.t]: a wake-up of a router reads its
    input links, allocates the switch, writes its output queues and schedules
    the links; a link moves a flit from the queue it refers to and schedules
    its consumer; an interface turns messages into flits and back; the
    router that finds the threshold reached takes the lock, halts all
    routers and spins.

    ** The theorems

    - The DRAIN protocol (Sim.v, Frames.v): [Drain.next] is the protocol on
      two phases; every reachable state implements it. While the network
      drains, no router allocates its switch and no interface injects; the
      assertion on the lock holds; a drain ends after three cycles.
    - The spin (SpinFacts.v, RingFacts.v, ShippedRings.v): a rotation moves
      every flit of the ring to the next node and touches nothing else; the
      spin file is read back as the ring it was printed from; the shipped
      rings of the full meshes use every link exactly once.
    - The drain (SpinReady.v, DrainSpins.v, DrainEnd.v, DrainReady.v): from a
      state that is ready ([spin_ready]) a spin never fails and leaves the
      network ready, so that the spins of a drain move every packet as many
      places and some number of them takes a packet to its destination;
      [do_drain] runs to its end in a run, since the balance of the credits
      makes the channels ready once what is under way has arrived.
    - Conservation (Conserve.v, Account.v, StallFacts.v): no wake-up loses or
      duplicates a flit; in every reachable state the flits of the network
      are those the statistics count as injected and not received; the stall
      counters are exact.
    - Flow control (CreditBalance.v, CreditSteps.v, CreditInterfaces.v,
      Credits.v): for every well-wired link, the credits of the sender, the
      flits and credits under way and the flits in the receiver's buffer add
      up to the size of the buffer in every state of an open run, spins
      included; so no buffer overflows.
    - Start-up (WiringSteps.v, Startup.v): the network that the constructor
      and [init] build from a consistent configuration is idle, and each of
      its links is well wired in the sense of the flow-control theorems; so
      from its first event on no buffer of it overflows, whatever the
      protocol does.
    - Switch allocation (AllocFacts.v): what a grant does, fairness of the
      round-robin arbitration, one request per input port.
    - Buffers and channels (FlitBuffer.v, ChannelFacts.v, MsgBufferFacts.v):
      priority and FIFO queues as abstract specifications with refinement;
      credits and capacities stay within their bounds; the choice of a
      virtual channel; stalling loses no message.
    - Routing (RoutingFacts.v, MeshNet.v): on a wired mesh ([mesh_net]) the
      mesh algorithms always answer, are minimal and reach the destination;
      the turn restrictions, the choice from the table.
    - Topology and set-up (TopologyFacts.v, TopologyRoutes.v,
      TopologyDelivery.v, SetupFacts.v): the shortest-path loop ends and
      agrees with the definition by walks; routing-table entries are exact;
      over the network that [init] builds, table routes always lead to the
      interface of the destination within the distance.
    - Interfaces (NIFacts.v, Multicast.v): the choice of virtual channels,
      the flit sent per cycle, the split of a multicast message.
    - Addresses (AddrRangeFacts.v, AddrMapFacts.v): interleaved ranges
      partition the addresses and merge back; the offset in a range is a
      bijection; an address is the sum of its line and its offset; the address
      map finds the one directory of an address in any order of search; the
      directory memory is a map from lines to entries.
    - Sets of nodes (NetDestFacts.v) and wake-ups (ConsumerFacts.v).
    - The simple network: routing splits the destinations of a message over
      the links (SimpleNetFacts.v); no message is lost or duplicated for any
      destination, and the pending counters are exact (SimpleRuns.v, over the
      traces of SimpleNetFacts.v); the loops end (SimpleLoops.v); a throttle
      keeps to its bandwidth (SimpleBandwidth.v). SimpleExample.v is a network
      of two switches.
    - Traffic (TrafficFacts.v): the deterministic patterns are permutations of
      the nodes; what a tester sends, and how often.

    ** Bounds and fuel

    Loops over indices run over [range] with [foldM] and need no fuel. The
    [while] loop of [extend_shortest_path] runs with
    [extend_fuel], one more than the sum of all distances: a sweep that
    changes anything lowers the sum, and [shortest_path_correct] shows that
    the loop ends before the fuel. The loops of the simple network over the
    messages of a buffer run with one more (switch) or two more (throttle)
    than the messages in it; [simple_wakeups_end] shows that this is enough in
    every state. [Stoi] and the spin-file reader recurse on
    the text. Theorems on the shortest paths need weights between 0 and
    [INFINITE_LATENCY] = 10000, which is also the distance of what cannot be
    reached.

    ** Not modelled

    Printing ([print], [scanNetwork], the deadlock dumps) and registration of
    statistics; the trace file; the fault model and the power model, which
    DRAIN does not enable; the rest of gem5 (processors, caches, the event
    queue's own data structures) and the vendored libraries.

    ** Plan

    Still to be stated: that the three cycles of a halt are enough for what
    is under way to arrive, which [drain_of_run_total] assumes; the shipped
    rings of the irregular meshes, which need the connectivity matrices. *)

From stdpp Require Export base list numbers strings gmap.
From Stdlib Require Export ZArith Lia Permutation.

Open Scope Z_scope.

(** ** Failures of the simulator

    A C++ method that can stop the simulation returns a [Res]: an [assert]
    that does not hold, a call of [fatal]/[panic], an access outside a
    vector or through a null pointer, and the exception that [Cycles]
    subtraction throws are different values of [err]. *)

Inductive err :=
  | AssertFail (where_ : string)
  | FatalError (what : string)
  | OutOfRange (what : string)
  | NullDeref (what : string)
  | InvalidArgument (what : string).

Inductive Res (A : Type) :=
  | Ok (a : A)
  | Err (e : err).
Arguments Ok {A} a.
Arguments Err {A} e.

#[global] Instance Res_ret : MRet Res := fun A a => Ok a.
#[global] Instance Res_bind : MBind Res := fun A B f m =>
  match m with Ok a => f a | Err e => Err e end.
#[global] Instance Res_fmap : FMap Res := fun A B f m =>
  match m with Ok a => Ok (f a) | Err e => Err e end.

Definition is_ok {A} (m : Res A) : bool :=
  match m with Ok _ => true | Err _ => false end.

(** [assert(b)] of a build with assertions on (gem5.opt). *)
Definition assert_ (b : bool) (where_ : string) : Res unit :=
  if b then Ok tt else Err (AssertFail where_).

(** ** Vectors

    [std::vector<T>::operator[]] with an [int] index. Reading or writing
    outside the vector has no defined behaviour; the model stops there. *)

Definition vec_at {A} (l : list A) (i : Z) : Res A :=
  if decide (0 <= i)%Z then
    match l !! Z.to_nat i with
    | Some x => Ok x
    | None => Err (OutOfRange "vector")
    end
  else Err (OutOfRange "vector").

Definition vec_set {A} (l : list A) (i : Z) (x : A) : Res (list A) :=
  if decide (0 <= i < Z.of_nat (length l))%Z
  then Ok (<[Z.to_nat i := x]> l)
  else Err (OutOfRange "vector").

Definition vec_upd {A} (l : list A) (i : Z) (f : A -> Res A) : Res (list A) :=
  x ← vec_at l i; y ← f x; vec_set l i y.

Definition zlen {A} (l : list A) : Z := Z.of_nat (length l).

(** ** Loops

    [for] loops over a list of indices, with the loop state threaded
    through, and with [break] (the second form stops at the first body that
    returns [true]). *)

Fixpoint foldM {A S} (f : A -> S -> Res S) (l : list A) (s : S) : Res S :=
  match l with
  | [] => Ok s
  | a :: l' => s' ← f a s; foldM f l' s'
  end.

Fixpoint findM {A} (f : A -> Res bool) (l : list A) : Res (option A) :=
  match l with
  | [] => Ok None
  | a :: l' => b ← f a; if (b : bool) then Ok (Some a) else findM f l'
  end.

Fixpoint countM {A} (f : A -> Res bool) (l : list A) : Res Z :=
  match l with
  | [] => Ok 0
  | a :: l' => b ← f a; n ← countM f l'; Ok (if (b : bool) then n + 1 else n)
  end.

(** Indices [lo, lo+1, ..., hi-1] of a [for (int i = lo; i < hi; i++)]. *)
Definition range (lo hi : Z) : list Z := seqZ lo (hi - lo).

(** ** Machine integers *)

Definition u32 (z : Z) : Z := z mod 2 ^ 32.
Definition u64 (z : Z) : Z := z mod 2 ^ 64.
Definition s32 (z : Z) : Z := (z + 2 ^ 31) mod 2 ^ 32 - 2 ^ 31.

(** [Cycles::operator-] (src/base/types.hh) throws when the result would be
    negative. *)
Definition cycles_sub (a b : Z) : Res Z :=
  if b <=? a then Ok (a - b) else Err (InvalidArgument "RHS cycle value larger than LHS").

(** [std::map::operator[]]: an absent key is inserted with the default
    value. The second component is the map after the access. *)
Definition map_index {K V} `{Countable K} (d : V) (k : K) (m : gmap K V) : V * gmap K V :=
  match m !! k with
  | Some v => (v, m)
  | None => (d, <[k := d]> m)
  end.

(** ** Automation *)

Create HintDb drain.

(** Splits a hypothesis [x ← m; k x = Ok y] (or [Err]) into its steps. *)
Ltac inv_bind H :=
  let E := fresh "E" in
  try unfold mbind, Res_bind in H; cbn beta iota in H;
  match type of H with
  | (match ?m with Ok _ => _ | Err _ => _ end) = _ =>
      destruct m eqn:E; [| discriminate H]
  end.

Ltac simplify_res :=
  try progress unfold mret, Res_ret in *;
  repeat match goal with
  | H : Ok _ = Ok _ |- _ => injection H; clear H; intros
  | H : Err _ = Ok _ |- _ => discriminate H
  | H : Ok _ = Err _ |- _ => discriminate H
  end; subst.

(** Turns boolean integer comparisons into propositions. *)
Ltac zbool :=
  repeat match goal with
  | H : (_ <=? _) = true |- _ => apply Z.leb_le in H
  | H : (_ <=? _) = false |- _ => apply Z.leb_gt in H
  | H : (_ <? _) = true |- _ => apply Z.ltb_lt in H
  | H : (_ <? _) = false |- _ => apply Z.ltb_ge in H
  | H : (_ =? _) = true |- _ => apply Z.eqb_eq in H
  | H : (_ =? _) = false |- _ => apply Z.eqb_neq in H
  | H : (_ && _) = true |- _ => apply andb_true_iff in H; destruct H
  | H : (_ || _) = false |- _ => apply orb_false_iff in H; destruct H
  | H : negb _ = true |- _ => apply negb_true_iff in H
  | H : negb _ = false |- _ => apply negb_false_iff in H
  end.

(** ** Lemmas on the vector accesses *)

Section Vectors.
Context {A : Type}.
Implicit Types (l : list A) (i j : Z) (x y : A).

Lemma vec_at_Ok l i x :
  vec_at l i = Ok x <-> 0 <= i /\ l !! Z.to_nat i = Some x.
Proof.
  unfold vec_at. destruct (decide (0 <= i)) as [Hi|Hi].
  - destruct (l !! Z.to_nat i) eqn:E; split.
    + intros; simplify_res; done.
    + intros [_ Hx]. by injection Hx as ->.
    + discriminate.
    + intros [_ Hx]. discriminate.
  - split; [discriminate | lia].
Qed.

Lemma vec_at_inside l i x : vec_at l i = Ok x -> 0 <= i < zlen l.
Proof.
  rewrite vec_at_Ok. intros [? H%lookup_lt_Some]. unfold zlen. lia.
Qed.

Lemma vec_at_total l i : 0 <= i < zlen l -> exists x, vec_at l i = Ok x.
Proof.
  intros H. destruct (lookup_lt_is_Some_2 l (Z.to_nat i)) as [x Hx];
    [unfold zlen in H; lia|].
  exists x. apply vec_at_Ok. split; [lia|done].
Qed.

Lemma vec_set_Ok l i x :
  0 <= i < zlen l -> vec_set l i x = Ok (<[Z.to_nat i := x]> l).
Proof. intros H. unfold vec_set. rewrite decide_True; done. Qed.

Lemma vec_set_inv l i x l' :
  vec_set l i x = Ok l' -> 0 <= i < zlen l /\ l' = <[Z.to_nat i := x]> l.
Proof. unfold vec_set. case_decide; intros; simplify_res; done. Qed.

Lemma vec_set_length l i x l' : vec_set l i x = Ok l' -> length l' = length l.
Proof. intros [_ ->]%vec_set_inv. apply length_insert. Qed.

Lemma vec_at_set_eq l i x l' : vec_set l i x = Ok l' -> vec_at l' i = Ok x.
Proof.
  intros [H ->]%vec_set_inv. apply vec_at_Ok. split; [lia|].
  apply list_lookup_insert_eq. unfold zlen in H. lia.
Qed.

Lemma vec_at_set_ne l i j x l' :
  i <> j -> vec_set l i x = Ok l' -> vec_at l' j = vec_at l j.
Proof.
  intros Hne [H ->]%vec_set_inv. unfold vec_at. case_decide; [|done].
  rewrite list_lookup_insert_ne; [done | lia].
Qed.

Lemma vec_upd_inv l i f l' :
  vec_upd l i f = Ok l' ->
  exists x y, vec_at l i = Ok x /\ f x = Ok y /\ l' = <[Z.to_nat i := y]> l.
Proof.
  unfold vec_upd. intros H. inv_bind H. inv_bind H.
  apply vec_set_inv in H as [_ ->]. eauto.
Qed.

Lemma vec_upd_Ok l i f x y :
  vec_at l i = Ok x -> f x = Ok y ->
  vec_upd l i f = Ok (<[Z.to_nat i := y]> l).
Proof.
  intros Hx Hy. unfold vec_upd. rewrite Hx. cbn. rewrite Hy. cbn.
  apply vec_set_Ok, (vec_at_inside _ _ _ Hx).
Qed.

End Vectors.

#[export] Hint Resolve vec_at_inside vec_set_length vec_at_set_eq : drain.

(** ** Lemmas on the loops *)

Lemma in_range i lo hi : i ∈ range lo hi <-> lo <= i < hi.
Proof. unfold range. rewrite elem_of_seqZ. lia. Qed.

Lemma range_empty lo hi : hi <= lo -> range lo hi = [].
Proof. intros. unfold range. rewrite seqZ_nil; [done|lia]. Qed.

Lemma range_cons lo hi : lo < hi -> range lo hi = lo :: range (lo + 1) hi.
Proof.
  intros. unfold range. rewrite seqZ_cons by lia.
  f_equal. f_equal; lia.
Qed.

Lemma range_snoc lo hi : lo <= hi -> range lo (hi + 1) = range lo hi ++ [hi].
Proof.
  intros. unfold range. replace (hi + 1 - lo) with ((hi - lo) + 1) by lia.
  rewrite seqZ_app by lia. f_equal. replace (lo + (hi - lo)) with hi by lia. done.
Qed.

Section Loops.
Context {A S : Type}.

Lemma foldM_app (f : A -> S -> Res S) l1 l2 s :
  foldM f (l1 ++ l2) s = (s' ← foldM f l1 s; foldM f l2 s').
Proof.
  revert s. induction l1 as [|a l1 IH]; intros s; [done|].
  cbn. destruct (f a s); cbn; [apply IH | done].
Qed.

(** The loop rule: an invariant [P] indexed by the iterations done. *)
Lemma foldM_inv (P : list A -> S -> Prop) (f : A -> S -> Res S) l s s' :
  P [] s ->
  (forall done_ a s1 s2, P done_ s1 -> f a s1 = Ok s2 -> P (done_ ++ [a]) s2) ->
  foldM f l s = Ok s' -> P l s'.
Proof.
  intros H0 Hstep. rewrite <- (app_nil_l l) at 2. revert H0.
  generalize (@nil A) as pre. revert s.
  induction l as [|a l IH]; intros s pre Hpre H; cbn in H; simplify_res.
  - by rewrite app_nil_r.
  - inv_bind H. replace (pre ++ a :: l) with ((pre ++ [a]) ++ l)
      by (rewrite <- app_assoc; done).
    eapply IH; eauto.
Qed.

(** A state predicate every iteration preserves. *)
Lemma foldM_preserve (P : S -> Prop) (f : A -> S -> Res S) l s s' :
  P s -> (forall a s1 s2, a ∈ l -> P s1 -> f a s1 = Ok s2 -> P s2) ->
  foldM f l s = Ok s' -> P s'.
Proof.
  revert s. induction l as [|a l IH]; intros s HP Hf H; cbn in H; simplify_res; [done|].
  inv_bind H. eapply IH; [| |exact H].
  - eapply Hf; [left| |]; eauto.
  - intros; eapply Hf; [right| |]; eauto.
Qed.

(** The loop runs to its end when every iteration does, from a state that
    satisfies the invariant. *)
Lemma foldM_total (P : list A -> S -> Prop) (f : A -> S -> Res S) l s :
  P [] s ->
  (forall done_ a rest s1, l = done_ ++ a :: rest -> P done_ s1 ->
     exists s2, f a s1 = Ok s2 /\ P (done_ ++ [a]) s2) ->
  exists s', foldM f l s = Ok s' /\ P l s'.
Proof.
  intros H0 Hstep.
  assert (forall suf pre s1, l = pre ++ suf -> P pre s1 ->
    exists s', foldM f suf s1 = Ok s' /\ P l s') as Hgen.
  { induction suf as [|a suf IH]; intros pre s1 Hl HP.
    - exists s1. rewrite app_nil_r in Hl. subst. done.
    - destruct (Hstep pre a suf s1 Hl HP) as (s2 & Hf & HP2).
      cbn. rewrite Hf. cbn. apply (IH (pre ++ [a]) s2); [|done].
      rewrite <- app_assoc. done. }
  by apply (Hgen l [] s).
Qed.

End Loops.

(** The loop rule of [for (int i = lo; i < hi; i++)]. *)
Lemma foldM_range_inv {S} (P : Z -> S -> Prop) (f : Z -> S -> Res S) lo hi s s' :
  lo <= hi -> P lo s ->
  (forall i s1 s2, lo <= i < hi -> P i s1 -> f i s1 = Ok s2 -> P (i + 1) s2) ->
  foldM f (range lo hi) s = Ok s' -> P hi s'.
Proof.
  intros Hle. remember (Z.to_nat (hi - lo)) as k eqn:Hk. revert lo s Hle Hk.
  induction k as [|k IH]; intros lo s Hle Hk HP Hf H.
  - rewrite range_empty in H by lia. cbn in H. simplify_res. by replace hi with lo by lia.
  - rewrite range_cons in H by lia. cbn in H. inv_bind H.
    eapply (IH (lo + 1)); [lia|lia| | |exact H].
    + eapply Hf; [lia|done|done].
    + intros; eapply Hf; [lia| |]; done.
Qed.

(** The same loop runs to its end when every iteration does. *)
Lemma foldM_range_total {S} (P : Z -> S -> Prop) (f : Z -> S -> Res S) lo hi s :
  lo <= hi -> P lo s ->
  (forall i s1, lo <= i < hi -> P i s1 -> exists s2, f i s1 = Ok s2 /\ P (i + 1) s2) ->
  exists s', foldM f (range lo hi) s = Ok s' /\ P hi s'.
Proof.
  intros Hle. remember (Z.to_nat (hi - lo)) as k eqn:Hk. revert lo s Hle Hk.
  induction k as [|k IH]; intros lo s Hle Hk HP Hf.
  - rewrite range_empty by lia. exists s. split; [done|]. by replace hi with lo by lia.
  - rewrite range_cons by lia. cbn. destruct (Hf lo s) as (s2 & -> & HP2); [lia|done|]. cbn.
    apply (IH (lo + 1)); [lia|lia|done|]. intros i s1 Hi. apply Hf. lia.
Qed.

Lemma findM_Some {A} (f : A -> Res bool) l a :
  findM f l = Ok (Some a) -> a ∈ l /\ f a = Ok true.
Proof.
  induction l as [|x l IH]; cbn; intros H; [simplify_res; done|].
  destruct (f x) as [b|] eqn:E; [|discriminate]. cbn in H.
  destruct b; simplify_res.
  - split; [left|done].
  - destruct (IH H). split; [by right|done].
Qed.

Lemma findM_None {A} (f : A -> Res bool) l :
  findM f l = Ok None <-> Forall (fun a => f a = Ok false) l.
Proof.
  induction l as [|x l IH]; cbn; [split; [constructor|done]|].
  rewrite Forall_cons. destruct (f x) as [[]|] eqn:E; cbn; rewrite ?E;
    (split; [intros; try discriminate|]); naive_solver.
Qed.

Lemma findM_total {A} (f : A -> Res bool) l :
  (forall a, a ∈ l -> exists b, f a = Ok b) -> exists o, findM f l = Ok o.
Proof.
  induction l as [|x l IH]; intros H; cbn; [eauto|].
  destruct (H x) as [b ->]; [left|]. cbn. destruct b; [eauto|].
  apply IH. intros; apply H; by right.
Qed.

(** ** Lists *)

Lemma Forall2_impl_elem {A B} (R R' : A -> B -> Prop) l k :
  Forall2 R l k -> (forall x y, x ∈ l -> R x y -> R' x y) -> Forall2 R' l k.
Proof.
  induction 1 as [|x y l k Hxy Hl IH]; intros HR; constructor; [apply HR; [left|done]|].
  apply IH. intros x' y' Hx. apply HR. by right.
Qed.

(** ** Sums over vectors *)

Fixpoint total {A} (g : A -> Z) (l : list A) : Z :=
  match l with [] => 0 | a :: l' => g a + total g l' end.

Section Totals.
Context {A : Type} (g : A -> Z).

Lemma total_app l l' : total g (l ++ l') = total g l + total g l'.
Proof. induction l as [|x l IH]; cbn; [done|]. rewrite IH. lia. Qed.

Lemma total_Permutation l l' : l ≡ₚ l' -> total g l = total g l'.
Proof. induction 1; cbn; lia. Qed.

Lemma total_insert l i x y :
  l !! i = Some x -> total g (<[i := y]> l) = total g l + g y - g x.
Proof.
  revert i. induction l as [|z l IH]; intros [|i] H; cbn in *; simplify_eq; [lia|].
  change (g z + total g (<[i := y]> l) = g z + total g l + g y - g x).
  rewrite (IH i) by done. lia.
Qed.

Lemma total_delete l i x : l !! i = Some x -> total g (delete i l) = total g l - g x.
Proof.
  intros H. rewrite <- (take_drop_middle l i x H) at 2. rewrite delete_take_drop, !total_app.
  cbn. lia.
Qed.

Lemma total_set l i x y l' :
  vec_at l i = Ok x -> vec_set l i y = Ok l' -> total g l' = total g l + g y - g x.
Proof. intros [_ Hx]%vec_at_Ok [_ ->]%vec_set_inv. by apply total_insert. Qed.

Lemma total_upd l i f l' :
  vec_upd l i f = Ok l' ->
  exists x y, vec_at l i = Ok x /\ f x = Ok y /\ total g l' = total g l + g y - g x.
Proof.
  intros (x & y & Hx & Hy & ->)%vec_upd_inv. exists x, y. split; [done|]. split; [done|].
  apply vec_at_Ok in Hx as [_ Hx]. by apply total_insert.
Qed.

Lemma total_mapM (f : A -> Res A) l l' :
  (forall x y, f x = Ok y -> g y = g x) -> mapM f l = Ok l' -> total g l' = total g l.
Proof.
  intros Hf. revert l'. induction l as [|x l IH]; intros l' H; cbn in H; [by simplify_res|].
  inv_bind H. inv_bind H. simplify_res. cbn. rewrite (Hf _ _ E). by rewrite (IH _ E0).
Qed.

Lemma total_take_insert l k x :
  (k < length l)%nat -> total g (take (S k) (<[k := x]> l)) = total g (take k l) + g x.
Proof.
  intros Hk. rewrite (take_S_r _ _ x) by (by apply list_lookup_insert_eq).
  rewrite take_insert_ge, total_app by done. cbn. lia.
Qed.

End Totals.

(** ** Sums over vectors whose terms depend on the index *)

Fixpoint total_from {A} (g : Z -> A -> Z) (i : Z) (l : list A) : Z :=
  match l with [] => 0 | a :: l' => g i a + total_from g (i + 1) l' end.

Definition itotal {A} (g : Z -> A -> Z) (l : list A) : Z := total_from g 0 l.
Arguments itotal : simpl never.

Section IndexedTotals.
Context {A : Type} (g : Z -> A -> Z).

Lemma total_from_insert lo l i x y :
  l !! i = Some x ->
  total_from g lo (<[i := y]> l) = total_from g lo l + g (lo + Z.of_nat i) y - g (lo + Z.of_nat i) x.
Proof.
  revert lo i. induction l as [|z l IH]; intros lo [|i] H; cbn in H; simplify_eq.
  { cbn. rewrite Z.add_0_r. lia. }
  change (g lo z + total_from g (lo + 1) (<[i := y]> l)
    = g lo z + total_from g (lo + 1) l + g (lo + Z.of_nat (S i)) y - g (lo + Z.of_nat (S i)) x).
  rewrite (IH _ i) by done. replace (lo + 1 + Z.of_nat i) with (lo + Z.of_nat (S i)) by lia. lia.
Qed.

Lemma itotal_set l i x y l' :
  vec_at l i = Ok x -> vec_set l i y = Ok l' -> itotal g l' = itotal g l + g i y - g i x.
Proof.
  intros [Hi Hx]%vec_at_Ok [_ ->]%vec_set_inv. unfold itotal. rewrite (total_from_insert _ _ _ x) by done.
  by rewrite Z2Nat.id by done.
Qed.

Lemma itotal_upd l i f l' :
  vec_upd l i f = Ok l' ->
  exists x y, vec_at l i = Ok x /\ f x = Ok y /\ itotal g l' = itotal g l + g i y - g i x.
Proof.
  unfold vec_upd. intros H. inv_bind H. inv_bind H. exists a, a0. split; [done|]. split; [done|].
  by eapply itotal_set.
Qed.

Lemma total_from_mapM (f : A -> Res A) lo l l' :
  (forall i x y, f x = Ok y -> g i y = g i x) -> mapM f l = Ok l' -> total_from g lo l' = total_from g lo l.
Proof.
  intros Hf. revert lo l'. induction l as [|x l IH]; intros lo l' H; cbn in H; [by simplify_res|].
  inv_bind H. inv_bind H. simplify_res. cbn. rewrite (Hf _ _ _ E). by rewrite (IH _ _ E0).
Qed.

Lemma itotal_mapM (f : A -> Res A) l l' :
  (forall i x y, f x = Ok y -> g i y = g i x) -> mapM f l = Ok l' -> itotal g l' = itotal g l.
Proof. apply total_from_mapM. Qed.

Lemma total_from_map (f : A -> A) lo l :
  (forall i x, g i (f x) = g i x) -> total_from g lo (map f l) = total_from g lo l.
Proof. intros Hf. revert lo. induction l as [|x l IH]; intros lo; cbn; [done|]. by rewrite Hf, IH. Qed.

(** A sum with at most one term that is not zero. *)
Lemma total_from_single (w : A -> Z) k lo l :
  (forall i x, g i x = if i =? k then w x else 0) -> lo <= k ->
  total_from g lo l = match l !! Z.to_nat (k - lo) with Some x => w x | None => 0 end.
Proof.
  intros Hg. revert lo. induction l as [|x l IH]; intros lo Hk; cbn; [done|]. rewrite Hg.
  destruct (Z.eqb_spec lo k) as [->|Hne].
  - rewrite Z.sub_diag. enough (total_from g (k + 1) l = 0) as -> by apply Z.add_0_r.
    clear IH Hk. assert (k < k + 1) as Hlt by lia. revert Hlt. generalize (k + 1) as m.
    induction l as [|y l IH]; intros m Hm; cbn; [done|]. rewrite Hg, (IH (m + 1)) by lia.
    destruct (Z.eqb_spec m k); lia.
  - rewrite (IH (lo + 1)) by lia. replace (Z.to_nat (k - lo)) with (S (Z.to_nat (k - (lo + 1)))) by lia. done.
Qed.

Lemma itotal_single (w : A -> Z) k x l :
  (forall i y, g i y = if i =? k then w y else 0) -> vec_at l k = Ok x -> itotal g l = w x.
Proof.
  intros Hg [Hk Hx]%vec_at_Ok. unfold itotal. rewrite (total_from_single w k) by done.
  by rewrite Z.sub_0_r, Hx.
Qed.

End IndexedTotals.

(** ** Sums that vanish, agree or are bounded *)

Lemma total_zero {A} (g : A -> Z) l : (forall x, g x = 0) -> total g l = 0.
Proof. intros Hg. induction l as [|x l IH]; cbn; [done|]. by rewrite Hg, IH. Qed.

Lemma total_map {A B} (g : B -> Z) (f : A -> B) l : total g (map f l) = total (fun x => g (f x)) l.
Proof. induction l as [|x l IH]; cbn; [done|]. by rewrite IH. Qed.

Lemma total_Forall2 {A B} (g : A -> Z) (h : B -> Z) l k :
  Forall2 (fun x y => g x = h y) l k -> total g l = total h k.
Proof. induction 1 as [|x y l k Hxy _ IH]; cbn; [done|]. by rewrite Hxy, IH. Qed.

(** A sum over different elements, all but those of [k] counting nothing. *)
Lemma total_support {A} (g : A -> Z) (l k : list A) :
  NoDup l -> NoDup k -> k ⊆ l -> (forall x, x ∈ l -> x ∉ k -> g x = 0) -> total g l = total g k.
Proof.
  intros Hl Hk Hsub Hz. pose proof (NoDup_submseteq _ _ Hk Hsub) as [r Hr]%submseteq_Permutation.
  rewrite (total_Permutation g _ _ Hr), total_app.
  rewrite Hr in Hl. apply NoDup_app in Hl as (_ & Hd & _).
  assert (forall r', r' ⊆ r -> total g r' = 0) as Hzero; [|rewrite (Hzero r) by done; lia].
  induction r' as [|x r' IH]; intros Hin; [done|]. cbn. rewrite IH by set_solver.
  assert (x ∈ r) by set_solver. rewrite Hz; [done|rewrite Hr; set_solver|].
  intros Hx. by apply (Hd x).
Qed.

(** Every test of a count answers. *)
Lemma countM_sum {A} (f : A -> Res bool) (g : A -> Z) l :
  (forall x, x ∈ l -> exists b : bool, f x = Ok b /\ g x = if b then 1 else 0) ->
  countM f l = Ok (total g l).
Proof.
  induction l as [|x l IH]; intros H; [done|]. cbn.
  destruct (H x) as (b & -> & Hg); [by left|]. cbn. rewrite IH by (intros; apply H; by right). cbn.
  rewrite Hg. destruct b; f_equal; lia.
Qed.

Lemma total_ext {A} (g h : A -> Z) l : (forall x, g x = h x) -> total g l = total h l.
Proof. intros Hg. induction l as [|x l IH]; cbn; [done|]. by rewrite Hg, IH. Qed.

Lemma total_nonneg {A} (g : A -> Z) l : (forall x, 0 <= g x) -> 0 <= total g l.
Proof. intros Hg. induction l as [|x l IH]; cbn; [done|]. specialize (Hg x). lia. Qed.

Lemma total_from_below {A} (g : Z -> A -> Z) lo l :
  (forall i x, lo <= i -> g i x = 0) -> total_from g lo l = 0.
Proof.
  revert lo. induction l as [|x l IH]; intros lo Hg; cbn; [done|].
  rewrite Hg, IH by lia || (intros; apply Hg; lia). done.
Qed.

Lemma itotal_zero {A} (g : Z -> A -> Z) l : (forall i x, g i x = 0) -> itotal g l = 0.
Proof. intros Hg. apply total_from_below. auto. Qed.

Lemma itotal_plus {A} (g h : Z -> A -> Z) l : itotal (fun i x => g i x + h i x) l = itotal g l + itotal h l.
Proof.
  unfold itotal. generalize 0 as lo. induction l as [|x l IH]; intros lo; cbn; [done|]. rewrite IH. lia.
Qed.

Lemma itotal_ext {A} (g h : Z -> A -> Z) l : (forall i x, g i x = h i x) -> itotal g l = itotal h l.
Proof.
  intros Hg. unfold itotal. generalize 0 as lo. induction l as [|x l IH]; intros lo; cbn; [done|].
  by rewrite Hg, IH.
Qed.

(** ** Vectors all of whose elements satisfy a predicate of their index *)

Definition vec_all {A} (P : Z -> A -> Prop) (l : list A) : Prop :=
  Forall (fun p : Z * A => P p.1 p.2) (zip (range 0 (zlen l)) l).

#[global] Instance vec_all_dec {A} (P : Z -> A -> Prop) `{!forall i x, Decision (P i x)} l :
  Decision (vec_all P l).
Proof. unfold vec_all. apply _. Defined.

Lemma vec_all_at {A} (P : Z -> A -> Prop) l i x : vec_all P l -> vec_at l i = Ok x -> P i x.
Proof.
  intros H [Hi Hx]%vec_at_Ok. unfold vec_all in H.
  apply (Forall_lookup_1 _ _ (Z.to_nat i) (i, x)) in H; [done|].
  apply lookup_zip_Some. cbn. split; [|done]. unfold range. apply lookup_seqZ.
  apply lookup_lt_Some in Hx. unfold zlen. lia.
Qed.

Lemma vec_all_intro {A} (P : Z -> A -> Prop) l :
  (forall i x, vec_at l i = Ok x -> P i x) -> vec_all P l.
Proof.
  intros H. apply Forall_lookup. intros k [i x] Hk. apply lookup_zip_Some in Hk as [Hi Hx]. cbn in *.
  unfold range in Hi. apply lookup_seqZ in Hi as [-> Hk]. apply H, vec_at_Ok. split; [lia|].
  by replace (Z.to_nat (0 + Z.of_nat k)) with k by lia.
Qed.

Lemma vec_all_set {A} (P : Z -> A -> Prop) l i x l' :
  vec_all P l -> vec_set l i x = Ok l' -> P i x -> vec_all P l'.
Proof.
  intros H Hs HP. apply vec_all_intro. intros j y Hy. destruct (decide (j = i)) as [->|Hne].
  - rewrite (vec_at_set_eq _ _ _ _ Hs) in Hy. by simplify_res.
  - rewrite (vec_at_set_ne l i j x l') in Hy by done. by eapply vec_all_at.
Qed.

Lemma vec_at_map {A B} (f : A -> B) l i x : vec_at l i = Ok x -> vec_at (map f l) i = Ok (f x).
Proof.
  intros [Hi Hx]%vec_at_Ok. apply vec_at_Ok. split; [done|].
  change (map f l) with (f <$> l). by rewrite list_lookup_fmap, Hx.
Qed.

Lemma vec_all_map {A B} (P : Z -> B -> Prop) (f : A -> B) l i x :
  vec_all P (map f l) -> vec_at l i = Ok x -> P i (f x).
Proof. intros H Hx. eapply vec_all_at; [exact H|by apply vec_at_map]. Qed.

(** ** [mapM] and views of the elements *)

Lemma map_mapM {A B} (g : A -> B) (f : A -> Res A) l l' :
  (forall x y, f x = Ok y -> g y = g x) -> mapM f l = Ok l' -> map g l' = map g l.
Proof.
  intros Hf. revert l'. induction l as [|x l IH]; intros l' H; cbn in H; [by simplify_res|].
  inv_bind H. inv_bind H. simplify_res. cbn. by rewrite (Hf _ _ E), (IH _ E0).
Qed.

Lemma Forall_mapM {A} (P : A -> Prop) (f : A -> Res A) l l' :
  (forall x y, f x = Ok y -> P x -> P y) -> mapM f l = Ok l' -> Forall P l -> Forall P l'.
Proof.
  intros Hf. revert l'. induction l as [|x l IH]; intros l' H HF; cbn in H; [by simplify_res|].
  inv_bind H. inv_bind H. simplify_res. inversion HF; subst. constructor; eauto.
Qed.

(** ** Vectors that grow and vectors without duplicates *)

Lemma vec_at_insert {A} (l : list A) i j x :
  0 <= i < zlen l -> vec_at (<[Z.to_nat i := x]> l) j = if j =? i then Ok x else vec_at l j.
Proof.
  intros Hi. pose proof (vec_set_Ok l i x Hi) as Hs. destruct (Z.eqb_spec j i) as [->|Hne].
  - by eapply vec_at_set_eq.
  - by eapply vec_at_set_ne.
Qed.

Lemma vec_at_snoc {A} (l : list A) x j :
  vec_at (l ++ [x]) j = if j =? zlen l then Ok x else vec_at l j.
Proof.
  unfold vec_at, zlen. case_decide as Hj; [|by rewrite (proj2 (Z.eqb_neq _ _)) by lia].
  destruct (Z.eqb_spec j (Z.of_nat (length l))) as [->|Hne].
  - rewrite lookup_app_r by lia. by replace (Z.to_nat _ - length l)%nat with 0%nat by lia.
  - destruct (decide (Z.to_nat j < length l)%nat); [by rewrite lookup_app_l|].
    rewrite lookup_app_r, !(proj2 (lookup_ge_None _ _)) by (cbn; lia). done.
Qed.

Lemma map_insert {A B} (f : A -> B) (l : list A) i x : map f (<[i := x]> l) = <[i := f x]> (map f l).
Proof. change (map f) with (fmap (M := list) f). apply list_fmap_insert. Qed.

Lemma map_insert_same {A B} (f : A -> B) (l : list A) (i : nat) (x y : A) :
  l !! i = Some x -> f y = f x -> map f (<[i := y]> l) = map f l.
Proof.
  intros Hx Hy. change (map f) with (fmap (M := list) f). rewrite list_fmap_insert, Hy.
  apply list_insert_id. by rewrite list_lookup_fmap, Hx.
Qed.

Lemma map_set_same {A B} (f : A -> B) (l : list A) i x y :
  vec_at l i = Ok x -> f y = f x -> map f (<[Z.to_nat i := y]> l) = map f l.
Proof. intros [_ Hx]%vec_at_Ok. by apply map_insert_same. Qed.

Lemma Forall_vec_at {A} (P : A -> Prop) l i x : Forall P l -> vec_at l i = Ok x -> P x.
Proof. intros HP [_ Hx]%vec_at_Ok. by eapply Forall_lookup_1. Qed.

Lemma zlen_map {A B} (f : A -> B) (l : list A) : zlen (map f l) = zlen l.
Proof. unfold zlen. by rewrite length_map. Qed.

Lemma vec_at_map_inv {A B} (f : A -> B) l i y : vec_at (map f l) i = Ok y -> exists x, vec_at l i = Ok x /\ y = f x.
Proof.
  intros [Hi Hy]%vec_at_Ok. apply list_lookup_fmap_Some in Hy as (x & -> & Hx). exists x. by rewrite vec_at_Ok.
Qed.

Lemma NoDup_map_inj {A B} (f : A -> B) (l : list A) x y :
  NoDup (map f l) -> x ∈ l -> y ∈ l -> f x = f y -> x = y.
Proof.
  intros Hnd [i Hi]%list_elem_of_lookup [j Hj]%list_elem_of_lookup Hf.
  assert (i = j) as <-; [|congruence].
  apply (NoDup_lookup (map f l) i j (f x) Hnd); apply list_lookup_fmap_Some; [by exists x|by exists y].
Qed.

Lemma NoDup_map_snoc {A B} (f : A -> B) l x :
  NoDup (map f l) -> f x ∉ map f l -> NoDup (map f (l ++ [x])).
Proof.
  intros Hl Hx. rewrite map_app. apply NoDup_app. split_and!; [done| |apply NoDup_singleton].
  intros y Hy ->%list_elem_of_singleton. done.
Qed.
