(* ===== verification/NetDest.v ===== *)
(** * Destination sets: [Set] and [NetDest]

    Models src/mem/ruby/common/Set.hh and src/mem/ruby/common/NetDest.{hh,cc}:
    the bit vectors that carry a message's destinations and a router's
    routing-table entries. The [std::bitset<256>] is an integer mask. The
    numbering of the machine types ([MachineType_base_level] and the like) is
    generated by SLICC at build time; it is a record of parameters here. *)

From S2P Require Import Prelude.

Definition NUMBER_BITS_PER_SET : Z := 256.

(** The mask with all bits of a [std::bitset<256>] set. *)
Definition bitset_all : Z := Z.ones NUMBER_BITS_PER_SET.

(** [std::bitset::count]. *)
Definition bitset_count (b : Z) : Z :=
  zlen (filter (fun i => Z.testbit b i = true) (range 0 NUMBER_BITS_PER_SET)).

(** ** [class Set] ([Set] is a keyword of Rocq) *)
Module NodeSet.

Record t := mk {
  m_nSize : Z;
  bits : Z
}.

Definition set_bits (b : Z) (s : t) : t := mk (m_nSize s) b.

Definition empty : t := mk 0 0.

Definition new (size : Z) : Res t :=
  if size >? NUMBER_BITS_PER_SET then Err (FatalError "Number of bits < size specified")
  else Ok (mk size 0).

(** [bits.set(index)] throws for an index outside the bitset. *)
Definition add (index : Z) (s : t) : Res t :=
  if (0 <=? index) && (index <? NUMBER_BITS_PER_SET)
  then Ok (set_bits (Z.setbit (bits s) index) s)
  else Err (OutOfRange "bitset").

Definition addSet (obj s : t) : Res t :=
  _ ← assert_ (m_nSize s =? m_nSize obj) "Set.hh:86";
  Ok (set_bits (Z.lor (bits s) (bits obj)) s).

Definition remove (index : Z) (s : t) : Res t :=
  if (0 <=? index) && (index <? NUMBER_BITS_PER_SET)
  then Ok (set_bits (Z.clearbit (bits s) index) s)
  else Err (OutOfRange "bitset").

Definition removeSet (obj s : t) : Res t :=
  _ ← assert_ (m_nSize s =? m_nSize obj) "Set.hh:105";
  Ok (set_bits (Z.ldiff (bits s) (bits obj)) s).

Definition clear (s : t) : t := set_bits 0 s.

Definition broadcast (s : t) : t :=
  set_bits (fold_left (fun b j => Z.clearbit b j)
              (range (m_nSize s) NUMBER_BITS_PER_SET) bitset_all) s.

Definition count (s : t) : Z := bitset_count (bits s).

Definition isEqual (obj s : t) : Res bool :=
  _ ← assert_ (m_nSize s =? m_nSize obj) "Set.hh:133";
  Ok (bits s =? bits obj).

Definition OR (obj s : t) : Res t :=
  _ ← assert_ (m_nSize s =? m_nSize obj) "Set.hh:141";
  r ← new (m_nSize s);
  Ok (set_bits (Z.lor (bits s) (bits obj)) r).

Definition AND (obj s : t) : Res t :=
  _ ← assert_ (m_nSize s =? m_nSize obj) "Set.hh:151";
  r ← new (m_nSize s);
  Ok (set_bits (Z.land (bits s) (bits obj)) r).

Definition intersectionIsEmpty (obj s : t) : bool :=
  Z.land (bits s) (bits obj) =? 0.

Definition isSuperset (test s : t) : Res bool :=
  _ ← assert_ (m_nSize s =? m_nSize test) "Set.hh:172";
  Ok (Z.lor (bits s) (bits test) =? bits s).

Definition isSubset (test s : t) : Res bool := isSuperset s test.

Definition isElement (element : Z) (s : t) : Res bool :=
  if (0 <=? element) && (element <? NUMBER_BITS_PER_SET)
  then Ok (Z.testbit (bits s) element)
  else Err (OutOfRange "bitset").

Definition isBroadcast (s : t) : bool := count s =? m_nSize s.

Definition isEmpty (s : t) : bool := bits s =? 0.

Definition smallestElement (s : t) : Res Z :=
  o ← findM (fun i => isElement i s) (range 0 (m_nSize s));
  match o with
  | Some i => Ok i
  | None => Err (FatalError "No smallest element of an empty set.")
  end.

Definition getSize (s : t) : Z := m_nSize s.

Definition setSize (size : Z) (s : t) : Res t :=
  if size >? NUMBER_BITS_PER_SET then Err (FatalError "Number of bits < size specified")
  else Ok (mk size 0).

End NodeSet.

(** The tables SLICC generates for a protocol (build/.../MachineType.cc). *)
Record MachineTypes := {
  MachineType_NUM : Z;
  MachineType_base_level : Z -> Z;
  MachineType_base_count : Z -> Z;
  MachineType_base_number : Z -> Z
}.

(** [struct MachineID] *)
Record MachineID := mkMachineID { mach_type : Z; mach_num : Z }.

(** ** [class NetDest] *)
Module NetDest.

Record t := mk { m_bits : list NodeSet.t }.

Section NetDest.
Variable mt : MachineTypes.

Definition getSize (d : t) : Z := zlen (m_bits d).

Definition resize (d : t) : Res t :=
  _ ← assert_ (MachineType_base_level mt (MachineType_NUM mt) =? MachineType_NUM mt)
        "NetDest.cc:250";
  bs ← mapM (fun i => NodeSet.setSize (MachineType_base_count mt i) NodeSet.empty)
         (range 0 (MachineType_NUM mt));
  Ok (mk bs).

Definition new : Res t := resize (mk []).

Definition vecIndex (m : MachineID) (d : t) : Res Z :=
  let vec_index := MachineType_base_level mt (mach_type m) in
  _ ← assert_ (u64 vec_index <? getSize d) "NetDest.hh:102";
  Ok vec_index.

Definition bitIndex (index : Z) : Z := index.

Definition add (newElement : MachineID) (d : t) : Res t :=
  v ← vecIndex newElement d;
  s ← vec_at (m_bits d) v;
  _ ← assert_ (bitIndex (mach_num newElement) <? u32 (NodeSet.getSize s)) "NetDest.cc:41";
  s' ← NodeSet.add (bitIndex (mach_num newElement)) s;
  bs ← vec_set (m_bits d) v s';
  Ok (mk bs).

(** [for (i < m_bits.size()) m_bits[i].op(netDest.m_bits[i])] *)
Fixpoint zip_bits (op : NodeSet.t -> NodeSet.t -> Res NodeSet.t)
    (bs os : list NodeSet.t) : Res (list NodeSet.t) :=
  match bs, os with
  | [], _ => Ok []
  | b :: bs', o :: os' => b' ← op o b; r ← zip_bits op bs' os'; Ok (b' :: r)
  | _ :: _, [] => Err (OutOfRange "vector")
  end.

Definition addNetDest (netDest d : t) : Res t :=
  _ ← assert_ (getSize d =? getSize netDest) "NetDest.cc:48";
  bs ← zip_bits NodeSet.addSet (m_bits d) (m_bits netDest);
  Ok (mk bs).

Definition setNetDest (machine : Z) (set : NodeSet.t) (d : t) : Res t :=
  _ ← assert_ (MachineType_base_level mt (machine + 1)
               - MachineType_base_level mt machine =? 1) "NetDest.cc:58";
  bs ← vec_set (m_bits d) (MachineType_base_level mt machine) set;
  Ok (mk bs).

Definition remove (oldElement : MachineID) (d : t) : Res t :=
  v ← vecIndex oldElement d;
  s ← vec_at (m_bits d) v;
  s' ← NodeSet.remove (bitIndex (mach_num oldElement)) s;
  bs ← vec_set (m_bits d) v s';
  Ok (mk bs).

Definition removeNetDest (netDest d : t) : Res t :=
  _ ← assert_ (getSize d =? getSize netDest) "NetDest.cc:72";
  bs ← zip_bits NodeSet.removeSet (m_bits d) (m_bits netDest);
  Ok (mk bs).

Definition clear (d : t) : t := mk (map NodeSet.clear (m_bits d)).

Definition broadcast_type (machineType : Z) (d : t) : Res t :=
  foldM (fun i d => add (mkMachineID machineType i) d)
    (range 0 (MachineType_base_count mt machineType)) d.

Definition broadcast (d : t) : Res t :=
  foldM broadcast_type (range 0 (MachineType_NUM mt)) d.

(** The ids of the elements of one bit vector, in increasing order. *)
Definition set_dests (i : Z) (s : NodeSet.t) : Res (list Z) :=
  foldM (fun j dest =>
           e ← NodeSet.isElement j s;
           Ok (if (e : bool) then dest ++ [MachineType_base_number mt i + j] else dest))
    (range 0 (NodeSet.getSize s)) [].

Definition getAllDest (d : t) : Res (list Z) :=
  foldM (fun i dest =>
           s ← vec_at (m_bits d) i;
           l ← set_dests i s;
           Ok (dest ++ l))
    (range 0 (getSize d)) [].

Definition count (d : t) : Z :=
  fold_right (fun s n => NodeSet.count s + n) 0 (m_bits d).

Definition isBroadcast (d : t) : bool := forallb NodeSet.isBroadcast (m_bits d).

Definition isEmpty (d : t) : bool := forallb NodeSet.isEmpty (m_bits d).

(** The loops of [OR] and [AND] store into a fresh [NetDest result]. *)
Definition store_prefix (bs : list NodeSet.t) (result : t) : Res t :=
  if zlen bs <=? getSize result
  then Ok (mk (bs ++ drop (length bs) (m_bits result)))
  else Err (OutOfRange "vector").

Definition OR (orNetDest d : t) : Res t :=
  _ ← assert_ (getSize d =? getSize orNetDest) "NetDest.cc:194";
  result ← new;
  bs ← zip_bits NodeSet.OR (m_bits d) (m_bits orNetDest);
  store_prefix bs result.

Definition AND (andNetDest d : t) : Res t :=
  _ ← assert_ (getSize d =? getSize andNetDest) "NetDest.cc:206";
  result ← new;
  bs ← zip_bits NodeSet.AND (m_bits d) (m_bits andNetDest);
  store_prefix bs result.

Definition intersectionIsNotEmpty (other_netDest d : t) : Res bool :=
  _ ← assert_ (getSize d =? getSize other_netDest) "NetDest.cc:218";
  Ok (existsb (fun p => negb (NodeSet.intersectionIsEmpty p.2 p.1))
        (zip (m_bits d) (m_bits other_netDest))).

Definition isSuperset (test d : t) : Res bool :=
  _ ← assert_ (getSize d =? getSize test) "NetDest.cc:230";
  o ← findM (fun p => b ← NodeSet.isSuperset p.2 p.1; Ok (negb b))
        (zip (m_bits d) (m_bits test));
  Ok (match o with Some _ => false | None => true end).

Definition isElement (element : MachineID) (d : t) : Res bool :=
  v ← vecIndex element d;
  s ← vec_at (m_bits d) v;
  NodeSet.isElement (bitIndex (mach_num element)) s.

Definition isEqual (n d : t) : Res bool :=
  _ ← assert_ (getSize d =? getSize n) "NetDest.cc:274";
  o ← findM (fun p => b ← NodeSet.isEqual p.2 p.1; Ok (negb b))
        (zip (m_bits d) (m_bits n));
  Ok (match o with Some _ => false | None => true end).

End NetDest.
End NetDest.
