(* ===== verification/NetDestFacts.v ===== *)
(** * Destination sets: theorems

    [NetDest] as a set of node ids: [getAllDest] lists it, [add] and
    [removeNetDest] change it, [intersectionIsNotEmpty] tests it. The tables
    SLICC generates enter as the class [MachineTypesOk]. *)

From Stdlib Require Import Sorting.Sorted.
From S2P Require Import Prelude NetDest.

(** The generated tables: one bit vector per machine type, and the node ids
    of a type follow those of the previous type. *)
Class MachineTypesOk (mt : MachineTypes) : Prop := {
  mt_num : 0 <= MachineType_NUM mt < 2 ^ 32;
  mt_level : forall i, 0 <= i <= MachineType_NUM mt -> MachineType_base_level mt i = i;
  mt_count : forall i, 0 <= i < MachineType_NUM mt ->
    0 <= MachineType_base_count mt i <= NUMBER_BITS_PER_SET;
  mt_base0 : MachineType_base_number mt 0 = 0;
  mt_base : forall i, 0 <= i < MachineType_NUM mt ->
    MachineType_base_number mt (i + 1) = MachineType_base_number mt i + MachineType_base_count mt i
}.

Arguments mt_num mt {_}.
Arguments mt_level mt {_} i.
Arguments mt_count mt {_} i.
Arguments mt_base0 mt {_}.
Arguments mt_base mt {_} i.

Section Facts.
Context (mt : MachineTypes) `{Hmt : MachineTypesOk mt}.

(** One bit vector per machine type, of the size of the type. *)
Definition dest_wf (d : NetDest.t) : Prop :=
  length (NetDest.m_bits d) = Z.to_nat (MachineType_NUM mt) /\
  forall i s, NetDest.m_bits d !! i = Some s ->
    NodeSet.m_nSize s = MachineType_base_count mt (Z.of_nat i).

(** The elements of one bit vector, and of all, in increasing order. *)
Definition set_elems (i : nat) (s : NodeSet.t) : list Z :=
  map (fun j => MachineType_base_number mt (Z.of_nat i) + j)
    (filter (fun j => Z.testbit (NodeSet.bits s) j = true) (range 0 (NodeSet.m_nSize s))).

Fixpoint elems_from (i : nat) (l : list NodeSet.t) : list Z :=
  match l with
  | [] => []
  | s :: l' => set_elems i s ++ elems_from (S i) l'
  end.

Definition dest_elems (d : NetDest.t) : list Z := elems_from 0 (NetDest.m_bits d).

Lemma isElement_inside j s :
  0 <= j < NUMBER_BITS_PER_SET -> NodeSet.isElement j s = Ok (Z.testbit (NodeSet.bits s) j).
Proof.
  intros. unfold NodeSet.isElement.
  rewrite (proj2 (Z.leb_le _ _)), (proj2 (Z.ltb_lt _ _)) by lia. done.
Qed.

Lemma set_dests_elems i s :
  0 <= NodeSet.m_nSize s <= NUMBER_BITS_PER_SET ->
  NetDest.set_dests mt (Z.of_nat i) s = Ok (set_elems i s).
Proof.
  intros Hs. unfold NetDest.set_dests, set_elems, NodeSet.getSize.
  assert (forall l acc, (forall j, j ∈ l -> 0 <= j < NUMBER_BITS_PER_SET) ->
    foldM (fun j dest => e ← NodeSet.isElement j s;
             Ok (if (e : bool) then dest ++ [MachineType_base_number mt (Z.of_nat i) + j]
                 else dest)) l acc =
    Ok (acc ++ map (fun j => MachineType_base_number mt (Z.of_nat i) + j)
          (filter (fun j => Z.testbit (NodeSet.bits s) j = true) l))) as Hgen.
  { induction l as [|j l IH]; intros acc Hl; cbn; [by rewrite app_nil_r|].
    rewrite isElement_inside by (apply Hl; left). cbn.
    destruct (Z.testbit (NodeSet.bits s) j) eqn:E; cbn.
    - rewrite IH by (intros; apply Hl; by right).
      rewrite decide_True by done. cbn. by rewrite <- app_assoc.
    - rewrite IH by (intros; apply Hl; by right).
      rewrite decide_False by done. done. }
  rewrite Hgen; [done|]. intros j Hj%in_range. lia.
Qed.

Lemma dest_wf_size d i s :
  dest_wf d -> NetDest.m_bits d !! i = Some s -> 0 <= NodeSet.m_nSize s <= NUMBER_BITS_PER_SET.
Proof.
  intros [Hlen Hsz] Hs. rewrite (Hsz _ _ Hs). apply lookup_lt_Some in Hs.
  apply (mt_count mt). pose proof (mt_num mt). lia.
Qed.

Lemma getAllDest_elems d : dest_wf d -> NetDest.getAllDest mt d = Ok (dest_elems d).
Proof.
  intros Hwf. unfold NetDest.getAllDest, NetDest.getSize, dest_elems, zlen.
  assert (forall suf pre acc, NetDest.m_bits d = pre ++ suf ->
    foldM (fun i dest => s ← vec_at (NetDest.m_bits d) i; l ← NetDest.set_dests mt i s;
             Ok (dest ++ l))
      (range (Z.of_nat (length pre)) (Z.of_nat (length (NetDest.m_bits d)))) acc =
    Ok (acc ++ elems_from (length pre) suf)) as Hgen.
  { induction suf as [|s suf IH]; intros pre acc Hd.
    - rewrite app_nil_r in Hd. rewrite Hd, range_empty by lia. cbn. by rewrite app_nil_r.
    - assert (NetDest.m_bits d !! length pre = Some s) as Hs.
      { rewrite Hd. by apply list_lookup_middle. }
      rewrite range_cons by (apply lookup_lt_Some in Hs; lia). cbn [foldM].
      assert (vec_at (NetDest.m_bits d) (Z.of_nat (length pre)) = Ok s) as ->.
      { apply vec_at_Ok. rewrite Nat2Z.id. auto with lia. }
      cbn. rewrite set_dests_elems by (by eapply dest_wf_size). cbn.
      specialize (IH (pre ++ [s]) (acc ++ set_elems (length pre) s)).
      rewrite length_app in IH. cbn [length] in IH.
      replace (Z.of_nat (length pre + 1)) with (Z.of_nat (length pre) + 1) in IH by lia.
      rewrite IH by (rewrite Hd, <- app_assoc; done).
      replace (length pre + 1)%nat with (S (length pre)) by lia.
      cbn. by rewrite <- app_assoc. }
  apply (Hgen (NetDest.m_bits d) [] []). done.
Qed.

Lemma base_number_mono i j :
  0 <= i <= j -> j <= MachineType_NUM mt ->
  MachineType_base_number mt i <= MachineType_base_number mt j.
Proof.
  intros [Hi Hij]. revert j Hij.
  apply (Zlt_lower_bound_ind (fun j => j <= MachineType_NUM mt ->
    MachineType_base_number mt i <= MachineType_base_number mt j) i).
  intros j IH Hij Hj. destruct (decide (i = j)) as [->|Hne]; [lia|].
  pose proof (IH (j - 1) ltac:(lia) ltac:(lia)).
  pose proof ((mt_base mt) (j - 1) ltac:(lia)) as Hb. pose proof ((mt_count mt) (j - 1) ltac:(lia)).
  replace (j - 1 + 1) with j in Hb by lia. lia.
Qed.

(** Node ids determine the machine type and the number in it. *)
Lemma base_number_inj i j i' j' :
  0 <= i < MachineType_NUM mt -> 0 <= i' < MachineType_NUM mt ->
  0 <= j < MachineType_base_count mt i -> 0 <= j' < MachineType_base_count mt i' ->
  MachineType_base_number mt i + j = MachineType_base_number mt i' + j' -> i = i' /\ j = j'.
Proof.
  intros Hi Hi' Hj Hj' Heq.
  assert (i = i') as ->; [|lia].
  pose proof ((mt_base mt) i Hi). pose proof ((mt_base mt) i' Hi').
  destruct (Ztrichotomy i i') as [Hlt|[->|Hgt]]; [|done|].
  - pose proof (base_number_mono (i + 1) i' ltac:(lia) ltac:(lia)). lia.
  - pose proof (base_number_mono (i' + 1) i ltac:(lia) ltac:(lia)). lia.
Qed.

Lemma elem_of_elems_from x k l :
  x ∈ elems_from k l <->
  exists i s j, l !! i = Some s /\ 0 <= j < NodeSet.m_nSize s /\
    Z.testbit (NodeSet.bits s) j = true /\
    x = MachineType_base_number mt (Z.of_nat (k + i)) + j.
Proof.
  revert k. induction l as [|s l IH]; intros k; cbn.
  - rewrite elem_of_nil. split; [done|]. by intros (i & s & j & H & _).
  - rewrite elem_of_app, IH. unfold set_elems. rewrite list_elem_of_fmap. split.
    + intros [(j & -> & Hj)|(i & s' & j & Hi & Hj & Hb & ->)].
      * apply list_elem_of_filter in Hj as [Hb Hj]. apply in_range in Hj.
        exists 0%nat, s, j. rewrite Nat.add_0_r. auto.
      * exists (S i), s', j. split_and!; [done|lia|lia|done|]. do 2 f_equal. lia.
    + intros ([|i] & s' & j & Hi & Hj & Hb & ->).
      * injection Hi as <-. left. exists j. rewrite Nat.add_0_r. split; [done|].
        apply list_elem_of_filter. rewrite in_range. auto.
      * right. exists i, s', j. split_and!; [done|lia|lia|done|]. do 2 f_equal. lia.
Qed.

(** Membership of a machine, as the bit of its type's vector. *)
Definition member (i j : Z) (d : NetDest.t) : Prop :=
  exists s, NetDest.m_bits d !! Z.to_nat i = Some s /\ Z.testbit (NodeSet.bits s) j = true.

Lemma elem_of_dest_elems d i j :
  dest_wf d -> 0 <= i < MachineType_NUM mt -> 0 <= j < MachineType_base_count mt i ->
  MachineType_base_number mt i + j ∈ dest_elems d <-> member i j d.
Proof.
  intros [Hlen Hsz] Hi Hj. unfold dest_elems, member. rewrite elem_of_elems_from. split.
  - intros (k & s & j' & Hk & Hj' & Hb & Heq). cbn in Heq.
    rewrite (Hsz _ _ Hk) in Hj'. pose proof (lookup_lt_Some _ _ _ Hk).
    destruct (base_number_inj i j (Z.of_nat k) j') as [-> ->]; [lia..|done|].
    exists s. rewrite Nat2Z.id. done.
  - intros (s & Hs & Hb). exists (Z.to_nat i), s, j. pose proof (Hsz _ _ Hs) as Hn.
    rewrite Z2Nat.id in Hn by lia. cbn. rewrite Z2Nat.id by lia. rewrite Hn. auto.
Qed.

Lemma dest_elems_inv d x :
  dest_wf d -> x ∈ dest_elems d ->
  exists i j, 0 <= i < MachineType_NUM mt /\ 0 <= j < MachineType_base_count mt i /\
    x = MachineType_base_number mt i + j /\ member i j d.
Proof.
  intros [Hlen Hsz] Hx. unfold dest_elems in Hx.
  apply elem_of_elems_from in Hx as (k & s & j & Hk & Hj & Hb & ->).
  rewrite (Hsz _ _ Hk) in Hj. pose proof (lookup_lt_Some _ _ _ Hk).
  exists (Z.of_nat k), j. split_and!; [lia|lia|lia|lia|done|].
  exists s. rewrite Nat2Z.id. done.
Qed.

Lemma StronglySorted_app {A} (R : A -> A -> Prop) l1 l2 :
  StronglySorted R l1 -> StronglySorted R l2 ->
  (forall x y, x ∈ l1 -> y ∈ l2 -> R x y) -> StronglySorted R (l1 ++ l2).
Proof.
  induction 1 as [|x l1 Hs IH Hx]; intros H2 Hc; [done|]. cbn. constructor.
  - apply IH; [done|]. intros; apply Hc; set_solver.
  - apply Forall_app. split; [done|]. apply Forall_forall. intros; apply Hc; set_solver.
Qed.

Lemma set_elems_sorted i s : StronglySorted Z.lt (set_elems i s).
Proof.
  unfold set_elems. generalize (NodeSet.m_nSize s) as hi. intros hi.
  assert (forall n lo, (Z.to_nat (hi - lo) = n)%nat ->
    StronglySorted Z.lt (map (fun j => MachineType_base_number mt (Z.of_nat i) + j)
      (filter (fun j => Z.testbit (NodeSet.bits s) j = true) (range lo hi)))) as Hgen.
  { induction n as [|n IH]; intros lo Hn.
    - rewrite range_empty by lia. constructor.
    - rewrite range_cons by lia. cbn. destruct (decide _); [|apply IH; lia].
      cbn. constructor; [apply IH; lia|]. apply Forall_forall. intros x Hx.
      apply list_elem_of_fmap in Hx as (j & -> & Hj).
      apply list_elem_of_filter in Hj as [_ Hj]. apply in_range in Hj. lia. }
  by eapply (Hgen _ 0).
Qed.

Lemma dest_elems_sorted d : dest_wf d -> StronglySorted Z.lt (dest_elems d).
Proof.
  intros Hwf. unfold dest_elems.
  assert (forall suf pre, NetDest.m_bits d = pre ++ suf ->
    StronglySorted Z.lt (elems_from (length pre) suf)) as Hgen.
  { induction suf as [|s suf IH]; intros pre Hd; cbn; [constructor|].
    apply StronglySorted_app; [apply set_elems_sorted| |].
    - specialize (IH (pre ++ [s])). rewrite length_app in IH. cbn in IH.
      rewrite Nat.add_1_r in IH. apply IH. by rewrite Hd, <- app_assoc.
    - intros x y Hx Hy. unfold set_elems in Hx.
      apply list_elem_of_fmap in Hx as (j & -> & Hj).
      apply list_elem_of_filter in Hj as [_ Hj]. apply in_range in Hj.
      apply elem_of_elems_from in Hy as (k & s' & j' & Hk & Hj' & _ & ->).
      assert (NetDest.m_bits d !! length pre = Some s) as Hs
        by (rewrite Hd; by apply list_lookup_middle).
      destruct Hwf as [Hlen Hsz]. rewrite (Hsz _ _ Hs) in Hj.
      assert (Hb : (length pre + S k < length (NetDest.m_bits d))%nat).
      { rewrite Hd, length_app. cbn. apply lookup_lt_Some in Hk. lia. }
      pose proof ((mt_base mt) (Z.of_nat (length pre)) ltac:(lia)).
      pose proof (base_number_mono (Z.of_nat (length pre) + 1)
                    (Z.of_nat (S (length pre) + k)) ltac:(lia) ltac:(lia)). lia. }
  by apply (Hgen _ []).
Qed.

(** ** The operations on bit vectors *)

Lemma zip_bits_inv op bs os rs :
  NetDest.zip_bits op bs os = Ok rs ->
  length rs = length bs /\
  forall i b, bs !! i = Some b -> exists o r, os !! i = Some o /\ rs !! i = Some r /\ op o b = Ok r.
Proof.
  revert os rs. induction bs as [|b bs IH]; intros os rs H; cbn in H.
  - simplify_res. done.
  - destruct os as [|o os]; [done|]. inv_bind H. inv_bind H. simplify_res.
    destruct (IH _ _ E0) as [Hlen Hall]. split; [cbn; lia|].
    intros [|i] b' Hb; [injection Hb as <-; cbn; eauto | by apply Hall].
Qed.

Lemma zip_bits_total op bs os :
  length bs = length os ->
  (forall i b o, bs !! i = Some b -> os !! i = Some o -> exists r, op o b = Ok r) ->
  exists rs, NetDest.zip_bits op bs os = Ok rs.
Proof.
  revert os. induction bs as [|b bs IH]; intros [|o os] Hlen Hop; try done; [by eexists|].
  cbn. destruct (Hop 0%nat b o) as [r ->]; [done..|]. cbn.
  destruct (IH os) as [rs ->]; [cbn in Hlen; lia|intros i; apply (Hop (S i))|]. cbn. eauto.
Qed.

(** [zip_bits] with an operation that combines the bits of two vectors. *)
Lemma zip_bits_member op (f : bool -> bool -> bool) bs nd d :
  (forall o s s', NodeSet.m_nSize s = NodeSet.m_nSize o -> op o s = Ok s' ->
     NodeSet.m_nSize s' = NodeSet.m_nSize s /\
     forall j, 0 <= j -> Z.testbit (NodeSet.bits s') j
                 = f (Z.testbit (NodeSet.bits s) j) (Z.testbit (NodeSet.bits o) j)) ->
  dest_wf nd -> dest_wf d -> NetDest.zip_bits op (NetDest.m_bits d) (NetDest.m_bits nd) = Ok bs ->
  dest_wf (NetDest.mk bs) /\
  forall i s', bs !! i = Some s' -> exists s o, NetDest.m_bits d !! i = Some s /\
    NetDest.m_bits nd !! i = Some o /\
    forall j, 0 <= j -> Z.testbit (NodeSet.bits s') j
                = f (Z.testbit (NodeSet.bits s) j) (Z.testbit (NodeSet.bits o) j).
Proof.
  intros Hop [Hn1 Hn2] [Hd1 Hd2] Hz. destruct (zip_bits_inv _ _ _ _ Hz) as [Hlen Hall].
  assert (forall i s', bs !! i = Some s' -> exists s o, NetDest.m_bits d !! i = Some s /\
    NetDest.m_bits nd !! i = Some o /\ NodeSet.m_nSize s' = NodeSet.m_nSize s /\
    forall j, 0 <= j -> Z.testbit (NodeSet.bits s') j
                = f (Z.testbit (NodeSet.bits s) j) (Z.testbit (NodeSet.bits o) j)) as Hi.
  { intros i s' Hs'. destruct (lookup_lt_is_Some_2 (NetDest.m_bits d) i) as [s Hs].
    { apply lookup_lt_Some in Hs'. lia. }
    destruct (Hall _ _ Hs) as (o & r & Ho & Hr & Hf). rewrite Hs' in Hr. injection Hr as <-.
    apply Hop in Hf as [Hsz Hbits]; [|by rewrite (Hd2 _ _ Hs), (Hn2 _ _ Ho)]. eauto 10. }
  split; [split; [cbn; lia|]|].
  - intros i s' Hs'. destruct (Hi _ _ Hs') as (s & o & Hs & _ & -> & _). by apply Hd2.
  - intros i s' Hs'. destruct (Hi _ _ Hs') as (s & o & Hs & Ho & _ & Hb). eauto.
Qed.

Lemma removeSet_spec obj s :
  NodeSet.m_nSize s = NodeSet.m_nSize obj ->
  exists s', NodeSet.removeSet obj s = Ok s' /\ NodeSet.m_nSize s' = NodeSet.m_nSize s /\
    forall j, 0 <= j -> Z.testbit (NodeSet.bits s') j
                = Z.testbit (NodeSet.bits s) j && negb (Z.testbit (NodeSet.bits obj) j).
Proof.
  intros Heq. unfold NodeSet.removeSet, assert_. rewrite Heq, Z.eqb_refl. cbn.
  eexists. split_and!; [done|done|]. intros j Hj. cbn. by rewrite Z.ldiff_spec.
Qed.

Lemma removeNetDest_spec nd d :
  dest_wf nd -> dest_wf d ->
  exists d', NetDest.removeNetDest nd d = Ok d' /\ dest_wf d' /\
    forall i j, 0 <= j -> member i j d' <-> member i j d /\ ~ member i j nd.
Proof.
  intros Hn Hd. unfold NetDest.removeNetDest, assert_, NetDest.getSize, zlen.
  rewrite (proj2 (Z.eqb_eq _ _)) by (destruct Hn, Hd; lia). cbn.
  destruct (zip_bits_total NodeSet.removeSet (NetDest.m_bits d) (NetDest.m_bits nd))
    as [bs Hbs]; [destruct Hn, Hd; lia| |].
  { intros i b o Hb Ho. destruct (removeSet_spec o b) as (s' & -> & _); [|eauto].
    destruct Hn as [_ Hn], Hd as [_ Hd]. by rewrite (Hd _ _ Hb), (Hn _ _ Ho). }
  rewrite Hbs. cbn.
  destruct (zip_bits_member NodeSet.removeSet (fun a b => a && negb b) bs nd d) as [Hwf Hbits];
    [|done|done|done|].
  { intros o s s' Hsz Hop. destruct (removeSet_spec o s Hsz) as (s2 & Hs2 & ? & ?).
    rewrite Hop in Hs2. by simplify_res. }
  eexists. split; [done|]. split; [done|]. intros i j Hj. unfold member. cbn. split.
  - intros (s' & Hs' & Hb'). destruct (Hbits _ _ Hs') as (b & o & Hb & Ho & Hf).
    rewrite Hf in Hb' by done. apply andb_true_iff in Hb' as [? Hneg].
    split; [eauto|]. intros (o' & Ho' & Hbo). rewrite Ho in Ho'. injection Ho' as <-.
    by rewrite Hbo in Hneg.
  - intros [(b & Hb & Hbb) Hno].
    destruct (lookup_lt_is_Some_2 bs (Z.to_nat i)) as [s' Hs'].
    { apply lookup_lt_Some in Hb. destruct Hwf as [Hw _], Hd as [Hl _]. cbn in Hw. lia. }
    exists s'. split; [done|]. destruct (Hbits _ _ Hs') as (b' & o & Hb' & Ho & Hf).
    rewrite Hb in Hb'. injection Hb' as <-. rewrite Hf by done. rewrite Hbb. cbn.
    apply negb_true_iff, not_true_is_false. intros E. apply Hno. eauto.
Qed.

Lemma mapM_sizes_total (f : Z -> Res NodeSet.t) l :
  (forall i, i ∈ l -> exists s, f i = Ok s) ->
  exists bs, mapM f l = Ok bs /\ length bs = length l /\
    forall k i s, l !! k = Some i -> bs !! k = Some s -> f i = Ok s.
Proof.
  induction l as [|x l IH]; intros Hf; cbn; [by exists []|].
  destruct (Hf x) as [s Hs]; [left|]. rewrite Hs. cbn.
  destruct IH as (bs & -> & Hlen & Hall); [intros; apply Hf; by right|]. cbn.
  exists (s :: bs). split_and!; [done|cbn; lia|].
  intros [|k] i s' Hi Hs'; cbn in *; [by simplify_eq|eauto].
Qed.

Lemma NetDest_new_spec :
  exists d, NetDest.new mt = Ok d /\ dest_wf d /\ forall i j, ~ member i j d.
Proof.
  pose proof (mt_num mt). unfold NetDest.new, NetDest.resize, assert_.
  rewrite (mt_level mt), Z.eqb_refl by lia. cbn.
  destruct (mapM_sizes_total (fun i => NodeSet.setSize (MachineType_base_count mt i)
    NodeSet.empty) (range 0 (MachineType_NUM mt))) as (bs & -> & Hlen & Hall).
  { intros i Hi%in_range. unfold NodeSet.setSize. rewrite Z.gtb_ltb.
    pose proof ((mt_count mt) i Hi). rewrite (proj2 (Z.ltb_ge _ _)) by lia. eauto. }
  cbn. eexists. split; [done|].
  assert (forall k s, bs !! k = Some s ->
    s = NodeSet.mk (MachineType_base_count mt (Z.of_nat k)) 0) as Hk.
  { intros k s Hs. pose proof (lookup_lt_Some _ _ _ Hs) as Hlt. rewrite Hlen in Hlt.
    unfold range in Hlt, Hall. rewrite length_seqZ in Hlt.
    pose proof (Hall k (Z.of_nat k) s) as Hset. rewrite lookup_seqZ in Hset.
    specialize (Hset ltac:(lia) Hs). unfold NodeSet.setSize in Hset.
    destruct (_ >? _); [done|]. by simplify_res. }
  split.
  - split; [cbn; rewrite Hlen; unfold range; rewrite length_seqZ; lia|].
    intros i s Hs. cbn in Hs. by rewrite (Hk _ _ Hs).
  - intros i j (s & Hs & Hb). cbn in Hs. apply Hk in Hs as ->. by rewrite Z.bits_0 in Hb.
Qed.

Lemma NetDest_clear_spec d :
  dest_wf d -> dest_wf (NetDest.clear d) /\ forall i j, ~ member i j (NetDest.clear d).
Proof.
  intros [Hlen Hsz]. split.
  - split; [cbn; by rewrite length_map|]. intros i s Hs.
    change (NetDest.m_bits (NetDest.clear d)) with (NodeSet.clear <$> NetDest.m_bits d) in Hs.
    apply list_lookup_fmap_Some in Hs as (s0 & -> & Hs0). exact (Hsz _ _ Hs0).
  - intros i j (s & Hs & Hb).
    change (NetDest.m_bits (NetDest.clear d)) with (NodeSet.clear <$> NetDest.m_bits d) in Hs.
    apply list_lookup_fmap_Some in Hs as (s0 & -> & _).
    by rewrite Z.bits_0 in Hb.
Qed.

Lemma NetDest_add_spec i j d :
  dest_wf d -> 0 <= i < MachineType_NUM mt -> 0 <= j < MachineType_base_count mt i ->
  exists d', NetDest.add mt (mkMachineID i j) d = Ok d' /\ dest_wf d' /\
    forall i' j', 0 <= i' -> 0 <= j' ->
      member i' j' d' <-> member i' j' d \/ (i' = i /\ j' = j).
Proof.
  intros [Hlen Hsz] Hi Hj. pose proof ((mt_count mt) i Hi) as Hc. pose proof (mt_num mt).
  unfold NetDest.add, NetDest.vecIndex, NetDest.getSize, NetDest.bitIndex, NodeSet.getSize. cbn.
  rewrite (mt_level mt) by lia. unfold assert_ at 1, zlen.
  rewrite Hlen, Z2Nat.id by lia. unfold u64. rewrite Z.mod_small by lia.
  rewrite (proj2 (Z.ltb_lt _ _)) by lia. cbn.
  destruct (vec_at_total (NetDest.m_bits d) i) as [s Hs]; [unfold zlen; lia|].
  rewrite Hs. cbn. apply vec_at_Ok in Hs as [_ Hs]. pose proof (Hsz _ _ Hs) as Hn.
  rewrite Z2Nat.id in Hn by lia. unfold assert_, u32. rewrite Hn, Z.mod_small.
  2:{ unfold NUMBER_BITS_PER_SET in Hc. lia. }
  rewrite (proj2 (Z.ltb_lt _ _)) by lia. cbn. unfold NodeSet.add.
  rewrite (proj2 (Z.leb_le _ _)), (proj2 (Z.ltb_lt _ _)) by lia. cbn.
  rewrite vec_set_Ok by (unfold zlen; lia). cbn. eexists. split; [done|].
  pose proof (lookup_lt_Some _ _ _ Hs). split.
  - split; [cbn; by rewrite length_insert|]. intros k s' Hs'. cbn in Hs'.
    apply list_lookup_insert_Some in Hs' as [(<- & <- & _)|[_ Hs']]; [|by apply Hsz].
    cbn. by rewrite Z2Nat.id by lia.
  - intros i' j' Hi' Hj'. unfold member. cbn. destruct (decide (i' = i)) as [->|Hne].
    + rewrite list_lookup_insert_eq by done. split.
      * intros (s' & [= <-] & Hb). cbn in Hb. rewrite Z.setbit_eqb in Hb by lia.
        destruct (Z.eqb_spec j j') as [->|]; [by right|]. left. eauto.
      * intros [(s' & Hs' & Hb)|[_ ->]]; eexists; (split; [done|]); cbn;
          rewrite Z.setbit_eqb by lia.
        -- rewrite Hs in Hs'. injection Hs' as <-. rewrite Hb. by destruct (_ =? _).
        -- by rewrite Z.eqb_refl.
    + rewrite list_lookup_insert_ne by lia. split; [by left|]. by intros [?|[? _]].
Qed.

Lemma NodeSet_AND_spec o s s' :
  NodeSet.AND o s = Ok s' ->
  NodeSet.m_nSize s' = NodeSet.m_nSize s /\
  forall j, 0 <= j -> Z.testbit (NodeSet.bits s') j
              = Z.testbit (NodeSet.bits s) j && Z.testbit (NodeSet.bits o) j.
Proof.
  unfold NodeSet.AND, NodeSet.new. intros H. inv_bind H. destruct (_ >? _); [done|]. simplify_res.
  split; [done|]. intros j Hj. cbn. apply Z.land_spec.
Qed.

Lemma NetDest_AND_spec nd d :
  dest_wf nd -> dest_wf d ->
  exists d', NetDest.AND mt nd d = Ok d' /\ dest_wf d' /\
    forall i j, 0 <= j -> member i j d' <-> member i j d /\ member i j nd.
Proof.
  intros Hn Hd. destruct NetDest_new_spec as (r & Hr & [Hr1 _] & _).
  unfold NetDest.AND, assert_, NetDest.getSize, zlen.
  rewrite (proj2 (Z.eqb_eq _ _)) by (destruct Hn, Hd; lia). cbn. rewrite Hr. cbn.
  destruct (zip_bits_total NodeSet.AND (NetDest.m_bits d) (NetDest.m_bits nd)) as [bs Hbs];
    [destruct Hn, Hd; lia| |].
  { intros i b o Hb Ho. unfold NodeSet.AND, assert_, NodeSet.new.
    pose proof (dest_wf_size _ _ _ Hd Hb). destruct Hn as [_ Hn], Hd as [_ Hd].
    rewrite (proj2 (Z.eqb_eq _ _)) by (by rewrite (Hd _ _ Hb), (Hn _ _ Ho)). cbn.
    rewrite Z.gtb_ltb, (proj2 (Z.ltb_ge _ _)) by lia. cbn. eauto. }
  rewrite Hbs. cbn.
  destruct (zip_bits_member NodeSet.AND andb bs nd d) as [Hwf Hbits]; [|done..|].
  { intros o s s' _ H. by apply NodeSet_AND_spec. }
  assert (length bs = length (NetDest.m_bits r)) as Hlen by (destruct Hwf as [Hw _]; cbn in Hw; lia).
  unfold NetDest.store_prefix, NetDest.getSize, zlen. rewrite Hlen, Z.leb_refl, drop_all, app_nil_r.
  eexists. split; [done|]. split; [done|]. intros i j Hj. unfold member. cbn. split.
  - intros (s' & Hs' & Hb). destruct (Hbits _ _ Hs') as (s & o & Hs & Ho & Hf).
    rewrite Hf in Hb by done. apply andb_true_iff in Hb as [? ?]. split; [by exists s|by exists o].
  - intros [(s & Hs & Hb) (o & Ho & Hbo)].
    destruct (lookup_lt_is_Some_2 bs (Z.to_nat i)) as [s' Hs'].
    { apply lookup_lt_Some in Hs. destruct Hwf as [Hw _], Hd as [Hd _]. cbn in Hw. lia. }
    exists s'. split; [done|]. destruct (Hbits _ _ Hs') as (s2 & o2 & Hs2 & Ho2 & Hf).
    rewrite Hs in Hs2. rewrite Ho in Ho2. simplify_eq. rewrite Hf by done. by rewrite Hb, Hbo.
Qed.

End Facts.

Lemma isElement_member mt `{!MachineTypesOk mt} d i j :
  dest_wf mt d -> 0 <= i < MachineType_NUM mt -> 0 <= j < MachineType_base_count mt i ->
  exists b, NetDest.isElement mt (mkMachineID i j) d = Ok b /\ (b = true <-> member i j d).
Proof.
  intros [Hlen Hsz] Hi Hj. pose proof (mt_num mt). pose proof (mt_count mt i Hi).
  unfold NetDest.isElement, NetDest.vecIndex, NetDest.getSize, NetDest.bitIndex. cbn.
  rewrite (mt_level mt) by lia. unfold assert_, zlen.
  rewrite Hlen, Z2Nat.id by lia. unfold u64. rewrite Z.mod_small by lia.
  rewrite (proj2 (Z.ltb_lt _ _)) by lia. cbn.
  destruct (vec_at_total (NetDest.m_bits d) i) as [s Hs]; [unfold zlen; lia|].
  rewrite Hs. cbn. rewrite isElement_inside by lia.
  exists (Z.testbit (NodeSet.bits s) j). split; [done|].
  apply vec_at_Ok in Hs as [_ Hs]. unfold member. split; [eauto|].
  intros (s' & Hs' & Hb). congruence.
Qed.

Lemma land_nonzero a b : Z.land a b <> 0 <-> exists j, 0 <= j /\ Z.testbit a j = true /\ Z.testbit b j = true.
Proof.
  split.
  - intros Hne.
    assert (exists j, 0 <= j /\ Z.testbit (Z.land a b) j = true) as (j & Hj & Hb).
    { destruct (Z.lt_trichotomy (Z.land a b) 0) as [Hneg|[Hz|Hpos]]; [|done|].
      - exists (Z.log2 (Z.pred (- Z.land a b)) + 1).
        pose proof (Z.log2_nonneg (Z.pred (- Z.land a b))). split; [lia|].
        apply Z.bits_above_log2_neg; [done|lia].
      - exists (Z.log2 (Z.land a b)). split; [apply Z.log2_nonneg|]. by apply Z.bit_log2. }
    rewrite Z.land_spec in Hb. apply andb_true_iff in Hb as [? ?]. eauto.
  - intros (j & Hj & Ha & Hb) Heq.
    assert (Z.testbit (Z.land a b) j = true) as Ht by (rewrite Z.land_spec, Ha, Hb; done).
    by rewrite Heq, Z.bits_0 in Ht.
Qed.

(** ** Theorems *)

(** On a well-formed destination set [getAllDest] always returns: it
    lists, without repetition and in increasing order, exactly the node ids
    of the machines that [isElement] finds in the set. *)
Theorem getAllDest_correct mt `{!MachineTypesOk mt} d :
  dest_wf mt d ->
  exists l, NetDest.getAllDest mt d = Ok l /\ StronglySorted Z.lt l /\
    (forall x, x ∈ l -> exists i j, 0 <= i < MachineType_NUM mt /\
       0 <= j < MachineType_base_count mt i /\ x = MachineType_base_number mt i + j) /\
    (forall i j, 0 <= i < MachineType_NUM mt -> 0 <= j < MachineType_base_count mt i ->
       NetDest.isElement mt (mkMachineID i j) d
       = Ok (bool_decide (MachineType_base_number mt i + j ∈ l))).
Proof.
  intros Hwf. exists (dest_elems mt d). split_and!.
  - by apply getAllDest_elems.
  - by apply dest_elems_sorted.
  - intros x Hx. apply dest_elems_inv in Hx as (i & j & ? & ? & ? & _); eauto.
  - intros i j Hi Hj. destruct (isElement_member mt d i j) as (b & -> & Hb); [done..|].
    f_equal. pose proof (elem_of_dest_elems mt d i j Hwf Hi Hj).
    destruct b; symmetry; [apply bool_decide_eq_true | apply bool_decide_eq_false]; naive_solver.
Qed.

Lemma intersectionIsNotEmpty_spec mt d1 d2 :
  dest_wf mt d1 -> dest_wf mt d2 ->
  exists b, NetDest.intersectionIsNotEmpty d1 d2 = Ok b /\
    (b = true <-> exists i j, 0 <= i /\ 0 <= j /\ member i j d1 /\ member i j d2).
Proof.
  intros [Hl1 _] [Hl2 _].
  unfold NetDest.intersectionIsNotEmpty, NetDest.getSize, assert_, zlen.
  rewrite (proj2 (Z.eqb_eq _ _)) by lia. cbn. eexists. split; [done|].
  rewrite existsb_exists. unfold member, NodeSet.intersectionIsEmpty. split.
  - intros ([s2 s1] & Hin & Hb). apply negb_true_iff, Z.eqb_neq in Hb. cbn in Hb.
    apply list_elem_of_In, list_elem_of_lookup in Hin as [k Hk].
    apply lookup_zip_Some in Hk as [Hk2 Hk1]. cbn in *.
    apply land_nonzero in Hb as (j & Hj & Hb2 & Hb1).
    exists (Z.of_nat k), j. rewrite Nat2Z.id. split_and!; eauto with lia.
  - intros (i & j & Hi & Hj & (s1 & Hs1 & Hb1) & (s2 & Hs2 & Hb2)).
    exists (s2, s1). split.
    + apply list_elem_of_In, list_elem_of_lookup. exists (Z.to_nat i).
      by apply lookup_zip_Some.
    + cbn. apply negb_true_iff, Z.eqb_neq, land_nonzero. eauto.
Qed.

(** [intersectionIsNotEmpty], the test of the routing table, always
    returns on two well-formed sets, and returns [true] exactly when a
    machine belongs to both. *)
Theorem intersectionIsNotEmpty_correct mt d1 d2 :
  dest_wf mt d1 -> dest_wf mt d2 ->
  exists b, NetDest.intersectionIsNotEmpty d1 d2 = Ok b /\
    (b = true <-> exists i j, 0 <= i /\ 0 <= j /\ member i j d1 /\ member i j d2).
Proof. apply intersectionIsNotEmpty_spec. Qed.

(** Two machine types, of four and of two machines. *)
Definition mt_example : MachineTypes := {|
  MachineType_NUM := 2;
  MachineType_base_level := fun i => i;
  MachineType_base_count := fun i => if i =? 0 then 4 else 2;
  MachineType_base_number := fun i => if i =? 0 then 0 else if i =? 1 then 4 else 6
|}.

#[export] Instance mt_example_ok : MachineTypesOk mt_example.
Proof.
  split; cbn; try lia.
  - intros i Hi. unfold NUMBER_BITS_PER_SET. destruct (i =? 0); lia.
  - intros i Hi. assert (i = 0 \/ i = 1) as [-> | ->] by lia; reflexivity.
Defined.

(** Machines 1 and 3 of the first type and machine 0 of the second. *)
Definition dest_example : NetDest.t := NetDest.mk [NodeSet.mk 4 10; NodeSet.mk 2 1].
Definition dest_example2 : NetDest.t := NetDest.mk [NodeSet.mk 4 2; NodeSet.mk 2 0].

Lemma dest_example_wf : dest_wf mt_example dest_example.
Proof. split; [reflexivity|]. intros [|[|i]] s Hs; cbn in Hs; simplify_eq; reflexivity. Defined.

Lemma dest_example2_wf : dest_wf mt_example dest_example2.
Proof. split; [reflexivity|]. intros [|[|i]] s Hs; cbn in Hs; simplify_eq; reflexivity. Defined.

Lemma getAllDest_correct_witness :
  NetDest.getAllDest mt_example dest_example = Ok [1; 3; 4] /\
  exists l, NetDest.getAllDest mt_example dest_example = Ok l /\ StronglySorted Z.lt l.
Proof.
  split; [vm_compute; reflexivity|].
  destruct (getAllDest_correct mt_example dest_example dest_example_wf) as (l & H & Hs & _).
  exists l. split; [exact H | exact Hs].
Defined.

Lemma intersectionIsNotEmpty_correct_witness :
  NetDest.intersectionIsNotEmpty dest_example dest_example2 = Ok true /\
  exists b, NetDest.intersectionIsNotEmpty dest_example dest_example2 = Ok b.
Proof.
  split; [vm_compute; reflexivity|].
  destruct (intersectionIsNotEmpty_correct mt_example dest_example dest_example2
              dest_example_wf dest_example2_wf) as (b & H & _).
  exists b. exact H.
Defined.
