(* ===== verification/Types.v ===== *)
(** * Common types, messages, flits and credits

    Models src/mem/ruby/network/garnet2.0/CommonTypes.hh, flit.{hh,cc},
    Credit.{hh,cc}, the [Message] base class of
    src/mem/ruby/slicc_interface/Message.hh, the configuration members of
    [GarnetNetwork] and the wake-up bookkeeping of
    src/mem/ruby/common/Consumer.{hh,cc}. *)

From S2P Require Import Prelude NetDest.

(** ** Enumerations of CommonTypes.hh *)

Inductive flit_type := HEAD_ | BODY_ | TAIL_ | HEAD_TAIL_ | NUM_FLIT_TYPE_.
Inductive VC_state_type := IDLE_ | VC_AB_ | ACTIVE_ | NUM_VC_STATE_TYPE_.
Inductive VNET_type := CTRL_VNET_ | DATA_VNET_ | NULL_VNET_ | NUM_VNET_TYPE_.
Inductive flit_stage := I_ | VA_ | SA_ | ST_ | LT_ | NUM_FLIT_STAGE_.
Inductive link_type := EXT_IN_ | EXT_OUT_ | INT_ | NUM_LINK_TYPES_.
Inductive RoutingAlgorithm :=
  TABLE_ | XY_ | RANDOM_ | ADAPT_RAND_ | WestFirst_ | ADAPT_WestFirst_ | CUSTOM_
  | OTHER_ALGORITHM_ (n : Z).

#[global] Instance flit_type_eq_dec : EqDecision flit_type.
Proof. solve_decision. Defined.
#[global] Instance VC_state_type_eq_dec : EqDecision VC_state_type.
Proof. solve_decision. Defined.
#[global] Instance VNET_type_eq_dec : EqDecision VNET_type.
Proof. solve_decision. Defined.
#[global] Instance flit_stage_eq_dec : EqDecision flit_stage.
Proof. solve_decision. Defined.
#[global] Instance link_type_eq_dec : EqDecision link_type.
Proof. solve_decision. Defined.
#[global] Instance RoutingAlgorithm_eq_dec : EqDecision RoutingAlgorithm.
Proof. solve_decision. Defined.

Definition RoutingAlgorithm_of_int (n : Z) : RoutingAlgorithm :=
  if n =? 0 then TABLE_ else if n =? 1 then XY_ else if n =? 2 then RANDOM_
  else if n =? 3 then ADAPT_RAND_ else if n =? 4 then WestFirst_
  else if n =? 5 then ADAPT_WestFirst_ else if n =? 6 then CUSTOM_
  else OTHER_ALGORITHM_ n.

Definition INFINITE_ : Z := 10000.

(** [typedef std::string PortDirection] *)
Abbreviation PortDirection := string.

(** ** [struct RouteInfo] *)
Module RouteInfo.

Record t := mk {
  vnet : Z;
  net_dest : NetDest.t;
  src_ni : Z;
  src_router : Z;
  dest_ni : Z;
  dest_router : Z;
  hops_traversed : Z
}.

Definition default (nd : NetDest.t) : t := mk (-1) nd (-1) (-1) (-1) (-1) (-1).

Definition set_hops_traversed (h : Z) (r : t) : t :=
  mk (vnet r) (net_dest r) (src_ni r) (src_router r) (dest_ni r) (dest_router r) h.

End RouteInfo.

(** ** [class Message]

    The members the network reads and writes; [m_dest] stands for the
    destination of the generated subclass and [m_payload] for the rest of
    it. *)
Module Message.

Record t := mk {
  m_time : Z;
  m_LastEnqueueTime : Z;
  m_DelayedTicks : Z;
  m_msg_counter : Z;
  m_dest : NetDest.t;
  m_payload : Z
}.

Definition new (curTime : Z) (dest : NetDest.t) (payload : Z) : t :=
  mk curTime curTime 0 0 dest payload.

Definition getDestination (m : t) : NetDest.t := m_dest m.

Definition set_dest (d : NetDest.t) (m : t) : t :=
  mk (m_time m) (m_LastEnqueueTime m) (m_DelayedTicks m) (m_msg_counter m) d (m_payload m).

Definition updateDelayedTicks (curTime : Z) (m : t) : Res t :=
  _ ← assert_ (m_LastEnqueueTime m <=? curTime) "Message.hh:82";
  let delta := curTime - m_LastEnqueueTime m in
  Ok (mk (m_time m) (m_LastEnqueueTime m) (u64 (m_DelayedTicks m + delta))
        (m_msg_counter m) (m_dest m) (m_payload m)).

Definition setLastEnqueueTime (time : Z) (m : t) : t :=
  mk (m_time m) time (m_DelayedTicks m) (m_msg_counter m) (m_dest m) (m_payload m).

Definition setMsgCounter (c : Z) (m : t) : t :=
  mk (m_time m) (m_LastEnqueueTime m) (m_DelayedTicks m) c (m_dest m) (m_payload m).

(** [operator>(const MsgPtr &, const MsgPtr &)] *)
Definition greater (l r : t) : bool :=
  if m_LastEnqueueTime l =? m_LastEnqueueTime r
  then m_msg_counter l >? m_msg_counter r
  else m_LastEnqueueTime l >? m_LastEnqueueTime r.

End Message.

(** ** [class flit]

    [Credit] derives from [flit] and both travel in the same buffers, so one
    record models an object of either class: [m_is_free_signal] is the member
    of the derived part, [None] when the object is a plain [flit]. *)
Module flit.

Record t := mk {
  m_marked : bool;
  m_request_uturn : bool;
  hops_needed_before_spin : Z;
  hops_needed_after_spin : Z;
  m_id : Z;
  m_vnet : Z;
  m_vc : Z;
  m_route : RouteInfo.t;
  m_size : Z;
  m_enqueue_time : Z;
  m_dequeue_time : Z;
  m_time : Z;
  m_type : flit_type;
  m_msg_ptr : option Message.t;
  m_outport : Z;
  m_outport_dir : PortDirection;
  src_delay : Z;
  m_stage : flit_stage * Z;
  m_is_free_signal : option bool
}.

(** The constructors leave some members uninitialised; what a run finds
    there is an argument. *)
Record indet := mk_indet {
  i_marked : bool;
  i_request_uturn : bool;
  i_type : flit_type;
  i_outport : Z
}.

Definition default (u : indet) (nd : NetDest.t) : t :=
  mk (i_marked u) (i_request_uturn u) (-1) (-1) (-1) (-1) (-1) (RouteInfo.default nd)
     (-1) 0 0 0 (i_type u) None (-1) "Unknown" 0 (I_, 0) None.

Definition type_of (id size : Z) : flit_type :=
  if size =? 1 then HEAD_TAIL_
  else if id =? 0 then HEAD_
  else if id =? size - 1 then TAIL_
  else BODY_.

Definition new (u : indet) (id vc vnet : Z) (route : RouteInfo.t) (size : Z)
    (msg_ptr : Message.t) (curTime : Z) (marked : bool) : t :=
  mk marked false (-1) (-1) id vnet vc route size curTime curTime curTime
     (type_of id size) (Some msg_ptr) (i_outport u) "Unknown" 0 (I_, curTime) None.

(** Setters of flit.hh; [upd_] functions are assignments to public members. *)
Definition set_request_uturn (b : bool) (f : t) : t :=
  mk (m_marked f) b (hops_needed_before_spin f) (hops_needed_after_spin f) (m_id f)
     (m_vnet f) (m_vc f) (m_route f) (m_size f) (m_enqueue_time f) (m_dequeue_time f)
     (m_time f) (m_type f) (m_msg_ptr f) (m_outport f) (m_outport_dir f) (src_delay f)
     (m_stage f) (m_is_free_signal f).

Definition set_hops_needed (before after : Z) (f : t) : t :=
  mk (m_marked f) (m_request_uturn f) before after (m_id f)
     (m_vnet f) (m_vc f) (m_route f) (m_size f) (m_enqueue_time f) (m_dequeue_time f)
     (m_time f) (m_type f) (m_msg_ptr f) (m_outport f) (m_outport_dir f) (src_delay f)
     (m_stage f) (m_is_free_signal f).

Definition set_vc (vc : Z) (f : t) : t :=
  mk (m_marked f) (m_request_uturn f) (hops_needed_before_spin f) (hops_needed_after_spin f)
     (m_id f) (m_vnet f) vc (m_route f) (m_size f) (m_enqueue_time f) (m_dequeue_time f)
     (m_time f) (m_type f) (m_msg_ptr f) (m_outport f) (m_outport_dir f) (src_delay f)
     (m_stage f) (m_is_free_signal f).

Definition set_route (r : RouteInfo.t) (f : t) : t :=
  mk (m_marked f) (m_request_uturn f) (hops_needed_before_spin f) (hops_needed_after_spin f)
     (m_id f) (m_vnet f) (m_vc f) r (m_size f) (m_enqueue_time f) (m_dequeue_time f)
     (m_time f) (m_type f) (m_msg_ptr f) (m_outport f) (m_outport_dir f) (src_delay f)
     (m_stage f) (m_is_free_signal f).

Definition set_dequeue_time (time : Z) (f : t) : t :=
  mk (m_marked f) (m_request_uturn f) (hops_needed_before_spin f) (hops_needed_after_spin f)
     (m_id f) (m_vnet f) (m_vc f) (m_route f) (m_size f) (m_enqueue_time f) time
     (m_time f) (m_type f) (m_msg_ptr f) (m_outport f) (m_outport_dir f) (src_delay f)
     (m_stage f) (m_is_free_signal f).

Definition set_time (time : Z) (f : t) : t :=
  mk (m_marked f) (m_request_uturn f) (hops_needed_before_spin f) (hops_needed_after_spin f)
     (m_id f) (m_vnet f) (m_vc f) (m_route f) (m_size f) (m_enqueue_time f) (m_dequeue_time f)
     time (m_type f) (m_msg_ptr f) (m_outport f) (m_outport_dir f) (src_delay f)
     (m_stage f) (m_is_free_signal f).

Definition set_outport (port : Z) (f : t) : t :=
  mk (m_marked f) (m_request_uturn f) (hops_needed_before_spin f) (hops_needed_after_spin f)
     (m_id f) (m_vnet f) (m_vc f) (m_route f) (m_size f) (m_enqueue_time f) (m_dequeue_time f)
     (m_time f) (m_type f) (m_msg_ptr f) port (m_outport_dir f) (src_delay f)
     (m_stage f) (m_is_free_signal f).

Definition set_outport_dir (dir : PortDirection) (f : t) : t :=
  mk (m_marked f) (m_request_uturn f) (hops_needed_before_spin f) (hops_needed_after_spin f)
     (m_id f) (m_vnet f) (m_vc f) (m_route f) (m_size f) (m_enqueue_time f) (m_dequeue_time f)
     (m_time f) (m_type f) (m_msg_ptr f) (m_outport f) dir (src_delay f)
     (m_stage f) (m_is_free_signal f).

Definition set_src_delay (delay : Z) (f : t) : t :=
  mk (m_marked f) (m_request_uturn f) (hops_needed_before_spin f) (hops_needed_after_spin f)
     (m_id f) (m_vnet f) (m_vc f) (m_route f) (m_size f) (m_enqueue_time f) (m_dequeue_time f)
     (m_time f) (m_type f) (m_msg_ptr f) (m_outport f) (m_outport_dir f) delay
     (m_stage f) (m_is_free_signal f).

Definition advance_stage (t_stage : flit_stage) (newTime : Z) (f : t) : t :=
  mk (m_marked f) (m_request_uturn f) (hops_needed_before_spin f) (hops_needed_after_spin f)
     (m_id f) (m_vnet f) (m_vc f) (m_route f) (m_size f) (m_enqueue_time f) (m_dequeue_time f)
     (m_time f) (m_type f) (m_msg_ptr f) (m_outport f) (m_outport_dir f) (src_delay f)
     (t_stage, newTime) (m_is_free_signal f).

Definition increment_hops (f : t) : t :=
  set_route (RouteInfo.set_hops_traversed (RouteInfo.hops_traversed (m_route f) + 1)
               (m_route f)) f.

Definition is_stage (stage : flit_stage) (time : Z) (f : t) : bool :=
  bool_decide (stage = (m_stage f).1) && ((m_stage f).2 <=? time).

Definition greater (n1 n2 : t) : bool :=
  if m_time n1 =? m_time n2 then m_id n1 >? m_id n2 else m_time n1 >? m_time n2.

(** [flit::functionalWrite]; the write into the message is generated code. *)
Definition functionalWrite {Packet : Type}
    (msg_write : Packet -> Message.t -> bool * Message.t) (pkt : Packet) (f : t)
    : Res (bool * t) :=
  match m_msg_ptr f with
  | None => Err (NullDeref "m_msg_ptr")
  | Some m =>
      let '(b, m') := msg_write pkt m in
      Ok (b, mk (m_marked f) (m_request_uturn f) (hops_needed_before_spin f)
               (hops_needed_after_spin f) (m_id f) (m_vnet f) (m_vc f) (m_route f)
               (m_size f) (m_enqueue_time f) (m_dequeue_time f) (m_time f) (m_type f)
               (Some m') (m_outport f) (m_outport_dir f) (src_delay f) (m_stage f)
               (m_is_free_signal f))
  end.

Definition is_tail (f : t) : bool :=
  bool_decide (m_type f = TAIL_) || bool_decide (m_type f = HEAD_TAIL_).

Definition is_head (f : t) : bool :=
  bool_decide (m_type f = HEAD_) || bool_decide (m_type f = HEAD_TAIL_).

End flit.

(** ** [class Credit : public flit] *)
Module Credit.

Definition new (u : flit.indet) (nd : NetDest.t) (vc : Z) (is_free_signal : bool)
    (curTime : Z) : flit.t :=
  let b := flit.default u nd in
  flit.mk (flit.m_marked b) (flit.m_request_uturn b) (flit.hops_needed_before_spin b)
    (flit.hops_needed_after_spin b) 0 (flit.m_vnet b) vc (flit.m_route b) (flit.m_size b)
    (flit.m_enqueue_time b) (flit.m_dequeue_time b) curTime (flit.m_type b)
    (flit.m_msg_ptr b) (flit.m_outport b) (flit.m_outport_dir b) (flit.src_delay b)
    (flit.m_stage b) (Some is_free_signal).

(** [is_free_signal()] after the cast of a [flit] pointer to a [Credit]
    pointer; the cast of an object that is not a [Credit] has no defined
    behaviour. *)
Definition is_free_signal (f : flit.t) : Res bool :=
  match flit.m_is_free_signal f with
  | Some b => Ok b
  | None => Err (NullDeref "Credit cast")
  end.

End Credit.

(** ** Configuration of the network

    The members [GarnetNetwork] takes from its parameters and that no
    operation changes after construction. *)
Module NetConfig.

Record t := mk {
  m_num_rows : Z;
  m_num_cols : Z;
  m_virtual_networks : Z;
  m_vcs_per_vnet : Z;
  m_buffers_per_data_vc : Z;
  m_buffers_per_ctrl_vc : Z;
  m_routing_algorithm : Z;
  m_ordered : list bool;
  m_vnet_type : list VNET_type;
  m_spin : bool;
  m_spin_thrshld : Z;
  m_spin_mult : Z;
  drain_all_vc : Z;
  m_uTurn_crossbar : Z;
  sim_type : Z;
  warmup_cycles : Z;
  inj_single_vnet : Z;
  ni_inj : string;
  m_nodes : Z;
  clk_period : Z;
  machine_types : MachineTypes;
  empty_dest : NetDest.t;
  indeterminate : flit.indet
}.

Definition isVNetOrdered (vnet : Z) (c : t) : Res bool := vec_at (m_ordered c) vnet.

(** [int vnet = vc/getVCsPerVnet()] is an unsigned division. *)
Definition get_vnet_type (vc : Z) (c : t) : Res VNET_type :=
  vec_at (m_vnet_type c) (u32 vc / m_vcs_per_vnet c).

End NetConfig.

(** ** Consumers and their wake-up events *)

Inductive consumer :=
  | CRouter (id : Z)
  | CNetworkInterface (id : Z)
  | CNetworkLink (id : Z)
  | CCreditLink (id : Z)
  | CGarnetNetwork
  | CPerfectSwitch (id : Z)
  | CThrottle (id node : Z).

#[global] Instance consumer_eq_dec : EqDecision consumer.
Proof. solve_decision. Defined.

#[global] Instance consumer_countable : Countable consumer.
Proof.
  refine (inj_countable'
    (fun c => match c with
       | CRouter i => (0, i, 0) | CNetworkInterface i => (1, i, 0)
       | CNetworkLink i => (2, i, 0) | CCreditLink i => (3, i, 0)
       | CGarnetNetwork => (4, 0, 0) | CPerfectSwitch i => (5, i, 0)
       | CThrottle i k => (6, i, k) end : Z * Z * Z)
    (fun '(k, i, j) => if k =? 0 then CRouter i else if k =? 1 then CNetworkInterface i
       else if k =? 2 then CNetworkLink i else if k =? 3 then CCreditLink i
       else if k =? 4 then CGarnetNetwork else if k =? 5 then CPerfectSwitch i
       else CThrottle i j) _).
  by intros [].
Defined.

(** The events handed to the event manager, and each consumer's
    [m_scheduled_wakeups]. *)
Module Consumer.

Record t := mk {
  events : list (consumer * Z);
  m_scheduled_wakeups : gmap consumer (gset Z)
}.

Definition wakeups (c : consumer) (q : t) : gset Z := default ∅ (m_scheduled_wakeups q !! c).

Definition alreadyScheduled (c : consumer) (time : Z) (q : t) : bool :=
  bool_decide (time ∈ wakeups c q).

(** Times are Ticks; [now] is [em->clockEdge()]: wake-up times before it are
    forgotten. *)
Definition scheduleEventAbsolute (now : Z) (c : consumer) (evt_time : Z) (q : t) : t :=
  let ws := wakeups c q in
  let fresh := negb (alreadyScheduled c evt_time q) in
  let evs := if fresh then events q ++ [(c, evt_time)] else events q in
  let ws1 := if fresh then {[ evt_time ]} ∪ ws else ws in
  mk evs (<[c := filter (fun w => now <= w) ws1]> (m_scheduled_wakeups q)).

(** [clk_period] Ticks make a cycle: [em->clockEdge(timeDelta)]. *)
Definition scheduleEvent (clk_period now : Z) (c : consumer) (timeDelta : Z) (q : t) : t :=
  scheduleEventAbsolute now c (now + timeDelta * clk_period) q.

End Consumer.
