(* ===== verification/FlitBuffer.v ===== *)
(** * Flit buffers

    [flitBuffer] (src/mem/ruby/network/garnet2.0/flitBuffer.{hh,cc}) keeps its
    flits in a vector ordered as a binary heap by [std::push_heap] and
    [std::pop_heap] under [flit::greater], so that the front is the flit with
    the smallest time (and, among equal times, the smallest id). The heap
    algorithms are modelled as libstdc++ has them; a value that moves through
    the vector is written as the swaps it amounts to. [MessageBuffer] uses
    the same algorithms. *)

From Stdlib Require Import Sorting.Sorted.
From S2P Require Import Prelude NetDest Types.

(** ** [std::push_heap] and [std::pop_heap] *)
Module std_heap.
Section Heap.
Context {A : Type} (comp : A -> A -> bool).

Definition parent (i : nat) : nat := (i - 1) / 2.

Definition swap (i j : nat) (l : list A) : list A :=
  match l !! i, l !! j with
  | Some x, Some y => <[i := y]> (<[j := x]> l)
  | _, _ => l
  end.

(** [__push_heap]: the value at [h] moves up past greater parents. *)
Fixpoint sift_up (fuel : nat) (h : nat) (l : list A) : list A :=
  match fuel with
  | O => l
  | S n =>
      match h with
      | O => l
      | S _ =>
          match l !! parent h, l !! h with
          | Some p, Some v =>
              if comp p v then sift_up n (parent h) (swap (parent h) h l) else l
          | _, _ => l
          end
      end
  end.

Definition push_heap (l : list A) : list A := sift_up (length l) (length l - 1) l.

(** The first half of [__adjust_heap]: the hole at [h] moves down to a leaf,
    always to the side of the smaller child. *)
Fixpoint sink (fuel : nat) (h : nat) (l : list A) : nat * list A :=
  match fuel with
  | O => (h, l)
  | S n =>
      let r := (2 * (h + 1))%nat in
      match l !! (r - 1)%nat with
      | None => (h, l)
      | Some lc =>
          let c := match l !! r with
                   | Some rc => if comp rc lc then (r - 1)%nat else r
                   | None => (r - 1)%nat
                   end in
          sink n c (swap h c l)
      end
  end.

(** [__adjust_heap]: down to a leaf and up again from there. *)
Definition adjust_heap (l : list A) : list A :=
  let '(h, l1) := sink (length l) 0 l in sift_up (length l1) h l1.

(** [pop_heap] followed by [pop_back]: the vector without its front. *)
Definition pop_heap_back (l : list A) : list A :=
  match last l with
  | None => []
  | Some v =>
      match take (length l - 1) l with
      | [] => []
      | _ :: rest => adjust_heap (v :: rest)
      end
  end.

End Heap.
End std_heap.

(** ** [class flitBuffer] *)
Module flitBuffer.

Record t := mk {
  m_buffer : list flit.t;
  max_size : Z
}.

Definition new : t := mk [] INFINITE_.

Definition new_sized (maximum_size : Z) : t := mk [] maximum_size.

Definition isEmpty (b : t) : bool := zlen (m_buffer b) =? 0.

(** [m_buffer.front()]; [getTopFlit] calls it without the check. *)
Definition front (b : t) : Res flit.t :=
  match m_buffer b with
  | f :: _ => Ok f
  | [] => Err (OutOfRange "m_buffer.front()")
  end.

Definition peekTopFlit (b : t) : Res flit.t :=
  _ ← assert_ (zlen (m_buffer b) >? 0) "flitBuffer.hh:72";
  front b.

Definition isReady (curTime : Z) (b : t) : Res bool :=
  if negb (zlen (m_buffer b) =? 0) then
    t_flit ← peekTopFlit b;
    Ok (flit.m_time t_flit <=? curTime)
  else Ok false.

(** The comparison is between a [size_t] and an [int]. *)
Definition isFull (b : t) : bool := zlen (m_buffer b) >=? u64 (max_size b).

Definition setMaxSize (maximum : Z) (b : t) : t := mk (m_buffer b) maximum.

Definition getSize (b : t) : Z := zlen (m_buffer b).

Definition getTopFlit (b : t) : Res (flit.t * t) :=
  f ← front b;
  Ok (f, mk (std_heap.pop_heap_back flit.greater (m_buffer b)) (max_size b)).

Definition insert (flt : flit.t) (b : t) : t :=
  mk (std_heap.push_heap flit.greater (m_buffer b ++ [flt])) (max_size b).

(** A write through the pointer [peekTopFlit()] returns. *)
Definition update_top (f : flit.t -> flit.t) (b : t) : t :=
  match m_buffer b with
  | x :: l => mk (f x :: l) (max_size b)
  | [] => b
  end.

Definition functionalWrite {Packet : Type}
    (msg_write : Packet -> Message.t -> bool * Message.t) (pkt : Packet) (b : t)
    : Res (Z * t) :=
  r ← foldM (fun f '(n, l) =>
               '(w, f') ← flit.functionalWrite msg_write pkt f;
               Ok (if (w : bool) then u32 (n + 1) else n, l ++ [f']))
        (m_buffer b) (0, []);
  Ok (r.1, mk r.2 (max_size b)).

End flitBuffer.

(** ** The heap algorithms keep a heap *)

(** A comparison function whose negation is a total preorder: what the
    standard heap algorithms require of [comp]. *)
Class HeapOrder {A : Type} (comp : A -> A -> bool) : Prop := {
  heap_trans : forall x y z, comp x y = false -> comp y z = false -> comp x z = false;
  heap_asym : forall x y, comp x y = true -> comp y x = false
}.

Section HeapFacts.
Context {A : Type} (comp : A -> A -> bool).
Implicit Types (l : list A) (x y : A).

Local Abbreviation parent := std_heap.parent.
Local Abbreviation swap := std_heap.swap.

Lemma swap_length i j l : length (swap i j l) = length l.
Proof.
  unfold swap. destruct (l !! i), (l !! j); rewrite ?length_insert; done.
Qed.

Lemma swap_lookup i j l x y k :
  l !! i = Some x -> l !! j = Some y ->
  swap i j l !! k = if decide (k = i) then Some y else if decide (k = j) then Some x else l !! k.
Proof.
  intros Hi Hj. unfold swap. rewrite Hi, Hj.
  pose proof (lookup_lt_Some _ _ _ Hi). pose proof (lookup_lt_Some _ _ _ Hj).
  rewrite !list_lookup_insert, length_insert.
  repeat case_decide; try done; exfalso; lia.
Qed.

Lemma swap_Permutation i j l : swap i j l ≡ₚ l.
Proof.
  destruct (l !! i) as [x|] eqn:Hi; [| by unfold swap; rewrite Hi].
  destruct (l !! j) as [y|] eqn:Hj; [| by unfold swap; rewrite Hi, Hj].
  apply Permutation_inj. split; [by rewrite swap_length|].
  exists (fun k => if decide (k = i) then j else if decide (k = j) then i else k).
  split.
  - intros a b. repeat case_decide; congruence.
  - intros k. rewrite (swap_lookup i j l x y k Hi Hj).
    repeat case_decide; subst; congruence.
Qed.

Lemma sift_up_Permutation n h l : std_heap.sift_up comp n h l ≡ₚ l.
Proof.
  revert h l. induction n as [|n IH]; intros h l; [done|]. cbn [std_heap.sift_up].
  destruct h; [done|]. destruct (l !! parent (S h)); [|done].
  destruct (l !! S h); [|done]. destruct (comp _ _); [|done].
  rewrite IH. apply swap_Permutation.
Qed.

Lemma sink_Permutation n h l : (std_heap.sink comp n h l).2 ≡ₚ l.
Proof.
  revert h l. induction n as [|n IH]; intros h l; [done|]. cbn [std_heap.sink].
  destruct (l !! _); [|done]. rewrite IH. apply swap_Permutation.
Qed.

Lemma push_heap_Permutation l : std_heap.push_heap comp l ≡ₚ l.
Proof. apply sift_up_Permutation. Qed.

Lemma adjust_heap_Permutation l : std_heap.adjust_heap comp l ≡ₚ l.
Proof.
  unfold std_heap.adjust_heap. pose proof (sink_Permutation (length l) 0 l) as H.
  destruct (std_heap.sink comp (length l) 0 l) as [h l1]. cbn in H.
  rewrite sift_up_Permutation. done.
Qed.

Lemma pop_heap_back_Permutation x l :
  x :: std_heap.pop_heap_back comp (x :: l) ≡ₚ x :: l.
Proof.
  constructor. unfold std_heap.pop_heap_back.
  destruct (last (x :: l)) as [v|] eqn:Hl.
  2:{ apply last_None in Hl. discriminate. }
  apply last_Some in Hl as [l' Hl].
  rewrite Hl. rewrite length_app. cbn [length].
  replace (length l' + 1 - 1)%nat with (length l') by lia.
  rewrite take_app_length. destruct l' as [|z l'].
  - injection Hl as -> ->. done.
  - injection Hl as -> ->. rewrite adjust_heap_Permutation. by rewrite Permutation_cons_append.
Qed.

(** What [push_heap] and [pop_heap] need of the comparison. *)
Context `{HO : HeapOrder A comp}.

Definition is_heap (l : list A) : Prop :=
  forall i p x, (0 < i)%nat -> l !! parent i = Some p -> l !! i = Some x -> comp p x = false.

(** A heap except around [h]: no constraint between [h] and its parent, but
    the parent of [h] is below the children of [h]. *)
Definition heap_up (h : nat) (l : list A) : Prop :=
  (forall i p x, (0 < i)%nat -> i <> h -> l !! parent i = Some p -> l !! i = Some x ->
     comp p x = false) /\
  (forall i p x, (0 < h)%nat -> (0 < i)%nat -> parent i = h ->
     l !! parent h = Some p -> l !! i = Some x -> comp p x = false).

(** A heap with a hole at [h]: no constraint between [h] and its parent nor
    between [h] and its children. *)
Definition heap_hole (h : nat) (l : list A) : Prop :=
  (forall i p x, (0 < i)%nat -> i <> h -> parent i <> h ->
     l !! parent i = Some p -> l !! i = Some x -> comp p x = false) /\
  (forall i p x, (0 < h)%nat -> (0 < i)%nat -> parent i = h ->
     l !! parent h = Some p -> l !! i = Some x -> comp p x = false).

Lemma parent_lt i : (0 < i)%nat -> (parent i < i)%nat.
Proof. intros. unfold parent. apply Nat.Div0.div_lt_upper_bound; lia. Qed.

Lemma parent_eq i p : (0 < i)%nat -> parent i = p -> (i = 2 * p + 1 \/ i = 2 * p + 2)%nat.
Proof.
  intros Hi <-. unfold parent. pose proof (Nat.div_mod_eq (i - 1) 2).
  pose proof (Nat.mod_upper_bound (i - 1) 2). lia.
Qed.

Lemma parent_left p : parent (2 * p + 1) = p.
Proof. unfold parent. replace (2 * p + 1 - 1)%nat with (p * 2)%nat by lia. by apply Nat.div_mul. Qed.

Lemma parent_right p : parent (2 * p + 2) = p.
Proof.
  unfold parent. replace (2 * p + 2 - 1)%nat with (1 + p * 2)%nat by lia.
  rewrite Nat.div_add by lia. done.
Qed.

Lemma heap_up_done h l :
  heap_up h l -> h = 0%nat \/ (forall p v, l !! parent h = Some p -> l !! h = Some v -> comp p v = false) ->
  is_heap l.
Proof.
  intros [H1 _] Hd i p x Hi Hp Hx. destruct (decide (i = h)) as [->|Hne]; [|by eapply H1].
  destruct Hd as [->|Hd]; [lia | by eapply Hd].
Qed.

Lemma heap_up_step h l p v :
  (0 < h)%nat -> heap_up h l -> l !! parent h = Some p -> l !! h = Some v ->
  comp p v = true -> heap_up (parent h) (swap (parent h) h l).
Proof.
  intros Hh [H1 H2] Hp Hv Hgt. pose proof (parent_lt h Hh).
  assert (comp v p = false) as Hvp by (by apply heap_asym).
  split.
  - intros i q x Hi Hne Hq Hx.
    rewrite (swap_lookup _ _ _ _ _ _ Hp Hv) in Hq. rewrite (swap_lookup _ _ _ _ _ _ Hp Hv) in Hx.
    destruct (decide (i = parent h)); [done|].
    destruct (decide (i = h)) as [->|].
    + rewrite decide_True in Hq by done. congruence.
    + destruct (decide (parent i = parent h)) as [Heq|].
      * injection Hq as <-. eapply heap_trans; [exact Hvp|]. eapply (H1 i); eauto. congruence.
      * destruct (decide (parent i = h)) as [Heq|].
        -- injection Hq as <-. eapply (H2 i); eauto.
        -- eapply (H1 i); eauto.
  - intros i q x Hph Hi Hpi Hq Hx. pose proof (parent_lt (parent h) Hph).
    rewrite (swap_lookup _ _ _ _ _ _ Hp Hv) in Hq. rewrite (swap_lookup _ _ _ _ _ _ Hp Hv) in Hx.
    rewrite decide_False in Hq by lia. rewrite decide_False in Hq by lia.
    destruct (decide (i = parent h)) as [->|]; [pose proof (parent_lt (parent h) Hi); lia|].
    assert (comp q p = false) as Hqp by (eapply (H1 (parent h)); eauto; lia).
    destruct (decide (i = h)) as [->|].
    + congruence.
    + eapply heap_trans; [exact Hqp|]. eapply (H1 i); eauto. congruence.
Qed.

Lemma sift_up_heap n h l : (h <= n)%nat -> heap_up h l -> is_heap (std_heap.sift_up comp n h l).
Proof.
  revert h l. induction n as [|n IH]; intros h l Hn Hh; cbn [std_heap.sift_up].
  - apply (heap_up_done h); [done|left; lia].
  - destruct h as [|h']; [apply (heap_up_done 0); auto|].
    set (h := S h') in *. assert (0 < h)%nat by lia.
    destruct (l !! parent h) as [p|] eqn:Hp.
    2:{ apply (heap_up_done h); [done|]. right. congruence. }
    destruct (l !! h) as [v|] eqn:Hv.
    2:{ apply (heap_up_done h); [done|]. right. congruence. }
    destruct (comp p v) eqn:Hc.
    + apply IH; [pose proof (parent_lt h); lia|]. eapply heap_up_step; eauto.
    + apply (heap_up_done h); [done|]. right. congruence.
Qed.

Lemma heap_hole_step h c l x v :
  heap_hole h l -> (0 < c)%nat -> parent c = h -> l !! h = Some v -> l !! c = Some x ->
  (forall i y, (0 < i)%nat -> parent i = h -> l !! i = Some y -> comp x y = false) ->
  heap_hole c (swap h c l).
Proof.
  intros [H1 H2] Hc Hpc Hv Hx Hmin.
  assert (h < c)%nat by (rewrite <- Hpc; by apply parent_lt).
  split.
  - intros i q y Hi Hne Hnp Hq Hy.
    rewrite (swap_lookup _ _ _ _ _ _ Hv Hx) in Hq. rewrite (swap_lookup _ _ _ _ _ _ Hv Hx) in Hy.
    destruct (decide (i = h)) as [->|].
    + injection Hy as <-. pose proof (parent_lt h Hi).
      rewrite decide_False in Hq by lia. rewrite decide_False in Hq by lia.
      eapply (H2 c); eauto.
    + rewrite (decide_False (P := i = c)) in Hy by done.
      rewrite (decide_False (P := parent i = c)) in Hq by done.
      destruct (decide (parent i = h)).
      * injection Hq as <-. eapply Hmin; eauto.
      * eapply (H1 i); eauto.
  - intros i q y _ Hi Hpi Hq Hy. pose proof (parent_lt i Hi).
    rewrite (swap_lookup _ _ _ _ _ _ Hv Hx) in Hq. rewrite (swap_lookup _ _ _ _ _ _ Hv Hx) in Hy.
    rewrite Hpc, decide_True in Hq by done. injection Hq as <-.
    rewrite decide_False in Hy by lia. rewrite decide_False in Hy by lia.
    eapply (H1 i); eauto; try lia. by rewrite Hpi.
Qed.

(** The hole ends at a leaf. *)
Lemma sink_hole n h l h' l' :
  (length l - h <= n)%nat -> (h < length l)%nat -> heap_hole h l ->
  std_heap.sink comp n h l = (h', l') ->
  heap_hole h' l' /\ (length l' <= 2 * h' + 1)%nat /\ (h' < length l')%nat.
Proof.
  revert h l. induction n as [|n IH]; intros h l Hn Hlt Hh Hs; [lia|].
  cbn [std_heap.sink] in Hs.
  replace (2 * (h + 1))%nat with (2 * h + 2)%nat in Hs by lia.
  replace (2 * h + 2 - 1)%nat with (2 * h + 1)%nat in Hs by lia.
  destruct (l !! (2 * h + 1)%nat) as [lc|] eqn:Hlc.
  2:{ injection Hs as <- <-. apply lookup_ge_None in Hlc. split; [done|lia]. }
  destruct (lookup_lt_is_Some_2 l h Hlt) as [v Hv].
  assert (exists c x, (0 < c)%nat /\ parent c = h /\ l !! c = Some x /\
    (forall i y, (0 < i)%nat -> parent i = h -> l !! i = Some y -> comp x y = false) /\
    std_heap.sink comp n c (swap h c l) = (h', l')) as (c & x & Hc & Hpc & Hx & Hmin & Hs').
  { assert (comp lc lc = false) as Hrefl.
    { destruct (comp lc lc) eqn:E; [|done]. pose proof (heap_asym _ _ E). congruence. }
    destruct (l !! (2 * h + 2)%nat) as [rc|] eqn:Hrc; [destruct (comp rc lc) eqn:Hcmp|].
    - exists (2 * h + 1)%nat, lc. repeat split; auto using parent_left; [lia|].
      intros i y Hi Hpi Hy. apply parent_eq in Hpi as [-> | ->]; [congruence..| |done].
      rewrite Hrc in Hy. injection Hy as <-. by apply heap_asym.
    - exists (2 * h + 2)%nat, rc. repeat split; auto using parent_right; [lia|].
      intros i y Hi Hpi Hy. apply parent_eq in Hpi as [-> | ->]; [congruence..| |done].
      rewrite Hrc in Hy. injection Hy as <-.
      destruct (comp rc rc) eqn:E; [|done]. pose proof (heap_asym _ _ E). congruence.
    - exists (2 * h + 1)%nat, lc. repeat split; auto using parent_left; [lia|].
      intros i y Hi Hpi Hy. apply parent_eq in Hpi as [-> | ->]; congruence. }
  pose proof (lookup_lt_Some _ _ _ Hx). pose proof (parent_lt c Hc).
  eapply IH; [| | |exact Hs']; rewrite ?swap_length; [lia..|].
  eapply heap_hole_step; eauto.
Qed.

Lemma adjust_heap_heap l : l <> [] -> heap_hole 0 l -> is_heap (std_heap.adjust_heap comp l).
Proof.
  intros Hne Hh. unfold std_heap.adjust_heap.
  destruct (std_heap.sink comp (length l) 0 l) as [h l1] eqn:Hs.
  assert (0 < length l)%nat by (destruct l; [done|cbn; lia]).
  destruct (sink_hole (length l) 0 l h l1) as ([H1 H2] & Hleaf & Hlt); auto; try lia.
  apply sift_up_heap; [lia|]. split; [|done].
  intros i p x Hi Hih Hp Hx. apply (H1 i p x); auto. intros Hpi.
  apply parent_eq in Hpi; [|done]. apply lookup_lt_Some in Hx. lia.
Qed.

Lemma push_heap_heap l x : is_heap l -> is_heap (std_heap.push_heap comp (l ++ [x])).
Proof.
  intros Hl. unfold std_heap.push_heap. rewrite length_app. cbn [length].
  replace (length l + 1 - 1)%nat with (length l) by lia.
  apply sift_up_heap; [lia|]. split.
  - intros i p y Hi Hne Hp Hy. pose proof (parent_lt i Hi).
    apply lookup_lt_Some in Hy as Hlt. rewrite length_app in Hlt. cbn in Hlt.
    rewrite lookup_app_l in Hp by lia. rewrite lookup_app_l in Hy by lia. eauto.
  - intros i p y _ Hi Hpi _ Hy. pose proof (parent_lt i Hi).
    apply lookup_lt_Some in Hy. rewrite length_app in Hy. cbn in Hy. lia.
Qed.

Lemma pop_heap_back_heap l : is_heap l -> is_heap (std_heap.pop_heap_back comp l).
Proof.
  intros Hl. unfold std_heap.pop_heap_back.
  destruct (last l) as [v|] eqn:Hlast; [|intros i p x _ Hp; done].
  destruct (take (length l - 1) l) as [|z rest] eqn:Ht; [intros i p x _ Hp; done|].
  apply adjust_heap_heap; [done|]. split; [|lia].
  intros i p x Hi Hi0 Hp0 Hp Hx.
  assert (forall k y, (0 < k)%nat -> (v :: rest) !! k = Some y -> l !! k = Some y) as Hk.
  { intros [|k] y Hk Hy; [lia|]. cbn in Hy.
    assert ((z :: rest) !! S k = Some y) as Hzy by done.
    rewrite <- Ht in Hzy. apply lookup_take_Some in Hzy. tauto. }
  eapply (Hl i); eauto. apply Hk; [lia|done].
Qed.

(** The front of a heap is a least element. *)
Lemma heap_front_least l x y : is_heap (x :: l) -> y ∈ x :: l -> comp x y = false.
Proof.
  intros Hl Hy. apply list_elem_of_lookup in Hy as [i Hi].
  revert y Hi. induction (lt_wf i) as [i _ IH]. intros y Hi.
  destruct i as [|i].
  - injection Hi as <-. destruct (comp x x) eqn:E; [|done].
    pose proof (heap_asym _ _ E). congruence.
  - pose proof (parent_lt (S i) ltac:(lia)).
    destruct (lookup_lt_is_Some_2 (x :: l) (parent (S i))) as [p Hp].
    { apply lookup_lt_Some in Hi. lia. }
    eapply heap_trans; [apply (IH (parent (S i)) ltac:(lia) p Hp)|].
    eapply (Hl (S i)); eauto. lia.
Qed.

End HeapFacts.

(** ** [flit::greater] orders flits by time and then id *)

Lemma flit_greater_spec f g :
  flit.greater f g = false <->
  flit.m_time f < flit.m_time g \/ (flit.m_time f = flit.m_time g /\ flit.m_id f <= flit.m_id g).
Proof.
  unfold flit.greater. rewrite !Z.gtb_ltb.
  destruct (Z.eqb_spec (flit.m_time f) (flit.m_time g));
    [destruct (Z.ltb_spec (flit.m_id g) (flit.m_id f))
    |destruct (Z.ltb_spec (flit.m_time g) (flit.m_time f))]; split; intros; try done; lia.
Qed.

Lemma flit_greater_trans x y z :
  flit.greater x y = false -> flit.greater y z = false -> flit.greater x z = false.
Proof. rewrite !flit_greater_spec. lia. Qed.

Lemma flit_greater_asym x y : flit.greater x y = true -> flit.greater y x = false.
Proof.
  intros H. rewrite flit_greater_spec.
  destruct (decide (flit.m_time y < flit.m_time x \/
    flit.m_time y = flit.m_time x /\ flit.m_id y <= flit.m_id x)) as [|Hn]; [done|].
  assert (flit.greater x y = false) by (rewrite flit_greater_spec; lia). congruence.
Qed.

#[export] Instance flit_order : HeapOrder flit.greater :=
  {| heap_trans := flit_greater_trans; heap_asym := flit_greater_asym |}.

(** The invariant of a buffer: its vector is a heap. *)
Definition buffer_wf (b : flitBuffer.t) : Prop := is_heap flit.greater (flitBuffer.m_buffer b).

Lemma new_wf : buffer_wf flitBuffer.new.
Proof. intros i p x _ H. done. Qed.

Lemma insert_wf f b : buffer_wf b -> buffer_wf (flitBuffer.insert f b).
Proof.
  unfold buffer_wf, flitBuffer.insert. cbn.
  by apply (push_heap_heap flit.greater).
Qed.

Lemma insert_Permutation f b :
  flitBuffer.m_buffer (flitBuffer.insert f b) ≡ₚ f :: flitBuffer.m_buffer b.
Proof. cbn. rewrite push_heap_Permutation. by rewrite Permutation_app_comm. Qed.

Lemma getTopFlit_inv b f b' :
  flitBuffer.getTopFlit b = Ok (f, b') ->
  exists l, flitBuffer.m_buffer b = f :: l /\
    b' = flitBuffer.mk (std_heap.pop_heap_back flit.greater (f :: l)) (flitBuffer.max_size b).
Proof.
  unfold flitBuffer.getTopFlit, flitBuffer.front.
  destruct (flitBuffer.m_buffer b) as [|x l]; [discriminate|].
  cbn. intros. simplify_res. eauto.
Qed.

Lemma getTopFlit_Permutation b f b' :
  flitBuffer.getTopFlit b = Ok (f, b') ->
  flitBuffer.m_buffer b ≡ₚ f :: flitBuffer.m_buffer b'.
Proof.
  intros (l & Hl & ->)%getTopFlit_inv. rewrite Hl. cbn. symmetry.
  apply pop_heap_back_Permutation.
Qed.

Lemma getTopFlit_wf b f b' :
  buffer_wf b -> flitBuffer.getTopFlit b = Ok (f, b') -> buffer_wf b'.
Proof.
  unfold buffer_wf. intros Hwf (l & Hl & ->)%getTopFlit_inv. rewrite Hl in Hwf. cbn.
  by apply (pop_heap_back_heap flit.greater).
Qed.

#[export] Hint Resolve new_wf insert_wf getTopFlit_wf : drain.

Lemma front_least b f g :
  buffer_wf b -> flitBuffer.front b = Ok f -> g ∈ flitBuffer.m_buffer b ->
  flit.greater f g = false.
Proof.
  unfold buffer_wf, flitBuffer.front.
  destruct (flitBuffer.m_buffer b) as [|x l]; [discriminate|]. intros Hwf ? Hg. simplify_res.
  by eapply (heap_front_least flit.greater).
Qed.

Lemma getTopFlit_front b f b' :
  flitBuffer.getTopFlit b = Ok (f, b') -> flitBuffer.front b = Ok f.
Proof.
  intros (l & Hl & _)%getTopFlit_inv. unfold flitBuffer.front. by rewrite Hl.
Qed.

Lemma peekTopFlit_front b :
  flitBuffer.m_buffer b <> [] -> flitBuffer.peekTopFlit b = flitBuffer.front b.
Proof.
  unfold flitBuffer.peekTopFlit, flitBuffer.front, zlen.
  destruct (flitBuffer.m_buffer b); [done|]. intros _. cbn.
  rewrite (proj2 (Z.gtb_lt _ _)) by lia. done.
Qed.

(** All flits of a buffer, taken out one after the other. *)
Fixpoint take_all (n : nat) (b : flitBuffer.t) : Res (list flit.t) :=
  match n with
  | O => Ok []
  | S n' =>
      '(f, b') ← flitBuffer.getTopFlit b;
      rest ← take_all n' b';
      Ok (f :: rest)
  end.

Lemma StronglySorted_mono {A} (R R' : A -> A -> Prop) l :
  (forall x y, R x y -> R' x y) -> StronglySorted R l -> StronglySorted R' l.
Proof.
  intros Himp. induction 1 as [|x l _ IH Hx]; constructor; [done|].
  eapply Forall_impl; [exact Hx|]. auto.
Qed.

Lemma take_all_sorted n b :
  buffer_wf b -> n = length (flitBuffer.m_buffer b) ->
  exists l, take_all n b = Ok l /\ l ≡ₚ flitBuffer.m_buffer b /\
    StronglySorted (fun f g => flit.greater f g = false) l.
Proof.
  revert b. induction n as [|n IH]; intros b Hwf Hn.
  - exists []. destruct (flitBuffer.m_buffer b); [|discriminate]. repeat constructor.
  - destruct (flitBuffer.m_buffer b) as [|f l] eqn:Hb; [discriminate|].
    destruct (flitBuffer.getTopFlit b) as [[f' b']|e] eqn:Ht.
    2:{ unfold flitBuffer.getTopFlit, flitBuffer.front in Ht. by rewrite Hb in Ht. }
    pose proof (getTopFlit_Permutation _ _ _ Ht) as Hp. rewrite Hb in Hp.
    destruct (IH b') as (l' & Hl' & Hp' & Hs); [eauto with drain| |].
    { apply Permutation_length in Hp. cbn in Hp, Hn. lia. }
    cbn [take_all]. rewrite Ht. cbn. rewrite Hl'. cbn.
    exists (f' :: l'). split; [done|]. split; [by rewrite Hp', Hp|].
    constructor; [done|]. apply Forall_forall. intros g Hg.
    eapply front_least; eauto using getTopFlit_front.
    rewrite Hb, Hp, <- Hp'. by apply elem_of_cons; right.
Qed.

(** ** Theorems *)

(** C17: inserting a flit keeps the buffer a heap and adds exactly that
    flit; taking the top flit keeps the buffer a heap, removes exactly the
    returned flit, and that flit is the earliest of the buffer: no other flit
    has a smaller time, nor the same time and a smaller id. *)
Theorem flitBuffer_priority_queue b f :
  buffer_wf b ->
  buffer_wf (flitBuffer.insert f b) /\
  flitBuffer.m_buffer (flitBuffer.insert f b) ≡ₚ f :: flitBuffer.m_buffer b /\
  (flitBuffer.isEmpty b = false ->
   exists g b', flitBuffer.getTopFlit b = Ok (g, b') /\ buffer_wf b' /\
     flitBuffer.m_buffer b ≡ₚ g :: flitBuffer.m_buffer b' /\
     forall h, h ∈ flitBuffer.m_buffer b ->
       flit.m_time g < flit.m_time h \/
       (flit.m_time g = flit.m_time h /\ flit.m_id g <= flit.m_id h)).
Proof.
  intros Hwf. split; [auto with drain|]. split; [apply insert_Permutation|].
  intros Hne. destruct (flitBuffer.getTopFlit b) as [[g b']|e] eqn:Ht.
  - exists g, b'. split; [done|]. split; [eauto with drain|].
    split; [by apply getTopFlit_Permutation|]. intros h Hh. apply flit_greater_spec.
    eapply front_least; eauto using getTopFlit_front.
  - unfold flitBuffer.getTopFlit, flitBuffer.front in Ht.
    unfold flitBuffer.isEmpty, zlen in Hne.
    destruct (flitBuffer.m_buffer b); [discriminate Hne | discriminate Ht].
Qed.

(** Emptying a buffer with [getTopFlit] always succeeds and yields
    all its flits in increasing order of (time, id): a link or a virtual
    channel delivers in arrival-time order whatever the insertion order. *)
Theorem flitBuffer_delivers_in_order b :
  buffer_wf b ->
  exists l, take_all (length (flitBuffer.m_buffer b)) b = Ok l /\
    l ≡ₚ flitBuffer.m_buffer b /\
    StronglySorted (fun f g => flit.m_time f <= flit.m_time g) l.
Proof.
  intros Hwf. destruct (take_all_sorted _ b Hwf eq_refl) as (l & Hl & Hp & Hs).
  exists l. split; [done|]. split; [done|].
  eapply StronglySorted_mono; [|exact Hs].
  intros f g. rewrite flit_greater_spec. lia.
Qed.
