(* ===== verification/Channels.v ===== *)
(** * Virtual channels, links, input and output units

    Models, of src/mem/ruby/network/garnet2.0: OutVcState.{hh,cc} (the credit
    counter and state an output port keeps for each virtual channel of the
    downstream input port), VirtualChannel.{hh,cc}, NetworkLink.{hh,cc} (and
    CreditLink.hh), OutputUnit.{hh,cc} and the local operations of
    InputUnit.{hh,cc}. Objects that other objects point to (links, queues) are
    named by references; [GarnetNetwork] resolves them in its store. *)

From S2P Require Import Prelude NetDest Types FlitBuffer.

(** ** [class OutVcState] *)
Module OutVcState.

Record t := mk {
  m_id : Z;
  m_time : Z;
  m_vc_state : VC_state_type;
  m_credit_count : Z;
  m_max_credit_count : Z
}.

Definition new (id : Z) (net : NetConfig.t) : Res t :=
  ty ← NetConfig.get_vnet_type id net;
  let m_max_credit_count :=
    if bool_decide (ty = DATA_VNET_) then NetConfig.m_buffers_per_data_vc net
    else NetConfig.m_buffers_per_ctrl_vc net in
  let m_credit_count := m_max_credit_count in
  _ ← assert_ (m_credit_count >=? 1) "OutVcState.cc:50";
  Ok (mk id 0 IDLE_ m_credit_count m_max_credit_count).

Definition has_credit (o : t) : bool := m_credit_count o >? 0.

Definition increment_credit (o : t) : Res t :=
  let c := m_credit_count o + 1 in
  _ ← assert_ (c <=? m_max_credit_count o) "OutVcState.cc:57";
  Ok (mk (m_id o) (m_time o) (m_vc_state o) c (m_max_credit_count o)).

Definition decrement_credit (o : t) : Res t :=
  let c := m_credit_count o - 1 in
  _ ← assert_ (c >=? 0) "OutVcState.cc:64";
  Ok (mk (m_id o) (m_time o) (m_vc_state o) c (m_max_credit_count o)).

Definition isInState (state : VC_state_type) (request_time : Z) (o : t) : bool :=
  bool_decide (m_vc_state o = state) && (m_time o <=? request_time).

Definition setState (state : VC_state_type) (time : Z) (o : t) : t :=
  mk (m_id o) time state (m_credit_count o) (m_max_credit_count o).

End OutVcState.

(** ** [class VirtualChannel] *)
Module VirtualChannel.

Record t := mk {
  m_id : Z;
  m_input_buffer : flitBuffer.t;
  m_vc_state : VC_state_type * Z;
  m_output_port : Z;
  m_enqueue_time : Z;
  m_output_vc : Z
}.

Definition new (id : Z) : t := mk id flitBuffer.new (IDLE_, 0) (-1) INFINITE_ (-1).

Definition set_idle (curTime : Z) (v : t) : t :=
  mk (m_id v) (m_input_buffer v) (IDLE_, curTime) (-1) INFINITE_ (-1).

Definition set_active (curTime : Z) (v : t) : t :=
  mk (m_id v) (m_input_buffer v) (ACTIVE_, curTime) (m_output_port v) curTime (m_output_vc v).

Definition set_outvc (outvc : Z) (v : t) : t :=
  mk (m_id v) (m_input_buffer v) (m_vc_state v) (m_output_port v) (m_enqueue_time v) outvc.

Definition set_outport (outport : Z) (v : t) : t :=
  mk (m_id v) (m_input_buffer v) (m_vc_state v) outport (m_enqueue_time v) (m_output_vc v).

Definition set_enqueue_time (time : Z) (v : t) : t :=
  mk (m_id v) (m_input_buffer v) (m_vc_state v) (m_output_port v) time (m_output_vc v).

Definition set_state (m_state : VC_state_type) (curTime : Z) (v : t) : t :=
  mk (m_id v) (m_input_buffer v) (m_state, curTime) (m_output_port v) (m_enqueue_time v)
     (m_output_vc v).

Definition set_buffer (b : flitBuffer.t) (v : t) : t :=
  mk (m_id v) b (m_vc_state v) (m_output_port v) (m_enqueue_time v) (m_output_vc v).

Definition get_state (v : t) : VC_state_type := (m_vc_state v).1.

Definition isEmpty (v : t) : bool := flitBuffer.isEmpty (m_input_buffer v).

Definition isReady (curTime : Z) (v : t) : Res bool :=
  flitBuffer.isReady curTime (m_input_buffer v).

Definition insertFlit (t_flit : flit.t) (v : t) : t :=
  set_buffer (flitBuffer.insert t_flit (m_input_buffer v)) v.

Definition peekTopFlit (v : t) : Res flit.t := flitBuffer.peekTopFlit (m_input_buffer v).

Definition getTopFlit (v : t) : Res (flit.t * t) :=
  '(f, b) ← flitBuffer.getTopFlit (m_input_buffer v);
  Ok (f, set_buffer b v).

(** A write through the pointer [peekTopFlit()] returns. *)
Definition update_top (f : flit.t -> flit.t) (v : t) : t :=
  set_buffer (flitBuffer.update_top f (m_input_buffer v)) v.

Definition need_stage (stage : flit_stage) (time : Z) (v : t) : Res bool :=
  r ← flitBuffer.isReady time (m_input_buffer v);
  if (r : bool) then
    _ ← assert_ (bool_decide ((m_vc_state v).1 = ACTIVE_) && ((m_vc_state v).2 <=? time))
          "VirtualChannel.cc:74";
    t_flit ← flitBuffer.peekTopFlit (m_input_buffer v);
    Ok (flit.is_stage stage time t_flit)
  else Ok false.

Definition functionalWrite {Packet : Type}
    (msg_write : Packet -> Message.t -> bool * Message.t) (pkt : Packet) (v : t)
    : Res (Z * t) :=
  '(n, b) ← flitBuffer.functionalWrite msg_write pkt (m_input_buffer v);
  Ok (n, set_buffer b v).

End VirtualChannel.

(** ** References *)

(** The queue a link reads from ([flitBuffer *link_srcQueue]): the output
    queue of a router's port, the credit queue of a router's input port, or
    one of the two queues of a network interface. *)
Inductive queue_ref :=
  | OutQueue (router outport : Z)
  | CreditQueue (router inport : Z)
  | NIFlitQueue (ni : Z)
  | NICreditQueue (ni : Z).

(** ** [class NetworkLink] ([class CreditLink] adds nothing to it) *)
Module NetworkLink.

Record t := mk {
  linkBuffer : flitBuffer.t;
  m_id : Z;
  m_type : link_type;
  m_latency : Z;
  link_consumer : option consumer;
  link_srcQueue : option queue_ref;
  m_link_utilized : Z;
  m_vc_load : list Z
}.

Definition new (link_id link_latency vcs_per_vnet virt_nets : Z) : t :=
  mk flitBuffer.new link_id NUM_LINK_TYPES_ link_latency None None 0
     (replicate (Z.to_nat (vcs_per_vnet * virt_nets)) 0).

Definition set_buffer (b : flitBuffer.t) (l : t) : t :=
  mk b (m_id l) (m_type l) (m_latency l) (link_consumer l) (link_srcQueue l)
     (m_link_utilized l) (m_vc_load l).

Definition setLinkConsumer (c : consumer) (l : t) : t :=
  mk (linkBuffer l) (m_id l) (m_type l) (m_latency l) (Some c) (link_srcQueue l)
     (m_link_utilized l) (m_vc_load l).

Definition setSourceQueue (srcQueue : queue_ref) (l : t) : t :=
  mk (linkBuffer l) (m_id l) (m_type l) (m_latency l) (link_consumer l) (Some srcQueue)
     (m_link_utilized l) (m_vc_load l).

Definition setType (type : link_type) (l : t) : t :=
  mk (linkBuffer l) (m_id l) type (m_latency l) (link_consumer l) (link_srcQueue l)
     (m_link_utilized l) (m_vc_load l).

Definition isReady (curTime : Z) (l : t) : Res bool := flitBuffer.isReady curTime (linkBuffer l).

Definition peekLink (l : t) : Res flit.t := flitBuffer.peekTopFlit (linkBuffer l).

Definition consumeLink (l : t) : Res (flit.t * t) :=
  '(f, b) ← flitBuffer.getTopFlit (linkBuffer l);
  Ok (f, set_buffer b l).

(** [wakeup()], with [*link_srcQueue] as [src]: the queue and the link after
    it, and the consumer to wake with the cycles to wait. *)
Definition wakeup (curCycle : Z) (src : flitBuffer.t) (l : t)
    : Res (flitBuffer.t * t * option (consumer * Z)) :=
  r ← flitBuffer.isReady curCycle src;
  if (r : bool) then
    '(t_flit, src') ← flitBuffer.getTopFlit src;
    let t_flit := flit.set_time (curCycle + m_latency l) t_flit in
    let linkBuffer' := flitBuffer.insert t_flit (linkBuffer l) in
    c ← match link_consumer l with
        | Some c => Ok c
        | None => Err (NullDeref "link_consumer")
        end;
    load ← vec_upd (m_vc_load l) (flit.m_vc t_flit) (fun n => Ok (u32 (n + 1)));
    Ok (src',
        mk linkBuffer' (m_id l) (m_type l) (m_latency l) (link_consumer l) (link_srcQueue l)
           (u32 (m_link_utilized l + 1)) load,
        Some (c, m_latency l))
  else Ok (src, l, None).

Definition resetStats (l : t) : t :=
  mk (linkBuffer l) (m_id l) (m_type l) (m_latency l) (link_consumer l) (link_srcQueue l)
     0 (map (fun _ => 0) (m_vc_load l)).

Definition functionalWrite {Packet : Type}
    (msg_write : Packet -> Message.t -> bool * Message.t) (pkt : Packet) (l : t)
    : Res (Z * t) :=
  '(n, b) ← flitBuffer.functionalWrite msg_write pkt (linkBuffer l);
  Ok (n, set_buffer b l).

End NetworkLink.

(** ** [class OutputUnit] *)
Module OutputUnit.

Record t := mk {
  m_out_link : Z;
  m_outvc_state : list OutVcState.t;
  m_id : Z;
  m_direction : PortDirection;
  m_num_vcs : Z;
  m_vc_per_vnet : Z;
  m_credit_link : Z;
  m_out_buffer : flitBuffer.t
}.

Definition new (id : Z) (direction : PortDirection) (num_vcs vc_per_vnet : Z)
    (net : NetConfig.t) : Res t :=
  vcs ← mapM (fun i => OutVcState.new i net) (range 0 num_vcs);
  Ok (mk (-1) vcs id direction num_vcs vc_per_vnet (-1) flitBuffer.new).

Definition set_outvc_state (l : list OutVcState.t) (o : t) : t :=
  mk (m_out_link o) l (m_id o) (m_direction o) (m_num_vcs o) (m_vc_per_vnet o)
     (m_credit_link o) (m_out_buffer o).

Definition set_out_buffer (b : flitBuffer.t) (o : t) : t :=
  mk (m_out_link o) (m_outvc_state o) (m_id o) (m_direction o) (m_num_vcs o)
     (m_vc_per_vnet o) (m_credit_link o) b.

Definition set_out_link (link : Z) (o : t) : t :=
  mk link (m_outvc_state o) (m_id o) (m_direction o) (m_num_vcs o) (m_vc_per_vnet o)
     (m_credit_link o) (m_out_buffer o).

Definition set_credit_link (credit_link : Z) (o : t) : t :=
  mk (m_out_link o) (m_outvc_state o) (m_id o) (m_direction o) (m_num_vcs o)
     (m_vc_per_vnet o) credit_link (m_out_buffer o).

Definition upd_vc (vc : Z) (f : OutVcState.t -> Res OutVcState.t) (o : t) : Res t :=
  l ← vec_upd (m_outvc_state o) vc f;
  Ok (set_outvc_state l o).

Definition decrement_credit (out_vc : Z) (o : t) : Res t :=
  upd_vc out_vc OutVcState.decrement_credit o.

Definition increment_credit (out_vc : Z) (o : t) : Res t :=
  upd_vc out_vc OutVcState.increment_credit o.

Definition has_credit (curCycle out_vc : Z) (o : t) : Res bool :=
  s ← vec_at (m_outvc_state o) out_vc;
  _ ← assert_ (OutVcState.isInState ACTIVE_ curCycle s) "OutputUnit.cc:91";
  Ok (OutVcState.has_credit s).

Definition get_credit_count (vc : Z) (o : t) : Res Z :=
  s ← vec_at (m_outvc_state o) vc;
  Ok (OutVcState.m_credit_count s).

Definition set_vc_state (state : VC_state_type) (vc curTime : Z) (o : t) : Res t :=
  upd_vc vc (fun s => Ok (OutVcState.setState state curTime s)) o.

Definition is_vc_idle (vc curTime : Z) (o : t) : Res bool :=
  s ← vec_at (m_outvc_state o) vc;
  Ok (OutVcState.isInState IDLE_ curTime s).

(** The virtual channels of a virtual network. *)
Definition vnet_vcs (vnet : Z) (o : t) : list Z :=
  let vc_base := vnet * m_vc_per_vnet o in
  range vc_base (vc_base + m_vc_per_vnet o).

Definition getNumFreeVCs (curCycle vnet : Z) (o : t) : Res Z :=
  countM (fun vc => is_vc_idle vc curCycle o) (vnet_vcs vnet o).

Definition has_free_vc (curCycle vnet : Z) (o : t) : Res bool :=
  r ← findM (fun vc => is_vc_idle vc curCycle o) (vnet_vcs vnet o);
  Ok (match r with Some _ => true | None => false end).

Definition select_free_vc (curCycle vnet : Z) (o : t) : Res (Z * t) :=
  r ← findM (fun vc => is_vc_idle vc curCycle o) (vnet_vcs vnet o);
  match r with
  | Some vc => o' ← set_vc_state ACTIVE_ vc curCycle o; Ok (vc, o')
  | None => Ok (-1, o)
  end.

(** [insert_flit]; the caller schedules [m_out_link] for the next cycle. *)
Definition insert_flit (t_flit : flit.t) (o : t) : t :=
  set_out_buffer (flitBuffer.insert t_flit (m_out_buffer o)) o.

(** [wakeup()], with the object [m_credit_link] points to as [cl]. *)
Definition wakeup (curCycle : Z) (cl : NetworkLink.t) (o : t) : Res (NetworkLink.t * t) :=
  r ← NetworkLink.isReady curCycle cl;
  if (r : bool) then
    '(t_credit, cl') ← NetworkLink.consumeLink cl;
    o1 ← increment_credit (flit.m_vc t_credit) o;
    free ← Credit.is_free_signal t_credit;
    if (free : bool) then
      o2 ← set_vc_state IDLE_ (flit.m_vc t_credit) curCycle o1;
      Ok (cl', o2)
    else Ok (cl', o1)
  else Ok (cl, o).

Definition functionalWrite {Packet : Type}
    (msg_write : Packet -> Message.t -> bool * Message.t) (pkt : Packet) (o : t)
    : Res (Z * t) :=
  '(n, b) ← flitBuffer.functionalWrite msg_write pkt (m_out_buffer o);
  Ok (n, set_out_buffer b o).

End OutputUnit.

(** ** [class InputUnit]: data and operations on its own state

    [InputUnit::wakeup] computes a route and is in the file of the network's
    state machine. *)
Module InputUnit.

Record t := mk {
  m_vcs : list VirtualChannel.t;
  m_id : Z;
  m_direction : PortDirection;
  m_num_vcs : Z;
  m_vc_per_vnet : Z;
  m_in_link : Z;
  m_credit_link : Z;
  creditQueue : flitBuffer.t;
  m_num_buffer_writes : list Z;
  m_num_buffer_reads : list Z
}.

Definition new (id : Z) (direction : PortDirection) (num_vcs vc_per_vnet : Z) : t :=
  let zeros := replicate (Z.to_nat (Z.quot num_vcs vc_per_vnet)) 0 in
  mk (map VirtualChannel.new (range 0 num_vcs)) id direction num_vcs vc_per_vnet (-1) (-1)
     flitBuffer.new zeros zeros.

Definition set_vcs (l : list VirtualChannel.t) (u : t) : t :=
  mk l (m_id u) (m_direction u) (m_num_vcs u) (m_vc_per_vnet u) (m_in_link u)
     (m_credit_link u) (creditQueue u) (m_num_buffer_writes u) (m_num_buffer_reads u).

Definition set_creditQueue (q : flitBuffer.t) (u : t) : t :=
  mk (m_vcs u) (m_id u) (m_direction u) (m_num_vcs u) (m_vc_per_vnet u) (m_in_link u)
     (m_credit_link u) q (m_num_buffer_writes u) (m_num_buffer_reads u).

Definition set_activity (writes reads : list Z) (u : t) : t :=
  mk (m_vcs u) (m_id u) (m_direction u) (m_num_vcs u) (m_vc_per_vnet u) (m_in_link u)
     (m_credit_link u) (creditQueue u) writes reads.

Definition set_in_link (link : Z) (u : t) : t :=
  mk (m_vcs u) (m_id u) (m_direction u) (m_num_vcs u) (m_vc_per_vnet u) link
     (m_credit_link u) (creditQueue u) (m_num_buffer_writes u) (m_num_buffer_reads u).

Definition set_credit_link (credit_link : Z) (u : t) : t :=
  mk (m_vcs u) (m_id u) (m_direction u) (m_num_vcs u) (m_vc_per_vnet u) (m_in_link u)
     credit_link (creditQueue u) (m_num_buffer_writes u) (m_num_buffer_reads u).

Definition upd_vc (vc : Z) (f : VirtualChannel.t -> VirtualChannel.t) (u : t) : Res t :=
  l ← vec_upd (m_vcs u) vc (fun v => Ok (f v));
  Ok (set_vcs l u).

Definition set_vc_idle (vc curTime : Z) (u : t) : Res t :=
  upd_vc vc (VirtualChannel.set_idle curTime) u.

Definition set_vc_active (vc curTime : Z) (u : t) : Res t :=
  upd_vc vc (VirtualChannel.set_active curTime) u.

Definition grant_outport (vc outport : Z) (u : t) : Res t :=
  upd_vc vc (VirtualChannel.set_outport outport) u.

Definition grant_outvc (vc outvc : Z) (u : t) : Res t :=
  upd_vc vc (VirtualChannel.set_outvc outvc) u.

Definition get_outport (invc : Z) (u : t) : Res Z :=
  v ← vec_at (m_vcs u) invc; Ok (VirtualChannel.m_output_port v).

Definition get_outvc (invc : Z) (u : t) : Res Z :=
  v ← vec_at (m_vcs u) invc; Ok (VirtualChannel.m_output_vc v).

Definition get_enqueue_time (invc : Z) (u : t) : Res Z :=
  v ← vec_at (m_vcs u) invc; Ok (VirtualChannel.m_enqueue_time v).

Definition peekTopFlit (vc : Z) (u : t) : Res flit.t :=
  v ← vec_at (m_vcs u) vc; VirtualChannel.peekTopFlit v.

Definition getTopFlit (vc : Z) (u : t) : Res (flit.t * t) :=
  v ← vec_at (m_vcs u) vc;
  '(f, v') ← VirtualChannel.getTopFlit v;
  l ← vec_set (m_vcs u) vc v';
  Ok (f, set_vcs l u).

(** A write through the pointer [peekTopFlit(vc)] returns. *)
Definition update_top (vc : Z) (f : flit.t -> flit.t) (u : t) : Res t :=
  upd_vc vc (VirtualChannel.update_top f) u.

Definition need_stage (vc : Z) (stage : flit_stage) (time : Z) (u : t) : Res bool :=
  v ← vec_at (m_vcs u) vc; VirtualChannel.need_stage stage time v.

Definition isReady (invc curTime : Z) (u : t) : Res bool :=
  v ← vec_at (m_vcs u) invc; VirtualChannel.isReady curTime v.

Definition vc_isEmpty (invc : Z) (u : t) : Res bool :=
  v ← vec_at (m_vcs u) invc; Ok (VirtualChannel.isEmpty v).

Definition get_numFreeVC (dirn_ : PortDirection) (u : t) : Res Z :=
  _ ← assert_ (bool_decide (dirn_ = m_direction u)) "InputUnit.hh:157";
  countM (fun vc_ => vc_isEmpty vc_ u) (range 0 (m_vc_per_vnet u)).

(** [increment_credit]; the caller schedules [m_credit_link] for the next
    cycle. *)
Definition increment_credit (net : NetConfig.t) (in_vc : Z) (free_signal : bool)
    (curTime : Z) (u : t) : t :=
  let t_credit := Credit.new (NetConfig.indeterminate net) (NetConfig.empty_dest net)
                    in_vc free_signal curTime in
  set_creditQueue (flitBuffer.insert t_credit (creditQueue u)) u.

Definition resetStats (u : t) : t :=
  set_activity (map (fun _ => 0) (m_num_buffer_reads u))
               (map (fun _ => 0) (m_num_buffer_reads u)) u.

Definition functionalWrite {Packet : Type}
    (msg_write : Packet -> Message.t -> bool * Message.t) (pkt : Packet) (u : t)
    : Res (Z * t) :=
  foldM (fun i '(n, u) =>
           v ← vec_at (m_vcs u) i;
           '(k, v') ← VirtualChannel.functionalWrite msg_write pkt v;
           l ← vec_set (m_vcs u) i v';
           Ok (u32 (n + k), set_vcs l u))
    (range 0 (m_num_vcs u)) (0, u).

End InputUnit.
