(* ===== verification/ChannelFacts.v ===== *)
(** * Credits, virtual-channel selection and links: theorems

    The credit counter of [OutVcState], the choice of a free virtual channel
    by [OutputUnit] and the transfer of a flit by [NetworkLink::wakeup]. *)

From S2P Require Import Prelude NetDest Types FlitBuffer Channels.

(** ** The credit counter *)

Definition credit_ok (o : OutVcState.t) : Prop :=
  0 <= OutVcState.m_credit_count o <= OutVcState.m_max_credit_count o.

Lemma increment_credit_inv o o' :
  OutVcState.increment_credit o = Ok o' ->
  OutVcState.m_credit_count o + 1 <= OutVcState.m_max_credit_count o /\
  o' = OutVcState.mk (OutVcState.m_id o) (OutVcState.m_time o) (OutVcState.m_vc_state o)
         (OutVcState.m_credit_count o + 1) (OutVcState.m_max_credit_count o).
Proof.
  unfold OutVcState.increment_credit, assert_.
  destruct (Z.leb_spec (OutVcState.m_credit_count o + 1) (OutVcState.m_max_credit_count o));
    cbn; intros; simplify_res; auto.
Qed.

Lemma decrement_credit_inv o o' :
  OutVcState.decrement_credit o = Ok o' ->
  1 <= OutVcState.m_credit_count o /\
  o' = OutVcState.mk (OutVcState.m_id o) (OutVcState.m_time o) (OutVcState.m_vc_state o)
         (OutVcState.m_credit_count o - 1) (OutVcState.m_max_credit_count o).
Proof.
  unfold OutVcState.decrement_credit, assert_. rewrite Z.geb_leb.
  destruct (Z.leb_spec 0 (OutVcState.m_credit_count o - 1));
    cbn; intros; simplify_res; split; auto; lia.
Qed.

Lemma increment_credit_ok o :
  OutVcState.m_credit_count o < OutVcState.m_max_credit_count o ->
  OutVcState.increment_credit o =
  Ok (OutVcState.mk (OutVcState.m_id o) (OutVcState.m_time o) (OutVcState.m_vc_state o)
        (OutVcState.m_credit_count o + 1) (OutVcState.m_max_credit_count o)).
Proof.
  intros. unfold OutVcState.increment_credit, assert_.
  rewrite (proj2 (Z.leb_le _ _)) by lia. done.
Qed.

Lemma decrement_credit_ok o :
  0 < OutVcState.m_credit_count o ->
  OutVcState.decrement_credit o =
  Ok (OutVcState.mk (OutVcState.m_id o) (OutVcState.m_time o) (OutVcState.m_vc_state o)
        (OutVcState.m_credit_count o - 1) (OutVcState.m_max_credit_count o)).
Proof.
  intros. unfold OutVcState.decrement_credit, assert_.
  rewrite Z.geb_leb, (proj2 (Z.leb_le _ _)) by lia. done.
Qed.

Lemma OutVcState_eta o :
  OutVcState.mk (OutVcState.m_id o) (OutVcState.m_time o) (OutVcState.m_vc_state o)
    (OutVcState.m_credit_count o) (OutVcState.m_max_credit_count o) = o.
Proof. by destruct o. Qed.

(** A credit counter within its bounds stays there: taking a credit
    succeeds exactly when [has_credit] holds, returning one exactly when the
    counter is below the size of the downstream buffer; each of the two
    operations undoes the other; and a new counter starts full. *)
Theorem credit_counter_correct o :
  credit_ok o ->
  is_ok (OutVcState.decrement_credit o) = OutVcState.has_credit o /\
  is_ok (OutVcState.increment_credit o)
    = (OutVcState.m_credit_count o <? OutVcState.m_max_credit_count o) /\
  (forall o', OutVcState.decrement_credit o = Ok o' ->
     credit_ok o' /\ OutVcState.increment_credit o' = Ok o) /\
  (forall o', OutVcState.increment_credit o = Ok o' ->
     credit_ok o' /\ OutVcState.decrement_credit o' = Ok o) /\
  (forall id net n, OutVcState.new id net = Ok n ->
     credit_ok n /\ is_ok (OutVcState.increment_credit n) = false).
Proof.
  unfold credit_ok. intros Hok. split_and!.
  - unfold OutVcState.decrement_credit, OutVcState.has_credit, assert_.
    rewrite Z.geb_leb, Z.gtb_ltb.
    destruct (Z.leb_spec 0 (OutVcState.m_credit_count o - 1)),
      (Z.ltb_spec 0 (OutVcState.m_credit_count o)); cbn; done || lia.
  - unfold OutVcState.increment_credit, assert_.
    destruct (Z.leb_spec (OutVcState.m_credit_count o + 1) (OutVcState.m_max_credit_count o)),
      (Z.ltb_spec (OutVcState.m_credit_count o) (OutVcState.m_max_credit_count o));
      cbn; done || lia.
  - intros o' [? ->]%decrement_credit_inv. cbn. split; [lia|].
    rewrite increment_credit_ok by (cbn; lia). cbn. rewrite Z.sub_add, OutVcState_eta. done.
  - intros o' [? ->]%increment_credit_inv. cbn. split; [lia|].
    rewrite decrement_credit_ok by (cbn; lia). cbn. rewrite Z.add_simpl_r, OutVcState_eta. done.
  - intros id net n Hn. unfold OutVcState.new in Hn. inv_bind Hn. inv_bind Hn. simplify_res.
    cbn. apply Z.geb_le in E0 || (unfold assert_ in E0; destruct (_ >=? 1) eqn:Hc in E0;
      [|discriminate]; apply Z.geb_le in Hc).
    split; [lia|]. unfold OutVcState.increment_credit, assert_. cbn.
    rewrite (proj2 (Z.leb_gt _ _)) by lia. done.
Qed.

(** ** Choosing a free virtual channel *)

Lemma countM_change {A} `{EqDecision A} (f g : A -> Res bool) a l n :
  NoDup l -> a ∈ l -> f a = Ok true -> g a = Ok false ->
  (forall b, b ∈ l -> b <> a -> g b = f b) ->
  countM f l = Ok n -> countM g l = Ok (n - 1).
Proof.
  revert n. induction l as [|x l IH]; intros n Hnd Ha Hf Hg Hrest H;
    [by apply elem_of_nil in Ha|].
  apply NoDup_cons in Hnd as [Hx Hnd]. cbn in H |- *.
  inv_bind H. inv_bind H. simplify_res.
  destruct (decide (x = a)) as [->|Hne].
  - rewrite Hg. cbn. rewrite E in Hf. simplify_res.
    assert (countM g l = countM f l) as ->.
    { clear IH E0 Ha. revert Hx Hnd Hrest. induction l as [|y l IHl]; intros Hx Hnd Hrest; [done|]. cbn.
      apply not_elem_of_cons in Hx as [? ?]. apply NoDup_cons in Hnd as [? ?].
      rewrite Hrest by (set_solver). destruct (f y); cbn; [|done].
      rewrite IHl; [done|done|done|]. intros; apply Hrest; set_solver. }
    rewrite E0. cbn. f_equal. lia.
  - rewrite Hrest by set_solver. rewrite E. cbn.
    rewrite (IH a1); eauto; [|set_solver|intros; apply Hrest; set_solver].
    cbn. f_equal. destruct a0; lia.
Qed.

Lemma findM_first {A} (f : A -> Res bool) l a :
  findM f l = Ok (Some a) ->
  exists l1 l2, l = l1 ++ a :: l2 /\ Forall (fun b => f b = Ok false) l1.
Proof.
  induction l as [|x l IH]; cbn; intros H; [simplify_res; done|].
  destruct (f x) as [[]|] eqn:E; cbn in H; simplify_res; try done.
  - exists [], l. done.
  - destruct (IH H) as (l1 & l2 & -> & Hl1). exists (x :: l1), l2. split; [done|].
    by constructor.
Qed.

Lemma range_sorted_prefix lo hi l1 a l2 b :
  range lo hi = l1 ++ a :: l2 -> lo <= b < a -> b ∈ l1.
Proof.
  intros H Hb. unfold range in H.
  assert (seqZ lo (hi - lo) !! length l1 = Some a) as Ha by (by rewrite H, list_lookup_middle).
  apply lookup_seqZ in Ha as [Ha Hlt].
  assert (seqZ lo (hi - lo) !! Z.to_nat (b - lo) = Some b) as Hbl
    by (apply lookup_seqZ; lia).
  rewrite H, lookup_app_l in Hbl by lia. by eapply list_elem_of_lookup_2.
Qed.

Lemma range_NoDup lo hi : NoDup (range lo hi).
Proof. apply NoDup_seqZ. Qed.

Definition idle (curCycle : Z) (o : OutputUnit.t) (vc : Z) : Prop :=
  OutputUnit.is_vc_idle vc curCycle o = Ok true.

(** The virtual channels of [vnet] exist. *)
Definition vnet_inside (vnet : Z) (o : OutputUnit.t) : Prop :=
  0 <= vnet * OutputUnit.m_vc_per_vnet o /\
  vnet * OutputUnit.m_vc_per_vnet o + OutputUnit.m_vc_per_vnet o
    <= zlen (OutputUnit.m_outvc_state o).

Lemma is_vc_idle_total vc curCycle o :
  0 <= vc < zlen (OutputUnit.m_outvc_state o) ->
  exists b, OutputUnit.is_vc_idle vc curCycle o = Ok b.
Proof.
  intros H. unfold OutputUnit.is_vc_idle. destruct (vec_at_total _ _ H) as [s ->]. cbn. eauto.
Qed.

Lemma vnet_vcs_idle_total vnet curCycle o vc :
  vnet_inside vnet o -> vc ∈ OutputUnit.vnet_vcs vnet o ->
  exists b, OutputUnit.is_vc_idle vc curCycle o = Ok b.
Proof.
  intros [? ?] Hvc. apply in_range in Hvc. apply is_vc_idle_total. lia.
Qed.

Lemma countM_total {A} (f : A -> Res bool) l :
  (forall a, a ∈ l -> exists b, f a = Ok b) -> exists n, countM f l = Ok n /\ 0 <= n.
Proof.
  induction l as [|x l IH]; intros H; cbn; [eauto with lia|].
  destruct (H x) as [b ->]; [left|]. cbn. destruct IH as (n & -> & ?).
  - intros; apply H; by right.
  - cbn. exists (if b then n + 1 else n). destruct b; auto with lia.
Qed.

Lemma getNumFreeVCs_total curCycle vnet o :
  vnet_inside vnet o -> exists k, OutputUnit.getNumFreeVCs curCycle vnet o = Ok k /\ 0 <= k.
Proof. intros Hin. apply countM_total. intros; by eapply vnet_vcs_idle_total. Qed.

Lemma select_free_vc_inv curCycle vnet o vc o' :
  OutputUnit.select_free_vc curCycle vnet o = Ok (vc, o') ->
  (vc = -1 /\ o' = o /\
   Forall (fun v => OutputUnit.is_vc_idle v curCycle o = Ok false) (OutputUnit.vnet_vcs vnet o))
  \/ (vc ∈ OutputUnit.vnet_vcs vnet o /\ idle curCycle o vc /\
      OutputUnit.set_vc_state ACTIVE_ vc curCycle o = Ok o' /\
      forall b, vnet * OutputUnit.m_vc_per_vnet o <= b < vc ->
        OutputUnit.is_vc_idle b curCycle o = Ok false).
Proof.
  unfold OutputUnit.select_free_vc. intros H. inv_bind H. destruct a as [v|].
  - inv_bind H. simplify_res. right. apply findM_Some in E as Hs. destruct Hs as [Hin Hidle].
    split_and!; [done|done|done|]. intros b Hb.
    apply findM_first in E as (l1 & l2 & Hl & Hall).
    pose proof (range_sorted_prefix _ _ _ _ _ b Hl Hb) as Hbl1.
    by eapply Forall_forall in Hall.
  - simplify_res. left. split_and!; [done|done|]. by apply findM_None.
Qed.

Lemma set_vc_state_inv state vc curCycle o o' :
  OutputUnit.set_vc_state state vc curCycle o = Ok o' ->
  exists s, vec_at (OutputUnit.m_outvc_state o) vc = Ok s /\
    o' = OutputUnit.set_outvc_state
           (<[Z.to_nat vc := OutVcState.setState state curCycle s]> (OutputUnit.m_outvc_state o)) o.
Proof.
  unfold OutputUnit.set_vc_state, OutputUnit.upd_vc. intros H. inv_bind H. simplify_res.
  apply vec_upd_inv in E as (x & y & Hx & Hy & ->). simplify_res. eauto.
Qed.

Lemma is_vc_idle_set state vc curCycle o o' :
  OutputUnit.set_vc_state state vc curCycle o = Ok o' ->
  OutputUnit.is_vc_idle vc curCycle o' = Ok (bool_decide (state = IDLE_)) /\
  (forall v, v <> vc -> OutputUnit.is_vc_idle v curCycle o' = OutputUnit.is_vc_idle v curCycle o).
Proof.
  intros H. apply set_vc_state_inv in H as (s & Hs & ->).
  pose proof (vec_at_inside _ _ _ Hs) as Hin.
  pose proof (vec_set_Ok _ _ (OutVcState.setState state curCycle s) Hin) as Hset.
  unfold OutputUnit.is_vc_idle. cbn. split.
  - rewrite (vec_at_set_eq _ _ _ _ Hset). cbn. unfold OutVcState.isInState. cbn.
    rewrite Z.leb_refl, andb_true_r. done.
  - intros v Hv. by rewrite (vec_at_set_ne _ vc v _ _ ltac:(done) Hset).
Qed.

(** [select_free_vc] on an existing virtual network always returns.
    It finds a virtual channel exactly when [has_free_vc] says so; then it is
    the lowest idle one of the virtual network, it is no longer idle
    afterwards, the number of free ones drops by one and no other virtual
    channel changes; otherwise it returns -1 and changes nothing. *)
Theorem select_free_vc_correct curCycle vnet o :
  vnet_inside vnet o ->
  exists vc o' free k,
    OutputUnit.select_free_vc curCycle vnet o = Ok (vc, o') /\
    OutputUnit.has_free_vc curCycle vnet o = Ok free /\
    OutputUnit.getNumFreeVCs curCycle vnet o = Ok k /\
    (if free then
       vc ∈ OutputUnit.vnet_vcs vnet o /\ idle curCycle o vc /\
       (forall b, vnet * OutputUnit.m_vc_per_vnet o <= b < vc -> ~ idle curCycle o b) /\
       ~ idle curCycle o' vc /\
       OutputUnit.getNumFreeVCs curCycle vnet o' = Ok (k - 1) /\
       (forall v, v <> vc -> vec_at (OutputUnit.m_outvc_state o') v
                             = vec_at (OutputUnit.m_outvc_state o) v)
     else vc = -1 /\ o' = o /\ k = 0).
Proof.
  intros Hin. unfold idle.
  destruct (findM_total (fun vc => OutputUnit.is_vc_idle vc curCycle o)
              (OutputUnit.vnet_vcs vnet o)) as [r Hr].
  { intros; by eapply vnet_vcs_idle_total. }
  destruct (getNumFreeVCs_total curCycle vnet o Hin) as (k & Hk & _).
  unfold OutputUnit.has_free_vc. rewrite Hr. cbn.
  destruct (OutputUnit.select_free_vc curCycle vnet o) as [[vc o']|] eqn:Hs.
  2:{ unfold OutputUnit.select_free_vc in Hs. rewrite Hr in Hs. cbn in Hs.
      destruct r as [v|]; [|done]. destruct (findM_Some _ _ _ Hr) as [Hv _].
      apply in_range in Hv. destruct Hin as [? ?].
      destruct (vec_at_total (OutputUnit.m_outvc_state o) v) as [s Hs']; [lia|].
      unfold OutputUnit.set_vc_state, OutputUnit.upd_vc in Hs.
      rewrite (vec_upd_Ok _ _ (fun s => Ok (OutVcState.setState ACTIVE_ curCycle s)) _ _ Hs'
        eq_refl) in Hs. done. }
  exists vc, o', (match r with Some _ => true | None => false end), k.
  split_and!; [done|done|done|].
  apply select_free_vc_inv in Hs as [(-> & -> & Hall)|(Hvc & Hidle & Hset & Hlow)].
  - assert (r = None) as ->. { apply findM_None in Hall. congruence. }
    split_and!; [done|done|]. unfold OutputUnit.getNumFreeVCs in Hk.
    clear - Hk Hall. revert k Hk. induction Hall as [|x l Hx Hl IH]; cbn; intros; simplify_res;
      [done|]. rewrite Hx in Hk. cbn in Hk. inv_bind Hk. simplify_res. eauto.
  - destruct r as [v|].
    2:{ apply findM_None in Hr. eapply Forall_forall in Hr; [|exact Hvc]. cbn in Hr. congruence. }
    destruct (is_vc_idle_set _ _ _ _ _ Hset) as [Hsame Hother]. cbn in Hsame.
    split_and!; [done|done| | | |].
    + intros b Hb. rewrite Hlow by done. done.
    + by rewrite Hsame.
    + apply set_vc_state_inv in Hset as Hinv. destruct Hinv as (s & Hs & Ho').
      assert (OutputUnit.vnet_vcs vnet o' = OutputUnit.vnet_vcs vnet o) as Hvcs by (by subst o').
      unfold OutputUnit.getNumFreeVCs. rewrite Hvcs.
      eapply (countM_change (fun v => OutputUnit.is_vc_idle v curCycle o)
                (fun v => OutputUnit.is_vc_idle v curCycle o') vc); [apply range_NoDup|done|exact Hidle|exact Hsame| |exact Hk].
      intros b _ Hb. by apply Hother.
    + intros w Hw. apply set_vc_state_inv in Hset as (s & Hs & ->). cbn.
      eapply vec_at_set_ne; [|apply vec_set_Ok]; [done|]. eauto with drain.
Qed.

(** ** Links *)

Lemma flitBuffer_isReady_nil time b :
  flitBuffer.m_buffer b = [] -> flitBuffer.isReady time b = Ok false.
Proof. unfold flitBuffer.isReady, zlen. by intros ->. Qed.

Lemma flitBuffer_isReady_cons time b f l :
  flitBuffer.m_buffer b = f :: l ->
  flitBuffer.isReady time b = Ok (flit.m_time f <=? time).
Proof.
  unfold flitBuffer.isReady, flitBuffer.peekTopFlit, flitBuffer.front, assert_, zlen.
  intros ->. cbn [length]. rewrite (proj2 (Z.gtb_lt _ _)) by lia.
  rewrite (proj2 (Z.eqb_neq _ _)) by lia. done.
Qed.

Lemma flitBuffer_isReady_total time b : exists r, flitBuffer.isReady time b = Ok r.
Proof.
  destruct (flitBuffer.m_buffer b) eqn:E.
  - exists false. by apply flitBuffer_isReady_nil.
  - eexists. by eapply flitBuffer_isReady_cons.
Qed.

Lemma flitBuffer_isReady_true time b :
  flitBuffer.isReady time b = Ok true ->
  exists f l, flitBuffer.m_buffer b = f :: l /\ flit.m_time f <= time.
Proof.
  destruct (flitBuffer.m_buffer b) as [|f l] eqn:E; intros H.
  - by rewrite flitBuffer_isReady_nil in H.
  - erewrite flitBuffer_isReady_cons in H by exact E. simplify_res.
    exists f, l. split; [done|]. by apply Z.leb_le.
Qed.

(** A link with a consumer that finds a flit in its source queue and
    carries only its virtual channels moves exactly the earliest flit of the
    queue into its own buffer, to arrive [m_latency] cycles later, and wakes
    its consumer for that cycle; when the queue has no flit for this cycle it
    changes nothing. *)
Theorem link_wakeup_moves_one curCycle src l c :
  buffer_wf src -> buffer_wf (NetworkLink.linkBuffer l) ->
  NetworkLink.link_consumer l = Some c ->
  (forall f, f ∈ flitBuffer.m_buffer src -> 0 <= flit.m_vc f < zlen (NetworkLink.m_vc_load l)) ->
  (flitBuffer.isReady curCycle src = Ok false /\
   NetworkLink.wakeup curCycle src l = Ok (src, l, None)) \/
  exists f src' l', flitBuffer.isReady curCycle src = Ok true /\
    NetworkLink.wakeup curCycle src l = Ok (src', l', Some (c, NetworkLink.m_latency l)) /\
    flitBuffer.m_buffer src ≡ₚ f :: flitBuffer.m_buffer src' /\
    (forall g, g ∈ flitBuffer.m_buffer src -> flit.m_time f <= flit.m_time g) /\
    flitBuffer.m_buffer (NetworkLink.linkBuffer l') ≡ₚ
      flit.set_time (curCycle + NetworkLink.m_latency l) f
      :: flitBuffer.m_buffer (NetworkLink.linkBuffer l) /\
    buffer_wf src' /\ buffer_wf (NetworkLink.linkBuffer l').
Proof.
  intros Hsrc Hlink Hc Hload.
  destruct (flitBuffer_isReady_total curCycle src) as [[] Hr]; [right|left].
  - destruct (flitBuffer_isReady_true _ _ Hr) as (f & rest & Hf & _).
    destruct (flitBuffer.getTopFlit src) as [[g src']|] eqn:Ht.
    2:{ unfold flitBuffer.getTopFlit, flitBuffer.front in Ht. by rewrite Hf in Ht. }
    apply getTopFlit_front in Ht as Hfront. unfold flitBuffer.front in Hfront.
    rewrite Hf in Hfront. simplify_res.
    destruct (vec_at_total (NetworkLink.m_vc_load l) (flit.m_vc g)) as [n Hn].
    { apply Hload. rewrite Hf. set_solver. }
    unfold NetworkLink.wakeup. rewrite Hr. cbn. rewrite Ht. cbn. rewrite Hc. cbn.
    rewrite (vec_upd_Ok _ _ (fun n => Ok (u32 (n + 1))) _ _ Hn eq_refl). cbn.
    eexists g, src', _. split_and!; [done|done| | | | |].
    + by apply getTopFlit_Permutation.
    + intros h Hh. eapply front_least in Hh; [|done|by eapply getTopFlit_front].
      apply flit_greater_spec in Hh. lia.
    + cbn. rewrite push_heap_Permutation. by rewrite Permutation_app_comm.
    + eauto with drain.
    + cbn. auto with drain.
  - split; [done|]. unfold NetworkLink.wakeup. by rewrite Hr.
Qed.
