(* ===== verification/RouterCore.v ===== *)
(** * The router's switch allocator and crossbar

    Models, of src/mem/ruby/network/garnet2.0: the data of RoutingUnit.hh,
    CrossbarSwitch.{hh,cc}, SwitchAllocator.{hh,cc} and the data and simple
    accessors of Router.{hh,cc}. The two pipeline stages work on one router,
    the network's DRAIN counters and the event queue, which [RC.t] puts
    together. *)

From S2P Require Import Prelude NetDest Types FlitBuffer Channels.

(** ** Data of [class RoutingUnit] *)
Module RoutingUnit.

Record t := mk {
  m_inports_dirn2idx : gmap string Z;
  m_inports_idx2dirn : gmap Z string;
  m_outports_idx2dirn : gmap Z string;
  m_outports_dirn2idx : gmap string Z;
  m_routing_table : list NetDest.t;
  m_weight_table : list Z
}.

Definition new : t := mk ∅ ∅ ∅ ∅ [] [].

Definition addRoute (routing_table_entry : NetDest.t) (r : t) : t :=
  mk (m_inports_dirn2idx r) (m_inports_idx2dirn r) (m_outports_idx2dirn r)
     (m_outports_dirn2idx r) (m_routing_table r ++ [routing_table_entry]) (m_weight_table r).

Definition addWeight (link_weight : Z) (r : t) : t :=
  mk (m_inports_dirn2idx r) (m_inports_idx2dirn r) (m_outports_idx2dirn r)
     (m_outports_dirn2idx r) (m_routing_table r) (m_weight_table r ++ [link_weight]).

Definition addInDirection (inport_dirn : PortDirection) (inport_idx : Z) (r : t) : t :=
  mk (<[inport_dirn := inport_idx]> (m_inports_dirn2idx r))
     (<[inport_idx := inport_dirn]> (m_inports_idx2dirn r)) (m_outports_idx2dirn r)
     (m_outports_dirn2idx r) (m_routing_table r) (m_weight_table r).

Definition addOutDirection (outport_dirn : PortDirection) (outport_idx : Z) (r : t) : t :=
  mk (m_inports_dirn2idx r) (m_inports_idx2dirn r)
     (<[outport_idx := outport_dirn]> (m_outports_idx2dirn r))
     (<[outport_dirn := outport_idx]> (m_outports_dirn2idx r))
     (m_routing_table r) (m_weight_table r).

(** [m_outports_dirn2idx[dirn]] and [m_inports_dirn2idx[dirn]]: the lookup
    of an unknown direction inserts it with port 0. *)
Definition outport_index (dirn : PortDirection) (r : t) : Z * t :=
  let '(i, m) := map_index 0 dirn (m_outports_dirn2idx r) in
  (i, mk (m_inports_dirn2idx r) (m_inports_idx2dirn r) (m_outports_idx2dirn r) m
         (m_routing_table r) (m_weight_table r)).

Definition inport_index (dirn : PortDirection) (r : t) : Z * t :=
  let '(i, m) := map_index 0 dirn (m_inports_dirn2idx r) in
  (i, mk m (m_inports_idx2dirn r) (m_outports_idx2dirn r) (m_outports_dirn2idx r)
         (m_routing_table r) (m_weight_table r)).

End RoutingUnit.

(** ** Data of [class SwitchAllocator] *)
Module SwitchAllocator.

Record t := mk {
  m_requested_uturn : bool;
  m_num_inports : Z;
  m_num_outports : Z;
  m_num_vcs : Z;
  m_vc_per_vnet : Z;
  m_input_arbiter_activity : Z;
  m_output_arbiter_activity : Z;
  m_round_robin_invc : list Z;
  m_round_robin_inport : list Z;
  m_port_requests : list (list bool);
  m_vc_winners : list (list Z)
}.

Definition new (num_vcs vc_per_vnet : Z) : t :=
  mk false 0 0 num_vcs vc_per_vnet 0 0 [] [] [] [].

Definition init (num_inports num_outports : Z) (s : t) : t :=
  mk (m_requested_uturn s) num_inports num_outports (m_num_vcs s) (m_vc_per_vnet s)
     (m_input_arbiter_activity s) (m_output_arbiter_activity s)
     (replicate (Z.to_nat num_inports) 0)
     (replicate (Z.to_nat num_outports) 0)
     (replicate (Z.to_nat num_outports) (replicate (Z.to_nat num_inports) false))
     (replicate (Z.to_nat num_outports) (replicate (Z.to_nat num_inports) 0)).

Definition set_activity (i o : Z) (s : t) : t :=
  mk (m_requested_uturn s) (m_num_inports s) (m_num_outports s) (m_num_vcs s)
     (m_vc_per_vnet s) i o (m_round_robin_invc s) (m_round_robin_inport s)
     (m_port_requests s) (m_vc_winners s).

Definition set_round_robin (invc inport : list Z) (s : t) : t :=
  mk (m_requested_uturn s) (m_num_inports s) (m_num_outports s) (m_num_vcs s)
     (m_vc_per_vnet s) (m_input_arbiter_activity s) (m_output_arbiter_activity s)
     invc inport (m_port_requests s) (m_vc_winners s).

Definition set_requests (reqs : list (list bool)) (winners : list (list Z)) (s : t) : t :=
  mk (m_requested_uturn s) (m_num_inports s) (m_num_outports s) (m_num_vcs s)
     (m_vc_per_vnet s) (m_input_arbiter_activity s) (m_output_arbiter_activity s)
     (m_round_robin_invc s) (m_round_robin_inport s) reqs winners.

Definition clear_request_vector (s : t) : t :=
  set_requests
    (replicate (Z.to_nat (m_num_outports s)) (replicate (Z.to_nat (m_num_inports s)) false))
    (m_vc_winners s) s.

Definition resetStats (s : t) : t := set_activity 0 0 s.

End SwitchAllocator.

(** ** Data of [class CrossbarSwitch] *)
Module CrossbarSwitch.

Record t := mk {
  m_num_vcs : Z;
  m_num_inports : Z;
  m_crossbar_activity : Z;
  m_switch_buffer : list flitBuffer.t
}.

Definition new (num_vcs : Z) : t := mk num_vcs 0 0 [].

Definition init (num_inports : Z) (x : t) : t :=
  mk (m_num_vcs x) num_inports (m_crossbar_activity x)
     (replicate (Z.to_nat num_inports) flitBuffer.new).

Definition set_switch_buffer (l : list flitBuffer.t) (x : t) : t :=
  mk (m_num_vcs x) (m_num_inports x) (m_crossbar_activity x) l.

Definition set_activity (n : Z) (x : t) : t :=
  mk (m_num_vcs x) (m_num_inports x) n (m_switch_buffer x).

Definition update_sw_winner (inport : Z) (t_flit : flit.t) (x : t) : Res t :=
  l ← vec_upd (m_switch_buffer x) inport (fun b => Ok (flitBuffer.insert t_flit b));
  Ok (set_switch_buffer l x).

Definition resetStats (x : t) : t := set_activity 0 x.

Definition functionalWrite {Packet : Type}
    (msg_write : Packet -> Message.t -> bool * Message.t) (pkt : Packet) (x : t)
    : Res (Z * t) :=
  r ← foldM (fun b '(n, l) =>
               '(k, b') ← flitBuffer.functionalWrite msg_write pkt b;
               Ok (u32 (n + k), l ++ [b']))
        (m_switch_buffer x) (0, []);
  Ok (r.1, set_switch_buffer r.2 x).

End CrossbarSwitch.

(** ** Data and accessors of [class Router] *)
Module Router.

Record t := mk {
  m_id : Z;
  m_latency : Z;
  m_virtual_networks : Z;
  m_num_vcs : Z;
  m_vc_per_vnet : Z;
  mrkd_flt_ : Z;
  halt_ : bool;
  m_input_unit : list InputUnit.t;
  m_output_unit : list OutputUnit.t;
  m_routing_unit : RoutingUnit.t;
  m_sw_alloc : SwitchAllocator.t;
  m_switch : CrossbarSwitch.t
}.

Definition new (id latency virt_nets vcs_per_vnet marked_flit : Z) : t :=
  let num_vcs := virt_nets * vcs_per_vnet in
  mk id latency virt_nets num_vcs vcs_per_vnet marked_flit false [] [] RoutingUnit.new
     (SwitchAllocator.new num_vcs vcs_per_vnet) (CrossbarSwitch.new num_vcs).

Definition set_mrkd_flt (n : Z) (r : t) : t :=
  mk (m_id r) (m_latency r) (m_virtual_networks r) (m_num_vcs r) (m_vc_per_vnet r) n
     (halt_ r) (m_input_unit r) (m_output_unit r) (m_routing_unit r) (m_sw_alloc r)
     (m_switch r).

Definition set_halt_ (b : bool) (r : t) : t :=
  mk (m_id r) (m_latency r) (m_virtual_networks r) (m_num_vcs r) (m_vc_per_vnet r)
     (mrkd_flt_ r) b (m_input_unit r) (m_output_unit r) (m_routing_unit r)
     (m_sw_alloc r) (m_switch r).

Definition set_inputs (l : list InputUnit.t) (r : t) : t :=
  mk (m_id r) (m_latency r) (m_virtual_networks r) (m_num_vcs r) (m_vc_per_vnet r)
     (mrkd_flt_ r) (halt_ r) l (m_output_unit r) (m_routing_unit r) (m_sw_alloc r)
     (m_switch r).

Definition set_outputs (l : list OutputUnit.t) (r : t) : t :=
  mk (m_id r) (m_latency r) (m_virtual_networks r) (m_num_vcs r) (m_vc_per_vnet r)
     (mrkd_flt_ r) (halt_ r) (m_input_unit r) l (m_routing_unit r) (m_sw_alloc r)
     (m_switch r).

Definition set_routing_unit (u : RoutingUnit.t) (r : t) : t :=
  mk (m_id r) (m_latency r) (m_virtual_networks r) (m_num_vcs r) (m_vc_per_vnet r)
     (mrkd_flt_ r) (halt_ r) (m_input_unit r) (m_output_unit r) u (m_sw_alloc r)
     (m_switch r).

Definition set_sw_alloc (s : SwitchAllocator.t) (r : t) : t :=
  mk (m_id r) (m_latency r) (m_virtual_networks r) (m_num_vcs r) (m_vc_per_vnet r)
     (mrkd_flt_ r) (halt_ r) (m_input_unit r) (m_output_unit r) (m_routing_unit r) s
     (m_switch r).

Definition set_switch (x : CrossbarSwitch.t) (r : t) : t :=
  mk (m_id r) (m_latency r) (m_virtual_networks r) (m_num_vcs r) (m_vc_per_vnet r)
     (mrkd_flt_ r) (halt_ r) (m_input_unit r) (m_output_unit r) (m_routing_unit r)
     (m_sw_alloc r) x.

Definition get_num_inports (r : t) : Z := zlen (m_input_unit r).
Definition get_num_outports (r : t) : Z := zlen (m_output_unit r).

Definition init (r : t) : t :=
  let n_in := get_num_inports r in
  let n_out := get_num_outports r in
  set_switch (CrossbarSwitch.init n_in (m_switch r))
    (set_sw_alloc (SwitchAllocator.init n_in n_out (m_sw_alloc r)) r).

Definition getOutportDirection (outport : Z) (r : t) : Res PortDirection :=
  o ← vec_at (m_output_unit r) outport; Ok (OutputUnit.m_direction o).

Definition getInportDirection (inport : Z) (r : t) : Res PortDirection :=
  u ← vec_at (m_input_unit r) inport; Ok (InputUnit.m_direction u).

Definition upd_input (inport : Z) (f : InputUnit.t -> Res InputUnit.t) (r : t) : Res t :=
  l ← vec_upd (m_input_unit r) inport f; Ok (set_inputs l r).

Definition upd_output (outport : Z) (f : OutputUnit.t -> Res OutputUnit.t) (r : t) : Res t :=
  l ← vec_upd (m_output_unit r) outport f; Ok (set_outputs l r).

(** [get_numFreeVC]: the lookup of the port may insert into the map. *)
Definition get_numFreeVC (dirn_ : PortDirection) (r : t) : Res (Z * t) :=
  _ ← assert_ (negb (bool_decide (dirn_ = "Local"))) "Router.cc:91";
  let '(inport_id, ru) := RoutingUnit.inport_index dirn_ (m_routing_unit r) in
  let r := set_routing_unit ru r in
  u ← vec_at (m_input_unit r) inport_id;
  n ← InputUnit.get_numFreeVC dirn_ u;
  Ok (n, r).

Definition compute_hops_remaining (net : NetConfig.t) (flit_t : flit.t) (r : t) : Z :=
  let num_cols := NetConfig.m_num_cols net in
  let my_x := Z.rem (m_id r) num_cols in
  let my_y := Z.quot (m_id r) num_cols in
  let dest_id := RouteInfo.dest_router (flit.m_route flit_t) in
  let dest_x := Z.rem dest_id num_cols in
  let dest_y := Z.quot dest_id num_cols in
  Z.abs (dest_x - my_x) + Z.abs (dest_y - my_y).

Definition addInPort (inport_dirn : PortDirection) (in_link credit_link : Z) (r : t) : t :=
  let port_num := zlen (m_input_unit r) in
  let input_unit :=
    InputUnit.set_credit_link credit_link
      (InputUnit.set_in_link in_link
         (InputUnit.new port_num inport_dirn (m_num_vcs r) (m_vc_per_vnet r))) in
  set_routing_unit (RoutingUnit.addInDirection inport_dirn port_num (m_routing_unit r))
    (set_inputs (m_input_unit r ++ [input_unit]) r).

Definition addOutPort (net : NetConfig.t) (outport_dirn : PortDirection) (out_link : Z)
    (routing_table_entry : NetDest.t) (link_weight credit_link : Z) (r : t) : Res t :=
  let port_num := zlen (m_output_unit r) in
  output_unit ← OutputUnit.new port_num outport_dirn (m_num_vcs r) (m_vc_per_vnet r) net;
  let output_unit :=
    OutputUnit.set_credit_link credit_link (OutputUnit.set_out_link out_link output_unit) in
  let ru := RoutingUnit.addOutDirection outport_dirn port_num
              (RoutingUnit.addWeight link_weight
                 (RoutingUnit.addRoute routing_table_entry (m_routing_unit r))) in
  Ok (set_routing_unit ru (set_outputs (m_output_unit r ++ [output_unit]) r)).

Definition grant_switch (inport : Z) (t_flit : flit.t) (r : t) : Res t :=
  x ← CrossbarSwitch.update_sw_winner inport t_flit (m_switch r);
  Ok (set_switch x r).

Definition resetStats (r : t) : t :=
  let r := if m_virtual_networks r >? 0
           then set_inputs (map InputUnit.resetStats (m_input_unit r)) r else r in
  set_sw_alloc (SwitchAllocator.resetStats (m_sw_alloc r))
    (set_switch (CrossbarSwitch.resetStats (m_switch r)) r).

Definition functionalWrite {Packet : Type}
    (msg_write : Packet -> Message.t -> bool * Message.t) (pkt : Packet) (r : t)
    : Res (Z * t) :=
  '(n0, x) ← CrossbarSwitch.functionalWrite msg_write pkt (m_switch r);
  ins ← foldM (fun u '(n, l) => '(k, u') ← InputUnit.functionalWrite msg_write pkt u;
                 Ok (u32 (n + k), l ++ [u'])) (m_input_unit r) (u32 n0, []);
  outs ← foldM (fun o '(n, l) => '(k, o') ← OutputUnit.functionalWrite msg_write pkt o;
                 Ok (u32 (n + k), l ++ [o'])) (m_output_unit r) (ins.1, []);
  Ok (outs.1, set_outputs outs.2 (set_inputs ins.2 (set_switch x r))).

End Router.

(** ** Counters of [GarnetNetwork] that DRAIN and the u-turn logic update *)
Module DrainStats.

Record t := mk {
  m_total_uturn_request : Z;
  m_success_uturn : Z;
  m_total_misroute : Z;
  m_total_spins : Z;
  m_fwd_progress : Z;
  m_misroute : Z;
  m_bubble : Z;
  m_num_drain : Z
}.

Definition zero : t := mk 0 0 0 0 0 0 0 0.

Definition add_uturn (req succ mis : Z) (s : t) : t :=
  mk (m_total_uturn_request s + req) (m_success_uturn s + succ) (m_total_misroute s + mis)
     (m_total_spins s) (m_fwd_progress s) (m_misroute s) (m_bubble s) (m_num_drain s).

Definition add_spin (spins fwd mis bub : Z) (s : t) : t :=
  mk (m_total_uturn_request s) (m_success_uturn s) (m_total_misroute s)
     (m_total_spins s + spins) (m_fwd_progress s + fwd) (m_misroute s + mis)
     (m_bubble s + bub) (m_num_drain s).

Definition increment_num_drain (s : t) : t :=
  mk (m_total_uturn_request s) (m_success_uturn s) (m_total_misroute s) (m_total_spins s)
     (m_fwd_progress s) (m_misroute s) (m_bubble s) (m_num_drain s + 1).

End DrainStats.

(** ** The state the pipeline stages of one router work on *)
Module RC.

Record t := mk {
  router : Router.t;
  stats : DrainStats.t;
  evq : Consumer.t
}.

Definition set_router (r : Router.t) (c : t) : t := mk r (stats c) (evq c).

Definition alloc (c : t) : SwitchAllocator.t := Router.m_sw_alloc (router c).
Definition set_alloc (s : SwitchAllocator.t) (c : t) : t :=
  set_router (Router.set_sw_alloc s (router c)) c.

Definition add_uturn (req succ mis : Z) (c : t) : t :=
  mk (router c) (DrainStats.add_uturn req succ mis (stats c)) (evq c).

(** The events of one router: [clockEdge(Cycles(k))] is [k] cycles after now. *)
Definition schedule (net : NetConfig.t) (curCycle : Z) (who : consumer) (k : Z) (c : t) : t :=
  mk (router c) (stats c)
     (Consumer.scheduleEvent (NetConfig.clk_period net)
        (curCycle * NetConfig.clk_period net) who k (evq c)).

Definition input (inport : Z) (c : t) : Res InputUnit.t :=
  vec_at (Router.m_input_unit (router c)) inport.
Definition output (outport : Z) (c : t) : Res OutputUnit.t :=
  vec_at (Router.m_output_unit (router c)) outport.

Definition upd_input (inport : Z) (f : InputUnit.t -> Res InputUnit.t) (c : t) : Res t :=
  r ← Router.upd_input inport f (router c); Ok (set_router r c).
Definition upd_output (outport : Z) (f : OutputUnit.t -> Res OutputUnit.t) (c : t) : Res t :=
  r ← Router.upd_output outport f (router c); Ok (set_router r c).

End RC.

(** ** [SwitchAllocator]: the two stages of switch allocation *)
Module SA.
Section SA.
Variable net : NetConfig.t.
Variable curCycle : Z.
Implicit Types c : RC.t.

Definition get_vnet (invc : Z) (c : RC.t) : Res Z :=
  let vnet := Z.quot invc (SwitchAllocator.m_vc_per_vnet (RC.alloc c)) in
  _ ← assert_ (vnet <? Router.m_virtual_networks (RC.router c)) "SwitchAllocator.cc:490";
  Ok vnet.

(** One iteration of the ordering check of [send_allowed]: another flit of
    the input port that is ready, goes to the same output port and was
    enqueued earlier. *)
Definition older_competitor (inport outport t_enqueue_time temp_vc : Z) (c : RC.t) : Res bool :=
  u ← RC.input inport c;
  b ← InputUnit.need_stage temp_vc SA_ curCycle u;
  if (b : bool) then
    o ← InputUnit.get_outport temp_vc u;
    if o =? outport then
      e ← InputUnit.get_enqueue_time temp_vc u;
      Ok (e <? t_enqueue_time)
    else Ok false
  else Ok false.

Definition send_allowed (inport invc outport outvc : Z) (c : RC.t) : Res bool :=
  vnet ← get_vnet invc c;
  o ← RC.output outport c;
  '(has_outvc, has_credit) ←
    (if negb (negb (outvc =? -1)) then
       free ← OutputUnit.has_free_vc curCycle vnet o;
       Ok (if (free : bool) then (true, true) else (false, false))
     else
       hc ← OutputUnit.has_credit curCycle outvc o;
       Ok (true, hc));
  if negb has_outvc || negb has_credit then Ok false
  else
    ordered ← NetConfig.isVNetOrdered vnet net;
    if (ordered : bool) then
      u ← RC.input inport c;
      t_enqueue_time ← InputUnit.get_enqueue_time invc u;
      let vc_per_vnet := SwitchAllocator.m_vc_per_vnet (RC.alloc c) in
      let vc_base := vnet * vc_per_vnet in
      r ← findM (fun vc_offset =>
                   older_competitor inport outport t_enqueue_time (vc_base + vc_offset) c)
            (range 0 vc_per_vnet);
      Ok (match r with Some _ => false | None => true end)
    else Ok true.

(** [disallow_uturn]: the deflected flit's new output port, towards [first]
    when the router has a port there, else towards [second]. *)
Definition deflect_to (dirn : PortDirection) (new_outport inputUnit_id invc : Z) (c : RC.t)
    : Res RC.t :=
  c ← RC.upd_input inputUnit_id
        (InputUnit.update_top invc
           (fun f => flit.set_outport_dir dirn (flit.set_outport new_outport f))) c;
  _ ← assert_ (negb (new_outport =? -1)) "SwitchAllocator.cc:380";
  Ok c.

Definition deflect (first second : PortDirection) (where_ : string)
    (inputUnit_id invc : Z) (c : RC.t) : Res RC.t :=
  let m := RoutingUnit.m_outports_dirn2idx (Router.m_routing_unit (RC.router c)) in
  match m !! first with
  | Some p => deflect_to first p inputUnit_id invc c
  | None =>
      match m !! second with
      | Some p => deflect_to second p inputUnit_id invc c
      | None => Err (AssertFail where_)
      end
  end.

Definition disallow_uturn (inputUnit_id invc : Z) (inputUnit_dirn : PortDirection)
    (c : RC.t) : Res RC.t :=
  let c := RC.add_uturn 0 0 1 c in
  u ← RC.input inputUnit_id c;
  _ ← InputUnit.peekTopFlit invc u;
  if bool_decide (inputUnit_dirn = "East") || bool_decide (inputUnit_dirn = "West")
  then deflect "North" "South" "SwitchAllocator.cc:348" inputUnit_id invc c
  else if bool_decide (inputUnit_dirn = "North") || bool_decide (inputUnit_dirn = "South")
  then deflect "East" "West" "SwitchAllocator.cc:375" inputUnit_id invc c
  else Err (AssertFail "SwitchAllocator.cc:380").

(** The body of the inner loop of [arbitrate_inports] for a ready flit: the
    u-turn handling and the request. *)
Definition mark_uturn (inport invc : Z) (c : RC.t) : Res RC.t :=
  c ← RC.upd_input inport (InputUnit.update_top invc (flit.set_request_uturn false)) c;
  u ← RC.input inport c;
  f ← InputUnit.peekTopFlit invc u;
  if bool_decide (flit.m_outport_dir f = InputUnit.m_direction u)
     && negb (bool_decide (InputUnit.m_direction u = "Local"))
  then
    c ← RC.upd_input inport (InputUnit.update_top invc (flit.set_request_uturn true)) c;
    let c := RC.add_uturn 1 0 0 c in
    if NetConfig.m_uTurn_crossbar net =? 0
    then disallow_uturn inport invc (InputUnit.m_direction u) c
    else Ok c
  else Ok c.

Definition place_request (outport inport invc : Z) (c : RC.t) : Res RC.t :=
  let s := RC.alloc c in
  let s := SwitchAllocator.set_activity (SwitchAllocator.m_input_arbiter_activity s + 1)
             (SwitchAllocator.m_output_arbiter_activity s) s in
  reqs ← vec_upd (SwitchAllocator.m_port_requests s) outport (fun l => vec_set l inport true);
  winners ← vec_upd (SwitchAllocator.m_vc_winners s) outport (fun l => vec_set l inport invc);
  Ok (RC.set_alloc (SwitchAllocator.set_requests reqs winners s) c).

Definition try_invc (inport invc : Z) (c : RC.t) : Res (RC.t * bool) :=
  u ← RC.input inport c;
  b ← InputUnit.need_stage invc SA_ curCycle u;
  if (b : bool) then
    c ← mark_uturn inport invc c;
    u ← RC.input inport c;
    f ← InputUnit.peekTopFlit invc u;
    let outport := flit.m_outport f in
    if u64 outport >=? Router.get_num_outports (RC.router c)
    then Err (FatalError "outport >= m_output_unit.size()")
    else
      let outvc := -1 in
      make_request ← send_allowed inport invc outport outvc c;
      if (make_request : bool) then
        c ← place_request outport inport invc c;
        Ok (c, true)
      else Ok (c, false)
  else Ok (c, false).

(** [x++; if (x >= n) x = 0;] *)
Definition next_mod (n x : Z) : Z := if x + 1 >=? n then 0 else x + 1.

Fixpoint arbitrate_invc (iters : nat) (inport invc : Z) (c : RC.t) : Res RC.t :=
  match iters with
  | O => Ok c
  | S n =>
      '(c, won) ← try_invc inport invc c;
      if (won : bool) then Ok c
      else arbitrate_invc n inport
             (next_mod (SwitchAllocator.m_num_vcs (RC.alloc c)) invc) c
  end.

Definition arbitrate_inports (c : RC.t) : Res RC.t :=
  if Router.halt_ (RC.router c) then Ok c
  else
    foldM (fun inport c =>
             invc ← vec_at (SwitchAllocator.m_round_robin_invc (RC.alloc c)) inport;
             arbitrate_invc (Z.to_nat (SwitchAllocator.m_num_vcs (RC.alloc c))) inport invc c)
      (range 0 (SwitchAllocator.m_num_inports (RC.alloc c))) c.

Definition vc_allocate (outport inport invc : Z) (c : RC.t) : Res (Z * RC.t) :=
  vnet ← get_vnet invc c;
  o ← RC.output outport c;
  '(outvc, o') ← OutputUnit.select_free_vc curCycle vnet o;
  c ← RC.upd_output outport (fun _ => Ok o') c;
  _ ← assert_ (negb (outvc =? -1)) "SwitchAllocator.cc:464";
  c ← RC.upd_input inport (InputUnit.grant_outvc invc outvc) c;
  Ok (outvc, c).

Definition advance_rr_invc (inport : Z) (c : RC.t) : Res RC.t :=
  let s := RC.alloc c in
  rr ← vec_upd (SwitchAllocator.m_round_robin_invc s) inport
         (fun x => Ok (next_mod (SwitchAllocator.m_num_vcs s) x));
  Ok (RC.set_alloc (SwitchAllocator.set_round_robin rr
                      (SwitchAllocator.m_round_robin_inport s) s) c).

Definition advance_rr_inport (outport : Z) (c : RC.t) : Res RC.t :=
  let s := RC.alloc c in
  rr ← vec_upd (SwitchAllocator.m_round_robin_inport s) outport
         (fun x => Ok (next_mod (SwitchAllocator.m_num_inports s) x));
  Ok (RC.set_alloc (SwitchAllocator.set_round_robin (SwitchAllocator.m_round_robin_invc s)
                      rr s) c).

Definition clear_request (outport inport : Z) (c : RC.t) : Res RC.t :=
  let s := RC.alloc c in
  reqs ← vec_upd (SwitchAllocator.m_port_requests s) outport (fun l => vec_set l inport false);
  Ok (RC.set_alloc (SwitchAllocator.set_requests reqs (SwitchAllocator.m_vc_winners s) s) c).

(** The statistics of a winner that leaves through the port it came from. *)
Definition count_uturn (inport invc : Z) (c : RC.t) : Res RC.t :=
  u ← RC.input inport c;
  f ← InputUnit.peekTopFlit invc u;
  if bool_decide (flit.m_outport_dir f = InputUnit.m_direction u)
     && negb (bool_decide (InputUnit.m_direction u = "Local"))
  then
    _ ← assert_ (flit.m_request_uturn f) "SwitchAllocator.cc:232";
    RC.upd_input inport (InputUnit.update_top invc (flit.set_request_uturn false))
      (RC.add_uturn 0 1 0 c)
  else Ok c.

(** The credit returned upstream for the winner; a tail flit also frees its
    input virtual channel. *)
Definition return_credit (inport invc : Z) (t_flit : flit.t) (c : RC.t) : Res RC.t :=
  c ← (if flit.is_tail t_flit then
         u ← RC.input inport c;
         r ← InputUnit.isReady invc curCycle u;
         _ ← assert_ (negb r) "SwitchAllocator.cc:281";
         c ← RC.upd_input inport (InputUnit.set_vc_idle invc curCycle) c;
         RC.upd_input inport
           (fun u => Ok (InputUnit.increment_credit net invc true curCycle u)) c
       else
         RC.upd_input inport
           (fun u => Ok (InputUnit.increment_credit net invc false curCycle u)) c);
  u ← RC.input inport c;
  Ok (RC.schedule net curCycle (CCreditLink (InputUnit.m_credit_link u)) 1 c).

(** [inport] wins [outport]. *)
Definition grant (outport inport : Z) (c : RC.t) : Res RC.t :=
  ws ← vec_at (SwitchAllocator.m_vc_winners (RC.alloc c)) outport;
  invc ← vec_at ws inport;
  c ← advance_rr_invc inport c;
  u ← RC.input inport c;
  outvc ← InputUnit.get_outvc invc u;
  '(outvc, c) ← (if outvc =? -1 then vc_allocate outport inport invc c else Ok (outvc, c));
  c ← count_uturn inport invc c;
  u ← RC.input inport c;
  '(t_flit, u) ← InputUnit.getTopFlit invc u;
  c ← RC.upd_input inport (fun _ => Ok u) c;
  o ← RC.output outport c;
  let t_flit := flit.set_outport outport t_flit in
  let t_flit := flit.set_outport_dir (OutputUnit.m_direction o) t_flit in
  let t_flit := flit.set_vc outvc t_flit in
  c ← RC.upd_output outport (OutputUnit.decrement_credit outvc) c;
  let t_flit := flit.advance_stage ST_ curCycle t_flit in
  r ← Router.grant_switch inport t_flit (RC.router c);
  let c := RC.set_router r c in
  let s := RC.alloc c in
  let c := RC.set_alloc (SwitchAllocator.set_activity
             (SwitchAllocator.m_input_arbiter_activity s)
             (SwitchAllocator.m_output_arbiter_activity s + 1) s) c in
  c ← return_credit inport invc t_flit c;
  c ← clear_request outport inport c;
  advance_rr_inport outport c.

Definition requested (outport inport : Z) (c : RC.t) : Res bool :=
  l ← vec_at (SwitchAllocator.m_port_requests (RC.alloc c)) outport;
  vec_at l inport.

Fixpoint arbitrate_inport (iters : nat) (outport inport : Z) (c : RC.t) : Res RC.t :=
  match iters with
  | O => Ok c
  | S n =>
      b ← requested outport inport c;
      if (b : bool) then grant outport inport c
      else arbitrate_inport n outport
             (next_mod (SwitchAllocator.m_num_inports (RC.alloc c)) inport) c
  end.

Definition arbitrate_outports (c : RC.t) : Res RC.t :=
  if Router.halt_ (RC.router c) then Ok c
  else
    foldM (fun outport c =>
             inport ← vec_at (SwitchAllocator.m_round_robin_inport (RC.alloc c)) outport;
             arbitrate_inport (Z.to_nat (SwitchAllocator.m_num_inports (RC.alloc c)))
               outport inport c)
      (range 0 (SwitchAllocator.m_num_outports (RC.alloc c))) c.

Definition clear_request_vector (c : RC.t) : RC.t :=
  RC.set_alloc (SwitchAllocator.clear_request_vector (RC.alloc c)) c.

Definition check_for_wakeup (c : RC.t) : Res RC.t :=
  let nextCycle := curCycle + 1 in
  r ← findM (fun p : Z * Z =>
               u ← RC.input p.1 c;
               InputUnit.need_stage p.2 SA_ nextCycle u)
        (i ← range 0 (SwitchAllocator.m_num_inports (RC.alloc c));
         j ← range 0 (SwitchAllocator.m_num_vcs (RC.alloc c));
         [(i, j)]);
  Ok (match r with
      | Some _ => RC.schedule net curCycle (CRouter (Router.m_id (RC.router c))) 1 c
      | None => c
      end).

Definition wakeup (c : RC.t) : Res RC.t :=
  c ← arbitrate_inports c;
  c ← arbitrate_outports c;
  let c := clear_request_vector c in
  check_for_wakeup c.

End SA.
End SA.

(** ** [CrossbarSwitch::wakeup] *)
Module XBar.
Section XBar.
Variable net : NetConfig.t.
Variable curCycle : Z.

(** One input port: the flit that won the switch goes to the output queue;
    its link is woken in the next cycle. *)
Definition traverse (inport : Z) (c : RC.t) : Res RC.t :=
  let x := Router.m_switch (RC.router c) in
  b ← vec_at (CrossbarSwitch.m_switch_buffer x) inport;
  r ← flitBuffer.isReady curCycle b;
  if negb r then Ok c
  else
    t_flit ← flitBuffer.peekTopFlit b;
    if flit.is_stage ST_ curCycle t_flit then
      let outport := flit.m_outport t_flit in
      let moved f := flit.set_time (curCycle + 1) (flit.advance_stage LT_ (curCycle + 1) f) in
      let t_flit := moved t_flit in
      let b := flitBuffer.update_top moved b in
      o ← RC.output outport c;
      c ← RC.upd_output outport (fun o => Ok (OutputUnit.insert_flit t_flit o)) c;
      let c := RC.schedule net curCycle (CNetworkLink (OutputUnit.m_out_link o)) 1 c in
      '(_, b) ← flitBuffer.getTopFlit b;
      l ← vec_set (CrossbarSwitch.m_switch_buffer x) inport b;
      let x := CrossbarSwitch.set_activity (CrossbarSwitch.m_crossbar_activity x + 1)
                 (CrossbarSwitch.set_switch_buffer l x) in
      Ok (RC.set_router (Router.set_switch x (RC.router c)) c)
    else Ok c.

Definition wakeup (c : RC.t) : Res RC.t :=
  foldM traverse
    (range 0 (CrossbarSwitch.m_num_inports (Router.m_switch (RC.router c)))) c.

End XBar.
End XBar.
