(* ===== verification/MsgBuffer.v ===== *)
(** * Message buffers

    Models src/mem/ruby/network/MessageBuffer.{hh,cc}: the queues between the
    coherence controllers and the network interfaces. Times are Ticks. The
    heap is the one of [std_heap], the stall map a list of (address, messages)
    in increasing order of address, as [std::map] iterates. The random delays
    of a randomised run come from the environment and are an argument. *)

From Stdlib Require Import Sorting.Sorted.
From S2P Require Import Prelude NetDest Types FlitBuffer.

(** ** [std::map<Addr, std::list<MsgPtr>>] *)
Module addr_map.

Fixpoint get (a : Z) (m : list (Z * list Message.t)) : option (list Message.t) :=
  match m with
  | [] => None
  | (k, l) :: m' => if a =? k then Some l else get a m'
  end.

(** [m[a].push_back(x)] *)
Fixpoint push (a : Z) (x : Message.t) (m : list (Z * list Message.t))
    : list (Z * list Message.t) :=
  match m with
  | [] => [(a, [x])]
  | (k, l) :: m' =>
      if a <? k then (a, [x]) :: (k, l) :: m'
      else if a =? k then (k, l ++ [x]) :: m'
      else (k, l) :: push a x m'
  end.

Definition erase (a : Z) (m : list (Z * list Message.t)) : list (Z * list Message.t) :=
  filter (fun p => p.1 <> a) m.

End addr_map.

(** ** [class MessageBuffer] *)
Module MessageBuffer.

Record t := mk {
  m_consumer : option consumer;
  m_prio_heap : list Message.t;
  m_dequeue_callback : option consumer;
  m_stall_msg_map : list (Z * list Message.t);
  m_stall_map_size : Z;
  m_max_size : Z;
  m_time_last_time_size_checked : Z;
  m_size_last_time_size_checked : Z;
  m_time_last_time_enqueue : Z;
  m_time_last_time_pop : Z;
  m_last_arrival_time : Z;
  m_size_at_cycle_start : Z;
  m_msgs_this_cycle : Z;
  m_not_avail_count : Z;
  m_msg_counter : Z;
  m_priority_rank : Z;
  m_strict_fifo : bool;
  m_randomization : bool;
  m_input_link_id : Z;
  m_vnet_id : Z;
  m_buf_msgs : Z;
  m_stall_count : Z
}.

Definition set_heap (h : list Message.t) (b : t) : t :=
  mk (m_consumer b) h (m_dequeue_callback b) (m_stall_msg_map b) (m_stall_map_size b)
    (m_max_size b) (m_time_last_time_size_checked b) (m_size_last_time_size_checked b)
    (m_time_last_time_enqueue b) (m_time_last_time_pop b) (m_last_arrival_time b)
    (m_size_at_cycle_start b) (m_msgs_this_cycle b) (m_not_avail_count b) (m_msg_counter b)
    (m_priority_rank b) (m_strict_fifo b) (m_randomization b) (m_input_link_id b)
    (m_vnet_id b) (m_buf_msgs b) (m_stall_count b).

Definition set_consumer_ (c : option consumer) (b : t) : t :=
  mk c (m_prio_heap b) (m_dequeue_callback b) (m_stall_msg_map b) (m_stall_map_size b)
    (m_max_size b) (m_time_last_time_size_checked b) (m_size_last_time_size_checked b)
    (m_time_last_time_enqueue b) (m_time_last_time_pop b) (m_last_arrival_time b)
    (m_size_at_cycle_start b) (m_msgs_this_cycle b) (m_not_avail_count b) (m_msg_counter b)
    (m_priority_rank b) (m_strict_fifo b) (m_randomization b) (m_input_link_id b)
    (m_vnet_id b) (m_buf_msgs b) (m_stall_count b).

Definition set_callback (cb : option consumer) (b : t) : t :=
  mk (m_consumer b) (m_prio_heap b) cb (m_stall_msg_map b) (m_stall_map_size b)
    (m_max_size b) (m_time_last_time_size_checked b) (m_size_last_time_size_checked b)
    (m_time_last_time_enqueue b) (m_time_last_time_pop b) (m_last_arrival_time b)
    (m_size_at_cycle_start b) (m_msgs_this_cycle b) (m_not_avail_count b) (m_msg_counter b)
    (m_priority_rank b) (m_strict_fifo b) (m_randomization b) (m_input_link_id b)
    (m_vnet_id b) (m_buf_msgs b) (m_stall_count b).

Definition set_stall_map (m : list (Z * list Message.t)) (n : Z) (b : t) : t :=
  mk (m_consumer b) (m_prio_heap b) (m_dequeue_callback b) m n (m_max_size b)
    (m_time_last_time_size_checked b) (m_size_last_time_size_checked b)
    (m_time_last_time_enqueue b) (m_time_last_time_pop b) (m_last_arrival_time b)
    (m_size_at_cycle_start b) (m_msgs_this_cycle b) (m_not_avail_count b) (m_msg_counter b)
    (m_priority_rank b) (m_strict_fifo b) (m_randomization b) (m_input_link_id b)
    (m_vnet_id b) (m_buf_msgs b) (m_stall_count b).

Definition set_size_checked (t_ : Z) (n : Z) (b : t) : t :=
  mk (m_consumer b) (m_prio_heap b) (m_dequeue_callback b) (m_stall_msg_map b)
    (m_stall_map_size b) (m_max_size b) t_ n (m_time_last_time_enqueue b)
    (m_time_last_time_pop b) (m_last_arrival_time b) (m_size_at_cycle_start b)
    (m_msgs_this_cycle b) (m_not_avail_count b) (m_msg_counter b) (m_priority_rank b)
    (m_strict_fifo b) (m_randomization b) (m_input_link_id b) (m_vnet_id b) (m_buf_msgs b)
    (m_stall_count b).

Definition set_enqueue_time (t_ : Z) (n : Z) (b : t) : t :=
  mk (m_consumer b) (m_prio_heap b) (m_dequeue_callback b) (m_stall_msg_map b)
    (m_stall_map_size b) (m_max_size b) (m_time_last_time_size_checked b)
    (m_size_last_time_size_checked b) t_ (m_time_last_time_pop b) (m_last_arrival_time b)
    (m_size_at_cycle_start b) n (m_not_avail_count b) (m_msg_counter b) (m_priority_rank b)
    (m_strict_fifo b) (m_randomization b) (m_input_link_id b) (m_vnet_id b) (m_buf_msgs b)
    (m_stall_count b).

Definition set_pop_time (t_ : Z) (n : Z) (b : t) : t :=
  mk (m_consumer b) (m_prio_heap b) (m_dequeue_callback b) (m_stall_msg_map b)
    (m_stall_map_size b) (m_max_size b) (m_time_last_time_size_checked b)
    (m_size_last_time_size_checked b) (m_time_last_time_enqueue b) t_
    (m_last_arrival_time b) n (m_msgs_this_cycle b) (m_not_avail_count b) (m_msg_counter b)
    (m_priority_rank b) (m_strict_fifo b) (m_randomization b) (m_input_link_id b)
    (m_vnet_id b) (m_buf_msgs b) (m_stall_count b).

Definition set_last_arrival (t_ : Z) (b : t) : t :=
  mk (m_consumer b) (m_prio_heap b) (m_dequeue_callback b) (m_stall_msg_map b)
    (m_stall_map_size b) (m_max_size b) (m_time_last_time_size_checked b)
    (m_size_last_time_size_checked b) (m_time_last_time_enqueue b) (m_time_last_time_pop b)
    t_ (m_size_at_cycle_start b) (m_msgs_this_cycle b) (m_not_avail_count b)
    (m_msg_counter b) (m_priority_rank b) (m_strict_fifo b) (m_randomization b)
    (m_input_link_id b) (m_vnet_id b) (m_buf_msgs b) (m_stall_count b).

Definition set_counter (n : Z) (b : t) : t :=
  mk (m_consumer b) (m_prio_heap b) (m_dequeue_callback b) (m_stall_msg_map b)
    (m_stall_map_size b) (m_max_size b) (m_time_last_time_size_checked b)
    (m_size_last_time_size_checked b) (m_time_last_time_enqueue b) (m_time_last_time_pop b)
    (m_last_arrival_time b) (m_size_at_cycle_start b) (m_msgs_this_cycle b)
    (m_not_avail_count b) n (m_priority_rank b) (m_strict_fifo b) (m_randomization b)
    (m_input_link_id b) (m_vnet_id b) (m_buf_msgs b) (m_stall_count b).

Definition set_not_avail (n : Z) (b : t) : t :=
  mk (m_consumer b) (m_prio_heap b) (m_dequeue_callback b) (m_stall_msg_map b)
    (m_stall_map_size b) (m_max_size b) (m_time_last_time_size_checked b)
    (m_size_last_time_size_checked b) (m_time_last_time_enqueue b) (m_time_last_time_pop b)
    (m_last_arrival_time b) (m_size_at_cycle_start b) (m_msgs_this_cycle b) n
    (m_msg_counter b) (m_priority_rank b) (m_strict_fifo b) (m_randomization b)
    (m_input_link_id b) (m_vnet_id b) (m_buf_msgs b) (m_stall_count b).

Definition set_buf_msgs (n : Z) (b : t) : t :=
  mk (m_consumer b) (m_prio_heap b) (m_dequeue_callback b) (m_stall_msg_map b)
    (m_stall_map_size b) (m_max_size b) (m_time_last_time_size_checked b)
    (m_size_last_time_size_checked b) (m_time_last_time_enqueue b) (m_time_last_time_pop b)
    (m_last_arrival_time b) (m_size_at_cycle_start b) (m_msgs_this_cycle b)
    (m_not_avail_count b) (m_msg_counter b) (m_priority_rank b) (m_strict_fifo b)
    (m_randomization b) (m_input_link_id b) (m_vnet_id b) n (m_stall_count b).

Definition set_stall_count (n : Z) (b : t) : t :=
  mk (m_consumer b) (m_prio_heap b) (m_dequeue_callback b) (m_stall_msg_map b)
    (m_stall_map_size b) (m_max_size b) (m_time_last_time_size_checked b)
    (m_size_last_time_size_checked b) (m_time_last_time_enqueue b) (m_time_last_time_pop b)
    (m_last_arrival_time b) (m_size_at_cycle_start b) (m_msgs_this_cycle b)
    (m_not_avail_count b) (m_msg_counter b) (m_priority_rank b) (m_strict_fifo b)
    (m_randomization b) (m_input_link_id b) (m_vnet_id b) (m_buf_msgs b) n.

Definition setPriority (rank : Z) (b : t) : t :=
  mk (m_consumer b) (m_prio_heap b) (m_dequeue_callback b) (m_stall_msg_map b)
    (m_stall_map_size b) (m_max_size b) (m_time_last_time_size_checked b)
    (m_size_last_time_size_checked b) (m_time_last_time_enqueue b) (m_time_last_time_pop b)
    (m_last_arrival_time b) (m_size_at_cycle_start b) (m_msgs_this_cycle b)
    (m_not_avail_count b) (m_msg_counter b) rank (m_strict_fifo b) (m_randomization b)
    (m_input_link_id b) (m_vnet_id b) (m_buf_msgs b) (m_stall_count b).

Definition setIncomingLink (link_id : Z) (b : t) : t :=
  mk (m_consumer b) (m_prio_heap b) (m_dequeue_callback b) (m_stall_msg_map b)
    (m_stall_map_size b) (m_max_size b) (m_time_last_time_size_checked b)
    (m_size_last_time_size_checked b) (m_time_last_time_enqueue b) (m_time_last_time_pop b)
    (m_last_arrival_time b) (m_size_at_cycle_start b) (m_msgs_this_cycle b)
    (m_not_avail_count b) (m_msg_counter b) (m_priority_rank b) (m_strict_fifo b)
    (m_randomization b) link_id (m_vnet_id b) (m_buf_msgs b) (m_stall_count b).

Definition setVnet (net : Z) (b : t) : t :=
  mk (m_consumer b) (m_prio_heap b) (m_dequeue_callback b) (m_stall_msg_map b)
    (m_stall_map_size b) (m_max_size b) (m_time_last_time_size_checked b)
    (m_size_last_time_size_checked b) (m_time_last_time_enqueue b) (m_time_last_time_pop b)
    (m_last_arrival_time b) (m_size_at_cycle_start b) (m_msgs_this_cycle b)
    (m_not_avail_count b) (m_msg_counter b) (m_priority_rank b) (m_strict_fifo b)
    (m_randomization b) (m_input_link_id b) net (m_buf_msgs b) (m_stall_count b).

Definition new (buffer_size : Z) (ordered randomization : bool) : t :=
  mk None [] None [] 0 buffer_size 0 0 0 0 0 0 0 0 0 0 ordered randomization 0 0 0 0.

Definition isReady (current_time : Z) (b : t) : bool :=
  match m_prio_heap b with
  | m :: _ => Message.m_LastEnqueueTime m <=? current_time
  | [] => false
  end.

Definition isEmpty (b : t) : bool := zlen (m_prio_heap b) =? 0.

(** [m_prio_heap.front()] *)
Definition peekMsgPtr (b : t) : Res Message.t :=
  match m_prio_heap b with
  | m :: _ => Ok m
  | [] => Err (OutOfRange "m_prio_heap.front()")
  end.

Definition peek (b : t) : Res Message.t := peekMsgPtr b.

Definition setConsumer (consumer_ : consumer) (b : t) : Res t :=
  match m_consumer b with
  | Some _ => Err (FatalError "already connected")
  | None => Ok (set_consumer_ (Some consumer_) b)
  end.

Definition getSize (curTime : Z) (b : t) : Z * t :=
  let b := if negb (m_time_last_time_size_checked b =? curTime)
           then set_size_checked curTime (u32 (zlen (m_prio_heap b))) b else b in
  (m_size_last_time_size_checked b, b).

(** The size the network sees in this cycle. *)
Definition current_size (current_time : Z) (b : t) : Z :=
  if m_time_last_time_pop b <? current_time then u32 (zlen (m_prio_heap b))
  else if m_time_last_time_enqueue b <? current_time then m_size_at_cycle_start b
  else u32 (m_size_at_cycle_start b + m_msgs_this_cycle b).

(** The sum of an [unsigned], an [int] and an [unsigned] is unsigned. *)
Definition areNSlotsAvailable (n current_time : Z) (b : t) : bool * t :=
  if m_max_size b =? 0 then (true, b)
  else if u32 (current_size current_time b + m_stall_map_size b + n) <=? m_max_size b
  then (true, b)
  else (false, set_not_avail (m_not_avail_count b + 1) b).

Section Enqueue.
(** [RubySystem::getRandomization()], [RubySystem::getWarmupEnabled()] and
    the value [random_time()] returns. *)
Variables (getRandomization getWarmupEnabled : bool) (random_time : Z).

Definition arrival_time (current_time delta : Z) (b : t) : Z * t :=
  if negb getRandomization || negb (m_randomization b) then (current_time + delta, b)
  else if m_strict_fifo b then
    let b := if m_last_arrival_time b <? current_time then set_last_arrival current_time b
             else b in
    (m_last_arrival_time b + random_time, b)
  else (current_time + random_time, b).

(** [enqueue]: the buffer after it and the time the consumer is woken. *)
Definition enqueue (message : Message.t) (current_time delta : Z) (b : t)
    : Res (t * (consumer * Z)) :=
  let b := if m_time_last_time_enqueue b <? current_time
           then set_enqueue_time current_time 0 b else b in
  let b := set_counter (u64 (m_msg_counter b + 1)) b in
  let b := set_enqueue_time (m_time_last_time_enqueue b) (u32 (m_msgs_this_cycle b + 1)) b in
  _ ← assert_ (delta >? 0) "MessageBuffer.cc:156";
  let '(arrival, b) := arrival_time current_time delta b in
  _ ← assert_ (arrival >? current_time) "MessageBuffer.cc:175";
  _ ← (if m_strict_fifo b && (arrival <? m_last_arrival_time b)
       then Err (FatalError "FIFO ordering violated") else Ok tt);
  let b := if negb getWarmupEnabled then set_last_arrival arrival b else b in
  _ ← assert_ (current_time >=? Message.m_LastEnqueueTime message) "MessageBuffer.cc:194";
  m ← Message.updateDelayedTicks current_time message;
  let m := Message.setLastEnqueueTime arrival m in
  let m := Message.setMsgCounter (m_msg_counter b) m in
  let b := set_heap (std_heap.push_heap Message.greater (m_prio_heap b ++ [m])) b in
  let b := set_buf_msgs (m_buf_msgs b + 1) b in
  match m_consumer b with
  | Some c => Ok (b, (c, arrival))
  | None => Err (AssertFail "MessageBuffer.cc:211")
  end.

(** [delayHead]: the head leaves the heap and is enqueued again. *)
Definition delayHead (current_time delta : Z) (b : t) : Res (t * (consumer * Z)) :=
  m ← peekMsgPtr b;
  enqueue m current_time delta
    (set_heap (std_heap.pop_heap_back Message.greater (m_prio_heap b)) b).

End Enqueue.

(** [dequeue]: the delay, the buffer after it and the consumer a registered
    callback schedules. *)
Definition dequeue (current_time : Z) (decrement_messages : bool) (b : t)
    : Res (Z * t * option consumer) :=
  _ ← assert_ (isReady current_time b) "MessageBuffer.cc:220";
  m ← peekMsgPtr b;
  m ← Message.updateDelayedTicks current_time m;
  let delay := Message.m_DelayedTicks m in
  let b := if m_time_last_time_pop b <? current_time
           then set_pop_time current_time (u32 (zlen (m_prio_heap b))) b else b in
  let b := set_heap (std_heap.pop_heap_back Message.greater (m_prio_heap b)) b in
  let b := if decrement_messages then set_buf_msgs (m_buf_msgs b - 1) b else b in
  Ok (delay, b, m_dequeue_callback b).

Definition registerDequeueCallback (callback : consumer) (b : t) : t :=
  set_callback (Some callback) b.

Definition unregisterDequeueCallback (b : t) : t := set_callback None b.

Definition clear (b : t) : t :=
  set_pop_time 0 0 (set_enqueue_time 0 0 (set_counter 0 (set_heap [] b))).

Definition clearStats (b : t) : t := set_counter 0 (set_not_avail 0 b).

(** [recycle]: the head gets a later time; it is the last of the vector
    after [pop_heap], and [push_heap] moves it to its place. *)
Definition recycle (current_time recycle_latency : Z) (b : t) : Res (t * (consumer * Z)) :=
  _ ← assert_ (isReady current_time b) "MessageBuffer.cc:282";
  node ← peekMsgPtr b;
  let rest := std_heap.pop_heap_back Message.greater (m_prio_heap b) in
  let future_time := current_time + recycle_latency in
  let node := Message.setLastEnqueueTime future_time node in
  let b := set_heap (std_heap.push_heap Message.greater (rest ++ [node])) b in
  match m_consumer b with
  | Some c => Ok (b, (c, future_time))
  | None => Err (NullDeref "m_consumer")
  end.

(** One message of [reanalyzeList]. *)
Definition reanalyze_one (schdTick : Z) (m : Message.t) (b : t) : Res t :=
  let b := set_counter (u64 (m_msg_counter b + 1)) b in
  let m := Message.setMsgCounter (m_msg_counter b) (Message.setLastEnqueueTime schdTick m) in
  let b := set_heap (std_heap.push_heap Message.greater (m_prio_heap b ++ [m])) b in
  match m_consumer b with
  | Some _ => Ok b
  | None => Err (NullDeref "m_consumer")
  end.

(** Every message makes [reanalyzeList] schedule the consumer for
    [schdTick]; the wake-ups are the second result. *)
Definition reanalyzeList (lt : list Message.t) (schdTick : Z) (b : t)
    : Res (t * list (consumer * Z)) :=
  b ← foldM (reanalyze_one schdTick) lt b;
  Ok (b, match m_consumer b with
         | Some c => replicate (length lt) (c, schdTick)
         | None => []
         end).

Definition reanalyzeMessages (addr current_time : Z) (b : t)
    : Res (t * list (consumer * Z)) :=
  match addr_map.get addr (m_stall_msg_map b) with
  | None => Err (AssertFail "MessageBuffer.cc:316")
  | Some lt =>
      let n := m_stall_map_size b - zlen lt in
      _ ← assert_ (n >=? 0) "MessageBuffer.cc:325";
      '(b, evs) ← reanalyzeList lt current_time b;
      Ok (set_stall_map (addr_map.erase addr (m_stall_msg_map b)) n b, evs)
  end.

(** One address of [reanalyzeAllMessages]. *)
Definition reanalyze_entry (current_time : Z) (p : Z * list Message.t)
    (st : t * list (consumer * Z)) : Res (t * list (consumer * Z)) :=
  let '(b, evs) := st in
  let n := m_stall_map_size b - zlen p.2 in
  _ ← assert_ (n >=? 0) "MessageBuffer.cc:344";
  '(b, ev) ← reanalyzeList p.2 current_time (set_stall_map (m_stall_msg_map b) n b);
  Ok (b, evs ++ ev).

Definition reanalyzeAllMessages (current_time : Z) (b : t) : Res (t * list (consumer * Z)) :=
  '(b, evs) ← foldM (reanalyze_entry current_time) (m_stall_msg_map b) (b, []);
  Ok (set_stall_map [] (m_stall_map_size b) b, evs).

(** [getOffset(addr)] is the offset in the cache line of [block_bits] bits. *)
Definition stallMessage (block_bits addr current_time : Z) (b : t)
    : Res (t * option consumer) :=
  _ ← assert_ (isReady current_time b) "MessageBuffer.cc:354";
  _ ← assert_ (Z.land addr (Z.ones block_bits) =? 0) "MessageBuffer.cc:355";
  message ← peekMsgPtr b;
  m ← Message.updateDelayedTicks current_time message;
  '(_, b, cb) ← dequeue current_time false b;
  let b := set_stall_map (addr_map.push addr m (m_stall_msg_map b)) (m_stall_map_size b + 1) b in
  Ok (set_stall_count (m_stall_count b + 1) b, cb).

Definition functionalWrite {Packet : Type}
    (msg_write : Packet -> Message.t -> bool * Message.t) (pkt : Packet) (b : t) : Z * t :=
  let write '(n, l) m :=
    let '(w, m') := msg_write pkt m in
    (if (w : bool) then u32 (n + 1) else n, l ++ [m']) in
  let '(n, h) := fold_left write (m_prio_heap b) (0, []) in
  let '(n, sm) := fold_left (fun '(n, acc) '(k, l) =>
                    let '(n', l') := fold_left write l (n, []) in (n', acc ++ [(k, l')]))
                    (m_stall_msg_map b) (n, []) in
  (n, set_stall_map sm (m_stall_map_size b) (set_heap h b)).

End MessageBuffer.
