(* ===== verification/MsgBufferFacts.v ===== *)
(** * Message buffers: theorems

    A message buffer is a priority queue ordered by (arrival time, counter);
    an ordered one implements a FIFO queue; its size stays within the
    capacity as long as senders ask [areNSlotsAvailable] and nothing is
    reanalyzed; the stall map counts its messages exactly. *)

From S2P Require Import Prelude NetDest Types FlitBuffer MsgBuffer.
From Stdlib Require Import Sorted.

Import MessageBuffer.

(** ** The order of messages *)

Lemma message_greater_spec l r :
  Message.greater l r = false <->
  Message.m_LastEnqueueTime l < Message.m_LastEnqueueTime r \/
  (Message.m_LastEnqueueTime l = Message.m_LastEnqueueTime r /\
   Message.m_msg_counter l <= Message.m_msg_counter r).
Proof.
  unfold Message.greater. rewrite !Z.gtb_ltb.
  destruct (Z.eqb_spec (Message.m_LastEnqueueTime l) (Message.m_LastEnqueueTime r));
    [destruct (Z.ltb_spec (Message.m_msg_counter r) (Message.m_msg_counter l))
    |destruct (Z.ltb_spec (Message.m_LastEnqueueTime r) (Message.m_LastEnqueueTime l))];
    split; intros; try done; lia.
Qed.

#[export] Instance message_order : HeapOrder Message.greater.
Proof.
  split.
  - intros x y z. rewrite !message_greater_spec. lia.
  - intros x y H. apply message_greater_spec.
    destruct (decide (Message.m_LastEnqueueTime y < Message.m_LastEnqueueTime x \/
      Message.m_LastEnqueueTime y = Message.m_LastEnqueueTime x /\
      Message.m_msg_counter y <= Message.m_msg_counter x)) as [|Hn]; [done|].
    assert (Message.greater x y = false) by (rewrite message_greater_spec; lia). congruence.
Qed.

(** The invariant of a buffer: its vector is a heap. *)
Definition mb_wf (b : MessageBuffer.t) : Prop := is_heap Message.greater (m_prio_heap b).

(** The message as the protocol sees it, whatever the network noted in it. *)
Definition same_message (m m' : Message.t) : Prop :=
  Message.m_dest m' = Message.m_dest m /\ Message.m_payload m' = Message.m_payload m /\
  Message.m_time m' = Message.m_time m.

(** ** What the operations do to the heap *)

Section Enqueue.
Context (rnd warm : bool) (rt : Z).

(** Computing the arrival time changes the last arrival time at most, and
    never sets it back. *)
Lemma arrival_time_inv ct delta b t b' :
  arrival_time rnd rt ct delta b = (t, b') ->
  m_prio_heap b' = m_prio_heap b /\ m_msg_counter b' = m_msg_counter b /\
  m_consumer b' = m_consumer b /\ m_stall_map_size b' = m_stall_map_size b /\
  m_stall_msg_map b' = m_stall_msg_map b /\ m_max_size b' = m_max_size b /\
  m_strict_fifo b' = m_strict_fifo b /\ m_last_arrival_time b <= m_last_arrival_time b' /\
  m_time_last_time_pop b' = m_time_last_time_pop b /\
  m_size_at_cycle_start b' = m_size_at_cycle_start b /\
  m_time_last_time_enqueue b' = m_time_last_time_enqueue b /\
  m_msgs_this_cycle b' = m_msgs_this_cycle b.
Proof.
  unfold arrival_time. intros Ha.
  destruct (negb rnd || _); [injection Ha as <- <-; split_and!; try done; lia|].
  destruct (m_strict_fifo b) eqn:Hs; [|injection Ha as <- <-; split_and!; try done; lia].
  destruct (Z.ltb_spec (m_last_arrival_time b) ct) as [Hlt|]; injection Ha as <- <-; cbn;
    split_and!; try done; lia.
Qed.

(** The members of the buffer an enqueue writes, but for the heap. *)
Lemma enqueue_inv message ct delta b b' c t :
  enqueue rnd warm rt message ct delta b = Ok (b', (c, t)) ->
  exists m', m_prio_heap b' = std_heap.push_heap Message.greater (m_prio_heap b ++ [m']) /\
    same_message message m' /\ Message.m_LastEnqueueTime m' = t /\
    Message.m_msg_counter m' = u64 (m_msg_counter b + 1) /\ ct < t /\ m_consumer b = Some c /\
    m_msg_counter b' = u64 (m_msg_counter b + 1) /\
    m_stall_map_size b' = m_stall_map_size b /\ m_stall_msg_map b' = m_stall_msg_map b /\
    m_max_size b' = m_max_size b /\
    m_strict_fifo b' = m_strict_fifo b /\
    (m_strict_fifo b = true -> m_last_arrival_time b <= t) /\
    (warm = false -> m_last_arrival_time b' = t) /\
    m_time_last_time_pop b' = m_time_last_time_pop b /\
    m_size_at_cycle_start b' = m_size_at_cycle_start b /\
    m_time_last_time_enqueue b' = Z.max (m_time_last_time_enqueue b) ct /\
    m_msgs_this_cycle b' = u32 ((if m_time_last_time_enqueue b <? ct then 0 else m_msgs_this_cycle b) + 1).
Proof.
  unfold enqueue. intros H.
  set (b0 := if m_time_last_time_enqueue b <? ct then set_enqueue_time ct 0 b else b) in *.
  assert (m_prio_heap b0 = m_prio_heap b /\ m_msg_counter b0 = m_msg_counter b /\
    m_consumer b0 = m_consumer b /\ m_stall_map_size b0 = m_stall_map_size b /\
    m_stall_msg_map b0 = m_stall_msg_map b /\ m_max_size b0 = m_max_size b /\
    m_strict_fifo b0 = m_strict_fifo b /\ m_last_arrival_time b0 = m_last_arrival_time b /\
    m_time_last_time_pop b0 = m_time_last_time_pop b /\
    m_size_at_cycle_start b0 = m_size_at_cycle_start b /\
    m_time_last_time_enqueue b0 = Z.max (m_time_last_time_enqueue b) ct /\
    m_msgs_this_cycle b0 = (if m_time_last_time_enqueue b <? ct then 0 else m_msgs_this_cycle b))
    as (F1 & F2 & F3 & F4 & F5 & F6 & F7 & F8 & F9 & F10 & F11 & F12).
  { subst b0. destruct (Z.ltb_spec (m_time_last_time_enqueue b) ct); cbn; split_and!; try done; lia. }
  rewrite <- F1, <- F2, <- F3, <- F4, <- F5, <- F6, <- F7, <- F8, <- F9, <- F10, <- F11, <- F12.
  clearbody b0. clear - H. inv_bind H. clear E.
  set (b1 := set_enqueue_time _ _ _) in H.
  destruct (arrival_time rnd rt ct delta b1) as [arr b2] eqn:Ha.
  apply arrival_time_inv in Ha as (G1 & G2 & G3 & G4 & G5 & G6 & G7 & G8 & G9 & G10 & G11 & G12).
  subst b1. cbn in G1, G2, G3, G4, G5, G6, G7, G8, G9, G10, G11, G12.
  rewrite <- G1, <- G2, <- G3, <- G4, <- G5, <- G6, <- G7, <- G9, <- G10, <- G11, <- G12.
  clear - H G8. inv_bind H. rename E into Earr. inv_bind H. rename E into Ef. inv_bind H. clear E.
  inv_bind H. rename a2 into m. unfold Message.updateDelayedTicks in E. inv_bind E. simplify_res.
  assert (m_strict_fifo b2 = true -> m_last_arrival_time b2 <= arr) as Hfifo.
  { intros Hs. rewrite Hs in Ef. destruct (Z.ltb_spec arr (m_last_arrival_time b2)); [done|lia]. }
  assert (ct < arr) as Hgt.
  { unfold assert_ in Earr. destruct (arr >? ct) eqn:E; [|done]. rewrite Z.gtb_ltb in E. by apply Z.ltb_lt in E. }
  eexists. destruct warm; cbn in H; destruct (m_consumer b2) as [c'|] eqn:Ec; simplify_res;
    (split_and!; [done|done|done|done|done|done|..]); try done; cbn; try done;
    intros Hs; specialize (Hfifo Hs); lia.
Qed.

End Enqueue.

Lemma dequeue_inv ct dec b delay b' cb :
  dequeue ct dec b = Ok (delay, b', cb) ->
  exists m l, m_prio_heap b = m :: l /\ Message.m_LastEnqueueTime m <= ct /\
    m_prio_heap b' = std_heap.pop_heap_back Message.greater (m_prio_heap b) /\
    m_msg_counter b' = m_msg_counter b /\ m_consumer b' = m_consumer b /\
    m_stall_map_size b' = m_stall_map_size b /\ m_stall_msg_map b' = m_stall_msg_map b /\
    m_max_size b' = m_max_size b /\ m_strict_fifo b' = m_strict_fifo b /\
    m_last_arrival_time b' = m_last_arrival_time b /\
    m_time_last_time_enqueue b' = m_time_last_time_enqueue b /\
    m_msgs_this_cycle b' = m_msgs_this_cycle b /\
    m_time_last_time_pop b' = Z.max (m_time_last_time_pop b) ct /\
    m_size_at_cycle_start b'
      = (if m_time_last_time_pop b <? ct then u32 (zlen (m_prio_heap b)) else m_size_at_cycle_start b) /\
    delay = u64 (Message.m_DelayedTicks m + (ct - Message.m_LastEnqueueTime m)).
Proof.
  unfold dequeue, isReady, peekMsgPtr. intros H. inv_bind H.
  destruct (m_prio_heap b) as [|m l] eqn:Hh; [done|]. cbn in H.
  unfold assert_ in E. destruct (Z.leb_spec (Message.m_LastEnqueueTime m) ct) as [Hle|]; [|done].
  inv_bind H. unfold Message.updateDelayedTicks in E0. inv_bind E0. injection E0 as <-.
  injection H as <- <- <-. exists m, l. rewrite <- Hh.
  destruct dec, (Z.ltb_spec (m_time_last_time_pop b) ct); cbn; split_and!; try done; try lia.
Qed.

Lemma dequeue_total ct dec b :
  isReady ct b = true -> exists delay b' cb, dequeue ct dec b = Ok (delay, b', cb).
Proof.
  intros H. unfold dequeue. rewrite H. cbn. unfold isReady in H. unfold peekMsgPtr.
  destruct (m_prio_heap b) as [|m l]; [done|]. cbn. unfold Message.updateDelayedTicks.
  rewrite H. cbn. eauto.
Qed.

Lemma heap_push b m :
  is_heap Message.greater (m_prio_heap b) ->
  is_heap Message.greater (std_heap.push_heap Message.greater (m_prio_heap b ++ [m])) /\
  std_heap.push_heap Message.greater (m_prio_heap b ++ [m]) ≡ₚ m :: m_prio_heap b.
Proof.
  intros H. split; [apply (push_heap_heap Message.greater); exact H|]. rewrite push_heap_Permutation.
  by rewrite (Permutation_app_comm _ [m]).
Qed.

(** ** A priority queue *)

(** C26: a message buffer is a priority queue. An enqueue adds exactly the
    message, with an arrival time after the current one, for which it wakes
    the consumer, and a counter that breaks ties; a dequeue succeeds whenever
    the buffer is ready, and removes exactly the message [peek] shows, which
    no other message precedes in (arrival time, counter) and whose arrival
    time has come. Both keep the heap. *)
Theorem messageBuffer_priority_queue rnd warm rt ct delta dec message b :
  mb_wf b ->
  (forall b' c t, enqueue rnd warm rt message ct delta b = Ok (b', (c, t)) ->
     exists m', mb_wf b' /\ m_prio_heap b' ≡ₚ m' :: m_prio_heap b /\ same_message message m' /\
       Message.m_LastEnqueueTime m' = t /\ ct < t /\ m_consumer b = Some c) /\
  (isReady ct b = true ->
   exists m delay b' cb, dequeue ct dec b = Ok (delay, b', cb) /\ peek b = Ok m /\ mb_wf b' /\
     m_prio_heap b ≡ₚ m :: m_prio_heap b' /\ Message.m_LastEnqueueTime m <= ct /\
     forall m2, m2 ∈ m_prio_heap b ->
       Message.m_LastEnqueueTime m < Message.m_LastEnqueueTime m2 \/
       (Message.m_LastEnqueueTime m = Message.m_LastEnqueueTime m2 /\
        Message.m_msg_counter m <= Message.m_msg_counter m2)).
Proof.
  intros Hwf. split.
  - intros b' c t H. apply enqueue_inv in H as (m' & Hh & Hs & Ht & _ & Hgt & Hc & _).
    exists m'. unfold mb_wf. rewrite Hh. destruct (heap_push b m' Hwf) as [H1 H2]. done.
  - intros Hr. destruct (dequeue_total ct dec b Hr) as (delay & b' & cb & Hd).
    destruct (dequeue_inv _ _ _ _ _ _ Hd) as (m & l & Hh & Hle & Hh' & _).
    exists m, delay, b', cb. split; [done|]. unfold peek, peekMsgPtr. rewrite Hh.
    unfold mb_wf in *. rewrite Hh', Hh. rewrite Hh in Hwf.
    split_and!; [done|by apply (pop_heap_back_heap Message.greater)|by rewrite pop_heap_back_Permutation|done|].
    intros m2 Hm2. apply message_greater_spec. by eapply (heap_front_least Message.greater).
Qed.

(** ** A FIFO queue *)

(** [l] are the messages of the buffer, first to last. *)
Definition queue (b : MessageBuffer.t) (l : list Message.t) : Prop :=
  l ≡ₚ m_prio_heap b /\ StronglySorted (fun x y => Message.greater y x = true) l.

(** Messages that are in an ordered buffer arrive before the next one. *)
Record fifo_ok (b : MessageBuffer.t) : Prop := {
  fo_wf : mb_wf b;
  fo_strict : m_strict_fifo b = true;
  fo_counter : 0 <= m_msg_counter b;
  fo_before : forall m, m ∈ m_prio_heap b ->
    Message.m_LastEnqueueTime m <= m_last_arrival_time b /\
    Message.m_msg_counter m <= m_msg_counter b
}.

Lemma greater_true x y :
  Message.greater y x = true <->
  Message.m_LastEnqueueTime x < Message.m_LastEnqueueTime y \/
  (Message.m_LastEnqueueTime x = Message.m_LastEnqueueTime y /\
   Message.m_msg_counter x < Message.m_msg_counter y).
Proof.
  destruct (Message.greater y x) eqn:E.
  - split; [|done]. intros _. destruct (decide (Message.m_LastEnqueueTime x < Message.m_LastEnqueueTime y \/
      Message.m_LastEnqueueTime x = Message.m_LastEnqueueTime y /\
      Message.m_msg_counter x < Message.m_msg_counter y)) as [|Hn]; [done|].
    assert (Message.greater y x = false) by (apply message_greater_spec; lia). congruence.
  - apply message_greater_spec in E. split; [done|]. lia.
Qed.

Lemma StronglySorted_snoc {A} (R : A -> A -> Prop) l x :
  StronglySorted R l -> (forall y, y ∈ l -> R y x) -> StronglySorted R (l ++ [x]).
Proof.
  induction 1 as [|y l Hs IH Hy]; intros Hx; cbn; [repeat constructor|].
  constructor; [apply IH; intros; apply Hx; by right|].
  apply Forall_app. split; [done|]. constructor; [|done]. apply Hx. left.
Qed.

(** The first message of the queue is the front of the heap. *)
Lemma queue_front b m l :
  mb_wf b -> queue b l -> m_prio_heap b = m :: tail (m_prio_heap b) ->
  exists l', l = m :: l' /\ l' ≡ₚ std_heap.pop_heap_back Message.greater (m_prio_heap b).
Proof.
  intros Hwf [Hp Hs] Hh. destruct Hs as [|x l' Hs Hx].
  { apply Permutation_nil_l in Hp. rewrite Hh in Hp. done. }
  assert (m = x) as <-.
  { rewrite Forall_forall in Hx. assert (m ∈ x :: l') as Hm by (rewrite Hp, Hh; left).
    apply elem_of_cons in Hm as [|Hm]; [done|]. specialize (Hx m Hm).
    assert (x ∈ m_prio_heap b) as Hxb by (rewrite <- Hp; left). unfold mb_wf in Hwf. rewrite Hh in *.
    rewrite (heap_front_least Message.greater _ m x Hwf Hxb) in Hx. done. }
  exists l'. split; [done|]. rewrite Hh in Hp |- *.
  rewrite <- (pop_heap_back_Permutation Message.greater m (tail (m_prio_heap b))) in Hp.
  by apply Permutation_cons_inv in Hp.
Qed.

(** C25: an ordered message buffer (outside cache warm-up, while its
    64-bit counter does not wrap) implements a FIFO queue: an enqueue puts
    its message at the end of the queue, a dequeue takes the first one, which
    is the message [peek] shows, and both keep the conditions for that. *)
Theorem messageBuffer_fifo rnd rt ct delta dec message b l :
  fifo_ok b -> queue b l -> m_msg_counter b < 2 ^ 64 - 1 ->
  (forall b' ev, enqueue rnd false rt message ct delta b = Ok (b', ev) ->
     exists m', same_message message m' /\ queue b' (l ++ [m']) /\ fifo_ok b') /\
  (forall delay b' cb, dequeue ct dec b = Ok (delay, b', cb) ->
     exists m l', l = m :: l' /\ peek b = Ok m /\ queue b' l' /\ fifo_ok b').
Proof.
  intros [Hwf Hst Hc Hb] [Hp Hs] Hmax. split.
  - intros b' [c t] H. apply enqueue_inv in H
      as (m' & Hh & Hsm & Ht & Hcnt & Hgt & _ & Hc' & _ & _ & _ & Hst' & Hlast & Hlast' & _).
    specialize (Hlast Hst). specialize (Hlast' eq_refl).
    assert (u64 (m_msg_counter b + 1) = m_msg_counter b + 1) as Hu
      by (unfold u64; apply Z.mod_small; lia).
    destruct (heap_push b m' Hwf) as [Hheap Hperm].
    exists m'. split_and!; [done| |].
    + split; [rewrite Hh, Hperm, <- Hp; by rewrite (Permutation_app_comm _ [m'])|].
      apply StronglySorted_snoc; [done|]. intros y Hy. apply greater_true.
      rewrite Hp in Hy. destruct (Hb y Hy). lia.
    + split; [unfold mb_wf; by rewrite Hh|congruence|lia|]. intros m Hm.
      rewrite Hh, Hperm in Hm. apply elem_of_cons in Hm as [->|Hm]; [lia|].
      destruct (Hb m Hm). lia.
  - intros delay b' cb H. apply dequeue_inv in H
      as (m & tl & Hh & _ & Hh' & Hcnt & _ & _ & _ & _ & Hst' & Hlast & _).
    destruct (queue_front b m l Hwf) as (l' & -> & Hl'); [done|by rewrite Hh|].
    exists m, l'. split; [done|]. split; [unfold peek, peekMsgPtr; by rewrite Hh|].
    assert (m_prio_heap b ≡ₚ m :: m_prio_heap b') as Hperm.
    { rewrite Hh', Hh. by rewrite pop_heap_back_Permutation. }
    split.
    + split; [by rewrite Hl', Hh'|]. by inversion Hs.
    + split; [unfold mb_wf; rewrite Hh'; by apply (pop_heap_back_heap Message.greater)|congruence|lia|].
      intros m2 Hm2. rewrite Hlast, Hcnt. apply Hb. rewrite Hperm. by right.
Qed.

(** ** Capacity *)

(** What the size the network sees relies on: the messages of the heap are
    covered by the size at the first pop of the cycle and the messages
    enqueued in it. *)
Record visible_ok (b : MessageBuffer.t) : Prop := {
  vo_popped : m_time_last_time_enqueue b < m_time_last_time_pop b ->
    zlen (m_prio_heap b) <= m_size_at_cycle_start b;
  vo_both : m_time_last_time_enqueue b = m_time_last_time_pop b ->
    zlen (m_prio_heap b) <= m_size_at_cycle_start b + m_msgs_this_cycle b
}.

(** No counter of the buffer comes near its 32 bits. *)
Definition small (b : MessageBuffer.t) : Prop :=
  0 <= m_size_at_cycle_start b /\ 0 <= m_msgs_this_cycle b /\ 0 <= m_stall_map_size b /\
  zlen (m_prio_heap b) + m_size_at_cycle_start b + m_msgs_this_cycle b + m_stall_map_size b + 1 < 2 ^ 32.

(** Time has not gone backwards. *)
Definition up_to (ct : Z) (b : MessageBuffer.t) : Prop :=
  m_time_last_time_enqueue b <= ct /\ m_time_last_time_pop b <= ct.

Lemma zlen_nonneg {A} (l : list A) : 0 <= zlen l.
Proof. unfold zlen. lia. Qed.

Lemma current_size_covers ct b :
  visible_ok b -> small b -> up_to ct b ->
  zlen (m_prio_heap b) <= current_size ct b /\
  current_size ct b + m_stall_map_size b + 1 < 2 ^ 32.
Proof.
  intros [Hp Hb] (H1 & H2 & H3 & H4) [He Ho]. unfold current_size, u32.
  pose proof (zlen_nonneg (m_prio_heap b)).
  destruct (Z.ltb_spec (m_time_last_time_pop b) ct); [rewrite Z.mod_small; lia|].
  destruct (Z.ltb_spec (m_time_last_time_enqueue b) ct).
  - specialize (Hp ltac:(lia)). lia.
  - specialize (Hb ltac:(lia)). rewrite Z.mod_small; lia.
Qed.

Lemma zlen_Permutation {A} (l l' : list A) : l ≡ₚ l' -> zlen l = zlen l'.
Proof. intros H. unfold zlen. by rewrite H. Qed.

Lemma zlen_cons {A} (x : A) l : zlen (x :: l) = zlen l + 1.
Proof. unfold zlen. cbn. lia. Qed.

(** A buffer of finite capacity never holds more messages than it
    has room for, as long as its senders ask first: when
    [areNSlotsAvailable] grants a slot and a message is enqueued, heap and
    stall map together stay within [m_max_size]; enqueueing and dequeueing
    (at times that do not go backwards) keep the count the grant relies on,
    also when both happen in one cycle. *)
Theorem capacity_respected rnd warm rt ct delta dec message b :
  visible_ok b -> small b -> up_to ct b -> 0 < m_max_size b ->
  (forall b' ev, (areNSlotsAvailable 1 ct b).1 = true ->
     enqueue rnd warm rt message ct delta b = Ok (b', ev) ->
     zlen (m_prio_heap b') + m_stall_map_size b' <= m_max_size b') /\
  (forall b' ev, enqueue rnd warm rt message ct delta b = Ok (b', ev) ->
     visible_ok b' /\ up_to ct b') /\
  (forall delay b' cb, dequeue ct dec b = Ok (delay, b', cb) -> visible_ok b' /\ up_to ct b').
Proof.
  intros Hv Hs Hu Hmax. destruct (current_size_covers ct b Hv Hs Hu) as [Hcov Hlt].
  destruct Hv as [Hp Hb], Hs as (S1 & S2 & S3 & S4), Hu as [He Ho].
  pose proof (zlen_nonneg (m_prio_heap b)) as Hz. split_and!.
  - intros b' [c t] Hslot H. apply enqueue_inv in H as (m' & Hh & _ & _ & _ & _ & _ & _ & -> & _ & -> & _).
    rewrite Hh, (zlen_Permutation _ _ (push_heap_Permutation _ _)).
    unfold areNSlotsAvailable in Hslot. rewrite (proj2 (Z.eqb_neq _ _)) in Hslot by lia.
    unfold u32 in Hslot. rewrite Z.mod_small in Hslot by lia.
    destruct (Z.leb_spec (current_size ct b + m_stall_map_size b + 1) (m_max_size b)); [|done].
    unfold zlen in *. rewrite length_app. cbn. lia.
  - intros b' [c t] H. apply enqueue_inv in H
      as (m' & Hh & _ & _ & _ & _ & _ & _ & _ & _ & _ & _ & _ & _ & Hpop & Hst & Henq & Hmsg).
    assert (zlen (m_prio_heap b') = zlen (m_prio_heap b) + 1) as Hlen.
    { rewrite Hh, (zlen_Permutation _ _ (push_heap_Permutation _ _)).
      unfold zlen. rewrite length_app. cbn. lia. }
    unfold up_to. rewrite Hpop, Henq. split; [|lia].
    split; rewrite Hpop, Henq, Hst, Hlen, ?Hmsg; intros Hcmp; [lia|].
    unfold u32. destruct (Z.ltb_spec (m_time_last_time_enqueue b) ct).
    + specialize (Hp ltac:(lia)). rewrite Z.mod_small; lia.
    + specialize (Hb ltac:(lia)). rewrite Z.mod_small; lia.
  - intros delay b' cb H. apply dequeue_inv in H
      as (m & l & Hh & _ & Hh' & _ & _ & _ & _ & _ & _ & _ & Henq & Hmsg & Hpop & Hst & _).
    assert (zlen (m_prio_heap b) = zlen (m_prio_heap b') + 1) as Hlen.
    { rewrite Hh', Hh, <- (zlen_cons m). symmetry. apply zlen_Permutation, pop_heap_back_Permutation. }
    unfold up_to. rewrite Hpop, Henq. split; [|lia].
    split; rewrite Hpop, Henq, Hst, ?Hmsg; intros Hcmp.
    + unfold u32. destruct (Z.ltb_spec (m_time_last_time_pop b) ct).
      * rewrite Z.mod_small; lia.
      * specialize (Hp ltac:(lia)). lia.
    + unfold u32. destruct (Z.ltb_spec (m_time_last_time_pop b) ct).
      * rewrite Z.mod_small; lia.
      * specialize (Hb ltac:(lia)). lia.
Qed.

(** A run of one buffer of three slots: two messages are enqueued and
    stalled, a third one is enqueued, and in cycle 10 it is dequeued, the two
    stalled ones are reanalyzed, and two new messages are sent, each after
    [areNSlotsAvailable] granted a slot. *)
Definition send (ct : Z) (b : MessageBuffer.t) : Res MessageBuffer.t :=
  _ ← assert_ (areNSlotsAvailable 1 ct b).1 "no slot";
  '(b, _) ← enqueue false false 0 (Message.new ct (NetDest.mk []) 0) ct 1 b; Ok b.

Definition overflow_run : Res MessageBuffer.t :=
  b ← setConsumer CGarnetNetwork (MessageBuffer.new 3 false false);
  b ← send 1 b;
  b ← send 1 b;
  '(b, _) ← stallMessage 6 0 5 b;
  '(b, _) ← stallMessage 6 0 5 b;
  b ← send 6 b;
  '(_, b, _) ← dequeue 10 true b;
  '(b, _) ← reanalyzeMessages 0 10 b;
  b ← send 10 b;
  send 10 b.

(** [areNSlotsAvailable] can grant slots a buffer does not have: when
    messages are reanalyzed in a cycle in which a message was dequeued, they
    leave the stall count but are not in the size at the start of the cycle,
    and are counted nowhere. In [overflow_run], in which every message is
    sent only after a slot was granted, a buffer of capacity 3 ends with 4
    messages. *)
Theorem reanalyze_exceeds_capacity :
  exists b, overflow_run = Ok b /\ m_max_size b = 3 /\ m_stall_map_size b = 0 /\
    zlen (m_prio_heap b) = 4.
Proof.
  destruct overflow_run as [b|e] eqn:E; [|vm_compute in E; discriminate E].
  exists b. vm_compute in E. injection E as <-. split; [reflexivity|]. split; [reflexivity|].
  split; reflexivity.
Qed.

(** ** The stall map *)

(** All stalled messages. *)
Definition stalled (b : MessageBuffer.t) : list Message.t := concat (map snd (m_stall_msg_map b)).

(** The counter is exact, and an address has one list. *)
Record stall_map_ok (b : MessageBuffer.t) : Prop := {
  sm_size : m_stall_map_size b = zlen (stalled b);
  sm_keys : NoDup (map fst (m_stall_msg_map b))
}.

Lemma push_stalled a x m :
  concat (map snd (addr_map.push a x m)) ≡ₚ x :: concat (map snd m) /\
  (forall k, k ∈ map fst (addr_map.push a x m) <-> k = a \/ k ∈ map fst m).
Proof.
  induction m as [|[k l] m [IH1 IH2]]; cbn.
  - split; [done|]. intros k. rewrite list_elem_of_singleton, elem_of_nil. tauto.
  - destruct (Z.ltb_spec a k); cbn; [split; [done|]; intros; by rewrite elem_of_cons|].
    destruct (Z.eqb_spec a k) as [->|]; cbn.
    + split; [|intros; rewrite !elem_of_cons; tauto].
      rewrite <- app_assoc. cbn. by rewrite <- Permutation_middle.
    + split; [|intros; rewrite !elem_of_cons, IH2; tauto].
      rewrite IH1. by rewrite <- Permutation_middle.
Qed.

Lemma filter_everything {A} (P : A -> Prop) `{forall x, Decision (P x)} (l : list A) :
  Forall P l -> filter P l = l.
Proof. induction 1; [done|]. rewrite filter_cons_True by done. congruence. Qed.

Lemma get_erase a m l :
  NoDup (map fst m) -> addr_map.get a m = Some l ->
  concat (map snd m) ≡ₚ l ++ concat (map snd (addr_map.erase a m)) /\
  NoDup (map fst (addr_map.erase a m)).
Proof.
  unfold addr_map.erase. induction m as [|[k l0] m IH]; intros Hnd H; [done|].
  cbn [addr_map.get map concat fst snd] in *. apply NoDup_cons in Hnd as [Hk Hnd].
  assert (forall x, x ∈ map fst (filter (fun p : Z * list Message.t => p.1 <> a) m) -> x ∈ map fst m) as Hsub.
  { intros x. change (map fst) with (fmap (M := list) (@fst Z (list Message.t))).
    rewrite !list_elem_of_fmap. intros (p & -> & Hp%list_elem_of_filter). exists p. tauto. }
  destruct (Z.eqb_spec a k) as [->|Hne].
  - injection H as ->. rewrite filter_cons_False by (cbn; tauto).
    assert (filter (fun p : Z * list Message.t => p.1 <> k) m = m) as ->; [|done].
    apply filter_everything. apply Forall_forall. intros p Hp Heq. apply Hk.
    change (map fst) with (fmap (M := list) (@fst Z (list Message.t))).
    apply list_elem_of_fmap. by exists p.
  - rewrite filter_cons_True by (cbn; congruence). cbn [map concat fst snd]. destruct (IH Hnd H) as [IH1 IH2]. split.
    + rewrite IH1. rewrite !app_assoc. by rewrite (Permutation_app_comm l0 l).
    + constructor; [|done]. intros Hin. by apply Hk, Hsub.
Qed.

(** The messages of a list go back to the heap. *)
Lemma reanalyzeList_spec lt ct c b :
  mb_wf b -> m_consumer b = Some c ->
  exists b' ms, reanalyzeList lt ct b = Ok (b', replicate (length lt) (c, ct)) /\ mb_wf b' /\
    Forall2 same_message lt ms /\ Forall (fun m => Message.m_LastEnqueueTime m = ct) ms /\
    m_prio_heap b' ≡ₚ ms ++ m_prio_heap b /\ m_consumer b' = Some c /\
    m_stall_msg_map b' = m_stall_msg_map b /\ m_stall_map_size b' = m_stall_map_size b.
Proof.
  intros Hwf Hc. unfold reanalyzeList.
  enough (exists b' ms, foldM (reanalyze_one ct) lt b = Ok b' /\ mb_wf b' /\
    Forall2 same_message lt ms /\ Forall (fun m => Message.m_LastEnqueueTime m = ct) ms /\
    m_prio_heap b' ≡ₚ ms ++ m_prio_heap b /\ m_consumer b' = Some c /\
    m_stall_msg_map b' = m_stall_msg_map b /\ m_stall_map_size b' = m_stall_map_size b)
    as (b' & ms & -> & H1 & H2 & H3 & H4 & H5 & H6 & H7).
  { cbn. rewrite H5. by exists b', ms. }
  revert b Hwf Hc. induction lt as [|m lt IH]; intros b Hwf Hc; cbn [foldM].
  { exists b, []. split_and!; [done|done|constructor|constructor|done|done|done|done]. }
  set (m' := Message.setMsgCounter (u64 (m_msg_counter b + 1)) (Message.setLastEnqueueTime ct m)).
  set (b1 := set_heap (std_heap.push_heap Message.greater (m_prio_heap b ++ [m']))
               (set_counter (u64 (m_msg_counter b + 1)) b)).
  assert (reanalyze_one ct m b = Ok b1) as -> by (unfold reanalyze_one; cbn; by rewrite Hc).
  cbn [mbind Res_bind].
  destruct (heap_push b m' Hwf) as [Hheap Hperm].
  destruct (IH b1 Hheap Hc) as (b' & ms & -> & H1 & H2 & H3 & H4 & H5 & H6 & H7).
  exists b', (m' :: ms). split_and!; [done|done|by constructor|by constructor| |done|done|done].
  rewrite H4. change (m_prio_heap b1) with (std_heap.push_heap Message.greater (m_prio_heap b ++ [m'])).
  rewrite Hperm. symmetry. apply Permutation_middle.
Qed.

Lemma Permutation_zlen_app {A} (l l1 l2 : list A) : l ≡ₚ l1 ++ l2 -> zlen l = zlen l1 + zlen l2.
Proof. intros H. rewrite (zlen_Permutation _ _ H). unfold zlen. rewrite length_app. lia. Qed.

(** The loop of [reanalyzeAllMessages] over the rest of the map. *)
Lemma reanalyzeAll_loop ct c l b evs :
  mb_wf b -> m_consumer b = Some c -> zlen (concat (map snd l)) <= m_stall_map_size b ->
  exists b' ms evs', foldM (reanalyze_entry ct) l (b, evs) = Ok (b', evs') /\
    mb_wf b' /\ Forall2 same_message (concat (map snd l)) ms /\
    m_prio_heap b' ≡ₚ ms ++ m_prio_heap b /\
    m_stall_map_size b' = m_stall_map_size b - zlen (concat (map snd l)).
Proof.
  revert b evs. induction l as [|[k lt] l IH]; intros b evs Hwf Hc Hle.
  { exists b, [], evs. cbn. split_and!; [done|done|constructor|done|]. unfold zlen. cbn. lia. }
  cbn in Hle. pose proof (Permutation_zlen_app _ lt (concat (map snd l)) (Permutation_refl _)) as Hz.
  pose proof (zlen_nonneg (concat (map snd l))). cbn [foldM].
  destruct (reanalyzeList_spec lt ct c (set_stall_map (m_stall_msg_map b) (m_stall_map_size b - zlen lt) b))
    as (b1 & ms1 & Hr & W1 & S1 & _ & P1 & C1 & _ & Z1); [done|done|].
  assert (reanalyze_entry ct (k, lt) (b, evs) = Ok (b1, evs ++ replicate (length lt) (c, ct))) as ->.
  { unfold reanalyze_entry. cbn [snd]. rewrite Z.geb_leb, (proj2 (Z.leb_le _ _)) by lia.
    cbn [assert_ mbind Res_bind]. by rewrite Hr. }
  cbn in P1, Z1. cbn [mbind Res_bind map concat snd].
  destruct (IH b1 (evs ++ replicate (length lt) (c, ct)) W1 C1) as (b' & ms & evs' & Hf & W & S & P & Zs); [lia|].
  exists b', (ms1 ++ ms), evs'. split_and!; [exact Hf|done|by apply Forall2_app| |lia].
  rewrite P, P1. rewrite !app_assoc. by rewrite (Permutation_app_comm ms ms1).
Qed.

(** C28: stalling and reanalyzing lose no message and keep the stall
    counter exact, so that its assertions never fail. [stallMessage] moves
    the front message to the stall map; [reanalyzeMessages] always returns
    for an address that has stalled messages, and moves exactly those back
    to the heap, to be handled at once, waking the consumer for each;
    [reanalyzeAllMessages] always returns and moves all of them. *)
Theorem stall_map_exact bits addr ct c b :
  mb_wf b -> stall_map_ok b -> m_consumer b = Some c ->
  (forall b' cb, stallMessage bits addr ct b = Ok (b', cb) ->
     exists m m', peek b = Ok m /\ same_message m m' /\ stalled b' ≡ₚ m' :: stalled b /\
       m_prio_heap b ≡ₚ m :: m_prio_heap b' /\ m_stall_map_size b' = zlen (stalled b')) /\
  (forall lt, addr_map.get addr (m_stall_msg_map b) = Some lt ->
     exists b' ms, reanalyzeMessages addr ct b = Ok (b', replicate (length lt) (c, ct)) /\
       stall_map_ok b' /\ stalled b ≡ₚ lt ++ stalled b' /\ Forall2 same_message lt ms /\
       Forall (fun m => Message.m_LastEnqueueTime m = ct) ms /\
       m_prio_heap b' ≡ₚ ms ++ m_prio_heap b) /\
  (exists b' ms evs, reanalyzeAllMessages ct b = Ok (b', evs) /\ stalled b' = [] /\
     m_stall_map_size b' = 0 /\ Forall2 same_message (stalled b) ms /\
     m_prio_heap b' ≡ₚ ms ++ m_prio_heap b).
Proof.
  intros Hwf [Hsz Hk] Hc. split_and!.
  - intros b' cb H. unfold stallMessage in H. inv_bind H. inv_bind H. inv_bind H. rename a1 into m.
    inv_bind H. rename a1 into m'. inv_bind H. destruct a1 as [[d b1] cb1]. simplify_res.
    apply dequeue_inv in E3 as (m0 & l & Hh & _ & Hh' & _ & _ & Hs & Hm & _).
    unfold peekMsgPtr in E1. rewrite Hh in E1. simplify_res.
    exists m, m'. unfold stalled. cbn. rewrite Hm, Hs. destruct (push_stalled addr m' (m_stall_msg_map b)) as [P _].
    split_and!; [unfold peek, peekMsgPtr; by rewrite Hh| |done| |].
    + unfold Message.updateDelayedTicks in E2. inv_bind E2. by simplify_res.
    + rewrite Hh', Hh. by rewrite pop_heap_back_Permutation.
    + rewrite (zlen_Permutation _ _ P), zlen_cons. rewrite Hsz. done.
  - intros lt Hget. destruct (get_erase addr _ lt Hk Hget) as [P ND].
    unfold reanalyzeMessages. rewrite Hget. pose proof (Permutation_zlen_app _ _ _ P) as Hz.
    pose proof (zlen_nonneg (concat (map snd (addr_map.erase addr (m_stall_msg_map b))))).
    unfold stalled in Hsz. rewrite Z.geb_leb, (proj2 (Z.leb_le _ _)) by lia. cbn.
    destruct (reanalyzeList_spec lt ct c b Hwf Hc) as (b' & ms & -> & H1 & H2 & H3 & H4 & H5 & H6 & H7).
    cbn. eexists _, ms. split; [done|]. unfold stalled. cbn. rewrite H6.
    split_and!; [|done|done|done|done]. split; unfold stalled; cbn; [lia|done].
  - unfold reanalyzeAllMessages.
    destruct (reanalyzeAll_loop ct c (m_stall_msg_map b) b [] Hwf Hc) as (b' & ms & evs & Hf & W & S & P & Zs);
      [unfold stalled in Hsz; lia|].
    rewrite Hf. eexists _, ms, evs. split; [done|].
    unfold stalled in Hsz. split_and!; [done|cbn; lia|done|done].
Qed.

Module MsgBufferExample.

(** An ordered buffer of four slots with two messages, in cycle 2. *)
Definition message (payload : Z) : Message.t := Message.new 0 (NetDest.mk []) payload.

Definition get (m : Res MessageBuffer.t) : MessageBuffer.t :=
  match m with Ok b => b | Err _ => MessageBuffer.new 0 true false end.

Definition put (payload ct : Z) (b : MessageBuffer.t) : Res MessageBuffer.t :=
  '(b, _) ← enqueue false false 0 (message payload) ct 1 b; Ok b.

Definition empty : MessageBuffer.t :=
  set_consumer_ (Some CGarnetNetwork) (MessageBuffer.new 4 true false).

Definition two : MessageBuffer.t := get (b ← put 1 1 empty; put 2 2 b).

Lemma heap_of_two b x y :
  m_prio_heap b = [x; y] -> Message.greater x y = false -> mb_wf b.
Proof.
  intros Hb Hg i p z Hi Hp Hz. rewrite Hb in Hp, Hz.
  destruct i as [|[|i]]; [lia| |by destruct i]. cbn in Hp, Hz. by simplify_eq.
Qed.

Lemma two_wf : mb_wf two.
Proof. eapply heap_of_two; vm_compute; reflexivity. Qed.

Lemma messageBuffer_priority_queue_witness :
  isReady 3 two = true /\
  exists m delay b' cb, dequeue 3 true two = Ok (delay, b', cb) /\ peek two = Ok m /\
    m_prio_heap two ≡ₚ m :: m_prio_heap b'.
Proof.
  split; [vm_compute; reflexivity|].
  destruct (messageBuffer_priority_queue false false 0 3 1 true (message 3) two two_wf) as [_ H].
  destruct (H eq_refl) as (m & delay & b' & cb & H1 & H2 & _ & H3 & _).
  exists m, delay, b', cb. split; [exact H1|]. split; [exact H2|exact H3].
Defined.

Lemma two_fifo : fifo_ok two.
Proof.
  split; [exact two_wf|reflexivity|vm_compute; discriminate|].
  apply Forall_forall, (proj1 (bool_decide_eq_true _)). vm_compute. reflexivity.
Qed.

Lemma two_queue : queue two (m_prio_heap two).
Proof. split; [done|]. vm_compute. repeat constructor. Qed.

Lemma messageBuffer_fifo_witness :
  exists b' m', put 3 2 two = Ok b' /\ same_message (message 3) m' /\
    queue b' (m_prio_heap two ++ [m']).
Proof.
  destruct (messageBuffer_fifo false 0 2 1 true (message 3) two (m_prio_heap two) two_fifo two_queue)
    as [H _]; [vm_compute; reflexivity|].
  destruct (enqueue false false 0 (message 3) 2 1 two) as [[b' ev]|e] eqn:E;
    [|vm_compute in E; discriminate E].
  destruct (H b' ev eq_refl) as (m' & Hm & Hq & _). exists b', m'.
  split; [unfold put; rewrite E; reflexivity|]. split; [exact Hm|exact Hq].
Defined.

Lemma capacity_respected_witness :
  visible_ok two /\ small two /\ up_to 2 two /\
  exists b' ev, (areNSlotsAvailable 1 2 two).1 = true /\
    enqueue false false 0 (message 3) 2 1 two = Ok (b', ev) /\
    zlen (m_prio_heap b') + m_stall_map_size b' <= m_max_size b'.
Proof.
  assert (visible_ok two) as Hv by (split; vm_compute; intros H; discriminate H).
  assert (small two) as Hs by (vm_compute; repeat split; discriminate).
  assert (up_to 2 two) as Hu by (vm_compute; split; discriminate).
  split; [exact Hv|]. split; [exact Hs|]. split; [exact Hu|].
  destruct (capacity_respected false false 0 2 1 true (message 3) two Hv Hs Hu) as [H _];
    [vm_compute; reflexivity|].
  destruct (enqueue false false 0 (message 3) 2 1 two) as [[b' ev]|e] eqn:E;
    [|vm_compute in E; discriminate E].
  exists b', ev. split; [vm_compute; reflexivity|]. split; [reflexivity|].
  apply (H b' ev); [vm_compute; reflexivity|reflexivity].
Defined.

(** The first message is stalled. *)
Definition one_stalled : MessageBuffer.t :=
  get ('(b, _) ← stallMessage 6 0 3 two; Ok b).

Lemma one_stalled_ok : mb_wf one_stalled /\ stall_map_ok one_stalled.
Proof.
  split.
  - intros i p z Hi Hp Hz. assert (length (m_prio_heap one_stalled) = 1%nat) as Hl by (vm_compute; reflexivity).
    pose proof (lookup_lt_Some _ _ _ Hz). lia.
  - split; [vm_compute; reflexivity|]. apply (proj1 (bool_decide_eq_true _)). vm_compute. reflexivity.
Qed.

Lemma stall_map_exact_witness :
  m_stall_map_size one_stalled = 1 /\
  exists b' ms evs, reanalyzeAllMessages 4 one_stalled = Ok (b', evs) /\ stalled b' = [] /\
    Forall2 same_message (stalled one_stalled) ms /\
    m_prio_heap b' ≡ₚ ms ++ m_prio_heap one_stalled.
Proof.
  split; [vm_compute; reflexivity|]. destruct one_stalled_ok as [Hw Hs].
  destruct (stall_map_exact 6 0 4 CGarnetNetwork one_stalled Hw Hs eq_refl)
    as (_ & _ & b' & ms & evs & H1 & H2 & _ & H4 & H5).
  exists b', ms, evs. split; [exact H1|]. split; [exact H2|]. split; [exact H4|exact H5].
Defined.

End MsgBufferExample.
