(* ===== verification/NetState.v ===== *)
(** * State of the network

    The data of [NetworkInterface] and [GarnetNetwork]
    (src/mem/ruby/network/garnet2.0/NetworkInterface.hh, GarnetNetwork.hh),
    the traffic statistics of GarnetNetwork.hh, and the state of a whole run:
    routers, interfaces, the store of links and message buffers that pointers
    refer to, the DRAIN ring and lock, the event queue and the values of
    [random()]/[rand()] still to come. *)

From S2P Require Import Prelude NetDest Types FlitBuffer Channels RouterCore MsgBuffer.

(** ** Data of [class NetworkInterface] *)
Module NetworkInterface.

Record t := mk {
  m_id : Z;
  m_virtual_networks : Z;
  m_vc_per_vnet : Z;
  m_num_vcs : Z;
  m_router_id : Z;
  m_out_vc_state : list OutVcState.t;
  m_vc_allocator : list Z;
  m_vc_round_robin : Z;
  outFlitQueue : flitBuffer.t;
  outCreditQueue : flitBuffer.t;
  m_deadlock_threshold : Z;
  inNetLink : Z;
  outNetLink : Z;
  inCreditLink : Z;
  outCreditLink : Z;
  m_stall_queue : list flit.t;
  m_stall_count : list Z;
  m_ni_out_vcs : list flitBuffer.t;
  m_ni_out_vcs_enqueue_time : list Z;
  inNode_ptr : list (option Z);
  outNode_ptr : list (option Z);
  vc_busy_counter : list Z
}.

Definition set_out_vc_state (l : list OutVcState.t) (i : t) : t :=
  mk (m_id i) (m_virtual_networks i) (m_vc_per_vnet i) (m_num_vcs i) (m_router_id i) l
    (m_vc_allocator i) (m_vc_round_robin i) (outFlitQueue i) (outCreditQueue i)
    (m_deadlock_threshold i) (inNetLink i) (outNetLink i) (inCreditLink i) (outCreditLink i)
    (m_stall_queue i) (m_stall_count i) (m_ni_out_vcs i) (m_ni_out_vcs_enqueue_time i)
    (inNode_ptr i) (outNode_ptr i) (vc_busy_counter i).

Definition set_vc_allocator (l : list Z) (i : t) : t :=
  mk (m_id i) (m_virtual_networks i) (m_vc_per_vnet i) (m_num_vcs i) (m_router_id i)
    (m_out_vc_state i) l (m_vc_round_robin i) (outFlitQueue i) (outCreditQueue i)
    (m_deadlock_threshold i) (inNetLink i) (outNetLink i) (inCreditLink i) (outCreditLink i)
    (m_stall_queue i) (m_stall_count i) (m_ni_out_vcs i) (m_ni_out_vcs_enqueue_time i)
    (inNode_ptr i) (outNode_ptr i) (vc_busy_counter i).

Definition set_vc_round_robin (n : Z) (i : t) : t :=
  mk (m_id i) (m_virtual_networks i) (m_vc_per_vnet i) (m_num_vcs i) (m_router_id i)
    (m_out_vc_state i) (m_vc_allocator i) n (outFlitQueue i) (outCreditQueue i)
    (m_deadlock_threshold i) (inNetLink i) (outNetLink i) (inCreditLink i) (outCreditLink i)
    (m_stall_queue i) (m_stall_count i) (m_ni_out_vcs i) (m_ni_out_vcs_enqueue_time i)
    (inNode_ptr i) (outNode_ptr i) (vc_busy_counter i).

Definition set_outFlitQueue (q : flitBuffer.t) (i : t) : t :=
  mk (m_id i) (m_virtual_networks i) (m_vc_per_vnet i) (m_num_vcs i) (m_router_id i)
    (m_out_vc_state i) (m_vc_allocator i) (m_vc_round_robin i) q (outCreditQueue i)
    (m_deadlock_threshold i) (inNetLink i) (outNetLink i) (inCreditLink i) (outCreditLink i)
    (m_stall_queue i) (m_stall_count i) (m_ni_out_vcs i) (m_ni_out_vcs_enqueue_time i)
    (inNode_ptr i) (outNode_ptr i) (vc_busy_counter i).

Definition set_outCreditQueue (q : flitBuffer.t) (i : t) : t :=
  mk (m_id i) (m_virtual_networks i) (m_vc_per_vnet i) (m_num_vcs i) (m_router_id i)
    (m_out_vc_state i) (m_vc_allocator i) (m_vc_round_robin i) (outFlitQueue i) q
    (m_deadlock_threshold i) (inNetLink i) (outNetLink i) (inCreditLink i) (outCreditLink i)
    (m_stall_queue i) (m_stall_count i) (m_ni_out_vcs i) (m_ni_out_vcs_enqueue_time i)
    (inNode_ptr i) (outNode_ptr i) (vc_busy_counter i).

Definition set_stalls (q : list flit.t) (l : list Z) (i : t) : t :=
  mk (m_id i) (m_virtual_networks i) (m_vc_per_vnet i) (m_num_vcs i) (m_router_id i)
    (m_out_vc_state i) (m_vc_allocator i) (m_vc_round_robin i) (outFlitQueue i)
    (outCreditQueue i) (m_deadlock_threshold i) (inNetLink i) (outNetLink i)
    (inCreditLink i) (outCreditLink i) q l (m_ni_out_vcs i) (m_ni_out_vcs_enqueue_time i)
    (inNode_ptr i) (outNode_ptr i) (vc_busy_counter i).

Definition set_ni_out_vcs (l : list flitBuffer.t) (i : t) : t :=
  mk (m_id i) (m_virtual_networks i) (m_vc_per_vnet i) (m_num_vcs i) (m_router_id i)
    (m_out_vc_state i) (m_vc_allocator i) (m_vc_round_robin i) (outFlitQueue i)
    (outCreditQueue i) (m_deadlock_threshold i) (inNetLink i) (outNetLink i)
    (inCreditLink i) (outCreditLink i) (m_stall_queue i) (m_stall_count i) l
    (m_ni_out_vcs_enqueue_time i) (inNode_ptr i) (outNode_ptr i) (vc_busy_counter i).

Definition set_ni_out_vcs_enqueue_time (l : list Z) (i : t) : t :=
  mk (m_id i) (m_virtual_networks i) (m_vc_per_vnet i) (m_num_vcs i) (m_router_id i)
    (m_out_vc_state i) (m_vc_allocator i) (m_vc_round_robin i) (outFlitQueue i)
    (outCreditQueue i) (m_deadlock_threshold i) (inNetLink i) (outNetLink i)
    (inCreditLink i) (outCreditLink i) (m_stall_queue i) (m_stall_count i) (m_ni_out_vcs i)
    l (inNode_ptr i) (outNode_ptr i) (vc_busy_counter i).

Definition set_vc_busy_counter (l : list Z) (i : t) : t :=
  mk (m_id i) (m_virtual_networks i) (m_vc_per_vnet i) (m_num_vcs i) (m_router_id i)
    (m_out_vc_state i) (m_vc_allocator i) (m_vc_round_robin i) (outFlitQueue i)
    (outCreditQueue i) (m_deadlock_threshold i) (inNetLink i) (outNetLink i)
    (inCreditLink i) (outCreditLink i) (m_stall_queue i) (m_stall_count i) (m_ni_out_vcs i)
    (m_ni_out_vcs_enqueue_time i) (inNode_ptr i) (outNode_ptr i) l.

Definition set_nodes (ins : list (option Z)) (outs : list (option Z)) (i : t) : t :=
  mk (m_id i) (m_virtual_networks i) (m_vc_per_vnet i) (m_num_vcs i) (m_router_id i)
    (m_out_vc_state i) (m_vc_allocator i) (m_vc_round_robin i) (outFlitQueue i)
    (outCreditQueue i) (m_deadlock_threshold i) (inNetLink i) (outNetLink i)
    (inCreditLink i) (outCreditLink i) (m_stall_queue i) (m_stall_count i) (m_ni_out_vcs i)
    (m_ni_out_vcs_enqueue_time i) ins outs (vc_busy_counter i).

Definition set_in_port (net_link : Z) (credit_link : Z) (i : t) : t :=
  mk (m_id i) (m_virtual_networks i) (m_vc_per_vnet i) (m_num_vcs i) (m_router_id i)
    (m_out_vc_state i) (m_vc_allocator i) (m_vc_round_robin i) (outFlitQueue i)
    (outCreditQueue i) (m_deadlock_threshold i) net_link (outNetLink i) (inCreditLink i)
    credit_link (m_stall_queue i) (m_stall_count i) (m_ni_out_vcs i)
    (m_ni_out_vcs_enqueue_time i) (inNode_ptr i) (outNode_ptr i) (vc_busy_counter i).

Definition set_out_port (net_link : Z) (credit_link : Z) (q : flitBuffer.t) (router_id : Z) (i : t) : t :=
  mk (m_id i) (m_virtual_networks i) (m_vc_per_vnet i) (m_num_vcs i) router_id
    (m_out_vc_state i) (m_vc_allocator i) (m_vc_round_robin i) q (outCreditQueue i)
    (m_deadlock_threshold i) (inNetLink i) net_link credit_link (outCreditLink i)
    (m_stall_queue i) (m_stall_count i) (m_ni_out_vcs i) (m_ni_out_vcs_enqueue_time i)
    (inNode_ptr i) (outNode_ptr i) (vc_busy_counter i).

Definition new (id virt_nets vcs_per_vnet garnet_deadlock_threshold : Z) : t :=
  let num_vcs := vcs_per_vnet * virt_nets in
  let per_vnet := replicate (Z.to_nat virt_nets) 0 in
  mk id virt_nets vcs_per_vnet num_vcs (-1) [] per_vnet 0 flitBuffer.new flitBuffer.new
     garnet_deadlock_threshold (-1) (-1) (-1) (-1) [] per_vnet
     (replicate (Z.to_nat num_vcs) flitBuffer.new) (replicate (Z.to_nat num_vcs) INFINITE_)
     [] [] per_vnet.

Definition init (net : NetConfig.t) (i : t) : Res t :=
  l ← mapM (fun vc => OutVcState.new vc net) (range 0 (m_num_vcs i));
  Ok (set_out_vc_state (m_out_vc_state i ++ l) i).

End NetworkInterface.

(** ** A [Stats::Vector] and its counterpart for marked flits *)
Module VecStat.

Record t := mk { all_ : list Z; marked_ : list Z }.

Definition add (i v : Z) (marked : bool) (s : t) : Res t :=
  a ← vec_upd (all_ s) i (fun x => Ok (x + v));
  m ← (if marked then vec_upd (marked_ s) i (fun x => Ok (x + v)) else Ok (marked_ s));
  Ok (mk a m).

End VecStat.

(** ** Latency extremes and samples (flit, network and queueing latency) *)
Module LatTrack.

Record t := mk {
  max_ : Z; min_ : Z; marked_max : Z; hist : list Z; marked_hist : list Z
}.

Definition zero : t := mk 0 999999 0 [] [].

(** [update_flit_latency_histogram] and its two siblings. *)
Definition update (latency : Z) (marked : bool) (s : t) : t :=
  if marked then
    mk (max_ s) (min_ s)
       (if latency >? marked_max s then latency else marked_max s)
       (hist s) (marked_hist s ++ [latency])
  else
    mk (if latency >? max_ s then latency else max_ s)
       (if latency <? min_ s then latency else min_ s)
       (marked_max s) (hist s ++ [latency]) (marked_hist s).

End LatTrack.

(** ** Traffic statistics of [GarnetNetwork] *)
Module TrafficStats.

Record t := mk {
  m_packets_received : VecStat.t;
  m_packets_injected : VecStat.t;
  m_packet_network_latency : VecStat.t;
  m_packet_queueing_latency : VecStat.t;
  m_flits_received : VecStat.t;
  m_flits_injected : VecStat.t;
  m_flit_network_latency : VecStat.t;
  m_flit_queueing_latency : VecStat.t;
  m_flt_dist : VecStat.t;
  m_network_latency_histogram : list Z;
  flit_latency : LatTrack.t;
  flit_network_latency : LatTrack.t;
  flit_queueing_latency : LatTrack.t;
  m_total_hops : Z;
  m_marked_total_hops : Z;
  total_marked_flit_latency : Z;
  total_marked_flit_received : Z;
  marked_flt_injected : Z;
  marked_flt_received : Z;
  m_max_flit : Z * Z * Z;
  m_min_flit : Z * Z * Z;
  m_max_marked_flit : Z * Z * Z;
  m_pre_mature_exit : Z;
  exit_requests : list string
}.

Definition set_packets_received (v : VecStat.t) (s : t) : t :=
  mk v (m_packets_injected s) (m_packet_network_latency s) (m_packet_queueing_latency s)
    (m_flits_received s) (m_flits_injected s) (m_flit_network_latency s)
    (m_flit_queueing_latency s) (m_flt_dist s) (m_network_latency_histogram s)
    (flit_latency s) (flit_network_latency s) (flit_queueing_latency s) (m_total_hops s)
    (m_marked_total_hops s) (total_marked_flit_latency s) (total_marked_flit_received s)
    (marked_flt_injected s) (marked_flt_received s) (m_max_flit s) (m_min_flit s)
    (m_max_marked_flit s) (m_pre_mature_exit s) (exit_requests s).

Definition set_packets_injected (v : VecStat.t) (s : t) : t :=
  mk (m_packets_received s) v (m_packet_network_latency s) (m_packet_queueing_latency s)
    (m_flits_received s) (m_flits_injected s) (m_flit_network_latency s)
    (m_flit_queueing_latency s) (m_flt_dist s) (m_network_latency_histogram s)
    (flit_latency s) (flit_network_latency s) (flit_queueing_latency s) (m_total_hops s)
    (m_marked_total_hops s) (total_marked_flit_latency s) (total_marked_flit_received s)
    (marked_flt_injected s) (marked_flt_received s) (m_max_flit s) (m_min_flit s)
    (m_max_marked_flit s) (m_pre_mature_exit s) (exit_requests s).

Definition set_packet_network_latency (v : VecStat.t) (s : t) : t :=
  mk (m_packets_received s) (m_packets_injected s) v (m_packet_queueing_latency s)
    (m_flits_received s) (m_flits_injected s) (m_flit_network_latency s)
    (m_flit_queueing_latency s) (m_flt_dist s) (m_network_latency_histogram s)
    (flit_latency s) (flit_network_latency s) (flit_queueing_latency s) (m_total_hops s)
    (m_marked_total_hops s) (total_marked_flit_latency s) (total_marked_flit_received s)
    (marked_flt_injected s) (marked_flt_received s) (m_max_flit s) (m_min_flit s)
    (m_max_marked_flit s) (m_pre_mature_exit s) (exit_requests s).

Definition set_packet_queueing_latency (v : VecStat.t) (s : t) : t :=
  mk (m_packets_received s) (m_packets_injected s) (m_packet_network_latency s) v
    (m_flits_received s) (m_flits_injected s) (m_flit_network_latency s)
    (m_flit_queueing_latency s) (m_flt_dist s) (m_network_latency_histogram s)
    (flit_latency s) (flit_network_latency s) (flit_queueing_latency s) (m_total_hops s)
    (m_marked_total_hops s) (total_marked_flit_latency s) (total_marked_flit_received s)
    (marked_flt_injected s) (marked_flt_received s) (m_max_flit s) (m_min_flit s)
    (m_max_marked_flit s) (m_pre_mature_exit s) (exit_requests s).

Definition set_flits_received (v : VecStat.t) (tot : Z) (n : Z) (s : t) : t :=
  mk (m_packets_received s) (m_packets_injected s) (m_packet_network_latency s)
    (m_packet_queueing_latency s) v (m_flits_injected s) (m_flit_network_latency s)
    (m_flit_queueing_latency s) (m_flt_dist s) (m_network_latency_histogram s)
    (flit_latency s) (flit_network_latency s) (flit_queueing_latency s) (m_total_hops s)
    (m_marked_total_hops s) (total_marked_flit_latency s) tot (marked_flt_injected s) n
    (m_max_flit s) (m_min_flit s) (m_max_marked_flit s) (m_pre_mature_exit s)
    (exit_requests s).

Definition set_flits_injected (v : VecStat.t) (d : VecStat.t) (n : Z) (s : t) : t :=
  mk (m_packets_received s) (m_packets_injected s) (m_packet_network_latency s)
    (m_packet_queueing_latency s) (m_flits_received s) v (m_flit_network_latency s)
    (m_flit_queueing_latency s) d (m_network_latency_histogram s) (flit_latency s)
    (flit_network_latency s) (flit_queueing_latency s) (m_total_hops s)
    (m_marked_total_hops s) (total_marked_flit_latency s) (total_marked_flit_received s) n
    (marked_flt_received s) (m_max_flit s) (m_min_flit s) (m_max_marked_flit s)
    (m_pre_mature_exit s) (exit_requests s).

Definition set_flit_network_latency (v : VecStat.t) (tot : Z) (s : t) : t :=
  mk (m_packets_received s) (m_packets_injected s) (m_packet_network_latency s)
    (m_packet_queueing_latency s) (m_flits_received s) (m_flits_injected s) v
    (m_flit_queueing_latency s) (m_flt_dist s) (m_network_latency_histogram s)
    (flit_latency s) (flit_network_latency s) (flit_queueing_latency s) (m_total_hops s)
    (m_marked_total_hops s) tot (total_marked_flit_received s) (marked_flt_injected s)
    (marked_flt_received s) (m_max_flit s) (m_min_flit s) (m_max_marked_flit s)
    (m_pre_mature_exit s) (exit_requests s).

Definition set_flit_queueing_latency (v : VecStat.t) (tot : Z) (s : t) : t :=
  mk (m_packets_received s) (m_packets_injected s) (m_packet_network_latency s)
    (m_packet_queueing_latency s) (m_flits_received s) (m_flits_injected s)
    (m_flit_network_latency s) v (m_flt_dist s) (m_network_latency_histogram s)
    (flit_latency s) (flit_network_latency s) (flit_queueing_latency s) (m_total_hops s)
    (m_marked_total_hops s) tot (total_marked_flit_received s) (marked_flt_injected s)
    (marked_flt_received s) (m_max_flit s) (m_min_flit s) (m_max_marked_flit s)
    (m_pre_mature_exit s) (exit_requests s).

Definition set_latency_histogram (h : list Z) (s : t) : t :=
  mk (m_packets_received s) (m_packets_injected s) (m_packet_network_latency s)
    (m_packet_queueing_latency s) (m_flits_received s) (m_flits_injected s)
    (m_flit_network_latency s) (m_flit_queueing_latency s) (m_flt_dist s) h (flit_latency s)
    (flit_network_latency s) (flit_queueing_latency s) (m_total_hops s)
    (m_marked_total_hops s) (total_marked_flit_latency s) (total_marked_flit_received s)
    (marked_flt_injected s) (marked_flt_received s) (m_max_flit s) (m_min_flit s)
    (m_max_marked_flit s) (m_pre_mature_exit s) (exit_requests s).

Definition set_tracks (a : LatTrack.t) (b : LatTrack.t) (c : LatTrack.t) (s : t) : t :=
  mk (m_packets_received s) (m_packets_injected s) (m_packet_network_latency s)
    (m_packet_queueing_latency s) (m_flits_received s) (m_flits_injected s)
    (m_flit_network_latency s) (m_flit_queueing_latency s) (m_flt_dist s)
    (m_network_latency_histogram s) a b c (m_total_hops s) (m_marked_total_hops s)
    (total_marked_flit_latency s) (total_marked_flit_received s) (marked_flt_injected s)
    (marked_flt_received s) (m_max_flit s) (m_min_flit s) (m_max_marked_flit s)
    (m_pre_mature_exit s) (exit_requests s).

Definition set_hops (h : Z) (mh : Z) (s : t) : t :=
  mk (m_packets_received s) (m_packets_injected s) (m_packet_network_latency s)
    (m_packet_queueing_latency s) (m_flits_received s) (m_flits_injected s)
    (m_flit_network_latency s) (m_flit_queueing_latency s) (m_flt_dist s)
    (m_network_latency_histogram s) (flit_latency s) (flit_network_latency s)
    (flit_queueing_latency s) h mh (total_marked_flit_latency s)
    (total_marked_flit_received s) (marked_flt_injected s) (marked_flt_received s)
    (m_max_flit s) (m_min_flit s) (m_max_marked_flit s) (m_pre_mature_exit s)
    (exit_requests s).

Definition set_reported (a : Z * Z * Z) (b : Z * Z * Z) (s : t) : t :=
  mk (m_packets_received s) (m_packets_injected s) (m_packet_network_latency s)
    (m_packet_queueing_latency s) (m_flits_received s) (m_flits_injected s)
    (m_flit_network_latency s) (m_flit_queueing_latency s) (m_flt_dist s)
    (m_network_latency_histogram s) (flit_latency s) (flit_network_latency s)
    (flit_queueing_latency s) (m_total_hops s) (m_marked_total_hops s)
    (total_marked_flit_latency s) (total_marked_flit_received s) (marked_flt_injected s)
    (marked_flt_received s) a b (m_max_marked_flit s) (m_pre_mature_exit s)
    (exit_requests s).

Definition set_reported_marked (a : Z * Z * Z) (s : t) : t :=
  mk (m_packets_received s) (m_packets_injected s) (m_packet_network_latency s)
    (m_packet_queueing_latency s) (m_flits_received s) (m_flits_injected s)
    (m_flit_network_latency s) (m_flit_queueing_latency s) (m_flt_dist s)
    (m_network_latency_histogram s) (flit_latency s) (flit_network_latency s)
    (flit_queueing_latency s) (m_total_hops s) (m_marked_total_hops s)
    (total_marked_flit_latency s) (total_marked_flit_received s) (marked_flt_injected s)
    (marked_flt_received s) (m_max_flit s) (m_min_flit s) a (m_pre_mature_exit s)
    (exit_requests s).

Definition set_exit (n : Z) (l : list string) (s : t) : t :=
  mk (m_packets_received s) (m_packets_injected s) (m_packet_network_latency s)
    (m_packet_queueing_latency s) (m_flits_received s) (m_flits_injected s)
    (m_flit_network_latency s) (m_flit_queueing_latency s) (m_flt_dist s)
    (m_network_latency_histogram s) (flit_latency s) (flit_network_latency s)
    (flit_queueing_latency s) (m_total_hops s) (m_marked_total_hops s)
    (total_marked_flit_latency s) (total_marked_flit_received s) (marked_flt_injected s)
    (marked_flt_received s) (m_max_flit s) (m_min_flit s) (m_max_marked_flit s) n l.

End TrafficStats.

(** ** [struct spinStruct]: a node of the DRAIN ring *)
Module spinStruct.

Record t := mk {
  router_id_ : Z;
  inport_dir_ : PortDirection;
  flit_ : option flit.t
}.

Definition new (id_ : Z) (dirn_ : PortDirection) : t := mk id_ dirn_ None.

Definition set_flit (f : option flit.t) (s : t) : t := mk (router_id_ s) (inport_dir_ s) f.

End spinStruct.

(** ** The state of a run *)
Module Net.

Record t := mk {
  cfg : NetConfig.t;
  curCycle : Z;
  m_routers : list Router.t;
  m_nis : list NetworkInterface.t;
  net_links : list NetworkLink.t;
  credit_links : list NetworkLink.t;
  m_networklinks : list Z;
  m_creditlinks : list Z;
  spinRing : list spinStruct.t;
  lock : Z;
  dstats : DrainStats.t;
  tstats : TrafficStats.t;
  evq : Consumer.t;
  rand_values : nat -> Z;
  rand_pos : nat;
  msgbufs : list MessageBuffer.t
}.

Definition set_curCycle (c : Z) (n : t) : t :=
  mk (cfg n) c (m_routers n) (m_nis n) (net_links n) (credit_links n) (m_networklinks n)
    (m_creditlinks n) (spinRing n) (lock n) (dstats n) (tstats n) (evq n) (rand_values n)
    (rand_pos n) (msgbufs n).

Definition set_routers (l : list Router.t) (n : t) : t :=
  mk (cfg n) (curCycle n) l (m_nis n) (net_links n) (credit_links n) (m_networklinks n)
    (m_creditlinks n) (spinRing n) (lock n) (dstats n) (tstats n) (evq n) (rand_values n)
    (rand_pos n) (msgbufs n).

Definition set_nis (l : list NetworkInterface.t) (n : t) : t :=
  mk (cfg n) (curCycle n) (m_routers n) l (net_links n) (credit_links n) (m_networklinks n)
    (m_creditlinks n) (spinRing n) (lock n) (dstats n) (tstats n) (evq n) (rand_values n)
    (rand_pos n) (msgbufs n).

Definition set_net_links (l : list NetworkLink.t) (n : t) : t :=
  mk (cfg n) (curCycle n) (m_routers n) (m_nis n) l (credit_links n) (m_networklinks n)
    (m_creditlinks n) (spinRing n) (lock n) (dstats n) (tstats n) (evq n) (rand_values n)
    (rand_pos n) (msgbufs n).

Definition set_credit_links (l : list NetworkLink.t) (n : t) : t :=
  mk (cfg n) (curCycle n) (m_routers n) (m_nis n) (net_links n) l (m_networklinks n)
    (m_creditlinks n) (spinRing n) (lock n) (dstats n) (tstats n) (evq n) (rand_values n)
    (rand_pos n) (msgbufs n).

Definition set_link_vectors (nl : list Z) (cl : list Z) (n : t) : t :=
  mk (cfg n) (curCycle n) (m_routers n) (m_nis n) (net_links n) (credit_links n) nl cl
    (spinRing n) (lock n) (dstats n) (tstats n) (evq n) (rand_values n) (rand_pos n)
    (msgbufs n).

Definition set_spinRing (r : list spinStruct.t) (n : t) : t :=
  mk (cfg n) (curCycle n) (m_routers n) (m_nis n) (net_links n) (credit_links n)
    (m_networklinks n) (m_creditlinks n) r (lock n) (dstats n) (tstats n) (evq n)
    (rand_values n) (rand_pos n) (msgbufs n).

Definition set_lock (l : Z) (n : t) : t :=
  mk (cfg n) (curCycle n) (m_routers n) (m_nis n) (net_links n) (credit_links n)
    (m_networklinks n) (m_creditlinks n) (spinRing n) l (dstats n) (tstats n) (evq n)
    (rand_values n) (rand_pos n) (msgbufs n).

Definition set_dstats (d : DrainStats.t) (n : t) : t :=
  mk (cfg n) (curCycle n) (m_routers n) (m_nis n) (net_links n) (credit_links n)
    (m_networklinks n) (m_creditlinks n) (spinRing n) (lock n) d (tstats n) (evq n)
    (rand_values n) (rand_pos n) (msgbufs n).

Definition set_tstats (t_ : TrafficStats.t) (n : t) : t :=
  mk (cfg n) (curCycle n) (m_routers n) (m_nis n) (net_links n) (credit_links n)
    (m_networklinks n) (m_creditlinks n) (spinRing n) (lock n) (dstats n) t_ (evq n)
    (rand_values n) (rand_pos n) (msgbufs n).

Definition set_evq (q : Consumer.t) (n : t) : t :=
  mk (cfg n) (curCycle n) (m_routers n) (m_nis n) (net_links n) (credit_links n)
    (m_networklinks n) (m_creditlinks n) (spinRing n) (lock n) (dstats n) (tstats n) q
    (rand_values n) (rand_pos n) (msgbufs n).

Definition set_rand_pos (p : nat) (n : t) : t :=
  mk (cfg n) (curCycle n) (m_routers n) (m_nis n) (net_links n) (credit_links n)
    (m_networklinks n) (m_creditlinks n) (spinRing n) (lock n) (dstats n) (tstats n) (evq n)
    (rand_values n) p (msgbufs n).

Definition set_msgbufs (l : list MessageBuffer.t) (n : t) : t :=
  mk (cfg n) (curCycle n) (m_routers n) (m_nis n) (net_links n) (credit_links n)
    (m_networklinks n) (m_creditlinks n) (spinRing n) (lock n) (dstats n) (tstats n) (evq n)
    (rand_values n) (rand_pos n) l.

Definition now (n : t) : Z := curCycle n * NetConfig.clk_period (cfg n).

(** [random()] and [rand()] *)
Definition random (n : t) : Z * t := (rand_values n (rand_pos n), set_rand_pos (S (rand_pos n)) n).

Definition router (id : Z) (n : t) : Res Router.t := vec_at (m_routers n) id.

(** [m_router->get_id()] of the router at index [id] of [m_routers]. *)
Definition my_id (id : Z) (n : t) : Res Z := r ← router id n; Ok (Router.m_id r).

Definition upd_router (id : Z) (f : Router.t -> Res Router.t) (n : t) : Res t :=
  l ← vec_upd (m_routers n) id f; Ok (set_routers l n).

Definition upd_input (id inport : Z) (f : InputUnit.t -> Res InputUnit.t) (n : t) : Res t :=
  upd_router id (Router.upd_input inport f) n.

Definition upd_output (id outport : Z) (f : OutputUnit.t -> Res OutputUnit.t) (n : t) : Res t :=
  upd_router id (Router.upd_output outport f) n.

Definition schedule (c : consumer) (delta : Z) (n : t) : t :=
  set_evq (Consumer.scheduleEvent (NetConfig.clk_period (cfg n)) (now n) c delta (evq n)) n.

Definition schedule_at (c : consumer) (tick : Z) (n : t) : t :=
  set_evq (Consumer.scheduleEventAbsolute (now n) c tick (evq n)) n.

(** A pipeline stage of router [id]. *)
Definition on_router (id : Z) (stage : RC.t -> Res RC.t) (n : t) : Res t :=
  r ← router id n;
  c ← stage (RC.mk r (dstats n) (evq n));
  l ← vec_set (m_routers n) id (RC.router c);
  Ok (set_evq (RC.evq c) (set_dstats (RC.stats c) (set_routers l n))).

End Net.
