(* ===== verification/Routing.v ===== *)
(** * Route computation

    Models src/mem/ruby/network/garnet2.0/RoutingUnit.cc and the geometry
    functions of GarnetNetwork.cc it uses ([get_upstreamId],
    [get_upstreamrouter], [get_upstreamOutportDirn]). The direction each
    mesh algorithm picks is a function of the hop counts and signs the code
    computes first; the adaptive ones look at the free virtual channels of
    two neighbours. *)

From S2P Require Import Prelude NetDest Types FlitBuffer Channels RouterCore MsgBuffer NetState.

(** ** Mesh geometry (GarnetNetwork.cc) *)
Module Mesh.

Definition get_upstreamId (num_cols : Z) (inport_dir : PortDirection) (my_id : Z) : Res Z :=
  if bool_decide (inport_dir = "East") then Ok (my_id + 1)
  else if bool_decide (inport_dir = "West") then Ok (my_id - 1)
  else if bool_decide (inport_dir = "North") then Ok (my_id + num_cols)
  else if bool_decide (inport_dir = "South") then Ok (my_id - num_cols)
  else if bool_decide (inport_dir = "Local") then Ok my_id
  else Err (AssertFail "GarnetNetwork.cc:1010").

(** The id of the router, [None] for [NULL]. *)
Definition get_upstreamrouter (inport_dir : PortDirection) (upstream_id : Z) (n : Net.t)
    : Res (option Z) :=
  router_id ← get_upstreamId (NetConfig.m_num_cols (Net.cfg n)) inport_dir upstream_id;
  Ok (if (router_id <? 0) || (router_id >=? zlen (Net.m_routers n)) then None
      else Some router_id).

(** A direction outside the chain leaves the empty string. *)
Definition get_upstreamOutportDirn (inport_dir : PortDirection) : Res PortDirection :=
  if bool_decide (inport_dir = "East") then Ok "West"
  else if bool_decide (inport_dir = "West") then Ok "East"
  else if bool_decide (inport_dir = "North") then Ok "South"
  else if bool_decide (inport_dir = "South") then Ok "North"
  else if bool_decide (inport_dir = "Local") then Err (AssertFail "GarnetNetwork.cc:1046")
  else Ok "".

(** Hop counts and signs between two routers, as every mesh algorithm
    computes them (with its assertions). *)
Record hops := mk_hops { x_hops : Z; y_hops : Z; x_dirn : bool; y_dirn : bool }.

Definition coordinates (net : NetConfig.t) (my_id dest_id : Z) : Res hops :=
  let num_rows := NetConfig.m_num_rows net in
  let num_cols := NetConfig.m_num_cols net in
  _ ← assert_ ((num_rows >? 0) && (num_cols >? 0)) "RoutingUnit.cc:262";
  let my_x := Z.rem my_id num_cols in
  let my_y := Z.quot my_id num_cols in
  let dest_x := Z.rem dest_id num_cols in
  let dest_y := Z.quot dest_id num_cols in
  let x_hops := Z.abs (dest_x - my_x) in
  let y_hops := Z.abs (dest_y - my_y) in
  _ ← assert_ (negb ((x_hops =? 0) && (y_hops =? 0))) "RoutingUnit.cc:279";
  Ok (mk_hops x_hops y_hops (dest_x >=? my_x) (dest_y >=? my_y)).

End Mesh.

(** ** The directions the mesh algorithms choose *)
Module Dirn.
Import Mesh.

Definition XY (h : hops) : Res PortDirection :=
  if x_hops h >? 0 then Ok (if x_dirn h then "East" else "West")
  else if y_hops h >? 0 then Ok (if y_dirn h then "North" else "South")
  else Err (AssertFail "RoutingUnit.cc:297").

(** The two directions of the quadrant of the destination: along x, along y. *)
Definition quadrant_x (h : hops) : PortDirection := if x_dirn h then "East" else "West".
Definition quadrant_y (h : hops) : PortDirection := if y_dirn h then "North" else "South".

Definition Random (h : hops) (rand : Z) : PortDirection :=
  if x_hops h =? 0 then quadrant_y h
  else if y_hops h =? 0 then quadrant_x h
  else if negb (rand =? 0) then quadrant_x h else quadrant_y h.

Definition WestFirst (h : hops) (rand : Z) : PortDirection :=
  if x_hops h =? 0 then quadrant_y h
  else if y_hops h =? 0 then quadrant_x h
  else if negb (x_dirn h) then "West"
  else if y_dirn h then (if negb (rand =? 0) then "East" else "North")
  else (if negb (rand =? 0) then "East" else "South").

(** The comparison of the free virtual channels of two neighbours. *)
Definition adaptive (h : hops) (freeVC_x freeVC_y rand : Z) : PortDirection :=
  if freeVC_x >? freeVC_y then quadrant_x h
  else if freeVC_y >? freeVC_x then quadrant_y h
  else if negb (rand =? 0) then quadrant_x h else quadrant_y h.

End Dirn.

(** ** [RoutingUnit] *)
Module Route.

(** [m_routing_table] entries that serve the destination, folded over. *)
Definition serves (msg_destination : NetDest.t) (link : Z) (ru : RoutingUnit.t) : Res bool :=
  e ← vec_at (RoutingUnit.m_routing_table ru) link;
  NetDest.intersectionIsNotEmpty e msg_destination.

Definition min_weight (msg_destination : NetDest.t) (ru : RoutingUnit.t) : Res Z :=
  foldM (fun link min_weight =>
           b ← serves msg_destination link ru;
           if (b : bool) then
             w ← vec_at (RoutingUnit.m_weight_table ru) link;
             Ok (if w <=? min_weight then w else min_weight)
           else Ok min_weight)
    (range 0 (zlen (RoutingUnit.m_routing_table ru))) INFINITE_.

Definition candidates (msg_destination : NetDest.t) (min_weight : Z) (ru : RoutingUnit.t)
    : Res (list Z) :=
  foldM (fun link output_link_candidates =>
           b ← serves msg_destination link ru;
           if (b : bool) then
             w ← vec_at (RoutingUnit.m_weight_table ru) link;
             Ok (if w =? min_weight then output_link_candidates ++ [link]
                 else output_link_candidates)
           else Ok output_link_candidates)
    (range 0 (zlen (RoutingUnit.m_routing_table ru))) [].

Definition lookupRoutingTable_pref_outport (msg_destination : NetDest.t)
    (ru : RoutingUnit.t) : Res (list Z) :=
  w ← min_weight msg_destination ru;
  l ← candidates msg_destination w ru;
  if zlen l =? 0 then Err (FatalError "No Route exists from this Router.")
  else Ok l.

(** The index of the first largest entry, starting from [max = -1]. *)
Definition argmax (l : list Z) : Z :=
  (fold_left (fun '(i, max, candidate) x =>
                if x >? max then (i + 1, x, i) else (i + 1, max, candidate))
     l (0, -1, -1)).2.

Definition lookupRoutingTable (curCycle vnet : Z) (msg_destination : NetDest.t)
    (r : Router.t) : Res Z :=
  output_link_candidates ←
    lookupRoutingTable_pref_outport msg_destination (Router.m_routing_unit r);
  outport_credit_index ←
    mapM (fun outport_id =>
            o ← vec_at (Router.m_output_unit r) outport_id;
            OutputUnit.getNumFreeVCs curCycle vnet o) output_link_candidates;
  vec_at output_link_candidates (argmax outport_credit_index).

(** [m_outports_dirn2idx[outport_dirn]] of router [id]. *)
Definition port_of (id : Z) (outport_dirn : PortDirection) (n : Net.t) : Res (Z * Net.t) :=
  r ← Net.router id n;
  let '(p, ru) := RoutingUnit.outport_index outport_dirn (Router.m_routing_unit r) in
  n ← Net.upd_router id (fun r => Ok (Router.set_routing_unit ru r)) n;
  Ok (p, n).

Definition outportComputeXY (id : Z) (route : RouteInfo.t) (n : Net.t) : Res (Z * Net.t) :=
  my_id ← Net.my_id id n;
  h ← Mesh.coordinates (Net.cfg n) my_id (RouteInfo.dest_router route);
  d ← Dirn.XY h;
  port_of id d n.

Definition outportComputeRandom (id : Z) (route : RouteInfo.t) (n : Net.t)
    : Res (Z * Net.t) :=
  my_id ← Net.my_id id n;
  h ← Mesh.coordinates (Net.cfg n) my_id (RouteInfo.dest_router route);
  if (Mesh.x_hops h =? 0) || (Mesh.y_hops h =? 0) then port_of id (Dirn.Random h 0) n
  else
    let '(v, n) := Net.random n in
    port_of id (Dirn.Random h (Z.rem v 2)) n.

(** [get_upstreamrouter(dirn, id)->get_numFreeVC(opposite)] *)
Definition neighbour_free (id : Z) (dirn opposite : PortDirection) (n : Net.t)
    : Res (Z * Net.t) :=
  my_id ← Net.my_id id n;
  o ← Mesh.get_upstreamrouter dirn my_id n;
  match o with
  | None => Err (NullDeref "get_upstreamrouter")
  | Some j =>
      r ← Net.router j n;
      '(k, r') ← Router.get_numFreeVC opposite r;
      n ← Net.upd_router j (fun _ => Ok r') n;
      Ok (k, n)
  end.

Definition opposite_x (h : Mesh.hops) : PortDirection := if Mesh.x_dirn h then "West" else "East".
Definition opposite_y (h : Mesh.hops) : PortDirection := if Mesh.y_dirn h then "South" else "North".

Definition adaptive_port (id : Z) (h : Mesh.hops) (rand : Z) (n : Net.t) : Res (Z * Net.t) :=
  '(freeVC_x, n) ← neighbour_free id (Dirn.quadrant_x h) (opposite_x h) n;
  '(freeVC_y, n) ← neighbour_free id (Dirn.quadrant_y h) (opposite_y h) n;
  port_of id (Dirn.adaptive h freeVC_x freeVC_y rand) n.

Definition outportComputeAdaptRand (id : Z) (route : RouteInfo.t) (n : Net.t)
    : Res (Z * Net.t) :=
  my_id ← Net.my_id id n;
  h ← Mesh.coordinates (Net.cfg n) my_id (RouteInfo.dest_router route);
  if Mesh.x_hops h =? 0 then port_of id (Dirn.quadrant_y h) n
  else if Mesh.y_hops h =? 0 then port_of id (Dirn.quadrant_x h) n
  else
    let '(v, n) := Net.random n in
    adaptive_port id h (Z.rem v 2) n.

Definition outportComputeWestFirst (id : Z) (route : RouteInfo.t) (n : Net.t)
    : Res (Z * Net.t) :=
  my_id ← Net.my_id id n;
  h ← Mesh.coordinates (Net.cfg n) my_id (RouteInfo.dest_router route);
  let '(v, n) := Net.random n in
  port_of id (Dirn.WestFirst h (Z.rem v 2)) n.

Definition outportComputeAdaptWestFirst (id : Z) (route : RouteInfo.t) (n : Net.t)
    : Res (Z * Net.t) :=
  my_id ← Net.my_id id n;
  h ← Mesh.coordinates (Net.cfg n) my_id (RouteInfo.dest_router route);
  let '(v, n) := Net.random n in
  if Mesh.x_hops h =? 0 then port_of id (Dirn.quadrant_y h) n
  else if Mesh.y_hops h =? 0 then port_of id (Dirn.quadrant_x h) n
  else if negb (Mesh.x_dirn h) then port_of id "West" n
  else adaptive_port id h (Z.rem v 2) n.

Definition outportComputeCustom (id : Z) (route : RouteInfo.t) (n : Net.t) : Res (Z * Net.t) :=
  Err (AssertFail "RoutingUnit.cc:668").

Definition numFreeVC (id : Z) (dirn_ : PortDirection) (n : Net.t) : Res (Z * Net.t) :=
  my_id ← Net.my_id id n;
  o ← Mesh.get_upstreamrouter dirn_ my_id n;
  match o with
  | None => Ok (0, n)
  | Some _ =>
      if bool_decide (dirn_ = "North") then neighbour_free id dirn_ "South" n
      else if bool_decide (dirn_ = "East") then neighbour_free id dirn_ "West" n
      else if bool_decide (dirn_ = "West") then neighbour_free id dirn_ "East" n
      else if bool_decide (dirn_ = "South") then neighbour_free id dirn_ "North" n
      else Err (AssertFail "RoutingUnit.cc:657")
  end.

Definition table_route (id : Z) (route : RouteInfo.t) (n : Net.t) : Res (Z * Net.t) :=
  r ← Net.router id n;
  p ← lookupRoutingTable (Net.curCycle n) (RouteInfo.vnet route) (RouteInfo.net_dest route) r;
  Ok (p, n).

Definition outportCompute (id : Z) (route : RouteInfo.t) (n : Net.t) : Res (Z * Net.t) :=
  r ← Net.router id n;
  if RouteInfo.dest_router route =? Router.m_id r then table_route id route n
  else
    '(outport, n) ←
      match RoutingAlgorithm_of_int (NetConfig.m_routing_algorithm (Net.cfg n)) with
      | TABLE_ => table_route id route n
      | XY_ => outportComputeXY id route n
      | RANDOM_ => outportComputeRandom id route n
      | ADAPT_RAND_ => outportComputeAdaptRand id route n
      | WestFirst_ => outportComputeWestFirst id route n
      | ADAPT_WestFirst_ => outportComputeAdaptWestFirst id route n
      | CUSTOM_ => outportComputeCustom id route n
      | OTHER_ALGORITHM_ _ => table_route id route n
      end;
    _ ← assert_ (negb (outport =? -1)) "RoutingUnit.cc:245";
    Ok (outport, n).

(** [Router::route_compute] *)
Definition route_compute (id : Z) (route : RouteInfo.t) (inport : Z)
    (inport_dirn : PortDirection) (n : Net.t) : Res (Z * Net.t) := outportCompute id route n.

End Route.
