(* ===== verification/Network.v ===== *)
(** * The network's own operations

    Models, of src/mem/ruby/network/garnet2.0/GarnetNetwork.{hh,cc}: the
    functions that build links between routers and interfaces, the halt and
    wake-up broadcasts, the checks of the DRAIN protocol and the statistics;
    and the parts of InputUnit.cc, OutputUnit.cc and NetworkLink.cc that go
    through a pointer into another object ([wakeup]). *)

From S2P Require Import Prelude NetDest Types FlitBuffer Channels RouterCore MsgBuffer NetState Routing.

(** ** Links and the queues they point to *)
Module Links.

Definition read_queue (q : queue_ref) (n : Net.t) : Res flitBuffer.t :=
  match q with
  | OutQueue id p =>
      r ← Net.router id n; o ← vec_at (Router.m_output_unit r) p;
      Ok (OutputUnit.m_out_buffer o)
  | CreditQueue id p =>
      r ← Net.router id n; u ← vec_at (Router.m_input_unit r) p;
      Ok (InputUnit.creditQueue u)
  | NIFlitQueue i =>
      ni ← vec_at (Net.m_nis n) i; Ok (NetworkInterface.outFlitQueue ni)
  | NICreditQueue i =>
      ni ← vec_at (Net.m_nis n) i; Ok (NetworkInterface.outCreditQueue ni)
  end.

Definition upd_ni (i : Z) (f : NetworkInterface.t -> Res NetworkInterface.t) (n : Net.t)
    : Res Net.t :=
  l ← vec_upd (Net.m_nis n) i f; Ok (Net.set_nis l n).

Definition write_queue (q : queue_ref) (b : flitBuffer.t) (n : Net.t) : Res Net.t :=
  match q with
  | OutQueue id p => Net.upd_output id p (fun o => Ok (OutputUnit.set_out_buffer b o)) n
  | CreditQueue id p => Net.upd_input id p (fun u => Ok (InputUnit.set_creditQueue b u)) n
  | NIFlitQueue i => upd_ni i (fun ni => Ok (NetworkInterface.set_outFlitQueue b ni)) n
  | NICreditQueue i => upd_ni i (fun ni => Ok (NetworkInterface.set_outCreditQueue b ni)) n
  end.

(** [link_srcQueue] is followed, [NetworkLink::wakeup] runs, and the
    consumer is scheduled. *)
Definition source (l : NetworkLink.t) : Res queue_ref :=
  match NetworkLink.link_srcQueue l with
  | Some q => Ok q
  | None => Err (NullDeref "link_srcQueue")
  end.

Definition run_link (l : NetworkLink.t) (n : Net.t) : Res (NetworkLink.t * Net.t) :=
  q ← source l;
  b ← read_queue q n;
  '(b, l, ev) ← NetworkLink.wakeup (Net.curCycle n) b l;
  n ← write_queue q b n;
  Ok (l, match ev with Some (c, k) => Net.schedule c k n | None => n end).

Definition network_link_wakeup (id : Z) (n : Net.t) : Res Net.t :=
  l ← vec_at (Net.net_links n) id;
  '(l, n) ← run_link l n;
  ls ← vec_set (Net.net_links n) id l;
  Ok (Net.set_net_links ls n).

Definition credit_link_wakeup (id : Z) (n : Net.t) : Res Net.t :=
  l ← vec_at (Net.credit_links n) id;
  '(l, n) ← run_link l n;
  ls ← vec_set (Net.credit_links n) id l;
  Ok (Net.set_credit_links ls n).

Definition upd_net_link (id : Z) (f : NetworkLink.t -> NetworkLink.t) (n : Net.t) : Res Net.t :=
  l ← vec_upd (Net.net_links n) id (fun l => Ok (f l)); Ok (Net.set_net_links l n).

Definition upd_credit_link (id : Z) (f : NetworkLink.t -> NetworkLink.t) (n : Net.t)
    : Res Net.t :=
  l ← vec_upd (Net.credit_links n) id (fun l => Ok (f l)); Ok (Net.set_credit_links l n).

End Links.

(** ** Building the network *)
Module Build.
Import Links.

(** [Router::addInPort] and [addOutPort] of router [id]: the links get their
    consumer and their source queue. *)
Definition router_addInPort (id : Z) (inport_dirn : PortDirection) (in_link credit_link : Z)
    (n : Net.t) : Res Net.t :=
  r ← Net.router id n;
  let port_num := zlen (Router.m_input_unit r) in
  n ← upd_net_link in_link (NetworkLink.setLinkConsumer (CRouter (Router.m_id r))) n;
  n ← upd_credit_link credit_link (NetworkLink.setSourceQueue (CreditQueue id port_num)) n;
  Net.upd_router id (fun r => Ok (Router.addInPort inport_dirn in_link credit_link r)) n.

Definition router_addOutPort (id : Z) (outport_dirn : PortDirection) (out_link : Z)
    (routing_table_entry : NetDest.t) (link_weight credit_link : Z) (n : Net.t) : Res Net.t :=
  r ← Net.router id n;
  let port_num := zlen (Router.m_output_unit r) in
  n ← upd_credit_link credit_link (NetworkLink.setLinkConsumer (CRouter (Router.m_id r))) n;
  n ← upd_net_link out_link (NetworkLink.setSourceQueue (OutQueue id port_num)) n;
  Net.upd_router id
    (Router.addOutPort (Net.cfg n) outport_dirn out_link routing_table_entry link_weight
       credit_link) n.

(** [NetworkInterface::addInPort] and [addOutPort]. *)
Definition ni_addInPort (i in_link credit_link : Z) (n : Net.t) : Res Net.t :=
  n ← upd_ni i (fun ni => Ok (NetworkInterface.set_in_port in_link credit_link ni)) n;
  n ← upd_net_link in_link (NetworkLink.setLinkConsumer (CNetworkInterface i)) n;
  upd_credit_link credit_link (NetworkLink.setSourceQueue (NICreditQueue i)) n.

Definition ni_addOutPort (i out_link credit_link router_id : Z) (n : Net.t) : Res Net.t :=
  n ← upd_credit_link credit_link (NetworkLink.setLinkConsumer (CNetworkInterface i)) n;
  n ← upd_ni i (fun ni => Ok (NetworkInterface.set_out_port out_link credit_link
                                flitBuffer.new router_id ni)) n;
  upd_net_link out_link (NetworkLink.setSourceQueue (NIFlitQueue i)) n.

Definition push_links (net_link credit_link : Z) (n : Net.t) : Net.t :=
  Net.set_link_vectors (Net.m_networklinks n ++ [net_link])
    (Net.m_creditlinks n ++ [credit_link]) n.

Definition makeExtInLink (src dest net_link credit_link : Z) (n : Net.t) : Res Net.t :=
  _ ← assert_ (src <? NetConfig.m_nodes (Net.cfg n)) "GarnetNetwork.cc:891";
  n ← upd_net_link net_link (NetworkLink.setType EXT_IN_) n;
  n ← router_addInPort dest "Local" net_link credit_link (push_links net_link credit_link n);
  ni_addOutPort src net_link credit_link dest n.

Definition makeExtOutLink (src dest net_link credit_link : Z)
    (routing_table_entry : NetDest.t) (m_weight : Z) (n : Net.t) : Res Net.t :=
  _ ← assert_ (dest <? NetConfig.m_nodes (Net.cfg n)) "GarnetNetwork.cc:918";
  _ ← assert_ (src <? zlen (Net.m_routers n)) "GarnetNetwork.cc:919";
  n ← upd_net_link net_link (NetworkLink.setType EXT_OUT_) n;
  n ← router_addOutPort src "Local" net_link routing_table_entry m_weight credit_link
        (push_links net_link credit_link n);
  ni_addInPort dest net_link credit_link n.

Definition makeInternalLink (src dest net_link credit_link : Z)
    (routing_table_entry : NetDest.t) (m_weight : Z)
    (src_outport_dirn dst_inport_dirn : PortDirection) (n : Net.t) : Res Net.t :=
  n ← upd_net_link net_link (NetworkLink.setType INT_) n;
  n ← router_addInPort dest dst_inport_dirn net_link credit_link
        (push_links net_link credit_link n);
  router_addOutPort src src_outport_dirn net_link routing_table_entry m_weight credit_link n.

(** [addNode]: the protocol buffers of an interface; the incoming ones get
    the interface as their consumer. *)
Definition addNode (i : Z) (ins outs : list (option Z)) (n : Net.t) : Res Net.t :=
  n ← upd_ni i (fun ni => Ok (NetworkInterface.set_nodes ins outs ni)) n;
  foldM (fun it n =>
           match it with
           | None => Ok n
           | Some b =>
               l ← vec_upd (Net.msgbufs n) b
                     (MessageBuffer.setConsumer (CNetworkInterface i));
               Ok (Net.set_msgbufs l n)
           end) ins n.

Definition getNumRouters (n : Net.t) : Z := zlen (Net.m_routers n).

Definition get_router_id (ni : Z) (n : Net.t) : Res Z :=
  i ← vec_at (Net.m_nis n) ni; Ok (NetworkInterface.m_router_id i).

(** The rows and columns [GarnetNetwork::init] computes. The product of two
    [int]s is compared with a [size_t]. *)
Definition mesh_dimensions (num_rows num_routers : Z) : Res (Z * Z) :=
  if num_rows >? 0 then
    let num_cols := num_routers / num_rows in
    _ ← assert_ (num_rows * num_cols =? num_routers) "GarnetNetwork.cc:534";
    Ok (num_rows, num_cols)
  else Ok (-1, -1).

(** [m_vnet_type] from the names of the virtual networks. *)
Definition vnet_types (names : list string) : list VNET_type :=
  map (fun s => if bool_decide (s = "response") then DATA_VNET_ else CTRL_VNET_) names.

End Build.

(** ** Halting, waking and checking the network *)
Module GarnetNetwork.

Definition set_halt (val : bool) (n : Net.t) : Net.t :=
  Net.set_routers (map (Router.set_halt_ val) (Net.m_routers n)) n.

(** [Router::schedule_wakeup] of every router. *)
Definition scheduleAll_wakeup (k : Z) (n : Net.t) : Net.t :=
  fold_left (fun n r => Net.schedule (CRouter (Router.m_id r)) k n) (Net.m_routers n) n.

Definition scheduleAll_wakeup_next (n : Net.t) : Net.t := scheduleAll_wakeup 1 n.

Definition scheduleAll_wakeup_next_k_cycles (k : Z) (n : Net.t) : Net.t :=
  fold_left (fun n r =>
               fold_left (fun n ii => Net.schedule (CRouter (Router.m_id r)) ii n)
                 (range 0 k) n)
    (Net.m_routers n) n.

Definition schedule_wakeup (time : Z) (n : Net.t) : Net.t := Net.schedule CGarnetNetwork time n.

Definition wakeup (n : Net.t) : Net.t := n.

Definition check_mrkd_flt (n : Net.t) : bool :=
  if existsb (fun r => Router.mrkd_flt_ r >? 0) (Net.m_routers n) then false
  else
    negb (TrafficStats.marked_flt_received (Net.tstats n)
          <? TrafficStats.marked_flt_injected (Net.tstats n)).

(** The output links of one router. *)
Definition router_links_empty (r : Router.t) (links : list NetworkLink.t) (safe : bool)
    : Res bool :=
  foldM (fun outport spin_safe_ =>
           o ← vec_at (Router.m_output_unit r) outport;
           _ ← assert_ (outport =? OutputUnit.m_id o) "GarnetNetwork.cc:855";
           l ← vec_at links (OutputUnit.m_out_link o);
           Ok (if flitBuffer.isEmpty (NetworkLink.linkBuffer l) then spin_safe_ else false))
    (range 0 (Router.get_num_outports r)) safe.

Definition chck_link_state (n : Net.t) : Res bool :=
  foldM (fun r spin_safe_ => router_links_empty r (Net.net_links n) spin_safe_)
    (Net.m_routers n) true.

(** [set_flit_time] for one input port; the others are left alone. *)
Definition is_mesh_direction (dirn_ : PortDirection) : bool :=
  bool_decide (dirn_ = "North") || bool_decide (dirn_ = "South")
  || bool_decide (dirn_ = "East") || bool_decide (dirn_ = "West").

Definition set_flit_time_port (vc_ time : Z) (u : InputUnit.t) : Res InputUnit.t :=
  e ← InputUnit.vc_isEmpty vc_ u;
  if negb e && is_mesh_direction (InputUnit.m_direction u)
  then InputUnit.update_top vc_ (flit.advance_stage SA_ time) u
  else Ok u.

(** [2*m_spin_mult] is an unsigned product. *)
Definition set_flit_time (vc_ : Z) (n : Net.t) : Res Net.t :=
  let time := Net.curCycle n + u32 (2 * NetConfig.m_spin_mult (Net.cfg n)) in
  rs ← mapM (fun r => us ← mapM (set_flit_time_port vc_ time) (Router.m_input_unit r);
                      Ok (Router.set_inputs us r)) (Net.m_routers n);
  Ok (Net.set_routers rs n).

(** [InputUnit::wakeup] of input port [inport] of router [id]. The flit is
    inserted in the virtual channel before its stage is advanced through the
    pointer; the order in the buffer does not depend on the stage. *)
Definition route_head (id inport vc : Z) (u : InputUnit.t) (t_flit : flit.t) (n : Net.t)
    : Res (flit.t * Net.t) :=
  v ← vec_at (InputUnit.m_vcs u) vc;
  if flit.is_head t_flit then
    _ ← assert_ (bool_decide (VirtualChannel.get_state v = IDLE_)) "InputUnit.cc:102";
    n ← Net.upd_input id inport (InputUnit.set_vc_active vc (Net.curCycle n)) n;
    '(outport, n) ← Route.route_compute id (flit.m_route t_flit) (InputUnit.m_id u)
                      (InputUnit.m_direction u) n;
    r ← Net.router id n;
    outdir ← Router.getOutportDirection outport r;
    Ok (flit.set_outport_dir outdir (flit.set_outport outport t_flit), n)
  else
    _ ← assert_ (bool_decide (VirtualChannel.get_state v = ACTIVE_)) "InputUnit.cc:123";
    Ok (t_flit, n).

(** The stage of the buffered flit and the cycles after which the router is
    woken for it. *)
Definition pipeline_delay (r : Router.t) : Res Z :=
  let pipe_stages := Router.m_latency r in
  if pipe_stages =? 1 then Ok 0
  else _ ← assert_ (pipe_stages >? 1) "InputUnit.cc:142"; Ok (pipe_stages - 1).

Definition buffer_flit (vc : Z) (t_flit : flit.t) (u : InputUnit.t) : Res InputUnit.t :=
  u ← InputUnit.upd_vc vc (VirtualChannel.insertFlit t_flit) u;
  let vnet := Z.quot vc (InputUnit.m_vc_per_vnet u) in
  writes ← vec_upd (InputUnit.m_num_buffer_writes u) vnet (fun x => Ok (x + 1));
  reads ← vec_upd (InputUnit.m_num_buffer_reads u) vnet (fun x => Ok (x + 1));
  Ok (InputUnit.set_activity writes reads u).

Definition input_wakeup (id inport : Z) (n : Net.t) : Res Net.t :=
  r ← Net.router id n;
  u ← vec_at (Router.m_input_unit r) inport;
  l ← vec_at (Net.net_links n) (InputUnit.m_in_link u);
  ready ← NetworkLink.isReady (Net.curCycle n) l;
  if negb ready then Ok n
  else
    '(t_flit, l) ← NetworkLink.consumeLink l;
    n ← Links.upd_net_link (InputUnit.m_in_link u) (fun _ => l) n;
    let vc := flit.m_vc t_flit in
    '(t_flit, n) ← route_head id inport vc u (flit.increment_hops t_flit) n;
    wait_time ← pipeline_delay r;
    let t_flit := flit.advance_stage SA_ (Net.curCycle n + wait_time) t_flit in
    n ← Net.upd_input id inport (buffer_flit vc t_flit) n;
    Ok (if wait_time =? 0 then n else Net.schedule (CRouter (Router.m_id r)) wait_time n).

(** [OutputUnit::wakeup] of output port [outport] of router [id]. *)
Definition output_wakeup (id outport : Z) (n : Net.t) : Res Net.t :=
  r ← Net.router id n;
  o ← vec_at (Router.m_output_unit r) outport;
  l ← vec_at (Net.credit_links n) (OutputUnit.m_credit_link o);
  '(l, o') ← OutputUnit.wakeup (Net.curCycle n) l o;
  n ← Links.upd_credit_link (OutputUnit.m_credit_link o) (fun _ => l) n;
  Net.upd_output id outport (fun _ => Ok o') n.

Definition input_units_wakeup (id : Z) (n : Net.t) : Res Net.t :=
  r ← Net.router id n;
  foldM (input_wakeup id) (range 0 (Router.get_num_inports r)) n.

Definition output_units_wakeup (id : Z) (n : Net.t) : Res Net.t :=
  r ← Net.router id n;
  foldM (output_wakeup id) (range 0 (Router.get_num_outports r)) n.

Definition wakeup_all_input_unit (n : Net.t) : Res Net.t :=
  foldM input_units_wakeup (range 0 (zlen (Net.m_routers n))) n.

Definition wakeup_all_output_unit (n : Net.t) : Res Net.t :=
  foldM output_units_wakeup (range 0 (zlen (Net.m_routers n))) n.

(** [functionalWrite]: routers, interfaces and links. *)
Definition functionalWrite {Packet : Type}
    (msg_write : Packet -> Message.t -> bool * Message.t)
    (ni_write : Packet -> NetworkInterface.t -> Res (Z * NetworkInterface.t))
    (pkt : Packet) (n : Net.t) : Res (Z * Net.t) :=
  '(k, rs) ← foldM (fun r '(k, l) => '(w, r') ← Router.functionalWrite msg_write pkt r;
                 Ok (u32 (k + w), l ++ [r'])) (Net.m_routers n) (0, []);
  '(k, nis) ← foldM (fun i '(k, l) => '(w, i') ← ni_write pkt i;
                 Ok (u32 (k + w), l ++ [i'])) (Net.m_nis n) (k, []);
  let n := Net.set_nis nis (Net.set_routers rs n) in
  foldM (fun id '(k, n) =>
           l ← vec_at (Net.net_links n) id;
           '(w, l') ← NetworkLink.functionalWrite msg_write pkt l;
           n ← Links.upd_net_link id (fun _ => l') n;
           Ok (u32 (k + w), n)) (Net.m_networklinks n) (k, n).

End GarnetNetwork.

(** ** Statistics of GarnetNetwork.hh *)
Module NetStats.
Import TrafficStats.

Definition upd (f : TrafficStats.t -> Res TrafficStats.t) (n : Net.t) : Res Net.t :=
  s ← f (Net.tstats n); Ok (Net.set_tstats s n).

Definition update_flit_latency_histogram (latency : Z) (marked : bool) (s : t) : t :=
  set_tracks (LatTrack.update latency marked (flit_latency s)) (flit_network_latency s)
    (flit_queueing_latency s) s.

Definition update_flit_network_latency_histogram (latency : Z) (marked : bool) (s : t) : t :=
  set_tracks (flit_latency s) (LatTrack.update latency marked (flit_network_latency s))
    (flit_queueing_latency s) s.

Definition update_flit_queueing_latency_histogram (latency : Z) (marked : bool) (s : t) : t :=
  set_tracks (flit_latency s) (flit_network_latency s)
    (LatTrack.update latency marked (flit_queueing_latency s)) s.

Definition increment_injected_packets (vnet : Z) (marked : bool) (s : t) : Res t :=
  v ← VecStat.add vnet 1 marked (m_packets_injected s);
  Ok (set_packets_injected v s).

Definition increment_received_packets (vnet : Z) (marked : bool) (s : t) : Res t :=
  v ← VecStat.add vnet 1 marked (m_packets_received s);
  Ok (set_packets_received v s).

Definition update_network_latency_histogram (latency : Z) (s : t) : Res t :=
  let index := s32 (latency / 5) in
  h ← vec_upd (m_network_latency_histogram s) (if index <? 20 then index else 20)
        (fun x => Ok (x + 1));
  Ok (set_latency_histogram h s).

Definition increment_packet_network_latency (latency vnet : Z) (marked : bool) (s : t) : Res t :=
  v ← VecStat.add vnet latency marked (m_packet_network_latency s);
  Ok (set_packet_network_latency v s).

Definition increment_packet_queueing_latency (latency vnet : Z) (marked : bool) (s : t)
    : Res t :=
  v ← VecStat.add vnet latency marked (m_packet_queueing_latency s);
  Ok (set_packet_queueing_latency v s).

Definition increment_injected_flits (vnet : Z) (marked : bool) (m_router_id : Z) (s : t)
    : Res t :=
  v ← VecStat.add vnet 1 marked (m_flits_injected s);
  d ← VecStat.add m_router_id 1 marked (m_flt_dist s);
  Ok (set_flits_injected v d
        (if marked then u64 (marked_flt_injected s + 1) else marked_flt_injected s) s).

(** The largest and smallest latencies copied to the reported statistics. *)
Definition report (s : t) : t :=
  set_reported
    (LatTrack.max_ (flit_latency s), LatTrack.max_ (flit_network_latency s),
     LatTrack.max_ (flit_queueing_latency s))
    (LatTrack.min_ (flit_latency s), LatTrack.min_ (flit_network_latency s),
     LatTrack.min_ (flit_queueing_latency s)) s.

Definition report_marked (s : t) : t :=
  set_reported_marked
    (LatTrack.marked_max (flit_latency s), LatTrack.marked_max (flit_network_latency s),
     LatTrack.marked_max (flit_queueing_latency s)) s.

Definition exitSimLoop (why : string) (s : t) : t :=
  set_exit (m_pre_mature_exit s) (exit_requests s ++ [why]) s.

Definition count_received (vnet : Z) (marked : bool) (s : t) : Res t :=
  v ← VecStat.add vnet 1 marked (m_flits_received s);
  Ok (report (set_flits_received v
        (if marked then u64 (total_marked_flit_received s + 1)
         else total_marked_flit_received s)
        (if marked then u64 (marked_flt_received s + 1) else marked_flt_received s) s)).

Definition increment_received_flits (vnet : Z) (marked : bool) (n : Net.t) : Res Net.t :=
  n ← upd (count_received vnet marked) n;
  if marked && GarnetNetwork.check_mrkd_flt n then
    let s := Net.tstats n in
    _ ← assert_ (marked_flt_injected s =? marked_flt_received s) "GarnetNetwork.hh:278";
    upd (fun s => Ok (exitSimLoop "All marked packet received." (report_marked s))) n
  else Ok n.

Definition increment_flit_network_latency (latency vnet : Z) (marked : bool) (s : t) : Res t :=
  v ← VecStat.add vnet latency marked (m_flit_network_latency s);
  Ok (set_flit_network_latency v
        (if marked then u64 (total_marked_flit_latency s + latency)
         else total_marked_flit_latency s) s).

Definition increment_flit_queueing_latency (latency vnet : Z) (marked : bool) (s : t) : Res t :=
  v ← VecStat.add vnet latency marked (m_flit_queueing_latency s);
  Ok (set_flit_queueing_latency v
        (if marked then u64 (total_marked_flit_latency s + latency)
         else total_marked_flit_latency s) s).

Definition increment_total_hops (hops : Z) (marked : bool) (s : t) : t :=
  set_hops (m_total_hops s + hops)
    (if marked then m_marked_total_hops s + hops else m_marked_total_hops s) s.

(** [(double) latency / (double) received > 1000.0], with the quotient of
    two integers below 2^53; a quotient 0/0 is not larger than anything, a
    quotient x/0 with x > 0 is infinite. *)
Definition average_exceeds (bound latency received : Z) : bool :=
  if received =? 0 then 0 <? latency else bound * received <? latency.

Definition check_network_saturation (curCycle : Z) (s : t) : t :=
  let s := if average_exceeds 1000 (total_marked_flit_latency s) (total_marked_flit_received s)
           then exitSimLoop "avg flit latency exceeded threshold!." s else s in
  if curCycle >? 1000000
  then exitSimLoop "Simulation exceed its cycle quota!"
         (set_exit (m_pre_mature_exit s + 1) (exit_requests s) s)
  else s.

(** [collateStats] sums the links' utilization by type. *)
Definition link_utilization (type : link_type) (links : list NetworkLink.t)
    (ids : list Z) : Res Z :=
  foldM (fun id total =>
           l ← vec_at links id;
           Ok (if bool_decide (NetworkLink.m_type l = type)
               then total + NetworkLink.m_link_utilized l else total)) ids 0.

End NetStats.
