(* ===== verification/Spin.v ===== *)
(** * The DRAIN ring

    Models, of src/mem/ruby/network/garnet2.0/GarnetNetwork.cc,
    [init_spinRing] (the ring read from the spin file) and [doSpin] (one
    synchronised rotation of the flits of a virtual channel along the
    ring). *)

From S2P Require Import Prelude NetDest Types FlitBuffer Channels RouterCore MsgBuffer NetState Routing Network.
From Stdlib Require Import Ascii.

(** ** [std::stoi] on a token (which holds no white space) *)
Module Stoi.

Definition digit (c : ascii) : option Z :=
  let n := Z.of_nat (nat_of_ascii c) in
  if (48 <=? n) && (n <=? 57) then Some (n - 48) else None.

(** The value of the longest prefix of digits. *)
Fixpoint digits (acc : Z) (s : string) : Z :=
  match s with
  | EmptyString => acc
  | String c s' =>
      match digit c with
      | Some d => digits (10 * acc + d) s'
      | None => acc
      end
  end.

Definition starts_with_digit (s : string) : bool :=
  match s with
  | EmptyString => false
  | String c _ => match digit c with Some _ => true | None => false end
  end.

Definition stoi (s : string) : Res Z :=
  let '(sign, rest) :=
    match s with
    | String "-" s' => (-1, s')
    | String "+" s' => (1, s')
    | _ => (1, s)
    end in
  if starts_with_digit rest then
    let v := sign * digits 0 rest in
    if (- 2 ^ 31 <=? v) && (v <? 2 ^ 31) then Ok v
    else Err (OutOfRange "stoi")
  else Err (InvalidArgument "stoi").

End Stoi.

(** ** [init_spinRing] *)
Module SpinRing.

Definition direction_name (data1 : string) : Res PortDirection :=
  if bool_decide (data1 = "N") || bool_decide (data1 = "n") then Ok "North"
  else if bool_decide (data1 = "E") || bool_decide (data1 = "e") then Ok "East"
  else if bool_decide (data1 = "S") || bool_decide (data1 = "s") then Ok "South"
  else if bool_decide (data1 = "W") || bool_decide (data1 = "w") then Ok "West"
  else Err (FatalError "Illegal direction name or format").

(** The body of the loop after the two reads: the node and the translated
    [data1], which keeps its value for the next iteration. *)
Definition ring_node (data data1 : string) : Res spinStruct.t :=
  d ← direction_name data1;
  id ← Stoi.stoi data;
  Ok (spinStruct.new id d).

(** [while (!infile.eof()) { infile >> data; infile >> data1; ... }]. A read
    that finds no token leaves its variable as it was and sets [eof]; a read
    whose token ends the file sets [eof] too. [tokens] are the tokens left,
    [trailing] says whether white space follows the last one. *)
Fixpoint read_ring (trailing : bool) (tokens : list string) (data data1 : string)
    : Res (list spinStruct.t) :=
  match tokens with
  | [] => s ← ring_node data data1; Ok [s]
  | [t] => s ← ring_node t data1; Ok [s]
  | t :: d :: rest =>
      s ← ring_node t d;
      match rest, trailing with
      | [], false => Ok [s]
      | _, _ =>
          l ← read_ring trailing rest t (spinStruct.inport_dir_ s);
          Ok (s :: l)
      end
  end.

Definition close_ring (m_num_rows : Z) (nodes : list spinStruct.t) : Res (list spinStruct.t) :=
  match last nodes with
  | None => Err (AssertFail "GarnetNetwork.cc:235")
  | Some lst =>
      if spinStruct.router_id_ lst =? 1 then
        let s0 := spinStruct.new 0 "East" in Ok (s0 :: nodes ++ [s0])
      else if spinStruct.router_id_ lst =? m_num_rows then
        let s0 := spinStruct.new 0 "North" in Ok (s0 :: nodes ++ [s0])
      else Err (AssertFail "GarnetNetwork.cc:235")
  end.

(** [None] is a file that cannot be opened. *)
Definition init_spinRing (m_num_rows : Z) (file : option (list string * bool))
    : Res (list spinStruct.t) :=
  match file with
  | None => Err (FatalError "Couldn't open the file")
  | Some (tokens, trailing) =>
      nodes ← read_ring trailing tokens "" "";
      close_ring m_num_rows nodes
  end.

End SpinRing.

(** ** [doSpin] *)
Module Spin.

(** [m_inports_dirn2idx[dirn]] of router [id]. *)
Definition inport_of (id : Z) (dirn : PortDirection) (n : Net.t) : Res (Z * Net.t) :=
  r ← Net.router id n;
  let '(p, ru) := RoutingUnit.inport_index dirn (Router.m_routing_unit r) in
  n ← Net.upd_router id (fun r => Ok (Router.set_routing_unit ru r)) n;
  Ok (p, n).

Definition input (id inport : Z) (n : Net.t) : Res InputUnit.t :=
  r ← Net.router id n; vec_at (Router.m_input_unit r) inport.

(** The packets to be moved: occupied [vc_] of input ports that are not
    [Local]. *)
Definition count_port (vc_ : Z) (r : Router.t) (inport : Z) : Res bool :=
  u ← vec_at (Router.m_input_unit r) inport;
  _ ← assert_ (inport =? InputUnit.m_id u) "GarnetNetwork.cc:259";
  if bool_decide (InputUnit.m_direction u = "Local") then Ok false
  else e ← InputUnit.vc_isEmpty vc_ u; Ok (negb e).

Definition count_packets (vc_ : Z) (n : Net.t) : Res Z :=
  foldM (fun r spun_pkt_num =>
           k ← countM (count_port vc_ r) (range 0 (Router.get_num_inports r));
           Ok (spun_pkt_num + k))
    (Net.m_routers n) 0.

(** Whether one of the preferred output ports of the flit leads to the next
    router of the ring. *)
Definition makes_progress (pref_outport : list Z) (r : Router.t) (num_cols next_id : Z)
    : Res bool :=
  o ← findM (fun p =>
               next_hop_dir_ ← Router.getOutportDirection p r;
               pref_router_id ← Mesh.get_upstreamId num_cols next_hop_dir_ (Router.m_id r);
               _ ← assert_ (negb (pref_router_id =? -1)) "GarnetNetwork.cc:309";
               Ok (pref_router_id =? next_id)) pref_outport;
  Ok (match o with Some _ => true | None => false end).

(** The output port that feeds input port [inport_dir] of router [id], and
    an update of its virtual-channel state. *)
Definition on_upstream (id : Z) (inport_dir : PortDirection) (where_ : string)
    (f : OutputUnit.t -> Res OutputUnit.t) (n : Net.t) : Res Net.t :=
  my_id ← Net.my_id id n;
  o ← Mesh.get_upstreamrouter inport_dir my_id n;
  match o with
  | None => Err (AssertFail where_)
  | Some j =>
      outportDirn ← Mesh.get_upstreamOutportDirn inport_dir;
      '(outport, n) ← Route.port_of j outportDirn n;
      Net.upd_output j outport f n
  end.

Definition free_outvc (vc_ curCycle : Z) (o : OutputUnit.t) : Res OutputUnit.t :=
  o ← OutputUnit.increment_credit vc_ o;
  OutputUnit.set_vc_state IDLE_ vc_ curCycle o.

Definition occupy_outvc (vc_ curCycle : Z) (o : OutputUnit.t) : Res OutputUnit.t :=
  o ← OutputUnit.decrement_credit vc_ o;
  OutputUnit.set_vc_state ACTIVE_ vc_ curCycle o.

Definition set_ring_flit (idx : Z) (f : option flit.t) (n : Net.t) : Res Net.t :=
  l ← vec_upd (Net.spinRing n) idx (fun s => Ok (spinStruct.set_flit f s));
  Ok (Net.set_spinRing l n).

Definition add_spin (spins fwd mis bub : Z) (n : Net.t) : Net.t :=
  Net.set_dstats (DrainStats.add_spin spins fwd mis bub (Net.dstats n)) n.

(** Stage 1, an occupied virtual channel: the flit leaves it for the next
    node of the ring, and the upstream output port gets its credit back. *)
Definition take_flit (vc_ idx inport : Z) (node : spinStruct.t) (n : Net.t) : Res Net.t :=
  let id := spinStruct.router_id_ node in
  r ← Net.router id n;
  u ← vec_at (Router.m_input_unit r) inport;
  t_flit ← InputUnit.peekTopFlit vc_ u;
  pref_outport ← Route.lookupRoutingTable_pref_outport
                   (RouteInfo.net_dest (flit.m_route t_flit)) (Router.m_routing_unit r);
  '(t_flit, u') ← InputUnit.getTopFlit vc_ u;
  n ← Net.upd_input id inport (fun _ => Ok u') n;
  next ← vec_at (Net.spinRing n) (idx + 1);
  fwd ← makes_progress pref_outport r (NetConfig.m_num_cols (Net.cfg n))
          (spinStruct.router_id_ next);
  let n := if (fwd : bool) then add_spin 0 1 0 0 n else add_spin 0 0 1 0 n in
  _ ← assert_ (flit.hops_needed_before_spin t_flit =? -1) "GarnetNetwork.cc:324";
  let t_flit := flit.set_hops_needed (Router.compute_hops_remaining (Net.cfg n) t_flit r)
                  (flit.hops_needed_after_spin t_flit) t_flit in
  n ← set_ring_flit (idx + 1) (Some t_flit) n;
  n ← Net.upd_input id inport (InputUnit.set_vc_idle vc_ (Net.curCycle n)) n;
  on_upstream id (spinStruct.inport_dir_ node) "GarnetNetwork.cc:337"
    (free_outvc vc_ (Net.curCycle n)) n.

Definition remove_stage (vc_ idx : Z) (st : Z * Net.t) : Res (Z * Net.t) :=
  let '(num_pkts, n) := st in
  node ← vec_at (Net.spinRing n) idx;
  '(inport, n) ← inport_of (spinStruct.router_id_ node) (spinStruct.inport_dir_ node) n;
  u ← input (spinStruct.router_id_ node) inport n;
  e ← InputUnit.vc_isEmpty vc_ u;
  if (e : bool) then
    n ← set_ring_flit (idx + 1) None n;
    Ok (num_pkts, add_spin 0 0 0 1 n)
  else
    n ← take_flit vc_ idx inport node n;
    Ok (num_pkts + 1, n).

(** Stage 2: the flit of a node is routed again and put into the virtual
    channel of that node, whose upstream output port loses a credit. *)
Definition place_flit (vc_ inport : Z) (node : spinStruct.t) (t_flit : flit.t) (n : Net.t)
    : Res Net.t :=
  let id := spinStruct.router_id_ node in
  '(outport, n) ← Route.route_compute id (flit.m_route t_flit) inport
                    (spinStruct.inport_dir_ node) n;
  r ← Net.router id n;
  _ ← assert_ (u64 outport <? zlen (Router.m_output_unit r)) "GarnetNetwork.cc:376";
  outdir ← Router.getOutportDirection outport r;
  let t_flit := flit.increment_hops
                  (flit.set_outport_dir outdir (flit.set_outport outport t_flit)) in
  _ ← assert_ (flit.hops_needed_after_spin t_flit =? -1) "GarnetNetwork.cc:387";
  let after := Router.compute_hops_remaining (Net.cfg n) t_flit r in
  let before := flit.hops_needed_before_spin t_flit in
  let n := if after >? before
           then Net.set_dstats (DrainStats.add_uturn 0 0 (after - before) (Net.dstats n)) n
           else n in
  let t_flit := flit.set_hops_needed (-1) (-1) t_flit in
  n ← Net.upd_input id inport (InputUnit.upd_vc vc_ (VirtualChannel.insertFlit t_flit)) n;
  u ← input id inport n;
  v ← vec_at (InputUnit.m_vcs u) vc_;
  _ ← assert_ (bool_decide (VirtualChannel.get_state v = IDLE_)) "GarnetNetwork.cc:397";
  n ← Net.upd_input id inport (InputUnit.set_vc_active vc_ (Net.curCycle n)) n;
  on_upstream id (spinStruct.inport_dir_ node) "GarnetNetwork.cc:405"
    (occupy_outvc vc_ (Net.curCycle n)) n.

Definition insert_stage (vc_ idx : Z) (st : Z * Net.t) : Res (Z * Net.t) :=
  let '(num_pkts, n) := st in
  node ← vec_at (Net.spinRing n) idx;
  match spinStruct.flit_ node with
  | None => Ok (num_pkts, n)
  | Some t_flit =>
      '(inport, n) ← inport_of (spinStruct.router_id_ node) (spinStruct.inport_dir_ node) n;
      r ← Net.router (spinStruct.router_id_ node) n;
      _ ← assert_ (u64 inport <? zlen (Router.m_input_unit r)) "GarnetNetwork.cc:368";
      n ← place_flit vc_ inport node t_flit n;
      Ok (num_pkts - 1, n)
  end.

(** [spinRing.size() - 1] of an empty ring is the largest [size_t], and the
    first iteration is outside the vector. The last loop of [doSpin] assigns
    to copies of the nodes and changes nothing. *)
Definition doSpin (vc_ : Z) (n : Net.t) : Res Net.t :=
  spun_pkt_num ← count_packets vc_ n;
  let n := add_spin 1 0 0 0 n in
  let size := zlen (Net.spinRing n) in
  if size =? 0 then Err (OutOfRange "spinRing")
  else
    '(num_pkts, n) ← foldM (remove_stage vc_) (range 0 (size - 1)) (0, n);
    _ ← assert_ (spun_pkt_num =? num_pkts) "GarnetNetwork.cc:350";
    '(num_pkts, n) ← foldM (insert_stage vc_) (range 1 size) (num_pkts, n);
    _ ← assert_ (num_pkts =? 0) "GarnetNetwork.cc:422";
    Ok n.

End Spin.
