(* ===== verification/Example.v ===== *)
(** * A 2x2 mesh

    The concrete network at which theorems are instantiated: four routers
    with one interface each, built link by link with the modelled
    [makeExtInLink], [makeExtOutLink] and [makeInternalLink], and the DRAIN
    ring read with the modelled [init_spinRing] from the tokens of a spin
    file that visits each of the eight directed mesh links once. *)

From S2P Require Import Prelude NetDest NetDestFacts Types FlitBuffer Channels RouterCore MsgBuffer NetState Routing Network Spin.

Module Example.

(** One machine type with four machines. *)
Definition mt : MachineTypes := {|
  MachineType_NUM := 1;
  MachineType_base_level := fun i => i;
  MachineType_base_count := fun i => 4;
  MachineType_base_number := fun i => 4 * i
|}.

#[export] Instance mt_ok : MachineTypesOk mt.
Proof. split; cbn; intros; unfold NUMBER_BITS_PER_SET; lia. Defined.

(** The set of the nodes in a bit mask. *)
Definition dests (mask : Z) : NetDest.t := NetDest.mk [NodeSet.mk 4 mask].

Definition cfg_with (algorithm : Z) (ordered : bool) : NetConfig.t :=
  NetConfig.mk 2 2 1 2 1 1 algorithm [ordered] [CTRL_VNET_] true 1024 1 0 1 1 0 0 "rr" 4 1 mt
    (dests 0) (flit.mk_indet false false HEAD_TAIL_ 0).

Definition cfg : NetConfig.t := cfg_with 0 false.

Definition vec1 : VecStat.t := VecStat.mk [0] [0].

Definition tstats0 : TrafficStats.t :=
  TrafficStats.mk vec1 vec1 vec1 vec1 vec1 vec1 vec1 vec1
    (VecStat.mk [0; 0; 0; 0] [0; 0; 0; 0]) (replicate 21 0) LatTrack.zero LatTrack.zero
    LatTrack.zero 0 0 0 0 0 0 (0, 0, 0) (0, 0, 0) (0, 0, 0) 0 [].

Definition unlinked (c : NetConfig.t) : Net.t :=
  Net.mk c 0 (map (fun i => Router.new i 1 1 2 0) [0; 1; 2; 3])
    (map (fun i => NetworkInterface.new i 1 2 50000) [0; 1; 2; 3])
    (map (fun i => NetworkLink.new i 1 2 1) (range 0 16))
    (map (fun i => NetworkLink.new i 1 2 1) (range 0 16))
    [] [] [] (-1) DrainStats.zero tstats0 (Consumer.mk [] ∅) (fun _ => 0) 0
    (map (fun _ => MessageBuffer.set_consumer_ (Some CGarnetNetwork)
                     (MessageBuffer.new 0 false false)) [0; 1; 2; 3]
     ++ map (fun _ => MessageBuffer.new 0 false false) [0; 1; 2; 3]).

(** Interface [i] and router [i], by links [2i] and [2i+1]. *)
Definition ext_links (i : Z) (n : Net.t) : Res Net.t :=
  n ← Build.makeExtInLink i i (2 * i) (2 * i) n;
  Build.makeExtOutLink i i (2 * i + 1) (2 * i + 1) (dests (2 ^ i)) 1 n.

(** (source, destination, output direction, input direction, nodes served). *)
Definition int_links : list (Z * Z * (string * string) * Z) :=
  [(0, 1, ("East", "West"), 10); (1, 0, ("West", "East"), 5);
   (2, 3, ("East", "West"), 10); (3, 2, ("West", "East"), 5);
   (0, 2, ("North", "South"), 12); (2, 0, ("South", "North"), 3);
   (1, 3, ("North", "South"), 12); (3, 1, ("South", "North"), 3)].

Definition link_all (n : Net.t) : Res Net.t :=
  n ← foldM ext_links [0; 1; 2; 3] n;
  n ← foldM (fun '(k, (s, d, (od, id), mask)) n =>
               Build.makeInternalLink s d (8 + k) (8 + k) (dests mask) 1 od id n)
        (zip (range 0 8) int_links) n;
  nis ← mapM (NetworkInterface.init (Net.cfg n)) (Net.m_nis n);
  n ← foldM (fun i n => Build.addNode i [Some (4 + i)] [Some i] n) [0; 1; 2; 3] (Net.set_nis nis n);
  Ok (Net.set_routers (map Router.init (Net.m_routers n)) n).

(** The tokens of the spin file, which has no trailing white space. *)
Definition spin_file : list string :=
  ["2"; "S"; "3"; "W"; "1"; "N"; "3"; "S"; "2"; "E"; "0"; "N"; "1"; "W"].

Definition build (c : NetConfig.t) : Res Net.t :=
  n ← link_all (unlinked c);
  ring ← SpinRing.init_spinRing 2 (Some (spin_file, false));
  Ok (Net.set_spinRing ring n).

Definition unwrap {A} (d : A) (m : Res A) : A := match m with Ok a => a | Err _ => d end.

(** The networks for table routing and for a mesh algorithm. *)
Definition net_with (c : NetConfig.t) : Net.t := unwrap (unlinked c) (build c).

Definition net : Net.t := net_with cfg.

Lemma build_ok : is_ok (build cfg) = true.
Proof. vm_compute. reflexivity. Qed.

(** A flit of one-flit packet [id] for node [dest], ready for the switch in
    cycle [time]. *)
Definition packet (id dest time : Z) : flit.t :=
  let m := Message.new 0 (dests (2 ^ dest)) id in
  flit.advance_stage SA_ time
    (flit.new (flit.mk_indet false false HEAD_TAIL_ 0) 0 0 0
       (RouteInfo.mk 0 (dests (2 ^ dest)) 0 0 dest dest 0) 1 m time false).

(** The protocol enqueues a message for the nodes of [mask] into the buffer
    of interface [i]. *)
Definition send_message (i mask : Z) (n : Net.t) : Res Net.t :=
  mb ← vec_at (Net.msgbufs n) (4 + i);
  '(mb, ev) ← MessageBuffer.enqueue false false 0 (Message.new 0 (dests mask) 42) (Net.now n) 1 mb;
  l ← vec_set (Net.msgbufs n) (4 + i) mb;
  Ok (Net.schedule_at ev.1 ev.2 (Net.set_msgbufs l n)).

(** The packet is put into virtual channel [vc] of input port [p] of router
    [id], as a flit that came from upstream with the credit taken. *)
Definition occupy (id p vc outport : Z) (outdir : string) (f : flit.t) (n : Net.t) : Res Net.t :=
  n ← Net.upd_input id p (InputUnit.upd_vc vc (VirtualChannel.insertFlit
        (flit.set_outport_dir outdir (flit.set_outport outport f)))) n;
  n ← Net.upd_input id p (InputUnit.set_vc_active vc 0) n;
  r ← Net.router id n;
  u ← vec_at (Router.m_input_unit r) p;
  Spin.on_upstream id (InputUnit.m_direction u) "" (Spin.occupy_outvc vc 0) n.

End Example.
