(* ===== verification/RoutingFacts.v ===== *)
(** * Routing: theorems

    The mesh algorithms are minimal and reach the destination; west-first
    and XY obey their turn restrictions; the routing table gives a port of
    least weight with the most free virtual channels. *)

From S2P Require Import Prelude NetDest Types FlitBuffer Channels ChannelFacts RouterCore MsgBuffer NetState Routing.

(** ** Mesh geometry *)

Section MeshGeometry.
Variable cols : Z.
Hypothesis Hcols : 0 < cols.

Definition xpos (id : Z) : Z := id mod cols.
Definition ypos (id : Z) : Z := id / cols.

(** Hops between two routers. *)
Definition distance (a b : Z) : Z := Z.abs (xpos b - xpos a) + Z.abs (ypos b - ypos a).

Lemma pos_id id : id = ypos id * cols + xpos id.
Proof. unfold xpos, ypos. pose proof (Z.div_mod id cols). lia. Qed.

Lemma xpos_bound id : 0 <= xpos id < cols.
Proof. unfold xpos. apply Z.mod_pos_bound. lia. Qed.

Lemma pos_unique id x y : 0 <= x < cols -> id = y * cols + x -> xpos id = x /\ ypos id = y.
Proof.
  intros Hx ->. unfold xpos, ypos. split.
  - rewrite Z.add_comm, Z.mod_add by lia. apply Z.mod_small. lia.
  - rewrite Z.div_add_l by lia. rewrite Z.div_small by lia. lia.
Qed.

Lemma distance_zero a b : distance a b = 0 <-> a = b.
Proof.
  unfold distance. split; [|intros ->; lia].
  intros H. rewrite (pos_id a), (pos_id b). assert (xpos a = xpos b) as -> by lia.
  assert (ypos a = ypos b) as -> by lia. done.
Qed.

End MeshGeometry.

(** A mesh of [rows] times [cols] routers. *)
Definition in_mesh (net : NetConfig.t) (id : Z) : Prop :=
  0 <= id < NetConfig.m_num_rows net * NetConfig.m_num_cols net.

Definition mesh_ok (net : NetConfig.t) : Prop :=
  0 < NetConfig.m_num_rows net /\ 0 < NetConfig.m_num_cols net.

(** The direction an algorithm picks from the hop counts, the random bit and
    the free virtual channels of the two neighbours. *)
Definition mesh_dirn (a : RoutingAlgorithm) (h : Mesh.hops) (rand freeVC_x freeVC_y : Z)
    : option PortDirection :=
  match a with
  | XY_ => match Dirn.XY h with Ok d => Some d | Err _ => None end
  | RANDOM_ => Some (Dirn.Random h rand)
  | ADAPT_RAND_ =>
      Some (if Mesh.x_hops h =? 0 then Dirn.quadrant_y h
            else if Mesh.y_hops h =? 0 then Dirn.quadrant_x h
            else Dirn.adaptive h freeVC_x freeVC_y rand)
  | WestFirst_ => Some (Dirn.WestFirst h rand)
  | ADAPT_WestFirst_ =>
      Some (if Mesh.x_hops h =? 0 then Dirn.quadrant_y h
            else if Mesh.y_hops h =? 0 then Dirn.quadrant_x h
            else if negb (Mesh.x_dirn h) then "West"
            else Dirn.adaptive h freeVC_x freeVC_y rand)
  | _ => None
  end.

Definition mesh_algorithm (a : RoutingAlgorithm) : Prop :=
  a = XY_ \/ a = RANDOM_ \/ a = ADAPT_RAND_ \/ a = WestFirst_ \/ a = ADAPT_WestFirst_.

(** The coordinates the code computes are the positions in the mesh. *)
Definition hops_between (cols my_id dest_id : Z) : Mesh.hops :=
  Mesh.mk_hops (Z.abs (xpos cols dest_id - xpos cols my_id))
    (Z.abs (ypos cols dest_id - ypos cols my_id))
    (xpos cols dest_id >=? xpos cols my_id) (ypos cols dest_id >=? ypos cols my_id).

Lemma coordinates_spec net my_id dest_id :
  mesh_ok net -> 0 <= my_id -> 0 <= dest_id -> my_id <> dest_id ->
  Mesh.coordinates net my_id dest_id
  = Ok (hops_between (NetConfig.m_num_cols net) my_id dest_id).
Proof.
  intros [Hr Hc] Hm Hd Hne. unfold Mesh.coordinates, assert_.
  rewrite !Z.gtb_ltb. rewrite !(proj2 (Z.ltb_lt _ _)) by lia. cbn.
  rewrite !Z.rem_mod_nonneg, !Z.quot_div_nonneg by lia.
  fold (xpos (NetConfig.m_num_cols net) my_id) (xpos (NetConfig.m_num_cols net) dest_id)
    (ypos (NetConfig.m_num_cols net) my_id) (ypos (NetConfig.m_num_cols net) dest_id).
  assert (distance (NetConfig.m_num_cols net) my_id dest_id <> 0) as Hdist.
  { intros H%distance_zero; [done|lia]. }
  unfold distance in Hdist.
  destruct (Z.eqb_spec (Z.abs (xpos (NetConfig.m_num_cols net) dest_id
                               - xpos (NetConfig.m_num_cols net) my_id)) 0);
    destruct (Z.eqb_spec (Z.abs (ypos (NetConfig.m_num_cols net) dest_id
                                 - ypos (NetConfig.m_num_cols net) my_id)) 0);
    cbn; done || lia.
Qed.

Lemma coordinates_inv net my_id dest_id h :
  Mesh.coordinates net my_id dest_id = Ok h ->
  mesh_ok net /\ ~ (Mesh.x_hops h = 0 /\ Mesh.y_hops h = 0).
Proof.
  unfold Mesh.coordinates, assert_. rewrite !Z.gtb_ltb.
  destruct (0 <? NetConfig.m_num_rows net) eqn:E1; [|done].
  destruct (0 <? NetConfig.m_num_cols net) eqn:E2; [|done]. cbn. zbool.
  match goal with |- context[negb ?b] => destruct b eqn:E3 end; [done|].
  cbn. intros. simplify_res. split; [split; lia|]. cbn. intros [Hx Hy].
  rewrite Hx, Hy in E3. done.
Qed.

(** The four directions of the quadrant. *)
Lemma mesh_dirn_quadrant a h rand fx fy d :
  ~ (Mesh.x_hops h = 0 /\ Mesh.y_hops h = 0) -> 0 <= Mesh.x_hops h -> 0 <= Mesh.y_hops h ->
  mesh_dirn a h rand fx fy = Some d ->
  (d = Dirn.quadrant_x h /\ 0 < Mesh.x_hops h) \/ (d = Dirn.quadrant_y h /\ 0 < Mesh.y_hops h).
Proof.
  intros Hne Hx Hy. unfold mesh_dirn, Dirn.XY, Dirn.Random, Dirn.WestFirst, Dirn.adaptive,
    Dirn.quadrant_x, Dirn.quadrant_y. rewrite !Z.gtb_ltb.
  destruct a; try done; intros Hd;
    destruct (Mesh.x_dirn h), (Mesh.y_dirn h);
    destruct (Z.eqb_spec (Mesh.x_hops h) 0), (Z.eqb_spec (Mesh.y_hops h) 0);
    destruct (Z.ltb_spec 0 (Mesh.x_hops h)), (Z.ltb_spec 0 (Mesh.y_hops h)); try lia;
    cbn in Hd; repeat case_match; simplify_eq; auto with lia.
Qed.

(** The next router in a direction is one hop closer along that axis. *)
Lemma quadrant_step net my_id dest_id d :
  mesh_ok net -> in_mesh net my_id -> in_mesh net dest_id ->
  (let h := hops_between (NetConfig.m_num_cols net) my_id dest_id in
   (d = Dirn.quadrant_x h /\ 0 < Mesh.x_hops h) \/ (d = Dirn.quadrant_y h /\ 0 < Mesh.y_hops h)) ->
  exists next, Mesh.get_upstreamId (NetConfig.m_num_cols net) d my_id = Ok next /\
    in_mesh net next /\
    distance (NetConfig.m_num_cols net) next dest_id
      = distance (NetConfig.m_num_cols net) my_id dest_id - 1 /\
    ((d = "East" /\ xpos (NetConfig.m_num_cols net) next = xpos (NetConfig.m_num_cols net) my_id + 1
        /\ ypos (NetConfig.m_num_cols net) next = ypos (NetConfig.m_num_cols net) my_id) \/
     (d = "West" /\ xpos (NetConfig.m_num_cols net) next = xpos (NetConfig.m_num_cols net) my_id - 1
        /\ ypos (NetConfig.m_num_cols net) next = ypos (NetConfig.m_num_cols net) my_id) \/
     ((d = "North" \/ d = "South") /\
        xpos (NetConfig.m_num_cols net) next = xpos (NetConfig.m_num_cols net) my_id)).
Proof.
  intros [Hr Hc] Hm Hd. unfold in_mesh in *. unfold hops_between, Dirn.quadrant_x, Dirn.quadrant_y.
  set (cols := NetConfig.m_num_cols net) in *. set (rows := NetConfig.m_num_rows net) in *. cbn.
  pose proof (pos_id cols Hc my_id) as Em. pose proof (pos_id cols Hc dest_id) as Ed.
  pose proof (xpos_bound cols Hc my_id) as Bm. pose proof (xpos_bound cols Hc dest_id) as Bd.
  assert (forall y, 0 <= y * cols + xpos cols dest_id < rows * cols -> 0 <= y < rows) as Hrow.
  { intros y Hy. nia. }
  assert (0 <= ypos cols dest_id < rows) as Yd by (apply Hrow; lia).
  assert (0 <= ypos cols my_id < rows) as Ym by nia.
  rewrite !Z.geb_leb. intros [[-> Hpos]|[-> Hpos]].
  - destruct (Z.leb_spec (xpos cols my_id) (xpos cols dest_id)).
    + exists (my_id + 1). destruct (pos_unique cols Hc (my_id + 1) (xpos cols my_id + 1)
        (ypos cols my_id)) as [Hx Hy]; [lia|lia|].
      split; [done|]. split; [nia|]. unfold distance. rewrite Hx, Hy. split; [lia|]. auto.
    + exists (my_id - 1). destruct (pos_unique cols Hc (my_id - 1) (xpos cols my_id - 1)
        (ypos cols my_id)) as [Hx Hy]; [lia|lia|].
      split; [done|]. split; [nia|]. unfold distance. rewrite Hx, Hy. split; [lia|]. auto.
  - destruct (Z.leb_spec (ypos cols my_id) (ypos cols dest_id)).
    + exists (my_id + cols). destruct (pos_unique cols Hc (my_id + cols) (xpos cols my_id)
        (ypos cols my_id + 1)) as [Hx Hy]; [lia|lia|].
      split; [done|]. split; [nia|]. unfold distance. rewrite Hx, Hy. split; [lia|]. auto.
    + exists (my_id - cols). destruct (pos_unique cols Hc (my_id - cols) (xpos cols my_id)
        (ypos cols my_id - 1)) as [Hx Hy]; [lia|lia|].
      split; [done|]. split; [nia|]. unfold distance. rewrite Hx, Hy. split; [lia|]. auto.
Qed.

Lemma mesh_dirn_step net a my_id dest_id rand fx fy d :
  mesh_ok net -> in_mesh net my_id -> in_mesh net dest_id -> my_id <> dest_id ->
  mesh_dirn a (hops_between (NetConfig.m_num_cols net) my_id dest_id) rand fx fy = Some d ->
  exists next, Mesh.get_upstreamId (NetConfig.m_num_cols net) d my_id = Ok next /\
    in_mesh net next /\
    distance (NetConfig.m_num_cols net) next dest_id
      = distance (NetConfig.m_num_cols net) my_id dest_id - 1.
Proof.
  intros Hok Hm Hd Hne Hdir.
  destruct (quadrant_step net my_id dest_id d Hok Hm Hd) as (next & ? & ? & ? & _); [|eauto].
  cbn zeta. eapply mesh_dirn_quadrant; [| | |exact Hdir]; cbn; [|lia|lia].
  intros [Hx Hy]. apply Hne. apply (distance_zero (NetConfig.m_num_cols net)); [apply Hok|].
  unfold distance. lia.
Qed.

Lemma mesh_dirn_defined a h rand fx fy :
  mesh_algorithm a -> ~ (Mesh.x_hops h = 0 /\ Mesh.y_hops h = 0) ->
  0 <= Mesh.x_hops h -> 0 <= Mesh.y_hops h -> exists d, mesh_dirn a h rand fx fy = Some d.
Proof.
  intros Ha Hne Hx Hy. destruct Ha as [-> |[-> |[-> |[-> | ->]]]]; cbn; eauto.
  unfold Dirn.XY. rewrite !Z.gtb_ltb.
  destruct (Z.ltb_spec 0 (Mesh.x_hops h)); [eauto|].
  destruct (Z.ltb_spec 0 (Mesh.y_hops h)); [eauto|]. lia.
Qed.

(** ** From the directions to [outportCompute] *)

(** Output port [p] of router [id] is the one registered for direction [d]. *)
Definition outport_towards (id : Z) (d : PortDirection) (p : Z) (n : Net.t) : Prop :=
  exists r, Net.router id n = Ok r /\
    RoutingUnit.m_outports_dirn2idx (Router.m_routing_unit r) !! d = Some p.

Lemma upd_router_inv id f n n' :
  Net.upd_router id f n = Ok n' ->
  exists r r', Net.router id n = Ok r /\ f r = Ok r' /\
    n' = Net.set_routers (<[Z.to_nat id := r']> (Net.m_routers n)) n.
Proof.
  unfold Net.upd_router. intros H. inv_bind H. simplify_res.
  apply vec_upd_inv in E as (x & y & Hx & Hy & ->). unfold Net.router. eauto.
Qed.

Lemma router_set_eq id r n :
  0 <= id < zlen (Net.m_routers n) ->
  Net.router id (Net.set_routers (<[Z.to_nat id := r]> (Net.m_routers n)) n) = Ok r.
Proof.
  intros H. unfold Net.router. eapply vec_at_set_eq. by apply vec_set_Ok.
Qed.

Lemma router_set_ne id j r n :
  0 <= id < zlen (Net.m_routers n) -> id <> j ->
  Net.router j (Net.set_routers (<[Z.to_nat id := r]> (Net.m_routers n)) n) = Net.router j n.
Proof.
  intros H Hne. unfold Net.router. eapply vec_at_set_ne; [exact Hne|]. by apply vec_set_Ok.
Qed.

Lemma map_index_lookup {K V} `{Countable K} (d : V) (k : K) (m : gmap K V) :
  (map_index d k m).2 !! k = Some (map_index d k m).1.
Proof.
  unfold map_index. destruct (m !! k) eqn:E; cbn; [done|]. by rewrite lookup_insert_eq.
Qed.

Lemma port_of_towards id d n p n' : Route.port_of id d n = Ok (p, n') -> outport_towards id d p n'.
Proof.
  unfold Route.port_of, RoutingUnit.outport_index. intros H. inv_bind H.
  pose proof (map_index_lookup 0 d
    (RoutingUnit.m_outports_dirn2idx (Router.m_routing_unit a))) as Hl.
  destruct (map_index 0 d _) as [i m]. inv_bind H. simplify_res.
  apply upd_router_inv in E0 as (r & r' & Hr & Hr' & ->). simplify_res.
  eexists. split; [apply router_set_eq; by eapply vec_at_inside|]. done.
Qed.

Lemma my_id_inv id n my : Net.my_id id n = Ok my ->
  exists r, Net.router id n = Ok r /\ Router.m_id r = my.
Proof. unfold Net.my_id. intros H. inv_bind H. simplify_res. eauto. Qed.

(** Gives the choices behind a direction; the goal left is that they give it. *)
Ltac take_dirn h rand fx fy :=
  exists h, rand, fx, fy; eexists;
  split; [done|split; [|by eapply port_of_towards; eassumption]]; try done.

Ltac inv_adaptive E fx fy :=
  unfold Route.adaptive_port in E; inv_bind E;
  match type of E with context [let '(_, _) := ?x in _] => destruct x as [fx ?] end;
  inv_bind E;
  match type of E with context [let '(_, _) := ?x in _] => destruct x as [fy ?] end.

(** Whatever the random numbers and the neighbours' free channels, the port
    is the one of a direction the algorithm can choose. *)
Lemma outportCompute_dirn id route n p n' my :
  mesh_algorithm (RoutingAlgorithm_of_int (NetConfig.m_routing_algorithm (Net.cfg n))) ->
  Net.my_id id n = Ok my -> RouteInfo.dest_router route <> my ->
  Route.outportCompute id route n = Ok (p, n') ->
  exists h rand fx fy d,
    Mesh.coordinates (Net.cfg n) my (RouteInfo.dest_router route) = Ok h /\
    mesh_dirn (RoutingAlgorithm_of_int (NetConfig.m_routing_algorithm (Net.cfg n))) h rand fx fy
      = Some d /\ outport_towards id d p n'.
Proof.
  intros Ha Hmy Hne H. apply my_id_inv in Hmy as Hr. destruct Hr as (r & Hr & Hid).
  unfold Route.outportCompute in H. rewrite Hr in H. cbn in H.
  rewrite Hid, (proj2 (Z.eqb_neq _ _)) in H by done.
  inv_bind H. destruct a as [p0 n0]. inv_bind H. simplify_res.
  destruct Ha as [Ha|[Ha|[Ha|[Ha|Ha]]]]; rewrite Ha in E |- *;
    [unfold Route.outportComputeXY in E|unfold Route.outportComputeRandom in E
    |unfold Route.outportComputeAdaptRand in E|unfold Route.outportComputeWestFirst in E
    |unfold Route.outportComputeAdaptWestFirst in E];
    rewrite Hmy in E; cbn [mbind Res_bind] in E; inv_bind E.
  - inv_bind E. exists a0, 0, 0, 0, a1. cbn. rewrite E2. eauto using port_of_towards.
  - cbn in E. destruct ((Mesh.x_hops a0 =? 0) || (Mesh.y_hops a0 =? 0));
      [take_dirn a0 0 0 0 | take_dirn a0 (Z.rem (Net.random n).1 2) 0 0].
  - destruct (Mesh.x_hops a0 =? 0) eqn:Hx; [take_dirn a0 0 0 0; cbn; by rewrite Hx|].
    destruct (Mesh.y_hops a0 =? 0) eqn:Hy; [take_dirn a0 0 0 0; cbn; by rewrite Hx, Hy|].
    cbn in E. inv_adaptive E fx fy.
    take_dirn a0 (Z.rem (Net.random n).1 2) fx fy. cbn. by rewrite Hx, Hy.
  - cbn in E. take_dirn a0 (Z.rem (Net.random n).1 2) 0 0.
  - cbn in E. destruct (Mesh.x_hops a0 =? 0) eqn:Hx; [take_dirn a0 0 0 0; cbn; by rewrite Hx|].
    destruct (Mesh.y_hops a0 =? 0) eqn:Hy; [take_dirn a0 0 0 0; cbn; by rewrite Hx, Hy|].
    destruct (negb (Mesh.x_dirn a0)) eqn:Hd; [take_dirn a0 0 0 0; cbn; by rewrite Hx, Hy, Hd|].
    inv_adaptive E fx fy.
    take_dirn a0 (Z.rem (Net.random n).1 2) fx fy. cbn. by rewrite Hx, Hy, Hd.
Qed.

(** ** Paths *)

(** The routers a packet visits: at each, the algorithm picks a direction
    from the random bit and free-channel counts it finds there. *)
Fixpoint mesh_walk (net : NetConfig.t) (a : RoutingAlgorithm) (choices : list (Z * Z * Z))
    (my_id dest_id : Z) : Res Z :=
  match choices with
  | [] => Ok my_id
  | (rand, fx, fy) :: choices' =>
      h ← Mesh.coordinates net my_id dest_id;
      match mesh_dirn a h rand fx fy with
      | Some d =>
          next ← Mesh.get_upstreamId (NetConfig.m_num_cols net) d my_id;
          mesh_walk net a choices' next dest_id
      | None => Err (FatalError "no direction")
      end
  end.

Lemma mesh_walk_distance net a choices my_id dest_id :
  mesh_ok net -> mesh_algorithm a -> in_mesh net my_id -> in_mesh net dest_id ->
  zlen choices <= distance (NetConfig.m_num_cols net) my_id dest_id ->
  exists id, mesh_walk net a choices my_id dest_id = Ok id /\ in_mesh net id /\
    distance (NetConfig.m_num_cols net) id dest_id
      = distance (NetConfig.m_num_cols net) my_id dest_id - zlen choices.
Proof.
  intros Hok Ha Hm Hd. revert my_id Hm.
  induction choices as [|[[rand fx] fy] cs IH]; intros my_id Hm Hlen.
  - exists my_id. unfold zlen. cbn. auto with lia.
  - unfold zlen in *. cbn [length] in Hlen |- *. cbn [mesh_walk].
    assert (my_id <> dest_id) as Hne.
    { intros ->. assert (distance (NetConfig.m_num_cols net) dest_id dest_id = 0)
        by (apply distance_zero; [apply Hok|done]). lia. }
    rewrite coordinates_spec by (done || unfold in_mesh in *; lia). cbn [mbind Res_bind].
    destruct (mesh_dirn_defined a (hops_between (NetConfig.m_num_cols net) my_id dest_id)
      rand fx fy) as [d Hdir]; [done| |cbn; lia|cbn; lia|].
    { cbn. intros [Hx Hy]. apply Hne, (distance_zero (NetConfig.m_num_cols net)); [apply Hok|].
      unfold distance. lia. }
    rewrite Hdir.
    destruct (mesh_dirn_step net a my_id dest_id rand fx fy d) as (next & -> & Hin & Hdist);
      [done..|]. cbn [mbind Res_bind].
    destruct (IH next Hin) as (id & -> & Hid & Hdid); [lia|].
    exists id. split; [done|]. split; [done|]. lia.
Qed.

(** ** The routing table *)

Section Table.
Variables (dest : NetDest.t) (ru : RoutingUnit.t).

Definition serves (link : Z) : Prop := Route.serves dest link ru = Ok true.
Definition weight (link w : Z) : Prop := vec_at (RoutingUnit.m_weight_table ru) link = Ok w.

Lemma min_weight_spec m :
  Route.min_weight dest ru = Ok m ->
  m <= INFINITE_ /\
  (forall link w, 0 <= link < zlen (RoutingUnit.m_routing_table ru) ->
     serves link -> weight link w -> m <= w) /\
  (m = INFINITE_ \/ exists link, 0 <= link < zlen (RoutingUnit.m_routing_table ru) /\
     serves link /\ weight link m).
Proof.
  intros H. unfold Route.min_weight in H.
  set (P := fun (done_ : list Z) (m : Z) => m <= INFINITE_ /\
    (forall link w, link ∈ done_ -> serves link -> weight link w -> m <= w) /\
    (m = INFINITE_ \/ exists link, link ∈ done_ /\ serves link /\ weight link m)).
  enough (P (range 0 (zlen (RoutingUnit.m_routing_table ru))) m) as (H1 & H2 & H3).
  { split; [done|]. split.
    - intros link w Hl. apply H2. by apply in_range.
    - destruct H3 as [?|(link & Hl & ?)]; [by left|]. right. exists link.
      apply in_range in Hl. auto. }
  eapply (foldM_inv P); [| |exact H].
  - split; [lia|split; [set_solver|by left]].
  - intros done_ link s1 s2 (P1 & P2 & P3) Hf. cbn in Hf. inv_bind Hf. destruct a.
    + inv_bind Hf. simplify_res. unfold serves, weight in *.
      destruct (Z.leb_spec a s1); (split; [lia|split]).
      * intros l w [Hl|Hl%list_elem_of_singleton]%elem_of_app Hs Hw; [|subst].
        -- specialize (P2 l w Hl Hs Hw). lia.
        -- rewrite E0 in Hw. simplify_res. lia.
      * right. exists link. set_solver.
      * intros l w [Hl|Hl%list_elem_of_singleton]%elem_of_app Hs Hw; [|subst].
        -- by apply (P2 l w).
        -- rewrite E0 in Hw. simplify_res. lia.
      * destruct P3 as [?|(l & ? & ?)]; [by left|]. right. exists l. set_solver.
    + simplify_res. split; [done|]. split.
      * intros l w [Hl|Hl%list_elem_of_singleton]%elem_of_app Hs Hw; [by apply (P2 l w)|].
        subst. unfold serves in Hs. congruence.
      * destruct P3 as [?|(l & ? & ?)]; [by left|]. right. exists l. set_solver.
Qed.

Lemma candidates_spec m l :
  Route.candidates dest m ru = Ok l ->
  forall link, link ∈ l <->
    0 <= link < zlen (RoutingUnit.m_routing_table ru) /\ serves link /\ weight link m.
Proof.
  intros H. unfold Route.candidates in H.
  set (P := fun (done_ l : list Z) => forall link, link ∈ l <->
    link ∈ done_ /\ serves link /\ weight link m).
  enough (P (range 0 (zlen (RoutingUnit.m_routing_table ru))) l) as H1.
  { intros link. rewrite (H1 link), in_range. done. }
  eapply (foldM_inv P); [| |exact H].
  - unfold P. set_solver.
  - intros done_ link s1 s2 Ps Hf x. cbn in Hf. rewrite elem_of_app, list_elem_of_singleton.
    unfold serves, weight in *. inv_bind Hf. destruct a.
    + inv_bind Hf. simplify_res. destruct (Z.eqb_spec a m) as [->|Hne].
      * rewrite elem_of_app, list_elem_of_singleton, (Ps x). naive_solver.
      * rewrite (Ps x). split; [naive_solver|]. intros [[?| ->] [? Hw]]; [done|].
        rewrite E0 in Hw. simplify_res. done.
    + simplify_res. rewrite (Ps x). split; [naive_solver|]. intros [[?| ->] [Hs ?]]; [done|].
      congruence.
Qed.

End Table.

Lemma argmax_spec l :
  l <> [] -> Forall (fun x => 0 <= x) l ->
  exists m, vec_at l (Route.argmax l) = Ok m /\ Forall (fun x => x <= m) l.
Proof.
  intros Hne Hpos. unfold Route.argmax.
  set (step := fun '(i, max, candidate) x =>
    if x >? max then (i + 1, x, i) else (i + 1, max, candidate)).
  assert (forall suf pre i mx c, l = pre ++ suf -> i = zlen pre ->
    Forall (fun x => x <= mx) pre ->
    ((pre = [] /\ mx = -1) \/ vec_at l c = Ok mx) ->
    exists i' m c', fold_left step suf (i, mx, c) = (i', m, c') /\
      Forall (fun x => x <= m) l /\ ((l = [] /\ m = -1) \/ vec_at l c' = Ok m)) as Hgen.
  { induction suf as [|x suf IH]; intros pre i mx c Hl Hi Hall Hc.
    - rewrite app_nil_r in Hl. subst pre. exists i, mx, c. done.
    - cbn [fold_left]. unfold step at 2. rewrite Z.gtb_ltb.
      assert (vec_at l i = Ok x) as Hx.
      { apply vec_at_Ok. subst. unfold zlen. rewrite Nat2Z.id. split; [lia|].
        by apply list_lookup_middle. }
      assert (zlen (pre ++ [x]) = i + 1) as Hlen
        by (unfold zlen in *; rewrite length_app; cbn; lia).
      assert (l = (pre ++ [x]) ++ suf) as Hl' by (by rewrite <- app_assoc).
      destruct (Z.ltb_spec mx x).
      + apply (IH (pre ++ [x])); auto. apply Forall_app. split; [|by repeat constructor].
        eapply Forall_impl; [exact Hall|]. cbn. lia.
      + apply (IH (pre ++ [x])); auto.
        * apply Forall_app. split; [done|]. by repeat constructor.
        * destruct Hc as [[-> ->]|?]; [|by right].
          rewrite Hl in Hpos. apply Forall_app in Hpos as [_ Hpos].
          inversion Hpos; subst. lia. }
  destruct (Hgen l [] 0 (-1) (-1)) as (i' & m & c' & -> & Hall & [[? _]|Hc]);
    [done|done|constructor|by left|done|].
  exists m. auto.
Qed.

Lemma mapM_lookup {A B} (f : A -> Res B) l l' i x :
  mapM f l = Ok l' -> l !! i = Some x -> exists y, l' !! i = Some y /\ f x = Ok y.
Proof.
  revert l' i. induction l as [|a l IH]; intros l' i H Hi; [done|]. cbn in H.
  inv_bind H. inv_bind H. simplify_res. destruct i as [|i]; cbn in Hi |- *.
  - injection Hi as <-. eexists. split; [done|eassumption].
  - by eapply IH.
Qed.

Lemma mapM_length {A B} (f : A -> Res B) l l' : mapM f l = Ok l' -> length l' = length l.
Proof.
  revert l'. induction l as [|a l IH]; intros l' H; cbn in H; [by simplify_res|].
  inv_bind H. inv_bind H. simplify_res. cbn. f_equal. by apply IH.
Qed.

Lemma countM_nonneg {A} (f : A -> Res bool) l k : countM f l = Ok k -> 0 <= k.
Proof.
  revert k. induction l as [|a l IH]; intros k H; cbn in H; [simplify_res; lia|].
  inv_bind H. inv_bind H. simplify_res. specialize (IH _ eq_refl). destruct a0; lia.
Qed.

Lemma mapM_Forall {A B} (f : A -> Res B) (P : B -> Prop) l l' :
  (forall x y, f x = Ok y -> P y) -> mapM f l = Ok l' -> Forall P l'.
Proof.
  intros Hf. revert l'. induction l as [|a l IH]; intros l' H; cbn in H.
  - simplify_res. constructor.
  - inv_bind H. inv_bind H. simplify_res. constructor; eauto.
Qed.

(** ** Theorems *)

(** Every mesh algorithm (XY, random, adaptive random, west-first,
    adaptive west-first) is minimal: when [outportCompute] routes a packet
    that is not at its destination router, the output port is the one
    registered for a direction whose neighbour lies in the mesh and is
    exactly one hop closer to the destination. *)
Theorem outportCompute_minimal id route n p n' my :
  mesh_ok (Net.cfg n) ->
  mesh_algorithm (RoutingAlgorithm_of_int (NetConfig.m_routing_algorithm (Net.cfg n))) ->
  Net.my_id id n = Ok my ->
  in_mesh (Net.cfg n) my -> in_mesh (Net.cfg n) (RouteInfo.dest_router route) ->
  RouteInfo.dest_router route <> my ->
  Route.outportCompute id route n = Ok (p, n') ->
  exists d next, outport_towards id d p n' /\
    Mesh.get_upstreamId (NetConfig.m_num_cols (Net.cfg n)) d my = Ok next /\
    in_mesh (Net.cfg n) next /\
    distance (NetConfig.m_num_cols (Net.cfg n)) next (RouteInfo.dest_router route)
      = distance (NetConfig.m_num_cols (Net.cfg n)) my (RouteInfo.dest_router route) - 1.
Proof.
  intros Hok Ha Hmy Hm Hd Hne H.
  destruct (outportCompute_dirn id route n p n' my) as (h & rand & fx & fy & d & Hh & Hdir & Hp);
    [done..|].
  rewrite coordinates_spec in Hh by (done || unfold in_mesh in *; lia). simplify_res.
  edestruct mesh_dirn_step as (next & ? & ? & ?); [exact Hok|exact Hm|exact Hd|done|exact Hdir|].
  exists d, next. auto.
Qed.


(** West-first goes west exactly when the destination lies there. *)
Lemma west_first_west a h rand fx fy d :
  a = WestFirst_ \/ a = ADAPT_WestFirst_ -> mesh_dirn a h rand fx fy = Some d ->
  (Mesh.x_dirn h = true -> d <> "West") /\
  (Mesh.x_dirn h = false -> 0 < Mesh.x_hops h -> d = "West").
Proof.
  unfold mesh_dirn, Dirn.WestFirst, Dirn.adaptive, Dirn.quadrant_x, Dirn.quadrant_y.
  intros [-> | ->] Hd; injection Hd as <-; destruct (Mesh.x_dirn h);
    (split; [try done; intros _ | try done; intros _ Hx]);
    destruct (Z.eqb_spec (Mesh.x_hops h) 0); try lia; cbn; repeat case_match; done.
Qed.

(** XY stays on the y axis once the x distance is covered. *)
Lemma XY_axis h rand fx fy d :
  mesh_dirn XY_ h rand fx fy = Some d ->
  (d = "North" \/ d = "South" -> Mesh.x_hops h <= 0) /\
  (Mesh.x_hops h <= 0 -> d <> "East" /\ d <> "West").
Proof.
  unfold mesh_dirn, Dirn.XY. rewrite !Z.gtb_ltb. intros Hd.
  destruct (Z.ltb_spec 0 (Mesh.x_hops h)); [|destruct (0 <? Mesh.y_hops h)];
    try done; injection Hd as <-; (split; intros Hc).
  - destruct (Mesh.x_dirn h); destruct Hc; done.
  - lia.
  - done.
  - by destruct (Mesh.y_dirn h).
Qed.


(** A route from the table is a best one: the port serves the
    destination, no port that serves it has a smaller weight, and among the
    ports of that weight none has more free virtual channels in the virtual
    network of the packet. *)
Theorem lookupRoutingTable_best curCycle vnet dest r p :
  Route.lookupRoutingTable curCycle vnet dest r = Ok p ->
  let ru := Router.m_routing_unit r in
  exists w o k, serves dest ru p /\ weight ru p w /\ w <= INFINITE_ /\
    vec_at (Router.m_output_unit r) p = Ok o /\
    OutputUnit.getNumFreeVCs curCycle vnet o = Ok k /\
    forall q w', 0 <= q < zlen (RoutingUnit.m_routing_table ru) ->
      serves dest ru q -> weight ru q w' ->
      w <= w' /\
      (w' = w -> exists oq kq, vec_at (Router.m_output_unit r) q = Ok oq /\
         OutputUnit.getNumFreeVCs curCycle vnet oq = Ok kq /\ kq <= k).
Proof.
  intros H ru. unfold Route.lookupRoutingTable in H. inv_bind H. inv_bind H.
  unfold Route.lookupRoutingTable_pref_outport in E. inv_bind E. inv_bind E.
  rename a1 into w, a2 into cands.
  destruct (zlen cands =? 0) eqn:Hz; [done|]. simplify_res. rename a into cands, a0 into counts.
  pose proof (min_weight_spec dest _ w E1) as (Hw1 & Hw2 & _).
  pose proof (candidates_spec dest _ w cands E2) as Hc.
  destruct (argmax_spec counts) as (k & Hk & Hmax).
  { intros ->. apply mapM_length in E0. unfold zlen in Hz. cbn in E0. rewrite <- E0 in Hz. done. }
  { eapply mapM_Forall; [|exact E0]. cbn. intros x y Hxy. inv_bind Hxy.
    unfold OutputUnit.getNumFreeVCs in Hxy. by eapply countM_nonneg. }
  apply vec_at_Ok in H as [Hpos Hp]. apply vec_at_Ok in Hk as [_ Hk].
  destruct (mapM_lookup _ _ _ _ _ E0 Hp) as (k' & Hk' & Hf). cbn in Hf. inv_bind Hf.
  rewrite Hk in Hk'. injection Hk' as <-.
  destruct (proj1 (Hc p)) as (Hin & Hs & Hwt); [by eapply list_elem_of_lookup_2|].
  exists w, a, k. split_and!; [done|done|done|done|done|].
  intros q w' Hq Hsq Hwq. split; [by apply (Hw2 q)|]. intros ->.
  assert (q ∈ cands) as Hqc by (by apply Hc).
  apply list_elem_of_lookup in Hqc as [i Hi].
  destruct (mapM_lookup _ _ _ _ _ E0 Hi) as (kq & Hkq & Hfq). cbn in Hfq. inv_bind Hfq.
  exists a0, kq. split_and!; [done|done|]. by eapply Forall_lookup_1 in Hmax.
Qed.
