(* ===== verification/MeshNet.v ===== *)
(** * Routing on a wired mesh always answers

    [mesh_net] says that the routers of a network are wired as a mesh: every
    neighbour is reached by an output port and feeds an input port, as the
    mesh topologies build it. On such a network the algorithms of
    [RoutingUnit] return for every packet with a route, and change nothing
    but the position in the random stream. *)

From S2P Require Import Prelude NetDest Types FlitBuffer Channels ChannelFacts RouterCore MsgBuffer NetState Routing RoutingFacts Network Spin Example.

Definition cols (n : Net.t) : Z := NetConfig.m_num_cols (Net.cfg n).

(** Router [next] is the neighbour of router [id] in direction [d]. *)
Definition hop (net : NetConfig.t) (id : Z) (d : PortDirection) (next : Z) : Prop :=
  in_mesh net id /\ in_mesh net next /\
  Mesh.get_upstreamId (NetConfig.m_num_cols net) d id = Ok next /\
  ((d = "East" /\ xpos (NetConfig.m_num_cols net) next = xpos (NetConfig.m_num_cols net) id + 1) \/
   (d = "West" /\ xpos (NetConfig.m_num_cols net) next = xpos (NetConfig.m_num_cols net) id - 1) \/
   d = "North" \/ d = "South").

Definition opposite (d : PortDirection) : PortDirection :=
  if bool_decide (d = "East") then "West"
  else if bool_decide (d = "West") then "East"
  else if bool_decide (d = "North") then "South" else "North".

Lemma hop_opposite net id d next : hop net id d next -> hop net next (opposite d) id.
Proof.
  intros (? & ? & Hn & Hd). split; [done|]. split; [done|].
  unfold Mesh.get_upstreamId in *.
  destruct Hd as [[-> ?]|[[-> ?]|[->| ->]]]; cbn in Hn |- *; injection Hn as <-;
    (split; [f_equal; lia|]); auto with lia.
Qed.

Lemma hop_direction net id d next : hop net id d next ->
  d <> "Local" /\ Mesh.get_upstreamOutportDirn d = Ok (opposite d).
Proof. intros (_ & _ & _ & [[-> _]|[[-> _]|[->| ->]]]); done. Qed.

(** A neighbour in a direction is one router; so is where it comes from. *)
Lemma hop_det net id d next next' : hop net id d next -> hop net id d next' -> next = next'.
Proof. intros (_ & _ & H & _) (_ & _ & H' & _). congruence. Qed.

(** Input and output port of router [id] in direction [d]. *)
Definition in_port (n : Net.t) (id : Z) (d : PortDirection) (p : Z) : Prop :=
  exists r u, Net.router id n = Ok r /\ vec_at (Router.m_input_unit r) p = Ok u /\
    RoutingUnit.m_inports_dirn2idx (Router.m_routing_unit r) !! d = Some p /\
    InputUnit.m_direction u = d.

Definition out_port (n : Net.t) (id : Z) (d : PortDirection) (q : Z) : Prop :=
  exists r o, Net.router id n = Ok r /\ vec_at (Router.m_output_unit r) q = Ok o /\
    RoutingUnit.m_outports_dirn2idx (Router.m_routing_unit r) !! d = Some q /\
    OutputUnit.m_direction o = d.

(** The parts of a router fit together. *)
Record router_fits (net : NetConfig.t) (id : Z) (r : Router.t) : Prop := {
  rf_id : Router.m_id r = id;
  rf_vcs : forall p u, vec_at (Router.m_input_unit r) p = Ok u ->
    InputUnit.m_id u = p /\ 0 <= InputUnit.m_vc_per_vnet u <= zlen (InputUnit.m_vcs u);
  rf_outvcs : forall q o, vec_at (Router.m_output_unit r) q = Ok o ->
    0 <= OutputUnit.m_vc_per_vnet o /\
    NetConfig.m_virtual_networks net * OutputUnit.m_vc_per_vnet o <= zlen (OutputUnit.m_outvc_state o);
  rf_dirs : forall q o, vec_at (Router.m_output_unit r) q = Ok o ->
    OutputUnit.m_direction o = "Local" \/ exists next, hop net id (OutputUnit.m_direction o) next;
  rf_table : zlen (RoutingUnit.m_routing_table (Router.m_routing_unit r)) = zlen (Router.m_output_unit r)
}.

Record mesh_net (n : Net.t) : Prop := {
  mn_mesh : mesh_ok (Net.cfg n);
  mn_size : zlen (Net.m_routers n)
            = NetConfig.m_num_rows (Net.cfg n) * NetConfig.m_num_cols (Net.cfg n);
  mn_routers : forall id r, Net.router id n = Ok r -> router_fits (Net.cfg n) id r;
  mn_in : forall id d next, hop (Net.cfg n) id d next -> exists p, in_port n id d p;
  mn_out : forall id d next, hop (Net.cfg n) id d next -> exists q, out_port n id d q
}.

(** ** Lookups that find what they look for change nothing *)

Lemma set_routers_same n : Net.set_routers (Net.m_routers n) n = n.
Proof. by destruct n. Qed.

Lemma upd_router_same id f n r :
  Net.router id n = Ok r -> f r = Ok r -> Net.upd_router id f n = Ok n.
Proof.
  intros Hr Hf. unfold Net.upd_router. rewrite (vec_upd_Ok _ _ _ r r) by done. cbn.
  apply vec_at_Ok in Hr as [_ Hr]. by rewrite list_insert_id, set_routers_same by done.
Qed.

Lemma map_index_found {K V} `{Countable K} (dflt : V) (k : K) (m : gmap K V) v :
  m !! k = Some v -> map_index dflt k m = (v, m).
Proof. intros Hv. unfold map_index. by rewrite Hv. Qed.

Lemma set_routing_unit_same r : Router.set_routing_unit (Router.m_routing_unit r) r = r.
Proof. by destruct r. Qed.

Lemma outport_index_found d ru q :
  RoutingUnit.m_outports_dirn2idx ru !! d = Some q -> RoutingUnit.outport_index d ru = (q, ru).
Proof.
  intros H. unfold RoutingUnit.outport_index. rewrite (map_index_found _ _ _ _ H). by destruct ru.
Qed.

Lemma inport_index_found d ru p :
  RoutingUnit.m_inports_dirn2idx ru !! d = Some p -> RoutingUnit.inport_index d ru = (p, ru).
Proof.
  intros H. unfold RoutingUnit.inport_index. rewrite (map_index_found _ _ _ _ H). by destruct ru.
Qed.

Lemma port_of_found n id d q : out_port n id d q -> Route.port_of id d n = Ok (q, n).
Proof.
  intros (r & o & Hr & _ & Hq & _). unfold Route.port_of. rewrite Hr. cbn.
  rewrite (outport_index_found _ _ _ Hq).
  by rewrite (upd_router_same id _ n r) by (done || by rewrite set_routing_unit_same).
Qed.

Lemma countM_Ok {A} (f : A -> Res bool) l :
  (forall a, a ∈ l -> exists b, f a = Ok b) -> exists k, countM f l = Ok k.
Proof.
  induction l as [|a l IH]; intros H; [by exists 0|]. cbn.
  destruct (H a) as [b ->]; [by left|]. destruct IH as [k ->]; [by intros x Hx; apply H; right|].
  eauto.
Qed.

(** ** The routing functions *)

Section Route.
Context (n : Net.t) (Hn : mesh_net n).

Lemma router_in_mesh id : in_mesh (Net.cfg n) id -> exists r, Net.router id n = Ok r.
Proof. intros H. apply vec_at_total. rewrite (mn_size n Hn). exact H. Qed.

Lemma my_id_Ok id : in_mesh (Net.cfg n) id -> Net.my_id id n = Ok id.
Proof.
  intros H. destruct (router_in_mesh id H) as [r Hr]. unfold Net.my_id. rewrite Hr. cbn.
  by rewrite (rf_id _ _ _ (mn_routers n Hn id r Hr)).
Qed.

Lemma upstream_Ok id d next : hop (Net.cfg n) id d next ->
  Mesh.get_upstreamrouter d id n = Ok (Some next).
Proof.
  intros (_ & [? ?] & Hd & _). unfold Mesh.get_upstreamrouter. rewrite Hd. cbn.
  rewrite (mn_size n Hn), Z.geb_leb, (proj2 (Z.ltb_ge _ _)), (proj2 (Z.leb_gt _ _)) by lia. done.
Qed.

Lemma neighbour_free_Ok id d next : hop (Net.cfg n) id d next ->
  exists k, Route.neighbour_free id d (opposite d) n = Ok (k, n).
Proof.
  intros Hh. pose proof (hop_opposite _ _ _ _ Hh) as Ho.
  destruct (mn_in n Hn _ _ _ Ho) as (p & r & u & Hr & Hu & Hp & Hd).
  destruct (hop_direction _ _ _ _ Ho) as [Hl _].
  unfold Route.neighbour_free. rewrite my_id_Ok by apply Hh. cbn.
  rewrite (upstream_Ok _ _ _ Hh). cbn. rewrite Hr. cbn. unfold Router.get_numFreeVC.
  rewrite (bool_decide_eq_false_2 (opposite d = "Local")) by done. cbn.
  rewrite (inport_index_found _ _ _ Hp), set_routing_unit_same, Hu. cbn.
  unfold InputUnit.get_numFreeVC. rewrite (bool_decide_eq_true_2 _ (eq_sym Hd)). cbn.
  destruct (countM_Ok (fun vc_ => InputUnit.vc_isEmpty vc_ u)
              (range 0 (InputUnit.m_vc_per_vnet u))) as [k Hk].
  { intros v Hv%in_range. unfold InputUnit.vc_isEmpty.
    destruct (rf_vcs _ _ _ (mn_routers n Hn next r Hr) p u Hu) as [_ ?].
    destruct (vec_at_total (InputUnit.m_vcs u) v) as [w ->]; [lia|]. by eexists. }
  rewrite Hk. cbn. rewrite (upd_router_same next _ n r) by done. by exists k.
Qed.

Lemma opposite_quadrant_x h : opposite (Dirn.quadrant_x h) = Route.opposite_x h.
Proof. unfold Dirn.quadrant_x, Route.opposite_x. by destruct (Mesh.x_dirn h). Qed.

Lemma opposite_quadrant_y h : opposite (Dirn.quadrant_y h) = Route.opposite_y h.
Proof. unfold Dirn.quadrant_y, Route.opposite_y. by destruct (Mesh.y_dirn h). Qed.

End Route.

Lemma mesh_net_random n : mesh_net n -> mesh_net (Net.random n).2.
Proof. intros []. by split. Qed.

(** A hop that brings a packet one router closer to its destination. *)
Definition closer (net : NetConfig.t) (id : Z) (dest : Z) (d : PortDirection) (next : Z) : Prop :=
  hop net id d next /\
  distance (NetConfig.m_num_cols net) next dest = distance (NetConfig.m_num_cols net) id dest - 1.

(** The quadrant directions are such hops. *)
Lemma quadrant_hop net my dest d :
  mesh_ok net -> in_mesh net my -> in_mesh net dest ->
  (let h := hops_between (NetConfig.m_num_cols net) my dest in
   (d = Dirn.quadrant_x h /\ 0 < Mesh.x_hops h) \/ (d = Dirn.quadrant_y h /\ 0 < Mesh.y_hops h)) ->
  exists next, closer net my dest d next.
Proof.
  intros Hok Hm Hd Hq. destruct (quadrant_step net my dest d Hok Hm Hd Hq) as (next & ? & ? & ? & Hx).
  exists next. split; [|done]. split_and!; [done..|]. destruct Hx as [(? & ? & _)|[(? & ? & _)|[[?|?] _]]]; auto.
Qed.

(** ** The routing table *)

(** The table of router [id] offers the ports [l] towards [dest]. *)
Definition offers (n : Net.t) (id : Z) (dest : NetDest.t) (l : list Z) : Prop :=
  exists r, Net.router id n = Ok r /\
    Route.lookupRoutingTable_pref_outport dest (Router.m_routing_unit r) = Ok l.

Lemma pref_outport_spec dest ru l :
  Route.lookupRoutingTable_pref_outport dest ru = Ok l ->
  l <> [] /\ forall p, p ∈ l -> 0 <= p < zlen (RoutingUnit.m_routing_table ru).
Proof.
  unfold Route.lookupRoutingTable_pref_outport. intros H. inv_bind H. inv_bind H.
  destruct (Z.eqb_spec (zlen a0) 0); [done|]. simplify_res. split.
  - intros ->. done.
  - intros p Hp. apply (candidates_spec dest ru a l E0 p) in Hp. apply Hp.
Qed.

Section TableRoute.
Context (n : Net.t) (Hn : mesh_net n).

Lemma free_vcs_Ok id r q o vnet :
  Net.router id n = Ok r -> vec_at (Router.m_output_unit r) q = Ok o ->
  0 <= vnet < NetConfig.m_virtual_networks (Net.cfg n) ->
  exists k, OutputUnit.getNumFreeVCs (Net.curCycle n) vnet o = Ok k /\ 0 <= k.
Proof.
  intros Hr Ho Hv. destruct (rf_outvcs _ _ _ (mn_routers n Hn id r Hr) q o Ho) as [H0 Hlen].
  destruct (countM_Ok (fun vc => OutputUnit.is_vc_idle vc (Net.curCycle n) o)
              (OutputUnit.vnet_vcs vnet o)) as [k Hk].
  { intros vc Hvc. unfold OutputUnit.vnet_vcs in Hvc. apply in_range in Hvc.
    unfold OutputUnit.is_vc_idle.
    destruct (vec_at_total (OutputUnit.m_outvc_state o) vc) as [w ->]; [nia|]. by eexists. }
  exists k. split; [exact Hk|]. by eapply countM_nonneg.
Qed.

Lemma table_route_Ok id route l :
  offers n id (RouteInfo.net_dest route) l ->
  0 <= RouteInfo.vnet route < NetConfig.m_virtual_networks (Net.cfg n) ->
  exists p, Route.table_route id route n = Ok (p, n) /\ p ∈ l.
Proof.
  intros (r & Hr & Hl) Hv. destruct (pref_outport_spec _ _ _ Hl) as [Hne Hin].
  rewrite (rf_table _ _ _ (mn_routers n Hn id r Hr)) in Hin.
  unfold Route.table_route, Route.lookupRoutingTable. rewrite Hr. cbn. rewrite Hl. cbn.
  set (f := fun outport_id => o ← vec_at (Router.m_output_unit r) outport_id;
              OutputUnit.getNumFreeVCs (Net.curCycle n) (RouteInfo.vnet route) o).
  assert (exists ks, mapM f l = Ok ks /\ Forall (fun k => 0 <= k) ks) as (ks & Hks & Hpos).
  { clear Hne Hl. induction l as [|p l IH]; [by exists []|].
    destruct IH as (ks & Hks & Hpos); [by intros q Hq; apply Hin; right|].
    destruct (vec_at_total (Router.m_output_unit r) p) as [o Ho]; [apply Hin; by left|].
    destruct (free_vcs_Ok id r p o (RouteInfo.vnet route) Hr Ho Hv) as (k & Hk & Hk0).
    assert (f p = Ok k) as Hf by (unfold f; by rewrite Ho).
    exists (k :: ks). split; [|by constructor]. cbn. rewrite Hf. cbn. by rewrite Hks. }
  rewrite Hks. cbn. pose proof (mapM_length _ _ _ Hks) as Hlen.
  destruct (argmax_spec ks) as (m & Hm & _); [by destruct ks, l|done|].
  apply vec_at_inside in Hm.
  destruct (vec_at_total l (Route.argmax ks)) as [p Hp]; [unfold zlen in *; lia|].
  rewrite Hp. cbn. exists p. split; [done|]. apply vec_at_Ok in Hp as [_ Hp].
  by eapply list_elem_of_lookup_2.
Qed.

End TableRoute.

(** ** [outportCompute] *)

(** A packet that the network can route from router [id]. *)
Record routable (n : Net.t) (id : Z) (route : RouteInfo.t) : Prop := {
  rt_dest : in_mesh (Net.cfg n) (RouteInfo.dest_router route);
  rt_vnet : 0 <= RouteInfo.vnet route < NetConfig.m_virtual_networks (Net.cfg n);
  rt_table : exists l, offers n id (RouteInfo.net_dest route) l
}.

(** Routing changes at most the position in the random stream. *)
Definition same_but_random (n n' : Net.t) : Prop := exists k, n' = Net.set_rand_pos k n.

Lemma same_but_random_refl n : same_but_random n n.
Proof. exists (Net.rand_pos n). by destruct n. Qed.

Lemma random_same n : same_but_random n (Net.random n).2.
Proof. by eexists. Qed.

(** The output port is one of router [id]'s. *)
Definition leads_out (n : Net.t) (id q : Z) : Prop :=
  exists r o, Net.router id n = Ok r /\ vec_at (Router.m_output_unit r) q = Ok o.

Section Compute.
Context (n : Net.t) (Hn : mesh_net n) (id : Z) (route : RouteInfo.t).
Hypothesis (Hid : in_mesh (Net.cfg n) id) (Hroute : routable n id route).
Hypothesis (Hne : RouteInfo.dest_router route <> id).

Let h : Mesh.hops := hops_between (NetConfig.m_num_cols (Net.cfg n)) id (RouteInfo.dest_router route).

Lemma coordinates_Ok : Mesh.coordinates (Net.cfg n) id (RouteInfo.dest_router route) = Ok h.
Proof.
  destruct Hroute as [Hd _ _]. apply coordinates_spec; [apply (mn_mesh n Hn)| | |done];
    unfold in_mesh in *; lia.
Qed.

Lemma hops_apart : ~ (Mesh.x_hops h = 0 /\ Mesh.y_hops h = 0).
Proof. by destruct (coordinates_inv _ _ _ _ coordinates_Ok). Qed.

Lemma hops_nonneg : 0 <= Mesh.x_hops h /\ 0 <= Mesh.y_hops h.
Proof. unfold h, hops_between. cbn. lia. Qed.

(** Every direction an algorithm can pick has its output port, in this
    network and in one with another position in the random stream. *)
Lemma direction_port m d : same_but_random n m ->
  (d = Dirn.quadrant_x h /\ 0 < Mesh.x_hops h) \/ (d = Dirn.quadrant_y h /\ 0 < Mesh.y_hops h) ->
  exists q next, Route.port_of id d m = Ok (q, m) /\ closer (Net.cfg n) id (RouteInfo.dest_router route) d next /\ out_port n id d q.
Proof.
  intros [k ->] Hd.
  destruct (quadrant_hop (Net.cfg n) id (RouteInfo.dest_router route) d) as [next Hh];
    [apply (mn_mesh n Hn)|done|apply Hroute|done|].
  destruct (mn_out n Hn _ _ _ (proj1 Hh)) as [q Hq]. exists q, next. split; [|done].
  by apply port_of_found.
Qed.

Lemma picked_port m a rand fx fy d : same_but_random n m ->
  mesh_dirn a h rand fx fy = Some d ->
  exists q next, Route.port_of id d m = Ok (q, m) /\ closer (Net.cfg n) id (RouteInfo.dest_router route) d next /\ out_port n id d q.
Proof.
  intros Hm Hd. apply direction_port; [done|].
  eapply mesh_dirn_quadrant; [apply hops_apart|apply hops_nonneg..|exact Hd].
Qed.

Lemma adaptive_port_Ok m rand : same_but_random n m ->
  0 < Mesh.x_hops h -> 0 < Mesh.y_hops h ->
  exists q d next, Route.adaptive_port id h rand m = Ok (q, m) /\
    closer (Net.cfg n) id (RouteInfo.dest_router route) d next /\ out_port n id d q.
Proof.
  intros [k ->] Hx Hy. unfold Route.adaptive_port.
  assert (mesh_net (Net.set_rand_pos k n)) as Hm by (destruct Hn; by split).
  destruct (direction_port n (Dirn.quadrant_x h)) as (_ & nx & _ & [Hhx _] & _);
    [apply same_but_random_refl|by left|].
  destruct (direction_port n (Dirn.quadrant_y h)) as (_ & ny & _ & [Hhy _] & _);
    [apply same_but_random_refl|by right|].
  rewrite <- opposite_quadrant_x, <- opposite_quadrant_y.
  destruct (neighbour_free_Ok _ Hm id _ _ Hhx) as [fx ->]. cbn.
  destruct (neighbour_free_Ok _ Hm id _ _ Hhy) as [fy ->]. cbn.
  destruct (direction_port (Net.set_rand_pos k n) (Dirn.adaptive h fx fy rand))
    as (q & next & Hp & Hh & Ho); [by eexists| |].
  { unfold Dirn.adaptive. repeat case_match; auto. }
  rewrite Hp. exists q. eexists _, next. done.
Qed.

(** The answer is the output port of a neighbour. *)
Definition routes_out (x : Res (Z * Net.t)) : Prop :=
  exists q n' d next, x = Ok (q, n') /\ same_but_random n n' /\
    closer (Net.cfg n) id (RouteInfo.dest_router route) d next /\ out_port n id d q.

Lemma picked_routes m a rand fx fy d : same_but_random n m ->
  mesh_dirn a h rand fx fy = Some d -> routes_out (Route.port_of id d m).
Proof.
  intros Hm Hd. destruct (picked_port m a rand fx fy d Hm Hd) as (q & next & Hp & ? & ?).
  by exists q, m, d, next.
Qed.

Lemma XY_routes : routes_out (Route.outportComputeXY id route n).
Proof.
  unfold Route.outportComputeXY. rewrite (my_id_Ok n Hn id Hid). cbn [mbind Res_bind].
  rewrite coordinates_Ok. cbn [mbind Res_bind].
  destruct (mesh_dirn_defined XY_ h 0 0 0) as [d Hd];
    [by left|apply hops_apart|apply hops_nonneg..|].
  pose proof (picked_routes n XY_ 0 0 0 d (same_but_random_refl n) Hd) as Hp.
  cbn in Hd. destruct (Dirn.XY h); [|done]. by simplify_eq.
Qed.

Lemma Random_routes : routes_out (Route.outportComputeRandom id route n).
Proof.
  unfold Route.outportComputeRandom. rewrite (my_id_Ok n Hn id Hid). cbn [mbind Res_bind].
  rewrite coordinates_Ok. cbn [mbind Res_bind].
  destruct ((Mesh.x_hops h =? 0) || (Mesh.y_hops h =? 0)).
  - exact (picked_routes n RANDOM_ 0 0 0 _ (same_but_random_refl n) eq_refl).
  - exact (picked_routes _ RANDOM_ _ 0 0 _ (random_same n) eq_refl).
Qed.

Lemma quadrant_routes m : same_but_random n m ->
  (0 < Mesh.x_hops h -> routes_out (Route.port_of id (Dirn.quadrant_x h) m)) /\
  (0 < Mesh.y_hops h -> routes_out (Route.port_of id (Dirn.quadrant_y h) m)).
Proof.
  intros Hm. split; intros Hpos;
    [destruct (direction_port m (Dirn.quadrant_x h) Hm) as (q & next & Hp & ? & ?); [by left|]
    |destruct (direction_port m (Dirn.quadrant_y h) Hm) as (q & next & Hp & ? & ?); [by right|]];
    by eexists q, m, _, next.
Qed.

Lemma adaptive_routes m rand : same_but_random n m -> 0 < Mesh.x_hops h -> 0 < Mesh.y_hops h ->
  routes_out (Route.adaptive_port id h rand m).
Proof.
  intros Hm Hx Hy. destruct (adaptive_port_Ok m rand Hm Hx Hy) as (q & d & next & Hp & ? & ?).
  by exists q, m, d, next.
Qed.

Lemma AdaptRand_routes : routes_out (Route.outportComputeAdaptRand id route n).
Proof.
  unfold Route.outportComputeAdaptRand. rewrite (my_id_Ok n Hn id Hid). cbn [mbind Res_bind].
  rewrite coordinates_Ok. cbn [mbind Res_bind].
  pose proof hops_apart. pose proof hops_nonneg.
  destruct (Z.eqb_spec (Mesh.x_hops h) 0), (Z.eqb_spec (Mesh.y_hops h) 0);
    [tauto|apply quadrant_routes; [apply same_but_random_refl|lia]..|].
  apply adaptive_routes; [apply random_same|lia..].
Qed.

Lemma WestFirst_routes : routes_out (Route.outportComputeWestFirst id route n).
Proof.
  unfold Route.outportComputeWestFirst. rewrite (my_id_Ok n Hn id Hid). cbn [mbind Res_bind].
  rewrite coordinates_Ok. cbn [mbind Res_bind].
  exact (picked_routes _ WestFirst_ _ 0 0 _ (random_same n) eq_refl).
Qed.

Lemma AdaptWestFirst_routes : routes_out (Route.outportComputeAdaptWestFirst id route n).
Proof.
  unfold Route.outportComputeAdaptWestFirst. rewrite (my_id_Ok n Hn id Hid). cbn [mbind Res_bind].
  rewrite coordinates_Ok. cbn [mbind Res_bind].
  pose proof hops_apart. pose proof hops_nonneg.
  rewrite (surjective_pairing (Net.random n)). cbv beta iota.
  destruct (Z.eqb_spec (Mesh.x_hops h) 0), (Z.eqb_spec (Mesh.y_hops h) 0);
    [tauto|apply quadrant_routes; [apply random_same|lia]..|].
  destruct (Mesh.x_dirn h) eqn:E; cbn [negb].
  - apply adaptive_routes; [apply random_same|lia..].
  - assert ("West" = Dirn.quadrant_x h) as -> by (unfold Dirn.quadrant_x; by rewrite E).
    apply quadrant_routes; [apply random_same|lia].
Qed.

End Compute.

Lemma leads_out_member n id route l p :
  mesh_net n -> offers n id (RouteInfo.net_dest route) l -> p ∈ l -> leads_out n id p.
Proof.
  intros Hn (r & Hr & Hl) Hp. apply (proj2 (pref_outport_spec _ _ _ Hl)) in Hp.
  rewrite (rf_table _ _ _ (mn_routers n Hn id r Hr)) in Hp.
  destruct (vec_at_total _ _ Hp) as [o Ho]. by exists r, o.
Qed.

Lemma leads_out_inside n id q : leads_out n id q -> 0 <= q.
Proof. intros (r & o & _ & Ho). apply vec_at_inside in Ho. lia. Qed.

Lemma table_port n id route m : mesh_net n -> routable n id route -> same_but_random n m ->
  exists q, Route.table_route id route m = Ok (q, m) /\ leads_out n id q.
Proof.
  intros Hn [_ Hv [l Hl]] [k ->].
  destruct (table_route_Ok (Net.set_rand_pos k n)) with (id := id) (route := route) (l := l)
    as (q & Hq & Hin); [by destruct Hn; split|done|done|].
  exists q. split; [done|]. by eapply leads_out_member.
Qed.

(** The port of a mesh algorithm. *)
Lemma mesh_port n id route :
  mesh_net n -> in_mesh (Net.cfg n) id -> routable n id route -> RouteInfo.dest_router route <> id ->
  mesh_algorithm (RoutingAlgorithm_of_int (NetConfig.m_routing_algorithm (Net.cfg n))) ->
  routes_out n id route (Route.outportCompute id route n).
Proof.
  intros Hn Hid Hrt Hne Ha. destruct (router_in_mesh n Hn id Hid) as [r Hr].
  unfold Route.outportCompute. rewrite Hr. cbn [mbind Res_bind].
  rewrite (rf_id _ _ _ (mn_routers n Hn id r Hr)), (proj2 (Z.eqb_neq _ _)) by done.
  match goal with |- routes_out n id route (mbind _ ?x) => assert (routes_out n id route x) as Hx end.
  { destruct Ha as [->|[->|[->|[->| ->]]]];
      auto using XY_routes, Random_routes, AdaptRand_routes, WestFirst_routes, AdaptWestFirst_routes. }
  destruct Hx as (q & n' & d & next & -> & Hs & Hh & Ho). cbn [mbind Res_bind].
  pose proof Ho as (r' & o & _ & Hq & _). apply vec_at_inside in Hq.
  rewrite (proj2 (Z.eqb_neq q (-1))) by lia. by exists q, n', d, next.
Qed.

(** The algorithms there are: [CUSTOM_] is a stub that fails. *)
Definition implemented (net : NetConfig.t) : Prop :=
  RoutingAlgorithm_of_int (NetConfig.m_routing_algorithm net) <> CUSTOM_.

Lemma outportCompute_Ok n id route :
  mesh_net n -> in_mesh (Net.cfg n) id -> routable n id route -> implemented (Net.cfg n) ->
  exists q n', Route.outportCompute id route n = Ok (q, n') /\ same_but_random n n' /\ leads_out n id q.
Proof.
  intros Hn Hid Hrt Ha. destruct (router_in_mesh n Hn id Hid) as [r Hr].
  destruct (table_port n id route n Hn Hrt (same_but_random_refl n)) as (q & Hq & Hout).
  pose proof (leads_out_inside _ _ _ Hout) as Hpos.
  destruct (decide (RouteInfo.dest_router route = id)) as [E|Hne].
  { unfold Route.outportCompute. rewrite Hr. cbn [mbind Res_bind].
    rewrite (rf_id _ _ _ (mn_routers n Hn id r Hr)), (proj2 (Z.eqb_eq _ _) E).
    exists q, n. split_and!; [done|apply same_but_random_refl|done]. }
  destruct (RoutingAlgorithm_of_int (NetConfig.m_routing_algorithm (Net.cfg n))) eqn:Ea.
  all: try (destruct (mesh_port n id route Hn Hid Hrt Hne) as (p & n' & d & next & Hp & Hs & _ & Ho);
    [unfold mesh_algorithm; rewrite Ea; tauto|]; exists p, n'; split_and!; [done..|];
    destruct Ho as (r' & o & ? & ? & _); by exists r', o).
  all: try done.
  all: unfold Route.outportCompute; rewrite Hr; cbn [mbind Res_bind];
    rewrite (rf_id _ _ _ (mn_routers n Hn id r Hr)), (proj2 (Z.eqb_neq _ _)), Ea by done;
    rewrite Hq; cbn [mbind Res_bind]; rewrite (proj2 (Z.eqb_neq q (-1))) by lia;
    exists q, n; split_and!; [done|apply same_but_random_refl|done].
Qed.

(** C15: on a wired mesh every mesh algorithm routes every routable packet:
    [outportCompute] always returns, with the output port of a neighbour
    that lies in the mesh and is exactly one hop closer to the destination,
    and changes nothing but the position in the random stream. *)
Theorem mesh_routing_minimal n id route :
  mesh_net n ->
  mesh_algorithm (RoutingAlgorithm_of_int (NetConfig.m_routing_algorithm (Net.cfg n))) ->
  in_mesh (Net.cfg n) id -> routable n id route -> RouteInfo.dest_router route <> id ->
  exists q d next k,
    Route.outportCompute id route n = Ok (q, Net.set_rand_pos k n) /\
    out_port n id d q /\ Mesh.get_upstreamId (cols n) d id = Ok next /\ in_mesh (Net.cfg n) next /\
    distance (cols n) next (RouteInfo.dest_router route)
    = distance (cols n) id (RouteInfo.dest_router route) - 1.
Proof.
  intros Hn Ha Hid Hrt Hne.
  destruct (mesh_port n id route Hn Hid Hrt Hne Ha) as (q & n' & d & next & Hq & [k ->] & Hc & Ho).
  destruct Hc as [(_ & ? & ? & _) ?]. exists q, d, next, k. done.
Qed.

(** ** A test for [mesh_net] *)

Definition all_at {A} (f : Z -> A -> bool) (l : list A) : bool :=
  forallb (fun p => match vec_at l p with Ok x => f p x | Err _ => false end) (range 0 (zlen l)).

Lemma all_at_sound {A} (f : Z -> A -> bool) l p x :
  all_at f l = true -> vec_at l p = Ok x -> f p x = true.
Proof.
  unfold all_at. rewrite forallb_forall. intros H Hx. specialize (H p). rewrite Hx in H.
  apply H, list_elem_of_In, in_range. by eapply vec_at_inside.
Qed.

Definition in_meshb (net : NetConfig.t) (id : Z) : bool :=
  (0 <=? id) && (id <? NetConfig.m_num_rows net * NetConfig.m_num_cols net).

Lemma in_meshb_spec net id : in_meshb net id = true <-> in_mesh net id.
Proof. unfold in_meshb, in_mesh. rewrite andb_true_iff, Z.leb_le, Z.ltb_lt. lia. Qed.

Definition directions : list PortDirection := ["East"; "West"; "North"; "South"].

Definition hopb (net : NetConfig.t) (id : Z) (d : PortDirection) : option Z :=
  match Mesh.get_upstreamId (NetConfig.m_num_cols net) d id with
  | Ok next =>
      let x := xpos (NetConfig.m_num_cols net) in
      if in_meshb net id && in_meshb net next &&
         (bool_decide (d = "East") && (x next =? x id + 1) ||
          (bool_decide (d = "West") && (x next =? x id - 1)) ||
          bool_decide (d = "North") || bool_decide (d = "South"))
      then Some next else None
  | Err _ => None
  end.

Lemma hopb_spec net id d next : hopb net id d = Some next <-> hop net id d next.
Proof.
  unfold hopb, hop. destruct (Mesh.get_upstreamId _ d id) as [j|e].
  - rewrite <- !in_meshb_spec. case_match eqn:E; split; intros H; simplify_eq.
    + rewrite !andb_true_iff, !orb_true_iff, !andb_true_iff, !bool_decide_eq_true, !Z.eqb_eq in E.
      destruct E as [[? ?] ?]. split_and!; [done..|tauto].
    + destruct H as (_ & _ & H & _). by injection H as ->.
    + destruct H as (H1 & H2 & H & Hd). injection H as ->. exfalso. revert E.
      apply not_false_iff_true.
      rewrite !andb_true_iff, !orb_true_iff, !andb_true_iff, !bool_decide_eq_true, !Z.eqb_eq. tauto.
  - split; [done|]. by intros (_ & _ & ? & _).
Qed.

Definition router_fitsb (net : NetConfig.t) (id : Z) (r : Router.t) : bool :=
  (Router.m_id r =? id) &&
  all_at (fun p u => (InputUnit.m_id u =? p) && (0 <=? InputUnit.m_vc_per_vnet u) &&
                     (InputUnit.m_vc_per_vnet u <=? zlen (InputUnit.m_vcs u))) (Router.m_input_unit r) &&
  all_at (fun q o => (0 <=? OutputUnit.m_vc_per_vnet o) &&
                     (NetConfig.m_virtual_networks net * OutputUnit.m_vc_per_vnet o
                        <=? zlen (OutputUnit.m_outvc_state o)) &&
                     (bool_decide (OutputUnit.m_direction o = "Local") ||
                      bool_decide (is_Some (hopb net id (OutputUnit.m_direction o)))))
    (Router.m_output_unit r) &&
  (zlen (RoutingUnit.m_routing_table (Router.m_routing_unit r)) =? zlen (Router.m_output_unit r)).

Lemma router_fitsb_sound net id r : router_fitsb net id r = true -> router_fits net id r.
Proof.
  unfold router_fitsb. rewrite !andb_true_iff. intros [[[H1 H2] H3] H4]. split.
  - by apply Z.eqb_eq.
  - intros p u Hu. apply (all_at_sound _ _ _ _ H2) in Hu. cbn in Hu. zbool. lia.
  - intros q o Ho. apply (all_at_sound _ _ _ _ H3) in Ho. cbn in Ho. zbool. lia.
  - intros q o Ho. apply (all_at_sound _ _ _ _ H3) in Ho. cbn in Ho.
    apply andb_true_iff in Ho as [_ Ho]. rewrite orb_true_iff, !bool_decide_eq_true in Ho.
    destruct Ho as [?|[next Hx]]; [by left|]. right. exists next. by apply hopb_spec.
  - by apply Z.eqb_eq.
Qed.

(** The port of the neighbour in a direction, if there is one. *)
Definition has_ports (n : Net.t) (id : Z) (d : PortDirection) : bool :=
  match hopb (Net.cfg n) id d with
  | None => true
  | Some _ =>
      match Net.router id n with
      | Err _ => false
      | Ok r =>
          match RoutingUnit.m_inports_dirn2idx (Router.m_routing_unit r) !! d,
                RoutingUnit.m_outports_dirn2idx (Router.m_routing_unit r) !! d with
          | Some p, Some q =>
              match vec_at (Router.m_input_unit r) p, vec_at (Router.m_output_unit r) q with
              | Ok u, Ok o => bool_decide (InputUnit.m_direction u = d) &&
                              bool_decide (OutputUnit.m_direction o = d)
              | _, _ => false
              end
          | _, _ => false
          end
      end
  end.

Lemma has_ports_sound n id d next : has_ports n id d = true -> hop (Net.cfg n) id d next ->
  (exists p, in_port n id d p) /\ (exists q, out_port n id d q).
Proof.
  unfold has_ports. intros H Hh. apply hopb_spec in Hh. rewrite Hh in H.
  destruct (Net.router id n) as [r|] eqn:Hr; [|done].
  destruct (_ !! d) as [p|] eqn:Hp; [|done]. destruct (_ !! d) as [q|] eqn:Hq in H; [|done].
  destruct (vec_at _ p) as [u|] eqn:Hu; [|done]. destruct (vec_at _ q) as [o|] eqn:Ho in H; [|done].
  apply andb_true_iff in H as [H1%bool_decide_eq_true H2%bool_decide_eq_true].
  split; [exists p, r, u|exists q, r, o]; done.
Qed.

Definition mesh_netb (n : Net.t) : bool :=
  (0 <? NetConfig.m_num_rows (Net.cfg n)) && (0 <? NetConfig.m_num_cols (Net.cfg n)) &&
  (zlen (Net.m_routers n) =? NetConfig.m_num_rows (Net.cfg n) * NetConfig.m_num_cols (Net.cfg n)) &&
  all_at (router_fitsb (Net.cfg n)) (Net.m_routers n) &&
  forallb (fun id => forallb (has_ports n id) directions) (range 0 (zlen (Net.m_routers n))).

Lemma mesh_netb_sound n : mesh_netb n = true -> mesh_net n.
Proof.
  unfold mesh_netb. rewrite !andb_true_iff. intros [[[[H1 H2] H3] H4] H5]. zbool.
  assert (forall id d next, hop (Net.cfg n) id d next ->
    (exists p, in_port n id d p) /\ (exists q, out_port n id d q)) as Hports.
  { intros id d next Hh. eapply has_ports_sound; [|exact Hh].
    rewrite forallb_forall in H5. specialize (H5 id). rewrite forallb_forall in H5.
    destruct Hh as (Hid & _ & _ & Hd). apply H5; apply list_elem_of_In.
    - apply in_range. rewrite H3. exact Hid.
    - unfold directions. set_solver. }
  split; [split; lia|lia| | |].
  - intros id r Hr. apply router_fitsb_sound. by eapply all_at_sound.
  - intros. by eapply Hports.
  - intros. by eapply Hports.
Qed.

(** The routing table of router [id] knows the destination. *)
Definition offersb (n : Net.t) (id : Z) (dest : NetDest.t) : bool :=
  match Net.router id n with
  | Ok r => is_ok (Route.lookupRoutingTable_pref_outport dest (Router.m_routing_unit r))
  | Err _ => false
  end.

Lemma offersb_sound n id dest : offersb n id dest = true -> exists l, offers n id dest l.
Proof.
  unfold offersb, offers. destruct (Net.router id n) as [r|]; [|done].
  destruct (Route.lookupRoutingTable_pref_outport dest (Router.m_routing_unit r)) as [l|] eqn:E; [|done].
  intros _. by exists l, r.
Qed.

Definition routableb (n : Net.t) (id : Z) (route : RouteInfo.t) : bool :=
  in_meshb (Net.cfg n) (RouteInfo.dest_router route) && (0 <=? RouteInfo.vnet route) &&
  (RouteInfo.vnet route <? NetConfig.m_virtual_networks (Net.cfg n)) &&
  offersb n id (RouteInfo.net_dest route).

Lemma routableb_sound n id route : routableb n id route = true -> routable n id route.
Proof.
  unfold routableb. rewrite !andb_true_iff, in_meshb_spec. intros [[[? ?] ?] ?]. zbool.
  split; [done|lia|by apply offersb_sound].
Qed.

Module MeshExample.
Import Example.

(** The 2x2 mesh with the adaptive west-first algorithm, and a packet from
    router 1 to router 2. *)
Definition west_net : Net.t := net_with (cfg_with 5 false).

Definition route12 : RouteInfo.t := RouteInfo.mk 0 (dests 4) 1 1 2 2 0.

Lemma west_net_mesh : mesh_net west_net.
Proof. apply mesh_netb_sound. vm_compute. reflexivity. Qed.

Lemma mesh_routing_minimal_witness :
  mesh_net west_net /\ routable west_net 1 route12 /\
  exists q d next k,
    Route.outportCompute 1 route12 west_net = Ok (q, Net.set_rand_pos k west_net) /\
    out_port west_net 1 d q /\ Mesh.get_upstreamId (cols west_net) d 1 = Ok next /\
    in_mesh (Net.cfg west_net) next /\
    distance (cols west_net) next 2 = distance (cols west_net) 1 2 - 1.
Proof.
  assert (routable west_net 1 route12) as Hr
    by (apply routableb_sound; vm_compute; reflexivity).
  split; [exact west_net_mesh|]. split; [exact Hr|].
  apply (mesh_routing_minimal west_net 1 route12 west_net_mesh); [| |exact Hr|discriminate].
  - vm_compute. tauto.
  - apply in_meshb_spec. vm_compute. reflexivity.
Defined.

End MeshExample.
