(* ===== verification/RouterStep.v ===== *)
(** * [Router::wakeup]: one cycle of a router and the DRAIN state machine

    Models src/mem/ruby/network/garnet2.0/Router.cc, [wakeup] and
    [collateStats]. The halt, spin and release phases are the three branches
    of the conditional on the cycle and the network's lock. *)

From S2P Require Import Prelude NetDest Types FlitBuffer Channels RouterCore MsgBuffer NetState Routing Network Spin.

Module RouterStep.

Definition pre_drain_delay : Z := 2.

Definition increment_num_drain (n : Net.t) : Net.t :=
  Net.set_dstats (DrainStats.increment_num_drain (Net.dstats n)) n.

Definition drain_vc (vc_ : Z) (n : Net.t) : Res Net.t :=
  Spin.doSpin vc_ (increment_num_drain n).

(** The base virtual channel of every virtual network, and all virtual
    channels, of router [r]. *)
Definition base_vcs (r : Router.t) : list Z :=
  map (fun vnet_ => vnet_ * Router.m_vc_per_vnet r) (range 0 (Router.m_virtual_networks r)).

Definition all_vcs (r : Router.t) : list Z := range 0 (Router.m_num_vcs r).

Definition drained_vcs (net : NetConfig.t) (r : Router.t) : list Z :=
  if NetConfig.drain_all_vc net =? 1 then all_vcs r else base_vcs r.

(** A random number of spins drains base channels only. *)
Definition spins (r : Router.t) (n : Net.t) : Res Net.t :=
  let net := Net.cfg n in
  if NetConfig.m_spin_mult net =? 0 then
    let '(v, n) := Net.random n in
    foldM (fun _ n => foldM drain_vc (base_vcs r) n) (range 0 (Z.rem v 10)) n
  else if NetConfig.m_spin_mult net >? 0 then
    foldM (fun _ n => foldM drain_vc (drained_vcs net r) n)
      (range 0 (NetConfig.m_spin_mult net)) n
  else Ok n.

(** The cycle is a multiple of the threshold: the first router to wake halts
    the network and takes the lock. *)
Definition start_drain (id : Z) (n : Net.t) : Res Net.t :=
  r ← Net.router id n;
  n ← (if negb (Router.halt_ r) then
         let n := GarnetNetwork.set_halt true n in
         _ ← assert_ (Net.lock n =? -1) "Router.cc:152";
         Ok (GarnetNetwork.scheduleAll_wakeup (pre_drain_delay + 1) n)
       else Ok n);
  if Net.lock n =? -1 then
    _ ← GarnetNetwork.chck_link_state (Net.set_lock (Router.m_id r) n);
    Ok (Net.set_lock (Router.m_id r) n)
  else Ok n.

(** More than [pre_drain_delay] cycles later, with the lock taken: the halt
    ends, the ring is spun and the lock released. [assert(halt_ = true)]
    assigns, so the test of [halt_] that follows always holds. *)
Definition do_drain (id : Z) (n : Net.t) : Res Net.t :=
  n ← Net.upd_router id (fun r => Ok (Router.set_halt_ true r)) n;
  r ← Net.router id n;
  n ← (if Router.halt_ r then
         let n := GarnetNetwork.set_halt false n in
         spin_safe_ ← GarnetNetwork.chck_link_state n;
         _ ← assert_ spin_safe_ "Router.cc:184";
         n ← spins r n;
         foldM GarnetNetwork.set_flit_time (drained_vcs (Net.cfg n) r) n
       else Ok n);
  let n := Net.set_lock (-1) n in
  let n := GarnetNetwork.schedule_wakeup 3 n in
  Ok (GarnetNetwork.scheduleAll_wakeup (u32 (2 * NetConfig.m_spin_mult (Net.cfg n))) n).

(** The cycles in between: the holder of the lock checks the links, and by
    the second cycle they must be empty. *)
Definition wait_drain (id : Z) (n : Net.t) : Res Net.t :=
  r ← Net.router id n;
  let holder := Router.m_id r =? Net.lock n in
  spin_safe_ ← (if holder then GarnetNetwork.chck_link_state n else Ok false);
  if (Net.curCycle n mod NetConfig.m_spin_thrshld (Net.cfg n) =? 2) && holder then
    _ ← assert_ spin_safe_ "Router.cc:246"; Ok n
  else Ok n.

Definition drain_step (id : Z) (n : Net.t) : Res Net.t :=
  let net := Net.cfg n in
  let cycle := Net.curCycle n in
  let thr := NetConfig.m_spin_thrshld net in
  if NetConfig.m_spin net then
    if (cycle >? 0) && (cycle mod thr =? 0) then start_drain id n
    else if (cycle >? thr) && (cycle mod thr >? pre_drain_delay)
            && negb (Net.lock n =? -1) then do_drain id n
    else if cycle mod thr <? 3 then wait_drain id n
    else Ok n
  else Ok n.

Definition switch_allocation (id : Z) (n : Net.t) : Res Net.t :=
  Net.on_router id (SA.wakeup (Net.cfg n) (Net.curCycle n)) n.

Definition switch_traversal (id : Z) (n : Net.t) : Res Net.t :=
  Net.on_router id (XBar.wakeup (Net.cfg n) (Net.curCycle n)) n.

Definition wakeup (id : Z) (n : Net.t) : Res Net.t :=
  n ← GarnetNetwork.input_units_wakeup id n;
  n ← GarnetNetwork.output_units_wakeup id n;
  n ← drain_step id n;
  n ← switch_allocation id n;
  switch_traversal id n.

(** [collateStats]: the buffer activity of all virtual networks. *)
Definition buffer_activity (r : Router.t) : Res (Z * Z) :=
  foldM (fun j st =>
           foldM (fun u '(reads, writes) =>
                    rd ← vec_at (InputUnit.m_num_buffer_reads u) j;
                    wr ← vec_at (InputUnit.m_num_buffer_writes u) j;
                    Ok (reads + rd, writes + wr)) (Router.m_input_unit r) st)
    (range 0 (Router.m_virtual_networks r)) (0, 0).

End RouterStep.
