(* ===== verification/NI.v ===== *)
(** * Network interfaces

    Models src/mem/ruby/network/garnet2.0/NetworkInterface.cc: injection
    (messages from the protocol become flits in the output virtual channels,
    one flit leaves for the router per cycle) and ejection (flits from the
    router go to the protocol buffers, or wait in the stall queue). *)

From S2P Require Import Prelude NetDest Types FlitBuffer Channels RouterCore MsgBuffer NetState Network.

(** ** Operations on the interface's own state *)
Module NIState.
Section NIState.
Variable net : NetConfig.t.
Variable curCycle : Z.
Implicit Types ni : NetworkInterface.t.
Import NetworkInterface.

Definition upd_out_vc (vc : Z) (f : OutVcState.t -> Res OutVcState.t) (ni : NetworkInterface.t)
    : Res NetworkInterface.t :=
  l ← vec_upd (m_out_vc_state ni) vc f; Ok (set_out_vc_state l ni).

Definition set_busy (vnet : Z) (f : Z -> Z) (ni : NetworkInterface.t) : Res NetworkInterface.t :=
  l ← vec_upd (vc_busy_counter ni) vnet (fun x => Ok (f x)); Ok (set_vc_busy_counter l ni).

Definition vc_is_idle (vc : Z) (ni : NetworkInterface.t) : Res bool :=
  s ← vec_at (m_out_vc_state ni) vc;
  Ok (OutVcState.isInState IDLE_ curCycle s).

(** The loop of [calculateVC] for [ni_inj == "rr"]: [iters] probes left; the
    allocator advances at every probe. *)
Fixpoint calculateVC_rr (iters : nat) (vnet : Z) (ni : NetworkInterface.t)
    : Res (Z * NetworkInterface.t) :=
  match iters with
  | O => ni ← set_busy vnet (fun x => x + 1) ni; Ok (-1, ni)
  | S n =>
      delta ← vec_at (m_vc_allocator ni) vnet;
      l ← vec_set (m_vc_allocator ni) vnet
            (if delta + 1 =? m_vc_per_vnet ni then 0 else delta + 1);
      let ni := set_vc_allocator l ni in
      let vc := vnet * m_vc_per_vnet ni + delta in
      b ← vc_is_idle vc ni;
      if (b : bool) then
        ni ← set_busy vnet (fun _ => 0) ni; Ok (vc, ni)
      else calculateVC_rr n vnet ni
  end.

Definition calculateVC_fcfs (vnet : Z) (ni : NetworkInterface.t) : Res (Z * NetworkInterface.t) :=
  o ← findM (fun vc_ => vc_is_idle (vnet * m_vc_per_vnet ni + vc_) ni)
        (range 0 (m_vc_per_vnet ni));
  match o with
  | Some vc_ =>
      ni' ← set_busy vnet (fun _ => 0) ni; Ok (vnet * m_vc_per_vnet ni + vc_, ni')
  | None => ni ← set_busy vnet (fun x => x + 1) ni; Ok (-1, ni)
  end.

Definition calculateVC (vnet : Z) (ni : NetworkInterface.t) : Res (Z * NetworkInterface.t) :=
  if bool_decide (NetConfig.ni_inj net = "rr")
  then calculateVC_rr (Z.to_nat (m_vc_per_vnet ni)) vnet ni
  else if bool_decide (NetConfig.ni_inj net = "fcfs") then calculateVC_fcfs vnet ni
  else Err (AssertFail "NetworkInterface.cc:514").

Definition get_vnet (vc : Z) (ni : NetworkInterface.t) : Res Z :=
  match list_find (fun i => i * m_vc_per_vnet ni <= vc < (i + 1) * m_vc_per_vnet ni)
          (range 0 (m_virtual_networks ni)) with
  | Some (_, i) => Ok i
  | None => Err (FatalError "Could not determine vc")
  end.

Definition out_vc_ready (vc time : Z) (ni : NetworkInterface.t) : Res bool :=
  b ← vec_at (m_ni_out_vcs ni) vc; flitBuffer.isReady time b.

(** The ordering check of [scheduleOutputLink]. *)
Definition is_candidate_vc (vc : Z) (ni : NetworkInterface.t) : Res bool :=
  t_vnet ← get_vnet vc ni;
  let vc_base := t_vnet * m_vc_per_vnet ni in
  ordered ← NetConfig.isVNetOrdered t_vnet net;
  if (ordered : bool) then
    o ← findM (fun vc_offset =>
                 let t_vc := vc_base + vc_offset in
                 r ← out_vc_ready t_vc curCycle ni;
                 if (r : bool) then
                   t1 ← vec_at (m_ni_out_vcs_enqueue_time ni) t_vc;
                   t2 ← vec_at (m_ni_out_vcs_enqueue_time ni) vc;
                   Ok (t1 <? t2)
                 else Ok false)
          (range 0 (m_vc_per_vnet ni));
    Ok (match o with Some _ => false | None => true end)
  else Ok true.

(** The flit of [vc] goes to the queue of the output link. *)
Definition send_flit (vc : Z) (ni : NetworkInterface.t) : Res NetworkInterface.t :=
  ni ← upd_out_vc vc OutVcState.decrement_credit ni;
  b ← vec_at (m_ni_out_vcs ni) vc;
  '(t_flit, b) ← flitBuffer.getTopFlit b;
  bs ← vec_set (m_ni_out_vcs ni) vc b;
  let ni := set_ni_out_vcs bs ni in
  let t_flit := flit.set_time (curCycle + 1) t_flit in
  let ni := set_outFlitQueue (flitBuffer.insert t_flit (outFlitQueue ni)) ni in
  if flit.is_tail t_flit then
    l ← vec_set (m_ni_out_vcs_enqueue_time ni) vc INFINITE_;
    Ok (set_ni_out_vcs_enqueue_time l ni)
  else Ok ni.

Definition may_send (vc : Z) (ni : NetworkInterface.t) : Res bool :=
  r ← out_vc_ready vc curCycle ni;
  if (r : bool) then
    s ← vec_at (m_out_vc_state ni) vc;
    if OutVcState.has_credit s then is_candidate_vc vc ni else Ok false
  else Ok false.

(** [vc++; if (vc == n) vc = 0;] *)
Definition bump (n vc : Z) : Z := if vc + 1 =? n then 0 else vc + 1.

(** The loop of [scheduleOutputLink]; the second result says that the output
    link is to be scheduled for the next cycle. *)
Fixpoint probe_vcs (iters : nat) (vc : Z) (ni : NetworkInterface.t)
    : Res (NetworkInterface.t * bool) :=
  match iters with
  | O => Ok (ni, false)
  | S k =>
      let vc := bump (m_num_vcs ni) vc in
      b ← may_send vc ni;
      if (b : bool) then ni ← send_flit vc ni; Ok (ni, true)
      else probe_vcs k vc ni
  end.

Definition scheduleOutputLink (ni : NetworkInterface.t) : Res (NetworkInterface.t * bool) :=
  let vc := m_vc_round_robin ni in
  let ni := set_vc_round_robin (bump (m_num_vcs ni) vc) ni in
  probe_vcs (Z.to_nat (m_num_vcs ni)) vc ni.

Definition sendCredit (t_flit : flit.t) (is_free : bool) (ni : NetworkInterface.t)
    : NetworkInterface.t :=
  let credit_flit := Credit.new (NetConfig.indeterminate net) (NetConfig.empty_dest net)
                       (flit.m_vc t_flit) is_free curCycle in
  set_outCreditQueue (flitBuffer.insert credit_flit (outCreditQueue ni)) ni.

(** A credit from the router. *)
Definition receive_credit (t_credit : flit.t) (ni : NetworkInterface.t)
    : Res NetworkInterface.t :=
  ni ← upd_out_vc (flit.m_vc t_credit) OutVcState.increment_credit ni;
  free ← Credit.is_free_signal t_credit;
  if (free : bool)
  then upd_out_vc (flit.m_vc t_credit) (fun s => Ok (OutVcState.setState IDLE_ curCycle s)) ni
  else Ok ni.

(** A tail flit that cannot be delivered in this cycle. *)
Definition stall (t_flit : flit.t) (ni : NetworkInterface.t) : Res NetworkInterface.t :=
  l ← vec_upd (m_stall_count ni) (flit.m_vnet t_flit) (fun x => Ok (x + 1));
  Ok (set_stalls (m_stall_queue ni ++ [t_flit]) l ni).

(** [functionalWrite]: the output virtual channels and the output queue. *)
Definition functionalWrite {Packet : Type}
    (msg_write : Packet -> Message.t -> bool * Message.t) (pkt : Packet)
    (ni : NetworkInterface.t) : Res (Z * NetworkInterface.t) :=
  '(k, ni) ← foldM (fun i '(k, ni) =>
               b ← vec_at (m_ni_out_vcs ni) i;
               '(w, b') ← flitBuffer.functionalWrite msg_write pkt b;
               bs ← vec_set (m_ni_out_vcs ni) i b';
               Ok (u32 (k + w), set_ni_out_vcs bs ni))
        (range 0 (m_num_vcs ni)) (0, ni);
  '(w, q) ← flitBuffer.functionalWrite msg_write pkt (outFlitQueue ni);
  Ok (u32 (k + w), set_outFlitQueue q ni).

End NIState.
End NIState.

(** ** Operations that reach the network and the protocol buffers *)
Module NI.
Section NI.

(** [RubySystem::getRandomization()], [RubySystem::getWarmupEnabled()] and
    the value [random_time()] gives to the enqueue into a buffer. *)
Variables (getRandomization getWarmupEnabled : bool) (random_time : Z -> Z).

Definition ni_at (i : Z) (n : Net.t) : Res NetworkInterface.t := vec_at (Net.m_nis n) i.

Definition upd_buffer (b : Z) (f : MessageBuffer.t -> MessageBuffer.t) (n : Net.t) : Res Net.t :=
  l ← vec_upd (Net.msgbufs n) b (fun x => Ok (f x)); Ok (Net.set_msgbufs l n).

(** [outNode_ptr[vnet]] *)
Definition out_node (vnet : Z) (ni : NetworkInterface.t) : Res Z :=
  o ← vec_at (NetworkInterface.outNode_ptr ni) vnet;
  match o with Some b => Ok b | None => Err (NullDeref "outNode_ptr") end.

Definition dequeueCallback (c : consumer) (n : Net.t) : Net.t :=
  Net.schedule_at c (Net.now n + NetConfig.clk_period (Net.cfg n)) n.

(** The delays of [incrementStats]; [Cycles] subtraction may throw. *)
Definition network_delay (t_flit : flit.t) : Res Z :=
  d ← cycles_sub (flit.m_dequeue_time t_flit) (flit.m_enqueue_time t_flit);
  cycles_sub d 1.

Definition queueing_delay (curCycle : Z) (t_flit : flit.t) : Res Z :=
  d ← cycles_sub curCycle (flit.m_dequeue_time t_flit);
  Ok (flit.src_delay t_flit + d).

Definition packet_stats (vnet net_delay q_delay : Z) (t_flit : flit.t) (s : TrafficStats.t)
    : Res TrafficStats.t :=
  let marked := flit.m_marked t_flit in
  if flit.is_tail t_flit then
    s ← NetStats.increment_received_packets vnet marked s;
    s ← NetStats.increment_packet_network_latency net_delay vnet marked s;
    NetStats.increment_packet_queueing_latency q_delay vnet marked s
  else Ok s.

Definition latency_stats (curCycle : Z) (saturation : bool) (t_flit : flit.t)
    (s : TrafficStats.t) : Res TrafficStats.t :=
  let vnet := flit.m_vnet t_flit in
  let marked := flit.m_marked t_flit in
  net_delay ← network_delay t_flit;
  q_delay ← queueing_delay curCycle t_flit;
  let total_delay := q_delay + net_delay in
  s ← NetStats.increment_flit_network_latency net_delay vnet marked s;
  s ← NetStats.increment_flit_queueing_latency q_delay vnet marked s;
  let s := NetStats.update_flit_latency_histogram total_delay marked s in
  let s := NetStats.update_flit_network_latency_histogram net_delay marked s in
  let s := NetStats.update_flit_queueing_latency_histogram q_delay marked s in
  s ← NetStats.update_network_latency_histogram net_delay s;
  let s := if saturation then NetStats.check_network_saturation curCycle s else s in
  s ← packet_stats vnet net_delay q_delay t_flit s;
  Ok (NetStats.increment_total_hops (RouteInfo.hops_traversed (flit.m_route t_flit)) marked s).

Definition incrementStats (t_flit : flit.t) (n : Net.t) : Res Net.t :=
  let net := Net.cfg n in
  let curCycle := Net.curCycle n in
  _ ← (if NetConfig.sim_type net =? 2 then Ok tt
       else assert_ (NetConfig.sim_type net =? 1) "NetworkInterface.cc:180");
  n ← NetStats.increment_received_flits (flit.m_vnet t_flit) (flit.m_marked t_flit) n;
  NetStats.upd (latency_stats curCycle
                  ((NetConfig.sim_type net =? 2) && (curCycle >? NetConfig.warmup_cycles net))
                  t_flit) n.

(** [areNSlotsAvailable(1, curTime)] of a protocol buffer. *)
Definition slot_available (b : Z) (n : Net.t) : Res (bool * Net.t) :=
  mb ← vec_at (Net.msgbufs n) b;
  let '(ok, mb) := MessageBuffer.areNSlotsAvailable 1 (Net.now n) mb in
  n ← upd_buffer b (fun _ => mb) n;
  Ok (ok, n).

(** A flit's message is enqueued to the protocol, a credit goes back and the
    statistics are updated. *)
Definition eject (i b : Z) (t_flit : flit.t) (n : Net.t) : Res Net.t :=
  mb ← vec_at (Net.msgbufs n) b;
  msg ← match flit.m_msg_ptr t_flit with
        | Some m => Ok m
        | None => Err (NullDeref "m_msg_ptr")
        end;
  '(mb, ev) ← MessageBuffer.enqueue getRandomization getWarmupEnabled (random_time b) msg
                (Net.now n) (NetConfig.clk_period (Net.cfg n)) mb;
  n ← upd_buffer b (fun _ => mb) n;
  let n := Net.schedule_at ev.1 ev.2 n in
  n ← Links.upd_ni i
        (fun ni => Ok (NIState.sendCredit (Net.cfg n) (Net.curCycle n) t_flit true ni)) n;
  incrementStats t_flit n.

(** The stalled flit at position [k] of the queue leaves it. *)
Definition unstall (k : nat) (vnet : Z) (ni : NetworkInterface.t) : Res (Z * NetworkInterface.t) :=
  l ← vec_upd (NetworkInterface.m_stall_count ni) vnet (fun x => Ok (x - 1));
  c ← vec_at l vnet;
  Ok (c, NetworkInterface.set_stalls (delete k (NetworkInterface.m_stall_queue ni)) l ni).

(** The loop of [checkStallQueue] from position [k]: [q] are the flits from
    there on. *)
Fixpoint checkStall (i : Z) (k : nat) (q : list flit.t) (n : Net.t) : Res (bool * Net.t) :=
  match q with
  | [] => Ok (false, n)
  | stallFlit :: q' =>
      let vnet := flit.m_vnet stallFlit in
      ni ← ni_at i n;
      b ← out_node vnet ni;
      '(ok, n) ← slot_available b n;
      if (ok : bool) then
        n ← eject i b stallFlit n;
        ni ← ni_at i n;
        '(c, ni) ← unstall k vnet ni;
        n ← Links.upd_ni i (fun _ => Ok ni) n;
        n ← (if c =? 0 then upd_buffer b MessageBuffer.unregisterDequeueCallback n else Ok n);
        Ok (true, n)
      else checkStall i (S k) q' n
  end.

Definition checkStallQueue (i : Z) (n : Net.t) : Res (bool * Net.t) :=
  ni ← ni_at i n;
  checkStall i 0 (NetworkInterface.m_stall_queue ni) n.

(** The flit at the head of the link from the router. *)
Definition receive_flit (i : Z) (messageEnqueuedThisCycle : bool) (t_flit : flit.t) (n : Net.t)
    : Res Net.t :=
  let vnet := flit.m_vnet t_flit in
  if flit.is_tail t_flit then
    '(deliver, n) ←
      (if messageEnqueuedThisCycle then Ok (false, n)
       else ni ← ni_at i n; b ← out_node vnet ni; slot_available b n);
    ni ← ni_at i n;
    b ← out_node vnet ni;
    if (deliver : bool) then eject i b t_flit n
    else
      n ← Links.upd_ni i (NIState.stall t_flit) n;
      upd_buffer b (MessageBuffer.registerDequeueCallback (CNetworkInterface i)) n
  else
    n ← Links.upd_ni i
          (fun ni => Ok (NIState.sendCredit (Net.cfg n) (Net.curCycle n) t_flit false ni)) n;
    _ ← incrementStats t_flit n;
    Err (AssertFail "NetworkInterface.cc:292").

Definition check_in_link (i : Z) (messageEnqueuedThisCycle : bool) (n : Net.t) : Res Net.t :=
  ni ← ni_at i n;
  l ← vec_at (Net.net_links n) (NetworkInterface.inNetLink ni);
  r ← NetworkLink.isReady (Net.curCycle n) l;
  if (r : bool) then
    '(t_flit, l) ← NetworkLink.consumeLink l;
    n ← Links.upd_net_link (NetworkInterface.inNetLink ni) (fun _ => l) n;
    receive_flit i messageEnqueuedThisCycle (flit.set_dequeue_time (Net.curCycle n) t_flit) n
  else Ok n.

Definition check_credit_link (i : Z) (n : Net.t) : Res Net.t :=
  ni ← ni_at i n;
  l ← vec_at (Net.credit_links n) (NetworkInterface.inCreditLink ni);
  r ← NetworkLink.isReady (Net.curCycle n) l;
  if (r : bool) then
    '(t_credit, l) ← NetworkLink.consumeLink l;
    n ← Links.upd_credit_link (NetworkInterface.inCreditLink ni) (fun _ => l) n;
    Links.upd_ni i (NIState.receive_credit (Net.curCycle n) t_credit) n
  else Ok n.

(** ** Injection *)

(** The machine type whose node range holds [destID], and the destination
    set with that node alone. *)
Definition machine_of (mt : MachineTypes) (destID : Z) : option Z :=
  snd <$> list_find (fun m => MachineType_base_number mt m <= destID
                               < MachineType_base_number mt (m + 1))
            (range 0 (MachineType_NUM mt)).

Definition personal_dest (mt : MachineTypes) (destID : Z) : Res (option NetDest.t) :=
  match machine_of mt destID with
  | None => Ok None
  | Some m =>
      d ← NetDest.new mt;
      d ← NetDest.add mt (mkMachineID m (destID - MachineType_base_number mt m)) (NetDest.clear d);
      Ok (Some d)
  end.

(** The message at the front of buffer [b], written through its pointer. *)
Definition set_front_dest (d : NetDest.t) (mb : MessageBuffer.t) : MessageBuffer.t :=
  MessageBuffer.set_heap
    (match MessageBuffer.m_prio_heap mb with
     | m :: l => Message.set_dest d m :: l
     | [] => []
     end) mb.

(** A multicast message: the copy gets the one destination, which is removed
    from the message that stays in the buffer. *)
Definition split_message (b destID : Z) (msg : Message.t) (n : Net.t)
    : Res (Message.t * Net.t) :=
  let mt := NetConfig.machine_types (Net.cfg n) in
  p ← personal_dest mt destID;
  '(new_msg, removed) ←
    match p with
    | Some d => Ok (Message.set_dest d msg, d)
    | None => d ← NetDest.new mt; Ok (msg, d)
    end;
  d' ← NetDest.removeNetDest removed (Message.getDestination msg);
  n ← upd_buffer b (set_front_dest d') n;
  Ok (new_msg, n).

(** Whether the flit is marked; a marked flit uses up one of its router's. *)
Definition take_mark (router_id : Z) (n : Net.t) : Res (bool * Net.t) :=
  let net := Net.cfg n in
  if (NetConfig.sim_type net =? 2) && (Net.curCycle n >? NetConfig.warmup_cycles net) then
    r ← Net.router router_id n;
    if Router.mrkd_flt_ r >? 0 then
      n ← Net.upd_router router_id
            (fun r => Ok (Router.set_mrkd_flt (Router.mrkd_flt_ r - 1) r)) n;
      Ok (true, n)
    else Ok (false, n)
  else Ok (false, n).

Definition ticksToCycles (clk_period t : Z) : Z := (t + clk_period - 1) / clk_period.

(** The one flit of a message (num_flits = 1). *)
Definition inject_flit (i vc vnet : Z) (route : RouteInfo.t) (msg : Message.t) (msg_time : Z)
    (n : Net.t) : Res Net.t :=
  ni ← ni_at i n;
  let rid := NetworkInterface.m_router_id ni in
  '(marked, n) ← take_mark rid n;
  let net := Net.cfg n in
  let fl := flit.new (NetConfig.indeterminate net) 0 vc vnet route 1 msg (Net.curCycle n)
              marked in
  n ← NetStats.upd (NetStats.increment_injected_flits vnet (flit.m_marked fl) rid) n;
  delay ← cycles_sub (Net.curCycle n) (ticksToCycles (NetConfig.clk_period net) msg_time);
  let fl := flit.set_src_delay delay fl in
  bs ← vec_upd (NetworkInterface.m_ni_out_vcs ni) vc (fun q => Ok (flitBuffer.insert fl q));
  n ← Links.upd_ni i (fun ni => Ok (NetworkInterface.set_ni_out_vcs bs ni)) n;
  if flit.is_tail fl
  then NetStats.upd (NetStats.increment_injected_packets vnet (flit.m_marked fl)) n
  else Ok n.

Definition occupy_vc (vc curCycle : Z) (ni : NetworkInterface.t) : Res NetworkInterface.t :=
  l ← vec_set (NetworkInterface.m_ni_out_vcs_enqueue_time ni) vc curCycle;
  NIState.upd_out_vc vc (fun s => Ok (OutVcState.setState ACTIVE_ curCycle s))
    (NetworkInterface.set_ni_out_vcs_enqueue_time l ni).

Definition injection_vnet (net : NetConfig.t) (vnet : Z) : Res Z :=
  if NetConfig.inj_single_vnet net =? 0 then Ok vnet
  else if NetConfig.inj_single_vnet net =? 1 then Ok 0
  else Err (AssertFail "NetworkInterface.cc:398").

(** One destination of a message that acquired [vc]. *)
Definition inject_dest (i b vc vnet destID : Z) (multicast : bool) (n : Net.t) : Res Net.t :=
  mb ← vec_at (Net.msgbufs n) b;
  msg ← MessageBuffer.peekMsgPtr mb;
  '(new_msg, n) ← (if multicast then split_message b destID msg n else Ok (msg, n));
  ni ← ni_at i n;
  dest_router ← Build.get_router_id destID n;
  let route := RouteInfo.mk vnet (Message.getDestination new_msg) (NetworkInterface.m_id ni)
                 (NetworkInterface.m_router_id ni) destID dest_router (-1) in
  n ← inject_flit i vc vnet route new_msg (Message.m_time msg) n;
  Links.upd_ni i (occupy_vc vc (Net.curCycle n)) n.

(** The loop over the destinations; it stops at the first that finds no free
    virtual channel. *)
Fixpoint inject_dests (i b vnet : Z) (multicast : bool) (dests : list Z) (n : Net.t)
    : Res (bool * Net.t) :=
  match dests with
  | [] => Ok (true, n)
  | destID :: dests' =>
      v ← injection_vnet (Net.cfg n) vnet;
      ni ← ni_at i n;
      '(vc, ni) ← NIState.calculateVC (Net.cfg n) (Net.curCycle n) v ni;
      n ← Links.upd_ni i (fun _ => Ok ni) n;
      if vc =? -1 then Ok (false, n)
      else
        n ← inject_dest i b vc vnet destID multicast n;
        inject_dests i b vnet multicast dests' n
  end.

Definition flitisizeMessage (i b vnet : Z) (n : Net.t) : Res (bool * Net.t) :=
  mb ← vec_at (Net.msgbufs n) b;
  msg ← MessageBuffer.peekMsgPtr mb;
  dest_nodes ← NetDest.getAllDest (NetConfig.machine_types (Net.cfg n))
                 (Message.getDestination msg);
  inject_dests i b vnet (zlen dest_nodes >? 1) dest_nodes n.

(** One virtual network of the loop of [wakeup] over the protocol buffers. *)
Definition pick_up (i vnet : Z) (n : Net.t) : Res Net.t :=
  ni ← ni_at i n;
  o ← vec_at (NetworkInterface.inNode_ptr ni) vnet;
  match o with
  | None => Ok n
  | Some b =>
      mb ← vec_at (Net.msgbufs n) b;
      if MessageBuffer.isReady (Net.now n) mb && (Net.lock n =? -1) then
        '(done_, n) ← flitisizeMessage i b vnet n;
        if (done_ : bool) then
          mb ← vec_at (Net.msgbufs n) b;
          '(_, mb, cb) ← MessageBuffer.dequeue (Net.now n) true mb;
          n ← upd_buffer b (fun _ => mb) n;
          Ok (match cb with Some c => dequeueCallback c n | None => n end)
        else Ok n
      else Ok n
  end.

Definition schedule_link (i : Z) (n : Net.t) : Res Net.t :=
  ni ← ni_at i n;
  '(ni, sent) ← NIState.scheduleOutputLink (Net.cfg n) (Net.curCycle n) ni;
  n ← Links.upd_ni i (fun _ => Ok ni) n;
  Ok (if (sent : bool) then Net.schedule (CNetworkLink (NetworkInterface.outNetLink ni)) 1 n
      else n).

Definition checkReschedule (i : Z) (n : Net.t) : Res Net.t :=
  ni ← ni_at i n;
  waiting ← findM (fun it =>
                     match it with
                     | None => Ok false
                     | Some b =>
                         mb ← vec_at (Net.msgbufs n) b;
                         Ok (MessageBuffer.isReady (Net.now n) mb)
                     end) (NetworkInterface.inNode_ptr ni);
  match waiting with
  | Some _ => Ok (Net.schedule (CNetworkInterface i) 1 n)
  | None =>
      flits ← findM (fun vc => NIState.out_vc_ready vc (Net.curCycle n + 1) ni)
                (range 0 (NetworkInterface.m_num_vcs ni));
      Ok (match flits with
          | Some _ => Net.schedule (CNetworkInterface i) 1 n
          | None => n
          end)
  end.

Definition wakeup (i : Z) (n : Net.t) : Res Net.t :=
  ni ← ni_at i n;
  n ← foldM (pick_up i) (range 0 (zlen (NetworkInterface.inNode_ptr ni))) n;
  n ← schedule_link i n;
  n ← checkReschedule i n;
  '(messageEnqueuedThisCycle, n) ← checkStallQueue i n;
  n ← check_in_link i messageEnqueuedThisCycle n;
  n ← check_credit_link i n;
  ni ← ni_at i n;
  Ok (if flitBuffer.getSize (NetworkInterface.outCreditQueue ni) >? 0
      then Net.schedule (CCreditLink (NetworkInterface.outCreditLink ni)) 1 n else n).

End NI.
End NI.
