(* ===== verification/Frames.v ===== *)
(** * What the operations leave alone

    No operation of a router's pipeline, of a link, of an interface or of the
    spin changes a router's identity, its parameters or its halt flag, nor
    the network's lock, configuration or cycle: [same_core] relates the
    states before and after. The DRAIN state machine is proved on top of
    these frame lemmas. *)

From S2P Require Import Prelude NetDest Types FlitBuffer Channels RouterCore MsgBuffer NetState Routing RoutingFacts Network Spin RouterStep NI.

Create HintDb frame.

(** ** Routers *)

(** The members of a router that its pipeline does not change. *)
Definition rsig (r : Router.t) : Z * Z * Z * Z * Z * bool :=
  (Router.m_id r, Router.m_latency r, Router.m_virtual_networks r, Router.m_num_vcs r,
   Router.m_vc_per_vnet r, Router.halt_ r).

Definition csig (c : RC.t) : Z * Z * Z * Z * Z * bool := rsig (RC.router c).

(** Splits a hypothesis about a run that returned into its steps. *)
Ltac step_run H :=
  match type of H with
  | mbind _ _ = Ok _ => inv_bind H
  | (match ?m with Ok _ => _ | Err _ => _ end) = Ok _ => inv_bind H
  | (let '(_, _) := ?p in _) = Ok _ => destruct p eqn:?
  | (if ?b then _ else _) = Ok _ => destruct b eqn:?
  | (match ?o with Some _ => _ | None => _ end) = Ok _ => destruct o eqn:?
  | Err _ = Ok _ => discriminate H
  end.

Ltac run_inv H :=
  repeat (first [step_run H | progress cbn beta iota zeta in H]); simplify_res.

(** The same for every hypothesis about a pair of results. *)
Ltac run_all :=
  repeat match goal with
  | H : Ok _ = Ok _ |- _ => injection H as H; subst
  | H : (_, _) = (_, _) |- _ => injection H; clear H; intros; subst
  | H : mbind _ _ = Ok _ |- _ => step_run H
  | H : (match _ with Ok _ => _ | Err _ => _ end) = Ok _ |- _ => step_run H
  | H : (if _ then _ else _) = Ok _ |- _ => step_run H
  | H : (match _ with Some _ => _ | None => _ end) = Ok _ |- _ => step_run H
  | H : (let '(_, _) := ?p in _) = Ok _ |- _ => destruct p eqn:?
  end; simplify_res.

Lemma Router_upd_input_sig p f r r' : Router.upd_input p f r = Ok r' -> rsig r' = rsig r.
Proof. unfold Router.upd_input. intros H. run_inv H. done. Qed.

Lemma Router_upd_output_sig p f r r' : Router.upd_output p f r = Ok r' -> rsig r' = rsig r.
Proof. unfold Router.upd_output. intros H. run_inv H. done. Qed.

Lemma Router_get_numFreeVC_sig d r k r' :
  Router.get_numFreeVC d r = Ok (k, r') -> rsig r' = rsig r.
Proof.
  unfold Router.get_numFreeVC. intros H. inv_bind H.
  destruct (RoutingUnit.inport_index d _). run_inv H. done.
Qed.

#[export] Hint Resolve Router_upd_input_sig Router_upd_output_sig Router_get_numFreeVC_sig : frame.

Section Pipeline.
Variables (net : NetConfig.t) (cur : Z).

Lemma RC_upd_input_sig p f c c' : RC.upd_input p f c = Ok c' -> csig c' = csig c.
Proof. unfold RC.upd_input. intros H. run_inv H. unfold csig. cbn. eauto with frame. Qed.

Lemma RC_upd_output_sig p f c c' : RC.upd_output p f c = Ok c' -> csig c' = csig c.
Proof. unfold RC.upd_output. intros H. run_inv H. unfold csig. cbn. eauto with frame. Qed.

Lemma schedule_sig who k c : csig (RC.schedule net cur who k c) = csig c.
Proof. done. Qed.

Lemma set_alloc_sig s c : csig (RC.set_alloc s c) = csig c.
Proof. done. Qed.

Lemma add_uturn_sig a b d c : csig (RC.add_uturn a b d c) = csig c.
Proof. done. Qed.

(** Chains the equations of the steps. *)
Ltac chain :=
  repeat match goal with
  | H : RC.upd_input _ _ _ = Ok _ |- _ => apply RC_upd_input_sig in H
  | H : RC.upd_output _ _ _ = Ok _ |- _ => apply RC_upd_output_sig in H
  end; rewrite ?add_uturn_sig, ?schedule_sig, ?set_alloc_sig in *; congruence.

Lemma deflect_to_sig d q p v c c' : SA.deflect_to d q p v c = Ok c' -> csig c' = csig c.
Proof. unfold SA.deflect_to. intros H. run_inv H. chain. Qed.

Lemma disallow_uturn_sig p v d c c' : SA.disallow_uturn p v d c = Ok c' -> csig c' = csig c.
Proof.
  unfold SA.disallow_uturn, SA.deflect. intros H. run_inv H;
    (erewrite deflect_to_sig; [|eassumption]); done.
Qed.

Lemma mark_uturn_sig p v c c' : SA.mark_uturn net p v c = Ok c' -> csig c' = csig c.
Proof.
  unfold SA.mark_uturn. intros H. run_inv H.
  - apply disallow_uturn_sig in H. rewrite H. chain.
  - chain.
  - chain.
Qed.

Lemma place_request_sig o p v c c' : SA.place_request o p v c = Ok c' -> csig c' = csig c.
Proof. unfold SA.place_request. intros H. run_inv H. done. Qed.

Lemma try_invc_sig p v c c' b : SA.try_invc net cur p v c = Ok (c', b) -> csig c' = csig c.
Proof.
  unfold SA.try_invc. intros H. run_inv H; run_all;
    repeat match goal with
    | H : SA.mark_uturn _ _ _ _ = Ok _ |- _ => apply mark_uturn_sig in H
    | H : SA.place_request _ _ _ _ = Ok _ |- _ => apply place_request_sig in H
    end; congruence.
Qed.

Lemma arbitrate_invc_sig k p v c c' :
  SA.arbitrate_invc net cur k p v c = Ok c' -> csig c' = csig c.
Proof.
  revert v c. induction k as [|k IH]; intros v c H; cbn in H; [by simplify_res|].
  inv_bind H. destruct a as [c1 []]; simplify_res.
  - by apply try_invc_sig in E.
  - apply IH in H. apply try_invc_sig in E. congruence.
Qed.

Lemma arbitrate_inports_sig c c' : SA.arbitrate_inports net cur c = Ok c' -> csig c' = csig c.
Proof.
  unfold SA.arbitrate_inports. intros H. run_inv H; [done|].
  revert H. apply (foldM_preserve (fun s => csig s = csig c)); [done|].
  intros p s1 s2 _ Hs Hf. run_inv Hf. apply arbitrate_invc_sig in Hf. congruence.
Qed.

Lemma vc_allocate_sig o p v c x c' :
  SA.vc_allocate cur o p v c = Ok (x, c') -> csig c' = csig c.
Proof. unfold SA.vc_allocate. intros H. run_inv H. run_all. chain. Qed.

Lemma count_uturn_sig p v c c' : SA.count_uturn p v c = Ok c' -> csig c' = csig c.
Proof.
  unfold SA.count_uturn. intros H. run_inv H; [|done].
  apply RC_upd_input_sig in H. by rewrite H.
Qed.

Lemma return_credit_sig p v f c c' : SA.return_credit net cur p v f c = Ok c' -> csig c' = csig c.
Proof.
  unfold SA.return_credit. intros H. run_inv H; run_all; rewrite schedule_sig; chain.
Qed.

Lemma advance_rr_invc_sig p c c' : SA.advance_rr_invc p c = Ok c' -> csig c' = csig c.
Proof. unfold SA.advance_rr_invc. intros H. run_inv H. done. Qed.

Lemma advance_rr_inport_sig p c c' : SA.advance_rr_inport p c = Ok c' -> csig c' = csig c.
Proof. unfold SA.advance_rr_inport. intros H. run_inv H. done. Qed.

Lemma clear_request_sig o p c c' : SA.clear_request o p c = Ok c' -> csig c' = csig c.
Proof. unfold SA.clear_request. intros H. run_inv H. done. Qed.

Lemma grant_switch_sig p f r r' : Router.grant_switch p f r = Ok r' -> rsig r' = rsig r.
Proof. unfold Router.grant_switch. intros H. run_inv H. done. Qed.

Lemma grant_sig o p c c' : SA.grant net cur o p c = Ok c' -> csig c' = csig c.
Proof.
  unfold SA.grant. intros H. run_inv H; run_all;
  repeat match goal with
  | H : SA.advance_rr_invc _ _ = Ok _ |- _ => apply advance_rr_invc_sig in H
  | H : SA.advance_rr_inport _ _ = Ok _ |- _ => apply advance_rr_inport_sig in H
  | H : SA.clear_request _ _ _ = Ok _ |- _ => apply clear_request_sig in H
  | H : SA.vc_allocate _ _ _ _ _ = Ok _ |- _ => apply vc_allocate_sig in H
  | H : SA.count_uturn _ _ _ = Ok _ |- _ => apply count_uturn_sig in H
  | H : SA.return_credit _ _ _ _ _ _ = Ok _ |- _ => apply return_credit_sig in H
  | H : Router.grant_switch _ _ _ = Ok _ |- _ => apply grant_switch_sig in H
  | H : RC.upd_input _ _ _ = Ok _ |- _ => apply RC_upd_input_sig in H
  | H : RC.upd_output _ _ _ = Ok _ |- _ => apply RC_upd_output_sig in H
  end; rewrite ?set_alloc_sig in *; unfold csig in *; cbn in *; congruence.
Qed.

Lemma arbitrate_inport_sig k o p c c' :
  SA.arbitrate_inport net cur k o p c = Ok c' -> csig c' = csig c.
Proof.
  revert p c. induction k as [|k IH]; intros p c H; cbn in H; [by simplify_res|].
  inv_bind H. destruct a; [by apply grant_sig in H | by apply IH in H].
Qed.

Lemma arbitrate_outports_sig c c' : SA.arbitrate_outports net cur c = Ok c' -> csig c' = csig c.
Proof.
  unfold SA.arbitrate_outports. intros H. run_inv H; [done|].
  revert H. apply (foldM_preserve (fun s => csig s = csig c)); [done|].
  intros p s1 s2 _ Hs Hf. run_inv Hf. apply arbitrate_inport_sig in Hf. congruence.
Qed.

Lemma check_for_wakeup_sig c c' : SA.check_for_wakeup net cur c = Ok c' -> csig c' = csig c.
Proof. unfold SA.check_for_wakeup. intros H. inv_bind H. simplify_res. by destruct a. Qed.

Lemma SA_wakeup_sig c c' : SA.wakeup net cur c = Ok c' -> csig c' = csig c.
Proof.
  unfold SA.wakeup. intros H. run_inv H. apply check_for_wakeup_sig in H.
  apply arbitrate_outports_sig in E0. apply arbitrate_inports_sig in E.
  unfold SA.clear_request_vector in H. rewrite set_alloc_sig in H. congruence.
Qed.

Lemma traverse_sig p c c' : XBar.traverse net cur p c = Ok c' -> csig c' = csig c.
Proof.
  unfold XBar.traverse. intros H. run_inv H; try done; run_all.
  match goal with
  | H : RC.upd_output _ _ _ = Ok _ |- _ => apply RC_upd_output_sig in H; by rewrite <- H
  end.
Qed.

Lemma XBar_wakeup_sig c c' : XBar.wakeup net cur c = Ok c' -> csig c' = csig c.
Proof.
  unfold XBar.wakeup. intros H. revert H.
  apply (foldM_preserve (fun s => csig s = csig c)); [done|].
  intros p s1 s2 _ Hs Hf. apply traverse_sig in Hf. congruence.
Qed.

End Pipeline.

(** ** The network *)

(** The part of the state the DRAIN protocol is about. *)
Definition core (n : Net.t) : NetConfig.t * Z * Z * list (Z * Z * Z * Z * Z * bool) :=
  (Net.cfg n, Net.curCycle n, Net.lock n, map rsig (Net.m_routers n)).

Lemma upd_router_core id f n n' :
  (forall r r', Net.router id n = Ok r -> f r = Ok r' -> rsig r' = rsig r) ->
  Net.upd_router id f n = Ok n' -> core n' = core n.
Proof.
  intros Hf H. apply upd_router_inv in H as (r & r' & Hr & Hr' & ->).
  unfold core. cbn. f_equal. apply Hf in Hr'; [|done].
  apply vec_at_Ok in Hr as [_ Hr].
  change (map rsig (<[Z.to_nat id := r']> (Net.m_routers n)))
    with (rsig <$> <[Z.to_nat id := r']> (Net.m_routers n)).
  rewrite list_fmap_insert, Hr'. apply list_insert_id. by rewrite list_lookup_fmap, Hr.
Qed.

Lemma upd_input_core id p f n n' : Net.upd_input id p f n = Ok n' -> core n' = core n.
Proof. apply upd_router_core. eauto with frame. Qed.

Lemma upd_output_core id p f n n' : Net.upd_output id p f n = Ok n' -> core n' = core n.
Proof. apply upd_router_core. eauto with frame. Qed.

Lemma schedule_core c k n : core (Net.schedule c k n) = core n.
Proof. done. Qed.

Lemma schedule_at_core c k n : core (Net.schedule_at c k n) = core n.
Proof. done. Qed.

Lemma random_core n : core (Net.random n).2 = core n.
Proof. done. Qed.

Lemma set_dstats_core s n : core (Net.set_dstats s n) = core n.
Proof. done. Qed.

Lemma set_tstats_core s n : core (Net.set_tstats s n) = core n.
Proof. done. Qed.

Lemma on_router_core id stage n n' :
  (forall c c', stage c = Ok c' -> csig c' = csig c) ->
  Net.on_router id stage n = Ok n' -> core n' = core n.
Proof.
  intros Hs H. unfold Net.on_router in H. run_inv H. apply Hs in E0. unfold csig in E0. cbn in E0.
  apply vec_set_inv in E1 as [_ ->]. unfold core. cbn. f_equal.
  apply vec_at_Ok in E as [_ E].
  change (map rsig (<[Z.to_nat id := RC.router a0]> (Net.m_routers n)))
    with (rsig <$> <[Z.to_nat id := RC.router a0]> (Net.m_routers n)).
  rewrite list_fmap_insert, E0. apply list_insert_id. by rewrite list_lookup_fmap, E.
Qed.

(** Closes [core n' = core n] from the frame lemmas of the steps. *)
Ltac core_simpl :=
  rewrite ?schedule_core, ?schedule_at_core, ?set_dstats_core, ?set_tstats_core in *.

Lemma port_of_core id d n p n' : Route.port_of id d n = Ok (p, n') -> core n' = core n.
Proof.
  unfold Route.port_of. intros H. inv_bind H. destruct (RoutingUnit.outport_index d _).
  run_inv H. revert E0. apply upd_router_core. intros. by simplify_res.
Qed.

Lemma neighbour_free_core id d e n k n' :
  Route.neighbour_free id d e n = Ok (k, n') -> core n' = core n.
Proof.
  unfold Route.neighbour_free. intros H. run_inv H; run_all.
  match goal with
  | Hr : Net.router ?j n = Ok ?r, Hf : Router.get_numFreeVC _ ?r = Ok _,
    H : Net.upd_router ?j _ _ = Ok _ |- _ =>
      apply Router_get_numFreeVC_sig in Hf; revert H; apply upd_router_core;
      intros; simplify_res; congruence
  end.
Qed.

Lemma adaptive_port_core id h rand n p n' :
  Route.adaptive_port id h rand n = Ok (p, n') -> core n' = core n.
Proof.
  unfold Route.adaptive_port. intros H. run_inv H; run_all.
  apply neighbour_free_core in E. apply neighbour_free_core in E0. apply port_of_core in H.
  congruence.
Qed.

Lemma table_route_core id route n p n' :
  Route.table_route id route n = Ok (p, n') -> core n' = core n.
Proof. unfold Route.table_route. intros H. by run_inv H. Qed.

Lemma outportCompute_core id route n p n' :
  Route.outportCompute id route n = Ok (p, n') -> core n' = core n.
Proof.
  unfold Route.outportCompute. intros H. inv_bind H.
  destruct (_ =? _); [by apply table_route_core in H|].
  run_inv H. destruct (RoutingAlgorithm_of_int _);
    [by apply table_route_core in E0 | | | | | | done | by apply table_route_core in E0];
    [unfold Route.outportComputeXY in E0 | unfold Route.outportComputeRandom in E0
    |unfold Route.outportComputeAdaptRand in E0 | unfold Route.outportComputeWestFirst in E0
    |unfold Route.outportComputeAdaptWestFirst in E0];
    cbn in E0; run_inv E0;
    first [apply port_of_core in E0 | apply adaptive_port_core in E0]; exact E0.
Qed.

Lemma route_compute_core id route p d n q n' :
  Route.route_compute id route p d n = Ok (q, n') -> core n' = core n.
Proof. apply outportCompute_core. Qed.

(** *** Links and ports *)

Lemma upd_ni_core i f n n' : Links.upd_ni i f n = Ok n' -> core n' = core n.
Proof. unfold Links.upd_ni. intros H. by run_inv H. Qed.

Lemma upd_net_link_core i f n n' : Links.upd_net_link i f n = Ok n' -> core n' = core n.
Proof. unfold Links.upd_net_link. intros H. by run_inv H. Qed.

Lemma upd_credit_link_core i f n n' : Links.upd_credit_link i f n = Ok n' -> core n' = core n.
Proof. unfold Links.upd_credit_link. intros H. by run_inv H. Qed.

Lemma write_queue_core q b n n' : Links.write_queue q b n = Ok n' -> core n' = core n.
Proof.
  destruct q; cbn; intros H;
    by first [apply upd_output_core in H | apply upd_input_core in H | apply upd_ni_core in H].
Qed.

Lemma run_link_core l n l' n' : Links.run_link l n = Ok (l', n') -> core n' = core n.
Proof.
  unfold Links.run_link. intros H. run_inv H; run_all.
  apply write_queue_core in E2. match goal with |- context [match ?o with _ => _ end] =>
    destruct o as [[]|] end; done.
Qed.

Lemma network_link_wakeup_core i n n' :
  Links.network_link_wakeup i n = Ok n' -> core n' = core n.
Proof.
  unfold Links.network_link_wakeup. intros H. run_inv H; run_all.
  by apply run_link_core in E0.
Qed.

Lemma credit_link_wakeup_core i n n' :
  Links.credit_link_wakeup i n = Ok n' -> core n' = core n.
Proof.
  unfold Links.credit_link_wakeup. intros H. run_inv H; run_all.
  by apply run_link_core in E0.
Qed.

Ltac use_core :=
  repeat match goal with
  | H : Net.upd_input _ _ _ _ = Ok _ |- _ => apply upd_input_core in H
  | H : Net.upd_output _ _ _ _ = Ok _ |- _ => apply upd_output_core in H
  | H : Links.upd_ni _ _ _ = Ok _ |- _ => apply upd_ni_core in H
  | H : Links.upd_net_link _ _ _ = Ok _ |- _ => apply upd_net_link_core in H
  | H : Links.upd_credit_link _ _ _ = Ok _ |- _ => apply upd_credit_link_core in H
  | H : Route.route_compute _ _ _ _ _ = Ok _ |- _ => apply route_compute_core in H
  | H : Route.port_of _ _ _ = Ok _ |- _ => apply port_of_core in H
  end; core_simpl; try congruence.

Lemma route_head_core id p v u f n f' n' :
  GarnetNetwork.route_head id p v u f n = Ok (f', n') -> core n' = core n.
Proof. unfold GarnetNetwork.route_head. intros H. run_inv H; run_all; use_core. Qed.

Lemma input_wakeup_core id p n n' :
  GarnetNetwork.input_wakeup id p n = Ok n' -> core n' = core n.
Proof.
  unfold GarnetNetwork.input_wakeup. intros H. run_inv H; run_all; try done;
  repeat match goal with
  | H : GarnetNetwork.route_head _ _ _ _ _ _ = Ok _ |- _ => apply route_head_core in H
  end; use_core.
  destruct (_ =? 0); core_simpl; congruence.
Qed.

Lemma output_wakeup_core id p n n' :
  GarnetNetwork.output_wakeup id p n = Ok n' -> core n' = core n.
Proof. unfold GarnetNetwork.output_wakeup. intros H. run_inv H; run_all; use_core. Qed.

Lemma foldM_core {A} (f : A -> Net.t -> Res Net.t) l n n' :
  (forall a n1 n2, f a n1 = Ok n2 -> core n2 = core n1) ->
  foldM f l n = Ok n' -> core n' = core n.
Proof.
  intros Hf. apply (foldM_preserve (fun s => core s = core n)); [done|].
  intros a s1 s2 _ Hs H. apply Hf in H. congruence.
Qed.

Lemma input_units_wakeup_core id n n' :
  GarnetNetwork.input_units_wakeup id n = Ok n' -> core n' = core n.
Proof.
  unfold GarnetNetwork.input_units_wakeup. intros H. inv_bind H. revert H.
  apply foldM_core. apply input_wakeup_core.
Qed.

Lemma output_units_wakeup_core id n n' :
  GarnetNetwork.output_units_wakeup id n = Ok n' -> core n' = core n.
Proof.
  unfold GarnetNetwork.output_units_wakeup. intros H. inv_bind H. revert H.
  apply foldM_core. apply output_wakeup_core.
Qed.

Lemma mapM_sig (f : Router.t -> Res Router.t) l l' :
  (forall r r', f r = Ok r' -> rsig r' = rsig r) -> mapM f l = Ok l' -> map rsig l' = map rsig l.
Proof.
  intros Hf. revert l'. induction l as [|r l IH]; intros l' H; cbn in H; run_inv H; [done|].
  cbn. f_equal; eauto.
Qed.

Lemma set_flit_time_core v n n' : GarnetNetwork.set_flit_time v n = Ok n' -> core n' = core n.
Proof.
  unfold GarnetNetwork.set_flit_time. intros H. run_inv H. unfold core. cbn. f_equal.
  revert E. apply mapM_sig. intros r r' Hr. by run_inv Hr.
Qed.

Lemma scheduleAll_wakeup_core k n : core (GarnetNetwork.scheduleAll_wakeup k n) = core n.
Proof.
  unfold GarnetNetwork.scheduleAll_wakeup. generalize (Net.m_routers n) as l.
  intros l. revert n. induction l as [|r l IH]; intros n; cbn; [done|]. by rewrite IH.
Qed.

(** *** The spin *)

Lemma inport_of_core id d n p n' : Spin.inport_of id d n = Ok (p, n') -> core n' = core n.
Proof.
  unfold Spin.inport_of. intros H. inv_bind H. destruct (RoutingUnit.inport_index d _).
  run_inv H. revert E0. apply upd_router_core. intros. by simplify_res.
Qed.

Lemma on_upstream_core id d w f n n' : Spin.on_upstream id d w f n = Ok n' -> core n' = core n.
Proof. unfold Spin.on_upstream. intros H. run_inv H; run_all; use_core. Qed.

Lemma set_ring_flit_core i f n n' : Spin.set_ring_flit i f n = Ok n' -> core n' = core n.
Proof. unfold Spin.set_ring_flit. intros H. by run_inv H. Qed.

Lemma add_spin_core a b c d n : core (Spin.add_spin a b c d n) = core n.
Proof. done. Qed.

Lemma take_flit_core v i p node n n' : Spin.take_flit v i p node n = Ok n' -> core n' = core n.
Proof.
  unfold Spin.take_flit. intros H. run_inv H; run_all;
  repeat match goal with
  | H : Spin.on_upstream _ _ _ _ _ = Ok _ |- _ => apply on_upstream_core in H
  | H : Spin.set_ring_flit _ _ _ = Ok _ |- _ => apply set_ring_flit_core in H
  | H : context [core (if ?b then _ else _)] |- _ => destruct b
  end; rewrite ?add_spin_core in *; use_core.
Qed.

Lemma remove_stage_core v i st st' :
  Spin.remove_stage v i st = Ok st' -> core st'.2 = core st.2.
Proof.
  unfold Spin.remove_stage. destruct st as [k n]. intros H. run_inv H; run_all; cbn;
  repeat match goal with
  | H : Spin.inport_of _ _ _ = Ok _ |- _ => apply inport_of_core in H
  | H : Spin.set_ring_flit _ _ _ = Ok _ |- _ => apply set_ring_flit_core in H
  | H : Spin.take_flit _ _ _ _ _ = Ok _ |- _ => apply take_flit_core in H
  end; rewrite ?add_spin_core; congruence.
Qed.

Lemma place_flit_core v p node f n n' : Spin.place_flit v p node f n = Ok n' -> core n' = core n.
Proof.
  unfold Spin.place_flit. intros H. run_inv H; run_all;
  repeat match goal with
  | H : Spin.on_upstream _ _ _ _ _ = Ok _ |- _ => apply on_upstream_core in H
  end; use_core;
  repeat match goal with
  | H : context [core (if ?b then _ else _)] |- _ => destruct b
  end; core_simpl; congruence.
Qed.

Lemma insert_stage_core v i st st' :
  Spin.insert_stage v i st = Ok st' -> core st'.2 = core st.2.
Proof.
  unfold Spin.insert_stage. destruct st as [k n]. intros H. run_inv H; run_all; cbn; try done.
  repeat match goal with
  | H : Spin.inport_of _ _ _ = Ok _ |- _ => apply inport_of_core in H
  | H : Spin.place_flit _ _ _ _ _ = Ok _ |- _ => apply place_flit_core in H
  end. congruence.
Qed.

Lemma doSpin_core v n n' : Spin.doSpin v n = Ok n' -> core n' = core n.
Proof.
  unfold Spin.doSpin. intros H. run_inv H; run_all.
  apply (foldM_preserve (fun st => core st.2 = core n)) in E0; cbn in E0.
  - apply (foldM_preserve (fun st => core st.2 = core n)) in E2; cbn in E2; [done|done|].
    intros x s1 s2 _ Hs Hf. apply insert_stage_core in Hf. congruence.
  - done.
  - intros x s1 s2 _ Hs Hf. apply remove_stage_core in Hf. congruence.
Qed.

Lemma spins_core r n n' : RouterStep.spins r n = Ok n' -> core n' = core n.
Proof.
  assert (forall v n1 n2, RouterStep.drain_vc v n1 = Ok n2 -> core n2 = core n1) as Hd.
  { intros v n1 n2 H. by apply doSpin_core in H. }
  assert (forall (l : list Z) vcs n1 n2,
    foldM (fun _ n => foldM RouterStep.drain_vc vcs n) l n1 = Ok n2 -> core n2 = core n1) as Hl.
  { intros l vcs n1 n2. apply foldM_core. intros _ m1 m2. by apply foldM_core. }
  unfold RouterStep.spins. intros H. cbn in H. run_inv H; [|by eapply Hl|done].
  by apply Hl in H.
Qed.

(** *** Network interfaces *)

Section Interfaces.
Variables (rnd warm : bool) (rt : Z -> Z).

Lemma upd_buffer_core b f n n' : NI.upd_buffer b f n = Ok n' -> core n' = core n.
Proof. unfold NI.upd_buffer. intros H. by run_inv H. Qed.

Lemma stats_upd_core f n n' : NetStats.upd f n = Ok n' -> core n' = core n.
Proof. unfold NetStats.upd. intros H. by run_inv H. Qed.

Lemma increment_received_flits_core v m n n' :
  NetStats.increment_received_flits v m n = Ok n' -> core n' = core n.
Proof.
  unfold NetStats.increment_received_flits. intros H. run_inv H; run_all;
    repeat match goal with H : NetStats.upd _ _ = Ok _ |- _ => apply stats_upd_core in H end;
    congruence.
Qed.

Lemma incrementStats_core f n n' : NI.incrementStats f n = Ok n' -> core n' = core n.
Proof.
  unfold NI.incrementStats. intros H. inv_bind H. inv_bind H.
  apply stats_upd_core in H. apply increment_received_flits_core in E0. congruence.
Qed.

Lemma slot_available_core b n r n' : NI.slot_available b n = Ok (r, n') -> core n' = core n.
Proof.
  unfold NI.slot_available. intros H. inv_bind H.
  destruct (MessageBuffer.areNSlotsAvailable _ _ _). run_inv H. by apply upd_buffer_core in E0.
Qed.

Ltac ni_core :=
  repeat match goal with
  | H : NI.upd_buffer _ _ _ = Ok _ |- _ => apply upd_buffer_core in H
  | H : NI.slot_available _ _ = Ok _ |- _ => apply slot_available_core in H
  | H : NI.incrementStats _ _ = Ok _ |- _ => apply incrementStats_core in H
  | H : NetStats.upd _ _ = Ok _ |- _ => apply stats_upd_core in H
  end; use_core.

Lemma eject_core i b f n n' : NI.eject rnd warm rt i b f n = Ok n' -> core n' = core n.
Proof. unfold NI.eject. intros H. run_inv H; run_all; ni_core. Qed.

Lemma checkStall_core i k q n r n' :
  NI.checkStall rnd warm rt i k q n = Ok (r, n') -> core n' = core n.
Proof.
  revert k n. induction q as [|f q IH]; intros k n H; cbn in H; [by simplify_res|].
  run_inv H; run_all;
  repeat match goal with
  | H : NI.eject _ _ _ _ _ _ _ = Ok _ |- _ => apply eject_core in H
  | H : NI.checkStall _ _ _ _ _ _ _ = Ok _ |- _ => apply IH in H
  end; ni_core.
Qed.

Lemma receive_flit_core i m f n n' :
  NI.receive_flit rnd warm rt i m f n = Ok n' -> core n' = core n.
Proof.
  unfold NI.receive_flit. intros H. run_inv H; run_all;
  repeat match goal with
  | H : NI.eject _ _ _ _ _ _ _ = Ok _ |- _ => apply eject_core in H
  end; ni_core.
Qed.

Lemma check_in_link_core i m n n' :
  NI.check_in_link rnd warm rt i m n = Ok n' -> core n' = core n.
Proof.
  unfold NI.check_in_link. intros H. run_inv H; run_all; try done.
  apply receive_flit_core in H. ni_core.
Qed.

Lemma check_credit_link_core i n n' : NI.check_credit_link i n = Ok n' -> core n' = core n.
Proof. unfold NI.check_credit_link. intros H. run_inv H; run_all; try done. ni_core. Qed.

Lemma take_mark_core id n b n' : NI.take_mark id n = Ok (b, n') -> core n' = core n.
Proof.
  unfold NI.take_mark. intros H. run_inv H; run_all; try done.
  match goal with H : Net.upd_router _ _ _ = Ok _ |- _ => revert H end.
  apply upd_router_core. intros. by simplify_res.
Qed.

Lemma inject_flit_core i vc v route m t n n' :
  NI.inject_flit i vc v route m t n = Ok n' -> core n' = core n.
Proof.
  unfold NI.inject_flit. intros H. run_inv H; run_all;
  repeat match goal with H : NI.take_mark _ _ = Ok _ |- _ => apply take_mark_core in H end;
  ni_core.
Qed.

Lemma split_message_core b d m n m' n' :
  NI.split_message b d m n = Ok (m', n') -> core n' = core n.
Proof. unfold NI.split_message. intros H. run_inv H; run_all; ni_core. Qed.

Lemma inject_dest_core i b vc v d m n n' :
  NI.inject_dest i b vc v d m n = Ok n' -> core n' = core n.
Proof.
  unfold NI.inject_dest. intros H. run_inv H; run_all;
  repeat match goal with
  | H : NI.split_message _ _ _ _ = Ok _ |- _ => apply split_message_core in H
  | H : NI.inject_flit _ _ _ _ _ _ _ = Ok _ |- _ => apply inject_flit_core in H
  end; ni_core.
Qed.

Lemma inject_dests_core i b v m ds n r n' :
  NI.inject_dests i b v m ds n = Ok (r, n') -> core n' = core n.
Proof.
  revert n. induction ds as [|d ds IH]; intros n H; cbn in H; [by simplify_res|].
  run_inv H; run_all;
  repeat match goal with
  | H : NI.inject_dest _ _ _ _ _ _ _ = Ok _ |- _ => apply inject_dest_core in H
  | H : NI.inject_dests _ _ _ _ _ _ = Ok _ |- _ => apply IH in H
  end; ni_core.
Qed.

Lemma flitisizeMessage_core i b v n r n' :
  NI.flitisizeMessage i b v n = Ok (r, n') -> core n' = core n.
Proof. unfold NI.flitisizeMessage. intros H. run_inv H. by apply inject_dests_core in H. Qed.

Lemma pick_up_core i v n n' : NI.pick_up i v n = Ok n' -> core n' = core n.
Proof.
  unfold NI.pick_up. intros H. run_inv H; run_all; try done;
  repeat match goal with
  | H : NI.flitisizeMessage _ _ _ _ = Ok _ |- _ => apply flitisizeMessage_core in H
  end; ni_core.
  match goal with |- context [match ?o with _ => _ end] => destruct o end;
    unfold NI.dequeueCallback; core_simpl; congruence.
Qed.

Lemma schedule_link_core i n n' : NI.schedule_link i n = Ok n' -> core n' = core n.
Proof.
  unfold NI.schedule_link. intros H. run_inv H; run_all; ni_core.
  match goal with |- context [if ?b then _ else _] => destruct b end; core_simpl; congruence.
Qed.

Lemma checkReschedule_core i n n' : NI.checkReschedule i n = Ok n' -> core n' = core n.
Proof.
  unfold NI.checkReschedule. intros H. run_inv H; run_all; try done.
  match goal with |- context [match ?o with _ => _ end] => destruct o end; done.
Qed.

Lemma NI_wakeup_core i n n' : NI.wakeup rnd warm rt i n = Ok n' -> core n' = core n.
Proof.
  unfold NI.wakeup, NI.checkStallQueue. intros H. run_inv H; run_all.
  match goal with |- context [if ?b then _ else _] => destruct b end; core_simpl;
  repeat match goal with
  | H : foldM (NI.pick_up i) _ _ = Ok _ |- _ => apply (foldM_core _ _ _ _ (pick_up_core i)) in H
  | H : NI.schedule_link _ _ = Ok _ |- _ => apply schedule_link_core in H
  | H : NI.checkReschedule _ _ = Ok _ |- _ => apply checkReschedule_core in H
  | H : NI.checkStall _ _ _ _ _ _ _ = Ok _ |- _ => apply checkStall_core in H
  | H : NI.check_in_link _ _ _ _ _ _ = Ok _ |- _ => apply check_in_link_core in H
  | H : NI.check_credit_link _ _ = Ok _ |- _ => apply check_credit_link_core in H
  end; congruence.
Qed.

End Interfaces.
