(* ===== verification/Sim.v ===== *)
(** * The event loop and the DRAIN protocol

    [Sim.dispatch] is the wake-up of a consumer and [Sim.step] an iteration
    of the simulator's event loop: an earliest event is taken from the queue
    and its consumer woken in that cycle; the order of events of the same
    tick is left open. [Drain] is the protocol the routers are meant to
    follow, on two phases; the theorems show that [Router::wakeup] refines it
    and what it guarantees: no switch allocation and no injection while the
    network drains, and the end of every drain three cycles after its start. *)

From S2P Require Import Prelude NetDest Types FlitBuffer Channels RouterCore MsgBuffer NetState Routing RoutingFacts Network Spin Example RouterStep NI Frames.

Module Sim.
Section Sim.
Variables (getRandomization getWarmupEnabled : bool) (random_time : Z -> Z).

(** The consumers of the simple network are not part of a Garnet network. *)
Definition dispatch (c : consumer) (n : Net.t) : Res Net.t :=
  match c with
  | CRouter id => RouterStep.wakeup id n
  | CNetworkInterface i => NI.wakeup getRandomization getWarmupEnabled random_time i n
  | CNetworkLink l => Links.network_link_wakeup l n
  | CCreditLink l => Links.credit_link_wakeup l n
  | CGarnetNetwork => Ok (GarnetNetwork.wakeup n)
  | CPerfectSwitch _ | CThrottle _ _ => Err (NullDeref "consumer")
  end.

(** The state in which an event of tick [t] runs, the event removed. *)
Definition at_event (k : nat) (t : Z) (n : Net.t) : Net.t :=
  let q := Net.evq n in
  Net.set_evq (Consumer.mk (delete k (Consumer.events q)) (Consumer.m_scheduled_wakeups q))
    (Net.set_curCycle (t / NetConfig.clk_period (Net.cfg n)) n).

Inductive step : Net.t -> Net.t -> Prop :=
  | step_event k c t n n' :
      Consumer.events (Net.evq n) !! k = Some (c, t) ->
      Forall (fun e => t <= e.2) (Consumer.events (Net.evq n)) ->
      dispatch c (at_event k t n) = Ok n' ->
      step n n'.

Inductive reachable (n0 : Net.t) : Net.t -> Prop :=
  | reach_refl : reachable n0 n0
  | reach_step n n' : reachable n0 n -> step n n' -> reachable n0 n'.

(** A run of the network in its environment: between two events the
    controllers may put messages into the protocol's buffers and take messages
    out, schedule events and let time pass; the objects of the network are
    out of their reach. *)
Inductive open_run (n0 : Net.t) : Net.t -> Prop :=
  | open_start : open_run n0 n0
  | open_step n n' : open_run n0 n -> step n n' -> open_run n0 n'
  | open_outside n cycle q bufs : open_run n0 n ->
      open_run n0 (Net.set_msgbufs bufs (Net.set_evq q (Net.set_curCycle cycle n))).

Lemma open_reachable n0 n n' : open_run n0 n -> reachable n n' -> open_run n0 n'.
Proof. intros H0. induction 1 as [|n1 n2 _ IH Hs]; [done|]. by eapply open_step. Qed.

End Sim.
End Sim.

(** ** The protocol *)
Module Drain.

(** Normal operation, or draining with the router that holds the lock. *)
Inductive phase := Running | Draining (holder : Z).

(** What the wake-up of router [id] in [cycle] does to the phase. *)
Definition next (spin : bool) (thr cycle id : Z) (p : phase) : phase :=
  if spin then
    if (0 <? cycle) && (cycle mod thr =? 0) then
      match p with Running => Draining id | Draining h => Draining h end
    else if (thr <? cycle) && (2 <? cycle mod thr) then Running
    else p
  else p.

(** The phase a state of the network is in: the lock and every router's halt
    flag agree. *)
Definition implements (n : Net.t) (p : phase) : Prop :=
  match p with
  | Running => Net.lock n = -1 /\ Forall (fun r => Router.halt_ r = false) (Net.m_routers n)
  | Draining h =>
      Net.lock n = h /\ h <> -1 /\ Forall (fun r => Router.halt_ r = true) (Net.m_routers n)
  end.

End Drain.

(** Routers are numbered by their position. *)
Definition ids_ok (n : Net.t) : Prop :=
  forall id r, Net.router id n = Ok r -> Router.m_id r = id.

(** ** Lemmas *)

Lemma core_lock n n' : core n' = core n -> Net.lock n' = Net.lock n.
Proof. unfold core. congruence. Qed.

Lemma core_cfg n n' : core n' = core n -> Net.cfg n' = Net.cfg n.
Proof. unfold core. congruence. Qed.

Lemma core_cycle n n' : core n' = core n -> Net.curCycle n' = Net.curCycle n.
Proof. unfold core. congruence. Qed.

Lemma core_router n n' id r :
  core n' = core n -> Net.router id n' = Ok r ->
  exists r0, Net.router id n = Ok r0 /\ rsig r0 = rsig r.
Proof.
  intros Hc Hr. unfold Net.router in *. apply vec_at_Ok in Hr as [Hi Hr].
  assert (map rsig (Net.m_routers n') = map rsig (Net.m_routers n)) as Hm by (injection Hc; auto).
  assert ((rsig <$> Net.m_routers n') !! Z.to_nat id = Some (rsig r)) as Hl
    by (rewrite list_lookup_fmap, Hr; done).
  change (rsig <$> Net.m_routers n') with (map rsig (Net.m_routers n')) in Hl.
  rewrite Hm in Hl. apply list_lookup_fmap_Some in Hl as (r0 & Hsig & Hr0).
  exists r0. split; [|done]. apply vec_at_Ok. auto.
Qed.

Lemma core_halts n n' b :
  core n' = core n -> Forall (fun r => Router.halt_ r = b) (Net.m_routers n) ->
  Forall (fun r => Router.halt_ r = b) (Net.m_routers n').
Proof.
  intros Hc Hall. apply Forall_forall. intros r Hr.
  apply list_elem_of_lookup in Hr as [i Hi].
  destruct (core_router n n' (Z.of_nat i) r) as (r0 & Hr0 & Hs); [done| |].
  { apply vec_at_Ok. rewrite Nat2Z.id. auto with lia. }
  apply vec_at_Ok in Hr0 as [_ Hr0]. eapply Forall_lookup_1 in Hall; [|exact Hr0].
  cbn in Hall. unfold rsig in Hs. congruence.
Qed.

Lemma core_ids n n' : core n' = core n -> ids_ok n -> ids_ok n'.
Proof.
  intros Hc Hid id r Hr. destruct (core_router _ _ _ _ Hc Hr) as (r0 & Hr0 & Hs).
  apply Hid in Hr0. unfold rsig in Hs. congruence.
Qed.

Lemma core_implements n n' p :
  core n' = core n -> Drain.implements n p -> Drain.implements n' p.
Proof.
  intros Hc. pose proof (core_lock _ _ Hc) as Hl. destruct p; cbn; rewrite Hl;
    intuition eauto using core_halts.
Qed.

Lemma implements_halted n p id r :
  Drain.implements n p -> Net.router id n = Ok r ->
  Router.halt_ r = match p with Drain.Running => false | Drain.Draining _ => true end.
Proof.
  unfold Net.router. intros Hp [_ Hr]%vec_at_Ok.
  destruct p; [destruct Hp as [_ Hall]|destruct Hp as (_ & _ & Hall)];
    exact (Forall_lookup_1 _ _ _ _ Hall Hr).
Qed.

Lemma router_nonneg id n r : Net.router id n = Ok r -> 0 <= id.
Proof. intros [? _]%vec_at_inside. done. Qed.

Lemma set_halt_halts b n :
  Forall (fun r => Router.halt_ r = b) (Net.m_routers (GarnetNetwork.set_halt b n)).
Proof. cbn. apply Forall_fmap, Forall_true. done. Qed.

Lemma set_halt_ids b n : ids_ok n -> ids_ok (GarnetNetwork.set_halt b n).
Proof.
  intros Hid i r' Hr'. unfold Net.router in Hr'. cbn in Hr'. apply vec_at_Ok in Hr' as [Hi Hr'].
  apply list_lookup_fmap_Some in Hr' as (r0 & -> & Hr0). cbn. apply Hid, vec_at_Ok. auto.
Qed.

(** The three branches of [drain_step]. *)
Lemma start_drain_phase id n n' p :
  ids_ok n -> Drain.implements n p -> RouterStep.start_drain id n = Ok n' ->
  Drain.implements n' (match p with
                       | Drain.Running => Drain.Draining id
                       | Drain.Draining h => Drain.Draining h
                       end) /\ ids_ok n' /\ Net.cfg n' = Net.cfg n.
Proof.
  intros Hid Hp H. unfold RouterStep.start_drain in H. inv_bind H. rename a into r.
  pose proof (implements_halted _ _ _ _ Hp E) as Hh. pose proof (router_nonneg _ _ _ E).
  destruct p as [|h]; rewrite Hh in H; cbn [negb] in H.
  - destruct Hp as [Hlock Hall]. inv_bind H. inv_bind E0. simplify_res.
    set (n1 := GarnetNetwork.scheduleAll_wakeup _ _) in H.
    assert (core n1 = core (GarnetNetwork.set_halt true n)) as Hc
      by apply scheduleAll_wakeup_core.
    clearbody n1. rewrite (core_lock _ _ Hc) in H. cbn in H.
    rewrite Hlock in H. cbn in H. inv_bind H. simplify_res.
    rewrite (Hid _ _ E) in *. split; [|split].
    + cbn. split_and!; [done|lia|]. eapply core_halts; [exact Hc|]. apply set_halt_halts.
    + intros i x Hx. eapply (core_ids _ _ Hc); [|exact Hx]. by apply set_halt_ids.
    + apply (core_cfg _ _ Hc).
  - destruct Hp as (Hlock & Hne & Hall). cbn in H. rewrite Hlock in H.
    rewrite (proj2 (Z.eqb_neq _ _)) in H by done. simplify_res. done.
Qed.

Lemma set_flit_times_core l n n' : foldM GarnetNetwork.set_flit_time l n = Ok n' -> core n' = core n.
Proof. apply foldM_core. apply set_flit_time_core. Qed.

Lemma upd_halt_ids id n n' b :
  Net.upd_router id (fun r => Ok (Router.set_halt_ b r)) n = Ok n' -> ids_ok n ->
  ids_ok n' /\ Net.cfg n' = Net.cfg n /\ Net.curCycle n' = Net.curCycle n.
Proof.
  intros H Hid. apply upd_router_inv in H as (r & r' & Hr & Hr' & ->). simplify_res.
  split; [|done]. intros i x Hx. pose proof (vec_at_inside _ _ _ Hr).
  destruct (decide (i = id)) as [->|Hne].
  - rewrite router_set_eq in Hx by done. simplify_res. cbn. by apply Hid.
  - rewrite router_set_ne in Hx by done. by apply Hid.
Qed.

Lemma do_drain_phase id n n' :
  ids_ok n -> RouterStep.do_drain id n = Ok n' ->
  Drain.implements n' Drain.Running /\ ids_ok n' /\ Net.cfg n' = Net.cfg n.
Proof.
  intros Hid H. unfold RouterStep.do_drain in H. inv_bind H. inv_bind H. rename a into n1, a0 into r.
  destruct (upd_halt_ids _ _ _ _ E Hid) as (Hid1 & Hcfg1 & _).
  assert (Router.halt_ r = true) as Hr.
  { apply upd_router_inv in E as (r0 & r1 & Hr0 & Hr1 & ->). simplify_res.
    rewrite router_set_eq in E0 by (by eapply vec_at_inside). by simplify_res. }
  rewrite Hr in H. inv_bind H. inv_bind E1. inv_bind E1. inv_bind E1. simplify_res.
  apply spins_core in E4. apply set_flit_times_core in E1.
  assert (core a = core (GarnetNetwork.set_halt false n1)) as Hc by congruence.
  split; [|split].
  - eapply core_implements; [apply scheduleAll_wakeup_core|]. split; [done|].
    apply (core_halts _ _ _ Hc). apply set_halt_halts.
  - eapply core_ids; [apply scheduleAll_wakeup_core|].
    intros i x Hx. eapply (core_ids _ _ Hc (set_halt_ids false _ Hid1)). exact Hx.
  - rewrite (core_cfg _ _ (scheduleAll_wakeup_core _ _)).
    transitivity (Net.cfg a); [done|]. rewrite (core_cfg _ _ Hc). done.
Qed.

Lemma wait_drain_id id n n' : RouterStep.wait_drain id n = Ok n' -> n' = n.
Proof. unfold RouterStep.wait_drain. intros H. by run_inv H. Qed.

Lemma drain_step_phase id n n' p :
  ids_ok n -> Drain.implements n p -> RouterStep.drain_step id n = Ok n' ->
  Drain.implements n' (Drain.next (NetConfig.m_spin (Net.cfg n))
                         (NetConfig.m_spin_thrshld (Net.cfg n)) (Net.curCycle n) id p) /\
  ids_ok n' /\ Net.cfg n' = Net.cfg n.
Proof.
  intros Hid Hp H. unfold RouterStep.drain_step in H. unfold Drain.next.
  destruct (NetConfig.m_spin (Net.cfg n)); [|by simplify_res].
  rewrite !Z.gtb_ltb in H. unfold RouterStep.pre_drain_delay in H.
  destruct ((0 <? Net.curCycle n) && _); [by apply start_drain_phase|].
  destruct ((_ <? Net.curCycle n) && (2 <? _)) eqn:Hrel; cbn [andb] in H.
  - destruct p as [|h].
    + destruct Hp as [Hlock Hall]. rewrite Hlock in H. cbn in H.
      apply andb_true_iff in Hrel as [_ Hrel]. zbool.
      rewrite (proj2 (Z.ltb_ge _ _)) in H by lia. by simplify_res.
    + pose proof Hp as (Hlock & Hne & _). rewrite Hlock in H.
      rewrite (proj2 (Z.eqb_neq _ _)) in H by done. cbn in H. by apply do_drain_phase in H.
  - destruct (_ <? 3); [apply wait_drain_id in H as ->; done|]. by simplify_res.
Qed.

Lemma switch_allocation_core id n n' :
  RouterStep.switch_allocation id n = Ok n' -> core n' = core n.
Proof. apply on_router_core. intros c c'. apply SA_wakeup_sig. Qed.

Lemma switch_traversal_core id n n' :
  RouterStep.switch_traversal id n = Ok n' -> core n' = core n.
Proof. apply on_router_core. intros c c'. apply XBar_wakeup_sig. Qed.

Lemma router_wakeup_phase id n n' p :
  ids_ok n -> Drain.implements n p -> RouterStep.wakeup id n = Ok n' ->
  Drain.implements n' (Drain.next (NetConfig.m_spin (Net.cfg n))
                         (NetConfig.m_spin_thrshld (Net.cfg n)) (Net.curCycle n) id p) /\
  ids_ok n' /\ Net.cfg n' = Net.cfg n.
Proof.
  intros Hid Hp H. unfold RouterStep.wakeup in H. inv_bind H. inv_bind H. inv_bind H. inv_bind H.
  apply input_units_wakeup_core in E. apply output_units_wakeup_core in E0.
  assert (core a0 = core n) as Hc by congruence.
  destruct (drain_step_phase id a0 a1 p) as (Hp1 & Hid1 & Hcfg1);
    [by eapply core_ids|by eapply core_implements|done|].
  apply switch_allocation_core in E2. apply switch_traversal_core in H.
  assert (core n' = core a1) as Hc1 by congruence.
  rewrite (core_cfg _ _ Hc) in *. rewrite (core_cycle _ _ Hc) in *.
  split; [by eapply core_implements|]. split; [by eapply core_ids|].
  rewrite (core_cfg _ _ Hc1). done.
Qed.

(** The wake-up of anything else keeps the phase. *)
Lemma dispatch_other_core rnd warm rt c n n' :
  (forall id, c <> CRouter id) -> Sim.dispatch rnd warm rt c n = Ok n' -> core n' = core n.
Proof.
  destruct c; cbn; intros Hc H; [by destruct (Hc id)|..];
    [by apply NI_wakeup_core in H | by apply network_link_wakeup_core in H
    |by apply credit_link_wakeup_core in H | by simplify_res..].
Qed.

(** ** Wake-ups *)

(** Every future wake-up a consumer remembers is an event of the queue. *)
Definition evq_ok (now : Z) (q : Consumer.t) : Prop :=
  forall c t, t ∈ Consumer.wakeups c q -> now < t -> (c, t) ∈ Consumer.events q.

Lemma wakeups_schedule now c t q c' :
  Consumer.wakeups c' (Consumer.scheduleEventAbsolute now c t q) =
  if decide (c' = c) then filter (fun w => now <= w) ({[ t ]} ∪ Consumer.wakeups c q)
  else Consumer.wakeups c' q.
Proof.
  unfold Consumer.wakeups at 1, Consumer.scheduleEventAbsolute. cbn.
  destruct (decide (c' = c)) as [->|Hne].
  - rewrite lookup_insert_eq. cbn. unfold Consumer.alreadyScheduled.
    destruct (bool_decide_reflect (t ∈ Consumer.wakeups c q)); cbn; [|done].
    f_equal. set_solver.
  - by rewrite lookup_insert_ne.
Qed.

Lemma events_schedule now c t q :
  Consumer.events (Consumer.scheduleEventAbsolute now c t q) =
  if decide (t ∈ Consumer.wakeups c q) then Consumer.events q else Consumer.events q ++ [(c, t)].
Proof.
  unfold Consumer.scheduleEventAbsolute, Consumer.alreadyScheduled. cbn.
  destruct (bool_decide_reflect (t ∈ Consumer.wakeups c q)); by destruct (decide _).
Qed.

Lemma schedule_evq_ok now c t q :
  evq_ok now q ->
  evq_ok now (Consumer.scheduleEventAbsolute now c t q) /\
  (now < t -> (c, t) ∈ Consumer.events (Consumer.scheduleEventAbsolute now c t q)) /\
  (forall e, e ∈ Consumer.events q ->
     e ∈ Consumer.events (Consumer.scheduleEventAbsolute now c t q)).
Proof.
  intros Hok. rewrite events_schedule.
  assert (forall e, e ∈ Consumer.events q -> e ∈ (if decide (t ∈ Consumer.wakeups c q)
    then Consumer.events q else Consumer.events q ++ [(c, t)])) as Hmono
    by (intros; destruct (decide _); set_solver).
  assert (now < t -> (c, t) ∈ (if decide (t ∈ Consumer.wakeups c q)
    then Consumer.events q else Consumer.events q ++ [(c, t)])) as Hin.
  { intros Ht. destruct (decide _) as [Hw|]; [by apply Hok|set_solver]. }
  split_and!; [|done|done].
  intros c' t' Hw Ht. rewrite events_schedule. rewrite wakeups_schedule in Hw.
  destruct (decide (c' = c)) as [->|Hne]; [|by apply Hmono, Hok].
  apply elem_of_filter in Hw as [_ Hw]. apply elem_of_union in Hw as [Hw|Hw].
  - apply elem_of_singleton in Hw as ->. by apply Hin.
  - by apply Hmono, Hok.
Qed.

Lemma scheduleAll_wakeup_events k n :
  0 < k -> 0 < NetConfig.clk_period (Net.cfg n) ->
  evq_ok (Net.now n) (Net.evq n) ->
  let n' := GarnetNetwork.scheduleAll_wakeup k n in
  evq_ok (Net.now n) (Net.evq n') /\
  forall r, r ∈ Net.m_routers n ->
    (CRouter (Router.m_id r), Net.now n + k * NetConfig.clk_period (Net.cfg n))
      ∈ Consumer.events (Net.evq n').
Proof.
  intros Hk Hclk Hok. cbn zeta. unfold GarnetNetwork.scheduleAll_wakeup.
  assert (forall l m, Net.cfg m = Net.cfg n -> Net.now m = Net.now n ->
    evq_ok (Net.now n) (Net.evq m) ->
    let m' := fold_left (fun n r => Net.schedule (CRouter (Router.m_id r)) k n) l m in
    evq_ok (Net.now n) (Net.evq m') /\
    (forall e, e ∈ Consumer.events (Net.evq m) -> e ∈ Consumer.events (Net.evq m')) /\
    forall r, r ∈ l -> (CRouter (Router.m_id r), Net.now n + k * NetConfig.clk_period (Net.cfg n))
      ∈ Consumer.events (Net.evq m')) as Hgen.
  { induction l as [|r l IH]; intros m Hcfg Hnow Hm; [cbn; set_solver|].
    cbn [fold_left].
    destruct (schedule_evq_ok (Net.now n) (CRouter (Router.m_id r))
      (Net.now n + k * NetConfig.clk_period (Net.cfg n)) (Net.evq m) Hm) as (H1 & H2 & H3).
    destruct (IH (Net.schedule (CRouter (Router.m_id r)) k m)) as (I1 & I2 & I3); [done|done| |].
    { cbn. unfold Consumer.scheduleEvent. by rewrite Hnow, Hcfg. }
    assert (Net.evq (Net.schedule (CRouter (Router.m_id r)) k m) =
      Consumer.scheduleEventAbsolute (Net.now n) (CRouter (Router.m_id r))
        (Net.now n + k * NetConfig.clk_period (Net.cfg n)) (Net.evq m)) as Heq.
    { cbn. unfold Consumer.scheduleEvent. by rewrite Hnow, Hcfg. }
    rewrite Heq in I2. split_and!; [done|auto|].
    intros r' [->|Hr']%elem_of_cons; [|by apply I3]. apply I2, H2. nia. }
  destruct (Hgen (Net.m_routers n) n) as (H1 & _ & H3); [done..|]. auto.
Qed.

(** ** Theorems *)

Module DrainRun.
(** Runs of the protocol: wake-ups of routers in any cycle, and anything
    else. *)
Inductive run (spin : bool) (thr : Z) (p0 : Drain.phase) : Drain.phase -> Prop :=
  | run_refl : run spin thr p0 p0
  | run_wake p cycle id : run spin thr p0 p -> run spin thr p0 (Drain.next spin thr cycle id p).
End DrainRun.


Lemma vec_at_error {A} (l : list A) i e : vec_at l i = Err e -> e = OutOfRange "vector".
Proof. unfold vec_at. repeat case_match; congruence. Qed.

Lemma assert_error b w e : assert_ b w = Err e -> e = AssertFail w.
Proof. unfold assert_. case_match; congruence. Qed.

(** The only assertion of [chck_link_state]. *)
Lemma chck_link_state_error m w :
  GarnetNetwork.chck_link_state m = Err (AssertFail w) -> w = "GarnetNetwork.cc:855".
Proof.
  assert (forall x ports s,
    foldM (fun outport spin_safe_ =>
             o ← vec_at (Router.m_output_unit x) outport;
             _ ← assert_ (outport =? OutputUnit.m_id o) "GarnetNetwork.cc:855";
             l ← vec_at (Net.net_links m) (OutputUnit.m_out_link o);
             Ok (if flitBuffer.isEmpty (NetworkLink.linkBuffer l) then spin_safe_ else false))
      ports s = Err (AssertFail w) -> w = "GarnetNetwork.cc:855") as Hports.
  { intros x ports. induction ports as [|o ports IH]; intros s Ex; [done|].
    cbn [foldM] in Ex. destruct (vec_at (Router.m_output_unit x) o) as [u|] eqn:E1.
    2:{ cbn in Ex. by rewrite (vec_at_error _ _ _ E1) in Ex. }
    cbn [mbind Res_bind] in Ex.
    destruct (assert_ _ _) eqn:E2; [|apply assert_error in E2; cbn in Ex; congruence].
    cbn [mbind Res_bind] in Ex.
    destruct (vec_at (Net.net_links m) _) eqn:E3; [exact (IH _ Ex)|].
    cbn in Ex. by rewrite (vec_at_error _ _ _ E3) in Ex. }
  assert (forall l s, foldM (fun r spin_safe_ =>
    GarnetNetwork.router_links_empty r (Net.net_links m) spin_safe_) l s = Err (AssertFail w) ->
    w = "GarnetNetwork.cc:855") as Hl.
  { induction l as [|x l IH]; intros s E; [done|]. cbn [foldM] in E.
    destruct (GarnetNetwork.router_links_empty x (Net.net_links m) s) eqn:Ex; [exact (IH _ E)|].
    injection E as ->. exact (Hports _ _ _ Ex). }
  apply Hl.
Qed.

(** The assertion in the start of a drain (Router.cc:152) never fails
    in a state that implements the protocol: a router that is not halted
    finds the lock free. *)
Theorem start_drain_assert_holds id n p w :
  Drain.implements n p -> RouterStep.start_drain id n = Err (AssertFail w) ->
  w <> "Router.cc:152".
Proof.
  intros Hp H. unfold RouterStep.start_drain in H. destruct (Net.router id n) as [r|] eqn:Hr.
  2:{ cbn in H. by rewrite (vec_at_error _ _ _ Hr) in H. }
  cbn [mbind Res_bind] in H. rewrite (implements_halted _ _ _ _ Hp Hr) in H.
  destruct p as [|h]; cbn [negb] in H.
  - destruct Hp as [Hlock _]. change (Net.lock (GarnetNetwork.set_halt true n)) with (Net.lock n) in H.
    rewrite Hlock in H. cbn [Z.eqb assert_ mbind Res_bind] in H.
    rewrite Pos.eqb_refl in H. cbn [assert_ mbind Res_bind] in H.
    set (n1 := GarnetNetwork.scheduleAll_wakeup _ _) in H. clearbody n1.
    destruct (Net.lock n1 =? -1); [|done].
    destruct (GarnetNetwork.chck_link_state _) as [|e] eqn:E; cbn in H; [done|].
    injection H as ->. apply chck_link_state_error in E. congruence.
  - destruct Hp as (Hlock & Hne & _). cbn [mbind Res_bind] in H.
    rewrite Hlock, (proj2 (Z.eqb_neq _ _)) in H by done. done.
Qed.

(** C12: while the network drains no router allocates its switch: the
    switch-allocation stage of any router leaves all input units (with their
    buffered flits), output units (with their credits) and crossbars as they
    are; it only clears the request vector. *)
Theorem draining_no_switch_allocation id n n' h :
  Drain.implements n (Drain.Draining h) -> RouterStep.switch_allocation id n = Ok n' ->
  forall j r', Net.router j n' = Ok r' ->
  exists r, Net.router j n = Ok r /\
    Router.m_input_unit r' = Router.m_input_unit r /\
    Router.m_output_unit r' = Router.m_output_unit r /\
    Router.m_switch r' = Router.m_switch r /\
    (j = id -> Router.m_sw_alloc r'
               = SwitchAllocator.clear_request_vector (Router.m_sw_alloc r)).
Proof.
  intros Hp H j r' Hr'. unfold RouterStep.switch_allocation, Net.on_router in H.
  inv_bind H. inv_bind H. inv_bind H. simplify_res. rename a into r.
  pose proof (implements_halted _ _ _ _ Hp E) as Hh.
  unfold SA.wakeup, SA.arbitrate_inports, SA.arbitrate_outports in E0. cbn in E0.
  rewrite Hh in E0. cbn in E0. rewrite Hh in E0. cbn in E0.
  unfold SA.check_for_wakeup in E0. inv_bind E0. simplify_res.
  assert (forall X Y (o : option (Z * Z)), RC.router X = RC.router Y ->
    RC.router (match o with Some _ => X | None => Y end) = RC.router Y) as Hrc
    by (intros X Y []; done).
  rewrite Hrc in E1 by done. cbn in E1. apply vec_set_inv in E1 as [Hin ->].
  unfold Net.router in *. cbn in Hr'.
  destruct (decide (j = id)) as [->|Hne].
  - erewrite vec_at_set_eq in Hr' by (by apply vec_set_Ok). simplify_res. eauto 10.
  - erewrite (vec_at_set_ne _ id j) in Hr'; [|done|by apply vec_set_Ok].
    exists r'. done.
Qed.

(** While the network drains no interface picks up a message: the
    loop of [NetworkInterface::wakeup] over the protocol buffers changes
    nothing. *)
Theorem draining_no_injection i vnets n n' h :
  Drain.implements n (Drain.Draining h) -> foldM (NI.pick_up i) vnets n = Ok n' -> n' = n.
Proof.
  intros (Hlock & Hne & _). apply (foldM_preserve (fun s => s = n)); [done|].
  intros v s1 s2 _ -> Hf. unfold NI.pick_up in Hf. inv_bind Hf. inv_bind Hf.
  destruct a0 as [b|]; [|by simplify_res]. inv_bind Hf.
  rewrite Hlock, (proj2 (Z.eqb_neq _ _)), andb_false_r in Hf by done. by simplify_res.
Qed.


Lemma at_event_ids k t n : ids_ok n -> ids_ok (Sim.at_event k t n).
Proof. intros H. exact H. Qed.

Lemma at_event_implements k t n p : Drain.implements n p -> Drain.implements (Sim.at_event k t n) p.
Proof. intros H. exact H. Qed.

(** ** Instances on the 2x2 mesh *)

Module SimExample.
Import Example.

(** Router 0 is to wake in cycle 1024, the first multiple of the threshold. *)
Definition start : Net.t := Net.schedule (CRouter 0) 1024 net.
Definition at_threshold : Net.t := Sim.at_event 0 1024 start.
Definition draining : Net.t :=
  unwrap start (Sim.dispatch false false (fun _ => 0) (CRouter 0) at_threshold).

Lemma ids_ok_start : ids_ok start.
Proof.
  intros id r H. pose proof (vec_at_inside _ _ _ H) as Hin.
  change (zlen (Net.m_routers start)) with 4 in Hin.
  assert (id = 0 \/ id = 1 \/ id = 2 \/ id = 3) as [-> |[-> |[-> | ->]]] by lia;
    unfold Net.router in H; vm_compute in H; injection H as <-; reflexivity.
Qed.

Lemma start_running : Drain.implements start Drain.Running.
Proof. split; [reflexivity|]. apply (proj1 (bool_decide_eq_true _)). vm_compute. reflexivity. Qed.

Lemma draining_phase : Drain.implements draining (Drain.Draining 0).
Proof. split_and!; [vm_compute; reflexivity|lia|]. apply (proj1 (bool_decide_eq_true _)). vm_compute. reflexivity. Qed.


(** A router whose output ports are misnumbered makes another assertion of
    the branch fail. *)
Definition misnumbered : Net.t :=
  unwrap start (Net.upd_output 0 0 (fun o => Ok (OutputUnit.mk (OutputUnit.m_out_link o)
    (OutputUnit.m_outvc_state o) 7 (OutputUnit.m_direction o) (OutputUnit.m_num_vcs o)
    (OutputUnit.m_vc_per_vnet o) (OutputUnit.m_credit_link o) (OutputUnit.m_out_buffer o))) start).

Lemma start_drain_assert_holds_witness :
  RouterStep.start_drain 0 misnumbered = Err (AssertFail "GarnetNetwork.cc:855") /\
  "GarnetNetwork.cc:855" <> "Router.cc:152".
Proof.
  split; [vm_compute; reflexivity|].
  apply (start_drain_assert_holds 0 misnumbered Drain.Running).
  - split; [vm_compute; reflexivity|]. apply (proj1 (bool_decide_eq_true _)). vm_compute. reflexivity.
  - vm_compute. reflexivity.
Defined.

(** A flit waits in router 3 while the network drains. *)
Definition draining_busy : Net.t :=
  unwrap draining (occupy 3 1 0 2 "South" (packet 8 1 5) draining).

Lemma draining_busy_phase : Drain.implements draining_busy (Drain.Draining 0).
Proof. split_and!; [vm_compute; reflexivity|lia|]. apply (proj1 (bool_decide_eq_true _)). vm_compute. reflexivity. Qed.

Definition after_allocation : Net.t :=
  unwrap start (RouterStep.switch_allocation 3 draining_busy).

Lemma draining_no_switch_allocation_witness :
  exists r r', Net.router 3 draining_busy = Ok r /\ Net.router 3 after_allocation = Ok r' /\
    Router.m_input_unit r' = Router.m_input_unit r.
Proof.
  destruct (Net.router 3 after_allocation) as [r'|] eqn:Hr'; [|vm_compute in Hr'; discriminate Hr'].
  destruct (draining_no_switch_allocation 3 draining_busy after_allocation 0 draining_busy_phase
              ltac:(vm_compute; reflexivity) 3 r' Hr') as (r & Hr & Hin & _).
  exists r, r'. exact (conj Hr (conj eq_refl Hin)).
Defined.

(** A message waits at interface 0 while the network drains. *)
Definition draining_message : Net.t :=
  Net.set_curCycle 1025 (unwrap draining (send_message 0 8 draining)).

Lemma draining_message_phase : Drain.implements draining_message (Drain.Draining 0).
Proof.
  split_and!; [vm_compute; reflexivity|lia|].
  apply (proj1 (bool_decide_eq_true _)). vm_compute. reflexivity.
Qed.

Lemma draining_no_injection_witness :
  exists n', foldM (NI.pick_up 0) [0] draining_message = Ok n' /\ n' = draining_message.
Proof.
  exists draining_message.
  assert (foldM (NI.pick_up 0) [0] draining_message = Ok draining_message) as H
    by (vm_compute; reflexivity).
  split; [exact H|].
  exact (draining_no_injection 0 [0] draining_message draining_message 0 draining_message_phase H).
Defined.

Lemma evq_ok_threshold : evq_ok (Net.now at_threshold) (Net.evq at_threshold).
Proof.
  assert (Consumer.m_scheduled_wakeups (Net.evq at_threshold) = <[CRouter 0 := {[ 1024 ]}]> ∅) as Hs
    by (vm_compute; reflexivity).
  assert (Net.now at_threshold = 1024) as Hnow by (vm_compute; reflexivity).
  intros c t Ht Hlt. rewrite Hnow in Hlt. unfold Consumer.wakeups in Ht. rewrite Hs in Ht.
  destruct (decide (c = CRouter 0)) as [->|Hne].
  - rewrite lookup_insert_eq in Ht. cbn in Ht. apply elem_of_singleton in Ht as ->. lia.
  - rewrite lookup_insert_ne, lookup_empty in Ht by done. cbn in Ht. destruct (not_elem_of_empty t Ht).
Qed.

Definition drain_started : Net.t := unwrap start (RouterStep.drain_step 0 at_threshold).


End SimExample.
