(* ===== verification/ConsumerFacts.v ===== *)
(** * Wake-ups: theorems

    Every component asks to be woken through [Consumer]; the times it
    remembers keep redundant events out of the event queue. Over any
    interleaving of requests and of events that fire, no wake-up is pending
    twice and no future wake-up is lost. *)

From S2P Require Import Prelude NetDest Types FlitBuffer Channels RouterCore MsgBuffer NetState Routing Network Spin RouterStep NI Frames Sim.

Section Schedule.

(** The time and the queue: a consumer asks for a wake-up that is not in the
    past, or one of the earliest events fires. *)
Inductive sched : Z * Consumer.t -> Z * Consumer.t -> Prop :=
  | sched_request now q c t :
      now <= t -> sched (now, q) (now, Consumer.scheduleEventAbsolute now c t q)
  | sched_fire now q k c t :
      Consumer.events q !! k = Some (c, t) -> Forall (fun e => t <= e.2) (Consumer.events q) ->
      sched (now, q) (t, Consumer.mk (delete k (Consumer.events q)) (Consumer.m_scheduled_wakeups q)).

(** The remembered times are those of the pending events, except that the
    times of the current tick may have fired. *)
Record queue_ok (s : Z * Consumer.t) : Prop := {
  qo_future : evq_ok s.1 s.2;
  qo_known : forall c t, (c, t) ∈ Consumer.events s.2 -> t ∈ Consumer.wakeups c s.2 /\ s.1 <= t;
  qo_once : NoDup (Consumer.events s.2)
}.

Lemma request_queue_ok now q c t :
  now <= t -> queue_ok (now, q) -> queue_ok (now, Consumer.scheduleEventAbsolute now c t q).
Proof.
  intros Ht [Hf Hk Ho]. cbn [fst snd] in *. split; cbn [fst snd].
  - by apply schedule_evq_ok.
  - intros c' t' Hin. rewrite events_schedule in Hin. rewrite wakeups_schedule.
    assert ((c', t') ∈ Consumer.events q \/ (c', t') = (c, t)) as [Hold|[= -> ->]]
      by (destruct (decide _); set_solver).
    + destruct (Hk c' t' Hold) as [Hw Hle]. split; [|done]. destruct (decide (c' = c)) as [->|]; [|done].
      apply elem_of_filter. split; [done|]. set_solver.
    + rewrite decide_True by done. split; [|done]. apply elem_of_filter. split; [done|]. set_solver.
  - rewrite events_schedule. destruct (decide _) as [|Hw]; [done|].
    apply NoDup_app. split_and!; [done| |apply NoDup_singleton].
    intros e He ->%list_elem_of_singleton. by destruct (Hk c t He).
Qed.

Lemma fire_queue_ok now q k c t :
  Consumer.events q !! k = Some (c, t) -> Forall (fun e => t <= e.2) (Consumer.events q) ->
  queue_ok (now, q) ->
  queue_ok (t, Consumer.mk (delete k (Consumer.events q)) (Consumer.m_scheduled_wakeups q)).
Proof.
  intros Hk Hmin [Hf Hkn Ho]. cbn in *. rewrite Forall_forall in Hmin.
  destruct (Hkn c t) as [_ Hnow]; [by eapply list_elem_of_lookup_2|].
  pose proof (delete_Permutation _ _ _ Hk) as Hp. split; cbn.
  - intros c' t' Hw Ht. pose proof (Hf c' t' Hw ltac:(lia)) as Hin. rewrite Hp in Hin.
    apply elem_of_cons in Hin as [[= -> ->]|Hin]; [lia|done].
  - intros c' t' Hin. assert ((c', t') ∈ Consumer.events q) as Hin' by (rewrite Hp; by right).
    split; [by apply (Hkn c' t')|by apply (Hmin (c', t'))].
  - rewrite Hp in Ho. by apply NoDup_cons in Ho as [_ Ho].
Qed.

Lemma sched_queue_ok s s' : rtc sched s s' -> queue_ok s -> queue_ok s'.
Proof.
  induction 1 as [|s1 s2 s3 Hstep _ IH]; [done|]. intros Hok. apply IH.
  destruct Hstep; [by apply request_queue_ok|by eapply fire_queue_ok].
Qed.

End Schedule.

(** The queue before the simulation. *)
Definition no_events : Consumer.t := Consumer.mk [] ∅.

(** C30: wake-ups are scheduled exactly once. After any sequence of requests
    and fired events, a request for a future tick leaves exactly one pending
    event for that consumer and tick, adds no other and removes none; and no
    event is ever pending twice. *)
Theorem wakeup_exactly_once now0 now q c t :
  rtc sched (now0, no_events) (now, q) -> now < t ->
  let q' := Consumer.scheduleEventAbsolute now c t q in
  NoDup (Consumer.events q') /\ (c, t) ∈ Consumer.events q' /\
  (forall e, e ∈ Consumer.events q' <-> e ∈ Consumer.events q \/ e = (c, t)).
Proof.
  intros Hr Ht q'. apply sched_queue_ok in Hr as Hok.
  - pose proof (request_queue_ok now q c t ltac:(lia) Hok) as [_ _ Honce]. cbn [snd] in Honce. fold q' in Honce.
    destruct (schedule_evq_ok now c t q (qo_future _ Hok)) as (_ & Hin & Hmono). fold q' in Hin, Hmono.
    split_and!; [done|by apply Hin|]. intros e. split; [|intros [He| ->]; [by apply Hmono|by apply Hin]].
    unfold q'. rewrite events_schedule. destruct (decide _); [by left|]. set_solver.
  - split; cbn; [|intros c' t' Hin; by apply elem_of_nil in Hin|constructor].
    intros c' t' Hw. unfold Consumer.wakeups in Hw. cbn in Hw. rewrite lookup_empty in Hw. cbn in Hw. set_solver.
Qed.

Lemma wakeup_exactly_once_witness :
  let q1 := Consumer.scheduleEventAbsolute 0 (CRouter 0) 5 no_events in
  let q2 := Consumer.scheduleEventAbsolute 0 (CRouter 0) 5 q1 in
  Consumer.events q2 = [(CRouter 0, 5)] /\ NoDup (Consumer.events q2).
Proof.
  intros q1 q2. split; [vm_compute; reflexivity|].
  assert (rtc sched (0, no_events) (0, q1)) as Hr by (apply rtc_once; constructor; lia).
  exact (proj1 (wakeup_exactly_once 0 0 q1 (CRouter 0) 5 Hr ltac:(lia))).
Defined.
