(* ===== verification/AllocFacts.v ===== *)
(** * Switch allocation: theorems

    What a grant does, which input port wins an output port, that an input
    port requests at most one output port per cycle, and that the ordering
    check of [send_allowed] has no effect. *)

From S2P Require Import Prelude NetDest Types FlitBuffer Channels ChannelFacts RouterCore MsgBuffer NetState Routing RoutingFacts Network Spin Example RouterStep NI Frames.

(** ** Local updates of a router *)

Lemma RC_upd_input_inv p f c c' :
  RC.upd_input p f c = Ok c' ->
  exists u u', RC.input p c = Ok u /\ f u = Ok u' /\
    c' = RC.set_router (Router.set_inputs (<[Z.to_nat p := u']>
           (Router.m_input_unit (RC.router c))) (RC.router c)) c.
Proof.
  unfold RC.upd_input, Router.upd_input. intros H. inv_bind H. inv_bind E. simplify_res.
  apply vec_upd_inv in E0 as (u & u' & Hu & Hu' & ->). unfold RC.input. eauto.
Qed.

Lemma RC_upd_output_inv p f c c' :
  RC.upd_output p f c = Ok c' ->
  exists o o', RC.output p c = Ok o /\ f o = Ok o' /\
    c' = RC.set_router (Router.set_outputs (<[Z.to_nat p := o']>
           (Router.m_output_unit (RC.router c))) (RC.router c)) c.
Proof.
  unfold RC.upd_output, Router.upd_output. intros H. inv_bind H. inv_bind E. simplify_res.
  apply vec_upd_inv in E0 as (u & u' & Hu & Hu' & ->). unfold RC.output. eauto.
Qed.

(** What an operation on input port [p] (or output port [p]) leaves alone. *)
Definition inputs_except (p : Z) (c c' : RC.t) : Prop :=
  forall q, q <> p -> RC.input q c' = RC.input q c.

Definition outputs_except (p : Z) (c c' : RC.t) : Prop :=
  forall q, q <> p -> RC.output q c' = RC.output q c.

Definition same_inputs (c c' : RC.t) : Prop :=
  Router.m_input_unit (RC.router c') = Router.m_input_unit (RC.router c).

Definition same_outputs (c c' : RC.t) : Prop :=
  Router.m_output_unit (RC.router c') = Router.m_output_unit (RC.router c).

Definition same_switch (c c' : RC.t) : Prop :=
  Router.m_switch (RC.router c') = Router.m_switch (RC.router c).

Lemma upd_input_spec p f c c' :
  RC.upd_input p f c = Ok c' ->
  exists u u', RC.input p c = Ok u /\ f u = Ok u' /\ RC.input p c' = Ok u' /\
    inputs_except p c c' /\ same_outputs c c' /\ same_switch c c' /\ RC.alloc c' = RC.alloc c.
Proof.
  intros (u & u' & Hu & Hf & ->)%RC_upd_input_inv. exists u, u'.
  pose proof (vec_at_inside _ _ _ Hu) as Hin.
  split_and!; [done|done| | |done|done|done].
  - unfold RC.input. cbn. eapply vec_at_set_eq. by apply vec_set_Ok.
  - intros q Hq. unfold RC.input. cbn. eapply vec_at_set_ne; [|by apply vec_set_Ok]. done.
Qed.

Lemma upd_output_spec p f c c' :
  RC.upd_output p f c = Ok c' ->
  exists o o', RC.output p c = Ok o /\ f o = Ok o' /\ RC.output p c' = Ok o' /\
    outputs_except p c c' /\ same_inputs c c' /\ same_switch c c' /\ RC.alloc c' = RC.alloc c.
Proof.
  intros (u & u' & Hu & Hf & ->)%RC_upd_output_inv. exists u, u'.
  pose proof (vec_at_inside _ _ _ Hu) as Hin.
  split_and!; [done|done| | |done|done|done].
  - unfold RC.output. cbn. eapply vec_at_set_eq. by apply vec_set_Ok.
  - intros q Hq. unfold RC.output. cbn. eapply vec_at_set_ne; [|by apply vec_set_Ok]. done.
Qed.

(** ** Virtual channels of an input unit *)

Lemma InputUnit_upd_vc_inv vc f u u' :
  InputUnit.upd_vc vc f u = Ok u' ->
  exists v, vec_at (InputUnit.m_vcs u) vc = Ok v /\
    vec_at (InputUnit.m_vcs u') vc = Ok (f v) /\
    (forall w, w <> vc -> vec_at (InputUnit.m_vcs u') w = vec_at (InputUnit.m_vcs u) w) /\
    u' = InputUnit.set_vcs (InputUnit.m_vcs u') u.
Proof.
  unfold InputUnit.upd_vc. intros H. inv_bind H. simplify_res.
  apply vec_upd_inv in E as (v & v' & Hv & Hv' & ->). simplify_res.
  pose proof (vec_at_inside _ _ _ Hv) as Hin. exists v. cbn. split_and!; [done| | |done].
  - eapply vec_at_set_eq. by apply vec_set_Ok.
  - intros w Hw. eapply vec_at_set_ne; [|by apply vec_set_Ok]. done.
Qed.

Lemma getTopFlit_vc_inv vc u f u' :
  InputUnit.getTopFlit vc u = Ok (f, u') ->
  exists v b, vec_at (InputUnit.m_vcs u) vc = Ok v /\
    flitBuffer.getTopFlit (VirtualChannel.m_input_buffer v) = Ok (f, b) /\
    vec_at (InputUnit.m_vcs u') vc = Ok (VirtualChannel.set_buffer b v) /\
    (forall w, w <> vc -> vec_at (InputUnit.m_vcs u') w = vec_at (InputUnit.m_vcs u) w) /\
    u' = InputUnit.set_vcs (InputUnit.m_vcs u') u.
Proof.
  unfold InputUnit.getTopFlit, VirtualChannel.getTopFlit. intros H. inv_bind H. inv_bind H.
  destruct a0 as [f0 v']. inv_bind E0. destruct a0 as [f1 b]. simplify_res. inv_bind H. simplify_res.
  exists a, b. cbn. split_and!; [done|done| | |done].
  - by eapply vec_at_set_eq.
  - intros w Hw. by eapply vec_at_set_ne.
Qed.

(** ** A grant *)

(** The flit of a granted request: the same packet, addressed to the output
    port and virtual channel it won, in the switch-traversal stage. *)
Definition granted (outport outvc curCycle : Z) (dir : PortDirection) (f f' : flit.t) : Prop :=
  flit.m_id f' = flit.m_id f /\ flit.m_msg_ptr f' = flit.m_msg_ptr f /\
  flit.m_route f' = flit.m_route f /\ flit.m_type f' = flit.m_type f /\
  flit.m_time f' = flit.m_time f /\
  flit.m_outport f' = outport /\ flit.m_outport_dir f' = dir /\ flit.m_vc f' = outvc /\
  flit.m_stage f' = (ST_, curCycle).

(** The u-turn bookkeeping changes one flag of the top flit. *)
Lemma count_uturn_spec inport invc c c' :
  SA.count_uturn inport invc c = Ok c' ->
  exists u u' v v', RC.input inport c = Ok u /\ RC.input inport c' = Ok u' /\
    vec_at (InputUnit.m_vcs u) invc = Ok v /\ vec_at (InputUnit.m_vcs u') invc = Ok v' /\
    (v' = v \/ v' = VirtualChannel.update_top (flit.set_request_uturn false) v) /\
    (forall w, w <> invc -> vec_at (InputUnit.m_vcs u') w = vec_at (InputUnit.m_vcs u) w) /\
    u' = InputUnit.set_vcs (InputUnit.m_vcs u') u /\
    inputs_except inport c c' /\ same_outputs c c' /\ same_switch c c' /\
    RC.alloc c' = RC.alloc c.
Proof.
  unfold SA.count_uturn. intros H. inv_bind H. inv_bind H. rename a into u.
  unfold InputUnit.peekTopFlit in E0. inv_bind E0. rename a into v.
  destruct (_ && _) in H.
  - inv_bind H. apply upd_input_spec in H as (u1 & u2 & H1 & H2 & H3 & H4 & H5 & H6 & H7).
    change (RC.input inport (RC.add_uturn 0 1 0 c)) with (RC.input inport c) in H1.
    rewrite E in H1. simplify_res.
    apply InputUnit_upd_vc_inv in H2 as (v1 & Hv1 & Hv2 & Hv3 & Hv4).
    rewrite E1 in Hv1. simplify_res.
    exists u1, u2, v1, (VirtualChannel.update_top (flit.set_request_uturn false) v1). auto 15.
  - simplify_res. exists u, u, v, v. split_and!; try done; [by left|by destruct u].
Qed.

(** The credit for the winner. *)
Lemma return_credit_spec net cur inport invc f c c' u v :
  RC.input inport c = Ok u -> vec_at (InputUnit.m_vcs u) invc = Ok v ->
  SA.return_credit net cur inport invc f c = Ok c' ->
  exists u', RC.input inport c' = Ok u' /\
    vec_at (InputUnit.m_vcs u') invc
      = Ok (if flit.is_tail f then VirtualChannel.set_idle cur v else v) /\
    (flit.is_tail f = true -> VirtualChannel.isReady cur v = Ok false) /\
    (forall w, w <> invc -> vec_at (InputUnit.m_vcs u') w = vec_at (InputUnit.m_vcs u) w) /\
    InputUnit.creditQueue u'
      = flitBuffer.insert (Credit.new (NetConfig.indeterminate net) (NetConfig.empty_dest net)
                             invc (flit.is_tail f) cur) (InputUnit.creditQueue u) /\
    inputs_except inport c c' /\ same_outputs c c' /\ same_switch c c' /\
    RC.alloc c' = RC.alloc c.
Proof.
  intros Hu Hv. unfold SA.return_credit. intros H. inv_bind H. rename a into c1.
  inv_bind H. simplify_res.
  assert (forall c1 (who : consumer), (forall q, RC.input q (RC.schedule net cur who 1 c1) = RC.input q c1)
    /\ RC.alloc (RC.schedule net cur who 1 c1) = RC.alloc c1) as Hsch by done.
  unfold inputs_except, same_outputs, same_switch in *.
  destruct (flit.is_tail f) eqn:Ht.
  - rewrite Hu in E. cbn [mbind Res_bind] in E. unfold InputUnit.isReady in E.
    rewrite Hv in E. cbn [mbind Res_bind] in E.
    inv_bind E. rename a0 into rdy. inv_bind E. inv_bind E. rename a1 into c2.
    apply upd_input_spec in E3 as (u1 & u2 & A1 & A2 & A3 & A4 & A5 & A6 & A7).
    rewrite Hu in A1. simplify_res.
    apply InputUnit_upd_vc_inv in A2 as (v1 & Hv1 & Hv2 & Hv3 & Hv4).
    rewrite Hv in Hv1. simplify_res.
    apply upd_input_spec in E as (u3 & u4 & B1 & B2 & B3 & B4 & B5 & B6 & B7).
    rewrite A3 in B1. simplify_res.
    destruct rdy; [done|]. eexists. rewrite (proj1 (Hsch c1 _)).
    split; [exact B3|]. cbn. split_and!; try done.
    + by rewrite Hv4.
    + intros q Hq. by rewrite (proj1 (Hsch c1 _)), B4, A4.
    + exact (eq_trans B5 A5).
    + exact (eq_trans B6 A6).
    + exact (eq_trans B7 A7).
  - apply upd_input_spec in E as (u3 & u4 & B1 & B2 & B3 & B4 & B5 & B6 & B7). simplify_res.
    rewrite Hu in B1. simplify_res. eexists. rewrite (proj1 (Hsch c1 _)).
    split; [exact B3|]. cbn. split_and!; try done.
Qed.

(** ** Theorems on a grant *)

Lemma isReady_set_buffer cur b v :
  VirtualChannel.isReady cur (VirtualChannel.set_buffer b v) = flitBuffer.isReady cur b.
Proof. done. Qed.

Lemma vc_allocate_spec cur outport inport invc c outvc c' u v :
  RC.input inport c = Ok u -> vec_at (InputUnit.m_vcs u) invc = Ok v ->
  SA.vc_allocate cur outport inport invc c = Ok (outvc, c') ->
  exists vnet o o' u', SA.get_vnet invc c = Ok vnet /\
    RC.output outport c = Ok o /\ RC.output outport c' = Ok o' /\
    outvc ∈ OutputUnit.vnet_vcs vnet o /\ idle cur o outvc /\
    OutputUnit.set_vc_state ACTIVE_ outvc cur o = Ok o' /\
    RC.input inport c' = Ok u' /\
    vec_at (InputUnit.m_vcs u') invc = Ok (VirtualChannel.set_outvc outvc v) /\
    (forall w, w <> invc -> vec_at (InputUnit.m_vcs u') w = vec_at (InputUnit.m_vcs u) w) /\
    InputUnit.creditQueue u' = InputUnit.creditQueue u /\
    inputs_except inport c c' /\ outputs_except outport c c' /\ same_switch c c' /\
    RC.alloc c' = RC.alloc c.
Proof.
  intros Hu Hv H. unfold SA.vc_allocate in H. inv_bind H. rename a into vnet. inv_bind H.
  rename a into o. inv_bind H. destruct a as [vc o1]. inv_bind H. rename a into c1. inv_bind H.
  inv_bind H. simplify_res.
  apply upd_output_spec in E2 as (o2 & o3 & A1 & A2 & A3 & A4 & A5 & A6 & A7). simplify_res.
  apply upd_input_spec in E4 as (u1 & u2 & B1 & B2 & B3 & B4 & B5 & B6 & B7).
  unfold RC.input in B1. rewrite A5 in B1. change (RC.input inport c = Ok u1) in B1.
  rewrite Hu in B1. simplify_res.
  apply InputUnit_upd_vc_inv in B2 as (v1 & Hv1 & Hv2 & Hv3 & Hv4).
  rewrite Hv in Hv1. simplify_res.
  apply select_free_vc_inv in E1 as [(-> & _)|(Hin & Hidle & Hset & _)].
  { unfold assert_ in E3. done. }
  exists vnet, o, o3, u2. unfold inputs_except, outputs_except, same_switch in *.
  split_and!; try done.
  - unfold RC.output. by rewrite B5.
  - by rewrite Hv4.
  - intros q Hq. rewrite B4 by done. unfold RC.input. by rewrite A5.
  - intros q Hq. rewrite <- A4 by done. unfold RC.output. by rewrite B5.
  - by rewrite B6.
  - by rewrite B7.
Qed.

Lemma advance_rr_invc_router p c c' :
  SA.advance_rr_invc p c = Ok c' ->
  (forall q, RC.input q c' = RC.input q c) /\ (forall q, RC.output q c' = RC.output q c) /\
  same_switch c c' /\
  SwitchAllocator.m_round_robin_inport (RC.alloc c') = SwitchAllocator.m_round_robin_inport (RC.alloc c) /\
  SwitchAllocator.m_num_inports (RC.alloc c') = SwitchAllocator.m_num_inports (RC.alloc c) /\
  SwitchAllocator.m_vc_winners (RC.alloc c') = SwitchAllocator.m_vc_winners (RC.alloc c) /\
  SwitchAllocator.m_port_requests (RC.alloc c') = SwitchAllocator.m_port_requests (RC.alloc c) /\
  SwitchAllocator.m_vc_per_vnet (RC.alloc c') = SwitchAllocator.m_vc_per_vnet (RC.alloc c) /\
  Router.m_virtual_networks (RC.router c') = Router.m_virtual_networks (RC.router c).
Proof. unfold SA.advance_rr_invc. intros H. inv_bind H. by simplify_res. Qed.

Lemma grant_switch_spec p f r r' :
  Router.grant_switch p f r = Ok r' ->
  exists b, vec_at (CrossbarSwitch.m_switch_buffer (Router.m_switch r)) p = Ok b /\
    vec_at (CrossbarSwitch.m_switch_buffer (Router.m_switch r')) p = Ok (flitBuffer.insert f b) /\
    (forall q, q <> p -> vec_at (CrossbarSwitch.m_switch_buffer (Router.m_switch r')) q
                         = vec_at (CrossbarSwitch.m_switch_buffer (Router.m_switch r)) q) /\
    Router.m_input_unit r' = Router.m_input_unit r /\
    Router.m_output_unit r' = Router.m_output_unit r /\ Router.m_sw_alloc r' = Router.m_sw_alloc r.
Proof.
  unfold Router.grant_switch, CrossbarSwitch.update_sw_winner. intros H. inv_bind H. inv_bind E.
  simplify_res. apply vec_upd_inv in E0 as (b & b' & Hb & Hb' & ->). simplify_res.
  pose proof (vec_at_inside _ _ _ Hb) as Hin. exists b. cbn. split_and!; try done.
  - eapply vec_at_set_eq. by apply vec_set_Ok.
  - intros q Hq. eapply vec_at_set_ne; [|by apply vec_set_Ok]. done.
Qed.

Lemma decrement_credit_vc_spec vc o o' s :
  vec_at (OutputUnit.m_outvc_state o) vc = Ok s -> OutputUnit.decrement_credit vc o = Ok o' ->
  exists s', OutVcState.decrement_credit s = Ok s' /\
    vec_at (OutputUnit.m_outvc_state o') vc = Ok s' /\
    OutputUnit.m_direction o' = OutputUnit.m_direction o /\
    (forall w, w <> vc -> vec_at (OutputUnit.m_outvc_state o') w
                          = vec_at (OutputUnit.m_outvc_state o) w).
Proof.
  intros Hs. unfold OutputUnit.decrement_credit, OutputUnit.upd_vc. intros H. inv_bind H.
  simplify_res. apply vec_upd_inv in E as (x & y & Hx & Hy & ->). rewrite Hs in Hx. simplify_res.
  pose proof (vec_at_inside _ _ _ Hs). exists y. cbn. split_and!; try done.
  - eapply vec_at_set_eq. by apply vec_set_Ok.
  - intros w Hw. eapply vec_at_set_ne; [|by apply vec_set_Ok]. done.
Qed.

(** The tail of [grant] leaves units and crossbar alone. *)
Lemma clear_and_advance_spec outport inport c c1 c2 :
  SA.clear_request outport inport c = Ok c1 -> SA.advance_rr_inport outport c1 = Ok c2 ->
  RC.router c2 = Router.set_sw_alloc (RC.alloc c2) (RC.router c) /\
  (exists x, vec_at (SwitchAllocator.m_round_robin_inport (RC.alloc c)) outport = Ok x /\
     vec_at (SwitchAllocator.m_round_robin_inport (RC.alloc c2)) outport
       = Ok (SA.next_mod (SwitchAllocator.m_num_inports (RC.alloc c)) x)) /\
  (exists l, vec_at (SwitchAllocator.m_port_requests (RC.alloc c2)) outport = Ok l /\
     vec_at l inport = Ok false) /\
  SwitchAllocator.m_vc_winners (RC.alloc c2) = SwitchAllocator.m_vc_winners (RC.alloc c).
Proof.
  unfold SA.clear_request, SA.advance_rr_inport. intros H1 H2. inv_bind H1. inv_bind H2.
  simplify_res. cbn in *.
  apply vec_upd_inv in E0 as (x & y & Hx & Hy & ->). simplify_res.
  apply vec_upd_inv in E as (l & l' & Hl & Hl' & ->).
  split_and!; [done| | |done].
  - exists x. split; [done|]. eapply vec_at_set_eq. apply vec_set_Ok. by eapply vec_at_inside.
  - exists l'. split; [eapply vec_at_set_eq, vec_set_Ok; by eapply vec_at_inside|].
    by eapply vec_at_set_eq.
Qed.

(** The winner leaves its virtual channel. *)
Lemma take_winner_spec inport invc c c3 u3 t u4 c4 u v f :
  RC.input inport c = Ok u -> vec_at (InputUnit.m_vcs u) invc = Ok v ->
  flitBuffer.front (VirtualChannel.m_input_buffer v) = Ok f ->
  SA.count_uturn inport invc c = Ok c3 -> RC.input inport c3 = Ok u3 ->
  InputUnit.getTopFlit invc u3 = Ok (t, u4) ->
  RC.upd_input inport (fun _ => Ok u4) c3 = Ok c4 ->
  exists v4, RC.input inport c4 = Ok u4 /\ vec_at (InputUnit.m_vcs u4) invc = Ok v4 /\
    flitBuffer.m_buffer (VirtualChannel.m_input_buffer v)
      ≡ₚ f :: flitBuffer.m_buffer (VirtualChannel.m_input_buffer v4) /\
    (t = f \/ t = flit.set_request_uturn false f) /\
    InputUnit.creditQueue u4 = InputUnit.creditQueue u /\
    (forall w, w <> invc -> vec_at (InputUnit.m_vcs u4) w = vec_at (InputUnit.m_vcs u) w) /\
    inputs_except inport c c4 /\ same_outputs c c4 /\ same_switch c c4 /\
    RC.alloc c4 = RC.alloc c.
Proof.
  intros Hu Hv Hf Hc3 Hu3 Htop Hc4.
  apply count_uturn_spec in Hc3 as (u0 & u1 & v0 & v1 & A1 & A2 & A3 & A4 & A5 & A6 & A7 & A8 & A9
    & A10 & A11).
  rewrite Hu in A1. simplify_res. rewrite Hv in A3. simplify_res. rewrite Hu3 in A2. simplify_res.
  apply getTopFlit_vc_inv in Htop as (v2 & b & B1 & B2 & B3 & B4 & B5).
  rewrite A4 in B1. simplify_res.
  apply upd_input_spec in Hc4 as (u5 & u6 & C1 & C2 & C3 & C4 & C5 & C6 & C7). simplify_res.
  exists (VirtualChannel.set_buffer b v2).
  assert (exists l, flitBuffer.m_buffer (VirtualChannel.m_input_buffer v0) = f :: l) as [l Hl].
  { unfold flitBuffer.front in Hf. destruct (flitBuffer.m_buffer _); [done|]. simplify_res. eauto. }
  assert (exists g, flitBuffer.m_buffer (VirtualChannel.m_input_buffer v2) = g :: l /\
    (g = f \/ g = flit.set_request_uturn false f)) as (g & Hg & Hgf).
  { destruct A5 as [-> | ->]; [eauto|]. unfold VirtualChannel.update_top, flitBuffer.update_top.
    rewrite Hl. cbn. eauto. }
  apply getTopFlit_front in B2 as Hfr. unfold flitBuffer.front in Hfr. rewrite Hg in Hfr.
  simplify_res. apply getTopFlit_Permutation in B2. rewrite Hg in B2.
  apply Permutation_cons_inv in B2.
  unfold inputs_except, same_outputs, same_switch in *.
  split_and!; try done.
  - rewrite Hl. by rewrite B2.
  - rewrite B5. by rewrite A7.
  - intros w Hw. rewrite B4, A6; done.
  - intros q Hq. rewrite C4, A8; done.
  - by rewrite C5.
  - by rewrite C6.
  - by rewrite C7.
Qed.

(** C13: what granting output port [outport] to input port [inport] does,
    for a flit that has no output virtual channel yet: the top flit of the
    winning virtual channel leaves it and enters the crossbar buffer of its
    input port, addressed to an output virtual channel of its virtual network
    that was idle; that channel becomes active and loses exactly one credit;
    a credit for the freed slot is queued upstream, with the free signal
    exactly when the flit is a tail, in which case the input virtual channel
    becomes idle; the round-robin pointer of the output port moves on by one
    and the request is withdrawn; all other ports are left alone. *)
Theorem grant_correct net cur outport inport c c' ws invc u v f :
  vec_at (SwitchAllocator.m_vc_winners (RC.alloc c)) outport = Ok ws ->
  vec_at ws inport = Ok invc ->
  RC.input inport c = Ok u -> vec_at (InputUnit.m_vcs u) invc = Ok v ->
  VirtualChannel.m_output_vc v = -1 ->
  flitBuffer.front (VirtualChannel.m_input_buffer v) = Ok f ->
  SA.grant net cur outport inport c = Ok c' ->
  exists vnet outvc o o' s s' u' v' b f' x,
    SA.get_vnet invc c = Ok vnet /\
    RC.output outport c = Ok o /\ RC.output outport c' = Ok o' /\
    outvc ∈ OutputUnit.vnet_vcs vnet o /\ idle cur o outvc /\
    vec_at (OutputUnit.m_outvc_state o) outvc = Ok s /\
    vec_at (OutputUnit.m_outvc_state o') outvc = Ok s' /\
    OutVcState.m_vc_state s' = ACTIVE_ /\
    OutVcState.m_credit_count s' = OutVcState.m_credit_count s - 1 /\
    RC.input inport c' = Ok u' /\ vec_at (InputUnit.m_vcs u') invc = Ok v' /\
    flitBuffer.m_buffer (VirtualChannel.m_input_buffer v)
      ≡ₚ f :: flitBuffer.m_buffer (VirtualChannel.m_input_buffer v') /\
    (flit.is_tail f = true -> VirtualChannel.get_state v' = IDLE_) /\
    InputUnit.creditQueue u'
      = flitBuffer.insert (Credit.new (NetConfig.indeterminate net) (NetConfig.empty_dest net)
                             invc (flit.is_tail f) cur) (InputUnit.creditQueue u) /\
    vec_at (CrossbarSwitch.m_switch_buffer (Router.m_switch (RC.router c))) inport = Ok b /\
    vec_at (CrossbarSwitch.m_switch_buffer (Router.m_switch (RC.router c'))) inport
      = Ok (flitBuffer.insert f' b) /\
    granted outport outvc cur (OutputUnit.m_direction o) f f' /\
    vec_at (SwitchAllocator.m_round_robin_inport (RC.alloc c)) outport = Ok x /\
    vec_at (SwitchAllocator.m_round_robin_inport (RC.alloc c')) outport
      = Ok (SA.next_mod (SwitchAllocator.m_num_inports (RC.alloc c)) x) /\
    SA.requested outport inport c' = Ok false /\
    inputs_except inport c c' /\ outputs_except outport c c'.
Proof.
  intros Hws Hinvc Hu Hv Hov Hf H. unfold SA.grant in H.
  rewrite Hws in H. cbn [mbind Res_bind] in H. rewrite Hinvc in H. cbn [mbind Res_bind] in H.
  inv_bind H. rename a into c1. apply advance_rr_invc_router in E as (R1 & R2 & R3 & R4 & R5 & R6 & R7 & R8 & R9).
  rewrite R1, Hu in H. cbn [mbind Res_bind] in H. unfold InputUnit.get_outvc in H.
  rewrite Hv in H. cbn [mbind Res_bind] in H. rewrite Hov in H. cbn [Z.eqb] in H.
  inv_bind H. destruct a as [outvc c2]. inv_bind H. rename a into c3. inv_bind H. rename a into u3.
  inv_bind H. destruct a as [t u4]. inv_bind H. rename a into c4. inv_bind H. rename a into o4.
  inv_bind H. rename a into c5. inv_bind H. rename a into r. inv_bind H. rename a into c8.
  inv_bind H. rename a into c9.
  rewrite Pos.eqb_refl in E. rewrite <- R1 in Hu.
  destruct (vc_allocate_spec _ _ _ _ _ _ _ _ _ Hu Hv E) as (vnet & o & o1 & u2 & V1 & V2 & V3 & V4 & V5
    & V6 & V7 & V8 & V9 & V10 & V11 & V12 & V13 & V14).
  destruct (take_winner_spec _ _ _ _ _ _ _ _ _ _ _ V7 V8 Hf E0 E1 E2 E3) as (v4 & W1 & W2 & W3 & W4
    & W5 & W6 & W7 & W8 & W9 & W10).
  assert (o4 = o1) as ->. { unfold RC.output in E4. rewrite W8 in E4. unfold RC.output in V3. congruence. }
  apply upd_output_spec in E5 as (o5 & o' & X1 & X2 & X3 & X4 & X5 & X6 & X7).
  assert (o5 = o1) as -> by congruence.
  destruct (set_vc_state_inv _ _ _ _ _ V6) as (s & Hs & Ho1).
  assert (vec_at (OutputUnit.m_outvc_state o1) outvc = Ok (OutVcState.setState ACTIVE_ cur s)) as Hs1.
  { rewrite Ho1. cbn. eapply vec_at_set_eq, vec_set_Ok. by eapply vec_at_inside. }
  destruct (decrement_credit_vc_spec _ _ _ _ Hs1 X2) as (s' & Y1 & Y2 & Y3 & Y4).
  apply decrement_credit_inv in Y1 as [Hc0 ->].
  apply grant_switch_spec in E6 as (b & Z1 & Z2 & Z3 & Z4 & Z5 & Z6).
  set (c7 := RC.set_alloc _ (RC.set_router r c5)) in E7.
  assert (RC.input inport c7 = Ok u4) as Hu7.
  { unfold RC.input, c7. cbn. rewrite Z4, X5. exact W1. }
  destruct (return_credit_spec _ _ _ _ _ _ _ _ _ Hu7 W2 E7) as (u' & Q1 & Q2 & Q3 & Q4 & Q5 & Q6 & Q7
    & Q8 & Q9).
  destruct (clear_and_advance_spec _ _ _ _ _ E8 H) as (T1 & (x & T2 & T3) & (l & T4 & T5) & T6).
  assert (flit.is_tail (flit.advance_stage ST_ cur (flit.set_vc outvc (flit.set_outport_dir
    (OutputUnit.m_direction o1) (flit.set_outport outport t)))) = flit.is_tail f) as Htail
    by (destruct W4 as [-> | ->]; done).
  rewrite Htail in *.
  assert (RC.alloc c7 = SwitchAllocator.set_activity
    (SwitchAllocator.m_input_arbiter_activity (RC.alloc c5))
    (SwitchAllocator.m_output_arbiter_activity (RC.alloc c5) + 1) (RC.alloc c5)) as Ha7.
  { unfold c7, RC.alloc. cbn. rewrite Z6. done. }
  unfold inputs_except, outputs_except, same_inputs, same_outputs, same_switch in *.
  assert (forall q, RC.output q c' = RC.output q c5) as Hout.
  { intros q. unfold RC.output. rewrite T1. cbn. by rewrite Q7, <- Z5. }
  assert (forall q, RC.input q c' = RC.input q c8) as Hin.
  { intros q. unfold RC.input. by rewrite T1. }
  eexists vnet, outvc, o, o', s, _, u', _, b, _, x.
  split_and!; [ |by rewrite <- R2|by rewrite Hout|done|done|done|exact Y2|done|done|by rewrite Hin|exact Q2|..].
  - rewrite <- V1. unfold SA.get_vnet. by rewrite R8, R9.
  - rewrite W3. by destruct (flit.is_tail f).
  - by intros ->.
  - rewrite Q5, W5, V10. done.
  - rewrite <- Z1, X6, W9, V13, R3. done.
  - rewrite T1. cbn. rewrite Q8. exact Z2.
  - rewrite Ho1. destruct W4 as [-> | ->]; done.
  - rewrite <- T2, Q9, Ha7. cbn. by rewrite X7, W10, V14, R4.
  - rewrite T3, Q9, Ha7. cbn. by rewrite X7, W10, V14, R5.
  - unfold SA.requested. rewrite T4. exact T5.
  - intros q Hq. rewrite Hin, Q6 by done. unfold RC.input, c7. cbn. rewrite Z4, X5.
    change (RC.input q c4 = RC.input q c). rewrite W7, V11, R1; done.
  - intros q Hq. rewrite Hout, X4 by done. unfold RC.output. rewrite W8.
    change (RC.output q c2 = RC.output q c). rewrite V12, R2; done.
Qed.

(** ** Which input port wins *)

Fixpoint rr_iter (n : Z) (k : nat) (p : Z) : Z :=
  match k with O => p | S k' => rr_iter n k' (SA.next_mod n p) end.

Lemma next_mod_spec n p : 0 <= p < n -> SA.next_mod n p = (p + 1) mod n.
Proof.
  intros Hp. unfold SA.next_mod. rewrite Z.geb_leb. destruct (Z.leb_spec n (p + 1)).
  - assert (p + 1 = n) as -> by lia. rewrite Z.mod_same; lia.
  - rewrite Z.mod_small; lia.
Qed.

Lemma next_mod_bound n p : 0 <= p < n -> 0 <= SA.next_mod n p < n.
Proof. intros. rewrite next_mod_spec by done. apply Z.mod_pos_bound. lia. Qed.

Lemma rr_iter_spec n k p : 0 <= p < n -> rr_iter n k p = (p + Z.of_nat k) mod n.
Proof.
  revert p. induction k as [|k IH]; intros p Hp; cbn [rr_iter].
  - rewrite Z.mod_small; lia.
  - rewrite IH by (by apply next_mod_bound). rewrite next_mod_spec by done.
    rewrite Z.add_mod_idemp_l by lia. f_equal. lia.
Qed.

Lemma arbitrate_inport_spec net cur iters outport inport c c' :
  SA.arbitrate_inport net cur iters outport inport c = Ok c' ->
  (c' = c /\ forall k, (k < iters)%nat ->
     SA.requested outport (rr_iter (SwitchAllocator.m_num_inports (RC.alloc c)) k inport) c
       = Ok false) \/
  exists k, (k < iters)%nat /\
    (let w := rr_iter (SwitchAllocator.m_num_inports (RC.alloc c)) k inport in
     SA.requested outport w c = Ok true /\ SA.grant net cur outport w c = Ok c') /\
    forall j, (j < k)%nat ->
      SA.requested outport (rr_iter (SwitchAllocator.m_num_inports (RC.alloc c)) j inport) c
        = Ok false.
Proof.
  revert inport. induction iters as [|iters IH]; intros inport H; cbn in H.
  - simplify_res. left. split; [done|lia].
  - inv_bind H. destruct a.
    + right. exists 0%nat. split; [lia|]. split; [done|lia].
    + destruct (IH _ H) as [[-> Hall]|(k & Hk & Hw & Hall)].
      * left. split; [done|]. intros [|k] Hk; [done|]. apply Hall. lia.
      * right. exists (S k). split; [lia|]. split; [done|].
        intros [|j] Hj; [done|]. apply Hall. lia.
Qed.


(** ** One request per input port *)

Abbreviation reqs c := (SwitchAllocator.m_port_requests (RC.alloc c)).

Lemma upd_input_alloc p f c c' : RC.upd_input p f c = Ok c' -> RC.alloc c' = RC.alloc c.
Proof. intros (u & u' & _ & _ & _ & _ & _ & _ & H)%upd_input_spec. done. Qed.

Lemma deflect_to_alloc d q p v c c' : SA.deflect_to d q p v c = Ok c' -> RC.alloc c' = RC.alloc c.
Proof. unfold SA.deflect_to. intros H. run_inv H. by apply upd_input_alloc in E. Qed.

Lemma mark_uturn_alloc net p v c c' : SA.mark_uturn net p v c = Ok c' -> RC.alloc c' = RC.alloc c.
Proof.
  unfold SA.mark_uturn, SA.disallow_uturn, SA.deflect. intros H. run_inv H;
    repeat match goal with
    | H : RC.upd_input _ _ _ = Ok _ |- _ => apply upd_input_alloc in H
    | H : SA.deflect_to _ _ _ _ _ = Ok _ |- _ => apply deflect_to_alloc in H
    end;
    repeat match goal with
    | H : context [RC.alloc (RC.add_uturn ?a ?b ?d ?x)] |- _ =>
        change (RC.alloc (RC.add_uturn a b d x)) with (RC.alloc x) in H
    | |- context [RC.alloc (RC.add_uturn ?a ?b ?d ?x)] =>
        change (RC.alloc (RC.add_uturn a b d x)) with (RC.alloc x)
    end; congruence.
Qed.

Lemma place_request_spec o p v c c' :
  SA.place_request o p v c = Ok c' ->
  (forall o' p', SA.requested o' p' c' = Ok true ->
     SA.requested o' p' c = Ok true \/ (o' = o /\ p' = p)) /\
  SwitchAllocator.m_num_inports (RC.alloc c') = SwitchAllocator.m_num_inports (RC.alloc c) /\
  SwitchAllocator.m_num_vcs (RC.alloc c') = SwitchAllocator.m_num_vcs (RC.alloc c).
Proof.
  unfold SA.place_request. intros H. inv_bind H. inv_bind H. simplify_res. split; [|done].
  apply vec_upd_inv in E as (l & l' & Hl & Hl' & ->). cbn in Hl.
  pose proof (vec_at_inside _ _ _ Hl) as Hin.
  intros o' p' Hr. unfold SA.requested in *. cbn in Hr. inv_bind Hr.
  destruct (decide (o' = o)) as [->|Hne].
  - erewrite vec_at_set_eq in E by (by apply vec_set_Ok). simplify_res.
    destruct (decide (p' = p)) as [->|Hnp]; [by right|]. left. rewrite Hl. cbn.
    erewrite <- vec_at_set_ne; [exact Hr| |exact Hl']. done.
  - erewrite vec_at_set_ne in E; [|symmetry; exact Hne|by apply vec_set_Ok]. left. by rewrite E.
Qed.

Lemma try_invc_requests net cur p v c c' b :
  SA.try_invc net cur p v c = Ok (c', b) ->
  (SwitchAllocator.m_num_inports (RC.alloc c') = SwitchAllocator.m_num_inports (RC.alloc c) /\
   SwitchAllocator.m_num_vcs (RC.alloc c') = SwitchAllocator.m_num_vcs (RC.alloc c)) /\
  (forall o' p', p' <> p -> SA.requested o' p' c' = Ok true -> SA.requested o' p' c = Ok true) /\
  (if b then exists o, forall o', SA.requested o' p c' = Ok true ->
                        SA.requested o' p c = Ok true \/ o' = o
   else forall o', SA.requested o' p c' = Ok true -> SA.requested o' p c = Ok true).
Proof.
  unfold SA.try_invc. intros H. inv_bind H. inv_bind H. destruct a0; [|by simplify_res].
  inv_bind H. rename a0 into c1. inv_bind H. inv_bind H. rename a1 into f.
  destruct (_ >=? _) in H; [done|]. inv_bind H. apply mark_uturn_alloc in E1.
  assert (forall o' p', SA.requested o' p' c1 = SA.requested o' p' c) as Heq
    by (intros; unfold SA.requested; by rewrite E1).
  destruct a1.
  - inv_bind H. simplify_res. apply place_request_spec in E5 as (P1 & P2 & P3).
    rewrite P2, P3, E1. split; [done|]. split.
    + intros o' p' Hne Hr. apply P1 in Hr. rewrite Heq in Hr. naive_solver.
    + exists (flit.m_outport f). intros o' Hr. apply P1 in Hr. rewrite Heq in Hr. naive_solver.
  - simplify_res. rewrite E1. split; [done|]. split; intros *; by rewrite Heq.
Qed.

Lemma arbitrate_invc_requests net cur k p v c c' :
  SA.arbitrate_invc net cur k p v c = Ok c' ->
  (SwitchAllocator.m_num_inports (RC.alloc c') = SwitchAllocator.m_num_inports (RC.alloc c)) /\
  (forall o' p', p' <> p -> SA.requested o' p' c' = Ok true -> SA.requested o' p' c = Ok true) /\
  exists o, forall o', SA.requested o' p c' = Ok true -> SA.requested o' p c = Ok true \/ o' = o.
Proof.
  revert v c. induction k as [|k IH]; intros v c H; cbn in H.
  - simplify_res. split_and!; [done|done|]. exists 0. auto.
  - inv_bind H. destruct a as [c1 []]; apply try_invc_requests in E as ((T1 & T2) & T3 & T4).
    + simplify_res. split_and!; [done|done|done].
    + apply IH in H as (I1 & I2 & o & I3). split_and!; [congruence|naive_solver|].
      exists o. intros o' Hr. destruct (I3 _ Hr); auto.
Qed.

(** Input arbitration makes at most one request per input port and
    cycle: starting from the cleared request vector, after
    [arbitrate_inports] no input port requests two output ports, so the
    crossbar never has to take two flits from one input port. *)
Theorem one_request_per_inport net cur c c' p o1 o2 :
  (forall o q, SA.requested o q c <> Ok true) ->
  SA.arbitrate_inports net cur c = Ok c' ->
  SA.requested o1 p c' = Ok true -> SA.requested o2 p c' = Ok true -> o1 = o2.
Proof.
  intros Hnone H. unfold SA.arbitrate_inports in H.
  destruct (Router.halt_ (RC.router c)); [simplify_res; naive_solver|].
  set (P := fun (done_ : list Z) c1 =>
    (forall q, q ∉ done_ -> forall o, SA.requested o q c1 <> Ok true) /\
    (forall q o o', SA.requested o q c1 = Ok true -> SA.requested o' q c1 = Ok true -> o = o')).
  assert (P (range 0 (SwitchAllocator.m_num_inports (RC.alloc c))) c') as [_ HP].
  2:{ eauto. }
  assert (NoDup (range 0 (SwitchAllocator.m_num_inports (RC.alloc c)))) as Hnd by apply range_NoDup.
  revert H Hnd. generalize (range 0 (SwitchAllocator.m_num_inports (RC.alloc c))) as l.
  assert (forall suf pre c1, P pre c1 -> NoDup (pre ++ suf) ->
    foldM (fun inport c => invc ← vec_at (SwitchAllocator.m_round_robin_invc (RC.alloc c)) inport;
       SA.arbitrate_invc net cur (Z.to_nat (SwitchAllocator.m_num_vcs (RC.alloc c))) inport invc c)
      suf c1 = Ok c' -> P (pre ++ suf) c') as Hgen.
  { induction suf as [|q suf IH]; intros pre c1 [P1 P2] Hnd H; cbn in H.
    - simplify_res. rewrite app_nil_r. by split.
    - inv_bind H. inv_bind E. rename a into c2.
      apply arbitrate_invc_requests in E as (_ & A2 & o & A3).
      assert (q ∉ pre) as Hq.
      { apply NoDup_app in Hnd as (_ & Hd & _). intros Hq. apply (Hd q Hq). set_solver. }
      replace (pre ++ q :: suf) with ((pre ++ [q]) ++ suf) in * by (rewrite <- app_assoc; done).
      eapply IH; [|done|exact H]. split.
      + intros q' Hq' o' Hr. apply not_elem_of_app in Hq' as [Hq1 Hq2].
        apply A2 in Hr; [by eapply P1|]. set_solver.
      + intros q' x y Hx Hy. destruct (decide (q' = q)) as [->|Hne]; [|eauto].
        destruct (A3 _ Hx) as [Hx'| ->]; [by destruct (P1 q Hq x)|].
        destruct (A3 _ Hy) as [Hy'| ->]; [by destruct (P1 q Hq y)|]. done. }
  intros l H Hnd. apply (Hgen l [] c); [|done|done]. split; [by eauto|].
  intros q o o' Hr. by destruct (Hnone o q).
Qed.

(** ** The ordering check *)

(** The point-to-point ordering check of [send_allowed] never blocks a
    flit. No code writes the output port of a virtual channel (its only
    writer, [grant_outport], is never called), so it is -1 in every virtual
    channel; then whether a flit may be sent is decided by the free virtual
    channels of the output port alone, also in an ordered virtual network
    with an older flit for the same output port. *)
Theorem ordering_check_never_blocks net cur inport invc outport c u b :
  RC.input inport c = Ok u ->
  Forall (fun v => VirtualChannel.m_output_port v = -1) (InputUnit.m_vcs u) ->
  0 <= outport ->
  SA.send_allowed net cur inport invc outport (-1) c = Ok b ->
  exists vnet o, SA.get_vnet invc c = Ok vnet /\ RC.output outport c = Ok o /\
    OutputUnit.has_free_vc cur vnet o = Ok b.
Proof.
  intros Hu Hall Hout H. unfold SA.send_allowed in H. inv_bind H. inv_bind H.
  cbn [negb] in H. rewrite Z.eqb_refl in H. cbn [negb] in H.
  destruct (OutputUnit.has_free_vc cur a a0) as [free|] eqn:Hfree; [|done].
  exists a, a0. split_and!; [done|done|]. rewrite Hfree. f_equal.
  cbn [mbind Res_bind] in H. destruct free; cbn [negb orb] in H; [|by simplify_res].
  inv_bind H. destruct a1; [|by simplify_res]. rewrite Hu in H. cbn [mbind Res_bind] in H.
  inv_bind H. inv_bind H. simplify_res. destruct a2 as [x|]; [|done].
  apply findM_Some in E3 as [_ Hx]. unfold SA.older_competitor in Hx.
  rewrite Hu in Hx. cbn [mbind Res_bind] in Hx. inv_bind Hx. destruct a2; [|done].
  unfold InputUnit.get_outport in Hx.
  destruct (vec_at (InputUnit.m_vcs u) _) as [v|] eqn:Hv; [|done]. cbn [mbind Res_bind] in Hx.
  apply vec_at_Ok in Hv as [_ Hv]. eapply Forall_lookup_1 in Hall; [|exact Hv]. cbn in Hall.
  rewrite Hall, (proj2 (Z.eqb_neq _ _)) in Hx by lia. done.
Qed.

(** ** Instances *)

Module AllocExample.
Import Example.

(** Router 3 of the mesh with table routing over an ordered virtual network:
    virtual channels 0 and 1 of its west input port hold flits for the south
    output port; the one in channel 1 arrived first. *)
Definition ordered_net : Net.t := net_with (cfg_with 0 true).

Definition two_flits : Net.t :=
  unwrap ordered_net
    (n ← Net.upd_input 3 1 (InputUnit.upd_vc 1 (VirtualChannel.insertFlit
           (flit.set_outport_dir "South" (flit.set_outport 2 (packet 8 1 5))))) ordered_net;
     n ← Net.upd_input 3 1 (InputUnit.set_vc_active 1 5) n;
     n ← Net.upd_input 3 1 (InputUnit.upd_vc 0 (VirtualChannel.insertFlit
           (flit.set_outport_dir "South" (flit.set_outport 2 (packet 9 1 7))))) n;
     Net.upd_input 3 1 (InputUnit.set_vc_active 0 7) n).

Definition rc (n : Net.t) : RC.t :=
  RC.mk (unwrap (Router.new 3 1 1 2 0) (Net.router 3 n)) (Net.dstats n) (Net.evq n).

Definition c0 : RC.t := rc two_flits.
Definition in1 : InputUnit.t := unwrap (InputUnit.new 1 "West" 2 2) (RC.input 1 c0).

Lemma ordering_check_never_blocks_witness :
  InputUnit.get_enqueue_time 0 in1 = Ok 7 /\ InputUnit.get_enqueue_time 1 in1 = Ok 5 /\
  NetConfig.isVNetOrdered 0 (cfg_with 0 true) = Ok true /\
  SA.send_allowed (cfg_with 0 true) 8 1 0 2 (-1) c0 = Ok true /\
  exists vnet o, SA.get_vnet 0 c0 = Ok vnet /\ RC.output 2 c0 = Ok o /\
    OutputUnit.has_free_vc 8 vnet o = Ok true.
Proof.
  split; [vm_compute; reflexivity|]. split; [vm_compute; reflexivity|].
  split; [vm_compute; reflexivity|].
  assert (SA.send_allowed (cfg_with 0 true) 8 1 0 2 (-1) c0 = Ok true) as H
    by (vm_compute; reflexivity).
  split; [exact H|].
  apply (ordering_check_never_blocks (cfg_with 0 true) 8 1 0 2 c0 in1 true).
  - vm_compute. reflexivity.
  - apply (proj1 (bool_decide_eq_true _)). vm_compute. reflexivity.
  - lia.
  - exact H.
Defined.

(** The state after input arbitration in cycle 8. *)
Definition c1 : RC.t := unwrap c0 (SA.arbitrate_inports (cfg_with 0 true) 8 c0).

Lemma no_requests_c0 : forall o q, SA.requested o q c0 <> Ok true.
Proof.
  intros o q H. unfold SA.requested in H. inv_bind H.
  assert (SwitchAllocator.m_port_requests (RC.alloc c0) = replicate 3 (replicate 3 false)) as Hr
    by (vm_compute; reflexivity).
  rewrite Hr in E. apply vec_at_Ok in E as [_ E]. apply lookup_replicate in E as [-> _].
  apply vec_at_Ok in H as [_ H]. apply lookup_replicate in H as [H _]. discriminate H.
Qed.

Lemma one_request_per_inport_witness : SA.requested 2 1 c1 = Ok true /\ 2 = 2.
Proof.
  assert (SA.requested 2 1 c1 = Ok true) as H by (vm_compute; reflexivity).
  split; [exact H|].
  apply (one_request_per_inport (cfg_with 0 true) 8 c0 c1 1 2 2 no_requests_c0);
    [vm_compute; reflexivity|exact H|exact H].
Defined.

(** The state after the grant of the south output port. *)
Definition c2 : RC.t := unwrap c0 (SA.arbitrate_inport (cfg_with 0 true) 8 3 2 0 c1).


Definition in1' : InputUnit.t := unwrap in1 (RC.input 1 c1).
Definition vc0 : VirtualChannel.t := unwrap (VirtualChannel.new 0) (vec_at (InputUnit.m_vcs in1') 0).
Definition flit0 : flit.t :=
  unwrap (packet 0 0 0) (flitBuffer.front (VirtualChannel.m_input_buffer vc0)).

Lemma grant_correct_witness :
  flit.m_time flit0 = 7 /\
  exists outvc o' s', RC.output 2 c2 = Ok o' /\
    vec_at (OutputUnit.m_outvc_state o') outvc = Ok s' /\ OutVcState.m_vc_state s' = ACTIVE_.
Proof.
  split; [vm_compute; reflexivity|].
  destruct (grant_correct (cfg_with 0 true) 8 2 1 c1 c2 [0; 0; 0] 0 in1' vc0 flit0)
    as (vnet & outvc & o & o' & s & s' & u' & v' & b & f' & x & _ & _ & H1 & _ & _ & _ & H2 & H3 & _);
    [vm_compute; reflexivity..|].
  exists outvc, o', s'. exact (conj H1 (conj H2 H3)).
Defined.

End AllocExample.
