(* ===== verification/SpinFacts.v ===== *)
(** * The DRAIN spin: theorems

    One [doSpin] moves the flit of every node of the ring to the next node
    and touches nothing else of the virtual channels; stale flit pointers
    left in the ring do not matter; and [init_spinRing] yields a closed
    ring. *)

From S2P Require Import Prelude NetDest Types FlitBuffer Channels ChannelFacts RouterCore MsgBuffer NetState Routing RoutingFacts Network Spin Example RouterStep NI Frames AllocFacts.

(** ** What the spin sees of the network *)

Section View.
Variable vc : Z.

(** The virtual channel [vc] of input port [p] of router [id]. *)
Definition vcview (id p : Z) (n : Net.t) : Res VirtualChannel.t :=
  u ← Spin.input id p n; vec_at (InputUnit.m_vcs u) vc.

(** The input port of router [id] in direction [d]. *)
Definition inmap (id : Z) (d : PortDirection) (n : Net.t) : option Z :=
  match Net.router id n with
  | Ok r => RoutingUnit.m_inports_dirn2idx (Router.m_routing_unit r) !! d
  | Err _ => None
  end.

(** Nothing the spin sees changes; directions may be added to the maps. *)
Record quiet (n n' : Net.t) : Prop := {
  quiet_vcs : forall id p, vcview id p n' = vcview id p n;
  quiet_map : forall id d p, inmap id d n = Some p -> inmap id d n' = Some p;
  quiet_ring : Net.spinRing n' = Net.spinRing n;
  quiet_cycle : Net.curCycle n' = Net.curCycle n
}.

(** Virtual channel (id, p) becomes [v]; nothing else of it changes. *)
Record changes (id p : Z) (v : VirtualChannel.t) (n n' : Net.t) : Prop := {
  changes_vc : vcview id p n' = Ok v;
  changes_others : forall id' p', (id', p') <> (id, p) -> vcview id' p' n' = vcview id' p' n;
  changes_map : forall id d q, inmap id d n = Some q -> inmap id d n' = Some q;
  changes_ring : Net.spinRing n' = Net.spinRing n;
  changes_cycle : Net.curCycle n' = Net.curCycle n
}.

#[local] Instance quiet_preorder : PreOrder quiet.
Proof.
  split.
  - intros n. by split.
  - intros n1 n2 n3 [A1 A2 A3 A4] [B1 B2 B3 B4]. split; intros;
      rewrite ?B1, ?A1; try congruence; eauto.
Qed.

Lemma quiet_changes id p v n1 n2 n3 : quiet n1 n2 -> changes id p v n2 n3 -> changes id p v n1 n3.
Proof.
  intros [A1 A2 A3 A4] [B1 B2 B3 B4 B5]. split; intros; try congruence; eauto.
  rewrite B2; [apply A1|done].
Qed.

Lemma changes_quiet id p v n1 n2 n3 : changes id p v n1 n2 -> quiet n2 n3 -> changes id p v n1 n3.
Proof.
  intros [B1 B2 B3 B4 B5] [A1 A2 A3 A4]. split; intros; rewrite ?A1;
    try congruence; eauto.
Qed.

Lemma changes_changes id p v v' n1 n2 n3 :
  changes id p v n1 n2 -> changes id p v' n2 n3 -> changes id p v' n1 n3.
Proof.
  intros [A1 A2 A3 A4 A5] [B1 B2 B3 B4 B5]. split; intros; try congruence; eauto.
  rewrite B2; [by apply A2|done].
Qed.

(** ** Elementary updates *)

Lemma upd_router_quiet id f n n' :
  (forall r r', Net.router id n = Ok r -> f r = Ok r' ->
     Router.m_input_unit r' = Router.m_input_unit r /\
     forall d p, RoutingUnit.m_inports_dirn2idx (Router.m_routing_unit r) !! d = Some p ->
                 RoutingUnit.m_inports_dirn2idx (Router.m_routing_unit r') !! d = Some p) ->
  Net.upd_router id f n = Ok n' -> quiet n n'.
Proof.
  intros Hf H. apply upd_router_inv in H as (r & r' & Hr & Hr' & ->).
  destruct (Hf _ _ Hr Hr') as [Hin Hmap]. pose proof (vec_at_inside _ _ _ Hr) as Hb.
  split; [| |done|done].
  - intros id' p. unfold vcview, Spin.input. destruct (decide (id' = id)) as [->|Hne].
    + rewrite router_set_eq, Hr by done. cbn. by rewrite Hin.
    + by rewrite router_set_ne.
  - intros id' d p. unfold inmap. destruct (decide (id' = id)) as [->|Hne].
    + rewrite router_set_eq, Hr by done. apply Hmap.
    + by rewrite router_set_ne.
Qed.

Lemma upd_output_quiet id p f n n' : Net.upd_output id p f n = Ok n' -> quiet n n'.
Proof.
  apply upd_router_quiet. intros r r' _ H. unfold Router.upd_output in H. run_inv H. done.
Qed.

Lemma map_index_mono {K V} `{Countable K} (dflt : V) (k : K) (m : gmap K V) k' v :
  m !! k' = Some v -> (map_index dflt k m).2 !! k' = Some v.
Proof.
  unfold map_index. destruct (m !! k) eqn:E; cbn; [done|]. intros Hk.
  rewrite lookup_insert_ne; [done|]. congruence.
Qed.

Lemma port_of_quiet id d n p n' : Route.port_of id d n = Ok (p, n') -> quiet n n'.
Proof.
  unfold Route.port_of. intros H. inv_bind H. unfold RoutingUnit.outport_index in H.
  destruct (map_index 0 d _) as [i m]. inv_bind H. simplify_res. revert E0.
  apply upd_router_quiet. intros r r' Hr Hr'. rewrite E in Hr. by simplify_res.
Qed.

Lemma inport_of_quiet id d n p n' :
  Spin.inport_of id d n = Ok (p, n') -> quiet n n' /\ (forall q, inmap id d n = Some q -> p = q).
Proof.
  unfold Spin.inport_of. intros H. inv_bind H. unfold RoutingUnit.inport_index in H.
  pose proof (fun k' v => map_index_mono 0 d
    (RoutingUnit.m_inports_dirn2idx (Router.m_routing_unit a)) k' v) as Hmono.
  destruct (map_index 0 d _) as [i m] eqn:Hi. inv_bind H. simplify_res. split.
  - revert E0. apply upd_router_quiet. intros r r' Hr Hr'. rewrite E in Hr. simplify_res.
    split; [done|]. intros d' q Hq. cbn. by apply Hmono.
  - unfold inmap. rewrite E. intros q Hq. unfold map_index in Hi. rewrite Hq in Hi. by simplify_eq.
Qed.

Lemma neighbour_free_quiet id d e n k n' : Route.neighbour_free id d e n = Ok (k, n') -> quiet n n'.
Proof.
  unfold Route.neighbour_free. intros H. run_inv H; run_all.
  match goal with
  | H1 : Net.router ?j n = Ok ?r, H2 : Router.get_numFreeVC _ ?r = Ok _,
    H3 : Net.upd_router ?j _ _ = Ok _ |- _ => rename H1 into Hr, H2 into Hf, H3 into Hu
  end.
  revert Hu. apply upd_router_quiet. intros r1 r2 Hr1 Hr2. rewrite Hr in Hr1. simplify_res.
  unfold Router.get_numFreeVC, RoutingUnit.inport_index in Hf. inv_bind Hf.
  pose proof (fun k' v => map_index_mono 0 e
    (RoutingUnit.m_inports_dirn2idx (Router.m_routing_unit r1)) k' v) as Hmono.
  destruct (map_index 0 e _) as [i m]. inv_bind Hf. inv_bind Hf. simplify_res.
  split; [done|]. intros d' q Hq. cbn. by apply Hmono.
Qed.

Lemma random_quiet n : quiet n (Net.random n).2.
Proof. by split. Qed.

Lemma adaptive_port_quiet id h rand n p n' :
  Route.adaptive_port id h rand n = Ok (p, n') -> quiet n n'.
Proof.
  unfold Route.adaptive_port. intros H. inv_bind H. destruct a as [x n1]. inv_bind H.
  destruct a as [y n2]. apply neighbour_free_quiet in E. apply neighbour_free_quiet in E0.
  apply port_of_quiet in H. etransitivity; [exact E|]. by etransitivity.
Qed.

Lemma route_compute_quiet id route p d n q n' :
  Route.route_compute id route p d n = Ok (q, n') -> quiet n n'.
Proof.
  unfold Route.route_compute, Route.outportCompute. intros H. inv_bind H.
  destruct (_ =? _) in H.
  { unfold Route.table_route in H. by run_inv H. }
  run_inv H. destruct (RoutingAlgorithm_of_int _);
    [unfold Route.table_route in E0 | unfold Route.outportComputeXY in E0
    |unfold Route.outportComputeRandom in E0 |unfold Route.outportComputeAdaptRand in E0
    |unfold Route.outportComputeWestFirst in E0 |unfold Route.outportComputeAdaptWestFirst in E0
    |done | unfold Route.table_route in E0];
    cbn in E0; run_inv E0; try done;
    first [apply port_of_quiet in E0 | apply adaptive_port_quiet in E0];
    first [exact E0 | etransitivity; [apply random_quiet | exact E0]].
Qed.

Lemma on_upstream_quiet id d w f n n' : Spin.on_upstream id d w f n = Ok n' -> quiet n n'.
Proof.
  unfold Spin.on_upstream. intros H. inv_bind H. inv_bind H. destruct a0 as [j|]; [|done].
  inv_bind H. inv_bind H. destruct a1 as [q n1]. apply port_of_quiet in E2.
  apply upd_output_quiet in H. by etransitivity.
Qed.

Lemma set_dstats_quiet s n : quiet n (Net.set_dstats s n).
Proof. by split. Qed.

(** An update of one virtual channel of one input port. *)
Lemma upd_input_changes id p f n n' v v' :
  vcview id p n = Ok v ->
  (forall u u', f u = Ok u' -> vec_at (InputUnit.m_vcs u) vc = Ok v ->
     vec_at (InputUnit.m_vcs u') vc = Ok v') ->
  Net.upd_input id p f n = Ok n' -> changes id p v' n n'.
Proof.
  intros Hv Hf H. unfold Net.upd_input in H. apply upd_router_inv in H as (r & r' & Hr & Hr' & ->).
  unfold Router.upd_input in Hr'. inv_bind Hr'. simplify_res.
  apply vec_upd_inv in E as (u & u' & Hu & Hu' & ->).
  unfold vcview, Spin.input in Hv. rewrite Hr in Hv. cbn in Hv. rewrite Hu in Hv. cbn in Hv.
  pose proof (vec_at_inside _ _ _ Hr) as Hb. pose proof (vec_at_inside _ _ _ Hu) as Hpb.
  split; [| | |done|done].
  - unfold vcview, Spin.input. rewrite router_set_eq by done. cbn.
    erewrite vec_at_set_eq by (by apply vec_set_Ok). cbn. eauto.
  - intros id' p' Hne. unfold vcview, Spin.input. destruct (decide (id' = id)) as [->|Hid].
    + rewrite router_set_eq, Hr by done. cbn.
      rewrite (vec_at_set_ne (Router.m_input_unit r) p p' u'); [done|congruence|].
      by apply vec_set_Ok.
    + by rewrite router_set_ne.
  - intros id' d q. unfold inmap. destruct (decide (id' = id)) as [->|Hid].
    + rewrite router_set_eq, Hr by done. done.
    + by rewrite router_set_ne.
Qed.

(** The ring can be set aside. *)
Lemma quiet_with_ring R n n' : quiet n n' -> quiet (Net.set_spinRing R n) (Net.set_spinRing R n').
Proof. intros [A1 A2 A3 A4]. by split. Qed.

Lemma changes_with_ring R id p v n n' :
  changes id p v n n' -> changes id p v (Net.set_spinRing R n) (Net.set_spinRing R n').
Proof. intros [A1 A2 A3 A4 A5]. by split. Qed.

Lemma set_own_ring n : Net.set_spinRing (Net.spinRing n) n = n.
Proof. by destruct n. Qed.

Lemma changes_ring_mid id p v l n n' :
  changes id p v (Net.set_spinRing l n) n' ->
  changes id p v n (Net.set_spinRing (Net.spinRing n) n') /\ Net.spinRing n' = l.
Proof.
  intros H. split; [|by destruct H].
  apply (changes_with_ring (Net.spinRing n)) in H. by rewrite <- (set_own_ring n) at 1.
Qed.

(** ** Taking a flit out and putting one in *)

(** The same packet after a hop of the ring: it has been routed again, and
    has made one more hop. *)
Definition moved (f f' : flit.t) : Prop :=
  flit.m_id f' = flit.m_id f /\ flit.m_msg_ptr f' = flit.m_msg_ptr f /\
  flit.m_vnet f' = flit.m_vnet f /\ flit.m_vc f' = flit.m_vc f /\
  flit.m_type f' = flit.m_type f /\ flit.m_time f' = flit.m_time f /\
  flit.m_marked f' = flit.m_marked f /\ flit.src_delay f' = flit.src_delay f /\
  flit.m_enqueue_time f' = flit.m_enqueue_time f /\
  flit.m_route f' = RouteInfo.set_hops_traversed
    (RouteInfo.hops_traversed (flit.m_route f) + 1) (flit.m_route f) /\
  flit.hops_needed_before_spin f' = -1 /\ flit.hops_needed_after_spin f' = -1.

Abbreviation buf v := (flitBuffer.m_buffer (VirtualChannel.m_input_buffer v)).

(** [f] with the hop count of stage 1. *)
Definition lifted (f f1 : flit.t) : Prop :=
  exists h, f1 = flit.set_hops_needed h (flit.hops_needed_after_spin f) f.

Lemma set_ring_flit_inv i f n n' :
  Spin.set_ring_flit i f n = Ok n' ->
  exists s, vec_at (Net.spinRing n) i = Ok s /\
    n' = Net.set_spinRing (<[Z.to_nat i := spinStruct.set_flit f s]> (Net.spinRing n)) n.
Proof.
  unfold Spin.set_ring_flit. intros H. inv_bind H. simplify_res.
  apply vec_upd_inv in E as (s & s' & Hs & Hs' & ->). simplify_res. eauto.
Qed.

Lemma take_flit_spec idx p node n n' v f :
  let id := spinStruct.router_id_ node in
  vcview id p n = Ok v -> buf v = [f] ->
  Spin.take_flit vc idx p node n = Ok n' ->
  exists v' f1 s, changes id p v' n (Net.set_spinRing (Net.spinRing n) n') /\
    buf v' = [] /\ VirtualChannel.get_state v' = IDLE_ /\ lifted f f1 /\
    vec_at (Net.spinRing n) (idx + 1) = Ok s /\
    Net.spinRing n' = <[Z.to_nat (idx + 1) := spinStruct.set_flit (Some f1) s]> (Net.spinRing n).
Proof.
  intros id Hv Hf H. unfold Spin.take_flit in H. fold id in H.
  inv_bind H. rename a into r. inv_bind H. rename a into u. inv_bind H. rename a into f0.
  inv_bind H. inv_bind H. destruct a0 as [t u']. inv_bind H. rename a0 into n1. inv_bind H.
  inv_bind H. inv_bind H. inv_bind H. rename a3 into n3. inv_bind H. rename a3 into n4.
  assert (vec_at (InputUnit.m_vcs u) vc = Ok v) as Huv.
  { unfold vcview, Spin.input in Hv. rewrite E in Hv. cbn in Hv. by rewrite E0 in Hv. }
  apply getTopFlit_vc_inv in E3 as (v0 & b & G1 & G2 & G3 & _). rewrite Huv in G1. simplify_res.
  apply getTopFlit_inv in G2 as (l & Hl & ->). rewrite Hf in Hl. injection Hl as <- <-.
  assert (changes id p (VirtualChannel.set_buffer (flitBuffer.mk [] (flitBuffer.max_size
    (VirtualChannel.m_input_buffer v0))) v0) n n1) as C1.
  { eapply upd_input_changes; [exact Hv| |exact E4]. intros ? ? ? _. simplify_res. exact G3. }
  set (f1 := flit.set_hops_needed _ _ _) in E8. apply set_ring_flit_inv in E8 as (s & Hs & ->).
  eapply (upd_input_changes id p _ _ _ _ (VirtualChannel.set_idle (Net.curCycle n1) (VirtualChannel.set_buffer
    (flitBuffer.mk [] (flitBuffer.max_size (VirtualChannel.m_input_buffer v0))) v0))) in E9 as C2.
  2:{ destruct a1; apply C1. }
  2:{ intros x y Hxy Hx. apply InputUnit_upd_vc_inv in Hxy as (w & W1 & W2 & _).
      rewrite Hx in W1. simplify_res. rewrite W2. destruct a1; done. }
  apply on_upstream_quiet in H. eapply changes_quiet in H; [|exact C2].
  apply changes_ring_mid in H as [C3 R3].
  assert (Net.spinRing (if a1 then Spin.add_spin 0 1 0 0 n1 else Spin.add_spin 0 0 1 0 n1)
    = Net.spinRing n) as Hring by (destruct a1; apply C1).
  rewrite Hring in *.
  exists (VirtualChannel.set_idle (Net.curCycle n1) (VirtualChannel.set_buffer
    (flitBuffer.mk [] (flitBuffer.max_size (VirtualChannel.m_input_buffer v0))) v0)), f1, s.
  split_and!; [|done|done|by eexists|done|exact R3].
  eapply changes_changes; [exact C1|].
  destruct a1; (eapply quiet_changes; [apply set_dstats_quiet | exact C3]).
Qed.

Lemma place_flit_spec p node f n n' v :
  let id := spinStruct.router_id_ node in
  vcview id p n = Ok v -> buf v = [] -> Spin.place_flit vc p node f n = Ok n' ->
  exists v' f', changes id p v' n n' /\ buf v' = [f'] /\ VirtualChannel.get_state v' = ACTIVE_ /\
    forall f0, lifted f0 f -> moved f0 f'.
Proof.
  intros id Hv Hb H. unfold Spin.place_flit in H. fold id in H.
  inv_bind H. destruct a as [q n1]. inv_bind H. rename a into r. inv_bind H. inv_bind H.
  rename a0 into dir. inv_bind H. inv_bind H. rename a1 into n2. inv_bind H. rename a1 into u.
  inv_bind H. rename a1 into v2. inv_bind H. inv_bind H. rename a2 into n3.
  set (f2 := flit.set_hops_needed (-1) (-1) _) in E4.
  apply route_compute_quiet in E.
  set (n1' := if _ >? _ then _ else _) in E4.
  assert (quiet n1 n1') as Hq by (unfold n1'; destruct (_ >? _); [apply set_dstats_quiet|done]).
  assert (quiet n n1') as Hq' by (by etransitivity).
  assert (changes id p (VirtualChannel.insertFlit f2 v) n1' n2) as C1.
  { eapply upd_input_changes; [|intros x y Hxy Hx|exact E4].
    - rewrite (quiet_vcs _ _ Hq'). exact Hv.
    - apply InputUnit_upd_vc_inv in Hxy as (w & W1 & W2 & _). rewrite Hx in W1. by simplify_res. }
  assert (changes id p (VirtualChannel.set_active (Net.curCycle n2) (VirtualChannel.insertFlit f2 v))
    n2 n3) as C2.
  { eapply upd_input_changes; [apply C1|intros x y Hxy Hx|exact E8].
    apply InputUnit_upd_vc_inv in Hxy as (w & W1 & W2 & _). rewrite Hx in W1. by simplify_res. }
  apply on_upstream_quiet in H.
  exists (VirtualChannel.set_active (Net.curCycle n2) (VirtualChannel.insertFlit f2 v)), f2.
  split_and!.
  - eapply changes_quiet; [|exact H]. eapply changes_changes; [|exact C2].
    by eapply quiet_changes.
  - cbn. by rewrite Hb.
  - done.
  - intros f0 [h ->]. unfold moved. subst f2. cbn. split_and!; done.
Qed.

(** ** The ring *)

(** The virtual channel a node of the ring names. *)
Definition node_slot (n : Net.t) (s : spinStruct.t) : option (Z * Z) :=
  p ← inmap (spinStruct.router_id_ s) (spinStruct.inport_dir_ s) n;
  Some (spinStruct.router_id_ s, p).

(** The flits in the virtual channel [a]. *)
Definition at_slot (a : Z * Z) (n : Net.t) : Res (list flit.t) :=
  v ← vcview a.1 a.2 n; Ok (buf v).

Definition single (n : Net.t) (a : Z * Z) : bool :=
  match at_slot a n with Ok [] | Ok [_] => true | _ => false end.

(** The ring names the virtual channels [l], each once, and then the first
    of them again; a virtual channel holds at most one packet. *)
Record ring_ok (n : Net.t) (l : list (Z * Z)) : Prop := {
  ring_slots : mapM (node_slot n) (Net.spinRing n) = Some (l ++ take 1 l);
  ring_nonempty : l <> [];
  ring_once : NoDup l;
  ring_single : Forall (fun a => single n a = true) l
}.

Lemma at_slot_view a n n' : vcview a.1 a.2 n' = vcview a.1 a.2 n -> at_slot a n' = at_slot a n.
Proof. intros H. unfold at_slot. by rewrite H. Qed.

Lemma vec_at_nat {A} (l : list A) i x : vec_at l (Z.of_nat i) = Ok x <-> l !! i = Some x.
Proof. rewrite vec_at_Ok, Nat2Z.id. split; [by intros [_ ?]|]. intros; split; [lia|done]. Qed.

Section Ring.
Context (n : Net.t) (l : list (Z * Z)) (Hok : ring_ok n l).

#[local] Abbreviation ls := (l ++ take 1 l).

Lemma ring_length : length (Net.spinRing n) = S (length l).
Proof.
  pose proof (ring_slots _ _ Hok) as H. apply length_mapM in H.
  rewrite H, length_app, length_take.
  pose proof (ring_nonempty _ _ Hok) as Hne. destruct l; [done|]. cbn. lia.
Qed.

Lemma ls_length : length ls = S (length l).
Proof. rewrite <- ring_length. pose proof (ring_slots _ _ Hok) as H. by apply length_mapM in H. Qed.

Lemma ring_slot i s :
  Net.spinRing n !! i = Some s ->
  exists p, ls !! i = Some (spinStruct.router_id_ s, p) /\
    inmap (spinStruct.router_id_ s) (spinStruct.inport_dir_ s) n = Some p.
Proof.
  intros Hs. pose proof (ring_slots _ _ Hok) as H. apply mapM_Some in H.
  destruct (Forall2_lookup_l _ _ _ _ _ H Hs) as (a & Ha & Hn).
  unfold node_slot in Hn. destruct (inmap _ _ _) as [p|]; [|done]. cbn in Hn.
  exists p. split; [|done]. rewrite Ha. f_equal. congruence.
Qed.

Lemma ls_front i : (i < length l)%nat -> ls !! i = l !! i.
Proof. intros. by rewrite lookup_app_l. Qed.

Lemma ls_last : ls !! length l = l !! 0%nat.
Proof. rewrite lookup_app_r, Nat.sub_diag by lia. by destruct l. Qed.

(** The nodes but the first are different virtual channels too. *)
Lemma ls_distinct i j a :
  (1 <= i <= length l)%nat -> (1 <= j <= length l)%nat ->
  ls !! i = Some a -> ls !! j = Some a -> i = j.
Proof.
  intros Hi Hj Ha Hb. pose proof (ring_once _ _ Hok) as ND.
  destruct (decide (i = length l)) as [->|], (decide (j = length l)) as [->|];
    rewrite ?ls_last in Ha; rewrite ?ls_last in Hb; rewrite ?ls_front in Ha by lia; rewrite ?ls_front in Hb by lia.
  - done.
  - pose proof (NoDup_lookup _ _ _ _ ND Ha Hb). lia.
  - pose proof (NoDup_lookup _ _ _ _ ND Ha Hb). lia.
  - by apply (NoDup_lookup l _ _ a ND).
Qed.

Lemma slot_content a : a ∈ l -> exists v, vcview a.1 a.2 n = Ok v /\ (buf v = [] \/ exists f, buf v = [f]).
Proof.
  intros Ha. pose proof (ring_single _ _ Hok) as F. rewrite Forall_forall in F.
  specialize (F a Ha). unfold single, at_slot in F.
  destruct (vcview a.1 a.2 n) as [v|]; [|done]. cbn in F. exists v. split; [done|].
  destruct (buf v) as [|f [|]]; [by left|right; by eexists|done].
Qed.

(** *** Stage 1 *)

Record emptied (k : nat) (m : Net.t) : Prop := {
  em_map : forall id d q, inmap id d n = Some q -> inmap id d m = Some q;
  em_nodes : forall i s, Net.spinRing n !! i = Some s ->
    exists fo, Net.spinRing m !! i = Some (spinStruct.set_flit fo s);
  em_flits : forall i a, (i < k)%nat -> l !! i = Some a ->
    exists s b, Net.spinRing m !! S i = Some s /\ at_slot a n = Ok b /\
      Forall2 lifted b (option_list (spinStruct.flit_ s));
  em_empty : forall i a, (i < k)%nat -> l !! i = Some a ->
    exists v, vcview a.1 a.2 m = Ok v /\ buf v = [];
  em_others : forall a, (forall i, (i < k)%nat -> l !! i <> Some a) ->
    vcview a.1 a.2 m = vcview a.1 a.2 n
}.

Lemma emptied_start : emptied 0 (Spin.add_spin 1 0 0 0 n).
Proof.
  split; [done| |lia|lia|done].
  intros i s Hs. exists (spinStruct.flit_ s). cbn. rewrite Hs. by destruct s.
Qed.

(** What one iteration of stage 1 does to the state. *)
Record freed (k : nat) (a : Z * Z) (m m' : Net.t) : Prop := {
  freed_vc : exists v v', vcview a.1 a.2 m = Ok v /\ vcview a.1 a.2 m' = Ok v' /\ buf v' = [] /\
    exists s fo, Net.spinRing m !! S k = Some s /\ Forall2 lifted (buf v) (option_list fo) /\
      Net.spinRing m' = <[S k := spinStruct.set_flit fo s]> (Net.spinRing m);
  freed_others : forall b, b <> a -> vcview b.1 b.2 m' = vcview b.1 b.2 m;
  freed_map : forall id d q, inmap id d m = Some q -> inmap id d m' = Some q
}.

Lemma emptied_freed k a m m' :
  l !! k = Some a -> emptied k m -> freed k a m m' -> emptied (S k) m'.
Proof.
  intros Ha [M N F E O] [(v & v' & Hv & Hv' & Hb & s & fo & Hs & Hl & Hr) FO FM].
  pose proof (ring_once _ _ Hok) as ND.
  assert (vcview a.1 a.2 m = vcview a.1 a.2 n) as Hva.
  { apply O. intros i Hi Hl'. pose proof (NoDup_lookup _ _ _ _ ND Hl' Ha). lia. }
  pose proof (lookup_lt_Some _ _ _ Hs) as Hlt.
  split.
  - eauto.
  - intros i t Ht. destruct (N i t Ht) as [go Hgo]. rewrite Hr.
    destruct (decide (i = S k)) as [->|Hne].
    + rewrite list_lookup_insert_eq by done. exists fo. rewrite Hs in Hgo. by simplify_eq.
    + rewrite list_lookup_insert_ne by done. eauto.
  - intros i b Hi Hb'. destruct (decide (i = k)) as [->|Hne].
    + rewrite Ha in Hb'. simplify_eq. eexists _, _. rewrite Hr, list_lookup_insert_eq by done.
      split; [done|]. unfold at_slot. rewrite <- Hva, Hv. done.
    + rewrite Hr, list_lookup_insert_ne by lia. apply F; [lia|done].
  - intros i b Hi Hb'. destruct (decide (i = k)) as [->|Hne].
    + rewrite Ha in Hb'. simplify_eq. eauto.
    + rewrite FO; [apply (E i); [lia|done]|]. intros ->.
      pose proof (NoDup_lookup _ _ _ _ ND Hb' Ha). done.
  - intros b Hb'. rewrite FO; [apply O; intros; apply Hb'; lia|]. intros ->.
    by destruct (Hb' k ltac:(lia)).
Qed.

Lemma changes_set_ring id p v n1 n2 R :
  changes id p v n1 (Net.set_spinRing R n2) ->
  vcview id p n2 = Ok v /\
  (forall b, b <> (id, p) -> vcview b.1 b.2 n2 = vcview b.1 b.2 n1) /\
  (forall j d q, inmap j d n1 = Some q -> inmap j d n2 = Some q).
Proof.
  intros [A1 A2 A3 _ _]. split; [exact A1|]. split; [|exact A3].
  intros [j q] Hne. by apply (A2 j q).
Qed.

(** The slot of node [k] before its iteration. *)
Lemma emptied_node k m :
  (k < length l)%nat -> emptied k m ->
  exists node p v, Net.spinRing m !! k = Some node /\
    l !! k = Some (spinStruct.router_id_ node, p) /\
    inmap (spinStruct.router_id_ node) (spinStruct.inport_dir_ node) m = Some p /\
    vcview (spinStruct.router_id_ node) p m = Ok v /\ (buf v = [] \/ exists f, buf v = [f]).
Proof.
  intros Hk Hem.
  destruct (lookup_lt_is_Some_2 (Net.spinRing n) k) as [s0 Hs0]; [rewrite ring_length; lia|].
  destruct (em_nodes _ _ Hem _ _ Hs0) as [fo0 Hnode].
  destruct (ring_slot _ _ Hs0) as (p & Hp & Hin). rewrite ls_front in Hp by done.
  destruct (slot_content (spinStruct.router_id_ s0, p)) as (v & Hv & Hbuf);
    [by eapply list_elem_of_lookup_2|].
  rewrite <- (em_others _ _ Hem (spinStruct.router_id_ s0, p)) in Hv.
  2:{ intros i Hi Hl. pose proof (NoDup_lookup _ _ _ _ (ring_once _ _ Hok) Hl Hp). lia. }
  eexists _, p, v. split_and!; [exact Hnode|done| |done|done].
  by apply (em_map _ _ Hem).
Qed.

(** A node whose virtual channel is empty. *)
Lemma freed_bubble k id p v m m1 m2 :
  quiet m m1 -> vcview id p m = Ok v -> buf v = [] ->
  Spin.set_ring_flit (Z.of_nat k + 1) None m1 = Ok m2 ->
  freed k (id, p) m (Spin.add_spin 0 0 0 1 m2).
Proof.
  intros Q Hv Hb H. apply set_ring_flit_inv in H as (s & Hs & ->).
  rewrite (quiet_ring _ _ Q) in *. replace (Z.of_nat k + 1) with (Z.of_nat (S k)) in * by lia.
  apply vec_at_nat in Hs. rewrite Nat2Z.id. split.
  - exists v, v. split; [done|]. split; [|split; [done|]].
    + change (vcview id p m1 = Ok v). by rewrite (quiet_vcs _ _ Q).
    + exists s, None. split; [done|]. rewrite Hb. split; [constructor|done].
  - intros b _. apply (quiet_vcs _ _ Q).
  - apply (quiet_map _ _ Q).
Qed.

(** A node whose virtual channel holds a flit. *)
Lemma freed_flit k p v f node m m1 m2 :
  quiet m m1 -> vcview (spinStruct.router_id_ node) p m = Ok v -> buf v = [f] ->
  Spin.take_flit vc (Z.of_nat k) p node m1 = Ok m2 ->
  freed k (spinStruct.router_id_ node, p) m m2.
Proof.
  intros Q Hv Hb H. eapply take_flit_spec in H as (v' & f1 & s & C & Hb' & _ & Hl & Hs & Hr);
    [| |exact Hb].
  2:{ rewrite (quiet_vcs _ _ Q). exact Hv. }
  rewrite (quiet_ring _ _ Q) in Hs, Hr.
  replace (Z.of_nat k + 1) with (Z.of_nat (S k)) in * by lia.
  apply vec_at_nat in Hs. rewrite Nat2Z.id in Hr.
  apply changes_set_ring in C as (C1 & C2 & C3). split.
  - exists v, v'. split_and!; [done|done|done|]. exists s, (Some f1). split_and!; [done| |done].
    rewrite Hb. by repeat constructor.
  - intros b Hne. rewrite C2 by done. apply (quiet_vcs _ _ Q).
  - intros. apply C3, (quiet_map _ _ Q). done.
Qed.

Lemma remove_stage_emptied k x x' m m' :
  (k < length l)%nat -> emptied k m ->
  Spin.remove_stage vc (Z.of_nat k) (x, m) = Ok (x', m') -> emptied (S k) m'.
Proof.
  intros Hk Hem H. destruct (emptied_node k m Hk Hem) as (node & p & v & Hn & Hp & Hin & Hv & Hbuf).
  unfold Spin.remove_stage in H. inv_bind H. apply vec_at_nat in E. rewrite Hn in E.
  injection E as <-. inv_bind H. destruct a as [q m1]. apply inport_of_quiet in E as [Q Hq].
  specialize (Hq p Hin). subst q. inv_bind H. rename a into u.
  pose proof Hv as Hv1. rewrite <- (quiet_vcs _ _ Q) in Hv1. unfold vcview in Hv1.
  rewrite E in Hv1. cbn in Hv1. inv_bind H. unfold InputUnit.vc_isEmpty in E0.
  rewrite Hv1 in E0. cbn in E0. simplify_res.
  eapply emptied_freed; [exact Hp|exact Hem|].
  unfold VirtualChannel.isEmpty, flitBuffer.isEmpty in H.
  destruct Hbuf as [Hb|[f Hb]]; rewrite Hb in H;
    [change (zlen [] =? 0) with true in H | change (zlen [f] =? 0) with false in H];
    cbn in H; inv_bind H; simplify_res.
  - by eapply freed_bubble.
  - by eapply freed_flit.
Qed.

(** *** Stage 2 *)

(** [f'] is what a node holding [f1] puts into its virtual channel. *)
Definition landed (f1 f' : flit.t) : Prop := forall f0, lifted f0 f1 -> moved f0 f'.

Record filled (m : Net.t) (k : nat) (m' : Net.t) : Prop := {
  fi_map : forall id d q, inmap id d m = Some q -> inmap id d m' = Some q;
  fi_ring : Net.spinRing m' = Net.spinRing m;
  fi_flits : forall i a s, (1 <= i < k)%nat -> ls !! i = Some a -> Net.spinRing m !! i = Some s ->
    exists b, at_slot a m' = Ok b /\ Forall2 landed (option_list (spinStruct.flit_ s)) b;
  fi_others : forall a, (forall i, (1 <= i < k)%nat -> ls !! i <> Some a) ->
    vcview a.1 a.2 m' = vcview a.1 a.2 m
}.

Lemma filled_start m : filled m 1 m.
Proof. split; [done|done|lia|done]. Qed.

(** One virtual channel gets the flit of its node. *)
Lemma filled_step m k m1 m2 id p s v' :
  (1 <= k <= length l)%nat -> ls !! k = Some (id, p) -> Net.spinRing m !! k = Some s ->
  Forall2 landed (option_list (spinStruct.flit_ s)) (buf v') ->
  changes id p v' m1 m2 -> filled m k m1 -> filled m (S k) m2.
Proof.
  intros Hk Hp Hs Hl [C1 C2 C3 C4 _] [M R F O]. split.
  - eauto.
  - congruence.
  - intros i a s' Hi Ha Hs'. destruct (decide (i = k)) as [->|Hne].
    + rewrite Hp in Ha. rewrite Hs in Hs'. simplify_eq. exists (buf v'). split; [|done].
      unfold at_slot. cbn [fst snd]. by rewrite C1.
    + destruct (F i a s') as (b & Hb & Hlb); [lia|done|done|]. exists b. split; [|done].
      rewrite <- Hb. apply at_slot_view. destruct a as [j q]. apply (C2 j q).
      intros [= -> ->]. apply Hne. eapply ls_distinct; [| |exact Ha|exact Hp]; lia.
  - intros [j q] Ha. rewrite <- O.
    + apply (C2 j q). intros [= -> ->]. by apply (Ha k ltac:(lia)).
    + intros i Hi. apply Ha. lia.
Qed.

Lemma changes_refl id p v m : vcview id p m = Ok v -> changes id p v m m.
Proof. by split. Qed.

(** The slot of node [k] before its iteration of stage 2. *)
Lemma filled_node m k m1 :
  (1 <= k <= length l)%nat -> emptied (length l) m -> filled m k m1 ->
  exists s p v, Net.spinRing m !! k = Some s /\ ls !! k = Some (spinStruct.router_id_ s, p) /\
    inmap (spinStruct.router_id_ s) (spinStruct.inport_dir_ s) m1 = Some p /\
    vcview (spinStruct.router_id_ s) p m1 = Ok v /\ buf v = [].
Proof.
  intros Hk Hem Hfi.
  destruct (lookup_lt_is_Some_2 (Net.spinRing n) k) as [s0 Hs0]; [rewrite ring_length; lia|].
  destruct (em_nodes _ _ Hem _ _ Hs0) as [fo Hs]. destruct (ring_slot _ _ Hs0) as (p & Hp & Hin).
  assert (exists i, (i < length l)%nat /\ l !! i = Some (spinStruct.router_id_ s0, p)) as (i & Hi & Hli).
  { destruct (decide (k = length l)) as [->|].
    - rewrite ls_last in Hp. exists 0%nat. split; [lia|done].
    - rewrite ls_front in Hp by lia. exists k. split; [lia|done]. }
  destruct (em_empty _ _ Hem i _ Hi Hli) as (v & Hv & Hb).
  exists (spinStruct.set_flit fo s0), p, v. split_and!; [done|done| | |done].
  - by apply (fi_map _ _ _ Hfi), (em_map _ _ Hem).
  - rewrite <- Hv. apply (fi_others _ _ _ Hfi (_, p)). intros j Hj Hlj.
    assert (j = k); [|lia]. eapply ls_distinct; [| |exact Hlj|exact Hp]; lia.
Qed.

Lemma insert_stage_filled m k x x' m1 m2 :
  (1 <= k <= length l)%nat -> emptied (length l) m -> filled m k m1 ->
  Spin.insert_stage vc (Z.of_nat k) (x, m1) = Ok (x', m2) -> filled m (S k) m2.
Proof.
  intros Hk Hem Hfi H.
  destruct (filled_node m k m1 Hk Hem Hfi) as (s & p & v & Hs & Hp & Hin & Hv & Hb).
  unfold Spin.insert_stage in H. rewrite (fi_ring _ _ _ Hfi) in H. inv_bind H.
  apply vec_at_nat in E. rewrite Hs in E. injection E as <-.
  destruct (spinStruct.flit_ s) as [f|] eqn:Hf.
  - inv_bind H. destruct a as [q m1']. apply inport_of_quiet in E as [Q Hq].
    specialize (Hq p Hin). subst q. inv_bind H. inv_bind H. inv_bind H. simplify_res.
    eapply place_flit_spec in E1 as (v' & f' & C & Hb' & _ & Hm); [| |exact Hb].
    2:{ rewrite (quiet_vcs _ _ Q). exact Hv. }
    eapply filled_step; [exact Hk|exact Hp|exact Hs| |by eapply quiet_changes|exact Hfi].
    rewrite Hf, Hb'. constructor; [exact Hm|constructor].
  - simplify_res. eapply filled_step; [exact Hk|exact Hp|exact Hs| |by apply changes_refl|exact Hfi].
    rewrite Hf, Hb. constructor.
Qed.

(** *** Both stages *)

Lemma Forall2_landed b fs b' : Forall2 lifted b fs -> Forall2 landed fs b' -> Forall2 moved b b'.
Proof.
  intros H1. revert b'. induction H1 as [|x y b fs Hx _ IH]; intros b' H2; inversion H2; subst;
    constructor; eauto.
Qed.

Lemma doSpin_stages n' :
  Spin.doSpin vc n = Ok n' -> exists m, emptied (length l) m /\ filled m (S (length l)) n'.
Proof.
  unfold Spin.doSpin. intros H. inv_bind H. cbv zeta in H.
  assert (zlen (Net.spinRing (Spin.add_spin 1 0 0 0 n)) = Z.of_nat (S (length l))) as Hz.
  { unfold zlen. change (Net.spinRing (Spin.add_spin 1 0 0 0 n)) with (Net.spinRing n).
    by rewrite ring_length. }
  rewrite Hz in H. destruct (_ =? 0) eqn:E0 in H; [done|]. inv_bind H. destruct a0 as [x1 m1].
  inv_bind H. inv_bind H. destruct a1 as [x2 m2]. inv_bind H. simplify_res. exists m1.
  assert (emptied (length l) m1) as Hem.
  { eapply (foldM_range_inv (fun i st => emptied (Z.to_nat i) st.2)) in E1; [| |exact emptied_start|].
    - cbn [snd] in E1. by replace (Z.to_nat (Z.of_nat (S (length l)) - 1)) with (length l) in E1 by lia.
    - lia.
    - intros i [y1 s1] [y2 s2] Hi Hinv Hs. cbn [snd] in *.
      replace (Z.to_nat (i + 1)) with (S (Z.to_nat i)) by lia.
      eapply remove_stage_emptied; [|exact Hinv|]; [lia|]. rewrite Z2Nat.id by lia. exact Hs. }
  split; [done|].
  eapply (foldM_range_inv (fun i st => filled m1 (Z.to_nat i) st.2)) in E3; [| |exact (filled_start m1)|].
  - cbn [snd] in E3. by rewrite Nat2Z.id in E3.
  - lia.
  - intros i [y1 s1] [y2 s2] Hi Hinv Hs. cbn [snd] in *.
    replace (Z.to_nat (i + 1)) with (S (Z.to_nat i)) by lia.
    eapply insert_stage_filled; [|exact Hem|exact Hinv|]; [lia|]. rewrite Z2Nat.id by lia. exact Hs.
Qed.

End Ring.

End View.

(** One [doSpin] on virtual channel [vc] rotates the ring: what the
    virtual channel of a node held is in that of the next node, every flit
    being the same packet, routed again and with one more hop, and no flit
    is lost, duplicated or added; the virtual channel [vc] of an input port
    that is not on the ring is what it was. *)
Theorem doSpin_rotates (vc : Z) (n n' : Net.t) (l : list (Z * Z)) :
  ring_ok vc n l -> Spin.doSpin vc n = Ok n' ->
  (forall i a b, (l ++ take 1 l) !! i = Some a -> (l ++ take 1 l) !! S i = Some b ->
     exists fs fs', at_slot vc a n = Ok fs /\ at_slot vc b n' = Ok fs' /\ Forall2 moved fs fs') /\
  (forall a, a ∉ l -> vcview vc a.1 a.2 n' = vcview vc a.1 a.2 n).
Proof.
  intros Hok H. destruct (doSpin_stages vc n l Hok n' H) as (m & Hem & Hfi). split.
  - intros i a b Ha Hb. pose proof (lookup_lt_Some _ _ _ Hb) as Hlt. rewrite (ls_length vc n) in Hlt by done.
    rewrite ls_front in Ha by lia.
    destruct (em_flits _ _ _ _ _ Hem i a ltac:(lia) Ha) as (s & fs & Hs & Hfs & Hl).
    destruct (fi_flits _ _ _ _ _ Hfi (S i) b s ltac:(lia) Hb Hs) as (fs' & Hfs' & Hl').
    exists fs, fs'. split_and!; [done|done|]. by eapply Forall2_landed.
  - intros a Ha. rewrite (fi_others _ _ _ _ _ Hfi), (em_others _ _ _ _ _ Hem); [done| |].
    + intros i _ Hi. apply Ha. by eapply list_elem_of_lookup_2.
    + intros i _ Hi. apply list_elem_of_lookup_2 in Hi. apply elem_of_app in Hi as [Hi|Hi]; [done|].
      apply Ha. by eapply elem_of_take in Hi as (j & Hj & _); eapply list_elem_of_lookup_2.
Qed.


Module SpinExample.
Import Example.

(** Two packets in virtual channel 0 of the ring. *)
Definition loaded : Net.t :=
  unwrap net (n ← occupy 0 1 0 0 "Local" (packet 7 0 5) net;
              occupy 3 1 0 2 "South" (packet 8 1 5) n).

(** The virtual channels of the ring of the spin file. *)
Definition slots : list (Z * Z) :=
  default [] (l ← mapM (node_slot loaded) (Net.spinRing loaded); Some (removelast l)).

Definition spun : Net.t := unwrap loaded (Spin.doSpin 0 loaded).

Lemma spun_ok : Spin.doSpin 0 loaded = Ok spun.
Proof.
  unfold spun. assert (is_ok (Spin.doSpin 0 loaded) = true) as H by (vm_compute; reflexivity).
  destruct (Spin.doSpin 0 loaded); [reflexivity|discriminate H].
Qed.

Lemma slots_ok : ring_ok 0 loaded slots.
Proof.
  split.
  - vm_compute. reflexivity.
  - assert (zlen slots = 8) as H by (vm_compute; reflexivity). intros E. rewrite E in H. discriminate H.
  - apply (proj1 (bool_decide_eq_true _)). vm_compute. reflexivity.
  - apply (proj1 (bool_decide_eq_true _)). vm_compute. reflexivity.
Qed.

Lemma doSpin_rotates_witness :
  zlen slots = 8 /\
  (forall i a b, (slots ++ take 1 slots) !! i = Some a -> (slots ++ take 1 slots) !! S i = Some b ->
     exists fs fs', at_slot 0 a loaded = Ok fs /\ at_slot 0 b spun = Ok fs' /\ Forall2 moved fs fs') /\
  (forall a, a ∉ slots -> vcview 0 a.1 a.2 spun = vcview 0 a.1 a.2 loaded).
Proof.
  split; [vm_compute; reflexivity|].
  exact (doSpin_rotates 0 loaded spun slots slots_ok spun_ok).
Defined.

End SpinExample.
