(* ===== verification/SpinReady.v ===== *)
(** * A spin never fails

    [spin_ready]: the network is a wired mesh, the ring names virtual
    channels of links, each once, that hold at most one packet that can be
    routed, and the credits match. In such a state [doSpin] always returns,
    no assertion of it fails, the ring is rotated and the state is ready
    again; so the spins of a drain take every packet to every place of the
    ring. *)

From S2P Require Import Prelude NetDest Types FlitBuffer Channels ChannelFacts RouterCore MsgBuffer NetState Routing RoutingFacts Network Spin Example MeshNet RouterStep NI Frames AllocFacts SpinFacts.

(** ** What a spin leaves alone *)

Definition shape_in (u : InputUnit.t) : Z * PortDirection * Z * nat :=
  (InputUnit.m_id u, InputUnit.m_direction u, InputUnit.m_vc_per_vnet u, length (InputUnit.m_vcs u)).

Definition shape_out (o : OutputUnit.t) : PortDirection * Z * nat :=
  (OutputUnit.m_direction o, OutputUnit.m_vc_per_vnet o, length (OutputUnit.m_outvc_state o)).

Definition shape (r : Router.t) :=
  (Router.m_id r, Router.m_routing_unit r, map shape_in (Router.m_input_unit r),
   map shape_out (Router.m_output_unit r)).

(** Same configuration and wiring. *)
Definition same_net (n n' : Net.t) : Prop :=
  Net.cfg n' = Net.cfg n /\ Net.curCycle n' = Net.curCycle n /\
  map shape (Net.m_routers n') = map shape (Net.m_routers n).

#[export] Instance same_net_equiv : Equivalence same_net.
Proof.
  split.
  - by intros n.
  - intros n n' (? & ? & ?). by split_and!.
  - intros n1 n2 n3 (? & ? & ?) (? & ? & ?). split_and!; congruence.
Qed.

Lemma map_eq_at {A B} (f : A -> B) l l' i x :
  map f l' = map f l -> vec_at l' i = Ok x -> exists y, vec_at l i = Ok y /\ f x = f y.
Proof.
  intros E Hx. apply (vec_at_map f) in Hx. rewrite E in Hx.
  apply vec_at_map_inv in Hx as (y & Hy & ?). eauto.
Qed.

Section SameNet.
Context (n n' : Net.t) (Hs : same_net n n').

Lemma same_router id r' : Net.router id n' = Ok r' ->
  exists r, Net.router id n = Ok r /\ shape r' = shape r.
Proof. destruct Hs as (_ & _ & E). unfold Net.router. by apply map_eq_at. Qed.

Lemma same_fits id r r' net : shape r' = shape r -> router_fits net id r -> router_fits net id r'.
Proof.
  intros E [H1 H2 H3 H4 H5]. injection E as E1 E2 E3 E4. split.
  - by rewrite E1.
  - intros p u' Hu. destruct (map_eq_at _ _ _ _ _ E3 Hu) as (u & Hu0 & Eu).
    injection Eu as Ea Eb Ec Ed. unfold zlen. rewrite Ea, Ec, Ed. by apply (H2 p u).
  - intros q o' Ho. destruct (map_eq_at _ _ _ _ _ E4 Ho) as (o & Ho0 & Eo).
    injection Eo as Ea Eb Ec. unfold zlen. rewrite Eb, Ec. by apply (H3 q o).
  - intros q o' Ho. destruct (map_eq_at _ _ _ _ _ E4 Ho) as (o & Ho0 & Eo).
    injection Eo as Ea Eb Ec. rewrite Ea. by apply (H4 q o).
  - rewrite E2, H5. unfold zlen. apply (f_equal length) in E4. rewrite !length_map in E4. lia.
Qed.

End SameNet.

Lemma same_in_port n n' id d p : same_net n n' -> in_port n id d p -> in_port n' id d p.
Proof.
  intros Hs%symmetry (r & u & Hr & Hu & Hm & Hd).
  destruct (same_router _ _ Hs id r Hr) as (r' & Hr' & E). injection E as E1 E2 E3 E4.
  destruct (map_eq_at _ _ _ _ _ E3 Hu) as (u' & Hu' & Eu). injection Eu as Ea Eb Ec Ed.
  exists r', u'. rewrite <- E2, <- Eb. done.
Qed.

Lemma same_out_port n n' id d q : same_net n n' -> out_port n id d q -> out_port n' id d q.
Proof.
  intros Hs%symmetry (r & o & Hr & Ho & Hm & Hd).
  destruct (same_router _ _ Hs id r Hr) as (r' & Hr' & E). injection E as E1 E2 E3 E4.
  destruct (map_eq_at _ _ _ _ _ E4 Ho) as (o' & Ho' & Eo). injection Eo as Ea Eb Ec.
  exists r', o'. rewrite <- E2, <- Ea. done.
Qed.

Lemma same_mesh_net n n' : same_net n n' -> mesh_net n -> mesh_net n'.
Proof.
  intros Hs [H1 H2 H3 H4 H5]. destruct Hs as (Ec & Et & Er) eqn:E. clear E.
  assert (same_net n n') as Hs' by done. split; rewrite ?Ec.
  - done.
  - rewrite <- H2. unfold zlen. apply (f_equal length) in Er. rewrite !length_map in Er. lia.
  - intros id r' Hr. destruct (same_router n n' Hs' id r' Hr) as (r & Hr0 & Esh).
    eapply same_fits; [exact Esh|]. by apply H3.
  - intros id d next Hh. destruct (H4 id d next Hh) as [p Hp]. exists p. by eapply same_in_port.
  - intros id d next Hh. destruct (H5 id d next Hh) as [q Hq]. exists q. by eapply same_out_port.
Qed.

Lemma same_routable n n' id route : same_net n n' -> routable n id route -> routable n' id route.
Proof.
  intros Hs [H1 H2 (l & r & Hr & Hl)]. pose proof Hs as (Ec & _ & _).
  split; rewrite ?Ec; [done..|]. exists l.
  destruct (same_router _ _ (symmetry Hs) id r Hr) as (r' & Hr' & E). injection E as _ E2 _ _.
  exists r'. by rewrite <- E2.
Qed.

Lemma same_leads_out n n' id q : same_net n n' -> leads_out n id q -> leads_out n' id q.
Proof.
  intros Hs (r & o & Hr & Ho).
  destruct (same_router _ _ (symmetry Hs) id r Hr) as (r' & Hr' & E). injection E as _ _ _ E4.
  destruct (map_eq_at _ _ _ _ _ E4 Ho) as (o' & Ho' & _). by exists r', o'.
Qed.

Lemma random_same_net n n' : same_but_random n n' -> same_net n n'.
Proof. by intros [k ->]. Qed.

(** ** The views of a spin on virtual channel [vc] *)

#[local] Abbreviation buf v := (flitBuffer.m_buffer (VirtualChannel.m_input_buffer v)).

(** The state of virtual channel [vc] at output port [q] of router [j]. *)
Definition cview (vc j q : Z) (n : Net.t) : Res OutVcState.t :=
  r ← Net.router j n; o ← vec_at (Router.m_output_unit r) q; vec_at (OutputUnit.m_outvc_state o) vc.

(** Virtual channel [w] of every port is what it was. *)
Definition same_vc (w : Z) (n n' : Net.t) : Prop :=
  (forall id p, vcview w id p n' = vcview w id p n) /\ (forall j q, cview w j q n' = cview w j q n).

Lemma same_vc_trans w n1 n2 n3 : same_vc w n1 n2 -> same_vc w n2 n3 -> same_vc w n1 n3.
Proof. intros [A1 A2] [B1 B2]. split; intros; by rewrite ?B1, ?B2. Qed.

Section Views.
Variable vc : Z.

(** One virtual channel of an input port becomes [v]. *)
Record slot_step (id p : Z) (v : VirtualChannel.t) (n n' : Net.t) : Prop := {
  ss_net : same_net n n';
  ss_here : vcview vc id p n' = Ok v;
  ss_others : forall id' p', (id', p') <> (id, p) -> vcview vc id' p' n' = vcview vc id' p' n;
  ss_credits : forall j q, cview vc j q n' = cview vc j q n;
  ss_vcs : forall w, w <> vc -> same_vc w n n';
  ss_ring : Net.spinRing n' = Net.spinRing n
}.

(** One state of an output port becomes [c]. *)
Record credit_step (j q : Z) (c : OutVcState.t) (n n' : Net.t) : Prop := {
  cs_net : same_net n n';
  cs_here : cview vc j q n' = Ok c;
  cs_others : forall j' q', (j', q') <> (j, q) -> cview vc j' q' n' = cview vc j' q' n;
  cs_slots : forall id p, vcview vc id p n' = vcview vc id p n;
  cs_vcs : forall w, w <> vc -> same_vc w n n';
  cs_ring : Net.spinRing n' = Net.spinRing n
}.

Lemma map_insert_shape {A B} (f : A -> B) (l : list A) i x y :
  vec_at l i = Ok x -> f y = f x -> map f (<[Z.to_nat i := y]> l) = map f l.
Proof.
  intros [_ Hx]%vec_at_Ok E. change (f <$> <[Z.to_nat i := y]> l = f <$> l).
  rewrite list_fmap_insert, E. apply list_insert_id. by rewrite list_lookup_fmap, Hx.
Qed.

Lemma vec_at_replace {A} (l : list A) i j x y :
  vec_at l i = Ok x -> vec_at (<[Z.to_nat i := y]> l) j = if decide (j = i) then Ok y else vec_at l j.
Proof.
  intros Hx%vec_at_inside. pose proof (vec_set_Ok l i y Hx) as Hs. case_decide as E.
  - subst j. by eapply vec_at_set_eq.
  - by eapply vec_at_set_ne.
Qed.

Lemma router_replace n id r r' :
  Net.router id n = Ok r -> shape r' = shape r ->
  let n' := Net.set_routers (<[Z.to_nat id := r']> (Net.m_routers n)) n in
  same_net n n' /\ Net.spinRing n' = Net.spinRing n /\
  forall id', Net.router id' n' = if decide (id' = id) then Ok r' else Net.router id' n.
Proof.
  intros Hr E n'. split; [|split; [done|]].
  - split; [done|]. split; [done|]. by eapply map_insert_shape.
  - intros id'. by eapply vec_at_replace.
Qed.

Lemma upd_router_Ok n id f r r' :
  Net.router id n = Ok r -> f r = Ok r' ->
  Net.upd_router id f n = Ok (Net.set_routers (<[Z.to_nat id := r']> (Net.m_routers n)) n).
Proof. intros Hr Hf. unfold Net.upd_router. by rewrite (vec_upd_Ok _ _ _ r r') by done. Qed.

Lemma upd_input_slot n id p f r u u' v' :
  Net.router id n = Ok r -> vec_at (Router.m_input_unit r) p = Ok u -> f u = Ok u' ->
  shape_in u' = shape_in u -> vec_at (InputUnit.m_vcs u') vc = Ok v' ->
  (forall w, w <> vc -> vec_at (InputUnit.m_vcs u') w = vec_at (InputUnit.m_vcs u) w) ->
  exists n', Net.upd_input id p f n = Ok n' /\ slot_step id p v' n n' /\
    (forall id', Net.router id' n' = if decide (id' = id)
       then Ok (Router.set_inputs (<[Z.to_nat p := u']> (Router.m_input_unit r)) r)
       else Net.router id' n).
Proof.
  intros Hr Hu Hf Hsh Hv Hw.
  assert (Router.upd_input p f r = Ok (Router.set_inputs (<[Z.to_nat p := u']> (Router.m_input_unit r)) r))
    as Hup by (unfold Router.upd_input; by rewrite (vec_upd_Ok _ _ _ u u') by done).
  set (r' := Router.set_inputs _ r) in *.
  assert (shape r' = shape r) as Er.
  { unfold shape. cbn. by rewrite (map_insert_shape shape_in _ _ u). }
  destruct (router_replace n id r r' Hr Er) as (Hs & Hring & Hrt).
  eexists. split; [by apply (upd_router_Ok n id _ r r')|]. split; [|exact Hrt]. split.
  - done.
  - unfold vcview, Spin.input. rewrite Hrt, decide_True by done. cbn.
    rewrite (vec_at_replace _ _ _ u) by done. rewrite decide_True by done. done.
  - intros id' p' Hne. unfold vcview, Spin.input. rewrite Hrt. case_decide as E; [|done]. subst id'.
    rewrite Hr. cbn. rewrite (vec_at_replace _ _ _ u) by done.
    rewrite decide_False; [done|]. intros ->. by apply Hne.
  - intros j q. unfold cview. rewrite Hrt. case_decide as E; [|done]. subst j. by rewrite Hr.
  - intros w Hne. split.
    + intros id' p'. unfold vcview, Spin.input. rewrite Hrt. case_decide as E; [|done]. subst id'.
      rewrite Hr. cbn. rewrite (vec_at_replace _ _ _ u) by done. case_decide as E; [|done]. subst p'.
      rewrite Hu. cbn. by apply Hw.
    + intros j q. unfold cview. rewrite Hrt. case_decide as E; [|done]. subst j. by rewrite Hr.
  - done.
Qed.

Lemma upd_output_credit n j q f r o o' c' :
  Net.router j n = Ok r -> vec_at (Router.m_output_unit r) q = Ok o -> f o = Ok o' ->
  shape_out o' = shape_out o -> vec_at (OutputUnit.m_outvc_state o') vc = Ok c' ->
  (forall w, w <> vc -> vec_at (OutputUnit.m_outvc_state o') w = vec_at (OutputUnit.m_outvc_state o) w) ->
  exists n', Net.upd_output j q f n = Ok n' /\ credit_step j q c' n n'.
Proof.
  intros Hr Ho Hf Hsh Hc Hw.
  assert (Router.upd_output q f r = Ok (Router.set_outputs (<[Z.to_nat q := o']> (Router.m_output_unit r)) r))
    as Hup by (unfold Router.upd_output; by rewrite (vec_upd_Ok _ _ _ o o') by done).
  set (r' := Router.set_outputs _ r) in *.
  assert (shape r' = shape r) as Er.
  { unfold shape. cbn. by rewrite (map_insert_shape shape_out _ _ o). }
  destruct (router_replace n j r r' Hr Er) as (Hs & Hring & Hrt).
  eexists. split; [by apply (upd_router_Ok n j _ r r')|]. split.
  - done.
  - unfold cview. rewrite Hrt, decide_True by done. cbn.
    rewrite (vec_at_replace _ _ _ o) by done. rewrite decide_True by done. done.
  - intros j' q' Hne. unfold cview. rewrite Hrt. case_decide as E; [|done]. subst j'.
    rewrite Hr. cbn. rewrite (vec_at_replace _ _ _ o) by done.
    rewrite decide_False; [done|]. intros ->. by apply Hne.
  - intros id p. unfold vcview, Spin.input. rewrite Hrt. case_decide as E; [|done]. subst id.
    by rewrite Hr.
  - intros w Hne. split.
    + intros id p. unfold vcview, Spin.input. rewrite Hrt. case_decide as E; [|done]. subst id.
      by rewrite Hr.
    + intros j' q'. unfold cview. rewrite Hrt. case_decide as E; [|done]. subst j'.
      rewrite Hr. cbn. rewrite (vec_at_replace _ _ _ o) by done. case_decide as E; [|done]. subst q'.
      rewrite Ho. cbn. by apply Hw.
  - done.
Qed.

(** The parts behind a view. *)
Lemma vcview_parts id p n v : vcview vc id p n = Ok v ->
  exists r u, Net.router id n = Ok r /\ vec_at (Router.m_input_unit r) p = Ok u /\
    vec_at (InputUnit.m_vcs u) vc = Ok v.
Proof.
  unfold vcview, Spin.input. intros H. inv_bind H. inv_bind E. rename a0 into r.
  exists r, a. done.
Qed.

Lemma cview_parts j q n c : cview vc j q n = Ok c ->
  exists r o, Net.router j n = Ok r /\ vec_at (Router.m_output_unit r) q = Ok o /\
    vec_at (OutputUnit.m_outvc_state o) vc = Ok c.
Proof. unfold cview. intros H. inv_bind H. inv_bind H. eauto. Qed.

(** ** The credit of a slot *)

Lemma set_outvc_step o c c' : vec_at (OutputUnit.m_outvc_state o) vc = Ok c ->
  let o' := OutputUnit.set_outvc_state (<[Z.to_nat vc := c']> (OutputUnit.m_outvc_state o)) o in
  shape_out o' = shape_out o /\ vec_at (OutputUnit.m_outvc_state o') vc = Ok c' /\
  (forall w, w <> vc -> vec_at (OutputUnit.m_outvc_state o') w = vec_at (OutputUnit.m_outvc_state o) w).
Proof.
  intros Hc o'. split; [|split].
  - unfold shape_out. cbn. by rewrite length_insert.
  - cbn. rewrite (vec_at_replace _ _ _ c), decide_True by done. done.
  - intros w Hw. cbn. by rewrite (vec_at_replace _ _ _ c), decide_False by done.
Qed.

Lemma free_outvc_Ok t o c : vec_at (OutputUnit.m_outvc_state o) vc = Ok c ->
  OutVcState.m_credit_count c + 1 <= OutVcState.m_max_credit_count c ->
  exists o' c', Spin.free_outvc vc t o = Ok o' /\ shape_out o' = shape_out o /\
    vec_at (OutputUnit.m_outvc_state o') vc = Ok c' /\
    (forall w, w <> vc -> vec_at (OutputUnit.m_outvc_state o') w = vec_at (OutputUnit.m_outvc_state o) w) /\
    OutVcState.m_credit_count c' = OutVcState.m_credit_count c + 1 /\
    OutVcState.m_max_credit_count c' = OutVcState.m_max_credit_count c.
Proof.
  intros Hc Hle. unfold Spin.free_outvc, OutputUnit.increment_credit, OutputUnit.set_vc_state, OutputUnit.upd_vc.
  set (c1 := OutVcState.mk (OutVcState.m_id c) (OutVcState.m_time c) (OutVcState.m_vc_state c)
               (OutVcState.m_credit_count c + 1) (OutVcState.m_max_credit_count c)).
  rewrite (vec_upd_Ok _ _ _ c c1); [|done|].
  2:{ unfold OutVcState.increment_credit, assert_. by rewrite (proj2 (Z.leb_le _ _)) by lia. }
  cbn [mbind Res_bind]. destruct (set_outvc_step o c c1 Hc) as (H1 & H2 & W2).
  set (o1 := OutputUnit.set_outvc_state _ o) in *.
  rewrite (vec_upd_Ok _ _ _ c1 (OutVcState.setState IDLE_ t c1)) by done. cbn [mbind Res_bind].
  destruct (set_outvc_step o1 c1 (OutVcState.setState IDLE_ t c1) H2) as (H3 & H4 & W4).
  eexists _, _. split; [done|]. split; [by rewrite H3|]. split; [exact H4|].
  split; [intros w Hw; by rewrite W4, W2|]. done.
Qed.

Lemma occupy_outvc_Ok t o c : vec_at (OutputUnit.m_outvc_state o) vc = Ok c ->
  1 <= OutVcState.m_credit_count c ->
  exists o' c', Spin.occupy_outvc vc t o = Ok o' /\ shape_out o' = shape_out o /\
    vec_at (OutputUnit.m_outvc_state o') vc = Ok c' /\
    (forall w, w <> vc -> vec_at (OutputUnit.m_outvc_state o') w = vec_at (OutputUnit.m_outvc_state o) w) /\
    OutVcState.m_credit_count c' = OutVcState.m_credit_count c - 1 /\
    OutVcState.m_max_credit_count c' = OutVcState.m_max_credit_count c.
Proof.
  intros Hc Hle. unfold Spin.occupy_outvc, OutputUnit.decrement_credit, OutputUnit.set_vc_state, OutputUnit.upd_vc.
  set (c1 := OutVcState.mk (OutVcState.m_id c) (OutVcState.m_time c) (OutVcState.m_vc_state c)
               (OutVcState.m_credit_count c - 1) (OutVcState.m_max_credit_count c)).
  rewrite (vec_upd_Ok _ _ _ c c1); [|done|].
  2:{ unfold OutVcState.decrement_credit, assert_. rewrite Z.geb_leb.
      by rewrite (proj2 (Z.leb_le _ _)) by lia. }
  cbn [mbind Res_bind]. destruct (set_outvc_step o c c1 Hc) as (H1 & H2 & W2).
  set (o1 := OutputUnit.set_outvc_state _ o) in *.
  rewrite (vec_upd_Ok _ _ _ c1 (OutVcState.setState ACTIVE_ t c1)) by done. cbn [mbind Res_bind].
  destruct (set_outvc_step o1 c1 (OutVcState.setState ACTIVE_ t c1) H2) as (H3 & H4 & W4).
  eexists _, _. split; [done|]. split; [by rewrite H3|]. split; [exact H4|].
  split; [intros w Hw; by rewrite W4, W2|]. done.
Qed.

(** ** Slots: the virtual channels of the ring with their upstream ports *)

Record slot := mk_slot {
  s_id : Z;
  s_dir : PortDirection;
  s_in : Z;
  s_up : Z;
  s_out : Z
}.

Definition key (s : slot) : Z * Z := (s_id s, s_in s).
Definition upstream (s : slot) : Z * Z := (s_up s, s_out s).

(** The input port of the slot, and the output port that feeds it. *)
Record slot_ok (n : Net.t) (s : slot) : Prop := {
  so_hop : hop (Net.cfg n) (s_id s) (s_dir s) (s_up s);
  so_in : in_port n (s_id s) (s_dir s) (s_in s);
  so_out : out_port n (s_up s) (opposite (s_dir s)) (s_out s)
}.

Lemma same_slot_ok n n' s : same_net n n' -> slot_ok n s -> slot_ok n' s.
Proof.
  intros Hs [H1 H2 H3]. pose proof Hs as (Ec & _ & _). split.
  - by rewrite Ec.
  - by eapply same_in_port.
  - by eapply same_out_port.
Qed.

Lemma opposite_inj net a b c d e f :
  hop net a d b -> hop net c e f -> opposite d = opposite e -> d = e.
Proof.
  intros (_ & _ & _ & Hd) (_ & _ & _ & He) H.
  destruct Hd as [[-> _]|[[-> _]|[->| ->]]], He as [[-> _]|[[-> _]|[->| ->]]]; done.
Qed.

(** An output port feeds one slot, and a slot is one input port. *)
Lemma slot_upstream_inj n s s' : slot_ok n s -> slot_ok n s' -> upstream s = upstream s' -> s = s'.
Proof.
  intros [H1 H2 H3] [H1' H2' H3'] E. injection E as E1 E2. destruct s as [i d p j q], s' as [i' d' p' j' q'].
  cbn in *. subst j' q'.
  destruct H3 as (r & o & Hr & Ho & _ & Hd), H3' as (r' & o' & Hr' & Ho' & _ & Hd').
  rewrite Hr in Hr'. injection Hr' as <-. rewrite Ho in Ho'. injection Ho' as <-.
  assert (d = d') as <- by (eapply opposite_inj; [exact H1|exact H1'|congruence]).
  assert (i = i') as <-
    by (eapply hop_det; [exact (hop_opposite _ _ _ _ H1)|exact (hop_opposite _ _ _ _ H1')]).
  destruct H2 as (r1 & u & Hr1 & _ & Hp & _), H2' as (r1' & u' & Hr1' & _ & Hp' & _). congruence.
Qed.

Lemma slot_key_inj n s s' : slot_ok n s -> slot_ok n s' -> key s = key s' -> s = s'.
Proof.
  intros Hs Hs' E. apply (slot_upstream_inj n); [done..|].
  destruct Hs as [H1 H2 H3], Hs' as [H1' H2' H3']. injection E as E1 E2.
  destruct s as [i d p j q], s' as [i' d' p' j' q']. cbn in *. subst i' p'.
  destruct H2 as (r & u & Hr & Hu & _ & Hd), H2' as (r' & u' & Hr' & Hu' & _ & Hd').
  rewrite Hr in Hr'. injection Hr' as <-. rewrite Hu in Hu'. injection Hu' as <-.
  assert (d = d') as <- by congruence.
  assert (j = j') as <- by (eapply hop_det; [exact H1|exact H1']).
  destruct H3 as (r1 & o & Hr1 & _ & Hq & _), H3' as (r1' & o' & Hr1' & _ & Hq' & _).
  unfold upstream. cbn. congruence.
Qed.

(** The slot is empty or holds one packet, and the credits say so. *)
Definition holds (n : Net.t) (s : slot) (o : option flit.t) : Prop :=
  exists v c, vcview vc (s_id s) (s_in s) n = Ok v /\ cview vc (s_up s) (s_out s) n = Ok c /\
    1 <= OutVcState.m_max_credit_count c /\
    match o with
    | None => buf v = [] /\ VirtualChannel.get_state v = IDLE_ /\
        OutVcState.m_credit_count c = OutVcState.m_max_credit_count c
    | Some f => buf v = [f] /\ OutVcState.m_credit_count c = OutVcState.m_max_credit_count c - 1
    end.

(** Only the slot [s] and its credits change. *)
Record only_at (s : slot) (n n' : Net.t) : Prop := {
  oa_net : same_net n n';
  oa_slots : forall id p, (id, p) <> key s -> vcview vc id p n' = vcview vc id p n;
  oa_credits : forall j q, (j, q) <> upstream s -> cview vc j q n' = cview vc j q n;
  oa_vcs : forall w, w <> vc -> same_vc w n n'
}.

Lemma only_at_trans s n1 n2 n3 : only_at s n1 n2 -> only_at s n2 n3 -> only_at s n1 n3.
Proof.
  intros [A1 A2 A3 A4] [B1 B2 B3 B4]. split.
  - by etransitivity.
  - intros id p H. by rewrite B2, A2.
  - intros j q H. by rewrite B3, A3.
  - intros w Hw. eapply same_vc_trans; eauto.
Qed.

Lemma slot_step_only s v n n' : slot_step (s_id s) (s_in s) v n n' -> only_at s n n'.
Proof. intros [A1 A2 A3 A4 A5 A6]. split; [done| |by intros; apply A4|done]. intros id p H. by apply A3. Qed.

Lemma credit_step_only s c n n' : credit_step (s_up s) (s_out s) c n n' -> only_at s n n'.
Proof. intros [A1 A2 A3 A4 A5 A6]. split; [done|by intros; apply A4| |done]. intros j q H. by apply A3. Qed.

(** Another slot keeps what it holds. *)
Lemma holds_only s s' n n' o : slot_ok n s -> slot_ok n s' -> s <> s' -> only_at s n n' ->
  holds n s' o -> holds n' s' o.
Proof.
  intros Hs Hs' Hne [_ H2 H3 _] (v & c & Hv & Hc & Hrest). exists v, c.
  rewrite H2, H3; [done| |].
  - intros E. apply Hne. symmetry. by apply (slot_upstream_inj n).
  - intros E. apply Hne. symmetry. by apply (slot_key_inj n).
Qed.

Lemma on_upstream_Ok n s f c w :
  mesh_net n -> slot_ok n s -> cview vc (s_up s) (s_out s) n = Ok c ->
  (forall o, vec_at (OutputUnit.m_outvc_state o) vc = Ok c ->
     exists o' c', f o = Ok o' /\ shape_out o' = shape_out o /\
       vec_at (OutputUnit.m_outvc_state o') vc = Ok c' /\
       (forall w, w <> vc -> vec_at (OutputUnit.m_outvc_state o') w = vec_at (OutputUnit.m_outvc_state o) w) /\
       OutVcState.m_credit_count c' = w (OutVcState.m_credit_count c) /\
       OutVcState.m_max_credit_count c' = OutVcState.m_max_credit_count c) ->
  forall where_, exists n' c', Spin.on_upstream (s_id s) (s_dir s) where_ f n = Ok n' /\
    credit_step (s_up s) (s_out s) c' n n' /\
    OutVcState.m_credit_count c' = w (OutVcState.m_credit_count c) /\
    OutVcState.m_max_credit_count c' = OutVcState.m_max_credit_count c.
Proof.
  intros Hn [Hh Hin Hout] Hc Hf where_. unfold Spin.on_upstream.
  rewrite (my_id_Ok n Hn) by apply Hh. cbn [mbind Res_bind].
  rewrite (upstream_Ok n Hn _ _ _ Hh). cbn [mbind Res_bind].
  rewrite (proj2 (hop_direction _ _ _ _ Hh)). cbn [mbind Res_bind].
  rewrite (port_of_found _ _ _ _ Hout). cbn [mbind Res_bind].
  apply cview_parts in Hc as (r & o & Hr & Ho & Hv).
  destruct (Hf o Hv) as (o' & c' & Hf' & Hsh & Hc' & Hw & Hcount & Hmax).
  destruct (upd_output_credit n (s_up s) (s_out s) f r o o' c' Hr Ho Hf' Hsh Hc' Hw) as (n' & Hn' & Hstep).
  exists n', c'. done.
Qed.

(** ** Stage 1 on one node *)

Lemma buffer_of_one b f : flitBuffer.m_buffer b = [f] ->
  flitBuffer.isEmpty b = false /\ flitBuffer.peekTopFlit b = Ok f /\
  flitBuffer.getTopFlit b = Ok (f, flitBuffer.mk [] (flitBuffer.max_size b)).
Proof. destruct b as [l m]. cbn. intros ->. done. Qed.

Lemma makes_progress_Ok n id r l next : mesh_net n -> Net.router id n = Ok r ->
  (forall p, p ∈ l -> 0 <= p < zlen (Router.m_output_unit r)) ->
  exists b, Spin.makes_progress l r (NetConfig.m_num_cols (Net.cfg n)) next = Ok b.
Proof.
  intros Hn Hr Hl. unfold Spin.makes_progress.
  match goal with |- exists b, (mbind _ (findM ?g l)) = _ => set (f := g) end.
  destruct (findM_total f l) as [o Ho]; [|rewrite Ho; by eexists].
  intros p Hp. destruct (vec_at_total _ _ (Hl p Hp)) as [o Ho]. unfold f, Router.getOutportDirection.
  rewrite Ho. cbn [mbind Res_bind].
  pose proof (mn_routers n Hn id r Hr) as [Hid _ _ Hdirs _]. rewrite Hid.
  pose proof (vec_at_inside _ _ _ Hr) as Hin.
  destruct (Hdirs p o Ho) as [->|[j (_ & [? ?] & -> & _)]];
    [change (Mesh.get_upstreamId _ "Local" id) with (Ok id)|]; cbn [mbind Res_bind];
    rewrite (proj2 (Z.eqb_neq _ (-1))) by lia; by eexists.
Qed.

Lemma set_ring_flit_Ok n i f st : vec_at (Net.spinRing n) i = Ok st ->
  Spin.set_ring_flit i f n
  = Ok (Net.set_spinRing (<[Z.to_nat i := spinStruct.set_flit f st]> (Net.spinRing n)) n).
Proof.
  intros H. unfold Spin.set_ring_flit.
  by rewrite (vec_upd_Ok _ _ (fun s => Ok (spinStruct.set_flit f s)) st (spinStruct.set_flit f st)).
Qed.

Lemma inport_of_Ok n s : mesh_net n -> slot_ok n s ->
  Spin.inport_of (s_id s) (s_dir s) n = Ok (s_in s, n).
Proof.
  intros Hn [_ (r & u & Hr & _ & Hp & _) _]. unfold Spin.inport_of. rewrite Hr. cbn [mbind Res_bind].
  rewrite (inport_index_found _ _ _ Hp).
  by rewrite (upd_router_same (s_id s) _ n r) by (done || by rewrite set_routing_unit_same).
Qed.

(** The ring node [idx] names the slot. *)
Definition node_names (n : Net.t) (idx : Z) (s : slot) : Prop :=
  exists st, vec_at (Net.spinRing n) idx = Ok st /\ spinStruct.router_id_ st = s_id s /\
    spinStruct.inport_dir_ st = s_dir s.

Lemma input_upd_vc_Ok u v g : vec_at (InputUnit.m_vcs u) vc = Ok v ->
  exists u', InputUnit.upd_vc vc g u = Ok u' /\ shape_in u' = shape_in u /\
    vec_at (InputUnit.m_vcs u') vc = Ok (g v) /\
    (forall w, w <> vc -> vec_at (InputUnit.m_vcs u') w = vec_at (InputUnit.m_vcs u) w).
Proof.
  intros Hv. unfold InputUnit.upd_vc.
  rewrite (vec_upd_Ok _ _ (fun v => Ok (g v)) v (g v)) by done. cbn [mbind Res_bind].
  eexists. split; [done|]. split; [|split].
  - unfold shape_in. cbn. by rewrite length_insert.
  - cbn. rewrite (vec_at_replace _ _ _ v) by done. by rewrite decide_True.
  - intros w Hw. cbn. by rewrite (vec_at_replace _ _ _ v), decide_False by done.
Qed.

(** A method of the virtual channel of a slot. *)
Lemma slot_upd_Ok n id p v g : vcview vc id p n = Ok v ->
  exists n', Net.upd_input id p (InputUnit.upd_vc vc g) n = Ok n' /\ slot_step id p (g v) n n'.
Proof.
  intros (r & u & Hr & Hu & Huv)%vcview_parts.
  destruct (input_upd_vc_Ok u v g Huv) as (u' & Hu' & Hsh & Hv' & Hw).
  destruct (upd_input_slot n id p _ r u u' (g v) Hr Hu Hu' Hsh Hv' Hw) as (n' & ? & ? & _). eauto.
Qed.

(** The end of stage 1: the emptied virtual channel becomes idle and the
    upstream port gets its credit back. *)
Lemma free_slot_Ok n s v c where_ :
  mesh_net n -> slot_ok n s -> vcview vc (s_id s) (s_in s) n = Ok v -> buf v = [] ->
  cview vc (s_up s) (s_out s) n = Ok c -> 1 <= OutVcState.m_max_credit_count c ->
  OutVcState.m_credit_count c = OutVcState.m_max_credit_count c - 1 ->
  exists n', (n ← Net.upd_input (s_id s) (s_in s) (InputUnit.set_vc_idle vc (Net.curCycle n)) n;
              Spin.on_upstream (s_id s) (s_dir s) where_ (Spin.free_outvc vc (Net.curCycle n)) n)
             = Ok n' /\
    only_at s n n' /\ holds n' s None /\ Net.spinRing n' = Net.spinRing n.
Proof.
  intros Hn Hs Hv Hb Hc Hmax Hcount.
  destruct (slot_upd_Ok n _ _ v (VirtualChannel.set_idle (Net.curCycle n)) Hv) as (n1 & Hn1 & S1).
  change (InputUnit.set_vc_idle vc (Net.curCycle n)) with (InputUnit.upd_vc vc (VirtualChannel.set_idle (Net.curCycle n))). rewrite Hn1. cbn [mbind Res_bind].
  destruct (on_upstream_Ok n1 s (Spin.free_outvc vc (Net.curCycle n1)) c (fun x => x + 1))
    with (where_ := where_) as (n2 & c2 & Hn2 & S2 & E1 & E2).
  { eapply same_mesh_net; [apply S1|done]. }
  { eapply same_slot_ok; [apply S1|done]. }
  { by rewrite (ss_credits _ _ _ _ _ S1). }
  { intros o Ho. apply free_outvc_Ok; [done|lia]. }
  rewrite Hn2. exists n2. split; [done|]. split; [|split].
  - eapply only_at_trans; [by eapply slot_step_only|by eapply credit_step_only].
  - exists (VirtualChannel.set_idle (Net.curCycle n) v), c2.
    rewrite (cs_slots _ _ _ _ _ S2), (ss_here _ _ _ _ _ S1), (cs_here _ _ _ _ _ S2).
    split_and!; [done..|lia|done|done|lia].
  - rewrite (cs_ring _ _ _ _ _ S2). apply S1.
Qed.

(** The end of stage 2: the filled virtual channel becomes active and the
    upstream port loses a credit. *)
Lemma occupy_slot_Ok n s v c f where_ :
  mesh_net n -> slot_ok n s -> vcview vc (s_id s) (s_in s) n = Ok v -> buf v = [f] ->
  cview vc (s_up s) (s_out s) n = Ok c -> 1 <= OutVcState.m_max_credit_count c ->
  OutVcState.m_credit_count c = OutVcState.m_max_credit_count c ->
  exists n', (n ← Net.upd_input (s_id s) (s_in s) (InputUnit.set_vc_active vc (Net.curCycle n)) n;
              Spin.on_upstream (s_id s) (s_dir s) where_ (Spin.occupy_outvc vc (Net.curCycle n)) n)
             = Ok n' /\
    only_at s n n' /\ holds n' s (Some f) /\ Net.spinRing n' = Net.spinRing n.
Proof.
  intros Hn Hs Hv Hb Hc Hmax Hcount.
  destruct (slot_upd_Ok n _ _ v (VirtualChannel.set_active (Net.curCycle n)) Hv) as (n1 & Hn1 & S1).
  change (InputUnit.set_vc_active vc (Net.curCycle n)) with (InputUnit.upd_vc vc (VirtualChannel.set_active (Net.curCycle n))). rewrite Hn1. cbn [mbind Res_bind].
  destruct (on_upstream_Ok n1 s (Spin.occupy_outvc vc (Net.curCycle n1)) c (fun x => x - 1))
    with (where_ := where_) as (n2 & c2 & Hn2 & S2 & E1 & E2).
  { eapply same_mesh_net; [apply S1|done]. }
  { eapply same_slot_ok; [apply S1|done]. }
  { by rewrite (ss_credits _ _ _ _ _ S1). }
  { intros o Ho. apply occupy_outvc_Ok; [done|lia]. }
  rewrite Hn2. exists n2. split; [done|]. split; [|split].
  - eapply only_at_trans; [by eapply slot_step_only|by eapply credit_step_only].
  - exists (VirtualChannel.set_active (Net.curCycle n) v), c2.
    rewrite (cs_slots _ _ _ _ _ S2), (ss_here _ _ _ _ _ S1), (cs_here _ _ _ _ _ S2).
    split_and!; [done..|lia|done|lia].
  - rewrite (cs_ring _ _ _ _ _ S2). apply S1.
Qed.

(** Nothing a spin looks at but the ring differs. *)
Record same_views (n n' : Net.t) : Prop := {
  sv_routers : Net.m_routers n' = Net.m_routers n;
  sv_cfg : Net.cfg n' = Net.cfg n;
  sv_cycle : Net.curCycle n' = Net.curCycle n
}.

Lemma same_views_only s n n' : same_views n n' -> only_at s n n'.
Proof.
  intros [E1 E2 E3]. split.
  - split_and!; [done..|by rewrite E1].
  - intros id p _. unfold vcview, Spin.input, Net.router. by rewrite E1.
  - intros j q _. unfold cview, Net.router. by rewrite E1.
  - intros w _. unfold same_vc, vcview, Spin.input, cview, Net.router. by rewrite E1.
Qed.

Lemma same_views_at n n' id p j q : same_views n n' ->
  vcview vc id p n' = vcview vc id p n /\ cview vc j q n' = cview vc j q n.
Proof. intros [E1 _ _]. unfold vcview, Spin.input, cview, Net.router. by rewrite E1. Qed.

Lemma get_flit_Ok n id p r u v f : Net.router id n = Ok r -> vec_at (Router.m_input_unit r) p = Ok u ->
  vec_at (InputUnit.m_vcs u) vc = Ok v -> buf v = [f] ->
  exists u' n' v', InputUnit.getTopFlit vc u = Ok (f, u') /\
    Net.upd_input id p (fun _ => Ok u') n = Ok n' /\ slot_step id p v' n n' /\ buf v' = [].
Proof.
  intros Hr Hu Huv Hbuf. destruct (buffer_of_one _ _ Hbuf) as (_ & _ & Hget).
  unfold InputUnit.getTopFlit, VirtualChannel.getTopFlit. rewrite Huv. cbn [mbind Res_bind].
  rewrite Hget. cbn [mbind Res_bind]. set (v1 := VirtualChannel.set_buffer _ v).
  rewrite (vec_set_Ok (InputUnit.m_vcs u) vc v1) by (by eapply vec_at_inside). cbn [mbind Res_bind].
  set (u1 := InputUnit.set_vcs _ u).
  destruct (upd_input_slot n id p (fun _ => Ok u1) r u u1 v1) as (n1 & Hn1 & S1 & _);
    [done..|unfold shape_in; cbn; by rewrite length_insert| | |by exists u1, n1, v1].
  - cbn. rewrite (vec_at_replace _ _ _ v) by done. by rewrite decide_True.
  - intros w Hw. cbn. by rewrite (vec_at_replace _ _ _ v), decide_False by done.
Qed.

Lemma take_flit_Ok n s idx node st f :
  mesh_net n -> slot_ok n s -> holds n s (Some f) ->
  flit.hops_needed_before_spin f = -1 -> routable n (s_id s) (flit.m_route f) ->
  spinStruct.router_id_ node = s_id s -> spinStruct.inport_dir_ node = s_dir s ->
  vec_at (Net.spinRing n) (idx + 1) = Ok st ->
  exists n' f1, Spin.take_flit vc idx (s_in s) node n = Ok n' /\ only_at s n n' /\
    holds n' s None /\ lifted f f1 /\
    Net.spinRing n' = <[Z.to_nat (idx + 1) := spinStruct.set_flit (Some f1) st]> (Net.spinRing n).
Proof.
  intros Hn Hs (v & c & Hv & Hc & Hmax & Hbuf & Hcount) Hhops [_ _ [l (r0 & Hr0 & Hl)]] Eid Edir Hst.
  destruct (vcview_parts _ _ _ _ Hv) as (r & u & Hr & Hu & Huv).
  rewrite Hr in Hr0. injection Hr0 as <-.
  destruct (buffer_of_one _ _ Hbuf) as (_ & Hpeek & _).
  destruct (get_flit_Ok n (s_id s) (s_in s) r u v f Hr Hu Huv Hbuf) as (u1 & n1 & v1 & Hget & Hn1 & S1 & Hb1).
  unfold Spin.take_flit. rewrite Eid, Edir, Hr. cbn [mbind Res_bind]. rewrite Hu. cbn [mbind Res_bind].
  unfold InputUnit.peekTopFlit, VirtualChannel.peekTopFlit. rewrite Huv. cbn [mbind Res_bind].
  rewrite Hpeek. cbn [mbind Res_bind]. rewrite Hl. cbn [mbind Res_bind].
  rewrite Hget. cbn [mbind Res_bind]. rewrite Hn1. cbn [mbind Res_bind].
  rewrite (ss_ring _ _ _ _ _ S1), Hst. cbn [mbind Res_bind].
  assert (Net.cfg n1 = Net.cfg n) as Ecfg by apply S1. rewrite Ecfg.
  destruct (makes_progress_Ok n (s_id s) r l (spinStruct.router_id_ st) Hn Hr) as [b ->].
  { intros p Hp. rewrite <- (rf_table _ _ _ (mn_routers n Hn _ r Hr)).
    by apply (pref_outport_spec _ _ _ Hl). }
  cbn [mbind Res_bind]. rewrite Hhops. cbn [Z.eqb assert_ mbind Res_bind].
  set (f1 := flit.set_hops_needed _ _ f). set (n2 := if b then _ else _).
  assert (Net.spinRing n2 = Net.spinRing n) as Hring2
    by (unfold n2; destruct b; exact (ss_ring _ _ _ _ _ S1)).
  rewrite (set_ring_flit_Ok n2 (idx + 1) (Some f1) st) by (by rewrite Hring2). cbn [mbind Res_bind].
  rewrite Hring2. set (n3 := Net.set_spinRing _ n2).
  assert (same_views n1 n3) as Hs3 by (unfold n3, n2; by destruct b).
  destruct (same_views_at n1 n3 (s_id s) (s_in s) (s_up s) (s_out s) Hs3) as [Hv3 Hc3].
  assert (only_at s n n3) as O3
    by (eapply only_at_trans; [by eapply slot_step_only|by apply same_views_only]).
  destruct (free_slot_Ok n3 s v1 c "GarnetNetwork.cc:337") as (n' & Hn' & O' & Hh & Hr').
  { eapply same_mesh_net; [apply O3|done]. }
  { eapply same_slot_ok; [apply O3|done]. }
  { rewrite Hv3. apply S1. } { done. }
  { rewrite Hc3. by rewrite (ss_credits _ _ _ _ _ S1). } { done. } { done. }
  exists n', f1. split; [exact Hn'|]. split; [by eapply only_at_trans|]. split; [done|].
  split; [by eexists|exact Hr'].
Qed.

Definition occupied (o : option flit.t) : Z := match o with Some _ => 1 | None => 0 end.

Lemma holds_isEmpty n s o : holds n s o -> exists u,
  Spin.input (s_id s) (s_in s) n = Ok u /\
  InputUnit.vc_isEmpty vc u = Ok (match o with Some _ => false | None => true end).
Proof.
  intros (v & c & Hv & _ & _ & Hb). unfold vcview in Hv. inv_bind Hv. exists a.
  split; [done|]. unfold InputUnit.vc_isEmpty, VirtualChannel.isEmpty, flitBuffer.isEmpty.
  rewrite Hv. cbn [mbind Res_bind]. destruct o as [f|].
  - by destruct Hb as [-> _].
  - by destruct Hb as [-> _].
Qed.

(** A packet on its way: the hop counts of the spin are unset, and it can be
    routed at every router of the ring. *)
Record travels (n : Net.t) (l : list slot) (f : flit.t) : Prop := {
  tr_before : flit.hops_needed_before_spin f = -1;
  tr_after : flit.hops_needed_after_spin f = -1;
  tr_route : forall s, s ∈ l -> routable n (s_id s) (flit.m_route f)
}.

(** Stage 1 at a node of the ring. *)
Lemma remove_stage_Ok n l s idx node st o x :
  mesh_net n -> slot_ok n s -> s ∈ l -> holds n s o -> (forall f, o = Some f -> travels n l f) ->
  vec_at (Net.spinRing n) idx = Ok node ->
  spinStruct.router_id_ node = s_id s -> spinStruct.inport_dir_ node = s_dir s ->
  vec_at (Net.spinRing n) (idx + 1) = Ok st ->
  exists n' fo, Spin.remove_stage vc idx (x, n) = Ok (x + occupied o, n') /\ only_at s n n' /\
    holds n' s None /\ option_Forall2 lifted o fo /\
    Net.spinRing n' = <[Z.to_nat (idx + 1) := spinStruct.set_flit fo st]> (Net.spinRing n).
Proof.
  intros Hn Hs Hin Ho Hf Hnode Eid Edir Hst. unfold Spin.remove_stage. rewrite Hnode. cbn [mbind Res_bind].
  rewrite Eid, Edir, (inport_of_Ok n s Hn Hs). cbn [mbind Res_bind].
  destruct (holds_isEmpty n s o Ho) as (u & -> & He). cbn [mbind Res_bind]. rewrite He. cbn [mbind Res_bind].
  destruct o as [f|].
  - destruct (Hf f eq_refl) as [Hbef _ Hrt].
    destruct (take_flit_Ok n s idx node st f Hn Hs Ho Hbef (Hrt s Hin) Eid Edir Hst)
      as (n' & f1 & -> & Honly & Hh & Hl & Hring).
    exists n', (Some f1). split_and!; [done..|by constructor|done].
  - rewrite (set_ring_flit_Ok n (idx + 1) None st Hst). cbn [mbind Res_bind].
    eexists _, None. split; [by rewrite Z.add_0_r|]. split; [by apply same_views_only|].
    split; [|split; [constructor|done]]. done.
Qed.

(** ** Stage 2 on one node *)

(** What a flit taken from its node becomes in the virtual channel. *)
Definition settled (f1 f' : flit.t) : Prop :=
  flit.hops_needed_before_spin f' = -1 /\ flit.hops_needed_after_spin f' = -1 /\
  exists h, flit.m_route f' = RouteInfo.set_hops_traversed h (flit.m_route f1).

Lemma u64_below x b : 0 <= x < b -> (u64 x <? b) = true.
Proof. intros H. apply Z.ltb_lt. unfold u64. pose proof (Z.mod_le x (2 ^ 64)). lia. Qed.

Lemma random_only s n n' : same_but_random n n' -> only_at s n n'.
Proof. intros [k ->]. by apply same_views_only. Qed.

Lemma random_ring n n' : same_but_random n n' -> Net.spinRing n' = Net.spinRing n.
Proof. by intros [k ->]. Qed.

Lemma place_flit_Ok n s node f1 :
  mesh_net n -> implemented (Net.cfg n) -> slot_ok n s -> holds n s None ->
  flit.hops_needed_after_spin f1 = -1 -> routable n (s_id s) (flit.m_route f1) ->
  spinStruct.router_id_ node = s_id s -> spinStruct.inport_dir_ node = s_dir s ->
  exists n' f', Spin.place_flit vc (s_in s) node f1 n = Ok n' /\ only_at s n n' /\
    holds n' s (Some f') /\ settled f1 f' /\ Net.spinRing n' = Net.spinRing n.
Proof.
  intros Hn Ha Hs (v & c & Hv & Hc & Hmax & Hb & Hidle & Hcount) Hafter Hrt Eid Edir.
  assert (in_mesh (Net.cfg n) (s_id s)) as Hmesh by apply (so_hop n s Hs).
  destruct (outportCompute_Ok n (s_id s) (flit.m_route f1) Hn Hmesh Hrt Ha) as (q & n1 & Hq & Hrand & Hout).
  pose proof (random_only s _ _ Hrand) as O1.
  apply (same_leads_out n n1) in Hout; [|apply O1].
  destruct Hout as (r & o & Hr & Ho). pose proof (vec_at_inside _ _ _ Ho) as Hqr.
  unfold Spin.place_flit, Route.route_compute. rewrite Eid, Edir, Hq. cbn [mbind Res_bind]. rewrite Hr.
  cbn [mbind Res_bind]. rewrite u64_below by done. cbn [assert_ mbind Res_bind].
  unfold Router.getOutportDirection. rewrite Ho. cbn [mbind Res_bind].
  set (f2 := flit.increment_hops _).
  assert (flit.hops_needed_after_spin f2 = -1) as -> by exact Hafter.
  cbn [Z.eqb Pos.eqb assert_ mbind Res_bind].
  set (f' := flit.set_hops_needed (-1) (-1) f2). set (n2 := if _ >? _ then _ else _).
  assert (same_views n1 n2) as Hs2 by (unfold n2; by destruct (_ >? _)).
  assert (only_at s n n2) as O2 by (eapply only_at_trans; [exact O1|by apply same_views_only]).
  assert (vcview vc (s_id s) (s_in s) n2 = Ok v /\ cview vc (s_up s) (s_out s) n2 = Ok c) as [Hv2 Hc2].
  { destruct Hrand as [k ->]. destruct (same_views_at _ _ (s_id s) (s_in s) (s_up s) (s_out s) Hs2) as [-> ->].
    done. }
  destruct (slot_upd_Ok n2 _ _ v (VirtualChannel.insertFlit f') Hv2) as (n3 & -> & S3). cbn [mbind Res_bind].
  pose proof (slot_step_only _ _ _ _ S3) as O3. pose proof (only_at_trans _ _ _ _ O2 O3) as O.
  pose proof (ss_here _ _ _ _ _ S3) as Hv3. pose proof Hv3 as Hview. unfold vcview in Hview.
  inv_bind Hview. cbn [mbind Res_bind]. rewrite Hview. cbn [mbind Res_bind].
  rewrite bool_decide_eq_true_2 by exact Hidle. cbn [assert_ mbind Res_bind].
  destruct (occupy_slot_Ok n3 s (VirtualChannel.insertFlit f' v) c f' "GarnetNetwork.cc:405")
    as (n' & Hn' & O' & Hh & Hr').
  { eapply same_mesh_net; [apply O|done]. } { eapply same_slot_ok; [apply O|done]. } { done. }
  { cbn. by rewrite Hb. } { by rewrite (ss_credits _ _ _ _ _ S3). } { done. } { done. }
  exists n', f'. split; [exact Hn'|]. split; [by eapply only_at_trans|]. split; [done|].
  split; [split_and!; [done..|by eexists]|].
  rewrite Hr', (ss_ring _ _ _ _ _ S3), <- (random_ring _ _ Hrand). unfold n2. by destruct (_ >? _).
Qed.

Lemma insert_stage_Ok n s idx node x :
  mesh_net n -> implemented (Net.cfg n) -> slot_ok n s -> holds n s None ->
  vec_at (Net.spinRing n) idx = Ok node ->
  spinStruct.router_id_ node = s_id s -> spinStruct.inport_dir_ node = s_dir s ->
  (forall f1, spinStruct.flit_ node = Some f1 ->
     flit.hops_needed_after_spin f1 = -1 /\ routable n (s_id s) (flit.m_route f1)) ->
  exists n' fo, Spin.insert_stage vc idx (x, n) = Ok (x - occupied (spinStruct.flit_ node), n') /\
    only_at s n n' /\ holds n' s fo /\ option_Forall2 settled (spinStruct.flit_ node) fo /\
    Net.spinRing n' = Net.spinRing n.
Proof.
  intros Hn Ha Hs Hh Hnode Eid Edir Hf. unfold Spin.insert_stage. rewrite Hnode. cbn [mbind Res_bind].
  destruct (spinStruct.flit_ node) as [f1|].
  - destruct (Hf f1 eq_refl) as [Hafter Hrt].
    rewrite Eid, Edir, (inport_of_Ok n s Hn Hs). cbn [mbind Res_bind].
    pose proof (so_in n s Hs) as (r & u & Hr & Hu & _). rewrite Hr. cbn [mbind Res_bind].
    rewrite u64_below by (by eapply vec_at_inside). cbn [assert_ mbind Res_bind].
    destruct (place_flit_Ok n s node f1 Hn Ha Hs Hh Hafter Hrt Eid Edir) as (n' & f' & -> & O & Hh' & Hst & Hr').
    exists n', (Some f'). split_and!; [done..|by constructor|done].
  - exists n, None. split; [by rewrite Z.sub_0_r|]. split; [by apply same_views_only|].
    split_and!; [done|constructor|done].
Qed.

End Views.

(** ** The state a spin starts from *)

Definition node_name (st : spinStruct.t) : Z * PortDirection :=
  (spinStruct.router_id_ st, spinStruct.inport_dir_ st).

Definition slot_name (s : slot) : Z * PortDirection := (s_id s, s_dir s).

(** What a virtual channel of the ring holds. *)
Definition content (vc : Z) (n : Net.t) (s : slot) : option flit.t :=
  match vcview vc (s_id s) (s_in s) n with
  | Ok v => head (buf v)
  | Err _ => None
  end.

Lemma holds_content vc n s o : holds vc n s o -> content vc n s = o.
Proof.
  intros (v & c & Hv & _ & _ & Hb). unfold content. rewrite Hv.
  destruct o; by destruct Hb as [-> _].
Qed.

(** The routers are wired as a mesh; the ring names the virtual channels of
    the slots [l], each once, then the first again. *)
Record ring_net (n : Net.t) (l : list slot) : Prop := {
  rn_mesh : mesh_net n;
  rn_implemented : implemented (Net.cfg n);
  rn_ring : map node_name (Net.spinRing n) = map slot_name (l ++ take 1 l);
  rn_nonempty : l <> [];
  rn_once : NoDup l;
  rn_slots : forall s, s ∈ l -> slot_ok n s
}.

(** The network can route what is in the slots, and an input port of a link
    that is not on the ring has nothing in [vc]. *)
Record movable (vc : Z) (n : Net.t) (l : list slot) : Prop := {
  mv_travels : forall s f, s ∈ l -> content vc n s = Some f -> travels n l f;
  mv_cover : forall id p r u, Net.router id n = Ok r -> vec_at (Router.m_input_unit r) p = Ok u ->
    InputUnit.m_direction u <> "Local" ->
    (id, p) ∈ map key l \/ exists v, vcview vc id p n = Ok v /\ buf v = []
}.

(** A spin of [vc] can start: moreover a slot is empty or holds one packet,
    in step with the credits of its upstream port. *)
Record spin_ready (vc : Z) (n : Net.t) (l : list slot) : Prop := {
  sr_net : ring_net n l;
  sr_holds : forall s, s ∈ l -> holds vc n s (content vc n s);
  sr_movable : movable vc n l
}.

Section Projections.
Context (vc : Z) (n : Net.t) (l : list slot) (H : spin_ready vc n l).

Definition sr_mesh : mesh_net n := rn_mesh _ _ (sr_net _ _ _ H).
Definition sr_implemented : implemented (Net.cfg n) := rn_implemented _ _ (sr_net _ _ _ H).
Definition sr_ring := rn_ring _ _ (sr_net _ _ _ H).
Definition sr_nonempty : l <> [] := rn_nonempty _ _ (sr_net _ _ _ H).
Definition sr_once : NoDup l := rn_once _ _ (sr_net _ _ _ H).
Definition sr_slots := rn_slots _ _ (sr_net _ _ _ H).
Definition sr_travels := mv_travels _ _ _ (sr_movable _ _ _ H).
Definition sr_cover := mv_cover _ _ _ (sr_movable _ _ _ H).

End Projections.

(** The parts survive a change of the contents. *)
Lemma same_ring_net n n' l : same_net n n' ->
  map node_name (Net.spinRing n') = map node_name (Net.spinRing n) -> ring_net n l -> ring_net n' l.
Proof.
  intros Hs Hnames [R1 R2 R3 R4 R5 R6]. split; [by eapply same_mesh_net| |by rewrite Hnames|done..|].
  - by pose proof Hs as (-> & _).
  - intros s Hin. by eapply same_slot_ok, R6.
Qed.

Lemma travels_same n m l f : same_net n m -> travels n l f -> travels m l f.
Proof. intros Hs [H1 H2 H3]. split; [done..|]. intros s Hin. by eapply same_routable, H3. Qed.

Lemma same_cover vc n n' l : same_net n n' ->
  (forall id p, (id, p) ∉ map key l -> vcview vc id p n' = vcview vc id p n) -> movable vc n l ->
  forall id p r u, Net.router id n' = Ok r -> vec_at (Router.m_input_unit r) p = Ok u ->
    InputUnit.m_direction u <> "Local" ->
    (id, p) ∈ map key l \/ exists v, vcview vc id p n' = Ok v /\ buf v = [].
Proof.
  intros Hnet Hout [_ Hc] id p r' u' Hr' Hu' Hd.
  destruct (decide ((id, p) ∈ map key l)) as [|Hno]; [by left|right].
  destruct (same_router _ _ Hnet id r' Hr') as (r & Hr & E). injection E as _ _ E3 _.
  destruct (map_eq_at _ _ _ _ _ E3 Hu') as (u & Hu & Eu). injection Eu as _ Eb _ _.
  rewrite Hout by done. destruct (Hc id p r u Hr Hu) as [|]; [congruence|done|done].
Qed.

(** *** The packets to move *)

(** What the count of [doSpin] adds for input port [a]. *)
Definition weight (vc : Z) (n : Net.t) (a : Z * Z) : Z :=
  match Spin.input a.1 a.2 n with
  | Ok u =>
      if bool_decide (InputUnit.m_direction u = "Local") then 0
      else match InputUnit.vc_isEmpty vc u with Ok false => 1 | _ => 0 end
  | Err _ => 0
  end.

(** The input ports of the routers before [k]. *)
Fixpoint ports (n : Net.t) (k : nat) : list (Z * Z) :=
  match k with
  | O => []
  | S k => ports n k ++
      match Net.router (Z.of_nat k) n with
      | Ok r => map (pair (Z.of_nat k)) (range 0 (Router.get_num_inports r))
      | Err _ => []
      end
  end.

Lemma ports_spec n k id p :
  (id, p) ∈ ports n k <-> 0 <= id < Z.of_nat k /\ exists u, Spin.input id p n = Ok u.
Proof.
  induction k as [|k IH]; cbn [ports]; [split; [by intros ?%not_elem_of_nil|lia]|].
  rewrite elem_of_app, IH. unfold Spin.input. split.
  - intros [[? ?]|H]; [split; [lia|done]|]. destruct (Net.router (Z.of_nat k) n) as [r|] eqn:Hr;
      [|by apply not_elem_of_nil in H].
    apply list_elem_of_fmap in H as (x & [= -> ->] & Hx%in_range). rewrite Hr. cbn.
    split; [lia|]. by apply vec_at_total.
  - intros [Hid [u Hu]]. destruct (decide (id = Z.of_nat k)) as [->|]; [right|left; split; [lia|eauto]].
    inv_bind Hu. apply list_elem_of_fmap. exists p. split; [done|]. apply in_range.
    by eapply vec_at_inside.
Qed.

Lemma ports_NoDup n k : NoDup (ports n k).
Proof.
  induction k as [|k IH]; cbn [ports]; [constructor|]. apply NoDup_app. split; [done|]. split.
  - intros [id p] [H _]%ports_spec H'. destruct (Net.router _ n); [|by apply not_elem_of_nil in H'].
    apply list_elem_of_fmap in H' as (x & [= -> _] & _). lia.
  - destruct (Net.router _ n); [|constructor]. apply NoDup_fmap_2; [by intros ?? [=]|apply NoDup_seqZ].
Qed.

Section Ready.
Context (vc : Z) (n : Net.t) (l : list slot) (Hready : spin_ready vc n l).

#[local] Abbreviation ls := (l ++ take 1 l).

Lemma slot_input s : s ∈ l -> exists u, Spin.input (s_id s) (s_in s) n = Ok u /\
  InputUnit.m_direction u <> "Local".
Proof.
  intros Hs. destruct (sr_slots _ _ _ Hready s Hs) as [Hh (r & u & Hr & Hu & _ & Hd) _].
  exists u. unfold Spin.input. rewrite Hr. split; [done|]. rewrite Hd. by apply (hop_direction _ _ _ _ Hh).
Qed.

Lemma weight_slot s : s ∈ l -> weight vc n (key s) = occupied (content vc n s).
Proof.
  intros Hs. destruct (slot_input s Hs) as (u & Hu & Hd).
  destruct (holds_isEmpty vc n s _ (sr_holds _ _ _ Hready s Hs)) as (u' & Hu' & He).
  rewrite Hu in Hu'. injection Hu' as <-. unfold weight, key. cbn [fst snd].
  rewrite Hu, bool_decide_eq_false_2, He by done. by destruct (content vc n s).
Qed.

(** A port that is not on the ring counts nothing. *)
Lemma weight_elsewhere id p r u : Net.router id n = Ok r -> vec_at (Router.m_input_unit r) p = Ok u ->
  exists b, Spin.count_port vc r p = Ok b /\ weight vc n (id, p) = if (b : bool) then 1 else 0.
Proof.
  intros Hr Hu. unfold Spin.count_port, weight, Spin.input. cbn [fst snd]. rewrite Hr. cbn [mbind Res_bind].
  rewrite Hu. cbn [mbind Res_bind].
  destruct (rf_vcs _ _ _ (mn_routers n (sr_mesh _ _ _ Hready) id r Hr) p u Hu) as [-> _].
  rewrite Z.eqb_refl. cbn [assert_ mbind Res_bind]. case_bool_decide as Hd; [by exists false|].
  assert (exists e, InputUnit.vc_isEmpty vc u = Ok e) as [e ->]; [|exists (negb e); by destruct e].
  unfold InputUnit.vc_isEmpty.
  assert (exists v, vcview vc id p n = Ok v) as [v Hv].
  { destruct (sr_cover _ _ _ Hready id p r u Hr Hu Hd) as [Hin|(v & Hv & _)]; [|eauto].
    apply list_elem_of_fmap in Hin as (s & [= -> ->] & Hs).
    destruct (sr_holds _ _ _ Hready s Hs) as (v & _ & Hv & _). eauto. }
  unfold vcview, Spin.input in Hv. rewrite Hr in Hv. cbn in Hv. rewrite Hu in Hv. cbn in Hv.
  rewrite Hv. by eexists.
Qed.

Lemma key_NoDup : NoDup (map key l).
Proof.
  apply NoDup_fmap_2_strong; [|apply (sr_once _ _ _ Hready)].
  intros s s' Hs Hs'. apply (slot_key_inj n); by apply (sr_slots _ _ _ Hready).
Qed.

Lemma weight_total : total (weight vc n) (ports n (length (Net.m_routers n)))
  = total (fun s => occupied (content vc n s)) l.
Proof.
  rewrite (total_support _ _ (map key l)); [| apply ports_NoDup|apply key_NoDup| |].
  - rewrite total_map. apply total_Forall2.
    apply Forall2_same_length_lookup_2; [done|]. intros i s s' Hs Hs'. rewrite Hs in Hs'. simplify_eq.
    apply weight_slot. by eapply list_elem_of_lookup_2.
  - intros a (s & -> & Hs)%list_elem_of_fmap. apply ports_spec.
    destruct (slot_input s Hs) as (u & Hu & _). split; [|eauto].
    unfold Spin.input in Hu. inv_bind Hu. by apply vec_at_inside in E.
  - intros [id p] [_ [u Hu]]%ports_spec Hout. unfold weight. cbn [fst snd]. rewrite Hu.
    case_bool_decide as Hd; [done|]. pose proof Hu as Hu'. unfold Spin.input in Hu'. inv_bind Hu'.
    destruct (sr_cover _ _ _ Hready id p _ _ E Hu' Hd) as [|(v & Hv & Hb)]; [done|].
    unfold vcview in Hv. rewrite Hu in Hv. cbn in Hv.
    unfold InputUnit.vc_isEmpty, VirtualChannel.isEmpty, flitBuffer.isEmpty. rewrite Hv. cbn.
    by rewrite Hb.
Qed.

Lemma count_packets_Ok :
  Spin.count_packets vc n = Ok (total (fun s => occupied (content vc n s)) l).
Proof.
  unfold Spin.count_packets.
  destruct (foldM_total (fun done_ x => x = total (weight vc n) (ports n (length done_)))
    (fun r spun_pkt_num => k ← countM (Spin.count_port vc r) (range 0 (Router.get_num_inports r));
                           Ok (spun_pkt_num + k)) (Net.m_routers n) 0) as (x & -> & ->).
  - done.
  - intros done_ r rest x Hl ->.
    assert (Net.router (Z.of_nat (length done_)) n = Ok r) as Hr.
    { unfold Net.router. apply vec_at_nat. by rewrite Hl, lookup_app_r, Nat.sub_diag. }
    rewrite (countM_sum _ (fun p => weight vc n (Z.of_nat (length done_), p))).
    + eexists. split; [done|]. cbn beta. rewrite length_app. cbn [length].
      rewrite Nat.add_1_r. cbn [ports]. by rewrite Hr, total_app, total_map.
    + intros p Hp%in_range. destruct (vec_at_total (Router.m_input_unit r) p Hp) as [u Hu].
      by eapply weight_elsewhere.
  - by rewrite weight_total.
Qed.

(** *** The nodes of the ring *)

Lemma ready_ring_length : length (Net.spinRing n) = S (length l).
Proof.
  pose proof (sr_ring _ _ _ Hready) as E. apply (f_equal length) in E.
  rewrite !length_map, length_app, length_take in E. pose proof (sr_nonempty _ _ _ Hready).
  destruct l; [done|]. cbn in *. lia.
Qed.

Lemma ready_front i : (i < length l)%nat -> ls !! i = l !! i.
Proof. intros. by rewrite lookup_app_l. Qed.

Lemma ready_slot i s : ls !! i = Some s -> s ∈ l.
Proof.
  intros [H|H]%list_elem_of_lookup_2%elem_of_app; [done|].
  apply elem_of_take in H as (j & H & _). by eapply list_elem_of_lookup_2.
Qed.

(** The places of stage 2 are different slots. *)
Lemma ready_distinct i j s : ls !! S i = Some s -> ls !! S j = Some s -> i = j.
Proof.
  rewrite <- !lookup_tail. apply NoDup_lookup. pose proof (sr_once _ _ _ Hready) as ND.
  destruct l as [|a l']; [done|]. cbn. rewrite take_0. rewrite Permutation_app_comm. done.
Qed.

(** A node of a ring with the same names. *)
Lemma ready_node m i s : map node_name (Net.spinRing m) = map node_name (Net.spinRing n) ->
  ls !! i = Some s ->
  exists st, Net.spinRing m !! i = Some st /\ spinStruct.router_id_ st = s_id s /\
    spinStruct.inport_dir_ st = s_dir s.
Proof.
  rewrite (sr_ring _ _ _ Hready). intros E Hs.
  assert (map node_name (Net.spinRing m) !! i = Some (slot_name s)) as Hm.
  { rewrite E. change (slot_name <$> ls) with (map slot_name ls). by rewrite list_lookup_fmap, Hs. }
  apply list_lookup_fmap_Some in Hm as (st & Hn & Hst). injection Hn as E1 E2. by exists st.
Qed.

(** *** Stage 1 *)

Record drained (k : nat) (x : Z) (m : Net.t) : Prop := {
  dr_net : same_net n m;
  dr_names : map node_name (Net.spinRing m) = map node_name (Net.spinRing n);
  dr_done : forall i s, (i < k)%nat -> l !! i = Some s -> holds vc m s None /\
    exists st, Net.spinRing m !! S i = Some st /\
      option_Forall2 lifted (content vc n s) (spinStruct.flit_ st);
  dr_todo : forall i s, (k <= i)%nat -> l !! i = Some s -> holds vc m s (content vc n s);
  dr_out : forall id p, (id, p) ∉ map key l -> vcview vc id p m = vcview vc id p n;
  dr_vcs : forall w, w <> vc -> same_vc w n m;
  dr_count : x = total (fun s => occupied (content vc n s)) (take k l)
}.

Lemma drained_start : drained 0 0 (Spin.add_spin 1 0 0 0 n).
Proof.
  split; [done|done|lia| |done|done|done]. intros i s _ Hs.
  by apply (sr_holds _ _ _ Hready), (list_elem_of_lookup_2 _ i).
Qed.

Lemma key_elsewhere id p s : s ∈ l -> (id, p) ∉ map key l -> (id, p) <> key s.
Proof. intros Hs Hout E. apply Hout. rewrite E. by apply list_elem_of_fmap_2. Qed.

Lemma drained_step k x m s m' st fo :
  l !! k = Some s -> drained k x m -> only_at vc s m m' -> holds vc m' s None ->
  option_Forall2 lifted (content vc n s) fo -> Net.spinRing m !! S k = Some st ->
  Net.spinRing m' = <[S k := spinStruct.set_flit fo st]> (Net.spinRing m) ->
  drained (S k) (x + occupied (content vc n s)) m'.
Proof.
  intros Hs [D1 D2 D3 D4 D5 D7 D6] O Hh Hl Hst Hring.
  assert (forall i s', i <> k -> l !! i = Some s' -> s <> s') as Hdiff.
  { intros i s' Hi Hs' <-. apply Hi. by eapply NoDup_lookup; [apply (sr_once _ _ _ Hready)|..]. }
  assert (forall s', s' ∈ l -> slot_ok m s') as Hok
    by (intros s' Hs'; eapply same_slot_ok; [exact D1|by apply (sr_slots _ _ _ Hready)]).
  assert (s ∈ l) as Hin by (by eapply list_elem_of_lookup_2).
  split.
  - etransitivity; [exact D1|apply O].
  - rewrite <- D2, Hring. by eapply map_insert_same.
  - intros i s' Hi Hs'. destruct (decide (i = k)) as [->|Hne].
    + rewrite Hs in Hs'. injection Hs' as <-. split; [done|]. eexists. rewrite Hring.
      split; [by rewrite list_lookup_insert_eq by (by eapply lookup_lt_Some)|done].
    + destruct (D3 i s') as [Hh' (st' & Hst' & Hl')]; [lia|done|]. split.
      * eapply (holds_only vc s); [by apply Hok|by eapply Hok, list_elem_of_lookup_2|by eapply Hdiff|done|done].
      * exists st'. rewrite Hring, list_lookup_insert_ne by lia. done.
  - intros i s' Hi Hs'.
    eapply (holds_only vc s); [by apply Hok|by eapply Hok, list_elem_of_lookup_2|eapply Hdiff; [|done]; lia|done|].
    apply (D4 i); [lia|done].
  - intros id p Hout. rewrite (oa_slots _ _ _ _ O) by (by apply key_elsewhere). by apply D5.
  - intros w Hw. eapply same_vc_trans; [by apply D7|by apply (oa_vcs _ _ _ _ O)].
  - rewrite (take_S_r _ _ s), total_app by done. cbn. lia.
Qed.

Lemma remove_stage_drained k x m : (k < length l)%nat -> drained k x m ->
  exists st, Spin.remove_stage vc (Z.of_nat k) (x, m) = Ok st /\ drained (S k) st.1 st.2.
Proof.
  intros Hk D. destruct (lookup_lt_is_Some_2 l k Hk) as [s Hs].
  assert (s ∈ l) as Hin by (by eapply list_elem_of_lookup_2).
  pose proof (dr_net _ _ _ D) as Hnet.
  destruct (ready_node m k s (dr_names _ _ _ D)) as (node & Hnode & Eid & Edir);
    [by rewrite ready_front|].
  destruct (lookup_lt_is_Some_2 (Net.spinRing m) (S k)) as [st Hst].
  { pose proof (f_equal length (dr_names _ _ _ D)) as E. rewrite !length_map, ready_ring_length in E. lia. }
  destruct (remove_stage_Ok vc m l s (Z.of_nat k) node st (content vc n s) x)
    as (m' & fo & -> & O & Hh & Hl & Hring); [..|done|done| |].
  - eapply same_mesh_net; [exact Hnet|apply (sr_mesh _ _ _ Hready)].
  - eapply same_slot_ok; [exact Hnet|by apply (sr_slots _ _ _ Hready)].
  - done.
  - by apply (dr_todo _ _ _ D k).
  - intros f Hf. eapply travels_same; [exact Hnet|by eapply (sr_travels _ _ _ Hready)].
  - by apply vec_at_nat.
  - replace (Z.of_nat k + 1) with (Z.of_nat (S k)) by lia. by apply vec_at_nat.
  - eexists. split; [done|]. cbn [fst snd]. replace (Z.of_nat k + 1) with (Z.of_nat (S k)) in Hring by lia.
    rewrite Nat2Z.id in Hring. by eapply drained_step.
Qed.

(** *** Stage 2 *)

Record refilled (m : Net.t) (k : nat) (x : Z) (m' : Net.t) : Prop := {
  re_net : same_net n m';
  re_ring : Net.spinRing m' = Net.spinRing m;
  re_done : forall i s, (1 <= i < k)%nat -> ls !! i = Some s -> exists o, holds vc m' s o /\
    forall f, o = Some f -> travels n l f;
  re_todo : forall i s, (1 <= i)%nat -> (k <= i)%nat -> ls !! i = Some s -> holds vc m' s None;
  re_out : forall id p, (id, p) ∉ map key l -> vcview vc id p m' = vcview vc id p n;
  re_vcs : forall w, w <> vc -> same_vc w n m';
  re_count : x = total (fun st => occupied (spinStruct.flit_ st)) (drop k (Net.spinRing m))
}.

Lemma lifted_occupied o fo : option_Forall2 lifted o fo -> occupied o = occupied fo.
Proof. by destruct 1. Qed.

Lemma refilled_start x m : drained (length l) x m -> refilled m 1 x m.
Proof.
  intros D. pose proof D as [D1 D2 D3 D4 D5 D7 D6]. split; [done|done|lia| |done|done|].
  - intros i s _ _ Hs. apply ready_slot in Hs. apply list_elem_of_lookup in Hs as [j Hj].
    apply (D3 j); [by eapply lookup_lt_Some|done].
  - rewrite firstn_all in D6. rewrite D6. apply total_Forall2.
    apply Forall2_same_length_lookup_2.
    + rewrite length_drop. pose proof (f_equal length D2) as E. rewrite !length_map, ready_ring_length in E. lia.
    + intros i s st Hs Hst. rewrite lookup_drop in Hst.
      destruct (D3 i s) as [_ (st' & Hst' & Hl)]; [by eapply lookup_lt_Some|done|].
      change (S i) with (1 + i)%nat in Hst'. rewrite Hst in Hst'. injection Hst' as <-.
      by apply lifted_occupied.
Qed.

(** The flit of a node after stage 1. *)
Lemma drained_flit x m i st f1 : drained (length l) x m -> (1 <= i <= length l)%nat ->
  Net.spinRing m !! i = Some st -> spinStruct.flit_ st = Some f1 ->
  flit.hops_needed_after_spin f1 = -1 /\ forall s, s ∈ l -> routable n (s_id s) (flit.m_route f1).
Proof.
  intros D Hi Hst Hf. destruct i as [|i]; [lia|].
  destruct (lookup_lt_is_Some_2 l i) as [s0 Hs0]; [lia|].
  destruct (dr_done _ _ _ D i s0) as [_ (st' & Hst' & Hl)]; [lia|done|].
  rewrite Hst in Hst'. injection Hst' as <-. rewrite Hf in Hl.
  destruct (content vc n s0) as [f|] eqn:Ec; [|inversion Hl].
  assert (lifted f f1) as [h ->] by (by inversion Hl).
  apply (sr_travels _ _ _ Hready s0 f) in Ec as [_ Haft Hrt]; [done|by eapply list_elem_of_lookup_2].
Qed.

Lemma settled_routable m id f1 f' : settled f1 f' -> routable m id (flit.m_route f1) ->
  routable m id (flit.m_route f').
Proof. intros (_ & _ & h & ->) [H1 H2 H3]. by split. Qed.

Lemma refilled_step m k x m1 s m2 st fo :
  (1 <= k)%nat -> ls !! k = Some s -> refilled m k x m1 -> only_at vc s m1 m2 -> holds vc m2 s fo ->
  (forall f, fo = Some f -> travels n l f) -> Net.spinRing m !! k = Some st ->
  Net.spinRing m2 = Net.spinRing m1 ->
  refilled m (S k) (x - occupied (spinStruct.flit_ st)) m2.
Proof.
  intros Hk Hs [D1 D2 D3 D4 D5 D7 D6] O Hh Hf Hst Hring.
  assert (forall i s', (1 <= i)%nat -> i <> k -> ls !! i = Some s' -> s <> s') as Hdiff.
  { intros i s' Hi Hne Hs' <-. apply Hne. destruct i as [|i]; [lia|]. destruct k as [|k]; [lia|].
    f_equal. by eapply ready_distinct. }
  assert (forall i s', ls !! i = Some s' -> slot_ok m1 s') as Hok.
  { intros i s' Hs'. eapply same_slot_ok; [exact D1|]. eapply (sr_slots _ _ _ Hready), ready_slot; exact Hs'. }
  split.
  - etransitivity; [exact D1|apply O].
  - congruence.
  - intros i s' Hi Hs'. destruct (decide (i = k)) as [->|Hne].
    + rewrite Hs in Hs'. injection Hs' as <-. eauto.
    + destruct (D3 i s') as (o & Ho & Htr); [lia|done|]. exists o. split; [|done].
      eapply (holds_only vc s); [by eapply Hok|by eapply Hok|eapply Hdiff; [|exact Hne|done]; lia|done|done].
  - intros i s' Hi Hki Hs'.
    eapply (holds_only vc s); [by eapply Hok|by eapply Hok|eapply Hdiff; [done| |done]; lia|done|].
    apply (D4 i); [lia|lia|done].
  - intros id p Hout. rewrite (oa_slots _ _ _ _ O) by (apply key_elsewhere; [by eapply ready_slot|done]).
    by apply D5.
  - intros w Hw. eapply same_vc_trans; [by apply D7|by apply (oa_vcs _ _ _ _ O)].
  - rewrite D6, (drop_S _ _ _ Hst). cbn. lia.
Qed.

Lemma insert_stage_refilled x0 m k x m1 : drained (length l) x0 m ->
  (1 <= k <= length l)%nat -> refilled m k x m1 ->
  exists st, Spin.insert_stage vc (Z.of_nat k) (x, m1) = Ok st /\ refilled m (S k) st.1 st.2.
Proof.
  intros D Hk R. pose proof (re_net _ _ _ _ R) as Hnet.
  destruct (lookup_lt_is_Some_2 ls k) as [s Hs].
  { rewrite length_app, length_take. pose proof (sr_nonempty _ _ _ Hready). destruct l; [done|]. cbn in *. lia. }
  destruct (ready_node m k s (dr_names _ _ _ D) Hs) as (node & Hnode & Eid & Edir).
  assert (s ∈ l) as Hin by (by eapply ready_slot).
  destruct (insert_stage_Ok vc m1 s (Z.of_nat k) node x) as (m2 & fo & -> & O & Hh & Hl & Hring);
    [..|done|done| |].
  - eapply same_mesh_net; [exact Hnet|apply (sr_mesh _ _ _ Hready)].
  - pose proof Hnet as (-> & _). apply (sr_implemented _ _ _ Hready).
  - eapply same_slot_ok; [exact Hnet|by apply (sr_slots _ _ _ Hready)].
  - by apply (re_todo _ _ _ _ R k); [lia|lia|].
  - apply vec_at_nat. by rewrite (re_ring _ _ _ _ R).
  - intros f1 Hf. destruct (drained_flit x0 m k node f1 D Hk Hnode Hf) as [Haft Hrt].
    split; [done|]. eapply same_routable; [exact Hnet|]. by apply Hrt.
  - eexists. split; [done|]. cbn [fst snd].
    eapply refilled_step; [lia|exact Hs|exact R|exact O|exact Hh| |exact Hnode|exact Hring].
    intros f' ->. destruct (spinStruct.flit_ node) as [f1|] eqn:Hf; [|inversion Hl].
    assert (settled f1 f') as Hst by (by inversion Hl). pose proof Hst as (? & ? & _). split; [done..|].
    intros s' Hs'. eapply settled_routable; [exact Hst|]. by eapply drained_flit.
Qed.

Lemma refilled_all m x m' s : refilled m (S (length l)) x m' -> s ∈ l ->
  exists o, holds vc m' s o /\ forall f, o = Some f -> travels n l f.
Proof.
  intros R [i Hi]%list_elem_of_lookup. pose proof (lookup_lt_Some _ _ _ Hi) as Hlt.
  destruct i as [|i].
  - apply (re_done _ _ _ _ R (length l)); [lia|]. rewrite lookup_app_r, Nat.sub_diag by lia.
    by destruct l.
  - apply (re_done _ _ _ _ R (S i)); [lia|]. by rewrite ready_front.
Qed.

(** *** The whole spin *)

Lemma doSpin_Ok : exists m x m', Spin.doSpin vc n = Ok m' /\ refilled m (S (length l)) x m' /\
  map node_name (Net.spinRing m) = map node_name (Net.spinRing n).
Proof.
  unfold Spin.doSpin. rewrite count_packets_Ok. cbn [mbind Res_bind]. cbv zeta.
  change (Net.spinRing (Spin.add_spin 1 0 0 0 n)) with (Net.spinRing n).
  assert (zlen (Net.spinRing n) = Z.of_nat (S (length l))) as Hz by (unfold zlen; by rewrite ready_ring_length).
  rewrite Hz, (proj2 (Z.eqb_neq _ _)) by lia.
  destruct (foldM_range_total (fun i st => drained (Z.to_nat i) st.1 st.2) (Spin.remove_stage vc)
    0 (Z.of_nat (S (length l)) - 1) (0, Spin.add_spin 1 0 0 0 n)) as ([x m] & -> & D);
    [lia|apply drained_start| |].
  { intros i [x m] Hi D. destruct (Z_of_nat_complete i) as [k ->]; [lia|]. rewrite Nat2Z.id in D.
    replace (Z.to_nat (Z.of_nat k + 1)) with (S k) by lia. apply remove_stage_drained; [lia|done]. }
  replace (Z.to_nat (Z.of_nat (S (length l)) - 1)) with (length l) in D by lia. cbn [fst snd] in D.
  cbn [mbind Res_bind]. rewrite (dr_count _ _ _ D), firstn_all, Z.eqb_refl. cbn [assert_ mbind Res_bind].
  destruct (foldM_range_total (fun i st => refilled m (Z.to_nat i) st.1 st.2) (Spin.insert_stage vc)
    1 (Z.of_nat (S (length l))) (x, m)) as ([x' m'] & Hfold & R); [lia|by apply refilled_start| |].
  { intros i [x1 m1] Hi R. destruct (Z_of_nat_complete i) as [k ->]; [lia|]. rewrite Nat2Z.id in R.
    replace (Z.to_nat (Z.of_nat k + 1)) with (S k) by lia.
    eapply insert_stage_refilled; [exact D|lia|done]. }
  pose proof (dr_count _ _ _ D) as Ex. rewrite firstn_all in Ex. rewrite <- Ex, Hfold. cbn [mbind Res_bind].
  cbn [fst snd] in R. rewrite Nat2Z.id in R.
  pose proof (re_count _ _ _ _ R) as Ec. rewrite drop_ge in Ec.
  2:{ pose proof (f_equal length (dr_names _ _ _ D)) as E. rewrite !length_map, ready_ring_length in E. lia. }
  cbn in Ec. subst x'. cbn [Z.eqb assert_ mbind Res_bind].
  exists m, 0, m'. split; [done|]. split; [done|apply D].
Qed.

Lemma ready_ring_ok : ring_ok vc n (map key l).
Proof.
  split.
  - apply mapM_Some_2. rewrite firstn_map, <- map_app. apply Forall2_same_length_lookup_2.
    { rewrite length_map, ready_ring_length, length_app, length_take.
      pose proof (sr_nonempty _ _ _ Hready). destruct l; [done|]. cbn in *. lia. }
    intros i st a Hst Ha. apply list_lookup_fmap_Some in Ha as (s & -> & Hs).
    destruct (ready_node n i s eq_refl Hs) as (st' & Hst' & Eid & Edir).
    rewrite Hst in Hst'. injection Hst' as <-. unfold node_slot, inmap. rewrite Eid, Edir.
    destruct (so_in _ _ (sr_slots _ _ _ Hready s (ready_slot i s Hs))) as (r & u & -> & _ & -> & _). done.
  - pose proof (sr_nonempty _ _ _ Hready). by destruct l.
  - apply key_NoDup.
  - apply Forall_forall. intros a (s & -> & Hs)%list_elem_of_fmap.
    destruct (sr_holds _ _ _ Hready s Hs) as (v & c & Hv & _ & _ & Hb).
    unfold single, at_slot. cbn [fst snd key]. rewrite Hv. cbn [mbind Res_bind].
    destruct (content vc n s); by destruct Hb as [-> _].
Qed.

Lemma ready_again m x m' : refilled m (S (length l)) x m' ->
  map node_name (Net.spinRing m) = map node_name (Net.spinRing n) -> spin_ready vc m' l.
Proof.
  intros R Hnames. pose proof (re_net _ _ _ _ R) as Hnet. split.
  - eapply same_ring_net; [exact Hnet| |apply (sr_net _ _ _ Hready)]. by rewrite (re_ring _ _ _ _ R).
  - intros s Hs. destruct (refilled_all m x m' s R Hs) as (o & Ho & _).
    by rewrite (holds_content _ _ _ _ Ho).
  - split.
    + intros s f Hs Hf. destruct (refilled_all m x m' s R Hs) as (o & Ho & Ht).
      rewrite (holds_content _ _ _ _ Ho) in Hf. eapply travels_same; [exact Hnet|by apply Ht].
    + eapply same_cover; [exact Hnet|apply R|apply (sr_movable _ _ _ Hready)].
Qed.

(** A ready spin returns, the state is ready again, and the other virtual
    channels are what they were. *)
Lemma doSpin_ready : exists n', Spin.doSpin vc n = Ok n' /\ spin_ready vc n' l /\
  same_net n n' /\ (forall w, w <> vc -> same_vc w n n') /\
  map node_name (Net.spinRing n') = map node_name (Net.spinRing n).
Proof.
  destruct doSpin_Ok as (m & x & m' & Hspin & R & Hnames). exists m'. split; [done|].
  split; [by eapply ready_again|]. split; [apply R|]. split; [apply R|].
  by rewrite (re_ring _ _ _ _ R).
Qed.

End Ready.
