(* ===== verification/DrainSpins.v ===== *)
(** * The spins of a drain

    The spins of [Router::wakeup] ([RouterStep.spins]) on ready virtual
    channels: none of them fails, each moves the packets one place along the
    ring, and so some number of them takes a packet to its destination
    router. [spin_readyb] tests that a network is ready. *)

From S2P Require Import Prelude NetDest Types FlitBuffer Channels ChannelFacts RouterCore MsgBuffer NetState Routing RoutingFacts Network Spin Example MeshNet RouterStep NI Frames AllocFacts SpinFacts SpinReady.

#[local] Abbreviation buf v := (flitBuffer.m_buffer (VirtualChannel.m_input_buffer v)).

(** ** A drain: many spins of several virtual channels *)

(** The same packet, [k] hops of the ring later. *)
Definition travelled (k : nat) (f f' : flit.t) : Prop :=
  flit.m_id f' = flit.m_id f /\ flit.m_msg_ptr f' = flit.m_msg_ptr f /\
  flit.m_vnet f' = flit.m_vnet f /\ flit.m_vc f' = flit.m_vc f /\ flit.m_type f' = flit.m_type f /\
  flit.m_route f' = RouteInfo.set_hops_traversed
    (RouteInfo.hops_traversed (flit.m_route f) + Z.of_nat k) (flit.m_route f).

Lemma travelled_0 f : travelled 0 f f.
Proof. unfold travelled. split_and!; [done..|]. rewrite Z.add_0_r. by destruct (flit.m_route f). Qed.

Lemma travelled_S k f1 f2 f3 : travelled k f1 f2 -> moved f2 f3 -> travelled (S k) f1 f3.
Proof.
  intros (A1 & A2 & A3 & A4 & A5 & A6) (B1 & B2 & B3 & B4 & B5 & _ & _ & _ & _ & B6 & _).
  unfold travelled. split_and!; try congruence.
  rewrite B6, A6, Nat2Z.inj_succ. unfold RouteInfo.set_hops_traversed. cbn [RouteInfo.hops_traversed].
  f_equal; try done. lia.
Qed.

(** Every packet in [vc] is [k] slots further on the ring. *)
Definition advanced (vc : Z) (l : list slot) (k : nat) (n n' : Net.t) : Prop :=
  forall i a b, l !! i = Some a -> l !! ((i + k) mod length l)%nat = Some b ->
    exists fs fs', at_slot vc (key a) n = Ok fs /\ at_slot vc (key b) n' = Ok fs' /\
      Forall2 (travelled k) fs fs'.

Lemma ready_at_slot vc n l s : spin_ready vc n l -> s ∈ l -> exists fs, at_slot vc (key s) n = Ok fs.
Proof.
  intros Hr Hs. destruct (sr_holds _ _ _ Hr s Hs) as (v & c & Hv & _).
  unfold at_slot. cbn [key fst snd]. rewrite Hv. by eexists.
Qed.

Lemma advanced_0 vc l n : spin_ready vc n l -> advanced vc l 0 n n.
Proof.
  intros Hr i a b Ha Hb. rewrite Nat.add_0_r, Nat.mod_small in Hb by (by eapply lookup_lt_Some).
  rewrite Ha in Hb. injection Hb as <-.
  destruct (ready_at_slot vc n l a Hr) as [fs Hfs]; [by eapply list_elem_of_lookup_2|].
  exists fs, fs. split_and!; [done..|]. apply Forall_Forall2_diag, Forall_forall. intros. apply travelled_0.
Qed.

(** One slot further, by one spin. *)
Definition rotated (vc : Z) (l : list slot) (n n' : Net.t) : Prop :=
  forall i a b, l !! i = Some a -> l !! (S i mod length l)%nat = Some b ->
    exists fs fs', at_slot vc (key a) n = Ok fs /\ at_slot vc (key b) n' = Ok fs' /\
      Forall2 moved fs fs'.

Lemma doSpin_rotated vc n n' l :
  spin_ready vc n l -> Spin.doSpin vc n = Ok n' -> rotated vc l n n'.
Proof.
  intros Hr Hs i a b Ha Hb.
  destruct (doSpin_rotates vc n n' (map key l) (ready_ring_ok vc n l Hr) Hs) as [Hrot _].
  pose proof (lookup_lt_Some _ _ _ Ha) as Hi.
  apply (Hrot i (key a) (key b)); rewrite firstn_map, <- map_app; apply list_lookup_fmap_Some_2.
  - by rewrite lookup_app_l.
  - destruct (decide (S i = length l)) as [E|].
    + rewrite E, Nat.Div0.mod_same in Hb. rewrite lookup_app_r, E, Nat.sub_diag by lia. by destruct l.
    + rewrite Nat.mod_small in Hb by lia. rewrite lookup_app_l by lia. done.
Qed.

Lemma advanced_S vc l k n1 n2 n3 : advanced vc l k n1 n2 -> rotated vc l n2 n3 -> advanced vc l (S k) n1 n3.
Proof.
  intros Hadv Hrot i a b Ha Hb. pose proof (lookup_lt_Some _ _ _ Ha) as Hi.
  assert ((i + k) mod length l < length l)%nat as Hj by (apply Nat.mod_upper_bound; lia).
  destruct (lookup_lt_is_Some_2 _ _ Hj) as [c Hc].
  destruct (Hadv i a c Ha Hc) as (fs & fs1 & H1 & H2 & HF).
  destruct (Hrot ((i + k) mod length l)%nat c b Hc) as (fs2 & fs3 & H3 & H4 & HF').
  { rewrite <- Hb. f_equal. rewrite <- Nat.add_1_r, Nat.Div0.add_mod_idemp_l. f_equal. lia. }
  rewrite H2 in H3. injection H3 as <-. exists fs, fs3. split_and!; [done..|].
  clear - HF HF'. revert fs3 HF'. induction HF as [|x y fs fs' Hxy _ IH]; intros fs3 H; inversion H; subst;
    constructor; eauto using travelled_S.
Qed.

(** *** A channel that a spin of another channel leaves alone *)

Record untouched (w : Z) (n n' : Net.t) : Prop := {
  un_net : same_net n n';
  un_vc : same_vc w n n';
  un_names : map node_name (Net.spinRing n') = map node_name (Net.spinRing n)
}.

Lemma untouched_holds w n n' s o : same_vc w n n' -> holds w n s o -> holds w n' s o.
Proof. intros [E1 E2] (v & c & Hv & Hc & H). exists v, c. by rewrite E1, E2. Qed.

Lemma untouched_at w n n' a : same_vc w n n' -> at_slot w a n' = at_slot w a n.
Proof. intros [E _]. by apply at_slot_view. Qed.

Lemma untouched_ready w n n' l : untouched w n n' -> spin_ready w n l -> spin_ready w n' l.
Proof.
  intros [Hnet Hvc Hnames] [R1 R2 R3].
  assert (forall s, content w n' s = content w n s) as Hc.
  { intros s. unfold content. destruct Hvc as [E _]. by rewrite E. }
  split; [by eapply same_ring_net| |split].
  - intros s Hs. rewrite Hc. by eapply untouched_holds, R2.
  - intros s f Hs Hf. rewrite Hc in Hf. eapply travels_same; [exact Hnet|by eapply (mv_travels _ _ _ R3)].
  - eapply same_cover; [exact Hnet| |exact R3]. intros id p _. apply Hvc.
Qed.

Lemma untouched_same_views w n n' : same_views n n' -> Net.spinRing n' = Net.spinRing n -> untouched w n n'.
Proof.
  intros Hs Hring. split; [| |by rewrite Hring].
  - destruct Hs as [E1 E2 E3]. split_and!; [done..|by rewrite E1].
  - split; [intros id p; by apply (same_views_at w n n' id p 0 0)|intros j q; by apply (same_views_at w n n' 0 0 j q)].
Qed.

(** *** The spins of a drain *)

Section Drain.
Context (l : list slot) (vcs : list Z).

Definition all_ready (n : Net.t) : Prop := forall w, w ∈ vcs -> spin_ready w n l.

Lemma drain_vc_Ok vc n : vc ∈ vcs -> all_ready n ->
  exists n', RouterStep.drain_vc vc n = Ok n' /\ all_ready n' /\ rotated vc l n n' /\
    same_net n n' /\ forall w, w <> vc -> same_vc w n n'.
Proof.
  intros Hvc Hn. unfold RouterStep.drain_vc. set (n0 := RouterStep.increment_num_drain n).
  assert (forall w, untouched w n n0) as U0 by (intros w; by apply untouched_same_views).
  pose proof (untouched_ready vc n n0 l (U0 vc) (Hn vc Hvc)) as Hready.
  destruct (doSpin_ready vc n0 l Hready) as (n' & Hspin & Hr & Hnet & Hothers & Hnames).
  exists n'. split; [done|]. split; [|split; [|split]].
  - intros w Hw. destruct (decide (w = vc)) as [->|Hne]; [done|].
    apply (untouched_ready w n0); [split; [done|by apply Hothers|done]|].
    apply (untouched_ready w n n0 l (U0 w)). by apply Hn.
  - exact (doSpin_rotated vc n0 n' l Hready Hspin).
  - exact Hnet.
  - exact Hothers.
Qed.

Lemma rotated_from vc n1 n2 n3 : same_vc vc n1 n2 -> rotated vc l n2 n3 -> rotated vc l n1 n3.
Proof.
  intros Hs Hr i a b Ha Hb. destruct (Hr i a b Ha Hb) as (fs & fs' & H1 & H2 & H3).
  exists fs, fs'. by rewrite <- (untouched_at vc n1 n2).
Qed.

Lemma rotated_to vc n1 n2 n3 : rotated vc l n1 n2 -> same_vc vc n2 n3 -> rotated vc l n1 n3.
Proof.
  intros Hr Hs i a b Ha Hb. destruct (Hr i a b Ha Hb) as (fs & fs' & H1 & H2 & H3).
  exists fs, fs'. by rewrite (untouched_at vc n2 n3).
Qed.

Lemma same_vc_refl w n : same_vc w n n.
Proof. by split. Qed.

(** One spin of each of some channels. *)
Lemma round_Ok ws n : ws ⊆ vcs -> NoDup ws -> all_ready n ->
  exists n', foldM RouterStep.drain_vc ws n = Ok n' /\ all_ready n' /\ same_net n n' /\
    (forall w, w ∈ ws -> rotated w l n n') /\ (forall w, w ∉ ws -> same_vc w n n').
Proof.
  revert n. induction ws as [|vc ws IH]; intros n Hsub Hnd Hn; cbn [foldM].
  { exists n. split_and!; [done|done|reflexivity|by intros ? ?%not_elem_of_nil|intros; apply same_vc_refl]. }
  apply NoDup_cons in Hnd as [Hvc Hnd].
  destruct (drain_vc_Ok vc n) as (n1 & -> & H1 & Hrot & Hcfg & Hoth); [set_solver|done|]. cbn [mbind Res_bind].
  destruct (IH n1) as (n2 & -> & H2 & Hcfg2 & Hrot2 & Hoth2); [set_solver|done|done|].
  exists n2. split_and!; [done|done|by etransitivity| |].
  - intros w [->|Hw]%elem_of_cons.
    + eapply rotated_to; [exact Hrot|by apply Hoth2].
    + eapply rotated_from; [apply Hoth|by apply Hrot2]. by intros ->.
  - intros w [Hne Hw]%not_elem_of_cons. eapply same_vc_trans; [by apply Hoth|by apply Hoth2].
Qed.

(** [k] rounds; a loop with a negative bound runs none. *)
Lemma rounds_Ok k n : NoDup vcs -> all_ready n ->
  exists n', foldM (fun _ n => foldM RouterStep.drain_vc vcs n) (range 0 k) n = Ok n' /\ all_ready n' /\ same_net n n' /\
    (forall w, w ∈ vcs -> advanced w l (Z.to_nat k) n n') /\ (forall w, w ∉ vcs -> same_vc w n n').
Proof.
  intros Hnd Hn.
  assert (range 0 k = range 0 (Z.max 0 k)) as ->.
  { destruct (Z.le_ge_cases 0 k); [f_equal; lia|]. by rewrite !range_empty by lia. }
  replace (Z.to_nat k) with (Z.to_nat (Z.max 0 k)) by lia.
  apply (foldM_range_total (fun i m => all_ready m /\ same_net n m /\ (forall w, w ∈ vcs -> advanced w l (Z.to_nat i) n m) /\
    (forall w, w ∉ vcs -> same_vc w n m))); [lia| |].
  - split_and!; [done|reflexivity| |intros; apply same_vc_refl]. intros w Hw. by apply advanced_0, Hn.
  - intros i m Hi (Hm & Hnet & Hadv & Hoth).
    destruct (round_Ok vcs m) as (m' & -> & Hm' & Hnet' & Hrot & Hoth'); [done..|].
    exists m'. split_and!; [done..|by etransitivity| |].
    + intros w Hw. rewrite Z2Nat.inj_add, Nat.add_1_r by lia.
      eapply advanced_S; [by apply Hadv|by apply Hrot].
    + intros w Hw. eapply same_vc_trans; [by apply Hoth|by apply Hoth'].
Qed.

End Drain.

(** The virtual channels a drain spins, and how often. *)
Definition drain_channels (net : NetConfig.t) (r : Router.t) : list Z :=
  if NetConfig.m_spin_mult net =? 0 then RouterStep.base_vcs r else RouterStep.drained_vcs net r.

Definition drain_rounds (n : Net.t) : nat :=
  Z.to_nat (if NetConfig.m_spin_mult (Net.cfg n) =? 0 then Z.rem (Net.random n).1 10
            else NetConfig.m_spin_mult (Net.cfg n)).

Lemma drain_channels_NoDup net r : 0 < Router.m_vc_per_vnet r -> NoDup (drain_channels net r).
Proof.
  intros Hpos. assert (NoDup (RouterStep.base_vcs r)) as Hb.
  { unfold RouterStep.base_vcs. apply NoDup_fmap_2; [intros x y; nia|apply NoDup_seqZ]. }
  unfold drain_channels, RouterStep.drained_vcs. destruct (_ =? 0); [done|].
  destruct (_ =? 1); [apply NoDup_seqZ|done].
Qed.

(** The spins of a drain never fail: when every virtual channel to drain
    is ready, [spins] returns, no assertion of [doSpin] fails, every packet
    in such a channel is on the ring as many slots further as there are
    spins of it ([m_spin_mult], or a random number), being the same packet
    with that many more hops; the channels are ready for the next drain, and
    the others are what they were. *)
Lemma drain_spins_total (n : Net.t) (r : Router.t) (l : list slot) :
  0 < Router.m_vc_per_vnet r ->
  (forall vc, vc ∈ drain_channels (Net.cfg n) r -> spin_ready vc n l) ->
  exists n', RouterStep.spins r n = Ok n' /\ same_net n n' /\
    (forall vc, vc ∈ drain_channels (Net.cfg n) r ->
       spin_ready vc n' l /\ advanced vc l (drain_rounds n) n n') /\
    (forall vc, vc ∉ drain_channels (Net.cfg n) r -> same_vc vc n n').
Proof.
  intros Hpos Hn. pose proof (drain_channels_NoDup (Net.cfg n) r Hpos) as Hnd.
  unfold RouterStep.spins, drain_rounds. cbv zeta. rewrite (surjective_pairing (Net.random n)). cbv beta iota.
  set (m := (Net.random n).2).
  assert (forall w, untouched w n m) as U by (intros w; by apply untouched_same_views).
  destruct (NetConfig.m_spin_mult (Net.cfg n) =? 0) eqn:E0.
  - destruct (rounds_Ok l (drain_channels (Net.cfg n) r) (Z.rem (Net.random n).1 10) m Hnd)
      as (n' & Hf & Hr & Hnet & Hadv & Hoth).
    { intros w Hw. eapply untouched_ready; [apply U|by apply Hn]. }
    unfold drain_channels in Hf. rewrite E0 in Hf. exists n'. split; [exact Hf|]. split; [etransitivity; [apply (U 0)|exact Hnet]|]. split.
    + intros vc Hvc. split; [by apply Hr|]. intros i a b Ha Hb.
      rewrite <- (untouched_at vc n m) by apply U. by apply (Hadv vc Hvc i).
    + intros vc Hvc. eapply same_vc_trans; [apply U|by apply Hoth].
  - destruct (rounds_Ok l (drain_channels (Net.cfg n) r) (NetConfig.m_spin_mult (Net.cfg n)) n Hnd Hn)
      as (n' & Hf & Hr & Hnet & Hadv & Hoth).
    unfold drain_channels in Hf. rewrite E0 in Hf. destruct (_ >? 0) eqn:E1.
    + exists n'. split; [exact Hf|]. split; [exact Hnet|]. split; [|exact Hoth]. intros vc Hvc. split; [by apply Hr|by apply Hadv].
    + zbool. rewrite range_empty in Hf by lia. injection Hf as <-. exists n. split; [done|].
      split; [exact Hnet|]. split; [|exact Hoth]. intros vc Hvc. split; [by apply Hr|by apply Hadv].
Qed.

(** ** Every packet of the ring meets its destination *)

Lemma at_slot_holds vc n s o : holds vc n s o -> at_slot vc (key s) n = Ok (option_list o).
Proof.
  intros (v & c & Hv & _ & _ & Hb). unfold at_slot. cbn [key fst snd]. rewrite Hv. cbn [mbind Res_bind].
  destruct o; by destruct Hb as [-> _].
Qed.

(** From each place of a ring to each other in fewer steps than it has places. *)
Lemma ring_steps (N i j : nat) : (i < N)%nat -> (j < N)%nat -> exists k, (k < N)%nat /\ ((i + k) mod N)%nat = j.
Proof.
  intros Hi Hj. destruct (decide (i <= j)%nat).
  - exists (j - i)%nat. split; [lia|]. rewrite Nat.mod_small; lia.
  - exists (N - i + j)%nat. split; [lia|]. replace (i + (N - i + j))%nat with (j + 1 * N)%nat by lia.
    rewrite Nat.Div0.mod_add. by apply Nat.mod_small.
Qed.

(** The ring passes every router. *)
Definition visits_all (n : Net.t) (l : list slot) : Prop :=
  forall id, in_mesh (Net.cfg n) id -> exists s, s ∈ l /\ s_id s = id.

(** C3: spins take every packet to its destination: on a ring that passes
    every router, some number of spins smaller than the length of the ring
    puts a packet, whatever blocks it, into a virtual channel of its
    destination router; none of the spins fails. *)
Theorem spins_reach_destination (vc : Z) (n : Net.t) (l : list slot) (a : slot) (f : flit.t) :
  spin_ready vc n l -> visits_all n l -> a ∈ l -> content vc n a = Some f ->
  exists k n' b f', (k < length l)%nat /\
    foldM (fun _ => RouterStep.drain_vc vc) (range 0 (Z.of_nat k)) n = Ok n' /\
    b ∈ l /\ s_id b = RouteInfo.dest_router (flit.m_route f) /\
    content vc n' b = Some f' /\ travelled k f f'.
Proof.
  intros Hn Hall Ha Hf.
  destruct (Hall (RouteInfo.dest_router (flit.m_route f))) as (b & Hb0 & Hdest).
  { by apply (rt_dest n (s_id a)), (tr_route _ _ _ (sr_travels _ _ _ Hn a f Ha Hf)). }
  apply list_elem_of_lookup in Ha as [i Hi]. pose proof Hb0 as [j Hj]%list_elem_of_lookup.
  destruct (ring_steps (length l) i j) as (k & Hk & Hmod); [by eapply lookup_lt_Some..|].
  destruct (rounds_Ok l [vc] (Z.of_nat k) n) as (n' & Hfold & Hready & _ & Hadv & _); [apply NoDup_singleton| |].
  { by intros w ->%list_elem_of_singleton. }
  specialize (Hadv vc ltac:(by left) i a b Hi). rewrite Nat2Z.id, Hmod in Hadv.
  destruct (Hadv Hj) as (fs & fs' & H1 & H2 & HF).
  rewrite (at_slot_holds _ _ _ _ (sr_holds _ _ _ Hn a ltac:(by eapply list_elem_of_lookup_2))), Hf in H1.
  injection H1 as <-. apply Forall2_cons_inv_l in HF as (f' & fs1 & Ht & HF%Forall2_nil_inv_l & ->). subst fs1.
  assert (holds vc n' b (content vc n' b)) as Hb
    by (apply (sr_holds vc n' l); [apply Hready; by left|by eapply list_elem_of_lookup_2]).
  rewrite (at_slot_holds _ _ _ _ Hb) in H2. injection H2 as E.
  exists k, n', b, f'. split_and!; [done| |done|done| |done].
  - rewrite <- Hfold. clear. generalize (range 0 (Z.of_nat k)). intros ks. revert n.
    induction ks as [|x ks IH]; intros n; cbn [foldM]; [done|].
    destruct (RouterStep.drain_vc vc n) as [m|]; cbn [mbind Res_bind]; [apply IH|done].
  - destruct (content vc n' b); [|done]. cbn in E. by injection E as ->.
Qed.

(** ** A test for [spin_ready] *)

Definition in_portb (n : Net.t) (id : Z) (d : PortDirection) (p : Z) : bool :=
  match Net.router id n with
  | Ok r => match vec_at (Router.m_input_unit r) p with
            | Ok u => bool_decide (RoutingUnit.m_inports_dirn2idx (Router.m_routing_unit r) !! d = Some p) &&
                      bool_decide (InputUnit.m_direction u = d)
            | Err _ => false
            end
  | Err _ => false
  end.

Definition out_portb (n : Net.t) (id : Z) (d : PortDirection) (q : Z) : bool :=
  match Net.router id n with
  | Ok r => match vec_at (Router.m_output_unit r) q with
            | Ok o => bool_decide (RoutingUnit.m_outports_dirn2idx (Router.m_routing_unit r) !! d = Some q) &&
                      bool_decide (OutputUnit.m_direction o = d)
            | Err _ => false
            end
  | Err _ => false
  end.

Lemma in_portb_sound n id d p : in_portb n id d p = true -> in_port n id d p.
Proof.
  unfold in_portb, in_port. destruct (Net.router id n) as [r|]; [|done].
  destruct (vec_at _ p) as [u|] eqn:Hu; [|done]. intros [H1%bool_decide_eq_true H2%bool_decide_eq_true]%andb_true_iff.
  by exists r, u.
Qed.

Lemma out_portb_sound n id d q : out_portb n id d q = true -> out_port n id d q.
Proof.
  unfold out_portb, out_port. destruct (Net.router id n) as [r|]; [|done].
  destruct (vec_at _ q) as [o|] eqn:Ho; [|done]. intros [H1%bool_decide_eq_true H2%bool_decide_eq_true]%andb_true_iff.
  by exists r, o.
Qed.

Definition slot_okb (n : Net.t) (s : slot) : bool :=
  bool_decide (hopb (Net.cfg n) (s_id s) (s_dir s) = Some (s_up s)) &&
  in_portb n (s_id s) (s_dir s) (s_in s) && out_portb n (s_up s) (opposite (s_dir s)) (s_out s).

Lemma slot_okb_sound n s : slot_okb n s = true -> slot_ok n s.
Proof.
  unfold slot_okb. rewrite !andb_true_iff. intros [[H1%bool_decide_eq_true H2] H3].
  split; [by apply hopb_spec|by apply in_portb_sound|by apply out_portb_sound].
Qed.

Definition holdsb (vc : Z) (n : Net.t) (s : slot) : bool :=
  match vcview vc (s_id s) (s_in s) n, cview vc (s_up s) (s_out s) n with
  | Ok v, Ok c =>
      (1 <=? OutVcState.m_max_credit_count c) &&
      match buf v with
      | [] => bool_decide (VirtualChannel.get_state v = IDLE_) &&
              (OutVcState.m_credit_count c =? OutVcState.m_max_credit_count c)
      | [_] => OutVcState.m_credit_count c =? OutVcState.m_max_credit_count c - 1
      | _ => false
      end
  | _, _ => false
  end.

Lemma holdsb_sound vc n s : holdsb vc n s = true -> holds vc n s (content vc n s).
Proof.
  unfold holdsb, content, holds. destruct (vcview vc _ _ n) as [v|]; [|done].
  destruct (cview vc _ _ n) as [c|]; [|done]. intros [H1 H2]%andb_true_iff. exists v, c. zbool.
  split_and!; [done..|].
  destruct (buf v) as [|f [|]] eqn:Hb; [|zbool; done|done].
  apply andb_true_iff in H2 as [H2%bool_decide_eq_true H3]. zbool. done.
Qed.

Definition travelsb (n : Net.t) (l : list slot) (f : flit.t) : bool :=
  (flit.hops_needed_before_spin f =? -1) && (flit.hops_needed_after_spin f =? -1) &&
  forallb (fun s => routableb n (s_id s) (flit.m_route f)) l.

Lemma travelsb_sound n l f : travelsb n l f = true -> travels n l f.
Proof.
  unfold travelsb. rewrite !andb_true_iff, forallb_forall. intros [[H1 H2] H3]. zbool. split; [done..|].
  intros s Hs. apply routableb_sound, H3. by apply list_elem_of_In.
Qed.

Definition coverb (vc : Z) (n : Net.t) (l : list slot) : bool :=
  all_at (fun id r => all_at (fun p u =>
      bool_decide (InputUnit.m_direction u = "Local") || bool_decide ((id, p) ∈ map key l) ||
      match vcview vc id p n with Ok v => bool_decide (length (buf v) = 0%nat) | Err _ => false end)
    (Router.m_input_unit r)) (Net.m_routers n).

Definition ring_netb (n : Net.t) (l : list slot) : bool :=
  mesh_netb n &&
  negb (bool_decide (RoutingAlgorithm_of_int (NetConfig.m_routing_algorithm (Net.cfg n)) = CUSTOM_)) &&
  bool_decide (map node_name (Net.spinRing n) = map slot_name (l ++ take 1 l)) &&
  bool_decide (length l <> 0%nat) && bool_decide (NoDup (map key l)) && forallb (slot_okb n) l.

Lemma ring_netb_sound n l : ring_netb n l = true -> ring_net n l.
Proof.
  unfold ring_netb. rewrite !andb_true_iff, forallb_forall, negb_true_iff, bool_decide_eq_false, !bool_decide_eq_true.
  intros [[[[[H1 H2] H3] H4] H5] H6]. split; [by apply mesh_netb_sound|done|done|by intros ->| |].
  - by eapply NoDup_fmap_1.
  - intros s Hs%list_elem_of_In. by apply slot_okb_sound, H6.
Qed.

Definition movableb (vc : Z) (n : Net.t) (l : list slot) : bool :=
  forallb (fun s => match content vc n s with Some f => travelsb n l f | None => true end) l && coverb vc n l.

Lemma movableb_sound vc n l : movableb vc n l = true -> movable vc n l.
Proof.
  unfold movableb. rewrite andb_true_iff, forallb_forall. intros [H1 H2]. split.
  - intros s f Hs%list_elem_of_In Hf. apply travelsb_sound. specialize (H1 s Hs). by rewrite Hf in H1.
  - intros id p r u Hr Hu Hd. apply (all_at_sound _ _ _ _ H2) in Hr.
    apply (all_at_sound _ _ _ _ Hr) in Hu. rewrite bool_decide_eq_false_2 in Hu by done.
    apply orb_true_iff in Hu as [Hu%bool_decide_eq_true|Hu]; [by left|right].
    destruct (vcview vc id p n) as [v|]; [|done]. exists v. split; [done|].
    apply bool_decide_eq_true in Hu. by apply nil_length_inv.
Qed.

Definition spin_readyb (vc : Z) (n : Net.t) (l : list slot) : bool :=
  ring_netb n l && forallb (holdsb vc n) l && movableb vc n l.

Lemma spin_readyb_sound vc n l : spin_readyb vc n l = true -> spin_ready vc n l.
Proof.
  unfold spin_readyb. rewrite !andb_true_iff, forallb_forall. intros [[H1 H2] H3].
  split; [by apply ring_netb_sound| |by apply movableb_sound].
  intros s Hs%list_elem_of_In. by apply holdsb_sound, H2.
Qed.

Definition visits_allb (n : Net.t) (l : list slot) : bool :=
  forallb (fun id => bool_decide (id ∈ map s_id l))
    (range 0 (NetConfig.m_num_rows (Net.cfg n) * NetConfig.m_num_cols (Net.cfg n))).

Lemma visits_allb_sound n l : visits_allb n l = true -> visits_all n l.
Proof.
  unfold visits_allb, visits_all. rewrite forallb_forall. intros H id Hid.
  specialize (H id (proj1 (list_elem_of_In _ _) (proj2 (in_range _ _ _) Hid))).
  apply bool_decide_eq_true, list_elem_of_fmap in H as (s & Hs & Hin). by exists s.
Qed.

Module ReadyExample.
Import Example SpinExample.

(** The slot a node of the ring names. *)
Definition slot_of (n : Net.t) (st : spinStruct.t) : option slot :=
  let id := spinStruct.router_id_ st in
  let d := spinStruct.inport_dir_ st in
  match Net.router id n, hopb (Net.cfg n) id d with
  | Ok r, Some j =>
      p ← RoutingUnit.m_inports_dirn2idx (Router.m_routing_unit r) !! d;
      match Net.router j n with
      | Ok rj =>
          q ← RoutingUnit.m_outports_dirn2idx (Router.m_routing_unit rj) !! opposite d;
          Some (mk_slot id d p j q)
      | Err _ => None
      end
  | _, _ => None
  end.

(** The eight slots of the ring of the 2x2 mesh, two of them with a packet
    in virtual channel 0. *)
Definition ring_slots : list slot :=
  default [] (l ← mapM (slot_of loaded) (Net.spinRing loaded); Some (removelast l)).

Example ready : spin_readyb 0 loaded ring_slots = true.
Proof. vm_compute. reflexivity. Qed.

Definition drainer : Router.t := unwrap (Router.new 0 1 1 2 0) (Net.router 0 loaded).

Lemma all_channels_ready vc : vc ∈ drain_channels (Net.cfg loaded) drainer -> spin_ready vc loaded ring_slots.
Proof.
  assert (forallb (fun vc => spin_readyb vc loaded ring_slots) (drain_channels (Net.cfg loaded) drainer) = true)
    as H by (vm_compute; reflexivity).
  intros Hvc%list_elem_of_In. apply spin_readyb_sound. by apply (proj1 (forallb_forall _ _) H).
Qed.

(** One drain of the loaded network: the channel 0 of every port is spun
    once, and the packets of the places 0 and 2 are at the places 1 and 3. *)
Lemma drain_spins_total_witness :
  (drain_channels (Net.cfg loaded) drainer = [0] /\ drain_rounds loaded = 1%nat) /\
  exists n', RouterStep.spins drainer loaded = Ok n' /\ same_net loaded n' /\
    (forall vc, vc ∈ drain_channels (Net.cfg loaded) drainer ->
       spin_ready vc n' ring_slots /\ advanced vc ring_slots (drain_rounds loaded) loaded n') /\
    (forall vc, vc ∉ drain_channels (Net.cfg loaded) drainer -> same_vc vc loaded n').
Proof.
  split; [split; vm_compute; reflexivity|].
  apply drain_spins_total; [vm_compute; reflexivity|]. exact all_channels_ready.
Defined.

(** The packet for node 1 starts at the place 2 of the ring, at router 3. *)
Definition start : slot := nth 2 ring_slots (mk_slot 0 "Local" 0 0 0).

Definition traveller : flit.t := default (packet 0 0 0) (content 0 loaded start).

Lemma ring_visits_all : visits_all loaded ring_slots.
Proof. apply visits_allb_sound. vm_compute. reflexivity. Qed.

Lemma spins_reach_destination_witness :
  (RouteInfo.dest_router (flit.m_route traveller) = 1 /\ s_id start = 3) /\
  exists k n' b f', (k < length ring_slots)%nat /\
    foldM (fun _ => RouterStep.drain_vc 0) (range 0 (Z.of_nat k)) loaded = Ok n' /\
    b ∈ ring_slots /\ s_id b = RouteInfo.dest_router (flit.m_route traveller) /\
    content 0 n' b = Some f' /\ travelled k traveller f'.
Proof.
  split; [split; vm_compute; reflexivity|].
  apply (spins_reach_destination 0 loaded ring_slots start).
  - apply spin_readyb_sound. exact ready.
  - exact ring_visits_all.
  - apply (list_elem_of_lookup_2 _ 2%nat). vm_compute. reflexivity.
  - vm_compute. reflexivity.
Defined.

End ReadyExample.
