(* ===== verification/DrainEnd.v ===== *)
(** * The end of a drain

    [do_drain] of [Router::wakeup] runs to its end on ready virtual channels
    when the links are empty: the halt is lifted, the links are checked, the
    channels are spun, the flits get their new times, and the lock is
    released. *)

From S2P Require Import Prelude NetDest Types FlitBuffer Channels ChannelFacts RouterCore MsgBuffer NetState Routing RoutingFacts Network Spin MeshNet RouterStep NI Frames SpinFacts SpinReady DrainSpins.

#[local] Abbreviation buf v := (flitBuffer.m_buffer (VirtualChannel.m_input_buffer v)).

(** ** Results that agree *)

Definition agree {A B} (R : A -> B -> Prop) (a : Res A) (b : Res B) : Prop :=
  match a, b with
  | Ok x, Ok y => R x y
  | Err _, Err _ => True
  | _, _ => False
  end.

Lemma agree_bind {A B C D} (R : A -> B -> Prop) (S : C -> D -> Prop) a b (f : A -> Res C) (g : B -> Res D) :
  agree R a b -> (forall x y, R x y -> agree S (f x) (g y)) -> agree S (mbind f a) (mbind g b).
Proof. destruct a, b; cbn; intros H Hf; [by apply Hf|done..]. Qed.

Lemma agree_Forall2 {A B} (R : A -> B -> Prop) l k i : Forall2 R l k -> agree R (vec_at l i) (vec_at k i).
Proof.
  intros HF. unfold vec_at. case_decide; [|done].
  destruct (l !! Z.to_nat i) as [x|] eqn:Hx.
  - by destruct (Forall2_lookup_l _ _ _ _ _ HF Hx) as (y & -> & ?).
  - rewrite (proj2 (eq_None_not_Some _)); [done|]. intros [y Hy].
    destruct (Forall2_lookup_r _ _ _ _ _ HF Hy) as (x & Hx' & _). congruence.
Qed.

Lemma mapM_total {A B} (f : A -> Res B) (R : A -> B -> Prop) l :
  (forall i x, vec_at l i = Ok x -> exists y, f x = Ok y /\ R x y) ->
  exists k, mapM f l = Ok k /\ Forall2 R l k.
Proof.
  intros H. assert (forall x, x ∈ l -> exists y, f x = Ok y /\ R x y) as H'.
  { intros x [i Hi]%list_elem_of_lookup. apply (H (Z.of_nat i)). by apply vec_at_nat. }
  clear H. induction l as [|x l IH]; [by exists []|].
  destruct (H' x) as (y & Hy & HR); [by left|].
  destruct IH as (k & Hk & HF); [intros; apply H'; by right|].
  exists (y :: k). cbn. rewrite Hy. cbn. rewrite Hk. cbn. split; [done|by constructor].
Qed.

Lemma vec_at_Err {A} (l : list A) i e : vec_at l i = Err e -> e = OutOfRange "vector".
Proof. unfold vec_at. case_decide; [destruct (l !! _)|]; congruence. Qed.

(** ** Updates that a ready channel does not notice *)

(** The parts of a router that a spin looks at are the same. *)
Definition same_parts (r r' : Router.t) : Prop :=
  shape r' = shape r /\ Router.m_input_unit r' = Router.m_input_unit r /\
  Router.m_output_unit r' = Router.m_output_unit r.

Lemma agree_at {A B} (R : A -> B -> Prop) a b x : agree R a b -> a = Ok x -> exists y, b = Ok y /\ R x y.
Proof. intros H ->. destruct b as [y|]; [by exists y|done]. Qed.

Lemma parts_untouched w n n' : Forall2 same_parts (Net.m_routers n) (Net.m_routers n') ->
  Net.cfg n' = Net.cfg n -> Net.curCycle n' = Net.curCycle n -> Net.spinRing n' = Net.spinRing n ->
  untouched w n n'.
Proof.
  intros HF Hcfg Hcyc Hring. split; [split_and!; [done..|]| |by rewrite Hring].
  - induction HF as [|r r' l l' (Hs & _) _ IH]; cbn; [done|]. by rewrite Hs, IH.
  - assert (forall id, agree same_parts (Net.router id n) (Net.router id n')) as Hr
      by (intros id; by apply agree_Forall2).
    split.
    + intros id p. unfold vcview, Spin.input. specialize (Hr id).
      destruct (Net.router id n) as [r|e] eqn:E1, (Net.router id n') as [r'|e'] eqn:E2; cbn in *; [|done..|].
      * destruct Hr as (_ & -> & _). done.
      * by rewrite (vec_at_Err _ _ _ E1), (vec_at_Err _ _ _ E2).
    + intros j q. unfold cview. specialize (Hr j).
      destruct (Net.router j n) as [r|e] eqn:E1, (Net.router j n') as [r'|e'] eqn:E2; cbn in *; [|done..|].
      * destruct Hr as (_ & _ & ->). done.
      * by rewrite (vec_at_Err _ _ _ E1), (vec_at_Err _ _ _ E2).
Qed.

Lemma set_halt_untouched w b n : untouched w n (GarnetNetwork.set_halt b n).
Proof. apply parts_untouched; [|done..]. cbn. apply Forall2_fmap_r. by apply Forall_Forall2_diag, Forall_forall. Qed.

Lemma set_halt_router b n id r : Net.router id n = Ok r ->
  Net.router id (GarnetNetwork.set_halt b n) = Ok (Router.set_halt_ b r).
Proof. intros Hr. unfold Net.router. cbn. by apply vec_at_map. Qed.

(** The check of the links looks at the output ports and the links only. *)
Lemma set_halt_links b n : GarnetNetwork.chck_link_state (GarnetNetwork.set_halt b n) = GarnetNetwork.chck_link_state n.
Proof.
  unfold GarnetNetwork.chck_link_state. cbn. generalize true as s. generalize (Net.m_routers n) as l.
  induction l as [|r l IH]; intros s; cbn; [done|].
  change (GarnetNetwork.router_links_empty (Router.set_halt_ b r) (Net.net_links n) s)
    with (GarnetNetwork.router_links_empty r (Net.net_links n) s).
  destruct (GarnetNetwork.router_links_empty _ _ _); cbn; [apply IH|done].
Qed.

(** The flag that the assertion of router [id] sets is overwritten. *)
Lemma lift_halt n id r : Net.router id n = Ok r ->
  exists n1, Net.upd_router id (fun r => Ok (Router.set_halt_ true r)) n = Ok n1 /\
    Net.router id n1 = Ok (Router.set_halt_ true r) /\
    GarnetNetwork.set_halt false n1 = GarnetNetwork.set_halt false n.
Proof.
  intros Hr. eexists. split; [by apply (upd_router_Ok n id _ r (Router.set_halt_ true r))|]. split.
  - unfold Net.router. cbn. by rewrite (vec_at_replace _ _ _ r), decide_True.
  - unfold GarnetNetwork.set_halt. cbn. unfold Net.set_routers. cbn. f_equal.
    apply vec_at_Ok in Hr as [_ Hr]. by apply (map_insert_same _ _ _ r).
Qed.

(** ** New times for the flits *)

(** The same flit but for its stage. *)
Definition restage (f f' : flit.t) : Prop := f' = f \/ exists s t, f' = flit.advance_stage s t f.

Definition channel_restaged (v v' : VirtualChannel.t) : Prop :=
  VirtualChannel.get_state v' = VirtualChannel.get_state v /\ Forall2 restage (buf v) (buf v').

Record restaged (n n' : Net.t) : Prop := {
  rg_net : same_net n n';
  rg_ring : Net.spinRing n' = Net.spinRing n;
  rg_credits : forall w j q, cview w j q n' = cview w j q n;
  rg_vcs : forall w id p, agree channel_restaged (vcview w id p n) (vcview w id p n')
}.

(** Every input port has virtual channel [vc]. *)
Definition has_channel (vc : Z) (n : Net.t) : Prop :=
  forall id p r u, Net.router id n = Ok r -> vec_at (Router.m_input_unit r) p = Ok u ->
    0 <= vc < zlen (InputUnit.m_vcs u).

Lemma restage_refl f : restage f f.
Proof. by left. Qed.

Lemma Forall2_same {A} (R : A -> A -> Prop) l : (forall x, R x x) -> Forall2 R l l.
Proof. intros H. by apply Forall_Forall2_diag, Forall_forall. Qed.

Lemma channel_refl v : channel_restaged v v.
Proof. split; [done|]. apply Forall2_same, restage_refl. Qed.

Lemma restage_trans f1 f2 f3 : restage f1 f2 -> restage f2 f3 -> restage f1 f3.
Proof. intros [->|(s & t & ->)] [->|(s' & t' & ->)]; [by left|right; eauto..]. Qed.

Lemma Forall2_compose {A} (R : A -> A -> Prop) l1 l2 l3 :
  (forall x y z, R x y -> R y z -> R x z) -> Forall2 R l1 l2 -> Forall2 R l2 l3 -> Forall2 R l1 l3.
Proof.
  intros HR H. revert l3. induction H as [|x y l l' Hxy _ IH]; intros l3 H3; inversion H3; subst;
    constructor; eauto.
Qed.

Lemma restaged_refl n : restaged n n.
Proof.
  split; [reflexivity|done|done|]. intros w id p. destruct (vcview w id p n); cbn; [apply channel_refl|done].
Qed.

Lemma restaged_trans n1 n2 n3 : restaged n1 n2 -> restaged n2 n3 -> restaged n1 n3.
Proof.
  intros [A1 A2 A3 A4] [B1 B2 B3 B4]. split; [by etransitivity|congruence|intros; by rewrite B3, A3|].
  intros w id p. specialize (A4 w id p). specialize (B4 w id p).
  destruct (vcview w id p n1), (vcview w id p n2), (vcview w id p n3); cbn in *; try done.
  destruct A4 as [A4 A5], B4 as [B4 B5]. split; [congruence|].
  eapply Forall2_compose; [exact restage_trans|exact A5|exact B5].
Qed.

Lemma has_channel_same vc n n' : same_net n n' -> has_channel vc n -> has_channel vc n'.
Proof.
  intros Hs H id p r' u' Hr' Hu'. destruct (same_router _ _ Hs id r' Hr') as (r & Hr & E).
  injection E as _ _ E3 _. destruct (map_eq_at _ _ _ _ _ E3 Hu') as (u & Hu & Eu).
  injection Eu as _ _ _ Ed. unfold zlen. rewrite Ed. by apply (H id p r u).
Qed.

(** [set_flit_time] on an input port, a router and the network. *)
Definition port_restaged (u u' : InputUnit.t) : Prop :=
  shape_in u' = shape_in u /\ Forall2 channel_restaged (InputUnit.m_vcs u) (InputUnit.m_vcs u').

Lemma port_refl u : port_restaged u u.
Proof. split; [done|]. apply Forall2_same, channel_refl. Qed.

Lemma Forall2_insert_same {A} (R : A -> A -> Prop) l i x y :
  (forall x, R x x) -> l !! i = Some x -> R x y -> Forall2 R l (<[i := y]> l).
Proof.
  intros Hrefl Hi Hxy. rewrite <- (list_insert_id l i x Hi) at 1.
  apply Forall2_insert; [by apply Forall2_same|done].
Qed.

Lemma set_flit_time_port_Ok vc time u : 0 <= vc < zlen (InputUnit.m_vcs u) ->
  exists u', GarnetNetwork.set_flit_time_port vc time u = Ok u' /\ port_restaged u u'.
Proof.
  intros Hvc. unfold GarnetNetwork.set_flit_time_port, InputUnit.vc_isEmpty.
  destruct (vec_at_total _ _ Hvc) as [v Hv]. rewrite Hv. cbn [mbind Res_bind].
  destruct (_ && _); [|by exists u; split; [|apply port_refl]].
  unfold InputUnit.update_top, InputUnit.upd_vc. set (g := flit.advance_stage SA_ time).
  rewrite (vec_upd_Ok _ _ (fun v => Ok (VirtualChannel.update_top g v)) v (VirtualChannel.update_top g v)) by done.
  cbn [mbind Res_bind]. eexists. split; [done|]. split.
  - unfold shape_in. cbn. by rewrite length_insert.
  - cbn. apply vec_at_Ok in Hv as [_ Hv]. apply (Forall2_insert_same _ _ _ v); [apply channel_refl|done|].
    split; [done|]. unfold VirtualChannel.update_top, flitBuffer.update_top. cbn.
    destruct (buf v) as [|f l] eqn:Hb; cbn; [by rewrite Hb|].
    constructor; [right; by eexists _, _|]. apply Forall2_same, restage_refl.
Qed.

Lemma set_flit_time_Ok vc n : has_channel vc n ->
  exists n', GarnetNetwork.set_flit_time vc n = Ok n' /\ restaged n n' /\ Net.cfg n' = Net.cfg n.
Proof.
  intros Hvc. unfold GarnetNetwork.set_flit_time.
  set (time := _ + _). set (R := fun r r' : Router.t =>
    shape r' = shape r /\ Forall2 port_restaged (Router.m_input_unit r) (Router.m_input_unit r') /\
    Router.m_output_unit r' = Router.m_output_unit r).
  destruct (mapM_total (fun r => us ← mapM (GarnetNetwork.set_flit_time_port vc time) (Router.m_input_unit r);
              Ok (Router.set_inputs us r)) R (Net.m_routers n)) as (rs & Hrs & HF).
  { intros id r Hr.
    destruct (mapM_total (GarnetNetwork.set_flit_time_port vc time) port_restaged (Router.m_input_unit r))
      as (us & Hus & HFu).
    { intros p u Hu. apply set_flit_time_port_Ok. by eapply Hvc. }
    rewrite Hus. cbn [mbind Res_bind]. eexists. split; [done|]. split; [|by split].
    unfold shape. cbn. f_equal. f_equal. clear Hus.
    induction HFu as [|u u' l l' [Hu _] _ IH]; cbn; [done|]. by rewrite Hu, IH. }
  rewrite Hrs. cbn [mbind Res_bind]. eexists. split; [done|]. split; [|done].
  assert (forall id, agree R (Net.router id n) (vec_at rs id)) as Hr by (intros id; by apply agree_Forall2).
  split; [split_and!; [done..|]|done| |].
  - cbn. clear Hr Hrs. induction HF as [|r r' l l' (Hs & _) _ IH]; cbn; [done|]. by rewrite Hs, IH.
  - intros w j q. unfold cview. change (Net.router j (Net.set_routers rs n)) with (vec_at rs j).
    specialize (Hr j). destruct (Net.router j n) as [r|e] eqn:E1, (vec_at rs j) as [r'|e'] eqn:E2; cbn in *;
      [|done..|by rewrite (vec_at_Err _ _ _ E1), (vec_at_Err _ _ _ E2)].
    by destruct Hr as (_ & _ & ->).
  - intros w id p. unfold vcview, Spin.input. change (Net.router id (Net.set_routers rs n)) with (vec_at rs id).
    apply (agree_bind port_restaged); [|intros u u' [_ Hu]; by apply agree_Forall2].
    apply (agree_bind R); [apply Hr|]. intros r r' (_ & Hi & _). by apply agree_Forall2.
Qed.

Lemma set_flit_times_Ok vcs n : (forall vc, vc ∈ vcs -> has_channel vc n) ->
  exists n', foldM GarnetNetwork.set_flit_time vcs n = Ok n' /\ restaged n n'.
Proof.
  revert n. induction vcs as [|vc vcs IH]; intros n H; cbn [foldM].
  { exists n. split; [done|apply restaged_refl]. }
  destruct (set_flit_time_Ok vc n) as (n1 & -> & R1 & _); [apply H; by left|]. cbn [mbind Res_bind].
  destruct (IH n1) as (n2 & -> & R2).
  { intros w Hw. eapply has_channel_same; [apply R1|]. apply H. by right. }
  exists n2. split; [done|]. by eapply restaged_trans.
Qed.

(** ** Ready channels stay ready *)

Lemma restaged_holds w n n' s o : restaged n n' -> holds w n s o ->
  exists o', holds w n' s o' /\ option_Forall2 restage o o'.
Proof.
  intros [_ _ Hc Hv] (v & c & Hv0 & Hc0 & Hmax & Ho). specialize (Hv w (s_id s) (s_in s)).
  destruct (agree_at _ _ _ _ Hv Hv0) as (v' & Hv' & Hst & HF).
  assert (cview w (s_up s) (s_out s) n' = Ok c) as Hc' by (by rewrite Hc).
  destruct o as [f|].
  - destruct Ho as [Hb Hcount]. rewrite Hb in HF.
    apply Forall2_cons_inv_l in HF as (f' & l & Hf & HF%Forall2_nil_inv_l & Hb'). subst l.
    exists (Some f'). split; [|by constructor]. by exists v', c.
  - destruct Ho as (Hb & Hi & Hcount). rewrite Hb in HF. apply Forall2_nil_inv_l in HF.
    exists None. split; [|constructor]. exists v', c. split_and!; [done..|congruence|done].
Qed.

Lemma restage_travels n l f f' : restage f f' -> travels n l f -> travels n l f'.
Proof. by intros [->|(s & t & ->)] []; split. Qed.

Lemma restage_travelled k f f1 f' : travelled k f f1 -> restage f1 f' -> travelled k f f'.
Proof. by intros H [->|(s & t & ->)]. Qed.

Lemma restaged_ready w n n' l : restaged n n' -> spin_ready w n l -> spin_ready w n' l.
Proof.
  intros Hrs Hn. pose proof Hrs as [Hnet Hring _ Hv]. split; [|intros s Hs|split].
  - eapply same_ring_net; [exact Hnet|by rewrite Hring|apply Hn].
  - destruct (restaged_holds w n n' s _ Hrs (sr_holds _ _ _ Hn s Hs)) as (o' & Ho' & _).
    by rewrite (holds_content _ _ _ _ Ho').
  - intros s f' Hs Hf'. destruct (restaged_holds w n n' s _ Hrs (sr_holds _ _ _ Hn s Hs)) as (o' & Ho' & HF).
    rewrite (holds_content _ _ _ _ Ho') in Hf'. subst o'. inversion HF as [f ? Hff' Ef|]; subst.
    eapply travels_same; [exact Hnet|]. eapply restage_travels; [exact Hff'|].
    by eapply (sr_travels _ _ _ Hn s).
  - intros id p r' u' Hr' Hu' Hd. destruct (same_router _ _ Hnet id r' Hr') as (r & Hr & E).
    injection E as _ _ E3 _. destruct (map_eq_at _ _ _ _ _ E3 Hu') as (u & Hu & Eu). injection Eu as _ Eb _ _.
    destruct (sr_cover _ _ _ Hn id p r u Hr Hu) as [|(v & Hv0 & Hb)]; [congruence|by left|right].
    destruct (agree_at _ _ _ _ (Hv w id p) Hv0) as (v' & Hv' & _ & HF). exists v'. split; [done|].
    rewrite Hb in HF. by apply Forall2_nil_inv_l in HF.
Qed.

Lemma restaged_advanced w l k n n1 n' : advanced w l k n n1 -> restaged n1 n' -> advanced w l k n n'.
Proof.
  intros Ha Hrs i a b Hi Hj. destruct (Ha i a b Hi Hj) as (fs & fs1 & H1 & H2 & HF).
  unfold at_slot in H2 |- *. cbn [key fst snd] in *. inv_bind H2. simplify_res.
  destruct (agree_at _ _ _ _ (rg_vcs _ _ Hrs w (s_id b) (s_in b)) E) as (v' & -> & _ & HF').
  cbn [mbind Res_bind]. exists fs, (buf v'). split_and!; [done..|].
  clear - HF HF'. revert HF'. generalize (buf v') as k'. induction HF as [|f f1 fs fs1 Hf _ IH]; intros k' H;
    inversion H; subst; constructor; eauto using restage_travelled.
Qed.

(** ** [do_drain] *)

Lemma scheduleAll_evq k n : exists q, GarnetNetwork.scheduleAll_wakeup k n = Net.set_evq q n.
Proof.
  unfold GarnetNetwork.scheduleAll_wakeup. generalize (Net.m_routers n) as rs. intros rs.
  assert (exists q, n = Net.set_evq q n) as Hq by (exists (Net.evq n); by destruct n).
  revert Hq. generalize n at 1 3. intros m. revert m. induction rs as [|r rs IH]; intros m [q ->]; cbn [fold_left].
  - by exists q.
  - apply IH. unfold Net.schedule. by eexists.
Qed.

Lemma do_drain_total id n r l :
  Net.router id n = Ok r -> 0 < Router.m_vc_per_vnet r ->
  GarnetNetwork.chck_link_state n = Ok true ->
  (forall vc, vc ∈ RouterStep.drained_vcs (Net.cfg n) r -> has_channel vc n) ->
  (forall vc, vc ∈ drain_channels (Net.cfg n) r -> spin_ready vc n l) ->
  exists n', RouterStep.do_drain id n = Ok n' /\ Net.lock n' = -1 /\
    forall vc, vc ∈ drain_channels (Net.cfg n) r ->
      spin_ready vc n' l /\ advanced vc l (drain_rounds n) n n'.
Proof.
  intros Hr Hpos Hlinks Hchan Hready. set (n2 := GarnetNetwork.set_halt false n).
  assert (forall w, untouched w n n2) as U by (intros w; apply set_halt_untouched).
  destruct (lift_halt n id r Hr) as (n1 & Hn1 & Hr1 & Hhalt).
  unfold RouterStep.do_drain. rewrite Hn1. cbn [mbind Res_bind]. rewrite Hr1. cbn [mbind Res_bind].
  change (Router.halt_ (Router.set_halt_ true r)) with true. cbv iota zeta. rewrite Hhalt.
  fold n2. assert (GarnetNetwork.chck_link_state n2 = Ok true) as -> by (unfold n2; by rewrite set_halt_links).
  cbn [assert_ mbind Res_bind].
  destruct (drain_spins_total n2 (Router.set_halt_ true r) l Hpos) as (n3 & -> & Hnet & Hspun & _).
  { intros vc Hvc. eapply untouched_ready; [apply U|]. by apply Hready. }
  cbn [mbind Res_bind].
  assert (Net.cfg n3 = Net.cfg n) as Ec by (by destruct Hnet as [-> _]). rewrite Ec.
  destruct (set_flit_times_Ok (RouterStep.drained_vcs (Net.cfg n) (Router.set_halt_ true r)) n3)
    as (n4 & -> & Hrs).
  { intros vc Hvc. eapply has_channel_same; [exact Hnet|].
    eapply has_channel_same; [apply (un_net _ _ _ (U vc))|]. by apply Hchan. }
  cbn [mbind Res_bind]. set (n5 := GarnetNetwork.schedule_wakeup 3 _).
  destruct (scheduleAll_evq (u32 (2 * NetConfig.m_spin_mult (Net.cfg n5))) n5) as [q ->].
  eexists. split; [done|]. split; [done|]. intros vc Hvc.
  set (n6 := Net.set_evq q n5). assert (untouched vc n4 n6) as U6 by (by apply untouched_same_views).
  destruct (Hspun vc Hvc) as [Hr3 Hadv]. split.
  - eapply untouched_ready; [exact U6|]. by eapply restaged_ready.
  - apply (restaged_advanced _ _ _ _ _ n4) in Hadv; [|done]. intros i a b Ha Hb.
    destruct (Hadv i a b Ha Hb) as (fs & fs' & H1 & H2 & HF). exists fs, fs'.
    rewrite (untouched_at vc n4 n6) by apply U6. rewrite <- (untouched_at vc n n2) by apply U. done.
Qed.
