(* ===== verification/RingFacts.v ===== *)
(** * The spin file: theorems

    A spin file that lists the nodes of a ring in order, each as its router
    and the letter of its input direction, without white space at its end,
    is read back as that ring, closed at router 0; white space at its end
    makes the same file fatal. *)

From S2P Require Import Prelude NetDest Types FlitBuffer Channels RouterCore MsgBuffer NetState Routing Network Spin.
From stdpp Require Import pretty.
From Stdlib Require Import Ascii.

Open Scope Z_scope.

(** ** Printing a ring *)

(** The letter of a direction. *)
Definition letter (d : PortDirection) : string :=
  if bool_decide (d = "North") then "N"
  else if bool_decide (d = "East") then "E"
  else if bool_decide (d = "South") then "S"
  else "W".

(** The decimal numeral of a router. *)
Definition numeral (id : Z) : string := pretty (Z.to_N id).

(** The tokens of a file that lists the nodes. *)
Definition print_ring (nodes : list spinStruct.t) : list string :=
  flat_map (fun s => [numeral (spinStruct.router_id_ s); letter (spinStruct.inport_dir_ s)]) nodes.

Definition mesh_directions : list PortDirection := ["North"; "East"; "South"; "West"].

(** A node a file can hold: an [int] that is a router, a direction of the
    mesh, and no flit yet. *)
Definition node_ok (s : spinStruct.t) : Prop :=
  0 <= spinStruct.router_id_ s < 2 ^ 31 /\ spinStruct.inport_dir_ s ∈ mesh_directions /\
  spinStruct.flit_ s = None.

#[export] Instance node_ok_dec s : Decision (node_ok s).
Proof. unfold node_ok. apply _. Defined.

(** ** Numerals *)

Lemma digit_char (x : N) : (x < 10)%N -> Stoi.digit (pretty_N_char x) = Some (Z.of_N x).
Proof.
  intros H. assert (x ∈ ([0; 1; 2; 3; 4; 5; 6; 7; 8; 9] : list N)%N) as Hx.
  { destruct (decide (x ∈ ([0; 1; 2; 3; 4; 5; 6; 7; 8; 9] : list N)%N)) as [|Hn]; [done|].
    rewrite !not_elem_of_cons in Hn. lia. }
  repeat (apply elem_of_cons in Hx as [->|Hx]; [reflexivity|]). by apply elem_of_nil in Hx.
Qed.

Lemma digits_go (x : N) s : Stoi.digits 0 (pretty_N_go x s) = Stoi.digits (Z.of_N x) s.
Proof.
  revert s. induction (N.lt_wf_0 x) as [x _ IH]. intros s.
  destruct (decide (x = 0)%N) as [->|Hne]; [by rewrite pretty_N_go_0|].
  rewrite pretty_N_go_step by lia. rewrite IH by (apply N.div_lt; lia). cbn.
  rewrite digit_char by (apply N.mod_lt; lia). f_equal.
  rewrite N2Z.inj_div, N2Z.inj_mod. cbn. pose proof (Z.div_mod (Z.of_N x) 10). lia.
Qed.

Lemma go_starts (x : N) s :
  Stoi.starts_with_digit s = true \/ (0 < x)%N -> Stoi.starts_with_digit (pretty_N_go x s) = true.
Proof.
  revert s. induction (N.lt_wf_0 x) as [x _ IH]. intros s H.
  destruct (decide (x = 0)%N) as [->|Hne].
  - rewrite pretty_N_go_0. destruct H; [done|lia].
  - rewrite pretty_N_go_step by lia. apply IH; [apply N.div_lt; lia|]. left. cbn.
    by rewrite digit_char by (apply N.mod_lt; lia).
Qed.

Lemma stoi_digits s :
  Stoi.starts_with_digit s = true -> - 2 ^ 31 <= Stoi.digits 0 s < 2 ^ 31 ->
  Stoi.stoi s = Ok (Stoi.digits 0 s).
Proof.
  intros Hs Hb. unfold Stoi.stoi.
  assert ((match s with
           | String "-" s' => (-1, s') | String "+" s' => (1, s') | _ => (1, s)
           end) = (1, s)) as Hsign.
  { destruct s as [|c s']; [done|]. cbn in Hs.
    destruct c as [[] [] [] [] [] [] [] []]; try reflexivity; discriminate Hs. }
  rewrite Hsign, Hs, Z.mul_1_l. cbv zeta. rewrite (proj2 (Z.leb_le _ _)) by lia. cbn [andb].
  by rewrite (proj2 (Z.ltb_lt _ _)) by lia.
Qed.

Lemma stoi_numeral id : 0 <= id < 2 ^ 31 -> Stoi.stoi (numeral id) = Ok id.
Proof.
  intros H. unfold numeral, pretty, pretty_N. case_decide as E.
  - replace id with 0 by lia. reflexivity.
  - rewrite stoi_digits; rewrite ?digits_go; cbn [Stoi.digits].
    + f_equal. lia.
    + apply go_starts. right. lia.
    + lia.
Qed.

Lemma direction_letter d : d ∈ mesh_directions -> SpinRing.direction_name (letter d) = Ok d.
Proof.
  unfold mesh_directions. rewrite !elem_of_cons, elem_of_nil.
  intros [-> | [-> | [-> | [-> | []]]]]; reflexivity.
Qed.

Lemma ring_node_print s :
  node_ok s ->
  SpinRing.ring_node (numeral (spinStruct.router_id_ s)) (letter (spinStruct.inport_dir_ s)) = Ok s.
Proof.
  intros (Hid & Hd & Hf). unfold SpinRing.ring_node.
  rewrite direction_letter by done. cbn. rewrite stoi_numeral by done. cbn.
  destruct s. cbn in *. by subst.
Qed.

(** ** The loop over the file *)

Lemma read_ring_print nodes data data1 :
  nodes <> [] -> Forall node_ok nodes ->
  SpinRing.read_ring false (print_ring nodes) data data1 = Ok nodes.
Proof.
  intros Hne HF. revert data data1 Hne.
  induction HF as [|s nodes Hs HF IH]; intros data data1 Hne; [done|].
  cbn [print_ring flat_map app SpinRing.read_ring]. rewrite ring_node_print by done.
  destruct nodes as [|s' nodes]; [done|].
  change (flat_map _ (s' :: nodes)) with (print_ring (s' :: nodes)).
  remember (print_ring (s' :: nodes)) as toks eqn:Ht. destruct toks; [discriminate Ht|].
  cbn [mbind Res_bind]. rewrite IH by done. done.
Qed.

Lemma read_ring_trailing nodes data data1 :
  nodes <> [] -> Forall node_ok nodes ->
  SpinRing.read_ring true (print_ring nodes) data data1 =
  Err (FatalError "Illegal direction name or format").
Proof.
  intros Hne HF. revert data data1 Hne.
  induction HF as [|s nodes Hs HF IH]; intros data data1 Hne; [done|].
  cbn [print_ring flat_map app SpinRing.read_ring]. rewrite ring_node_print by done.
  destruct nodes as [|s' nodes].
  - cbn [flat_map mbind Res_bind SpinRing.read_ring]. destruct Hs as (_ & Hd & _).
    unfold SpinRing.ring_node. revert Hd. unfold mesh_directions.
    rewrite !elem_of_cons, elem_of_nil. intros [-> | [-> | [-> | [-> | []]]]]; reflexivity.
  - change (flat_map _ (s' :: nodes)) with (print_ring (s' :: nodes)).
    remember (print_ring (s' :: nodes)) as toks eqn:Ht. destruct toks; [discriminate Ht|].
    cbn [mbind Res_bind]. rewrite IH by done. done.
Qed.

(** ** The claims *)

(** The node that closes the ring after a last node at router [id]. *)
Definition closing_direction (m_num_rows id : Z) : option PortDirection :=
  if id =? 1 then Some "East" else if id =? m_num_rows then Some "North" else None.

(** C38: a file that lists the nodes of a ring, the last of which is at
    router 1 or at router [m_num_rows], and ends with its last token, is read
    as exactly these nodes in that order between two copies of the node of
    router 0, whose direction is East when the last node is at router 1 and
    North otherwise: printing a ring and reading it gives the ring back. *)
Theorem spin_file_roundtrip (rows : Z) (nodes : list spinStruct.t) (lst : spinStruct.t) (d : PortDirection) :
  Forall node_ok nodes -> last nodes = Some lst ->
  closing_direction rows (spinStruct.router_id_ lst) = Some d ->
  SpinRing.init_spinRing rows (Some (print_ring nodes, false)) =
  Ok (spinStruct.new 0 d :: nodes ++ [spinStruct.new 0 d]).
Proof.
  intros HF Hl Hd. assert (nodes <> []) by (by intros ->). unfold SpinRing.init_spinRing.
  rewrite read_ring_print by done. cbn [mbind Res_bind]. unfold SpinRing.close_ring. rewrite Hl.
  unfold closing_direction in Hd. destruct (_ =? 1); [by simplify_eq|].
  destruct (_ =? rows); by simplify_eq.
Qed.

(** C39: the same file with white space after its last token (a final end
    of line) stops the simulator: the loop tests the end of the file before
    it reads, so it runs once more, finds no token and takes the direction
    name of the last node for a letter. *)
Theorem spin_file_trailing_fatal (rows : Z) (nodes : list spinStruct.t) :
  nodes <> [] -> Forall node_ok nodes ->
  SpinRing.init_spinRing rows (Some (print_ring nodes, true)) =
  Err (FatalError "Illegal direction name or format").
Proof. intros Hne HF. unfold SpinRing.init_spinRing. by rewrite read_ring_trailing. Qed.

Module RingExample.

Definition nodes : list spinStruct.t :=
  [spinStruct.new 2 "South"; spinStruct.new 3 "West"; spinStruct.new 1 "North"].

Lemma nodes_ok : Forall node_ok nodes.
Proof. apply (proj1 (bool_decide_eq_true _)). vm_compute. reflexivity. Qed.

Lemma spin_file_roundtrip_witness :
  print_ring nodes = ["2"; "S"; "3"; "W"; "1"; "N"] /\
  SpinRing.init_spinRing 2 (Some (print_ring nodes, false)) =
  Ok (spinStruct.new 0 "East" :: nodes ++ [spinStruct.new 0 "East"]).
Proof.
  split; [reflexivity|].
  exact (spin_file_roundtrip 2 nodes (spinStruct.new 1 "North") "East" nodes_ok eq_refl eq_refl).
Defined.

Lemma spin_file_trailing_fatal_witness :
  SpinRing.init_spinRing 2 (Some (print_ring nodes, true)) =
  Err (FatalError "Illegal direction name or format").
Proof.
  apply (spin_file_trailing_fatal 2 nodes); [discriminate | exact nodes_ok].
Defined.

End RingExample.
