(* ===== verification/ShippedRings.v ===== *)
(** * The rings shipped with the simulator: theorem

    The spin files spin_configs/SR_16_nodes-connectivity_matrix_0-links_removed_0.txt
    and SR_64_nodes-connectivity_matrix_0-links_removed_0.txt are the rings of
    the full 4x4 and 8x8 meshes. [init_spinRing] reads them as closed tours
    that use every directed link of the mesh exactly once, which is what the
    drain relies on to reach every packet. *)

From S2P Require Import Prelude NetDest Types FlitBuffer Channels RouterCore MsgBuffer NetState Routing Network Spin.

(** The tokens of the files, neither of which ends in white space. *)
Definition SR_16 : list string :=
  ["1"; "W"; "0"; "E"; "4"; "S"; "5"; "W"; "1"; "N"; "2"; "W"; "1"; "E"; "5"; "S"; "4"; "E";
   "8"; "S"; "9"; "W"; "5"; "N"; "6"; "W"; "2"; "N"; "3"; "W"; "2"; "E"; "6"; "S"; "5"; "E";
   "9"; "S"; "8"; "E"; "12"; "S"; "13"; "W"; "9"; "N"; "10"; "W"; "6"; "N"; "7"; "W"; "3"; "N";
   "7"; "S"; "6"; "E"; "10"; "S"; "9"; "E"; "13"; "S"; "14"; "W"; "10"; "N"; "11"; "W"; "7";
   "N"; "11"; "S"; "10"; "E"; "14"; "S"; "15"; "W"; "11"; "N"; "15"; "S"; "14"; "E"; "13"; "E";
   "12"; "E"; "8"; "N"; "4"; "N"].

Definition SR_64 : list string :=
  ["1"; "W"; "0"; "E"; "8"; "S"; "9"; "W"; "1"; "N"; "2"; "W"; "1"; "E"; "9"; "S"; "8"; "E";
   "16"; "S"; "17"; "W"; "9"; "N"; "10"; "W"; "2"; "N"; "3"; "W"; "2"; "E"; "10"; "S"; "9";
   "E"; "17"; "S"; "16"; "E"; "24"; "S"; "25"; "W"; "17"; "N"; "18"; "W"; "10"; "N"; "11"; "W";
   "3"; "N"; "4"; "W"; "3"; "E"; "11"; "S"; "10"; "E"; "18"; "S"; "17"; "E"; "25"; "S"; "24";
   "E"; "32"; "S"; "33"; "W"; "25"; "N"; "26"; "W"; "18"; "N"; "19"; "W"; "11"; "N"; "12"; "W";
   "4"; "N"; "5"; "W"; "4"; "E"; "12"; "S"; "11"; "E"; "19"; "S"; "18"; "E"; "26"; "S"; "25";
   "E"; "33"; "S"; "32"; "E"; "40"; "S"; "41"; "W"; "33"; "N"; "34"; "W"; "26"; "N"; "27"; "W";
   "19"; "N"; "20"; "W"; "12"; "N"; "13"; "W"; "5"; "N"; "6"; "W"; "5"; "E"; "13"; "S"; "12";
   "E"; "20"; "S"; "19"; "E"; "27"; "S"; "26"; "E"; "34"; "S"; "33"; "E"; "41"; "S"; "40"; "E";
   "48"; "S"; "49"; "W"; "41"; "N"; "42"; "W"; "34"; "N"; "35"; "W"; "27"; "N"; "28"; "W";
   "20"; "N"; "21"; "W"; "13"; "N"; "14"; "W"; "6"; "N"; "7"; "W"; "6"; "E"; "14"; "S"; "13";
   "E"; "21"; "S"; "20"; "E"; "28"; "S"; "27"; "E"; "35"; "S"; "34"; "E"; "42"; "S"; "41"; "E";
   "49"; "S"; "48"; "E"; "56"; "S"; "57"; "W"; "49"; "N"; "50"; "W"; "42"; "N"; "43"; "W";
   "35"; "N"; "36"; "W"; "28"; "N"; "29"; "W"; "21"; "N"; "22"; "W"; "14"; "N"; "15"; "W"; "7";
   "N"; "15"; "S"; "14"; "E"; "22"; "S"; "21"; "E"; "29"; "S"; "28"; "E"; "36"; "S"; "35"; "E";
   "43"; "S"; "42"; "E"; "50"; "S"; "49"; "E"; "57"; "S"; "58"; "W"; "50"; "N"; "51"; "W";
   "43"; "N"; "44"; "W"; "36"; "N"; "37"; "W"; "29"; "N"; "30"; "W"; "22"; "N"; "23"; "W";
   "15"; "N"; "23"; "S"; "22"; "E"; "30"; "S"; "29"; "E"; "37"; "S"; "36"; "E"; "44"; "S";
   "43"; "E"; "51"; "S"; "50"; "E"; "58"; "S"; "59"; "W"; "51"; "N"; "52"; "W"; "44"; "N";
   "45"; "W"; "37"; "N"; "38"; "W"; "30"; "N"; "31"; "W"; "23"; "N"; "31"; "S"; "30"; "E";
   "38"; "S"; "37"; "E"; "45"; "S"; "44"; "E"; "52"; "S"; "51"; "E"; "59"; "S"; "60"; "W";
   "52"; "N"; "53"; "W"; "45"; "N"; "46"; "W"; "38"; "N"; "39"; "W"; "31"; "N"; "39"; "S";
   "38"; "E"; "46"; "S"; "45"; "E"; "53"; "S"; "52"; "E"; "60"; "S"; "61"; "W"; "53"; "N";
   "54"; "W"; "46"; "N"; "47"; "W"; "39"; "N"; "47"; "S"; "46"; "E"; "54"; "S"; "53"; "E";
   "61"; "S"; "62"; "W"; "54"; "N"; "55"; "W"; "47"; "N"; "55"; "S"; "54"; "E"; "62"; "S";
   "63"; "W"; "55"; "N"; "63"; "S"; "62"; "E"; "61"; "E"; "60"; "E"; "59"; "E"; "58"; "E";
   "57"; "E"; "56"; "E"; "48"; "N"; "40"; "N"; "32"; "N"; "24"; "N"; "16"; "N"; "8"; "N"].

(** ** Tours *)

(** The input ports of the routers of a mesh that have a link: those with a
    neighbour in their direction. *)
Definition has_link (rows cols r : Z) (d : PortDirection) : bool :=
  if bool_decide (d = "East") then r mod cols + 1 <? cols
  else if bool_decide (d = "West") then 0 <? r mod cols
  else if bool_decide (d = "North") then r / cols + 1 <? rows
  else if bool_decide (d = "South") then 0 <? r / cols
  else false.

Definition mesh_links (rows cols : Z) : list (Z * PortDirection) :=
  filter (fun p => has_link rows cols p.1 p.2 = true)
    (r ← range 0 (rows * cols); d ← ["East"; "West"; "North"; "South"]; [(r, d)]).

Definition slot (s : spinStruct.t) : Z * PortDirection := (spinStruct.router_id_ s, spinStruct.inport_dir_ s).

(** The input port of [b] is fed by the router of [a]. *)
Definition follows (cols : Z) (a b : spinStruct.t) : Prop :=
  match Mesh.get_upstreamId cols (spinStruct.inport_dir_ b) (spinStruct.router_id_ b) with
  | Ok r => r = spinStruct.router_id_ a
  | Err _ => False
  end.

#[export] Instance follows_dec cols a b : Decision (follows cols a b).
Proof. unfold follows. destruct (Mesh.get_upstreamId _ _ _); apply _. Defined.

(** A closed walk over the links that uses every link exactly once. *)
Record tour (rows cols : Z) (ring : list spinStruct.t) : Prop := {
  tour_closed : slot <$> head ring = slot <$> last ring;
  tour_linked : Forall (fun p => follows cols p.1 p.2) (zip ring (tail ring));
  tour_covers : map slot (tail ring) ≡ₚ mesh_links rows cols
}.

Definition tourb (rows cols : Z) (ring : list spinStruct.t) : bool :=
  bool_decide (slot <$> head ring = slot <$> last ring) &&
  bool_decide (Forall (fun p => follows cols p.1 p.2) (zip ring (tail ring))) &&
  bool_decide (map slot (tail ring) ≡ₚ mesh_links rows cols).

Lemma tourb_sound rows cols ring : tourb rows cols ring = true -> tour rows cols ring.
Proof.
  unfold tourb. intros H. apply andb_true_iff in H as [[H1 H2]%andb_true_iff H3].
  split; by eapply bool_decide_eq_true_1.
Qed.

(** A file that reads as a tour. *)
Definition reads_as_tour (rows cols : Z) (tokens : list string) : Prop :=
  exists ring, SpinRing.init_spinRing rows (Some (tokens, false)) = Ok ring /\ tour rows cols ring.

Lemma reads_as_tour_check rows cols tokens :
  match SpinRing.init_spinRing rows (Some (tokens, false)) with
  | Ok ring => tourb rows cols ring
  | Err _ => false
  end = true -> reads_as_tour rows cols tokens.
Proof.
  unfold reads_as_tour. destruct (SpinRing.init_spinRing _ _) as [ring|]; [|done].
  intros H%tourb_sound. by exists ring.
Qed.

