(* ===== verification/NIFacts.v ===== *)
(** * Network interfaces: theorems

    The choice of an output virtual channel for a message, the virtual
    network of a virtual channel, the flit an interface sends per cycle, the
    split of multicast messages and the stall queue. *)

From S2P Require Import Prelude NetDest NetDestFacts Types FlitBuffer Channels ChannelFacts RouterCore MsgBuffer NetState Routing RoutingFacts Network Spin Example RouterStep NI Frames AllocFacts.

Import NetworkInterface.

(** ** Choosing an output virtual channel *)

Section CalculateVC.
Context (net : NetConfig.t) (cur vnet : Z).

(** The virtual network exists in the interface, and the allocator points
    into it. *)
Record vnet_ready (ni : NetworkInterface.t) : Prop := {
  vr_vnet : 0 <= vnet;
  vr_vcs : 0 < m_vc_per_vnet ni;
  vr_inside : vnet * m_vc_per_vnet ni + m_vc_per_vnet ni <= zlen (m_out_vc_state ni);
  vr_allocator : exists a, vec_at (m_vc_allocator ni) vnet = Ok a /\ 0 <= a < m_vc_per_vnet ni;
  vr_busy : vnet < zlen (vc_busy_counter ni)
}.

(** Virtual channel [k] of the virtual network is idle. *)
Definition vc_idle (ni : NetworkInterface.t) (k : Z) : Prop :=
  NIState.vc_is_idle cur (vnet * m_vc_per_vnet ni + k) ni = Ok true.

(** What a choice leaves alone. *)
Definition same_queues (ni ni' : NetworkInterface.t) : Prop :=
  exists l b, ni' = set_vc_busy_counter b (set_vc_allocator l ni).

Lemma vc_is_idle_ok ni k :
  vnet_ready ni -> 0 <= k < m_vc_per_vnet ni ->
  exists b, NIState.vc_is_idle cur (vnet * m_vc_per_vnet ni + k) ni = Ok b.
Proof.
  intros [? ? ? ? ?] Hk. unfold NIState.vc_is_idle.
  destruct (vec_at_total (m_out_vc_state ni) (vnet * m_vc_per_vnet ni + k)) as [s ->];
    [nia|]. cbn. eauto.
Qed.

Lemma set_busy_ok ni f :
  vnet_ready ni -> exists b, NIState.set_busy vnet f ni = Ok (set_vc_busy_counter b ni) /\
    vnet_ready (set_vc_busy_counter b ni).
Proof.
  intros [? ? ? ? ?]. unfold NIState.set_busy.
  destruct (vec_at_total (vc_busy_counter ni) vnet) as [x Hx]; [lia|].
  erewrite vec_upd_Ok by done. cbn. eexists. split; [done|]. split; cbn; try done.
  unfold zlen. by rewrite length_insert.
Qed.

(** The allocator after its next step. *)
Lemma allocator_step ni a :
  vnet_ready ni -> vec_at (m_vc_allocator ni) vnet = Ok a -> 0 <= a < m_vc_per_vnet ni ->
  exists l, vec_set (m_vc_allocator ni) vnet (if a + 1 =? m_vc_per_vnet ni then 0 else a + 1) = Ok l /\
    vec_at l vnet = Ok ((a + 1) mod m_vc_per_vnet ni) /\
    vnet_ready (set_vc_allocator l ni).
Proof.
  intros H Ha Hb. pose proof (vec_at_inside _ _ _ Ha) as Hin.
  assert ((if a + 1 =? m_vc_per_vnet ni then 0 else a + 1) = (a + 1) mod m_vc_per_vnet ni) as ->.
  { destruct (Z.eqb_spec (a + 1) (m_vc_per_vnet ni)) as [->|].
    - by rewrite Z.mod_same by lia.
    - rewrite Z.mod_small; lia. }
  eexists. rewrite vec_set_Ok by done. split; [done|].
  assert (vec_at (<[Z.to_nat vnet := (a + 1) mod m_vc_per_vnet ni]> (m_vc_allocator ni)) vnet
    = Ok ((a + 1) mod m_vc_per_vnet ni)) as Hat.
  { eapply vec_at_set_eq. by rewrite vec_set_Ok. }
  split; [exact Hat|]. destruct H. split; cbn; try done.
  exists ((a + 1) mod m_vc_per_vnet ni). split; [exact Hat|]. apply Z.mod_pos_bound. lia.
Qed.

(** The round-robin loop probes the virtual channels cyclically from the
    allocator on. *)
Lemma calculateVC_rr_spec iters ni a :
  vnet_ready ni -> vec_at (m_vc_allocator ni) vnet = Ok a -> 0 <= a < m_vc_per_vnet ni ->
  exists vc ni', NIState.calculateVC_rr cur iters vnet ni = Ok (vc, ni') /\ same_queues ni ni' /\
    vnet_ready ni' /\
    ((vc = -1 /\ forall j, (j < iters)%nat -> ~ vc_idle ni ((a + Z.of_nat j) mod m_vc_per_vnet ni)) \/
     exists j, (j < iters)%nat /\
       vc = vnet * m_vc_per_vnet ni + (a + Z.of_nat j) mod m_vc_per_vnet ni /\
       vc_idle ni ((a + Z.of_nat j) mod m_vc_per_vnet ni) /\
       (forall i, (i < j)%nat -> ~ vc_idle ni ((a + Z.of_nat i) mod m_vc_per_vnet ni)) /\
       vec_at (m_vc_allocator ni') vnet = Ok ((a + Z.of_nat j + 1) mod m_vc_per_vnet ni)).
Proof.
  revert ni a. induction iters as [|iters IH]; intros ni a Hr Ha Hb; cbn [NIState.calculateVC_rr].
  { destruct (set_busy_ok ni (fun x => x + 1) Hr) as (b & -> & Hr'). cbn.
    exists (-1), (set_vc_busy_counter b ni). split; [done|].
    split; [|split; [done|left; split; [done|lia]]].
    exists (m_vc_allocator ni), b. by destruct ni. }
  rewrite Ha. cbn. destruct (allocator_step ni a Hr Ha Hb) as (l & -> & Hl & Hr'). cbn.
  destruct (vc_is_idle_ok (set_vc_allocator l ni) a Hr' Hb) as [[] Hi]; cbn in Hi; rewrite Hi; cbn.
  - destruct (set_busy_ok (set_vc_allocator l ni) (fun _ => 0) Hr') as (b & -> & Hr2). cbn.
    exists (vnet * m_vc_per_vnet ni + a), (set_vc_busy_counter b (set_vc_allocator l ni)).
    split; [done|]. split; [by exists l, b|]. split; [done|]. right. exists 0%nat.
    change (Z.of_nat 0) with 0. rewrite Z.add_0_r, (Z.mod_small a) by lia. split_and!; [lia|done|exact Hi|intros i Hlt; lia|exact Hl].
  - destruct (IH (set_vc_allocator l ni) ((a + 1) mod m_vc_per_vnet ni) Hr' Hl) as (vc & ni' & -> & HS & Hr2 & Hc).
    { apply Z.mod_pos_bound. cbn. lia. }
    exists vc, ni'. split; [done|]. split.
    { destruct HS as (l' & b & ->). by exists l', b. }
    split; [done|].
    assert (~ vc_idle ni (a mod m_vc_per_vnet ni)) as Hna.
    { rewrite Z.mod_small by done. unfold vc_idle. change (NIState.vc_is_idle cur _ ni) with
        (NIState.vc_is_idle cur (vnet * m_vc_per_vnet ni + a) (set_vc_allocator l ni)).
      rewrite Hi. discriminate. }
    assert (forall j, ((a + 1) mod m_vc_per_vnet ni + Z.of_nat j) mod m_vc_per_vnet ni
      = (a + Z.of_nat (S j)) mod m_vc_per_vnet ni) as Hshift.
    { intros j. rewrite Z.add_mod_idemp_l by lia. f_equal. lia. }
    cbn [m_vc_per_vnet set_vc_allocator] in Hc.
    assert (forall i, (forall i', (i' < i)%nat ->
        ~ vc_idle (set_vc_allocator l ni) (((a + 1) mod m_vc_per_vnet ni + Z.of_nat i') mod m_vc_per_vnet ni)) ->
      forall i', (i' < S i)%nat -> ~ vc_idle ni ((a + Z.of_nat i') mod m_vc_per_vnet ni)) as Hprev.
    { intros i Hi' [|i'] Hlt; [by rewrite Z.add_0_r|]. rewrite <- Hshift. apply (Hi' i'). lia. }
    destruct Hc as [[-> Hc] | (j & Hj & -> & Hidle & Hbefore & Hal)].
    + left. split; [done|]. by apply Hprev.
    + right. exists (S j). rewrite <- Hshift. split_and!; [lia|done|exact Hidle|by apply Hprev|].
      rewrite Hal. f_equal. rewrite <- Z.add_assoc, Z.add_mod_idemp_l by lia. f_equal. lia.
Qed.

Lemma calculateVC_fcfs_spec ni :
  vnet_ready ni ->
  exists vc ni', NIState.calculateVC_fcfs cur vnet ni = Ok (vc, ni') /\ same_queues ni ni' /\
    vnet_ready ni' /\
    ((vc = -1 /\ forall k, 0 <= k < m_vc_per_vnet ni -> ~ vc_idle ni k) \/
     exists k, 0 <= k < m_vc_per_vnet ni /\ vc = vnet * m_vc_per_vnet ni + k /\ vc_idle ni k /\
       forall i, 0 <= i < k -> ~ vc_idle ni i).
Proof.
  intros Hr. unfold NIState.calculateVC_fcfs.
  destruct (findM_total (fun k => NIState.vc_is_idle cur (vnet * m_vc_per_vnet ni + k) ni)
    (range 0 (m_vc_per_vnet ni))) as [o Ho].
  { intros k Hk%in_range. by apply vc_is_idle_ok. }
  rewrite Ho. cbn. destruct o as [k|].
  - destruct (set_busy_ok ni (fun _ => 0) Hr) as (b & -> & Hr'). cbn. eexists _, _.
    split; [done|]. split; [exists (m_vc_allocator ni), b; by destruct ni|]. split; [done|]. right.
    exists k. pose proof (findM_Some _ _ _ Ho) as [Hk%in_range Hi]. split_and!; [lia|lia|done|exact Hi|].
    destruct (findM_first _ _ _ Ho) as (l1 & l2 & Hl & HF). intros i Hlt.
    rewrite Forall_forall in HF. assert (i ∈ l1) as Hin.
    { eapply (range_sorted_prefix 0 (m_vc_per_vnet ni)); [exact Hl|lia]. }
    unfold vc_idle. rewrite (HF i Hin). discriminate.
  - destruct (set_busy_ok ni (fun x => x + 1) Hr) as (b & -> & Hr'). cbn. eexists _, _.
    split; [done|]. split; [exists (m_vc_allocator ni), b; by destruct ni|]. split; [done|]. left.
    split; [done|]. intros k Hk. apply findM_None in Ho. rewrite Forall_forall in Ho.
    unfold vc_idle. rewrite (Ho k); [discriminate|]. by apply in_range.
Qed.

(** [calculateVC] always returns when the virtual network exists. It
    returns -1 exactly when no virtual channel of the virtual network is
    idle. Otherwise it returns an idle one: the lowest for [fcfs], and for
    [rr] the first in cyclic order from the allocator, which then points
    behind it, so that a virtual channel is passed over only for ones that
    come before it in the cycle. Nothing but the allocator and the busy
    counter changes. *)
Theorem calculateVC_correct ni :
  vnet_ready ni -> NetConfig.ni_inj net = "rr" \/ NetConfig.ni_inj net = "fcfs" ->
  exists vc ni', NIState.calculateVC net cur vnet ni = Ok (vc, ni') /\ same_queues ni ni' /\
    vnet_ready ni' /\
    ((vc = -1 /\ forall k, 0 <= k < m_vc_per_vnet ni -> ~ vc_idle ni k) \/
     exists k, 0 <= k < m_vc_per_vnet ni /\ vc = vnet * m_vc_per_vnet ni + k /\ vc_idle ni k /\
       (NetConfig.ni_inj net = "fcfs" -> forall i, 0 <= i < k -> ~ vc_idle ni i) /\
       (NetConfig.ni_inj net = "rr" -> exists a, vec_at (m_vc_allocator ni) vnet = Ok a /\
          vec_at (m_vc_allocator ni') vnet = Ok ((k + 1) mod m_vc_per_vnet ni) /\
          forall i, 0 <= i < m_vc_per_vnet ni ->
            (i - a) mod m_vc_per_vnet ni < (k - a) mod m_vc_per_vnet ni -> ~ vc_idle ni i)).
Proof.
  intros Hr [Hinj|Hinj]; unfold NIState.calculateVC; rewrite Hinj.
  - rewrite bool_decide_true by done. destruct (vr_allocator ni Hr) as (a & Ha & Hab).
    destruct (calculateVC_rr_spec (Z.to_nat (m_vc_per_vnet ni)) ni a Hr Ha Hab)
      as (vc & ni' & -> & HS & Hr' & Hc).
    set (v := m_vc_per_vnet ni) in *.
    assert (forall k, 0 <= k < v -> (a + Z.of_nat (Z.to_nat ((k - a) mod v))) mod v = k) as Hpos.
    { intros k Hk. pose proof (Z.mod_pos_bound (k - a) v). rewrite Z2Nat.id by lia.
      rewrite Z.add_mod_idemp_r by lia. replace (a + (k - a)) with k by lia. by apply Z.mod_small. }
    assert (forall k, (Z.to_nat ((k - a) mod v) < Z.to_nat v)%nat) as Hlt.
    { intros k. pose proof (Z.mod_pos_bound (k - a) v). lia. }
    exists vc, ni'. split; [done|]. split; [done|]. split; [done|].
    destruct Hc as [[-> Hc] | (j & Hj & -> & Hidle & Hbefore & Hal)].
    + left. split; [done|]. intros k Hk. rewrite <- (Hpos k Hk). by apply Hc.
    + right. exists ((a + Z.of_nat j) mod v).
      assert (((a + Z.of_nat j) mod v - a) mod v = Z.of_nat j) as Hdist.
      { rewrite Zminus_mod_idemp_l. replace (a + Z.of_nat j - a) with (Z.of_nat j) by lia.
        apply Z.mod_small. lia. }
      split_and!; [apply Z.mod_pos_bound; lia|apply Z.mod_pos_bound; lia|done|done|done|].
      intros _. exists a. split; [done|]. rewrite Hdist, Z.add_mod_idemp_l by lia.
      split; [done|]. intros i Hi Hless. rewrite <- (Hpos i Hi). apply Hbefore.
      pose proof (Z.mod_pos_bound (i - a) v). lia.
  - rewrite bool_decide_false, bool_decide_true by done.
    destruct (calculateVC_fcfs_spec ni Hr) as (vc & ni' & -> & HS & Hr' & Hc).
    exists vc, ni'. split; [done|]. split; [done|]. split; [done|].
    destruct Hc as [Hc | (k & Hk & -> & Hi & Hb)]; [by left|right].
    exists k. split_and!; [lia|lia|done|done|done|done].
Qed.

End CalculateVC.

(** ** The virtual network of a virtual channel *)

(** The interval test of [get_vnet] determines the quotient. *)
Lemma in_vnet v vc i : 0 < v -> i * v <= vc < (i + 1) * v <-> i = vc / v.
Proof.
  intros Hv. split.
  - intros Hi. apply (Z.div_unique vc v i (vc - i * v)); nia.
  - intros ->. pose proof (Z.div_mod vc v). pose proof (Z.mod_pos_bound vc v). nia.
Qed.

(** [get_vnet] is division: it returns [vc / m_vc_per_vnet] for every
    virtual channel of the interface, and is fatal for any other. *)
Theorem get_vnet_is_division ni vc :
  0 < m_vc_per_vnet ni -> 0 <= m_virtual_networks ni ->
  NIState.get_vnet vc ni =
  (if decide (0 <= vc < m_virtual_networks ni * m_vc_per_vnet ni)
   then Ok (vc / m_vc_per_vnet ni) else Err (FatalError "Could not determine vc")).
Proof.
  intros Hv Hn. unfold NIState.get_vnet.
  pose proof (fun i => in_vnet (m_vc_per_vnet ni) vc i Hv) as Hdiv.
  destruct (list_find _ _) as [[k i]|] eqn:Hf.
  - apply list_find_Some in Hf as (Hk & Hi & _). apply list_elem_of_lookup_2, in_range in Hk.
    apply Hdiv in Hi as Hi'. rewrite decide_True by nia. by subst.
  - apply list_find_None in Hf. rewrite Forall_forall in Hf. rewrite decide_False; [done|].
    intros Hb. apply (Hf (vc / m_vc_per_vnet ni)); [|by apply Hdiv].
    apply in_range. split; [apply Z.div_pos; lia|]. apply Z.div_lt_upper_bound; lia.
Qed.

(** ** Sending a flit to the router *)

Section Output.
Context (net : NetConfig.t) (cur : Z).

(** The vectors of the interface have one entry per virtual channel. *)
Record ni_wf (ni : NetworkInterface.t) : Prop := {
  nw_vcs : 0 < m_vc_per_vnet ni;
  nw_num : m_num_vcs ni = m_virtual_networks ni * m_vc_per_vnet ni;
  nw_pos : 0 < m_num_vcs ni;
  nw_out : zlen (m_ni_out_vcs ni) = m_num_vcs ni;
  nw_state : zlen (m_out_vc_state ni) = m_num_vcs ni;
  nw_time : zlen (m_ni_out_vcs_enqueue_time ni) = m_num_vcs ni;
  nw_rr : 0 <= m_vc_round_robin ni < m_num_vcs ni;
  nw_ordered : zlen (NetConfig.m_ordered net) = m_virtual_networks ni
}.

Lemma out_vc_ready_ok ni vc t :
  ni_wf ni -> 0 <= vc < m_num_vcs ni -> exists b, NIState.out_vc_ready vc t ni = Ok b.
Proof.
  intros H Hvc. unfold NIState.out_vc_ready.
  destruct (vec_at_total (m_ni_out_vcs ni) vc) as [q ->]; [rewrite (nw_out ni H); lia|]. cbn.
  apply flitBuffer_isReady_total.
Qed.

Lemma enqueue_time_ok ni vc :
  ni_wf ni -> 0 <= vc < m_num_vcs ni -> exists t, vec_at (m_ni_out_vcs_enqueue_time ni) vc = Ok t.
Proof. intros H Hvc. apply vec_at_total. rewrite (nw_time ni H). lia. Qed.

Lemma vnet_range ni vc :
  ni_wf ni -> 0 <= vc < m_num_vcs ni ->
  0 <= vc / m_vc_per_vnet ni < m_virtual_networks ni /\
  NIState.get_vnet vc ni = Ok (vc / m_vc_per_vnet ni).
Proof.
  intros H Hvc. pose proof (nw_vcs ni H). pose proof (nw_num ni H).
  assert (0 <= vc / m_vc_per_vnet ni < m_virtual_networks ni) as Hr.
  { split; [apply Z.div_pos; lia|]. apply Z.div_lt_upper_bound; lia. }
  split; [done|]. unfold NIState.get_vnet.
  destruct (list_find _ _) as [[k i]|] eqn:Hf.
  - apply list_find_Some in Hf as (_ & Hi & _). f_equal. by apply in_vnet.
  - apply list_find_None in Hf. rewrite Forall_forall in Hf.
    exfalso. apply (Hf (vc / m_vc_per_vnet ni)); [by apply in_range|].
    by apply in_vnet.
Qed.

(** No virtual channel of the same virtual network has a ready flit that was
    enqueued earlier. *)
Definition oldest (ni : NetworkInterface.t) (vc : Z) : Prop :=
  forall w t tw, w / m_vc_per_vnet ni = vc / m_vc_per_vnet ni -> 0 <= w < m_num_vcs ni ->
    NIState.out_vc_ready w cur ni = Ok true ->
    vec_at (m_ni_out_vcs_enqueue_time ni) vc = Ok t ->
    vec_at (m_ni_out_vcs_enqueue_time ni) w = Ok tw -> t <= tw.

Lemma is_candidate_vc_spec ni vc :
  ni_wf ni -> 0 <= vc < m_num_vcs ni ->
  exists b o, NIState.is_candidate_vc net cur vc ni = Ok b /\
    NetConfig.isVNetOrdered (vc / m_vc_per_vnet ni) net = Ok o /\
    (b = true <-> (o = true -> oldest ni vc)).
Proof.
  intros H Hvc. destruct (vnet_range ni vc H Hvc) as [Hr Hg].
  pose proof (nw_vcs ni H) as Hv. pose proof (nw_num ni H) as Hnum.
  unfold NIState.is_candidate_vc. rewrite Hg. cbn.
  destruct (vec_at_total (NetConfig.m_ordered net) (vc / m_vc_per_vnet ni)) as [o Ho];
    [rewrite (nw_ordered ni H); lia|].
  assert (NetConfig.isVNetOrdered (vc / m_vc_per_vnet ni) net = Ok o) as -> by exact Ho. cbn.
  destruct o; [|exists true, false; split_and!; done].
  set (base := vc / m_vc_per_vnet ni * m_vc_per_vnet ni).
  assert (forall k, 0 <= k < m_vc_per_vnet ni -> 0 <= base + k < m_num_vcs ni) as Hbase.
  { intros k Hk. subst base. nia. }
  destruct (enqueue_time_ok ni vc H Hvc) as [t Ht].
  destruct (findM_total (fun vc_offset => r ← NIState.out_vc_ready (base + vc_offset) cur ni;
    if (r : bool) then t1 ← vec_at (m_ni_out_vcs_enqueue_time ni) (base + vc_offset);
      t2 ← vec_at (m_ni_out_vcs_enqueue_time ni) vc; Ok (t1 <? t2) else Ok false)
    (range 0 (m_vc_per_vnet ni))) as [r Hf].
  { intros k Hk%in_range. destruct (out_vc_ready_ok ni (base + k) cur H (Hbase k Hk)) as [[] ->]; cbn; [|eauto].
    destruct (enqueue_time_ok ni (base + k) H (Hbase k Hk)) as [t1 ->]. cbn. rewrite Ht. cbn. eauto. }
  cbn in Hf. rewrite Hf. cbn. eexists _, true. split; [done|]. split; [done|].
  destruct r as [k|]; (split; [intros Hb|intros Hold]).
  - discriminate Hb.
  - exfalso. apply findM_Some in Hf as [Hk%in_range Hk2]. unfold oldest in Hold.
    destruct (NIState.out_vc_ready (base + k) cur ni) as [[]|] eqn:Er; cbn in Hk2; try done.
    destruct (enqueue_time_ok ni (base + k) H (Hbase k Hk)) as [t1 Ht1]. rewrite Ht1, Ht in Hk2.
    cbn in Hk2. injection Hk2 as Hk2. apply Z.ltb_lt in Hk2.
    assert ((base + k) / m_vc_per_vnet ni = vc / m_vc_per_vnet ni) as Hd.
    { subst base. rewrite Z.div_add_l by lia. rewrite (Z.div_small k); lia. }
    pose proof (Hold eq_refl (base + k) t t1 Hd (Hbase k Hk) Er Ht Ht1). lia.
  - intros _ w t' tw Hd Hw Hrdy Ht' Htw. rewrite Ht in Ht'. injection Ht' as <-.
    apply findM_None in Hf. rewrite Forall_forall in Hf.
    assert (base + w mod m_vc_per_vnet ni = w) as Hw'.
    { subst base. rewrite <- Hd. pose proof (Z.div_mod w (m_vc_per_vnet ni)). lia. }
    specialize (Hf (w mod m_vc_per_vnet ni)). rewrite Hw', Hrdy, Htw, Ht in Hf. cbn in Hf.
    assert (Ok (tw <? t) = Ok false) as Hlt.
    { apply Hf, in_range, Z.mod_pos_bound. lia. }
    injection Hlt as Hlt. apply Z.ltb_ge in Hlt. done.
  - done.
Qed.

(** Whether the virtual channel may send, as its three conditions. *)
Lemma may_send_spec ni vc :
  ni_wf ni -> 0 <= vc < m_num_vcs ni ->
  exists b r s o, NIState.may_send net cur vc ni = Ok b /\
    NIState.out_vc_ready vc cur ni = Ok r /\ vec_at (m_out_vc_state ni) vc = Ok s /\
    NetConfig.isVNetOrdered (vc / m_vc_per_vnet ni) net = Ok o /\
    (b = true <-> r = true /\ OutVcState.has_credit s = true /\ (o = true -> oldest ni vc)).
Proof.
  intros H Hvc. unfold NIState.may_send.
  destruct (out_vc_ready_ok ni vc cur H Hvc) as [r ->].
  destruct (vec_at_total (m_out_vc_state ni) vc) as [s Hs]; [rewrite (nw_state ni H); lia|].
  destruct (is_candidate_vc_spec ni vc H Hvc) as (b & o & Hb & Ho & Hiff). cbn.
  destruct r; [|exists false, false, s, o; split_and!; done || (split; [done|by intros [? _]])].
  rewrite Hs. cbn. destruct (OutVcState.has_credit s) eqn:Hc.
  - exists b, true, s, o. split_and!; [done..|]. rewrite Hiff, Hc. tauto.
  - exists false, true, s, o. split_and!; [done..|]. rewrite Hc. split; [done|]. by intros (_ & ? & _).
Qed.

(** One flit leaves virtual channel [vc] for the link. *)
Record sends (vc : Z) (ni ni' : NetworkInterface.t) : Prop := {
  sd_flit : exists f q q' s s', vec_at (m_ni_out_vcs ni) vc = Ok q /\
    flitBuffer.front q = Ok f /\
    m_ni_out_vcs ni' = <[Z.to_nat vc := q']> (m_ni_out_vcs ni) /\
    flitBuffer.m_buffer q ≡ₚ f :: flitBuffer.m_buffer q' /\
    flitBuffer.m_buffer (outFlitQueue ni') ≡ₚ flit.set_time (cur + 1) f :: flitBuffer.m_buffer (outFlitQueue ni) /\
    vec_at (m_out_vc_state ni) vc = Ok s /\
    m_out_vc_state ni' = <[Z.to_nat vc := s']> (m_out_vc_state ni) /\
    OutVcState.m_credit_count s' = OutVcState.m_credit_count s - 1
}.

Lemma send_flit_spec ni vc :
  ni_wf ni -> 0 <= vc < m_num_vcs ni -> NIState.may_send net cur vc ni = Ok true ->
  exists ni', NIState.send_flit cur vc ni = Ok ni' /\ sends vc ni ni' /\
    m_vc_round_robin ni' = m_vc_round_robin ni.
Proof.
  intros H Hvc Hm. destruct (may_send_spec ni vc H Hvc) as (b & r & s & o & Hb & Hr & Hs & _ & Hiff).
  rewrite Hm in Hb. injection Hb as <-. destruct (proj1 Hiff eq_refl) as (-> & Hc & _).
  unfold OutVcState.has_credit in Hc. rewrite Z.gtb_ltb in Hc. apply Z.ltb_lt in Hc.
  unfold NIState.send_flit, NIState.upd_out_vc.
  erewrite (vec_upd_Ok _ _ _ s); [|done|by apply decrement_credit_ok]. cbn.
  unfold NIState.out_vc_ready in Hr. inv_bind Hr. rename a into q.
  destruct (flitBuffer_isReady_true _ _ Hr) as (f & rest & Hf & _).
  destruct (flitBuffer.getTopFlit q) as [[f' q']|] eqn:Hg.
  2:{ unfold flitBuffer.getTopFlit, flitBuffer.front in Hg. by rewrite Hf in Hg. }
  cbn. pose proof (getTopFlit_front _ _ _ Hg) as Hfr.
  rewrite Hg. cbn. rewrite (vec_set_Ok (m_ni_out_vcs ni)) by (rewrite (nw_out ni H); lia). cbn.
  assert (forall ni', m_ni_out_vcs ni' = <[Z.to_nat vc := q']> (m_ni_out_vcs ni) ->
    outFlitQueue ni' = flitBuffer.insert (flit.set_time (cur + 1) f') (outFlitQueue ni) ->
    m_out_vc_state ni' = <[Z.to_nat vc := OutVcState.mk (OutVcState.m_id s) (OutVcState.m_time s)
      (OutVcState.m_vc_state s) (OutVcState.m_credit_count s - 1) (OutVcState.m_max_credit_count s)]>
      (m_out_vc_state ni) -> sends vc ni ni') as Hsends.
  { intros ni' H1 H2 H3. constructor. eexists f', q, q', s, _.
    split_and!; [done|done|done|by apply getTopFlit_Permutation| |done|done|done].
    rewrite H2. apply insert_Permutation. }
  destruct (flit.is_tail _).
  - rewrite (vec_set_Ok (m_ni_out_vcs_enqueue_time ni)) by (rewrite (nw_time ni H); lia). cbn. eexists. split; [done|].
    split; [by apply Hsends|done].
  - eexists. split; [done|]. split; [by apply Hsends|done].
Qed.

Lemma bump_spec n p : 0 <= p < n -> NIState.bump n p = (p + 1) mod n.
Proof.
  intros Hp. unfold NIState.bump. destruct (Z.eqb_spec (p + 1) n) as [->|].
  - rewrite Z.mod_same; lia.
  - rewrite Z.mod_small; lia.
Qed.

(** The loop probes the virtual channels cyclically behind [vc]. *)
Lemma probe_vcs_spec iters vc ni :
  ni_wf ni -> 0 <= vc < m_num_vcs ni ->
  let at_ := fun j : nat => (vc + 1 + Z.of_nat j) mod m_num_vcs ni in
  (NIState.probe_vcs net cur iters vc ni = Ok (ni, false) /\
   forall j, (j < iters)%nat -> NIState.may_send net cur (at_ j) ni = Ok false) \/
  exists j ni', (j < iters)%nat /\ NIState.probe_vcs net cur iters vc ni = Ok (ni', true) /\
    NIState.may_send net cur (at_ j) ni = Ok true /\
    (forall i, (i < j)%nat -> NIState.may_send net cur (at_ i) ni = Ok false) /\
    NIState.send_flit cur (at_ j) ni = Ok ni'.
Proof.
  intros H. revert vc. induction iters as [|iters IH]; intros vc Hvc at_; cbn [NIState.probe_vcs].
  { left. split; [done|lia]. }
  pose proof (nw_pos ni H) as Hpos.
  assert (NIState.bump (m_num_vcs ni) vc = at_ 0%nat) as ->.
  { rewrite bump_spec by done. unfold at_. f_equal. lia. }
  assert (forall j, 0 <= at_ j < m_num_vcs ni) as Hat by (intros; apply Z.mod_pos_bound; lia).
  assert (forall j, (at_ 0%nat + 1 + Z.of_nat j) mod m_num_vcs ni = at_ (S j)) as Hshift.
  { intros j. unfold at_. rewrite <- Z.add_assoc, Z.add_mod_idemp_l by lia. f_equal. lia. }
  destruct (may_send_spec ni (at_ 0%nat) H (Hat _)) as (b & _ & _ & _ & Hb & _).
  rewrite Hb. destruct b; cbn.
  - right. destruct (send_flit_spec ni (at_ 0%nat) H (Hat _) Hb) as (ni' & Hs & _).
    exists 0%nat, ni'. rewrite Hs. split_and!; [lia|done|done|lia|done].
  - destruct (IH (at_ 0%nat) (Hat _)) as [[-> Hall] | (j & ni' & Hj & -> & Hm & Hbefore & Hs)].
    + left. split; [done|]. intros [|j] Hj; [done|]. rewrite <- Hshift. apply Hall. lia.
    + right. exists (S j), ni'. rewrite <- Hshift. split_and!; [lia|done|done| |done].
      intros [|i] Hi; [done|]. rewrite <- Hshift. apply Hbefore. lia.
Qed.

(** C19: [scheduleOutputLink] always returns; it sends at most one flit per
    cycle. It sends none exactly when no virtual channel may send. Otherwise
    it sends the top flit of the first virtual channel behind the
    round-robin pointer that may: one with a ready flit and a credit and,
    when its virtual network is ordered, with no ready flit in the virtual
    network that was enqueued earlier; the flit goes to the queue of the
    link, to be read in the next cycle, exactly one credit is taken and the
    other virtual channels are left alone. The pointer moves by one. *)
Theorem scheduleOutputLink_correct ni :
  ni_wf ni ->
  exists ni' sent, NIState.scheduleOutputLink net cur ni = Ok (ni', sent) /\
    m_vc_round_robin ni' = (m_vc_round_robin ni + 1) mod m_num_vcs ni /\
    (sent = false -> m_ni_out_vcs ni' = m_ni_out_vcs ni /\ outFlitQueue ni' = outFlitQueue ni /\
       forall vc, 0 <= vc < m_num_vcs ni -> NIState.may_send net cur vc ni = Ok false) /\
    (sent = true -> exists vc s o, 0 <= vc < m_num_vcs ni /\ sends vc ni ni' /\
       NIState.out_vc_ready vc cur ni = Ok true /\
       vec_at (m_out_vc_state ni) vc = Ok s /\ 0 < OutVcState.m_credit_count s /\
       NetConfig.isVNetOrdered (vc / m_vc_per_vnet ni) net = Ok o /\ (o = true -> oldest ni vc) /\
       forall w, 0 <= w < m_num_vcs ni ->
         (w - m_vc_round_robin ni - 1) mod m_num_vcs ni < (vc - m_vc_round_robin ni - 1) mod m_num_vcs ni ->
         NIState.may_send net cur w ni = Ok false).
Proof.
  intros H. pose proof (nw_pos ni H) as Hpos. pose proof (nw_rr ni H) as Hrr.
  pose (ni0 := set_vc_round_robin (NIState.bump (m_num_vcs ni) (m_vc_round_robin ni)) ni).
  change (NIState.scheduleOutputLink net cur ni)
    with (NIState.probe_vcs net cur (Z.to_nat (m_num_vcs ni)) (m_vc_round_robin ni) ni0).
  assert (ni_wf ni0) as H0.
  { destruct H. split; cbn; try done. rewrite bump_spec by done. apply Z.mod_pos_bound. lia. }
  assert (m_vc_round_robin ni0 = (m_vc_round_robin ni + 1) mod m_num_vcs ni) as Hrr0 by (by apply bump_spec).
  set (r := m_vc_round_robin ni) in *. set (num := m_num_vcs ni) in *.
  assert (forall w, 0 <= w < num -> exists j, (j < Z.to_nat num)%nat /\
    (r + 1 + Z.of_nat j) mod num = w /\ Z.of_nat j = (w - r - 1) mod num) as Hidx.
  { intros w Hw. pose proof (Z.mod_pos_bound (w - r - 1) num). exists (Z.to_nat ((w - r - 1) mod num)).
    rewrite Z2Nat.id by lia. split_and!; [lia| |done]. rewrite Z.add_mod_idemp_r by lia.
    replace (r + 1 + (w - r - 1)) with w by lia. by apply Z.mod_small. }
  destruct (probe_vcs_spec (Z.to_nat num) r ni0 H0 Hrr)
    as [[-> Hall] | (j & ni' & Hj & -> & Hm & Hbefore & Hs)].
  - exists ni0, false. split_and!; [done|done| |done]. intros _. split_and!; [done|done|].
    intros vc Hvc. destruct (Hidx vc Hvc) as (j & Hj & <- & _). by apply Hall.
  - change (m_num_vcs ni0) with num in *. set (vc := (r + 1 + Z.of_nat j) mod num) in *.
    assert (0 <= vc < num) as Hvc by (apply Z.mod_pos_bound; lia).
    destruct (send_flit_spec ni0 vc H0 Hvc Hm) as (ni'' & Hs' & Hsd & Hrr').
    rewrite Hs in Hs'. injection Hs' as <-.
    destruct (may_send_spec ni vc H Hvc) as (b & rd & s & o & Hb & Hrd & Hst & Ho & Hiff).
    change (NIState.may_send net cur vc ni0) with (NIState.may_send net cur vc ni) in Hm.
    rewrite Hm in Hb. injection Hb as <-. destruct (proj1 Hiff eq_refl) as (-> & Hc & Hold).
    exists ni', true. split_and!; [done|congruence|done|]. intros _. exists vc, s, o.
    unfold OutVcState.has_credit in Hc. rewrite Z.gtb_ltb in Hc. apply Z.ltb_lt in Hc.
    split_and!; [lia|lia| |done|done|done|done|done|].
    + destruct Hsd as [Hsd]. by constructor.
    + intros w Hw Hlt. destruct (Hidx w Hw) as (k & Hk & <- & Hkd). apply Hbefore.
      assert ((vc - r - 1) mod num = Z.of_nat j) as Hjd.
      { subst vc. rewrite <- Z.sub_add_distr, Zminus_mod_idemp_l.
        replace (r + 1 + Z.of_nat j - (r + 1)) with (Z.of_nat j) by lia. apply Z.mod_small. lia. }
      rewrite <- Hkd, Hjd in Hlt. lia.
Qed.

End Output.

Module NIExample.
Import Example.

Definition ni0 : NetworkInterface.t :=
  unwrap (NetworkInterface.new 0 1 2 50000) (NI.ni_at 0 net).

Lemma ni0_ready : vnet_ready 0 ni0.
Proof.
  split; [reflexivity|reflexivity|vm_compute; discriminate| |reflexivity].
  exists 0. split; [reflexivity|]. split; [reflexivity|reflexivity].
Qed.

Lemma calculateVC_correct_witness :
  exists vc ni', NIState.calculateVC cfg 0 0 ni0 = Ok (vc, ni') /\ same_queues ni0 ni'.
Proof.
  destruct (calculateVC_correct cfg 0 0 ni0 ni0_ready (or_introl eq_refl)) as (vc & ni' & H1 & H2 & _).
  exists vc, ni'. split; [exact H1|exact H2].
Defined.

Lemma get_vnet_is_division_witness : NIState.get_vnet 1 ni0 = Ok 0.
Proof.
  rewrite (get_vnet_is_division ni0 1); [vm_compute; reflexivity|reflexivity|vm_compute; discriminate].
Defined.

(** The interface with a packet in virtual channel 1. *)
Definition ni1 : NetworkInterface.t :=
  NetworkInterface.set_ni_out_vcs
    [flitBuffer.new; flitBuffer.insert (packet 7 3 0) flitBuffer.new] ni0.

Lemma ni1_wf : ni_wf cfg ni1.
Proof. split; vm_compute; try reflexivity. split; [discriminate|reflexivity]. Qed.

Lemma scheduleOutputLink_correct_witness :
  NIState.may_send cfg 0 1 ni1 = Ok true /\
  exists ni', NIState.scheduleOutputLink cfg 0 ni1 = Ok (ni', true) /\
    m_vc_round_robin ni' = (m_vc_round_robin ni1 + 1) mod m_num_vcs ni1.
Proof.
  assert (NIState.may_send cfg 0 1 ni1 = Ok true) as Hm by (vm_compute; reflexivity).
  split; [exact Hm|].
  destruct (scheduleOutputLink_correct cfg 0 ni1 ni1_wf) as (ni' & [] & H1 & H2 & H3 & _).
  - exists ni'. split; [exact H1|exact H2].
  - destruct (H3 eq_refl) as (_ & _ & H4). specialize (H4 1).
    rewrite Hm in H4. discriminate H4. vm_compute. split; [discriminate|reflexivity].
Defined.

End NIExample.
