(* ===== verification/Multicast.v ===== *)
(** * Multicast messages: theorems

    [flitisizeMessage] turns a message for several nodes into one packet per
    node. It may stop half-way, when the virtual channels run out, and goes
    on with the message that is left in the buffer: no node is forgotten and
    none is served twice. *)

From S2P Require Import Prelude NetDest NetDestFacts Types FlitBuffer Channels ChannelFacts RouterCore MsgBuffer NetState Routing RoutingFacts Network Spin Example RouterStep NI Frames.
From Stdlib Require Import Sorted.

(** ** Destination sets by their elements *)

Section Elements.
Context (mt : MachineTypes) `{Hmt : MachineTypesOk mt}.

Lemma sorted_NoDup (l : list Z) : StronglySorted Z.lt l -> NoDup l.
Proof.
  induction 1 as [|x l Hs IH Hx]; constructor; [|done].
  intros Hin. rewrite Forall_forall in Hx. specialize (Hx x Hin). lia.
Qed.

Lemma sorted_ext (l l' : list Z) :
  StronglySorted Z.lt l -> StronglySorted Z.lt l' -> (forall x, x ∈ l <-> x ∈ l') -> l = l'.
Proof.
  intros Hl. revert l'. induction Hl as [|x l Hs IH Hx]; intros l' Hl' Heq.
  - destruct l' as [|y l']; [done|].
    assert (y ∈ []) as H%elem_of_nil by (apply Heq; left). done.
  - destruct Hl' as [|y l' Hs' Hy].
    { assert (x ∈ []) as H%elem_of_nil by (apply Heq; left). done. }
    rewrite Forall_forall in Hx, Hy.
    assert (x = y) as <-.
    { assert (x ∈ y :: l') as Hxy by (apply Heq; left).
      assert (y ∈ x :: l) as Hyx by (apply Heq; left).
      apply elem_of_cons in Hxy as [|Hxy]; [done|]. apply elem_of_cons in Hyx as [|Hyx]; [done|].
      pose proof (Hx y Hyx). pose proof (Hy x Hxy). lia. }
    f_equal. apply IH; [done|]. intros z. split; intros Hz.
    + assert (z ∈ x :: l') as Hz' by (apply Heq; by right).
      apply elem_of_cons in Hz' as [->|]; [|done]. pose proof (Hx x Hz). lia.
    + assert (z ∈ x :: l) as Hz' by (apply Heq; by right).
      apply elem_of_cons in Hz' as [->|]; [|done]. pose proof (Hy x Hz). lia.
Qed.

(** The node ids of the machines. *)
Definition valid_node (x : Z) : Prop :=
  exists i j, 0 <= i < MachineType_NUM mt /\ 0 <= j < MachineType_base_count mt i /\
    x = MachineType_base_number mt i + j.

Lemma dest_elems_valid d x : dest_wf mt d -> x ∈ dest_elems mt d -> valid_node x.
Proof. intros Hwf Hx. destruct (dest_elems_inv mt d x Hwf Hx) as (i & j & ? & ? & ? & _). by exists i, j. Qed.

Lemma machine_of_valid i j :
  0 <= i < MachineType_NUM mt -> 0 <= j < MachineType_base_count mt i ->
  NI.machine_of mt (MachineType_base_number mt i + j) = Some i.
Proof.
  intros Hi Hj. unfold NI.machine_of. pose proof (mt_base mt i Hi) as Hb.
  destruct (list_find _ _) as [[k m]|] eqn:E.
  - apply list_find_Some in E as (Hk & Hm & _). apply list_elem_of_lookup_2, in_range in Hk.
    cbn. f_equal. pose proof (mt_base mt m Hk).
    destruct (base_number_inj mt m (MachineType_base_number mt i + j - MachineType_base_number mt m) i j);
      [lia|lia|lia|lia|lia|done].
  - apply list_find_None in E. rewrite Forall_forall in E.
    exfalso. apply (E i); [by apply in_range|]. lia.
Qed.

(** The destination set of a copy holds the one node. *)
Lemma personal_dest_single x :
  valid_node x ->
  exists d, NI.personal_dest mt x = Ok (Some d) /\ dest_wf mt d /\ dest_elems mt d = [x].
Proof.
  intros (i & j & Hi & Hj & ->). unfold NI.personal_dest. rewrite machine_of_valid by done.
  destruct (NetDest_new_spec mt) as (d0 & -> & Hwf0 & _). cbn.
  destruct (NetDest_clear_spec mt d0 Hwf0) as [Hwf1 Hnone].
  replace (MachineType_base_number mt i + j - MachineType_base_number mt i) with j by lia.
  destruct (NetDest_add_spec mt i j (NetDest.clear d0) Hwf1 Hi Hj) as (d & -> & Hwf & Hmem). cbn.
  exists d. split; [done|]. split; [done|].
  apply sorted_ext; [by apply dest_elems_sorted|repeat constructor|]. intros y. split.
  - intros Hy. destruct (dest_elems_inv mt d y Hwf Hy) as (i' & j' & Hi' & Hj' & -> & Hm).
    apply Hmem in Hm as [Hm|[-> ->]]; [by apply Hnone in Hm|left|lia|lia].
  - rewrite list_elem_of_singleton. intros ->. apply elem_of_dest_elems; [done..|].
    apply Hmem; [lia|lia|by right].
Qed.

(** Taking the first node out of a set leaves the others. *)
Lemma remove_first x rest p d :
  dest_wf mt d -> dest_wf mt p -> dest_elems mt d = x :: rest -> dest_elems mt p = [x] ->
  exists d', NetDest.removeNetDest p d = Ok d' /\ dest_wf mt d' /\ dest_elems mt d' = rest.
Proof.
  intros Hd Hp Hx Hpx. destruct (removeNetDest_spec mt p d Hp Hd) as (d' & -> & Hwf & Hmem).
  exists d'. split; [done|]. split; [done|].
  pose proof (dest_elems_sorted mt d Hd) as Hs. rewrite Hx in Hs.
  inversion Hs as [|? ? Hs' Hlt]; subst. rewrite Forall_forall in Hlt.
  apply sorted_ext; [by apply dest_elems_sorted|done|]. intros y. split; intros Hy.
  - destruct (dest_elems_inv mt d' y Hwf Hy) as (i & j & Hi & Hj & -> & Hm).
    apply Hmem in Hm as [Hm Hn]; [|lia]. apply (elem_of_dest_elems mt) in Hm; [|done..].
    rewrite Hx in Hm. apply elem_of_cons in Hm as [Hm|]; [|done]. destruct Hn.
    apply (elem_of_dest_elems mt); [done..|]. rewrite Hpx, Hm. left.
  - assert (y ∈ dest_elems mt d) as Hyd by (rewrite Hx; by right).
    destruct (dest_elems_inv mt d y Hd Hyd) as (i & j & Hi & Hj & -> & Hm).
    apply (elem_of_dest_elems mt); [done..|]. apply Hmem; [lia|]. split; [done|]. intros Hn.
    apply (elem_of_dest_elems mt) in Hn; [|done..]. rewrite Hpx, list_elem_of_singleton in Hn.
    pose proof (Hlt _ Hy). lia.
Qed.

End Elements.

(** ** What the injection does to the interface and the buffers *)

(** The flits waiting in the output virtual channels of interface [i]. *)
Definition ni_flits (i : Z) (n : Net.t) : Res (list flit.t) :=
  ni ← NI.ni_at i n; Ok (concat (map flitBuffer.m_buffer (NetworkInterface.m_ni_out_vcs ni))).

(** The message at the front of protocol buffer [b]. *)
Definition front_message (b : Z) (n : Net.t) : Res Message.t :=
  mb ← vec_at (Net.msgbufs n) b; MessageBuffer.peekMsgPtr mb.

(** The configuration does not change. *)
Lemma core_cfg_eq n n' : core n' = core n -> Net.cfg n' = Net.cfg n.
Proof. unfold core. congruence. Qed.

(** Flits and buffers are both untouched. *)
Definition inert (i : Z) (n n' : Net.t) : Prop :=
  ni_flits i n' = ni_flits i n /\ Net.msgbufs n' = Net.msgbufs n.

Lemma upd_ni_inv i f n n' :
  Links.upd_ni i f n = Ok n' ->
  exists ni ni', NI.ni_at i n = Ok ni /\ f ni = Ok ni' /\ NI.ni_at i n' = Ok ni' /\
    Net.msgbufs n' = Net.msgbufs n.
Proof.
  unfold Links.upd_ni. intros H. inv_bind H. simplify_res.
  apply vec_upd_inv in E as (ni & ni' & Hni & Hf & ->). exists ni, ni'.
  split_and!; [done|done| |done]. unfold NI.ni_at. cbn.
  eapply vec_at_set_eq, vec_set_Ok, (vec_at_inside _ _ _ Hni).
Qed.

Lemma upd_ni_inert i f n n' :
  (forall ni ni', NI.ni_at i n = Ok ni -> f ni = Ok ni' ->
     NetworkInterface.m_ni_out_vcs ni' = NetworkInterface.m_ni_out_vcs ni) ->
  Links.upd_ni i f n = Ok n' -> inert i n n'.
Proof.
  intros Hf H. apply upd_ni_inv in H as (ni & ni' & Hni & H & Hni' & Hb).
  split; [|done]. unfold ni_flits. rewrite Hni, Hni'. cbn. by rewrite (Hf ni ni').
Qed.

Lemma upd_router_nis id f n n' :
  Net.upd_router id f n = Ok n' -> Net.m_nis n' = Net.m_nis n /\ Net.msgbufs n' = Net.msgbufs n.
Proof. unfold Net.upd_router. intros H. by run_inv H. Qed.

Lemma take_mark_nis id n m n' :
  NI.take_mark id n = Ok (m, n') -> Net.m_nis n' = Net.m_nis n /\ Net.msgbufs n' = Net.msgbufs n.
Proof.
  unfold NI.take_mark. intros H. run_inv H; run_all; try done.
  all: match goal with H : Net.upd_router _ _ _ = Ok _ |- _ => by apply upd_router_nis in H end.
Qed.

Lemma calculateVC_queues net cur vnet ni vc ni' :
  NIState.calculateVC net cur vnet ni = Ok (vc, ni') ->
  NetworkInterface.m_ni_out_vcs ni' = NetworkInterface.m_ni_out_vcs ni.
Proof.
  assert (forall f x y, NIState.set_busy vnet f x = Ok y ->
    NetworkInterface.m_ni_out_vcs y = NetworkInterface.m_ni_out_vcs x) as Hbusy.
  { intros f x y H. unfold NIState.set_busy in H. by run_inv H. }
  unfold NIState.calculateVC. intros H. destruct (bool_decide _) in H.
  - revert H. generalize (Z.to_nat (NetworkInterface.m_vc_per_vnet ni)) as k. intros k. revert ni.
    induction k as [|k IH]; intros ni H; cbn in H; run_inv H.
    + by apply Hbusy in E.
    + by apply Hbusy in E2.
    + apply IH in H. done.
  - destruct (bool_decide _) in H; [|done]. unfold NIState.calculateVC_fcfs in H. run_inv H;
      eauto.
Qed.

(** A flit for node [x] and only for it. *)
Definition carries (mt : MachineTypes) (x : Z) (f : flit.t) : Prop :=
  RouteInfo.dest_ni (flit.m_route f) = x /\
  dest_elems mt (RouteInfo.net_dest (flit.m_route f)) = [x] /\
  flit.m_type f = HEAD_TAIL_ /\
  exists m, flit.m_msg_ptr f = Some m /\
    Message.getDestination m = RouteInfo.net_dest (flit.m_route f).

Lemma concat_insert {A} (l : list (list A)) k x y a :
  l !! k = Some x -> y ≡ₚ a :: x -> concat (<[k := y]> l) ≡ₚ a :: concat l.
Proof.
  revert k. induction l as [|z l IH]; intros [|k] Hk Hy; try done; cbn in *.
  - injection Hk as ->. by rewrite Hy.
  - rewrite (IH k Hk Hy). by rewrite Permutation_middle.
Qed.

Lemma inject_flit_spec i vc vnet route msg t n n' :
  NI.inject_flit i vc vnet route msg t n = Ok n' ->
  exists f fs fs', ni_flits i n = Ok fs /\ ni_flits i n' = Ok fs' /\ fs' ≡ₚ f :: fs /\
    flit.m_route f = route /\ flit.m_msg_ptr f = Some msg /\ flit.m_type f = HEAD_TAIL_ /\
    Net.msgbufs n' = Net.msgbufs n.
Proof.
  unfold NI.inject_flit. intros H. inv_bind H. rename a into ni. inv_bind H. destruct a as [mk n1].
  apply take_mark_nis in E0 as [Hn1 Hb1]. inv_bind H. rename a into n2. inv_bind H. inv_bind H.
  rename a0 into bs. inv_bind H. rename a0 into n3.
  set (f := flit.set_src_delay _ _) in *.
  assert (Net.m_nis n2 = Net.m_nis n1 /\ Net.msgbufs n2 = Net.msgbufs n1) as [Hn2 Hb2].
  { unfold NetStats.upd in E0. by run_inv E0. }
  assert (Net.m_nis n' = Net.m_nis n3 /\ Net.msgbufs n' = Net.msgbufs n3) as [Hn4 Hb4].
  { change (flit.is_tail f) with true in H. unfold NetStats.upd in H. by run_inv H. }
  apply upd_ni_inv in E3 as (ni0 & ni' & Hni0 & Hni' & Hat & Hb3). simplify_res.
  apply vec_upd_inv in E2 as (q & q' & Hq & Hq' & ->). simplify_res.
  assert (NI.ni_at i n2 = Ok ni) as Hni2 by (unfold NI.ni_at; by rewrite Hn2, Hn1).
  rewrite Hni2 in Hni0. simplify_res.
  exists f, (concat (map flitBuffer.m_buffer (NetworkInterface.m_ni_out_vcs ni0))),
    (concat (map flitBuffer.m_buffer (<[Z.to_nat vc := flitBuffer.insert f q]> (NetworkInterface.m_ni_out_vcs ni0)))).
  split_and!; [unfold ni_flits; by rewrite E| | |done|done|done|congruence].
  - unfold ni_flits, NI.ni_at. rewrite Hn4. unfold NI.ni_at in Hat. rewrite Hat. done.
  - change (map flitBuffer.m_buffer) with (fmap (M := list) flitBuffer.m_buffer).
    rewrite list_fmap_insert. eapply concat_insert; [|apply insert_Permutation].
    apply vec_at_Ok in Hq as [_ Hq]. by rewrite list_lookup_fmap, Hq.
Qed.

Lemma occupy_vc_queues vc c ni ni' :
  NI.occupy_vc vc c ni = Ok ni' ->
  NetworkInterface.m_ni_out_vcs ni' = NetworkInterface.m_ni_out_vcs ni.
Proof. unfold NI.occupy_vc, NIState.upd_out_vc. intros H. by run_inv H. Qed.

Lemma upd_buffer_inv b f n n' :
  NI.upd_buffer b f n = Ok n' ->
  exists mb, vec_at (Net.msgbufs n) b = Ok mb /\ vec_at (Net.msgbufs n') b = Ok (f mb) /\
    Net.m_nis n' = Net.m_nis n.
Proof.
  unfold NI.upd_buffer. intros H. inv_bind H. simplify_res.
  apply vec_upd_inv in E as (mb & mb' & Hmb & Hf & ->). simplify_res. exists mb.
  split_and!; [done| |done]. cbn. eapply vec_at_set_eq, vec_set_Ok, (vec_at_inside _ _ _ Hmb).
Qed.

Section Injection.
Context (mt : MachineTypes) `{Hmt : MachineTypesOk mt}.

(** The message at the front of the buffer still has the nodes [l] to serve. *)
Definition front_serves (b : Z) (l : list Z) (n : Net.t) : Prop :=
  exists msg, front_message b n = Ok msg /\ dest_wf mt (Message.getDestination msg) /\
    dest_elems mt (Message.getDestination msg) = l.

Lemma split_message_spec b x rest msg m' n n' :
  NetConfig.machine_types (Net.cfg n) = mt ->
  front_message b n = Ok msg -> dest_wf mt (Message.getDestination msg) ->
  dest_elems mt (Message.getDestination msg) = x :: rest ->
  NI.split_message b x msg n = Ok (m', n') ->
  dest_elems mt (Message.getDestination m') = [x] /\ Net.m_nis n' = Net.m_nis n /\
  front_serves b rest n'.
Proof.
  intros Hc Hfr Hwf Hel H. unfold NI.split_message in H. rewrite Hc in H.
  destruct (personal_dest_single mt x) as (p & Hp & Hpwf & Hpe).
  { eapply dest_elems_valid; [exact Hwf|]. rewrite Hel. left. }
  rewrite Hp in H. cbn in H.
  destruct (remove_first mt x rest p _ Hwf Hpwf Hel Hpe) as (d' & Hd' & Hwf' & Hel').
  rewrite Hd' in H. cbn in H. inv_bind H. simplify_res.
  apply upd_buffer_inv in E as (mb & Hmb & Hmb' & Hnis). split_and!; [done|done|].
  unfold front_message in Hfr. rewrite Hmb in Hfr. cbn in Hfr. unfold MessageBuffer.peekMsgPtr in Hfr.
  destruct (MessageBuffer.m_prio_heap mb) as [|m0 ms] eqn:Hheap; [done|]. simplify_res.
  exists (Message.set_dest d' msg). split_and!; [|done|done].
  unfold front_message. rewrite Hmb'. cbn. unfold NI.set_front_dest, MessageBuffer.peekMsgPtr.
  by rewrite Hheap.
Qed.

(** One destination: one more flit waits, for that node alone. *)
Lemma inject_dest_spec i b vc vnet x rest multicast n n' :
  NetConfig.machine_types (Net.cfg n) = mt -> front_serves b (x :: rest) n ->
  (multicast = false -> rest = []) ->
  NI.inject_dest i b vc vnet x multicast n = Ok n' ->
  exists f fs fs', ni_flits i n = Ok fs /\ ni_flits i n' = Ok fs' /\ fs' ≡ₚ f :: fs /\
    carries mt x f /\
    (if multicast then front_serves b rest n' else Net.msgbufs n' = Net.msgbufs n).
Proof.
  intros Hc (msg & Hfr & Hwf & Hel) Huni H. unfold NI.inject_dest in H.
  unfold front_message in Hfr. inv_bind H. cbn in Hfr. rewrite Hfr in H. cbn in H.
  inv_bind H. destruct a0 as [m' n1]. inv_bind H. rename a0 into ni. inv_bind H. inv_bind H.
  rename a1 into n2.
  assert (dest_elems mt (Message.getDestination m') = [x] /\ Net.m_nis n1 = Net.m_nis n /\
    (if multicast then front_serves b rest n1 else Net.msgbufs n1 = Net.msgbufs n)) as (Hd & Hn1 & Hb1).
  { destruct multicast.
    - eapply split_message_spec; [exact Hc| |exact Hwf|exact Hel|exact E0].
      unfold front_message. by rewrite E.
    - simplify_res. rewrite Hel, Huni by done. done. }
  apply inject_flit_spec in E3 as (f & fs & fs' & Hfs & Hfs' & Hp & Hr & Hm & Ht & Hb2).
  apply upd_ni_inert in H as [Hfl Hb3]; [|intros ? ? _; apply occupy_vc_queues].
  exists f, fs, fs'. split_and!; [|congruence|done| |].
  - rewrite <- Hfs. unfold ni_flits, NI.ni_at. by rewrite Hn1.
  - unfold carries. rewrite Hr. split_and!; [done|done|done|]. by exists m'.
  - destruct multicast; [|congruence]. destruct Hb1 as (msg' & Hf' & ?). exists msg'.
    split; [|done]. rewrite <- Hf'. unfold front_message. congruence.
Qed.

(** The loop over the destinations. *)
Lemma inject_dests_spec i b vnet multicast l n ok n' :
  NetConfig.machine_types (Net.cfg n) = mt -> front_serves b l n ->
  (multicast = false -> length l <= 1)%nat ->
  is_ok (ni_flits i n) = true ->
  NI.inject_dests i b vnet multicast l n = Ok (ok, n') ->
  exists sent rest new fs fs', l = sent ++ rest /\ (ok = true <-> rest = []) /\
    ni_flits i n = Ok fs /\ ni_flits i n' = Ok fs' /\ fs' ≡ₚ new ++ fs /\
    Forall2 (carries mt) sent new /\
    (if multicast then front_serves b rest n' else Net.msgbufs n' = Net.msgbufs n).
Proof.
  revert n. induction l as [|x l IH]; intros n Hc Hfr Huni Hok H.
  { cbn in H. simplify_res. destruct (ni_flits i n') as [fs|] eqn:Hfs; [|done].
    exists [], [], [], fs, fs. split_and!; [done|done|done|done|done|constructor|].
    by destruct multicast. }
  cbn in H. inv_bind H. inv_bind H. rename a0 into ni. inv_bind H. destruct a0 as [vc ni'].
  inv_bind H. rename a0 into n1. pose proof (upd_ni_core _ _ _ _ E2) as Hcore.
  apply upd_ni_inert in E2 as [Hfl1 Hb1].
  2:{ intros ni1 ni2 Hni1 Heq. simplify_res. rewrite E0 in Hni1. simplify_res.
      by eapply calculateVC_queues. }
  assert (front_serves b (x :: l) n1) as Hfr1.
  { destruct Hfr as (m & Hm & ?). exists m. split; [|done]. rewrite <- Hm.
    unfold front_message. by rewrite Hb1. }
  destruct (vc =? -1).
  - simplify_res. rewrite <- Hfl1 in Hok. destruct (ni_flits i n') as [fs|] eqn:Hfs; [|done].
    exists [], (x :: l), [], fs, fs. split_and!; [done|done|congruence|done|done|constructor|].
    by destruct multicast.
  - inv_bind H. rename a0 into n2. apply core_cfg_eq in Hcore.
    pose proof (core_cfg_eq _ _ (inject_dest_core _ _ _ _ _ _ _ _ E2)) as Hcfg2.
    eapply inject_dest_spec in E2 as (f & fs & fs1 & Hfs & Hfs1 & Hp & Hcar & Hb2);
      [|congruence|exact Hfr1|].
    2:{ intros Hm. specialize (Huni Hm). destruct l; [done|cbn in Huni; lia]. }
    assert (front_serves b l n2 \/ (multicast = false /\ l = [])) as Hnext.
    { destruct multicast; [by left|right]. split; [done|].
      specialize (Huni eq_refl). destruct l; [done|cbn in Huni; lia]. }
    destruct Hnext as [Hnext|[-> ->]].
    + apply IH in H as (sent & rest & new & gs & gs' & -> & Hiff & Hgs & Hgs' & Hpp & HF & Hb3);
        [|congruence|done|intros Hm; specialize (Huni Hm); cbn in Huni; lia|by rewrite Hfs1].
      rewrite Hfs1 in Hgs. injection Hgs as <-.
      exists (x :: sent), rest, (f :: new), fs, gs'.
      split_and!; [done|done|congruence|done| |by constructor|].
      * rewrite Hpp, Hp. symmetry. apply Permutation_middle.
      * destruct multicast; [done|congruence].
    + cbn in H. simplify_res. exists [x], [], [f], fs, fs1.
      split_and!; [done|done|congruence|done|done|constructor; [done|constructor]|congruence].
Qed.

End Injection.

(** C18: injecting a message serves each of its nodes exactly once. When
    [flitisizeMessage] returns, the destination nodes of the message (in
    increasing order) split into those it served and those that are left:
    one new single-flit packet waits in the interface for every served node,
    addressed to that node alone and carrying a message for it alone, and no
    other flit was added or lost; a multicast message that stays in the
    buffer is for exactly the nodes that are left. It reports success exactly
    when no node is left. *)
Theorem flitisizeMessage_partition (i b vnet : Z) (n n' : Net.t) (ok : bool) (msg : Message.t) :
  let mt := NetConfig.machine_types (Net.cfg n) in
  MachineTypesOk mt -> front_message b n = Ok msg -> dest_wf mt (Message.getDestination msg) ->
  is_ok (NI.ni_at i n) = true ->
  NI.flitisizeMessage i b vnet n = Ok (ok, n') ->
  exists sent rest new fs fs',
    NetDest.getAllDest mt (Message.getDestination msg) = Ok (sent ++ rest) /\
    (ok = true <-> rest = []) /\
    ni_flits i n = Ok fs /\ ni_flits i n' = Ok fs' /\ fs' ≡ₚ new ++ fs /\
    Forall2 (carries mt) sent new /\
    (1 < zlen (sent ++ rest) -> exists msg', front_message b n' = Ok msg' /\
       NetDest.getAllDest mt (Message.getDestination msg') = Ok rest).
Proof.
  intros mt Hmt Hfr Hwf Hni H. unfold NI.flitisizeMessage in H. fold mt in H.
  pose proof Hfr as Hfr0. unfold front_message in Hfr0. inv_bind H. cbn in Hfr0.
  rewrite Hfr0 in H. cbn in H. rewrite getAllDest_elems in H by done. cbn in H.
  rewrite getAllDest_elems by done.
  assert (is_ok (ni_flits i n) = true) as Hfl.
  { unfold ni_flits. by destruct (NI.ni_at i n). }
  eapply (inject_dests_spec mt) in H as (sent & rest & new & fs & fs' & Hl & Hiff & Hfs & Hfs' & Hp & HF & Hb);
    [|done|by exists msg| |exact Hfl].
  2:{ intros Hm. rewrite Z.gtb_ltb in Hm. apply Z.ltb_ge in Hm. unfold zlen in Hm. lia. }
  exists sent, rest, new, fs, fs'. split_and!; [by rewrite Hl|done|done|done|done|done|].
  intros Hlen. rewrite <- Hl in Hlen. rewrite Z.gtb_ltb, (proj2 (Z.ltb_lt _ _)) in Hb by done.
  destruct Hb as (msg' & Hm' & Hwf' & He). exists msg'. split; [done|].
  by rewrite getAllDest_elems, He.
Qed.

Module MulticastExample.
Import Example.

(** Interface 0 with a message for nodes 1, 2 and 3, and two virtual
    channels: the third node is left. *)
Definition sending : Net.t := unwrap net (send_message 0 14 net).

Definition sent : bool * Net.t := unwrap (true, sending) (NI.flitisizeMessage 0 4 0 sending).

Definition message : Message.t :=
  unwrap (Message.new 0 (dests 0) 0) (front_message 4 sending).

Lemma sent_ok : NI.flitisizeMessage 0 4 0 sending = Ok (sent.1, sent.2).
Proof.
  unfold sent. assert (is_ok (NI.flitisizeMessage 0 4 0 sending) = true) as H by (vm_compute; reflexivity).
  destruct (NI.flitisizeMessage 0 4 0 sending) as [[b n]|]; [reflexivity|discriminate H].
Qed.

Lemma sending_types : NetConfig.machine_types (Net.cfg sending) = mt.
Proof. vm_compute. reflexivity. Qed.

Lemma message_wf : dest_wf mt (Message.getDestination message).
Proof.
  replace (Message.getDestination message) with (dests 14) by (vm_compute; reflexivity).
  split; [reflexivity|]. intros [|[|]] s H; [injection H as <-; reflexivity|discriminate H..].
Qed.

Lemma flitisizeMessage_partition_witness :
  sent.1 = false /\
  exists served rest new fs fs',
    NetDest.getAllDest (NetConfig.machine_types (Net.cfg sending)) (Message.getDestination message)
      = Ok (served ++ rest) /\
    (sent.1 = true <-> rest = []) /\
    ni_flits 0 sending = Ok fs /\ ni_flits 0 sent.2 = Ok fs' /\ fs' ≡ₚ new ++ fs /\
    Forall2 (carries (NetConfig.machine_types (Net.cfg sending))) served new /\
    (1 < zlen (served ++ rest) -> exists msg', front_message 4 sent.2 = Ok msg' /\
       NetDest.getAllDest (NetConfig.machine_types (Net.cfg sending)) (Message.getDestination msg')
         = Ok rest).
Proof.
  split; [vm_compute; reflexivity|].
  apply (flitisizeMessage_partition 0 4 0 sending sent.2 sent.1 message).
  - rewrite sending_types. exact mt_ok.
  - vm_compute. reflexivity.
  - rewrite sending_types. exact message_wf.
  - vm_compute. reflexivity.
  - exact sent_ok.
Defined.

End MulticastExample.
