(* ===== verification/StallFacts.v ===== *)
(** * The stall queue of an interface: theorems

    A flit that cannot be delivered to the protocol waits in the stall queue
    of the interface; [m_stall_count] counts the waiting flits of every
    virtual network and decides when the callback of the protocol buffer is
    dropped. *)

From S2P Require Import Prelude NetDest NetDestFacts Types FlitBuffer Channels ChannelFacts RouterCore MsgBuffer NetState Routing RoutingFacts Network Spin Example RouterStep NI Frames Multicast.

Import NetworkInterface.

(** The stall queue and the counters of an interface. *)
Definition stall_view (ni : NetworkInterface.t) : list flit.t * list Z :=
  (m_stall_queue ni, m_stall_count ni).

Definition stalls (n : Net.t) : list (list flit.t * list Z) := map stall_view (Net.m_nis n).

(** The waiting flits of virtual network [v]. *)
Definition waiting (v : Z) (q : list flit.t) : Z := zlen (filter (fun f => flit.m_vnet f = v) q).

(** Every counter counts the waiting flits of its virtual network. *)
Definition stall_ok (s : list flit.t * list Z) : Prop :=
  forall v c, vec_at s.2 v = Ok c -> c = waiting v s.1.

Definition stalls_ok (n : Net.t) : Prop := Forall stall_ok (stalls n).

(** ** Operations that leave the stall queues alone *)

Lemma upd_ni_stalls i f n n' :
  (forall ni ni', NI.ni_at i n = Ok ni -> f ni = Ok ni' -> stall_view ni' = stall_view ni) ->
  Links.upd_ni i f n = Ok n' -> stalls n' = stalls n.
Proof.
  intros Hf H. unfold Links.upd_ni in H. inv_bind H. simplify_res.
  apply vec_upd_inv in E as (ni & ni' & Hni & Hni' & ->). unfold stalls. cbn.
  change (map stall_view) with (fmap (M := list) stall_view). rewrite list_fmap_insert.
  apply list_insert_id. apply vec_at_Ok in Hni as [Hi Hl]. rewrite list_lookup_fmap, Hl. cbn.
  f_equal. symmetry. apply (Hf ni ni'); [|done]. by apply vec_at_Ok.
Qed.

Lemma upd_buffer_stalls b f n n' : NI.upd_buffer b f n = Ok n' -> stalls n' = stalls n.
Proof. unfold NI.upd_buffer. intros H. by run_inv H. Qed.

Lemma stats_upd_stalls f n n' : NetStats.upd f n = Ok n' -> stalls n' = stalls n.
Proof. unfold NetStats.upd. intros H. by run_inv H. Qed.

Lemma incrementStats_stalls f n n' : NI.incrementStats f n = Ok n' -> stalls n' = stalls n.
Proof.
  unfold NI.incrementStats, NetStats.increment_received_flits. intros H. run_inv H; run_all;
    repeat match goal with H : NetStats.upd _ _ = Ok _ |- _ => apply stats_upd_stalls in H end;
    congruence.
Qed.

Lemma slot_available_stalls b n r n' : NI.slot_available b n = Ok (r, n') -> stalls n' = stalls n.
Proof.
  unfold NI.slot_available. intros H. inv_bind H.
  destruct (MessageBuffer.areNSlotsAvailable _ _ _). run_inv H. by apply upd_buffer_stalls in E0.
Qed.

(** An update of an interface that is visibly none of its stall queue. *)
Ltac stall_frame :=
  repeat match goal with
  | H : Links.upd_ni _ _ _ = Ok _ |- _ =>
      apply upd_ni_stalls in H; [|intros; simplify_res; done]
  | H : NI.upd_buffer _ _ _ = Ok _ |- _ => apply upd_buffer_stalls in H
  | H : NI.slot_available _ _ = Ok _ |- _ => apply slot_available_stalls in H
  | H : NI.incrementStats _ _ = Ok _ |- _ => apply incrementStats_stalls in H
  | H : NetStats.upd _ _ = Ok _ |- _ => apply stats_upd_stalls in H
  end.

Lemma schedule_at_stalls c t n : stalls (Net.schedule_at c t n) = stalls n.
Proof. done. Qed.

Section Interface.
Variables (rnd warm : bool) (rt : Z -> Z).

Lemma eject_stalls i b f n n' : NI.eject rnd warm rt i b f n = Ok n' -> stalls n' = stalls n.
Proof.
  unfold NI.eject. intros H. run_inv H; run_all; stall_frame;
    rewrite ?schedule_at_stalls in *; congruence.
Qed.

(** *** Injection *)

Lemma nis_stalls n n' : Net.m_nis n' = Net.m_nis n -> stalls n' = stalls n.
Proof. unfold stalls. by intros ->. Qed.

Lemma calculateVC_stalls net cur vnet ni vc ni' :
  NIState.calculateVC net cur vnet ni = Ok (vc, ni') -> stall_view ni' = stall_view ni.
Proof.
  assert (forall f x y, NIState.set_busy vnet f x = Ok y -> stall_view y = stall_view x) as Hbusy.
  { intros f x y H. unfold NIState.set_busy in H. by run_inv H. }
  unfold NIState.calculateVC. intros H. destruct (bool_decide _) in H.
  - revert H. generalize (Z.to_nat (m_vc_per_vnet ni)) as k. intros k. revert ni.
    induction k as [|k IH]; intros ni H; cbn in H; run_inv H.
    + by apply Hbusy in E.
    + by apply Hbusy in E2.
    + apply IH in H. done.
  - destruct (bool_decide _) in H; [|done]. unfold NIState.calculateVC_fcfs in H. run_inv H; eauto.
Qed.

Lemma inject_dest_stalls i b vc v d m n n' :
  NI.inject_dest i b vc v d m n = Ok n' -> stalls n' = stalls n.
Proof.
  unfold NI.inject_dest, NI.inject_flit. intros H. run_inv H; run_all;
  repeat match goal with
  | H : NI.split_message _ _ _ _ = Ok _ |- _ => unfold NI.split_message in H; run_inv H; run_all
  | H : NI.take_mark _ _ = Ok _ |- _ => apply take_mark_nis in H as [H _]; apply nis_stalls in H
  | H : Links.upd_ni _ (NI.occupy_vc _ _) _ = Ok _ |- _ =>
      apply upd_ni_stalls in H; [|intros ? ? _; unfold NI.occupy_vc, NIState.upd_out_vc; intros Ho; by run_inv Ho]
  end; stall_frame; congruence.
Qed.

Lemma inject_dests_stalls i b v m ds n r n' :
  NI.inject_dests i b v m ds n = Ok (r, n') -> stalls n' = stalls n.
Proof.
  revert n. induction ds as [|d ds IH]; intros n H; cbn in H; [by simplify_res|].
  run_inv H; run_all;
  repeat match goal with
  | H : NI.inject_dest _ _ _ _ _ _ _ = Ok _ |- _ => apply inject_dest_stalls in H
  | H : NI.inject_dests _ _ _ _ _ _ = Ok _ |- _ => apply IH in H
  | Hc : NIState.calculateVC _ _ _ ?x = Ok (_, ?y), Ha : NI.ni_at _ ?m = Ok ?x,
    H : Links.upd_ni _ _ ?m = Ok _ |- _ =>
      apply upd_ni_stalls in H;
        [|intros ? ? Hx ?; simplify_res; rewrite Ha in Hx; simplify_res; by eapply calculateVC_stalls]
  end; congruence.
Qed.

Lemma pick_up_stalls i v n n' : NI.pick_up i v n = Ok n' -> stalls n' = stalls n.
Proof.
  unfold NI.pick_up, NI.flitisizeMessage. intros H. run_inv H; run_all; try done;
  repeat match goal with
  | H : NI.inject_dests _ _ _ _ _ _ = Ok _ |- _ => apply inject_dests_stalls in H
  end; stall_frame; try congruence.
  match goal with |- context [match ?o with _ => _ end] => destruct o end;
    unfold NI.dequeueCallback; rewrite ?schedule_at_stalls; congruence.
Qed.

(** *** Output *)

Lemma probe_vcs_stalls net cur k vc ni ni' b :
  NIState.probe_vcs net cur k vc ni = Ok (ni', b) -> stall_view ni' = stall_view ni.
Proof.
  revert vc. induction k as [|k IH]; intros vc H; cbn in H; [by simplify_res|].
  inv_bind H. destruct a.
  - inv_bind H. simplify_res. unfold NIState.send_flit, NIState.upd_out_vc in E0.
    run_inv E0; run_all; done.
  - by eapply IH.
Qed.

Lemma schedule_link_stalls i n n' : NI.schedule_link i n = Ok n' -> stalls n' = stalls n.
Proof.
  unfold NI.schedule_link, NIState.scheduleOutputLink. intros H. run_inv H; run_all.
  apply probe_vcs_stalls in E0. apply upd_ni_stalls in E1.
  - match goal with |- context [if ?b then _ else _] => destruct b end; done.
  - intros x y Hx ?. simplify_res. rewrite E in Hx. by simplify_res.
Qed.

Lemma checkReschedule_stalls i n n' : NI.checkReschedule i n = Ok n' -> stalls n' = stalls n.
Proof.
  unfold NI.checkReschedule. intros H. run_inv H; run_all; try done.
  match goal with |- context [match ?o with _ => _ end] => destruct o end; done.
Qed.

Lemma check_credit_link_stalls i n n' : NI.check_credit_link i n = Ok n' -> stalls n' = stalls n.
Proof.
  unfold NI.check_credit_link. intros H. run_inv H; run_all; try done.
  apply upd_ni_stalls in H.
  - unfold Links.upd_credit_link in *. run_all. done.
  - intros x y _ Hy. unfold NIState.receive_credit, NIState.upd_out_vc in Hy. run_inv Hy; run_all; done.
Qed.

(** *** Stalling and unstalling *)

Lemma waiting_app v q1 q2 : waiting v (q1 ++ q2) = waiting v q1 + waiting v q2.
Proof. unfold waiting, zlen. rewrite filter_app, length_app. lia. Qed.

Lemma waiting_single v f : waiting v [f] = if decide (flit.m_vnet f = v) then 1 else 0.
Proof. unfold waiting, zlen. cbn. by destruct (decide (flit.m_vnet f = v)). Qed.

Lemma stall_keeps_ok f ni ni' :
  stall_ok (stall_view ni) -> NIState.stall f ni = Ok ni' -> stall_ok (stall_view ni').
Proof.
  intros Hok H. unfold NIState.stall in H. inv_bind H. simplify_res.
  apply vec_upd_inv in E as (c & c' & Hc & Hc' & ->). simplify_res.
  intros v x Hx. cbn in *. rewrite waiting_app, waiting_single.
  pose proof (vec_at_inside _ _ _ Hc) as Hin. destruct (decide (flit.m_vnet f = v)) as [<-|Hne].
  - erewrite vec_at_set_eq in Hx by (by apply vec_set_Ok). simplify_res.
    pose proof (Hok _ _ Hc) as Hw. cbn in Hw. lia.
  - rewrite (vec_at_set_ne (m_stall_count ni) (flit.m_vnet f) v (c + 1)) in Hx;
      [|done|by apply vec_set_Ok]. rewrite (Hok _ _ Hx). cbn. lia.
Qed.

Lemma unstall_keeps_ok pre f post ni c ni' :
  m_stall_queue ni = pre ++ f :: post -> stall_ok (stall_view ni) ->
  NI.unstall (length pre) (flit.m_vnet f) ni = Ok (c, ni') ->
  stall_ok (stall_view ni') /\ m_stall_queue ni' = pre ++ post /\ c = waiting (flit.m_vnet f) (pre ++ post).
Proof.
  intros Hq Hok H. unfold NI.unstall in H. inv_bind H. inv_bind H. simplify_res.
  assert (stall_ok (pre ++ post, a)) as Hok'.
  { apply vec_upd_inv in E as (x & x' & Hx & Hx' & ->). simplify_res.
    intros v y Hy. cbn in *. pose proof (vec_at_inside _ _ _ Hx) as Hin.
    destruct (decide (v = flit.m_vnet f)) as [->|Hne].
    - erewrite vec_at_set_eq in Hy by (by apply vec_set_Ok). simplify_res.
      rewrite (Hok _ _ Hx). cbn. rewrite Hq, waiting_app, (waiting_app _ pre).
      change (f :: post) with ([f] ++ post). rewrite waiting_app, waiting_single, decide_True by done. lia.
    - rewrite (vec_at_set_ne (m_stall_count ni) (flit.m_vnet f) v (x - 1)) in Hy;
        [|done|by apply vec_set_Ok]. rewrite (Hok _ _ Hy). cbn. rewrite Hq, waiting_app, (waiting_app _ pre).
      change (f :: post) with ([f] ++ post). rewrite waiting_app, waiting_single, decide_False by done. lia. }
  assert (delete (length pre) (m_stall_queue ni) = pre ++ post) as Hdel by (rewrite Hq; apply delete_middle).
  split_and!; [unfold stall_view; cbn; by rewrite Hdel|cbn; by rewrite Hdel|]. exact (Hok' _ _ E0).
Qed.

(** Replacing one interface. *)
Lemma upd_ni_ok i f n n' :
  (forall ni ni', NI.ni_at i n = Ok ni -> f ni = Ok ni' -> stall_ok (stall_view ni) ->
     stall_ok (stall_view ni')) ->
  stalls_ok n -> Links.upd_ni i f n = Ok n' -> stalls_ok n'.
Proof.
  intros Hf Hok H. unfold Links.upd_ni in H. inv_bind H. simplify_res.
  apply vec_upd_inv in E as (ni & ni' & Hni & Hni' & ->). unfold stalls_ok, stalls. cbn.
  change (map stall_view) with (fmap (M := list) stall_view). rewrite list_fmap_insert.
  apply Forall_insert; [exact Hok|]. apply (Hf ni ni'); [done|done|].
  apply vec_at_Ok in Hni as [_ Hl]. unfold stalls_ok, stalls in Hok. rewrite Forall_forall in Hok.
  apply Hok. change (map stall_view) with (fmap (M := list) stall_view).
  apply list_elem_of_lookup. exists (Z.to_nat i). by rewrite list_lookup_fmap, Hl.
Qed.

Lemma stalls_eq_ok n n' : stalls n' = stalls n -> stalls_ok n -> stalls_ok n'.
Proof. unfold stalls_ok. by intros ->. Qed.

(** The stall queue of interface [i]. *)
Lemma stalls_at i n n' ni :
  stalls n' = stalls n -> NI.ni_at i n = Ok ni ->
  exists ni', NI.ni_at i n' = Ok ni' /\ stall_view ni' = stall_view ni.
Proof.
  intros Heq Hni. apply vec_at_Ok in Hni as [Hi Hl].
  assert (stalls n' !! Z.to_nat i = Some (stall_view ni)) as Hs.
  { rewrite Heq. unfold stalls. change (map stall_view) with (fmap (M := list) stall_view).
    by rewrite list_lookup_fmap, Hl. }
  unfold stalls in Hs. change (map stall_view) with (fmap (M := list) stall_view) in Hs.
  apply list_lookup_fmap_Some in Hs as (ni' & Hv & Hl'). exists ni'. split; [|done].
  by apply vec_at_Ok.
Qed.

Lemma checkStall_ok i pre q n r n' ni :
  stalls_ok n -> NI.ni_at i n = Ok ni -> m_stall_queue ni = pre ++ q ->
  NI.checkStall rnd warm rt i (length pre) q n = Ok (r, n') ->
  stalls_ok n' /\
  exists ni', NI.ni_at i n' = Ok ni' /\
    if r then exists p f s, m_stall_queue ni = p ++ f :: s /\ m_stall_queue ni' = p ++ s
    else m_stall_queue ni' = m_stall_queue ni.
Proof.
  revert pre n ni. induction q as [|f q IH]; intros pre n ni Hok Hni Hq H; cbn in H.
  { simplify_res. split; [done|]. by exists ni. }
  rewrite Hni in H. cbn in H. inv_bind H. rename a into b. inv_bind H. destruct a as [ok n1].
  apply slot_available_stalls in E0. destruct (stalls_at i n n1 ni E0 Hni) as (ni1 & Hni1 & Hv1).
  pose proof (f_equal fst Hv1) as Hq1. cbn in Hq1. destruct ok.
  - inv_bind H. rename a into n2. apply eject_stalls in E1.
    destruct (stalls_at i n1 n2 ni1 E1 Hni1) as (ni2 & Hni2 & Hv2). rewrite Hni2 in H. cbn in H.
    inv_bind H. destruct a as [c ni3]. inv_bind H. rename a into n3. inv_bind H. rename a into n4.
    simplify_res. pose proof (f_equal fst Hv2) as Hq2. cbn in Hq2.
    assert (stalls_ok n2) as Hok2 by (eapply stalls_eq_ok; [|exact Hok]; congruence).
    assert (stall_ok (stall_view ni2) -> stall_ok (stall_view ni3) /\ m_stall_queue ni3 = pre ++ q) as Hun.
    { intros Hs2. eapply unstall_keeps_ok in E2 as (? & ? & _); [split; done|congruence|done]. }
    pose proof E3 as E3'. apply upd_ni_inv in E3' as (x & x' & Hx & Hx' & Hx3 & _). simplify_res.
    apply upd_ni_ok in E3; [|intros y y' Hy ? Hs; simplify_res; rewrite Hni2 in Hy; simplify_res; by apply Hun|done].
    assert (stalls n' = stalls n3) as Heq.
    { destruct (c =? 0); [by apply upd_buffer_stalls in E4|by simplify_res]. }
    split; [by eapply stalls_eq_ok|]. destruct (stalls_at i n3 n' x' Heq Hx3) as (ni4 & Hni4 & Hv4).
    exists ni4. split; [done|]. exists pre, f, q. split; [done|].
    pose proof (f_equal fst Hv4) as Hq4. cbn in Hq4. rewrite Hq4.
    apply Hun. destruct (stalls_at i n2 n2 ni2 eq_refl Hni2) as (y & Hy & _).
    unfold stalls_ok, stalls in Hok2. rewrite Forall_forall in Hok2. apply Hok2.
    apply vec_at_Ok in Hni2 as [_ Hl2]. change (map stall_view) with (fmap (M := list) stall_view).
    apply list_elem_of_lookup. exists (Z.to_nat i). by rewrite list_lookup_fmap, Hl2.
  - replace (S (length pre)) with (length (pre ++ [f])) in H by (rewrite length_app; cbn; lia).
    assert (m_stall_queue ni1 = (pre ++ [f]) ++ q) as Hq' by (by rewrite Hq1, Hq, <- app_assoc).
    destruct (IH (pre ++ [f]) n1 ni1 (stalls_eq_ok _ _ E0 Hok) Hni1 Hq' H) as (Hok' & ni' & Hni' & Hr).
    split; [done|]. exists ni'. split; [done|]. by rewrite <- Hq1.
Qed.

Lemma check_in_link_ok i m n n' :
  stalls_ok n -> NI.check_in_link rnd warm rt i m n = Ok n' -> stalls_ok n'.
Proof.
  intros Hok H. unfold NI.check_in_link in H. inv_bind H. inv_bind H. inv_bind H.
  destruct a1; [|by simplify_res]. inv_bind H. destruct a1 as [f l]. inv_bind H. rename a1 into n1.
  assert (stalls_ok n1) as Hok1.
  { unfold Links.upd_net_link in E3. run_inv E3. exact Hok. }
  unfold NI.receive_flit in H. destruct (flit.is_tail _) in H.
  - inv_bind H. destruct a1 as [d n2]. assert (stalls_ok n2) as Hok2.
    { destruct m; [by simplify_res|]. inv_bind E4. inv_bind E4. apply slot_available_stalls in E4.
      by eapply stalls_eq_ok. }
    inv_bind H. inv_bind H. destruct d.
    + apply eject_stalls in H. by eapply stalls_eq_ok.
    + inv_bind H. apply upd_buffer_stalls in H. eapply stalls_eq_ok; [exact H|].
      eapply upd_ni_ok; [|exact Hok2|exact E7]. intros x y _ Hy Hs. by eapply stall_keeps_ok.
  - run_inv H.
Qed.

End Interface.

(** After any wake-up of any interface the counters are exact again. *)
Lemma NI_wakeup_stalls_ok (rnd warm : bool) (rt : Z -> Z) (i : Z) (n n' : Net.t) :
  stalls_ok n -> NI.wakeup rnd warm rt i n = Ok n' -> stalls_ok n'.
Proof.
  intros Hok H. unfold NI.wakeup, NI.checkStallQueue in H. inv_bind H. inv_bind H. rename a0 into n1.
  assert (stalls n1 = stalls n) as H1.
  { eapply (foldM_preserve (fun m => stalls m = stalls n)) in E0; [exact E0|done|].
    intros v m1 m2 _ Hm Hp. apply pick_up_stalls in Hp. congruence. }
  inv_bind H. rename a0 into n2. apply schedule_link_stalls in E1.
  inv_bind H. rename a0 into n3. apply checkReschedule_stalls in E2.
  assert (stalls_ok n3) as Hok3 by (eapply stalls_eq_ok; [|exact Hok]; congruence).
  inv_bind H. destruct a0 as [m n4]. inv_bind E3. rename a0 into ni3.
  eapply (checkStall_ok rnd warm rt i []) in E3 as [Hok4 _]; [|exact Hok3|exact E4|done].
  inv_bind H. rename a0 into n5. apply check_in_link_ok in E3; [|done].
  inv_bind H. rename a0 into n6. apply check_credit_link_stalls in E5.
  inv_bind H. simplify_res. assert (stalls_ok n6) by (by eapply stalls_eq_ok).
  by destruct (_ >? 0).
Qed.

Module StallExample.
Import Example.

(** Interface 0 with one stalled flit, in cycle 10. *)
Definition stalled : Net.t :=
  Net.set_curCycle 10
    (unwrap net (Links.upd_ni 0 (NIState.stall (flit.set_dequeue_time 8 (packet 7 0 5))) net)).

Lemma stalled_stalls :
  stalls stalled = ([flit.set_dequeue_time 8 (packet 7 0 5)], [1]) :: replicate 3 ([], [0]).
Proof. vm_compute. reflexivity. Qed.

Lemma stalled_ok : stalls_ok stalled.
Proof.
  unfold stalls_ok. rewrite stalled_stalls.
  assert (forall q c, c = waiting 0 q -> stall_ok (q, [c])) as H1.
  { intros q c Hc v x Hx. pose proof (vec_at_inside _ _ _ Hx) as Hv. cbn in Hv, Hx.
    change (zlen [c]) with 1 in Hv. assert (v = 0) as -> by lia. injection Hx as <-. exact Hc. }
  repeat constructor; apply H1; reflexivity.
Qed.

End StallExample.
