(* ===== verification/Conserve.v ===== *)
(** * No flit is lost or duplicated

    The flits of the network are in the virtual channels of the input units,
    the crossbars, the output queues, the links and the interfaces (output
    virtual channels, output queue and stall queue). [Count.flits] counts
    those whose identity, the members of class [flit] that no operation
    writes after the injection, satisfies a predicate. The wake-ups of
    routers (with the drain), of links and of the network keep this number
    for every predicate, so they move flits and neither lose nor duplicate
    any. *)

From S2P Require Import Prelude NetDest Types FlitBuffer Channels RouterCore MsgBuffer NetState Routing RoutingFacts Network Spin RouterStep NI Frames.

(** ** The identity of a flit *)

Record flit_ident := mk_ident {
  id_id : Z;
  id_vnet : Z;
  id_src_ni : Z;
  id_dest_ni : Z;
  id_dest_router : Z;
  id_size : Z;
  id_enqueue_time : Z;
  id_type : flit_type;
  id_msg : option Message.t;
  id_marked : bool
}.

Definition ident (f : flit.t) : flit_ident :=
  mk_ident (flit.m_id f) (flit.m_vnet f) (RouteInfo.src_ni (flit.m_route f))
    (RouteInfo.dest_ni (flit.m_route f)) (RouteInfo.dest_router (flit.m_route f))
    (flit.m_size f) (flit.m_enqueue_time f) (flit.m_type f) (flit.m_msg_ptr f)
    (flit.m_marked f).

(** ** Counting *)
Module Count.
Section Count.

(** The flits counted, a number the traffic statistics contribute, and a part
    of an interface that the routers and links do not change. *)
Variables (P : flit_ident -> bool) (acct : TrafficStats.t -> Z).
Context {V : Type} (view : NetworkInterface.t -> V).

Definition weight (f : flit.t) : Z := if P (ident f) then 1 else 0.
Definition buf (b : flitBuffer.t) : Z := total weight (flitBuffer.m_buffer b).
Definition vc (v : VirtualChannel.t) : Z := buf (VirtualChannel.m_input_buffer v).
Definition input (u : InputUnit.t) : Z := total vc (InputUnit.m_vcs u).
Definition output (o : OutputUnit.t) : Z := buf (OutputUnit.m_out_buffer o).
Definition link (l : NetworkLink.t) : Z := buf (NetworkLink.linkBuffer l).

Definition router (r : Router.t) : Z :=
  total input (Router.m_input_unit r) + total output (Router.m_output_unit r)
  + total buf (CrossbarSwitch.m_switch_buffer (Router.m_switch r)).

Definition interface (ni : NetworkInterface.t) : Z :=
  total buf (NetworkInterface.m_ni_out_vcs ni) + buf (NetworkInterface.outFlitQueue ni)
  + total weight (NetworkInterface.m_stall_queue ni).

(** The flits in the network. *)
Definition flits (n : Net.t) : Z :=
  total router (Net.m_routers n) + total link (Net.net_links n) + total interface (Net.m_nis n).

Definition balance (n : Net.t) : Z := flits n + acct (Net.tstats n).

(** The queues the links read from. *)
Definition sources (n : Net.t) : list (option queue_ref) * list (option queue_ref) :=
  (map NetworkLink.link_srcQueue (Net.net_links n),
   map NetworkLink.link_srcQueue (Net.credit_links n)).

(** What does not change: the sources of the links and the part of the
    interfaces. *)
Definition frame (n : Net.t) := (sources n, map view (Net.m_nis n)).

(** [n'] has [d] flits more than [n]; the ring is the same. *)
Definition delta (d : Z) (n n' : Net.t) : Prop :=
  balance n' = balance n + d /\ frame n' = frame n /\ Net.spinRing n' = Net.spinRing n.

(** [n'] has the flits of [n]. *)
Definition keeps (n n' : Net.t) : Prop := balance n' = balance n /\ frame n' = frame n.

(** *** Buffers *)

Lemma buf_insert f b : buf (flitBuffer.insert f b) = buf b + weight f.
Proof. unfold buf. rewrite (total_Permutation _ _ _ (insert_Permutation f b)). cbn. lia. Qed.

Lemma buf_getTop b f b' : flitBuffer.getTopFlit b = Ok (f, b') -> buf b' = buf b - weight f.
Proof.
  intros H%getTopFlit_Permutation. unfold buf. rewrite (total_Permutation _ _ _ H). cbn. lia.
Qed.

Lemma buf_update_top f b :
  (forall x, ident (f x) = ident x) -> buf (flitBuffer.update_top f b) = buf b.
Proof.
  intros Hf. unfold buf, flitBuffer.update_top. destruct b as [[|x l] m]; cbn; [done|].
  unfold weight. by rewrite Hf.
Qed.

Lemma weight_ident f g : ident f = ident g -> weight f = weight g.
Proof. unfold weight. by intros ->. Qed.

(** *** Input units *)

Lemma upd_vc_input v f u u' :
  (forall x, vc (f x) = vc x) -> InputUnit.upd_vc v f u = Ok u' -> input u' = input u.
Proof.
  intros Hf H. unfold InputUnit.upd_vc in H. inv_bind H. simplify_res. unfold input. cbn.
  apply (total_upd vc) in E as (x & y & _ & Hy & ->). simplify_res. rewrite Hf. lia.
Qed.

Lemma update_top_input v f u u' :
  (forall x, ident (f x) = ident x) -> InputUnit.update_top v f u = Ok u' -> input u' = input u.
Proof. intros Hf. apply upd_vc_input. intros x. unfold vc. by apply buf_update_top. Qed.

Lemma getTopFlit_input v u f u' :
  InputUnit.getTopFlit v u = Ok (f, u') -> input u' = input u - weight f.
Proof.
  unfold InputUnit.getTopFlit, VirtualChannel.getTopFlit. intros H. run_inv H; run_all.
  unfold input. cbn. erewrite total_set; [|eassumption|eassumption].
  unfold vc at 2. cbn. erewrite buf_getTop by eassumption. unfold vc. lia.
Qed.

Lemma insertFlit_input v f u u' :
  InputUnit.upd_vc v (VirtualChannel.insertFlit f) u = Ok u' -> input u' = input u + weight f.
Proof.
  intros H. unfold InputUnit.upd_vc in H. inv_bind H. simplify_res. unfold input. cbn.
  apply (total_upd vc) in E as (x & y & _ & Hy & ->). simplify_res.
  unfold vc at 2. cbn -[flitBuffer.insert]. rewrite buf_insert. unfold vc. lia.
Qed.

(** *** A router's ports *)

Lemma Router_upd_input p f r r' :
  Router.upd_input p f r = Ok r' ->
  exists u u', vec_at (Router.m_input_unit r) p = Ok u /\ f u = Ok u' /\
    router r' = router r + input u' - input u.
Proof.
  unfold Router.upd_input. intros H. inv_bind H. simplify_res.
  apply (total_upd input) in E as (u & u' & Hu & Hf & E). exists u, u'.
  split; [done|]. split; [done|]. unfold router. cbn. lia.
Qed.

Lemma Router_upd_output p f r r' :
  Router.upd_output p f r = Ok r' ->
  exists o o', vec_at (Router.m_output_unit r) p = Ok o /\ f o = Ok o' /\
    router r' = router r + output o' - output o.
Proof.
  unfold Router.upd_output. intros H. inv_bind H. simplify_res.
  apply (total_upd output) in E as (u & u' & Hu & Hf & E). exists u, u'.
  split; [done|]. split; [done|]. unfold router. cbn. lia.
Qed.

Lemma upd_outvc_output v f o o' : OutputUnit.upd_vc v f o = Ok o' -> output o' = output o.
Proof. unfold OutputUnit.upd_vc. intros H. by run_inv H. Qed.

(** *** Changes of the network *)

Lemma delta_refl n : delta 0 n n.
Proof. split_and!; [lia|done|done]. Qed.

Lemma delta_trans a b d n1 n2 n3 : delta a n1 n2 -> delta b n2 n3 -> d = a + b -> delta d n1 n3.
Proof. intros (H1 & S1 & R1) (H2 & S2 & R2) ->. split_and!; [lia|congruence|congruence]. Qed.

Lemma delta_eq d n n' :
  Net.m_routers n' = Net.m_routers n -> Net.net_links n' = Net.net_links n ->
  Net.credit_links n' = Net.credit_links n -> Net.m_nis n' = Net.m_nis n ->
  Net.tstats n' = Net.tstats n -> Net.spinRing n' = Net.spinRing n -> d = 0 -> delta d n n'.
Proof.
  intros H1 H2 H3 H4 H5 H6 ->. unfold delta, balance, flits, frame, sources. rewrite H1, H2, H3, H4, H5.
  split_and!; [lia|done|done].
Qed.

Lemma upd_router_delta id f n n' :
  Net.upd_router id f n = Ok n' ->
  exists r r', Net.router id n = Ok r /\ f r = Ok r' /\ delta (router r' - router r) n n'.
Proof.
  unfold Net.upd_router. intros H. inv_bind H. simplify_res.
  apply (total_upd router) in E as (r & r' & Hr & Hf & E). exists r, r'.
  split; [done|]. split; [done|]. split_and!; [|done|done]. unfold balance, flits. cbn. lia.
Qed.

Lemma upd_router_keep id f n n' :
  (forall r r', f r = Ok r' -> router r' = router r) -> Net.upd_router id f n = Ok n' -> delta 0 n n'.
Proof.
  intros Hf H. apply upd_router_delta in H as (r & r' & _ & Hr & HD).
  rewrite (Hf _ _ Hr) in HD. by rewrite Z.sub_diag in HD.
Qed.

Lemma upd_input_delta id p f n n' :
  Net.upd_input id p f n = Ok n' ->
  exists r u u', Net.router id n = Ok r /\ vec_at (Router.m_input_unit r) p = Ok u /\ f u = Ok u' /\
    delta (input u' - input u) n n'.
Proof.
  unfold Net.upd_input. intros H. apply upd_router_delta in H as (r & r' & Hr & Hf & HD).
  apply Router_upd_input in Hf as (u & u' & Hu & Hf & E). exists r, u, u'.
  split_and!; [done|done|done|]. replace (input u' - input u) with (router r' - router r) by lia. done.
Qed.

Lemma upd_input_keep id p f n n' :
  (forall u u', f u = Ok u' -> input u' = input u) -> Net.upd_input id p f n = Ok n' -> delta 0 n n'.
Proof.
  intros Hf H. apply upd_input_delta in H as (r & u & u' & _ & _ & Hu & HD).
  rewrite (Hf _ _ Hu) in HD. by rewrite Z.sub_diag in HD.
Qed.

Lemma upd_output_delta id p f n n' :
  Net.upd_output id p f n = Ok n' ->
  exists r o o', Net.router id n = Ok r /\ vec_at (Router.m_output_unit r) p = Ok o /\ f o = Ok o' /\
    delta (output o' - output o) n n'.
Proof.
  unfold Net.upd_output. intros H. apply upd_router_delta in H as (r & r' & Hr & Hf & HD).
  apply Router_upd_output in Hf as (u & u' & Hu & Hf & E). exists r, u, u'.
  split_and!; [done|done|done|]. replace (output u' - output u) with (router r' - router r) by lia. done.
Qed.

Lemma upd_output_keep id p f n n' :
  (forall o o', f o = Ok o' -> output o' = output o) -> Net.upd_output id p f n = Ok n' -> delta 0 n n'.
Proof.
  intros Hf H. apply upd_output_delta in H as (r & u & u' & _ & _ & Hu & HD).
  rewrite (Hf _ _ Hu) in HD. by rewrite Z.sub_diag in HD.
Qed.

Lemma upd_ni_delta i f n n' :
  Links.upd_ni i f n = Ok n' ->
  exists ni ni', vec_at (Net.m_nis n) i = Ok ni /\ f ni = Ok ni' /\
    (view ni' = view ni -> delta (interface ni' - interface ni) n n').
Proof.
  unfold Links.upd_ni. intros H. inv_bind H. simplify_res.
  pose proof (vec_upd_inv _ _ _ _ E) as (x & y & Hx & Hy & ->). exists x, y.
  apply (total_upd interface) in E as (x' & y' & Hx' & Hy' & E). rewrite Hx in Hx'. simplify_res.
  rewrite Hy in Hy'. simplify_res. split; [done|]. split; [done|]. intros Hv.
  split_and!; [unfold balance, flits; cbn; lia| |done]. unfold frame. cbn. f_equal.
  rewrite list_fmap_insert, Hv. apply list_insert_id. rewrite list_lookup_fmap.
  apply vec_at_Ok in Hx as [_ ->]. done.
Qed.

Lemma foldM_delta {A} (f : A -> Net.t -> Res Net.t) l n n' :
  (forall a n1 n2, f a n1 = Ok n2 -> delta 0 n1 n2) -> foldM f l n = Ok n' -> delta 0 n n'.
Proof.
  intros Hf. apply (foldM_preserve (fun s => delta 0 n s)); [apply delta_refl|].
  intros a s1 s2 _ Hs H. by eapply delta_trans; [exact Hs|by eapply Hf|].
Qed.

(** *** Switch allocation *)

Section Pipeline.
Variables (net : NetConfig.t) (cur : Z).

Definition rc (c : RC.t) : Z := router (RC.router c).

Lemma RC_upd_input p f c c' :
  RC.upd_input p f c = Ok c' ->
  exists u u', RC.input p c = Ok u /\ f u = Ok u' /\ rc c' = rc c + input u' - input u.
Proof. unfold RC.upd_input. intros H. inv_bind H. simplify_res. by apply Router_upd_input in E. Qed.

Lemma RC_upd_output p f c c' :
  RC.upd_output p f c = Ok c' ->
  exists o o', RC.output p c = Ok o /\ f o = Ok o' /\ rc c' = rc c + output o' - output o.
Proof. unfold RC.upd_output. intros H. inv_bind H. simplify_res. by apply Router_upd_output in E. Qed.

Lemma RC_upd_input_keep p f c c' :
  (forall u u', f u = Ok u' -> input u' = input u) -> RC.upd_input p f c = Ok c' -> rc c' = rc c.
Proof. intros Hf (u & u' & _ & Hu & ->)%RC_upd_input. rewrite (Hf _ _ Hu). lia. Qed.

Lemma RC_upd_output_keep p f c c' :
  (forall o o', f o = Ok o' -> output o' = output o) -> RC.upd_output p f c = Ok c' -> rc c' = rc c.
Proof. intros Hf (u & u' & _ & Hu & ->)%RC_upd_output. rewrite (Hf _ _ Hu). lia. Qed.

Lemma RC_update_top_keep p v f c c' :
  (forall x, ident (f x) = ident x) ->
  RC.upd_input p (InputUnit.update_top v f) c = Ok c' -> rc c' = rc c.
Proof. intros Hf. apply RC_upd_input_keep. intros u u'. by apply update_top_input. Qed.

Lemma rc_add_uturn a b d c : rc (RC.add_uturn a b d c) = rc c.
Proof. done. Qed.

Lemma rc_set_alloc a c : rc (RC.set_alloc a c) = rc c.
Proof. done. Qed.

Lemma rc_schedule w k c : rc (RC.schedule net cur w k c) = rc c.
Proof. done. Qed.

Ltac rc_chain := rewrite ?rc_schedule, ?rc_add_uturn, ?rc_set_alloc in *; congruence.

Lemma deflect_to_keep d q p v c c' : SA.deflect_to d q p v c = Ok c' -> rc c' = rc c.
Proof. unfold SA.deflect_to. intros H. run_inv H. by eapply RC_update_top_keep; [|exact E]. Qed.

Lemma disallow_uturn_keep p v d c c' : SA.disallow_uturn p v d c = Ok c' -> rc c' = rc c.
Proof.
  unfold SA.disallow_uturn, SA.deflect. intros H. run_inv H; by apply deflect_to_keep in H.
Qed.

Lemma mark_uturn_keep p v c c' : SA.mark_uturn net p v c = Ok c' -> rc c' = rc c.
Proof.
  unfold SA.mark_uturn. intros H. run_inv H;
  repeat match goal with
  | H : RC.upd_input _ (InputUnit.update_top _ _) _ = Ok _ |- _ => apply RC_update_top_keep in H; [|done]
  | H : SA.disallow_uturn _ _ _ _ = Ok _ |- _ => apply disallow_uturn_keep in H
  end; rc_chain.
Qed.

Lemma try_invc_keep p v c c' b : SA.try_invc net cur p v c = Ok (c', b) -> rc c' = rc c.
Proof.
  unfold SA.try_invc, SA.place_request. intros H. run_inv H; run_all;
  repeat match goal with
  | H : SA.mark_uturn _ _ _ _ = Ok _ |- _ => apply mark_uturn_keep in H
  end; rc_chain.
Qed.

Lemma arbitrate_invc_keep k p v c c' : SA.arbitrate_invc net cur k p v c = Ok c' -> rc c' = rc c.
Proof.
  revert v c. induction k as [|k IH]; intros v c H; cbn in H; [by simplify_res|].
  inv_bind H. destruct a as [c1 []]; simplify_res; [by apply try_invc_keep in E|].
  apply IH in H. apply try_invc_keep in E. congruence.
Qed.

Lemma arbitrate_inports_keep c c' : SA.arbitrate_inports net cur c = Ok c' -> rc c' = rc c.
Proof.
  unfold SA.arbitrate_inports. intros H. run_inv H; [done|].
  revert H. apply (foldM_preserve (fun s => rc s = rc c)); [done|].
  intros p s1 s2 _ Hs Hf. run_inv Hf. apply arbitrate_invc_keep in Hf. congruence.
Qed.

Lemma select_free_vc_output v o k o' :
  OutputUnit.select_free_vc cur v o = Ok (k, o') -> output o' = output o.
Proof.
  unfold OutputUnit.select_free_vc, OutputUnit.set_vc_state. intros H. run_inv H; [|done].
  by apply upd_outvc_output in E0.
Qed.

Lemma vc_allocate_keep o p v c k c' : SA.vc_allocate cur o p v c = Ok (k, c') -> rc c' = rc c.
Proof.
  unfold SA.vc_allocate. intros H. run_inv H; run_all.
  apply RC_upd_output in E2 as (x & y & Hx & Hy & E2). simplify_res. rewrite E0 in Hx. simplify_res.
  apply select_free_vc_output in E1. apply RC_upd_input_keep in E4; [lia|].
  intros u u'. by apply upd_vc_input.
Qed.

Lemma count_uturn_keep p v c c' : SA.count_uturn p v c = Ok c' -> rc c' = rc c.
Proof.
  unfold SA.count_uturn. intros H. run_inv H; [|done].
  by eapply RC_update_top_keep in H.
Qed.

Lemma increment_credit_input v b u : input (InputUnit.increment_credit net v b cur u) = input u.
Proof. done. Qed.

Lemma return_credit_keep p v f c c' : SA.return_credit net cur p v f c = Ok c' -> rc c' = rc c.
Proof.
  unfold SA.return_credit. intros H. run_inv H. unfold rc. cbn. change (rc a = rc c).
  destruct (flit.is_tail f).
  - run_inv E. apply RC_upd_input_keep in E; [|intros; by simplify_res].
    apply RC_upd_input_keep in E4; [congruence|]. intros u u'. by apply upd_vc_input.
  - apply RC_upd_input_keep in E; [done|intros; by simplify_res].
Qed.

Lemma grant_switch_router p f r r' :
  Router.grant_switch p f r = Ok r' -> router r' = router r + weight f.
Proof.
  unfold Router.grant_switch, CrossbarSwitch.update_sw_winner. intros H. run_inv H. run_all.
  apply (total_upd buf) in E0 as (x & y & _ & Hy & E0). simplify_res. unfold router. cbn.
  rewrite E0, buf_insert. lia.
Qed.

(** A grant moves one flit from a virtual channel to the crossbar. *)
Lemma grant_keep o p c c' : SA.grant net cur o p c = Ok c' -> rc c' = rc c.
Proof.
  unfold SA.grant, SA.advance_rr_invc, SA.clear_request, SA.advance_rr_inport. intros H.
  inv_bind H. clear E. inv_bind H. rename a0 into v. clear E. inv_bind H. rename a0 into c1.
  assert (rc c1 = rc c) as Hc1 by (by run_inv E). clear E.
  inv_bind H. clear E. inv_bind H. clear E. inv_bind H. destruct a2 as [k c2].
  assert (rc c2 = rc c1) as Hc2 by (destruct (_ =? -1); [by apply vc_allocate_keep in E|by simplify_res]).
  clear E. inv_bind H. rename a2 into c3. apply count_uturn_keep in E.
  inv_bind H. rename a2 into u. inv_bind H. destruct a2 as [f u']. inv_bind H. rename a2 into c4.
  apply getTopFlit_input in E1. apply RC_upd_input in E2 as (x & y & Hx & Hy & E2). simplify_res.
  rewrite E0 in Hx. simplify_res. inv_bind H. inv_bind H. rename a3 into c5.
  apply RC_upd_output_keep in E4; [|intros ??; apply upd_outvc_output].
  inv_bind H. rename a3 into r. apply grant_switch_router in E5.
  erewrite (weight_ident _ f) in E5 by reflexivity. cbn zeta in H.
  inv_bind H. rename a3 into c6. apply return_credit_keep in E6. inv_bind H. inv_bind E7. simplify_res.
  inv_bind H. simplify_res. rewrite !rc_set_alloc in *. unfold rc in *. cbn [RC.set_router RC.router] in *. lia.
Qed.

Lemma arbitrate_outports_keep c c' : SA.arbitrate_outports net cur c = Ok c' -> rc c' = rc c.
Proof.
  unfold SA.arbitrate_outports. intros H. run_inv H; [done|].
  revert H. apply (foldM_preserve (fun s => rc s = rc c)); [done|].
  intros o s1 s2 _ Hs Hf. run_inv Hf. rewrite <- Hs. clear - Hf.
  revert a Hf. generalize (Z.to_nat (SwitchAllocator.m_num_inports (RC.alloc s1))) as k.
  induction k as [|k IH]; intros p H; cbn in H; [by simplify_res|].
  run_inv H; [by apply grant_keep in H|by apply IH in H].
Qed.

Lemma SA_wakeup_keep c c' : SA.wakeup net cur c = Ok c' -> rc c' = rc c.
Proof.
  unfold SA.wakeup, SA.check_for_wakeup. intros H. inv_bind H. inv_bind H. inv_bind H. simplify_res.
  apply arbitrate_inports_keep in E. apply arbitrate_outports_keep in E0.
  unfold SA.clear_request_vector. destruct a1; cbv beta iota; rc_chain.
Qed.

(** *** Switch traversal *)

Lemma RC_upd_output_switch p f c c' :
  RC.upd_output p f c = Ok c' -> Router.m_switch (RC.router c') = Router.m_switch (RC.router c).
Proof. unfold RC.upd_output, Router.upd_output. intros H. run_inv H. by run_inv E. Qed.

Lemma traverse_keep p c c' : XBar.traverse net cur p c = Ok c' -> rc c' = rc c.
Proof.
  unfold XBar.traverse. intros H. inv_bind H. rename a into b. inv_bind H.
  destruct a; cbn [negb] in H; [|by simplify_res].
  inv_bind H. rename a into f. destruct (flit.is_stage _ _ _); [|by simplify_res].
  inv_bind H. rename a into o. inv_bind H. rename a into c1. inv_bind H. destruct a as [f' b'].
  inv_bind H. simplify_res. pose proof (RC_upd_output_switch _ _ _ _ E3) as Hs.
  apply RC_upd_output in E3 as (o1 & o2 & Ho1 & Ho2 & E3). simplify_res.
  unfold output at 1 in E3. cbn -[flitBuffer.insert] in E3. rewrite buf_insert in E3. fold (output o1) in E3.
  erewrite (weight_ident _ f) in E3 by reflexivity.
  assert (weight f' = weight f) as Hw.
  { unfold flitBuffer.getTopFlit, flitBuffer.peekTopFlit, flitBuffer.update_top in *.
    destruct b as [[|x l] m]; cbn in *; simplify_res. run_all. by apply weight_ident. }
  apply buf_getTop in E4. rewrite buf_update_top in E4 by done.
  rewrite <- Hs in E, E5. pose proof (total_set buf _ _ _ _ _ E E5) as Ht.
  unfold rc, router in *. cbn in *. lia.
Qed.

Lemma XBar_wakeup_keep c c' : XBar.wakeup net cur c = Ok c' -> rc c' = rc c.
Proof.
  unfold XBar.wakeup. apply (foldM_preserve (fun s => rc s = rc c)); [done|].
  intros p s1 s2 _ Hs H%traverse_keep. congruence.
Qed.

End Pipeline.

Lemma on_router_delta id stage n n' :
  (forall c c', stage c = Ok c' -> rc c' = rc c) -> Net.on_router id stage n = Ok n' -> delta 0 n n'.
Proof.
  intros Hs H. unfold Net.on_router in H. inv_bind H. rename a into r. inv_bind H. rename a into c.
  apply Hs in E0. inv_bind H. simplify_res. split_and!; [|done|done].
  unfold balance, flits. cbn. rewrite (total_set router _ _ _ _ _ E E1).
  unfold rc in E0. cbn in E0. lia.
Qed.

(** *** Routing *)

(** Chains the changes of a run; what is left are the operations with an
    effect of their own. *)
Ltac deltas :=
  repeat match goal with
  | H : Net.upd_router _ _ _ = Ok _ |- _ => apply upd_router_keep in H; [|intros; by simplify_res]
  end;
  repeat match goal with
  | H : delta 0 ?n ?m |- delta 0 ?n _ => apply (delta_trans 0 0 0 _ m); [exact H| |lia]; clear H
  end; try done; try (by apply delta_refl); try (by apply delta_eq).

Lemma port_of_delta id d n p n' : Route.port_of id d n = Ok (p, n') -> delta 0 n n'.
Proof.
  unfold Route.port_of. intros H. inv_bind H. destruct (RoutingUnit.outport_index d _).
  run_inv H. deltas.
Qed.

Lemma neighbour_free_delta id d o n p n' : Route.neighbour_free id d o n = Ok (p, n') -> delta 0 n n'.
Proof.
  unfold Route.neighbour_free, Router.get_numFreeVC. intros H.
  inv_bind H. inv_bind H. destruct a0 as [j|]; [|done]. inv_bind H. rename a0 into r.
  inv_bind H. destruct a0 as [k r']. inv_bind H. simplify_res.
  apply upd_router_delta in E3 as (x & y & Hx & Hy & HD). simplify_res. rewrite E1 in Hx. simplify_res.
  inv_bind E2. destruct (RoutingUnit.inport_index _ _). inv_bind E2. inv_bind E2. simplify_res.
  by rewrite Z.sub_diag in HD.
Qed.

Lemma adaptive_port_delta id h r n p n' : Route.adaptive_port id h r n = Ok (p, n') -> delta 0 n n'.
Proof.
  unfold Route.adaptive_port. intros H. inv_bind H. destruct a as [fx n1].
  inv_bind H. destruct a as [fy n2]. apply neighbour_free_delta in E, E0. apply port_of_delta in H. deltas.
Qed.

Lemma table_route_delta id route n p n' : Route.table_route id route n = Ok (p, n') -> delta 0 n n'.
Proof. unfold Route.table_route. intros H. run_inv H. deltas. Qed.

Lemma outportCompute_delta id route n p n' :
  Route.outportCompute id route n = Ok (p, n') -> delta 0 n n'.
Proof.
  unfold Route.outportCompute. intros H. inv_bind H.
  destruct (_ =? _); [by apply table_route_delta in H|].
  run_inv H. destruct (RoutingAlgorithm_of_int _);
    [by apply table_route_delta in E0 | | | | | | done | by apply table_route_delta in E0];
    [unfold Route.outportComputeXY in E0 | unfold Route.outportComputeRandom in E0
    |unfold Route.outportComputeAdaptRand in E0 | unfold Route.outportComputeWestFirst in E0
    |unfold Route.outportComputeAdaptWestFirst in E0];
    cbn in E0; run_inv E0;
    first [apply port_of_delta in E0 | apply adaptive_port_delta in E0]; exact E0.
Qed.

(** *** Links and ports *)

Lemma upd_net_link_delta id l' n n' :
  Links.upd_net_link id (fun _ => l') n = Ok n' ->
  exists l, vec_at (Net.net_links n) id = Ok l /\
    (NetworkLink.link_srcQueue l' = NetworkLink.link_srcQueue l -> delta (link l' - link l) n n').
Proof.
  unfold Links.upd_net_link. intros H. inv_bind H. simplify_res.
  pose proof (vec_upd_inv _ _ _ _ E) as (l0 & y & Hl0 & Hy & ->). simplify_res.
  apply (total_upd link) in E as (l & y' & Hl & Hy' & E). simplify_res. exists l0. split; [done|].
  intros Hs. rewrite Hl0 in Hl. simplify_res. split_and!; [|unfold frame, sources; cbn; do 2 f_equal|done].
  - unfold balance, flits. cbn. lia.
  - rewrite list_fmap_insert, Hs. apply list_insert_id. rewrite list_lookup_fmap.
    apply vec_at_Ok in Hl0 as [_ ->]. done.
Qed.

Lemma upd_credit_link_delta id l' n n' :
  Links.upd_credit_link id (fun _ => l') n = Ok n' ->
  exists l, vec_at (Net.credit_links n) id = Ok l /\
    (NetworkLink.link_srcQueue l' = NetworkLink.link_srcQueue l -> delta 0 n n').
Proof.
  unfold Links.upd_credit_link. intros H. inv_bind H. simplify_res.
  pose proof (vec_upd_inv _ _ _ _ E) as (l0 & y & Hl0 & Hy & ->). simplify_res. exists l0. split; [done|].
  intros Hs. split_and!; [unfold balance, flits; cbn; lia|unfold frame, sources; cbn; do 2 f_equal|done].
  rewrite list_fmap_insert, Hs. apply list_insert_id. rewrite list_lookup_fmap.
  apply vec_at_Ok in Hl0 as [_ ->]. done.
Qed.

Lemma consumeLink_link l f l' :
  NetworkLink.consumeLink l = Ok (f, l') ->
  link l' = link l - weight f /\ NetworkLink.link_srcQueue l' = NetworkLink.link_srcQueue l.
Proof.
  unfold NetworkLink.consumeLink. intros H. inv_bind H. destruct a. simplify_res.
  split; [|done]. unfold link. cbn. run_all. by apply buf_getTop in E.
Qed.

Lemma route_head_delta id p v u f n f' n' :
  GarnetNetwork.route_head id p v u f n = Ok (f', n') -> delta 0 n n' /\ ident f' = ident f.
Proof.
  unfold GarnetNetwork.route_head. intros H. run_inv H; run_all; [|split; [apply delta_refl|done]].
  split; [|done]. apply outportCompute_delta in E2.
  apply upd_input_keep in E1; [deltas|]. intros x y. by apply upd_vc_input.
Qed.

Lemma buffer_flit_input v f u u' :
  GarnetNetwork.buffer_flit v f u = Ok u' -> input u' = input u + weight f.
Proof.
  unfold GarnetNetwork.buffer_flit. intros H. inv_bind H. inv_bind H. inv_bind H. simplify_res.
  by apply insertFlit_input in E.
Qed.

(** A flit that arrives goes from the link to a virtual channel. *)
Lemma input_wakeup_delta id p n n' : GarnetNetwork.input_wakeup id p n = Ok n' -> delta 0 n n'.
Proof.
  unfold GarnetNetwork.input_wakeup. intros H. inv_bind H. rename a into r. inv_bind H. rename a into u.
  inv_bind H. rename a into l. inv_bind H. destruct a; cbn [negb] in H; [|simplify_res; apply delta_refl].
  inv_bind H. destruct a as [f l']. inv_bind H. rename a into n1. inv_bind H. destruct a as [f1 n2].
  inv_bind H. inv_bind H. rename a0 into n3. simplify_res.
  apply consumeLink_link in E3 as [Hl Hs]. apply upd_net_link_delta in E4 as (l0 & Hl0 & D1).
  rewrite E1 in Hl0. simplify_res. specialize (D1 Hs).
  apply route_head_delta in E5 as [D2 Hf].
  apply upd_input_delta in E7 as (r1 & u1 & u2 & _ & _ & Hb & D3).
  apply buffer_flit_input in Hb. erewrite (weight_ident _ f1) in Hb by reflexivity.
  rewrite (weight_ident f1 f) in Hb by done.
  apply (delta_trans (link l' - link l0) (input u2 - input u1) _ _ n2);
    [by apply (delta_trans (link l' - link l0) 0 _ _ n1); [| |lia]| |lia].
  apply (delta_trans (input u2 - input u1) 0 _ _ n3); [done|destruct (_ =? 0); by apply delta_eq|lia].
Qed.

Lemma output_wakeup_delta id p n n' : GarnetNetwork.output_wakeup id p n = Ok n' -> delta 0 n n'.
Proof.
  unfold GarnetNetwork.output_wakeup. intros H. inv_bind H. rename a into r. inv_bind H. rename a into o.
  inv_bind H. rename a into l. inv_bind H. destruct a as [l' o']. inv_bind H. rename a into n1.
  assert (output o' = output o /\ NetworkLink.link_srcQueue l' = NetworkLink.link_srcQueue l) as [Ho Hs].
  { unfold OutputUnit.wakeup, OutputUnit.increment_credit, OutputUnit.set_vc_state in E2.
    inv_bind E2. destruct a; [|by simplify_res]. inv_bind E2. destruct a as [cr l1].
    apply consumeLink_link in E5 as [_ Hs]. inv_bind E2. apply upd_outvc_output in E5.
    inv_bind E2. destruct a0; [|simplify_res; split; [done|congruence]].
    inv_bind E2. apply upd_outvc_output in E7. run_all. split; [congruence|done]. }
  assert (Net.m_routers n1 = Net.m_routers n) as Hrs
    by (unfold Links.upd_credit_link in E3; by run_inv E3).
  apply upd_credit_link_delta in E3 as (l0 & Hl0 & D1). rewrite E1 in Hl0. simplify_res.
  specialize (D1 Hs). apply upd_output_delta in H as (r1 & o1 & o2 & Hr1 & Ho1 & Ho2 & D2). simplify_res.
  unfold Net.router in *. rewrite Hrs, E in Hr1. simplify_res. rewrite E0 in Ho1. simplify_res.
  by apply (delta_trans 0 (output o2 - output o1) _ _ n1); [| |lia].
Qed.

Lemma input_units_wakeup_delta id n n' :
  GarnetNetwork.input_units_wakeup id n = Ok n' -> delta 0 n n'.
Proof.
  unfold GarnetNetwork.input_units_wakeup. intros H. inv_bind H. revert H.
  apply foldM_delta. apply input_wakeup_delta.
Qed.

Lemma output_units_wakeup_delta id n n' :
  GarnetNetwork.output_units_wakeup id n = Ok n' -> delta 0 n n'.
Proof.
  unfold GarnetNetwork.output_units_wakeup. intros H. inv_bind H. revert H.
  apply foldM_delta. apply output_wakeup_delta.
Qed.

Lemma set_flit_time_delta v n n' : GarnetNetwork.set_flit_time v n = Ok n' -> delta 0 n n'.
Proof.
  unfold GarnetNetwork.set_flit_time. intros H. inv_bind H. simplify_res.
  apply (total_mapM router) in E; [split_and!; [unfold balance, flits; cbn; lia|done|done]|].
  intros r r' Hr. inv_bind Hr. simplify_res. apply (total_mapM input) in E0; [unfold router; cbn; lia|].
  intros u u' Hu. unfold GarnetNetwork.set_flit_time_port in Hu. inv_bind Hu.
  destruct (_ && _); [|by simplify_res]. by apply update_top_input in Hu.
Qed.

Lemma scheduleAll_wakeup_delta k n : delta 0 n (GarnetNetwork.scheduleAll_wakeup k n).
Proof.
  unfold GarnetNetwork.scheduleAll_wakeup. generalize (Net.m_routers n) as l. intros l. revert n.
  induction l as [|r l IH]; intros n; cbn; [apply delta_refl|].
  by apply (delta_trans 0 0 0 _ (Net.schedule (CRouter (Router.m_id r)) k n)); [apply delta_eq|apply IH|].
Qed.

Lemma set_halt_delta b n : delta 0 n (GarnetNetwork.set_halt b n).
Proof.
  split_and!; [|done|done]. unfold balance, flits. cbn. induction (Net.m_routers n); cbn; [lia|].
  change (router (Router.set_halt_ b a)) with (router a). lia.
Qed.

(** *** Link wake-ups *)

(** A flit link reads from an output queue, a credit link from a credit
    queue. *)
Definition flit_source (q : option queue_ref) : bool :=
  match q with Some (CreditQueue _ _) | Some (NICreditQueue _) => false | _ => true end.

Definition credit_source (q : option queue_ref) : bool :=
  match q with Some (OutQueue _ _) | Some (NIFlitQueue _) => false | _ => true end.

Definition wired (n : Net.t) : Prop :=
  Forall (fun q => flit_source q = true) (sources n).1 /\
  Forall (fun q => credit_source q = true) (sources n).2.

Lemma link_wakeup_link cur b l b' l' ev :
  NetworkLink.wakeup cur b l = Ok (b', l', ev) ->
  link l' - link l = buf b - buf b' /\ NetworkLink.link_srcQueue l' = NetworkLink.link_srcQueue l.
Proof.
  unfold NetworkLink.wakeup. intros H. inv_bind H. destruct a; [|simplify_res; split; [lia|done]].
  inv_bind H. destruct a as [f src]. inv_bind H. inv_bind H. simplify_res. split; [|done].
  apply buf_getTop in E0. unfold link. cbn -[flitBuffer.insert]. rewrite buf_insert.
  erewrite (weight_ident _ f) by reflexivity. lia.
Qed.

Hypothesis view_flit_queue : forall b ni, view (NetworkInterface.set_outFlitQueue b ni) = view ni.
Hypothesis view_credit_queue : forall b ni, view (NetworkInterface.set_outCreditQueue b ni) = view ni.

Lemma write_queue_delta q b b' n n' :
  Links.read_queue q n = Ok b -> Links.write_queue q b' n = Ok n' ->
  Net.net_links n' = Net.net_links n /\ Net.credit_links n' = Net.credit_links n /\
  delta (if flit_source (Some q) then buf b' - buf b else 0) n n'.
Proof.
  destruct q as [id p|id p|i|i]; cbn; intros Hr H.
  - split_and!; [| |].
    1-2: unfold Net.upd_output, Net.upd_router in H; by run_inv H.
    inv_bind Hr. inv_bind Hr. simplify_res.
    apply upd_output_delta in H as (r & o & o' & H1 & H2 & H3 & HD). rewrite E in H1. simplify_res.
    rewrite E0 in H2. by simplify_res.
  - split_and!; [| |].
    1-2: unfold Net.upd_input, Net.upd_router in H; by run_inv H.
    apply upd_input_keep in H; [done|]. intros u u' Hu. by simplify_res.
  - split_and!; [| |].
    1-2: unfold Links.upd_ni in H; by run_inv H.
    inv_bind Hr. simplify_res. apply upd_ni_delta in H as (x & y & H1 & H2 & HD).
    rewrite E in H1. simplify_res. eapply (delta_trans _ 0); [by apply HD|apply delta_refl|].
    unfold interface. cbn. lia.
  - split_and!; [| |].
    1-2: unfold Links.upd_ni in H; by run_inv H.
    apply upd_ni_delta in H as (x & y & H1 & H2 & HD). simplify_res.
    eapply (delta_trans _ 0); [by apply HD|apply delta_refl|]. unfold interface. cbn. lia.
Qed.

Lemma run_link_delta l n l' n' :
  Links.run_link l n = Ok (l', n') ->
  Net.net_links n' = Net.net_links n /\ Net.credit_links n' = Net.credit_links n /\
  NetworkLink.link_srcQueue l' = NetworkLink.link_srcQueue l /\
  delta (if flit_source (NetworkLink.link_srcQueue l) then link l - link l' else 0) n n'.
Proof.
  unfold Links.run_link, Links.source. intros H. inv_bind H. rename a into q.
  destruct (NetworkLink.link_srcQueue l) as [q'|] eqn:Hq; [|done]. simplify_res.
  inv_bind H. rename a into b. inv_bind H. destruct a as [[b' l1] ev]. inv_bind H. rename a into n1.
  simplify_res. apply link_wakeup_link in E0 as [Hl Hs].
  apply (write_queue_delta _ _ _ _ _ E) in E1 as (N1 & C1 & D1).
  replace (if flit_source (Some q) then link l - link l' else 0)
    with (if flit_source (Some q) then buf b' - buf b else 0) by (destruct (flit_source _); lia).
  destruct ev as [[c k]|]; split_and!; try done; try congruence.
Qed.

Lemma wired_net_link n id l :
  wired n -> vec_at (Net.net_links n) id = Ok l -> flit_source (NetworkLink.link_srcQueue l) = true.
Proof.
  intros [Hf _] [_ Hl]%vec_at_Ok. cbn in Hf. rewrite Forall_fmap in Hf. by eapply Forall_lookup_1 in Hf.
Qed.

Lemma wired_credit_link n id l :
  wired n -> vec_at (Net.credit_links n) id = Ok l -> credit_source (NetworkLink.link_srcQueue l) = true.
Proof.
  intros [_ Hf] [_ Hl]%vec_at_Ok. cbn in Hf. rewrite Forall_fmap in Hf. by eapply Forall_lookup_1 in Hf.
Qed.

Lemma network_link_wakeup_delta id n n' :
  wired n -> Links.network_link_wakeup id n = Ok n' -> delta 0 n n'.
Proof.
  intros Hw H. unfold Links.network_link_wakeup in H. inv_bind H. rename a into l.
  inv_bind H. destruct a as [l' n1]. inv_bind H. simplify_res.
  apply run_link_delta in E0 as (N1 & C1 & Hs & D1). rewrite (wired_net_link _ _ _ Hw E) in D1.
  destruct (upd_net_link_delta id l' n1 (Net.set_net_links a n1)) as (l0 & Hl0 & D2).
  { unfold Links.upd_net_link, vec_upd. rewrite N1, E. cbn. rewrite <- N1, E1. done. }
  rewrite N1, E in Hl0. simplify_res.
  eapply delta_trans; [exact D1|by apply D2|lia].
Qed.

Lemma credit_link_wakeup_delta id n n' :
  wired n -> Links.credit_link_wakeup id n = Ok n' -> delta 0 n n'.
Proof.
  intros Hw H. unfold Links.credit_link_wakeup in H. inv_bind H. rename a into l.
  inv_bind H. destruct a as [l' n1]. inv_bind H. simplify_res.
  assert (exists q, NetworkLink.link_srcQueue l = Some q) as [q Hq].
  { unfold Links.run_link, Links.source in E0. destruct (NetworkLink.link_srcQueue l); [by eexists|done]. }
  pose proof (wired_credit_link _ _ _ Hw E) as Hc.
  apply run_link_delta in E0 as (N1 & C1 & Hs & D1).
  assert (flit_source (NetworkLink.link_srcQueue l) = false) as Hf by (rewrite Hq in *; by destruct q).
  rewrite Hf in D1.
  destruct (upd_credit_link_delta id l' n1 (Net.set_credit_links a n1)) as (l0 & Hl0 & D2).
  { unfold Links.upd_credit_link, vec_upd. rewrite C1, E. cbn. rewrite <- C1, E1. done. }
  rewrite C1, E in Hl0. simplify_res.
  eapply delta_trans; [exact D1|by apply D2|lia].
Qed.

(** *** The spin *)

(** The flit a node of the ring holds between the two stages. *)
Definition held (s : spinStruct.t) : Z :=
  match spinStruct.flit_ s with Some f => weight f | None => 0 end.

Lemma inport_of_delta id d n p n' : Spin.inport_of id d n = Ok (p, n') -> delta 0 n n'.
Proof.
  unfold Spin.inport_of. intros H. inv_bind H. destruct (RoutingUnit.inport_index d _).
  run_inv H. deltas.
Qed.

Lemma on_upstream_delta id d w f n n' :
  (forall o o', f o = Ok o' -> output o' = output o) ->
  Spin.on_upstream id d w f n = Ok n' -> delta 0 n n'.
Proof.
  intros Hf H. unfold Spin.on_upstream in H. inv_bind H. inv_bind H. destruct a0 as [j|]; [|done].
  inv_bind H. inv_bind H. destruct a1 as [p n1]. apply port_of_delta in E2.
  apply upd_output_keep in H; [deltas|done].
Qed.

Lemma free_outvc_output v c o o' : Spin.free_outvc v c o = Ok o' -> output o' = output o.
Proof.
  unfold Spin.free_outvc, OutputUnit.increment_credit, OutputUnit.set_vc_state. intros H. inv_bind H.
  apply upd_outvc_output in E, H. congruence.
Qed.

Lemma occupy_outvc_output v c o o' : Spin.occupy_outvc v c o = Ok o' -> output o' = output o.
Proof.
  unfold Spin.occupy_outvc, OutputUnit.decrement_credit, OutputUnit.set_vc_state. intros H. inv_bind H.
  apply upd_outvc_output in E, H. congruence.
Qed.

(** A step of stage 1 lifts a flit of weight [w] into node [k] of the ring. *)
Definition lifts (k : Z) (n n' : Net.t) : Prop :=
  exists s fo, vec_at (Net.spinRing n) k = Ok s /\
    Net.spinRing n' = <[Z.to_nat k := spinStruct.set_flit fo s]> (Net.spinRing n) /\
    balance n' + held (spinStruct.set_flit fo s) = balance n /\ frame n' = frame n.

Lemma lifts_delta k d n1 n2 n3 n4 :
  delta d n1 n2 -> Spin.set_ring_flit k None n2 = Ok n3 -> delta 0 n3 n4 -> d = 0 -> lifts k n1 n4.
Proof.
  intros (B1 & S1 & R1) H (B2 & S2 & R2) ->. unfold Spin.set_ring_flit in H. inv_bind H. simplify_res.
  apply vec_upd_inv in E as (s & s' & Hs & Hs' & ->). simplify_res.
  exists s, None. rewrite R2, <- R1. split_and!; [done|done| |by rewrite S2, <- S1].
  unfold held. cbn. unfold balance, flits in *. cbn in *. lia.
Qed.

Lemma lifts_flit k f d n1 n2 n3 n4 :
  delta d n1 n2 -> Spin.set_ring_flit k (Some f) n2 = Ok n3 -> delta 0 n3 n4 -> d = - weight f ->
  lifts k n1 n4.
Proof.
  intros (B1 & S1 & R1) H (B2 & S2 & R2) ->. unfold Spin.set_ring_flit in H. inv_bind H. simplify_res.
  apply vec_upd_inv in E as (s & s' & Hs & Hs' & ->). simplify_res.
  exists s, (Some f). rewrite R2, <- R1. split_and!; [done|done| |by rewrite S2, <- S1].
  unfold held. cbn. unfold balance, flits in *. cbn in *. lia.
Qed.

Lemma take_flit_lifts v i p node n n' :
  Spin.take_flit v i p node n = Ok n' -> lifts (i + 1) n n'.
Proof.
  unfold Spin.take_flit. intros H. inv_bind H. rename a into r. inv_bind H. rename a into u.
  inv_bind H. inv_bind H. inv_bind H. destruct a1 as [f u']. inv_bind H. rename a1 into n1.
  inv_bind H. inv_bind H. inv_bind H. inv_bind H. rename a4 into n2. inv_bind H. rename a4 into n3.
  apply getTopFlit_input in E3. apply upd_input_delta in E4 as (r1 & u1 & u2 & Hr1 & Hu1 & Hu2 & D1).
  simplify_res. rewrite E in Hr1. simplify_res. rewrite E0 in Hu1. simplify_res.
  apply upd_input_keep in E9; [|intros x y; by apply upd_vc_input].
  apply on_upstream_delta in H; [|apply free_outvc_output].
  eapply (lifts_flit _ _ (- weight f)); [|exact E8| |done].
  - eapply (delta_trans _ 0); [exact D1|destruct a2; by apply delta_eq|lia].
  - deltas.
Qed.

Lemma remove_stage_lifts v i st st' :
  Spin.remove_stage v i st = Ok st' -> lifts (i + 1) st.2 st'.2.
Proof.
  destruct st as [k n]. unfold Spin.remove_stage. intros H. inv_bind H. rename a into node.
  inv_bind H. destruct a as [p n1]. apply inport_of_delta in E0. inv_bind H. inv_bind H.
  destruct a0; inv_bind H; simplify_res; cbn.
  - by eapply lifts_delta; [exact E0|exact E3|by apply delta_eq|].
  - apply take_flit_lifts in E3 as (s & fo & Hs & HR & HB & HS). destruct E0 as (B1 & S1 & R1).
    exists s, fo. rewrite <- R1, <- S1. split_and!; [done|done|lia|done].
Qed.

Lemma place_flit_delta v p node f n n' :
  Spin.place_flit v p node f n = Ok n' -> delta (weight f) n n'.
Proof.
  unfold Spin.place_flit. intros H. inv_bind H. destruct a as [o n1]. apply outportCompute_delta in E.
  inv_bind H. inv_bind H. inv_bind H. inv_bind H. inv_bind H. rename a3 into n2.
  inv_bind H. inv_bind H. inv_bind H. inv_bind H. rename a6 into n3.
  apply upd_input_delta in E4 as (r1 & u1 & u2 & Hr1 & Hu1 & Hu2 & D1).
  apply insertFlit_input in Hu2. erewrite (weight_ident _ f) in Hu2 by reflexivity.
  apply upd_input_keep in E8; [|intros x y; by apply upd_vc_input].
  apply on_upstream_delta in H; [|apply occupy_outvc_output].
  eapply (delta_trans (weight f) 0); [|eapply (delta_trans 0 0); [exact E8|exact H|lia]|lia].
  eapply (delta_trans 0 (input u2 - input u1)); [exact E| |lia].
  eapply (delta_trans 0 (input u2 - input u1)); [|exact D1|lia]. destruct (_ >? _); by apply delta_eq.
Qed.

Lemma insert_stage_delta v i st st' :
  Spin.insert_stage v i st = Ok st' ->
  exists s, vec_at (Net.spinRing st.2) i = Ok s /\ delta (held s) st.2 st'.2.
Proof.
  destruct st as [k n]. unfold Spin.insert_stage. intros H. inv_bind H. rename a into s.
  exists s. split; [done|]. unfold held. destruct (spinStruct.flit_ s) as [f|];
    [|simplify_res; apply delta_refl].
  inv_bind H. destruct a as [p n1]. apply inport_of_delta in E0. inv_bind H. inv_bind H. inv_bind H.
  simplify_res. apply place_flit_delta in E3. eapply delta_trans; [exact E0|exact E3|lia].
Qed.

(** Between the stages the flits of the ring are in its nodes 1, 2, ... *)
Lemma doSpin_keeps v n n' : Spin.doSpin v n = Ok n' -> keeps n n'.
Proof.
  unfold Spin.doSpin. intros H. inv_bind H. set (n0 := Spin.add_spin 1 0 0 0 n) in H.
  assert (keeps n n0) as [HB HS] by (by split).
  destruct (_ =? 0) eqn:Hz; [done|]. zbool. pose proof (Zle_0_nat (length (Net.spinRing n0))) as Hp.
  inv_bind H. destruct a0 as [k1 n1]. inv_bind H. inv_bind H. destruct a1 as [k2 n2]. inv_bind H.
  simplify_res. unfold zlen in *.
  apply (foldM_range_inv (fun k st => length (Net.spinRing st.2) = length (Net.spinRing n0) /\
    frame st.2 = frame n0 /\
    balance st.2 + total held (take (Z.to_nat k) (drop 1 (Net.spinRing st.2))) = balance n0)) in E0;
    [|lia|split_and!; [done|done|apply Z.add_0_r]|].
  2:{ intros i st st' Hi (L & S & B) Hr. apply remove_stage_lifts in Hr as (s & fo & Hs & HR & HB' & HS').
      rewrite HR, length_insert. split_and!; [done|congruence|].
      rewrite drop_insert_ge by lia. replace (Z.to_nat (i + 1) - 1)%nat with (Z.to_nat i) by lia.
      replace (Z.to_nat (i + 1)) with (Datatypes.S (Z.to_nat i)) by lia.
      rewrite total_take_insert by (rewrite length_drop; lia). lia. }
  destruct E0 as (L & S & B). cbn in L, S, B. rewrite take_ge in B by (rewrite length_drop; lia).
  apply (foldM_range_inv (fun k st => Net.spinRing st.2 = Net.spinRing n1 /\
    frame st.2 = frame n1 /\
    balance st.2 + total held (drop (Z.to_nat k) (Net.spinRing n1)) = balance n0)) in E2;
    [|lia|cbn; split_and!; [done|done|exact B]|].
  2:{ intros i st st' Hi (R & S' & B') Hr. apply insert_stage_delta in Hr as (s & Hs & (B2 & S2 & R2)).
      split_and!; [congruence|congruence|]. rewrite R in Hs. apply vec_at_Ok in Hs as [_ Hs].
      rewrite (drop_S _ _ _ Hs) in B'. cbn in B'.
      replace (Z.to_nat (i + 1)) with (Datatypes.S (Z.to_nat i)) by lia. lia. }
  destruct E2 as (R & S2 & B2). cbn in R, S2, B2. rewrite drop_ge in B2 by (rewrite L; lia). cbn in B2.
  split; [lia|congruence].
Qed.

(** *** A router's cycle *)

Lemma delta_keeps n n' : delta 0 n n' -> keeps n n'.
Proof. intros (B & S & _). split; [lia|done]. Qed.

#[local] Instance keeps_preorder : PreOrder keeps.
Proof. split; [done|]. intros n1 n2 n3 [B1 S1] [B2 S2]. split; congruence. Qed.

Lemma foldM_keeps {A} (f : A -> Net.t -> Res Net.t) l n n' :
  (forall a n1 n2, f a n1 = Ok n2 -> keeps n1 n2) -> foldM f l n = Ok n' -> keeps n n'.
Proof.
  intros Hf. apply (foldM_preserve (fun s => keeps n s)); [done|].
  intros a s1 s2 _ Hs H. etrans; [exact Hs|by eapply Hf].
Qed.

Lemma spins_keeps r n n' : RouterStep.spins r n = Ok n' -> keeps n n'.
Proof.
  assert (forall v n1 n2, RouterStep.drain_vc v n1 = Ok n2 -> keeps n1 n2) as Hd.
  { intros v n1 n2 H. by apply doSpin_keeps in H. }
  assert (forall (l : list Z) vcs n1 n2,
    foldM (fun _ n => foldM RouterStep.drain_vc vcs n) l n1 = Ok n2 -> keeps n1 n2) as Hl.
  { intros l vcs n1 n2. apply foldM_keeps. intros _ m1 m2. by apply foldM_keeps. }
  unfold RouterStep.spins. intros H. cbn in H. run_inv H; [|by eapply Hl|done].
  by apply Hl in H.
Qed.

Lemma start_drain_keeps id n n' : RouterStep.start_drain id n = Ok n' -> keeps n n'.
Proof.
  unfold RouterStep.start_drain. intros H. inv_bind H. inv_bind H. rename a0 into n1.
  assert (keeps n n1) as K1.
  { destruct (negb _); [|by simplify_res]. inv_bind E0. simplify_res. apply delta_keeps.
    eapply (delta_trans 0 0); [apply set_halt_delta|apply scheduleAll_wakeup_delta|lia]. }
  run_inv H; [|done]. etrans; [exact K1|done].
Qed.

Lemma do_drain_keeps id n n' : RouterStep.do_drain id n = Ok n' -> keeps n n'.
Proof.
  unfold RouterStep.do_drain. intros H. inv_bind H. rename a into n1. inv_bind H. inv_bind H.
  rename a0 into n2. simplify_res. apply upd_router_keep in E; [|intros; by simplify_res].
  etrans; [apply delta_keeps, E|]. transitivity n2.
  2:{ apply delta_keeps. eapply (delta_trans 0 0); [|apply scheduleAll_wakeup_delta|lia]. by apply delta_eq. }
  destruct (Router.halt_ a); [|by simplify_res]. inv_bind E1. inv_bind E1. inv_bind E1.
  apply spins_keeps in E4. apply (foldM_delta _ _ _ _ set_flit_time_delta) in E1.
  etrans; [apply delta_keeps, set_halt_delta|]. etrans; [exact E4|by apply delta_keeps].
Qed.

Lemma drain_step_keeps id n n' : RouterStep.drain_step id n = Ok n' -> keeps n n'.
Proof.
  unfold RouterStep.drain_step, RouterStep.wait_drain. intros H.
  destruct (NetConfig.m_spin _); [|by simplify_res]. destruct (_ && _); [by apply start_drain_keeps in H|].
  destruct (_ && _); [by apply do_drain_keeps in H|]. by run_inv H.
Qed.

Lemma router_wakeup_keeps id n n' : RouterStep.wakeup id n = Ok n' -> keeps n n'.
Proof.
  unfold RouterStep.wakeup, RouterStep.switch_allocation, RouterStep.switch_traversal. intros H.
  inv_bind H. inv_bind H. inv_bind H. inv_bind H.
  apply input_units_wakeup_delta in E. apply output_units_wakeup_delta in E0. apply drain_step_keeps in E1.
  apply on_router_delta in E2; [|apply SA_wakeup_keep]. apply on_router_delta in H; [|apply XBar_wakeup_keep].
  etrans; [apply delta_keeps, E|]. etrans; [apply delta_keeps, E0|]. etrans; [exact E1|].
  etrans; [apply delta_keeps, E2|]. by apply delta_keeps.
Qed.

End Count.
End Count.
