(* ===== verification/Account.v ===== *)
(** * The flits of the network and the traffic statistics

    Every flit that the statistics count as injected and not yet as received
    is in the network, exactly once: an invariant of all reachable states,
    for all flits of a virtual network and for the marked ones. The stall
    counters of the interfaces are an invariant of all reachable states too. *)

From S2P Require Import Prelude NetDest Types FlitBuffer Channels RouterCore MsgBuffer NetState Routing RoutingFacts Network Spin Example RouterStep NI Frames Sim Multicast StallFacts Conserve.

Import Count.

(** Flits of virtual network [v], or the marked ones among them. *)
Definition of_vnet (marked : bool) (v : Z) (i : flit_ident) : bool :=
  (id_vnet i =? v) && (negb marked || id_marked i).

Definition stat (marked : bool) (v : Z) (s : VecStat.t) : Z :=
  default 0 ((if marked then VecStat.marked_ s else VecStat.all_ s) !! Z.to_nat v).

Definition injected (marked : bool) (v : Z) (s : TrafficStats.t) : Z :=
  stat marked v (TrafficStats.m_flits_injected s).

Definition received (marked : bool) (v : Z) (s : TrafficStats.t) : Z :=
  stat marked v (TrafficStats.m_flits_received s).

Section Accounting.
Variables (marked : bool) (v : Z).
Hypothesis Hv : 0 <= v.

Definition account (s : TrafficStats.t) : Z := received marked v s - injected marked v s.

Local Notation delta := (Count.delta (of_vnet marked v) account (fun _ => tt)).
Local Notation weight := (Count.weight (of_vnet marked v)).
Local Notation interface := (Count.interface (of_vnet marked v)).

Lemma stat_add k x m s s' :
  VecStat.add k x m s = Ok s' ->
  stat marked v s' = stat marked v s + (if (k =? v) && (negb marked || m) then x else 0).
Proof.
  unfold VecStat.add. intros H. inv_bind H. inv_bind H. simplify_res.
  apply vec_upd_inv in E as (y & y' & Hy & Hy' & ->). simplify_res.
  assert (forall l z, vec_at l k = Ok z ->
    default 0 (<[Z.to_nat k := z + x]> l !! Z.to_nat v)
    = default 0 (l !! Z.to_nat v) + (if k =? v then x else 0)) as Hins.
  { intros l z [Hk Hz]%vec_at_Ok. destruct (Z.eqb_spec k v) as [->|Hne].
    - rewrite list_lookup_insert_eq by (by eapply lookup_lt_Some). by rewrite Hz.
    - rewrite list_lookup_insert_ne by lia. lia. }
  unfold stat. cbn. destruct marked; cbn.
  - destruct m; rewrite ?andb_true_r, ?andb_false_r.
    + apply vec_upd_inv in E0 as (w & w' & Hw & Hw' & ->). simplify_res. by apply Hins.
    + simplify_res. lia.
  - rewrite andb_true_r. by apply Hins.
Qed.

Lemma stats_upd_delta f n n' d :
  (forall s s', f s = Ok s' -> account s' = account s + d) -> NetStats.upd f n = Ok n' -> delta d n n'.
Proof.
  intros Hf H. unfold NetStats.upd in H. inv_bind H. simplify_res. apply Hf in E.
  split_and!; [|done|done]. unfold balance. cbn. change (flits (of_vnet marked v) (Net.set_tstats a n))
    with (flits (of_vnet marked v) n). lia.
Qed.

Lemma received_flits_delta f n n' :
  NetStats.increment_received_flits (flit.m_vnet f) (flit.m_marked f) n = Ok n' ->
  delta (weight f) n n'.
Proof.
  unfold NetStats.increment_received_flits. intros H. inv_bind H. rename a into n1.
  apply (stats_upd_delta _ _ _ (weight f)) in E.
  - destruct (_ && _); [|by simplify_res]. inv_bind H.
    apply (stats_upd_delta _ _ _ 0) in H; [by eapply delta_trans; [exact E|exact H|lia]|].
    intros s s' Hs. simplify_res. unfold account, received, injected. cbn. lia.
  - intros s s' Hs. unfold NetStats.count_received in Hs. inv_bind Hs. simplify_res.
    apply stat_add in E0. unfold account, received, injected in *. cbn. rewrite E0. unfold Count.weight, of_vnet. cbn. lia.
Qed.

Lemma latency_stats_account c b f s s' :
  NI.latency_stats c b f s = Ok s' -> account s' = account s + 0.
Proof.
  unfold NI.latency_stats, NI.packet_stats. intros H.
  assert (TrafficStats.m_flits_received s' = TrafficStats.m_flits_received s /\
          TrafficStats.m_flits_injected s' = TrafficStats.m_flits_injected s) as [H1 H2];
    [|unfold account, received, injected; rewrite H1, H2; lia].
  unfold NetStats.increment_flit_network_latency, NetStats.increment_flit_queueing_latency,
    NetStats.update_network_latency_histogram, NetStats.increment_received_packets,
    NetStats.increment_packet_network_latency, NetStats.increment_packet_queueing_latency,
    NetStats.check_network_saturation in H.
  run_inv H; run_all; cbn;
  repeat match goal with |- context [if ?b then _ else _] => destruct b end; done.
Qed.

Lemma incrementStats_delta f n n' : NI.incrementStats f n = Ok n' -> delta (weight f) n n'.
Proof.
  unfold NI.incrementStats. intros H. inv_bind H. inv_bind H. apply received_flits_delta in E0.
  apply (stats_upd_delta _ _ _ 0) in H; [|intros s s'; apply latency_stats_account].
  by eapply delta_trans; [exact E0|exact H|lia].
Qed.

Lemma upd_buffer_delta b f n n' : NI.upd_buffer b f n = Ok n' -> delta 0 n n'.
Proof. unfold NI.upd_buffer. intros H. run_inv H. by apply delta_eq. Qed.

Lemma slot_available_delta b n r n' : NI.slot_available b n = Ok (r, n') -> delta 0 n n'.
Proof.
  unfold NI.slot_available. intros H. inv_bind H. destruct (MessageBuffer.areNSlotsAvailable _ _ _).
  inv_bind H. simplify_res. by apply upd_buffer_delta in E0.
Qed.

(** *** Interfaces *)

Lemma upd_ni_account i f n n' :
  Links.upd_ni i f n = Ok n' ->
  exists ni ni', vec_at (Net.m_nis n) i = Ok ni /\ f ni = Ok ni' /\
    delta (interface ni' - interface ni) n n'.
Proof.
  intros H. destruct (upd_ni_delta (of_vnet marked v) account (fun _ => tt) _ _ _ _ H)
    as (x & y & Hx & Hy & HD). exists x, y. split_and!; [done|done|by apply HD].
Qed.

Lemma upd_ni_keep i f n n' :
  (forall ni ni', vec_at (Net.m_nis n) i = Ok ni -> f ni = Ok ni' -> interface ni' = interface ni) ->
  Links.upd_ni i f n = Ok n' -> delta 0 n n'.
Proof.
  intros Hf H. apply upd_ni_account in H as (x & y & Hx & Hy & HD).
  rewrite (Hf _ _ Hx Hy), Z.sub_diag in HD. exact HD.
Qed.

Section Interface.
Variables (rnd warm : bool) (rt : Z -> Z).

(** An ejected flit moves from the network to the received ones. *)
Lemma eject_delta i b f n n' : NI.eject rnd warm rt i b f n = Ok n' -> delta (weight f) n n'.
Proof.
  unfold NI.eject. intros H. inv_bind H. inv_bind H. inv_bind H. destruct a1 as [mb ev].
  inv_bind H. rename a1 into n1. inv_bind H. rename a1 into n2.
  apply upd_buffer_delta in E2. apply upd_ni_keep in E3; [|intros; by simplify_res].
  apply incrementStats_delta in H. eapply (delta_trans _ _ _ 0 (weight f)); [exact E2| |lia].
  eapply (delta_trans _ _ _ 0 (weight f)); [|exact H|lia]. exact E3.
Qed.

Lemma checkStall_delta i pre q n r n' ni :
  NI.ni_at i n = Ok ni -> NetworkInterface.m_stall_queue ni = pre ++ q ->
  NI.checkStall rnd warm rt i (length pre) q n = Ok (r, n') -> delta 0 n n'.
Proof.
  revert pre n ni. induction q as [|f q IH]; intros pre n ni Hni Hq H; cbn in H;
    [simplify_res; apply delta_refl|].
  rewrite Hni in H. cbn in H. inv_bind H. rename a into b. inv_bind H. destruct a as [ok n1].
  pose proof (slot_available_delta _ _ _ _ E0) as D1. apply slot_available_stalls in E0.
  destruct (stalls_at i n n1 ni E0 Hni) as (ni1 & Hni1 & Hv1).
  pose proof (f_equal fst Hv1) as Hq1. cbn in Hq1. destruct ok.
  - inv_bind H. rename a into n2. pose proof (eject_delta _ _ _ _ _ E1) as D2. apply eject_stalls in E1.
    destruct (stalls_at i n1 n2 ni1 E1 Hni1) as (ni2 & Hni2 & Hv2). rewrite Hni2 in H. cbn in H.
    inv_bind H. destruct a as [c ni3]. inv_bind H. rename a into n3. inv_bind H. rename a into n4.
    simplify_res. pose proof (f_equal fst Hv2) as Hq2. cbn in Hq2.
    apply upd_ni_account in E3 as (x & y & Hx & Hy & D3). simplify_res.
    unfold NI.ni_at in Hni2. rewrite Hni2 in Hx. simplify_res.
    assert (interface y = interface x - weight f) as Hw.
    { unfold NI.unstall in E2. inv_bind E2. inv_bind E2. simplify_res. unfold Count.interface. cbn.
      rewrite (total_delete _ _ _ f); [lia|]. rewrite Hq2, Hq1, Hq. apply list_lookup_middle. done. }
    eapply (delta_trans _ _ _ 0 0); [exact D1| |lia]. eapply (delta_trans _ _ _ (weight f) (- weight f)); [exact D2| |lia].
    eapply (delta_trans _ _ _ _ 0); [exact D3| |lia].
    destruct (c =? 0); [by apply upd_buffer_delta in E4|simplify_res; apply delta_refl].
  - replace (S (length pre)) with (length (pre ++ [f])) in H by (rewrite length_app; cbn; lia).
    eapply (delta_trans _ _ _ 0 0); [exact D1| |lia]. eapply IH; [exact Hni1| |exact H].
    by rewrite Hq1, Hq, <- app_assoc.
Qed.

Lemma receive_flit_delta i m f n n' :
  NI.receive_flit rnd warm rt i m f n = Ok n' -> delta (weight f) n n'.
Proof.
  unfold NI.receive_flit. intros H. destruct (flit.is_tail f); [|by run_inv H].
  inv_bind H. destruct a as [d n1]. assert (delta 0 n n1) as D1.
  { destruct m; [simplify_res; apply delta_refl|]. inv_bind E. inv_bind E. by eapply slot_available_delta. }
  inv_bind H. inv_bind H. eapply (delta_trans _ _ _ 0 (weight f)); [exact D1| |lia]. destruct d.
  - by apply eject_delta in H.
  - inv_bind H. apply upd_buffer_delta in H. apply upd_ni_account in E2 as (x & y & _ & Hy & D2).
    eapply (delta_trans _ _ _ _ 0); [exact D2|exact H|]. unfold NIState.stall in Hy. inv_bind Hy. simplify_res.
    unfold Count.interface. cbn. rewrite total_app. cbn. lia.
Qed.

Lemma check_in_link_delta i m n n' :
  NI.check_in_link rnd warm rt i m n = Ok n' -> delta 0 n n'.
Proof.
  unfold NI.check_in_link. intros H. inv_bind H. inv_bind H. inv_bind H.
  destruct a1; [|simplify_res; apply delta_refl]. inv_bind H. destruct a1 as [f l']. inv_bind H. rename a1 into n1.
  eapply consumeLink_link in E2 as [Hl Hs]. eapply upd_net_link_delta in E3 as (l0 & Hl0 & D1).
  rewrite E0 in Hl0. simplify_res. specialize (D1 Hs). apply receive_flit_delta in H.
  erewrite (weight_ident _ _ f) in H by reflexivity.
  eapply delta_trans; [exact D1|exact H|]. rewrite Hl. lia.
Qed.

End Interface.

Lemma check_credit_link_delta i n n' : NI.check_credit_link i n = Ok n' -> delta 0 n n'.
Proof.
  unfold NI.check_credit_link. intros H. inv_bind H. inv_bind H. inv_bind H.
  destruct a1; [|simplify_res; apply delta_refl]. inv_bind H. destruct a1 as [f l']. inv_bind H. rename a1 into n1.
  eapply (consumeLink_link (of_vnet marked v)) in E2 as [_ Hs].
  eapply upd_credit_link_delta in E3 as (l0 & Hl0 & D1).
  rewrite E0 in Hl0. simplify_res. specialize (D1 Hs).
  apply upd_ni_keep in H; [eapply (delta_trans _ _ _ 0 0); [exact D1|exact H|lia]|].
  intros x y _ Hy. unfold NIState.receive_credit, NIState.upd_out_vc in Hy. by run_inv Hy; run_all.
Qed.

(** *** Injection *)

Lemma take_mark_delta id n b n' : NI.take_mark id n = Ok (b, n') -> delta 0 n n'.
Proof.
  unfold NI.take_mark. intros H. run_inv H; run_all; try apply delta_refl.
  match goal with H : Net.upd_router _ _ _ = Ok _ |- _ => eapply upd_router_keep in H end; [done|].
  intros. by simplify_res.
Qed.

Lemma increment_injected_flits_account k m id s s' :
  NetStats.increment_injected_flits k m id s = Ok s' ->
  account s' = account s - (if (k =? v) && (negb marked || m) then 1 else 0).
Proof.
  unfold NetStats.increment_injected_flits. intros H. inv_bind H. inv_bind H. simplify_res.
  apply stat_add in E. unfold account, received, injected. cbn. rewrite E. lia.
Qed.

(** A new flit moves from the injected ones to the network. *)
Lemma inject_flit_delta i vc k route msg t n n' :
  NI.inject_flit i vc k route msg t n = Ok n' -> delta 0 n n'.
Proof.
  unfold NI.inject_flit. intros H. inv_bind H. rename a into ni. inv_bind H. destruct a as [mk n1].
  pose proof (take_mark_nis _ _ _ _ E0) as [Hnis _]. apply take_mark_delta in E0.
  cbn zeta in H. set (fl := flit.new _ _ _ _ _ _ _ _ _) in H. inv_bind H. rename a into n2.
  inv_bind H. rename a into d. inv_bind H. rename a into bs. inv_bind H. rename a into n3.
  assert (Net.m_nis n2 = Net.m_nis n1) as Hnis2 by (unfold NetStats.upd in E1; by run_inv E1).
  apply (stats_upd_delta _ _ _ (- weight fl)) in E1.
  2:{ intros s s' Hs. apply increment_injected_flits_account in Hs. rewrite Hs.
      unfold Count.weight, of_vnet. cbn. lia. }
  apply upd_ni_account in E4 as (x & y & Hx & Hy & D3). simplify_res.
  unfold NI.ni_at in E. rewrite Hnis2, Hnis, E in Hx. simplify_res.
  apply (total_upd (buf (of_vnet marked v))) in E3 as (q & q' & Hq & Hq' & E3). simplify_res.
  rewrite buf_insert in E3. erewrite (weight_ident _ _ fl) in E3 by reflexivity.
  eapply (delta_trans _ _ _ 0 0); [exact E0| |lia]. eapply (delta_trans _ _ _ (- weight fl) (weight fl)); [exact E1| |lia].
  eapply (delta_trans _ _ _ _ 0); [exact D3| |unfold Count.interface; cbn; lia].
  destruct (flit.is_tail _); [|simplify_res; apply delta_refl].
  apply (stats_upd_delta _ _ _ 0) in H; [done|]. intros s s' Hs.
  unfold NetStats.increment_injected_packets in Hs. inv_bind Hs. simplify_res. unfold account, received, injected. cbn. lia.
Qed.

Lemma inject_dest_delta i b vc k d m n n' : NI.inject_dest i b vc k d m n = Ok n' -> delta 0 n n'.
Proof.
  unfold NI.inject_dest. intros H. inv_bind H. inv_bind H. inv_bind H. destruct a1 as [msg n1].
  inv_bind H. inv_bind H. inv_bind H. rename a3 into n2. apply inject_flit_delta in E4.
  assert (delta 0 n n1) as D1.
  { destruct m; [|simplify_res; apply delta_refl]. unfold NI.split_message in E1.
    run_inv E1; run_all; by eapply upd_buffer_delta. }
  apply upd_ni_keep in H.
  - eapply (delta_trans _ _ _ 0 0); [exact D1| |lia]. by eapply (delta_trans _ _ _ 0 0); [exact E4|exact H|lia].
  - intros x y _ Hy. unfold NI.occupy_vc, NIState.upd_out_vc in Hy. by run_inv Hy.
Qed.

Lemma calculateVC_interface net cur k ni c ni' :
  NIState.calculateVC net cur k ni = Ok (c, ni') -> interface ni' = interface ni.
Proof.
  assert (forall f x y, NIState.set_busy k f x = Ok y -> interface y = interface x) as Hbusy.
  { intros f x y H. unfold NIState.set_busy in H. by run_inv H. }
  unfold NIState.calculateVC. intros H. destruct (bool_decide _) in H.
  - revert H. generalize (Z.to_nat (NetworkInterface.m_vc_per_vnet ni)) as j. intros j. revert ni.
    induction j as [|j IH]; intros ni H; cbn in H; run_inv H.
    + by apply Hbusy in E.
    + by apply Hbusy in E2.
    + by apply IH in H.
  - destruct (bool_decide _) in H; [|done]. unfold NIState.calculateVC_fcfs in H. run_inv H; eauto.
Qed.

Lemma inject_dests_delta i b k m ds n r n' :
  NI.inject_dests i b k m ds n = Ok (r, n') -> delta 0 n n'.
Proof.
  revert n. induction ds as [|d ds IH]; intros n H; cbn in H; [simplify_res; apply delta_refl|].
  inv_bind H. inv_bind H. inv_bind H. destruct a1 as [c ni']. inv_bind H. rename a1 into n1.
  apply upd_ni_keep in E2.
  2:{ intros x y Hx Hy. simplify_res. unfold NI.ni_at in E0. rewrite E0 in Hx. simplify_res.
      by eapply calculateVC_interface. }
  eapply (delta_trans _ _ _ 0 0); [exact E2| |lia].
  destruct (c =? -1); [simplify_res; apply delta_refl|]. inv_bind H.
  apply inject_dest_delta in E3. apply IH in H. by eapply (delta_trans _ _ _ 0 0); [exact E3|exact H|lia].
Qed.

Lemma flitisizeMessage_delta i b k n r n' :
  NI.flitisizeMessage i b k n = Ok (r, n') -> delta 0 n n'.
Proof.
  unfold NI.flitisizeMessage. intros H. inv_bind H. inv_bind H. inv_bind H.
  by apply inject_dests_delta in H.
Qed.

Lemma pick_up_delta i k n n' : NI.pick_up i k n = Ok n' -> delta 0 n n'.
Proof.
  unfold NI.pick_up. intros H. inv_bind H. inv_bind H.
  destruct a0 as [b|]; [|simplify_res; apply delta_refl]. inv_bind H.
  destruct (_ && _); [|simplify_res; apply delta_refl]. inv_bind H. destruct a1 as [d n1].
  apply flitisizeMessage_delta in E2. eapply (delta_trans _ _ _ 0 0); [exact E2| |lia].
  destruct d; [|simplify_res; apply delta_refl].
  inv_bind H. inv_bind H. destruct a2 as [[w mb] cb]. inv_bind H. simplify_res.
  apply upd_buffer_delta in E5. eapply (delta_trans _ _ _ 0 0); [exact E5| |lia].
  destruct cb; by apply delta_eq.
Qed.

Lemma probe_vcs_interface net cur j c ni ni' b :
  NIState.probe_vcs net cur j c ni = Ok (ni', b) -> interface ni' = interface ni.
Proof.
  revert c. induction j as [|j IH]; intros c H; cbn in H; [by simplify_res|].
  inv_bind H. destruct a; [|by eapply IH]. inv_bind H. simplify_res.
  unfold NIState.send_flit, NIState.upd_out_vc in E0. inv_bind E0. inv_bind E1. simplify_res.
  inv_bind E0. inv_bind E0. destruct a1 as [f q]. inv_bind E0. apply (buf_getTop (of_vnet marked v)) in E3.
  pose proof (total_set (buf (of_vnet marked v)) _ _ _ _ _ E1 E4) as Ht.
  assert (interface ni' = total (buf (of_vnet marked v)) a1 +
    buf (of_vnet marked v) (flitBuffer.insert (flit.set_time (cur + 1) f) (NetworkInterface.outFlitQueue ni))
    + total weight (NetworkInterface.m_stall_queue ni)) as ->.
  { destruct (flit.is_tail _); [inv_bind E0|]; simplify_res; done. }
  rewrite buf_insert. erewrite (weight_ident _ _ f) by reflexivity. unfold Count.interface. cbn in *. lia.
Qed.

Lemma schedule_link_delta i n n' : NI.schedule_link i n = Ok n' -> delta 0 n n'.
Proof.
  unfold NI.schedule_link, NIState.scheduleOutputLink. intros H. inv_bind H. inv_bind H.
  destruct a0 as [ni b]. inv_bind H. simplify_res. apply probe_vcs_interface in E0.
  apply upd_ni_keep in E1.
  - eapply (delta_trans _ _ _ 0 0); [exact E1|destruct b; by apply delta_eq|lia].
  - intros x y Hx Hy. simplify_res. unfold NI.ni_at in E. rewrite E in Hx. by simplify_res.
Qed.

Lemma checkReschedule_delta i n n' : NI.checkReschedule i n = Ok n' -> delta 0 n n'.
Proof.
  unfold NI.checkReschedule. intros H. inv_bind H. inv_bind H. destruct a0; [simplify_res; by apply delta_eq|].
  inv_bind H. simplify_res. destruct a0; by apply delta_eq.
Qed.

Lemma NI_wakeup_delta rnd warm rt i n n' : NI.wakeup rnd warm rt i n = Ok n' -> delta 0 n n'.
Proof.
  unfold NI.wakeup, NI.checkStallQueue. intros H. inv_bind H. inv_bind H. rename a0 into n1.
  inv_bind H. rename a0 into n2. inv_bind H. rename a0 into n3. inv_bind H. destruct a0 as [m n4].
  inv_bind H. rename a0 into n5. inv_bind H. rename a0 into n6. inv_bind H. simplify_res.
  apply (foldM_delta _ _ _ _ _ _ _ (pick_up_delta i)) in E0. apply schedule_link_delta in E1.
  apply checkReschedule_delta in E2. inv_bind E3. eapply (checkStall_delta _ _ _ _ []) in E3; [|exact E7|done].
  apply check_in_link_delta in E4. apply check_credit_link_delta in E5.
  eapply (delta_trans _ _ _ 0 0); [exact E0| |lia]. eapply (delta_trans _ _ _ 0 0); [exact E1| |lia].
  eapply (delta_trans _ _ _ 0 0); [exact E2| |lia]. eapply (delta_trans _ _ _ 0 0); [exact E3| |lia].
  eapply (delta_trans _ _ _ 0 0); [exact E4| |lia]. eapply (delta_trans _ _ _ 0 0); [exact E5| |lia].
  destruct (_ >? 0); by apply delta_eq.
Qed.

End Accounting.

(** ** An executable event loop *)

(** The first of the earliest events. *)
Fixpoint earliest (l : list (consumer * Z)) : option (nat * (consumer * Z)) :=
  match l with
  | [] => None
  | e :: l' =>
      match earliest l' with
      | Some (k, e') => if e.2 <=? e'.2 then Some (0%nat, e) else Some (S k, e')
      | None => Some (0%nat, e)
      end
  end.

Lemma earliest_spec l k e :
  earliest l = Some (k, e) -> l !! k = Some e /\ Forall (fun e' => e.2 <= e'.2) l.
Proof.
  revert k e. induction l as [|x l IH]; intros k e H; cbn in H; [done|].
  destruct (earliest l) as [[k' e']|] eqn:E.
  - destruct (IH k' e' eq_refl) as [Hl HF]. destruct (x.2 <=? e'.2) eqn:Hle; zbool; simplify_eq; (split; [done|]).
    + constructor; [lia|]. eapply Forall_impl; [exact HF|]. cbn. intros; lia.
    + constructor; [lia|done].
  - simplify_eq. split; [done|]. destruct l as [|y l]; [repeat constructor; lia|].
    cbn in E. destruct (earliest l) as [[]|]; [destruct (_ <=? _)|]; done.
Qed.

Section Run.
Variables (rnd warm : bool) (rt : Z -> Z).

(** At most [k] iterations of the event loop. *)
Fixpoint run (k : nat) (n : Net.t) : Res Net.t :=
  match k with
  | O => Ok n
  | S k' =>
      match earliest (Consumer.events (Net.evq n)) with
      | None => Ok n
      | Some (i, (c, t)) =>
          n' ← Sim.dispatch rnd warm rt c (Sim.at_event i t n); run k' n'
      end
  end.

Lemma run_reachable n0 k n n' :
  Sim.reachable rnd warm rt n0 n -> run k n = Ok n' -> Sim.reachable rnd warm rt n0 n'.
Proof.
  revert n. induction k as [|k IH]; intros n Hr H; cbn in H; [by simplify_res|].
  destruct (earliest _) as [[i [c t]]|] eqn:E; [|by simplify_res]. inv_bind H.
  apply earliest_spec in E as [Hl HF]. eapply IH; [|exact H].
  eapply Sim.reach_step; [exact Hr|]. by eapply Sim.step_event.
Qed.

End Run.

(** ** Theorems *)

Section Theorems.
Variables (rnd warm : bool) (rt : Z -> Z).

Lemma dispatch_keeps P acct {V} (view : NetworkInterface.t -> V) c n n' :
  (forall b ni, view (NetworkInterface.set_outFlitQueue b ni) = view ni) ->
  (forall b ni, view (NetworkInterface.set_outCreditQueue b ni) = view ni) ->
  wired n -> (forall i, c <> CNetworkInterface i) ->
  Sim.dispatch rnd warm rt c n = Ok n' -> Count.keeps P acct view n n'.
Proof.
  intros V1 V2 Hw Hc H. destruct c as [id|i|l|l| |s|s k]; cbn in H.
  - by eapply router_wakeup_keeps.
  - by destruct (Hc i).
  - by apply delta_keeps, (network_link_wakeup_delta P acct view) with l.
  - by apply delta_keeps, (credit_link_wakeup_delta P acct view) with l.
  - by simplify_res.
  - done.
  - done.
Qed.

Lemma step_keeps m v n n' :
  0 <= v -> wired n -> Sim.step rnd warm rt n n' -> Count.keeps (of_vnet m v) (account m v) (fun _ => tt) n n'.
Proof.
  intros Hv Hw Hs. destruct Hs as [k c t n n' _ _ H].
  assert (wired (Sim.at_event k t n)) as Hw' by exact Hw.
  destruct c as [id|i|l|l| |s|s j].
  2:{ cbn in H. apply (NI_wakeup_delta m v Hv) in H as (HB & HS & _). split; [|exact HS].
      rewrite HB. unfold Count.balance, Count.flits. cbn. lia. }
  all: by eapply dispatch_keeps in H.
Qed.

Lemma step_wired n n' : wired n -> Sim.step rnd warm rt n n' -> wired n'.
Proof.
  intros Hw Hs. destruct (step_keeps false 0 n n' ltac:(lia) Hw Hs) as [_ HS].
  apply (f_equal fst) in HS. cbn in HS. unfold wired in *. by rewrite HS.
Qed.

(** C9: the wake-ups of routers, with the drain and its spins, of links and
    of the network move flits, and neither lose nor duplicate any: for every
    property of the identity of a flit, the network has after the wake-up as
    many flits with it as before. *)
Theorem no_flit_lost (P : flit_ident -> bool) c n n' :
  wired n -> (forall i, c <> CNetworkInterface i) ->
  Sim.dispatch rnd warm rt c n = Ok n' -> Count.flits P n' = Count.flits P n.
Proof.
  intros Hw Hc H. eapply (dispatch_keeps P (fun _ => 0) (fun _ => tt)) in H as [HB _]; [|done|done|done|done].
  unfold Count.balance in HB. lia.
Qed.

(** The statistics account for every flit of the network. *)
Definition accounted (n : Net.t) : Prop :=
  forall m v, 0 <= v ->
    Count.flits (of_vnet m v) n = injected m v (Net.tstats n) - received m v (Net.tstats n).

(** C8: in every reachable state of the simulation, the flits of a virtual
    network that are in the network (in a router, a link or an interface) are
    exactly those that were injected and not yet received according to the
    traffic statistics, and likewise the marked ones. *)
Theorem flits_accounted n0 n :
  wired n0 -> accounted n0 -> Sim.reachable rnd warm rt n0 n -> accounted n.
Proof.
  intros Hw Ha Hr. enough (wired n /\ accounted n) by tauto.
  induction Hr as [|n n' Hr [Hw' Ha'] Hs]; [done|]. split.
  - by eapply step_wired.
  - intros m v Hv. destruct (step_keeps m v n n' Hv Hw' Hs) as [HB _]. specialize (Ha' m v Hv).
    unfold Count.balance, account in HB. lia.
Qed.

(** C27: the stall counters are exact in every reachable state:
    [m_stall_count] of every virtual network is the number of its flits in
    the stall queue of the interface, so that the callback of a protocol
    buffer is dropped exactly when the last stalled flit of its virtual
    network has left. *)
Theorem stall_counters_exact n0 n :
  wired n0 -> stalls_ok n0 -> Sim.reachable rnd warm rt n0 n -> stalls_ok n.
Proof.
  intros Hw Ha Hr. enough (wired n /\ stalls_ok n) by tauto.
  induction Hr as [|n n' Hr [Hw' Ha'] Hs]; [done|]. split; [by eapply step_wired|].
  destruct Hs as [k c t n n' _ _ H].
  destruct c as [id|i|l|l| |s|s j]; [|by eapply NI_wakeup_stalls_ok in H| | | | |];
    (eapply (dispatch_keeps (fun _ => true) (fun _ => 0) stall_view) in H as [_ HS]; try done);
    apply (f_equal snd) in HS; exact (stalls_eq_ok n n' HS Ha').
Qed.

End Theorems.

Module AccountExample.
Import Example.

(** A message from interface 0 to node 3, and the simulation of it. *)
Definition loaded : Net.t := unwrap net (send_message 0 8 net).
Definition after (k : nat) : Net.t := unwrap loaded (run false false (fun _ => 0) k loaded).

Lemma loaded_wired : wired loaded.
Proof. split; apply (proj1 (bool_decide_eq_true _)); vm_compute; reflexivity. Qed.

Lemma loaded_accounted : accounted loaded.
Proof.
  assert (forall m v, Count.flits (of_vnet m v) loaded = 0) as H0 by (intros m v; vm_compute; reflexivity).
  assert (TrafficStats.m_flits_injected (Net.tstats loaded) = vec1 /\
          TrafficStats.m_flits_received (Net.tstats loaded) = vec1) as [H1 H2] by (split; vm_compute; reflexivity).
  assert (forall m v, stat m v vec1 = 0) as Hs.
  { intros m v. unfold stat, vec1. cbn. destruct m; destruct (Z.to_nat v) as [|[|k]]; done. }
  intros m v _. unfold injected, received. rewrite H0, H1, H2, !Hs. reflexivity.
Qed.

(** After 8 events the flit is on its way, after 18 it is delivered. *)
Lemma flits_accounted_witness :
  Count.flits (of_vnet false 0) (after 8) = 1 /\ injected false 0 (Net.tstats (after 8)) = 1 /\
  Count.flits (of_vnet false 0) (after 18) = 0 /\ received false 0 (Net.tstats (after 18)) = 1 /\
  accounted (after 8) /\ accounted (after 18).
Proof.
  split; [vm_compute; reflexivity|]. split; [vm_compute; reflexivity|].
  split; [vm_compute; reflexivity|]. split; [vm_compute; reflexivity|].
  split; apply (flits_accounted false false (fun _ => 0) loaded _ loaded_wired loaded_accounted).
  - apply (run_reachable false false (fun _ => 0) loaded 8 loaded); [apply Sim.reach_refl|].
    vm_compute. reflexivity.
  - apply (run_reachable false false (fun _ => 0) loaded 18 loaded); [apply Sim.reach_refl|].
    vm_compute. reflexivity.
Defined.

(** Router 0 ends a drain: the flit that waits at router 3 is spun. *)
Definition before_spin : Net.t := Net.set_curCycle 1027 SimExample.draining_busy.
Definition spun : Net.t :=
  unwrap loaded (Sim.dispatch false false (fun _ => 0) (CRouter 0) before_spin).

Lemma no_flit_lost_witness :
  DrainStats.m_total_spins (Net.dstats spun) = 1 /\
  Count.flits (fun _ => true) before_spin = 1 /\ Count.flits (fun _ => true) spun = 1.
Proof.
  split; [vm_compute; reflexivity|]. split; [vm_compute; reflexivity|].
  assert (Count.flits (fun _ => true) spun = Count.flits (fun _ => true) before_spin) as ->.
  { apply (no_flit_lost false false (fun _ => 0) (fun _ => true) (CRouter 0)).
    - split; apply (proj1 (bool_decide_eq_true _)); vm_compute; reflexivity.
    - intros i Hi. discriminate Hi.
    - vm_compute. reflexivity. }
  vm_compute. reflexivity.
Defined.

(** Interface 0 wakes with a stalled flit and delivers it. *)
Definition stall_start : Net.t := Net.schedule (CNetworkInterface 0) 1 StallExample.stalled.
Definition stall_end : Net.t := unwrap loaded (run false false (fun _ => 0) 1 stall_start).

Lemma stall_counters_exact_witness :
  zlen (concat (map fst (stalls stall_start))) = 1 /\
  zlen (concat (map fst (stalls stall_end))) = 0 /\ stalls_ok stall_end.
Proof.
  split; [vm_compute; reflexivity|]. split; [vm_compute; reflexivity|].
  apply (stall_counters_exact false false (fun _ => 0) stall_start).
  - split; apply (proj1 (bool_decide_eq_true _)); vm_compute; reflexivity.
  - apply (stalls_eq_ok StallExample.stalled stall_start); [vm_compute; reflexivity|].
    exact StallExample.stalled_ok.
  - apply (run_reachable false false (fun _ => 0) stall_start 1 stall_start); [apply Sim.reach_refl|].
    assert (is_ok (run false false (fun _ => 0) 1 stall_start) = true) as H by (vm_compute; reflexivity).
    unfold stall_end. destruct (run false false (fun _ => 0) 1 stall_start); [reflexivity|discriminate H].
Defined.

End AccountExample.
