(* ===== verification/CreditBalance.v ===== *)
(** * The credit balance of a link

    An output port counts for every virtual channel the buffer slots it may
    still use in the input port it leads to. Between the two ports flits and
    credits are under way. [Balance.weight] of a state is, for one link and
    one virtual channel, the credits at the sender less its maximum, plus the
    flits on their way to and in the buffer of the receiver, plus the credits
    on their way back. This file shows what the steps of one router do to it;
    the steps of the network are in CreditSteps.v. *)

From S2P Require Import Prelude NetDest Types FlitBuffer Channels RouterCore MsgBuffer NetState Routing RoutingFacts Network Spin RouterStep NI Frames.

(** ** Links and their ends *)

Inductive link_end :=
  | Port (router port : Z)
  | Interface (ni : Z).

#[global] Instance link_end_eq_dec : EqDecision link_end.
Proof. solve_decision. Defined.

(** A link from an output port (of a router, or of an interface) to an input
    port, with the link that returns the credits. *)
Record edge := mk_edge {
  e_src : link_end;
  e_link : Z;
  e_dst : link_end;
  e_credit : Z
}.

(** ** What the operations do not change

    The links of the ports, the queues the links read from, the ports of the
    directions and the nodes of the ring. Looking up an unknown direction
    enters it with port 0, so that port counts as unknown here. *)
Module Wires.

Definition known (p : Z) : option Z := if p =? 0 then None else Some p.

Definition directions (m : gmap string Z) : gmap string Z := omap known m.

(** What stays of a router, and of the network. *)
Record router_wires := mk_router {
  w_id : Z;
  w_in_links : list Z;
  w_credit_links : list Z;
  w_inports : gmap string Z;
  w_outports : gmap string Z
}.

Record net_wires := mk_net {
  w_num_cols : Z;
  w_routers : list router_wires;
  w_interfaces : list (Z * Z);
  w_flit_sources : list (option queue_ref);
  w_credit_sources : list (option queue_ref);
  w_ring : list (Z * PortDirection)
}.

Definition router (r : Router.t) : router_wires :=
  mk_router (Router.m_id r) (map InputUnit.m_in_link (Router.m_input_unit r))
    (map OutputUnit.m_credit_link (Router.m_output_unit r))
    (directions (RoutingUnit.m_inports_dirn2idx (Router.m_routing_unit r)))
    (directions (RoutingUnit.m_outports_dirn2idx (Router.m_routing_unit r))).

Definition interface (ni : NetworkInterface.t) : Z * Z :=
  (NetworkInterface.inNetLink ni, NetworkInterface.inCreditLink ni).

Definition node (s : spinStruct.t) : Z * PortDirection :=
  (spinStruct.router_id_ s, spinStruct.inport_dir_ s).

Definition net (n : Net.t) : net_wires :=
  mk_net (NetConfig.m_num_cols (Net.cfg n)) (map router (Net.m_routers n))
    (map interface (Net.m_nis n)) (map NetworkLink.link_srcQueue (Net.net_links n))
    (map NetworkLink.link_srcQueue (Net.credit_links n)) (map node (Net.spinRing n)).

(** [dirn2idx[d]] *)
Definition index (d : PortDirection) (m : gmap string Z) : Z := default 0 (m !! d).

Lemma index_directions d m : index d (directions m) = index d m.
Proof.
  unfold index, directions. rewrite lookup_omap. destruct (m !! d) as [p|]; cbn; [|done].
  unfold known. by destruct (Z.eqb_spec p 0) as [->|].
Qed.

Lemma map_index_value d (m : gmap string Z) : (map_index 0 d m).1 = index d m.
Proof. unfold map_index, index. by destruct (m !! d). Qed.

Lemma map_index_directions d (m : gmap string Z) : directions (map_index 0 d m).2 = directions m.
Proof.
  unfold map_index, directions. destruct (m !! d) eqn:E; cbn; [done|].
  rewrite omap_insert_None by done. apply delete_id. by rewrite lookup_omap, E.
Qed.

End Wires.

(** ** Counters in their bounds, flits in their queues

    A credit counter is between 0 and its maximum; the queue an interface has
    for a virtual channel holds flits of that channel. *)
Module Bounds.

Definition credit (s : OutVcState.t) : Prop :=
  0 <= OutVcState.m_credit_count s <= OutVcState.m_max_credit_count s.

Definition output (o : OutputUnit.t) : Prop := Forall credit (OutputUnit.m_outvc_state o).
Definition router (r : Router.t) : Prop := Forall output (Router.m_output_unit r).
Definition lane (k : Z) (b : flitBuffer.t) : Prop :=
  Forall (fun f => flit.m_vc f = k) (flitBuffer.m_buffer b).
Definition interface (ni : NetworkInterface.t) : Prop :=
  Forall credit (NetworkInterface.m_out_vc_state ni) /\ vec_all lane (NetworkInterface.m_ni_out_vcs ni).

Definition net (n : Net.t) : Prop :=
  Forall router (Net.m_routers n) /\ Forall interface (Net.m_nis n).

End Bounds.

(** ** Weighted steps

    A step that makes a thing [d] heavier, keeps its wires and keeps its
    counters in their bounds. *)
Section Step.
Context {A W : Type} (weight : A -> Z) (wires : A -> W) (bounded : A -> Prop).

Definition wstep (d : Z) (x y : A) : Prop :=
  weight y = weight x + d /\ wires y = wires x /\ (bounded x -> bounded y).

Lemma wstep_refl x : wstep 0 x x.
Proof. split_and!; [lia|done|done]. Qed.

Lemma wstep_trans a b d x y z : wstep a x y -> wstep b y z -> d = a + b -> wstep d x z.
Proof. intros (H1 & L1 & B1) (H2 & L2 & B2) ->. split_and!; [lia|congruence|auto]. Qed.

Lemma wstep_eq a b x y : wstep a x y -> a = b -> wstep b x y.
Proof. by intros ? <-. Qed.

(** A change that the weight, the wires and the bounds do not see. *)
Lemma wstep_same x y :
  weight y = weight x -> wires y = wires x -> (bounded x -> bounded y) -> wstep 0 x y.
Proof. intros H1 H2 H3. split_and!; [lia|done|done]. Qed.

Lemma foldM_wstep {B} (f : B -> A -> Res A) l x y :
  (forall b x1 x2, f b x1 = Ok x2 -> wstep 0 x1 x2) -> foldM f l x = Ok y -> wstep 0 x y.
Proof.
  intros Hf. apply (foldM_preserve (fun z => wstep 0 x z)); [apply wstep_refl|].
  intros b x1 x2 _ Hx H. by eapply wstep_trans; [exact Hx|by eapply Hf|].
Qed.

(** One element of a vector makes a step. *)
Lemma vec_upd_wstep {B V} (g : Z -> B -> Z) (view : B -> V) (ok : B -> Prop) d i f l l' :
  vec_upd l i f = Ok l' ->
  (forall x y, vec_at l i = Ok x -> f x = Ok y ->
     g i y = g i x + d /\ view y = view x /\ (ok x -> ok y)) ->
  itotal g l' = itotal g l + d /\ map view l' = map view l /\ (Forall ok l -> Forall ok l').
Proof.
  intros H Hs. pose proof (itotal_upd g _ _ _ _ H) as (x & y & Hx & Hy & Ht).
  destruct (Hs x y Hx Hy) as (S1 & S2 & S3). split; [lia|].
  apply vec_upd_inv in H as (x' & y' & Hx' & Hy' & ->). rewrite Hx in Hx'. simplify_res.
  rewrite Hy in Hy'. simplify_res. apply vec_at_Ok in Hx as [_ Hx]. split.
  - change (map view) with (fmap (M := list) view). rewrite list_fmap_insert, S2.
    apply list_insert_id. by rewrite list_lookup_fmap, Hx.
  - intros HF. apply Forall_insert; [done|]. apply S3. by eapply Forall_lookup_1.
Qed.

End Step.

(** ** The balance *)
Module Balance.
Section Balance.
Variables (e : edge) (v : Z).

Definition at_src (s : link_end) : bool := bool_decide (e_src e = s).
Definition at_dst (s : link_end) : bool := bool_decide (e_dst e = s).

(** [x] if the condition holds. *)
Definition when (b : bool) (x : Z) : Z := if b then x else 0.

(** Flits, or credits, of virtual channel [v]. *)
Definition has (f : flit.t) : Z := when (flit.m_vc f =? v) 1.
Definition buf (b : flitBuffer.t) : Z := total has (flitBuffer.m_buffer b).

(** The flits of a virtual channel, and the credits an output port has used. *)
Definition occupancy (x : VirtualChannel.t) : Z :=
  zlen (flitBuffer.m_buffer (VirtualChannel.m_input_buffer x)).
Definition used (s : OutVcState.t) : Z :=
  OutVcState.m_credit_count s - OutVcState.m_max_credit_count s.
Definition slot (k : Z) (x : VirtualChannel.t) : Z := when (k =? v) (occupancy x).
Definition cred (k : Z) (s : OutVcState.t) : Z := when (k =? v) (used s).

Definition sender (l : list OutVcState.t) (b : flitBuffer.t) : Z := itotal cred l + buf b.

Definition input (id p : Z) (u : InputUnit.t) : Z :=
  when (at_dst (Port id p)) (itotal slot (InputUnit.m_vcs u) + buf (InputUnit.creditQueue u)).
Definition output (id p : Z) (o : OutputUnit.t) : Z :=
  when (at_src (Port id p)) (sender (OutputUnit.m_outvc_state o) (OutputUnit.m_out_buffer o)).

(** A flit in the crossbar of router [id]. *)
Definition crossing (id : Z) (f : flit.t) : Z := when (at_src (Port id (flit.m_outport f))) (has f).
Definition crossbar (id : Z) (b : flitBuffer.t) : Z := total (crossing id) (flitBuffer.m_buffer b).

Definition router (id : Z) (r : Router.t) : Z :=
  itotal (input id) (Router.m_input_unit r) + itotal (output id) (Router.m_output_unit r)
  + total (crossbar id) (CrossbarSwitch.m_switch_buffer (Router.m_switch r)).

Definition net_link (l : Z) (x : NetworkLink.t) : Z := when (l =? e_link e) (buf (NetworkLink.linkBuffer x)).
Definition credit_link (l : Z) (x : NetworkLink.t) : Z :=
  when (l =? e_credit e) (buf (NetworkLink.linkBuffer x)).

Definition interface (i : Z) (ni : NetworkInterface.t) : Z :=
  when (at_src (Interface i))
    (sender (NetworkInterface.m_out_vc_state ni) (NetworkInterface.outFlitQueue ni))
  + when (at_dst (Interface i))
      (total has (NetworkInterface.m_stall_queue ni) + buf (NetworkInterface.outCreditQueue ni)).

Definition weight (n : Net.t) : Z :=
  itotal router (Net.m_routers n) + itotal net_link (Net.net_links n)
  + itotal credit_link (Net.credit_links n) + itotal interface (Net.m_nis n).

(** The weight of a flit or credit that leaves the sender or enters the
    receiver by virtual channel [k]. *)
Definition sends (id p k : Z) : Z := when (at_src (Port id p)) (when (k =? v) 1).
Definition gets (id p k : Z) : Z := when (at_dst (Port id p)) (when (k =? v) 1).

(** *** Buffers *)

Lemma buf_insert_weight f b : buf (flitBuffer.insert f b) = buf b + has f.
Proof. unfold buf. rewrite (total_Permutation _ _ _ (insert_Permutation f b)). cbn. lia. Qed.

Lemma buf_getTop_weight b f b' : flitBuffer.getTopFlit b = Ok (f, b') -> buf b' = buf b - has f.
Proof.
  intros H%getTopFlit_Permutation. unfold buf. rewrite (total_Permutation _ _ _ H). cbn. lia.
Qed.

Lemma crossbar_insert id f b : crossbar id (flitBuffer.insert f b) = crossbar id b + crossing id f.
Proof. unfold crossbar. rewrite (total_Permutation _ _ _ (insert_Permutation f b)). cbn. lia. Qed.

Lemma crossbar_getTop id b f b' :
  flitBuffer.getTopFlit b = Ok (f, b') -> crossbar id b' = crossbar id b - crossing id f.
Proof.
  intros H%getTopFlit_Permutation. unfold crossbar. rewrite (total_Permutation _ _ _ H). cbn. lia.
Qed.

Lemma crossbar_update_top id f b :
  (forall x, crossing id (f x) = crossing id x) ->
  crossbar id (flitBuffer.update_top f b) = crossbar id b.
Proof.
  intros Hf. unfold crossbar, flitBuffer.update_top. destruct b as [[|x l] m]; cbn; [done|]. by rewrite Hf.
Qed.

Lemma occupancy_update_top f x : occupancy (VirtualChannel.update_top f x) = occupancy x.
Proof.
  unfold occupancy, VirtualChannel.update_top, flitBuffer.update_top. cbn.
  by destruct (VirtualChannel.m_input_buffer x) as [[|y l] m].
Qed.

Lemma occupancy_insert f x : occupancy (VirtualChannel.insertFlit f x) = occupancy x + 1.
Proof.
  unfold occupancy, zlen. cbn -[flitBuffer.insert].
  rewrite (Permutation_length (insert_Permutation f (VirtualChannel.m_input_buffer x))). cbn. lia.
Qed.

Lemma occupancy_getTop x f x' : VirtualChannel.getTopFlit x = Ok (f, x') -> occupancy x' = occupancy x - 1.
Proof.
  unfold VirtualChannel.getTopFlit. intros H. inv_bind H. destruct a as [g b]. simplify_res.
  apply getTopFlit_Permutation in E. unfold occupancy, zlen. cbn. rewrite (Permutation_length E). cbn. lia.
Qed.

Lemma sends_has id p f : sends id p (flit.m_vc f) = when (at_src (Port id p)) (has f).
Proof. done. Qed.

(** *** Input ports *)

Definition input_step (id p : Z) : Z -> InputUnit.t -> InputUnit.t -> Prop :=
  wstep (input id p) InputUnit.m_in_link (fun _ => True).

Definition output_step (id p : Z) : Z -> OutputUnit.t -> OutputUnit.t -> Prop :=
  wstep (output id p) OutputUnit.m_credit_link Bounds.output.

Definition router_step (id : Z) : Z -> Router.t -> Router.t -> Prop :=
  wstep (router id) Wires.router Bounds.router.

Definition interface_step (i : Z) : Z -> NetworkInterface.t -> NetworkInterface.t -> Prop :=
  wstep (interface i) Wires.interface Bounds.interface.

Definition net_step : Z -> Net.t -> Net.t -> Prop := wstep weight Wires.net Bounds.net.

Lemma when_plus b x y : when b (x + y) = when b x + when b y.
Proof. by destruct b. Qed.

(** Virtual channel [k] holds [d] flits more. *)
Lemma upd_vc_input_step id p k d f u u' :
  (forall x, occupancy (f x) = occupancy x + d) -> InputUnit.upd_vc k f u = Ok u' ->
  input_step id p (when (at_dst (Port id p)) (when (k =? v) d)) u u'.
Proof.
  intros Hf H. unfold InputUnit.upd_vc in H. inv_bind H. simplify_res.
  apply (itotal_upd slot) in E as (x & y & _ & Hy & Ht). simplify_res.
  split_and!; [|done|done]. unfold input. cbn. rewrite Ht. unfold slot. rewrite Hf.
  unfold when. destruct (at_dst _), (k =? v); lia.
Qed.

Lemma upd_vc_input_keep id p k f u u' :
  (forall x, occupancy (f x) = occupancy x) -> InputUnit.upd_vc k f u = Ok u' -> input_step id p 0 u u'.
Proof.
  intros Hf H. eapply wstep_eq; [eapply (upd_vc_input_step id p k 0); [|exact H]|].
  - intros x. rewrite Hf. lia.
  - unfold when. by destruct (at_dst _), (k =? v).
Qed.

Lemma update_top_input_step id p k f u u' : InputUnit.update_top k f u = Ok u' -> input_step id p 0 u u'.
Proof. apply upd_vc_input_keep. apply occupancy_update_top. Qed.

Lemma insertFlit_input_step id p k f u u' :
  InputUnit.upd_vc k (VirtualChannel.insertFlit f) u = Ok u' -> input_step id p (gets id p k) u u'.
Proof. apply (upd_vc_input_step id p k 1). apply occupancy_insert. Qed.

Lemma getTopFlit_input_step id p k u f u' :
  InputUnit.getTopFlit k u = Ok (f, u') -> input_step id p (- gets id p k) u u'.
Proof.
  unfold InputUnit.getTopFlit. intros H. inv_bind H. inv_bind H. destruct a0 as [g x]. inv_bind H.
  simplify_res. split_and!; [|done|done]. apply occupancy_getTop in E0.
  pose proof (itotal_set slot _ _ _ _ _ E E1) as Ht. unfold input, gets. cbn. rewrite Ht. unfold slot.
  rewrite E0. unfold when. destruct (at_dst _), (k =? v); lia.
Qed.

Lemma increment_credit_input_step net cur id p k b u :
  input_step id p (gets id p k) u (InputUnit.increment_credit net k b cur u).
Proof.
  split_and!; [|done|done]. unfold input, gets. cbn -[flitBuffer.insert]. rewrite buf_insert_weight.
  unfold has. cbn. unfold when. destruct (at_dst _); lia.
Qed.

(** *** Output ports *)

(** The counter of virtual channel [k] grows by [d]. *)
Lemma upd_vc_output id p k d f o o' :
  (forall s s', f s = Ok s' -> used s' = used s + d /\ (Bounds.credit s -> Bounds.credit s')) ->
  OutputUnit.upd_vc k f o = Ok o' ->
  output_step id p (when (at_src (Port id p)) (when (k =? v) d)) o o'.
Proof.
  intros Hf H. unfold OutputUnit.upd_vc in H. inv_bind H. simplify_res.
  eapply (vec_upd_wstep cred (fun _ => tt) Bounds.credit (when (k =? v) d)) in E as (Ht & _ & HB).
  - split_and!; [|done|exact HB]. unfold output, sender. cbn. rewrite Ht.
    unfold when. destruct (at_src _); lia.
  - intros s s' _ Hs. destruct (Hf _ _ Hs) as [Hu Hb]. split_and!; [|done|done].
    unfold cred. rewrite Hu. unfold when. destruct (k =? v); lia.
Qed.

Lemma increment_credit_used s s' :
  OutVcState.increment_credit s = Ok s' -> used s' = used s + 1 /\ (Bounds.credit s -> Bounds.credit s').
Proof.
  unfold OutVcState.increment_credit, assert_. intros H. inv_bind H. simplify_res.
  destruct (_ <=? _) eqn:Hle in E; [|done]. zbool. unfold used, Bounds.credit. cbn. lia.
Qed.

Lemma decrement_credit_used s s' :
  OutVcState.decrement_credit s = Ok s' -> used s' = used s + -1 /\ (Bounds.credit s -> Bounds.credit s').
Proof.
  unfold OutVcState.decrement_credit, assert_. intros H. inv_bind H. simplify_res.
  destruct (_ >=? _) eqn:Hle in E; [|done]. unfold used, Bounds.credit. cbn. lia.
Qed.

Lemma setState_used x t s s' :
  Ok (OutVcState.setState x t s) = Ok s' -> used s' = used s + 0 /\ (Bounds.credit s -> Bounds.credit s').
Proof. intros. simplify_res. unfold used. cbn. split; [lia|done]. Qed.

Lemma increment_credit_output id p k o o' :
  OutputUnit.increment_credit k o = Ok o' -> output_step id p (sends id p k) o o'.
Proof. apply upd_vc_output. apply increment_credit_used. Qed.

Lemma decrement_credit_output id p k o o' :
  OutputUnit.decrement_credit k o = Ok o' -> output_step id p (- sends id p k) o o'.
Proof.
  intros H. eapply wstep_eq; [eapply (upd_vc_output id p k (-1)); [|exact H]|].
  - apply decrement_credit_used.
  - unfold sends, when. by destruct (at_src _), (k =? v).
Qed.

Lemma set_vc_state_output id p x k t o o' :
  OutputUnit.set_vc_state x k t o = Ok o' -> output_step id p 0 o o'.
Proof.
  intros H. eapply wstep_eq; [eapply (upd_vc_output id p k 0); [|exact H]|].
  - apply setState_used.
  - unfold when. by destruct (at_src _), (k =? v).
Qed.

Lemma select_free_vc_output_step id p cur k o x o' :
  OutputUnit.select_free_vc cur k o = Ok (x, o') -> output_step id p 0 o o'.
Proof.
  unfold OutputUnit.select_free_vc. intros H. run_inv H; [|apply wstep_refl].
  by eapply set_vc_state_output.
Qed.

Lemma insert_flit_output id p f o :
  output_step id p (when (at_src (Port id p)) (has f)) o (OutputUnit.insert_flit f o).
Proof.
  split_and!; [|done|done]. unfold output, sender. cbn -[flitBuffer.insert]. rewrite buf_insert_weight.
  unfold when. destruct (at_src _); lia.
Qed.

(** *** Routers *)

Lemma Router_upd_input_step id d p f r r' :
  Router.upd_input p f r = Ok r' ->
  (forall u u', vec_at (Router.m_input_unit r) p = Ok u -> f u = Ok u' -> input_step id p d u u') ->
  router_step id d r r'.
Proof.
  intros H Hf. unfold Router.upd_input in H. inv_bind H. simplify_res.
  apply (vec_upd_wstep (input id) InputUnit.m_in_link (fun _ => True) d) in E as (Ht & Hv & _); [|exact Hf].
  split_and!; [|unfold Wires.router; cbn; by rewrite Hv|done]. unfold router. cbn. lia.
Qed.

Lemma Router_upd_output_step id d p f r r' :
  Router.upd_output p f r = Ok r' ->
  (forall o o', vec_at (Router.m_output_unit r) p = Ok o -> f o = Ok o' -> output_step id p d o o') ->
  router_step id d r r'.
Proof.
  intros H Hf. unfold Router.upd_output in H. inv_bind H. simplify_res.
  apply (vec_upd_wstep (output id) OutputUnit.m_credit_link Bounds.output d) in E as (Ht & Hv & HB); [|exact Hf].
  split_and!; [|unfold Wires.router; cbn; by rewrite Hv|exact HB]. unfold router. cbn. lia.
Qed.

Lemma grant_switch_router_step id p f r r' :
  Router.grant_switch p f r = Ok r' -> router_step id (crossing id f) r r'.
Proof.
  unfold Router.grant_switch, CrossbarSwitch.update_sw_winner. intros H. inv_bind H. inv_bind E.
  simplify_res. apply (total_upd (crossbar id)) in E0 as (x & y & _ & Hy & Ht). simplify_res.
  split_and!; [|done|done]. unfold router. cbn. rewrite Ht, crossbar_insert. lia.
Qed.

(** *** Switch allocation *)

Section Pipeline.
Variables (net : NetConfig.t) (cur id : Z).

Definition rc_step (d : Z) (c c' : RC.t) : Prop := router_step id d (RC.router c) (RC.router c').

Lemma rc_refl c : rc_step 0 c c.
Proof. apply wstep_refl. Qed.

Lemma rc_trans a b d c1 c2 c3 : rc_step a c1 c2 -> rc_step b c2 c3 -> d = a + b -> rc_step d c1 c3.
Proof. apply wstep_trans. Qed.

Lemma foldM_rc {B} (f : B -> RC.t -> Res RC.t) l c c' :
  (forall b c1 c2, f b c1 = Ok c2 -> rc_step 0 c1 c2) -> foldM f l c = Ok c' -> rc_step 0 c c'.
Proof.
  intros Hf. apply (foldM_preserve (fun z => rc_step 0 c z)); [apply rc_refl|].
  intros b x1 x2 _ Hx H. by eapply rc_trans; [exact Hx|by eapply Hf|].
Qed.

Lemma RC_upd_input_step d p f c c' :
  RC.upd_input p f c = Ok c' ->
  (forall u u', RC.input p c = Ok u -> f u = Ok u' -> input_step id p d u u') -> rc_step d c c'.
Proof. unfold RC.upd_input. intros H Hf. inv_bind H. simplify_res. by eapply Router_upd_input_step. Qed.

Lemma RC_upd_output_step d p f c c' :
  RC.upd_output p f c = Ok c' ->
  (forall o o', RC.output p c = Ok o -> f o = Ok o' -> output_step id p d o o') -> rc_step d c c'.
Proof. unfold RC.upd_output. intros H Hf. inv_bind H. simplify_res. by eapply Router_upd_output_step. Qed.

(** What changes only members of the router that are not weighed. *)
Lemma rc_same c c' :
  Router.m_id (RC.router c') = Router.m_id (RC.router c) ->
  Router.m_input_unit (RC.router c') = Router.m_input_unit (RC.router c) ->
  Router.m_output_unit (RC.router c') = Router.m_output_unit (RC.router c) ->
  Router.m_routing_unit (RC.router c') = Router.m_routing_unit (RC.router c) ->
  Router.m_switch (RC.router c') = Router.m_switch (RC.router c) -> rc_step 0 c c'.
Proof.
  intros H0 H1 H2 H3 H4. unfold rc_step. apply wstep_same.
  - unfold router. by rewrite H1, H2, H4.
  - unfold Wires.router. by rewrite H0, H1, H2, H3.
  - unfold Bounds.router. by rewrite H2.
Qed.

Lemma RC_update_top p k f c c' : RC.upd_input p (InputUnit.update_top k f) c = Ok c' -> rc_step 0 c c'.
Proof. intros H. eapply RC_upd_input_step; [exact H|]. intros u u' _. apply update_top_input_step. Qed.

Lemma deflect_to_step d q p k c c' : SA.deflect_to d q p k c = Ok c' -> rc_step 0 c c'.
Proof. unfold SA.deflect_to. intros H. run_inv H. by eapply RC_update_top. Qed.

Lemma disallow_uturn_step p k d c c' : SA.disallow_uturn p k d c = Ok c' -> rc_step 0 c c'.
Proof. unfold SA.disallow_uturn, SA.deflect. intros H. run_inv H; by eapply deflect_to_step in H. Qed.

Lemma mark_uturn_step p k c c' : SA.mark_uturn net p k c = Ok c' -> rc_step 0 c c'.
Proof.
  unfold SA.mark_uturn. intros H. inv_bind H. apply RC_update_top in E. inv_bind H. inv_bind H.
  destruct (_ && _); [|simplify_res; exact E]. inv_bind H. apply RC_update_top in E2.
  assert (rc_step 0 c a2) as E3 by (by eapply rc_trans; [exact E|exact E2|]).
  destruct (_ =? 0); [|by simplify_res]. apply disallow_uturn_step in H.
  by eapply rc_trans; [exact E3|exact H|].
Qed.

Lemma place_request_step o p k c c' : SA.place_request o p k c = Ok c' -> rc_step 0 c c'.
Proof. unfold SA.place_request. intros H. run_inv H. by apply rc_same. Qed.

Lemma try_invc_step p k c c' b : SA.try_invc net cur p k c = Ok (c', b) -> rc_step 0 c c'.
Proof.
  unfold SA.try_invc. intros H. inv_bind H. inv_bind H. destruct a0; [|simplify_res; apply rc_refl].
  inv_bind H. apply mark_uturn_step in E1. inv_bind H. inv_bind H. destruct (_ >=? _); [done|].
  inv_bind H. destruct a3; [|by simplify_res]. inv_bind H. simplify_res.
  apply place_request_step in E5. by eapply rc_trans; [exact E1|exact E5|].
Qed.

Lemma arbitrate_invc_step n p k c c' : SA.arbitrate_invc net cur n p k c = Ok c' -> rc_step 0 c c'.
Proof.
  revert k c. induction n as [|n IH]; intros k c H; cbn in H; [simplify_res; apply rc_refl|].
  inv_bind H. destruct a as [c1 b]. apply try_invc_step in E. destruct b; [by simplify_res|].
  apply IH in H. by eapply rc_trans; [exact E|exact H|].
Qed.

Lemma arbitrate_inports_step c c' : SA.arbitrate_inports net cur c = Ok c' -> rc_step 0 c c'.
Proof.
  unfold SA.arbitrate_inports. intros H. destruct (Router.halt_ _); [simplify_res; apply rc_refl|].
  revert H. apply foldM_rc. intros p c1 c2 H. inv_bind H. by apply arbitrate_invc_step in H.
Qed.

Lemma vc_allocate_step o p k c x c' : SA.vc_allocate cur o p k c = Ok (x, c') -> rc_step 0 c c'.
Proof.
  unfold SA.vc_allocate. intros H. inv_bind H. inv_bind H. inv_bind H. destruct a1 as [y o'].
  inv_bind H. rename a1 into c1. inv_bind H. inv_bind H. simplify_res.
  eapply (rc_trans 0 0); [| |done].
  - eapply RC_upd_output_step; [exact E2|]. intros u u' Hu Hu'. simplify_res. rewrite E0 in Hu. simplify_res.
    by eapply select_free_vc_output_step.
  - eapply RC_upd_input_step; [exact E4|]. intros u u' _ Hu. unfold InputUnit.grant_outvc in Hu.
    by eapply upd_vc_input_keep; [|exact Hu].
Qed.

Lemma count_uturn_step p k c c' : SA.count_uturn p k c = Ok c' -> rc_step 0 c c'.
Proof.
  unfold SA.count_uturn. intros H. inv_bind H. inv_bind H.
  destruct (_ && _); [|simplify_res; apply rc_refl]. inv_bind H. by apply RC_update_top in H.
Qed.

(** The credit for virtual channel [k] of port [p] is on its way back. *)
Lemma return_credit_step p k f c c' : SA.return_credit net cur p k f c = Ok c' -> rc_step (gets id p k) c c'.
Proof.
  unfold SA.return_credit. intros H. inv_bind H. inv_bind H. simplify_res.
  change (rc_step (gets id p k) c a). destruct (flit.is_tail f).
  - inv_bind E. inv_bind E. inv_bind E. inv_bind E. eapply (rc_trans 0); [| |done].
    + eapply RC_upd_input_step; [exact E4|]. intros u u' _ Hu. by eapply upd_vc_input_keep; [|exact Hu].
    + eapply RC_upd_input_step; [exact E|]. intros u u' _ Hu. simplify_res. apply increment_credit_input_step.
  - eapply RC_upd_input_step; [exact E|]. intros u u' _ Hu. simplify_res. apply increment_credit_input_step.
Qed.

(** A grant moves a flit to the crossbar, takes a credit and returns one. *)
Lemma grant_step o p c c' : SA.grant net cur o p c = Ok c' -> rc_step 0 c c'.
Proof.
  unfold SA.grant, SA.advance_rr_invc, SA.clear_request, SA.advance_rr_inport. intros H.
  inv_bind H. inv_bind H. rename a0 into k. inv_bind H. rename a0 into c1. inv_bind E1. simplify_res.
  inv_bind H. inv_bind H. inv_bind H. destruct a3 as [x c2]. inv_bind H. rename a3 into c3.
  inv_bind H. rename a3 into u. inv_bind H. destruct a3 as [f u']. inv_bind H. rename a3 into c4.
  inv_bind H. inv_bind H. rename a4 into c5. inv_bind H. rename a4 into r. inv_bind H. rename a4 into c6.
  inv_bind H. inv_bind E13. simplify_res. inv_bind H. simplify_res.
  set (g := flit.advance_stage ST_ cur _) in *.
  assert (rc_step 0 c c3) as S3.
  { apply count_uturn_step in E5. eapply (rc_trans 0 0); [|exact E5|done].
    destruct (_ =? -1); [|simplify_res; by apply rc_same].
    apply vc_allocate_step in E4. eapply (rc_trans 0 0); [|exact E4|done]. by apply rc_same. }
  assert (rc_step (- gets id p k) c3 c4) as S4.
  { eapply RC_upd_input_step; [exact E8|]. intros y y' Hy Hy'. simplify_res. rewrite E6 in Hy. simplify_res.
    by eapply getTopFlit_input_step. }
  assert (rc_step (- sends id o x) c4 c5) as S5.
  { eapply RC_upd_output_step; [exact E10|]. intros y y' _. apply decrement_credit_output. }
  assert (rc_step (sends id o x) c5 (RC.set_router r c5)) as S6.
  { apply (grant_switch_router_step id) in E11. exact E11. }
  eapply (rc_trans 0 0); [exact S3| |done]. eapply rc_trans; [exact S4| |symmetry; apply Z.add_opp_diag_l].
  eapply (rc_trans 0); [|eapply return_credit_step in E12; eapply (rc_trans _ 0); [exact E12|by apply rc_same|reflexivity]|lia].
  eapply rc_trans; [exact S5| |symmetry; apply Z.add_opp_diag_l].
  eapply (rc_trans _ 0); [exact S6|by apply rc_same|symmetry; apply Z.add_0_r].
Qed.

Lemma arbitrate_inport_step n o p c c' : SA.arbitrate_inport net cur n o p c = Ok c' -> rc_step 0 c c'.
Proof.
  revert p. induction n as [|n IH]; intros p H; cbn in H; [simplify_res; apply rc_refl|].
  inv_bind H. destruct a; [by apply grant_step in H|by apply IH in H].
Qed.

Lemma SA_wakeup_step c c' : SA.wakeup net cur c = Ok c' -> rc_step 0 c c'.
Proof.
  unfold SA.wakeup, SA.check_for_wakeup, SA.arbitrate_outports. intros H.
  inv_bind H. apply arbitrate_inports_step in E. inv_bind H. rename a0 into c2.
  assert (rc_step 0 a c2) as E1.
  { destruct (Router.halt_ _); [simplify_res; apply rc_refl|].
    revert E0. apply foldM_rc. intros o c1 c3 H'. inv_bind H'. by apply arbitrate_inport_step in H'. }
  inv_bind H. simplify_res. eapply (rc_trans 0 0); [exact E| |done]. eapply (rc_trans 0 0); [exact E1| |done].
  destruct a0; by apply rc_same.
Qed.

(** *** Switch traversal *)

Lemma traverse_step p c c' : XBar.traverse net cur p c = Ok c' -> rc_step 0 c c'.
Proof.
  unfold XBar.traverse. intros H. inv_bind H. rename a into b. inv_bind H.
  destruct a; cbn [negb] in H; [|simplify_res; apply rc_refl].
  inv_bind H. rename a into f. destruct (flit.is_stage _ _ _); [|simplify_res; apply rc_refl].
  inv_bind H. rename a into o. inv_bind H. rename a into c1. inv_bind H. destruct a as [f' b'].
  inv_bind H. simplify_res.
  assert (Router.m_switch (RC.router c1) = Router.m_switch (RC.router c)) as Hs.
  { unfold RC.upd_output, Router.upd_output in E3. run_inv E3. by run_inv E6. }
  assert (rc_step (crossing id f) c c1) as S1.
  { eapply RC_upd_output_step; [exact E3|]. intros x y _ Hy. simplify_res.
    eapply wstep_eq; [apply insert_flit_output|done]. }
  assert (crossing id f' = crossing id f) as Hw.
  { unfold flitBuffer.getTopFlit, flitBuffer.peekTopFlit, flitBuffer.update_top in *.
    destruct b as [[|x l] m]; cbn in *; simplify_res. by run_all. }
  apply (crossbar_getTop id) in E4. rewrite crossbar_update_top in E4 by done.
  rewrite <- Hs in E, E5. pose proof (total_set (crossbar id) _ _ _ _ _ E E5) as Ht.
  eapply rc_trans; [exact S1| |symmetry; apply Z.add_opp_diag_r].
  split_and!; [|done|done]. unfold router. cbn. lia.
Qed.

Lemma XBar_wakeup_step c c' : XBar.wakeup net cur c = Ok c' -> rc_step 0 c c'.
Proof. unfold XBar.wakeup. apply foldM_rc. apply traverse_step. Qed.

End Pipeline.

End Balance.
End Balance.
