(* ===== verification/CreditSteps.v ===== *)
(** * The credit balance under the wake-ups of routers, links and the spin

    A link is well wired when its two ports, the link of its flits and the
    link of its credits belong to each other and to no other port
    ([Edge.ok]); the nodes of the ring name upstream ports of their own
    links. Under this condition no wake-up changes the credit balance. *)

From S2P Require Import Prelude NetDest Types FlitBuffer Channels RouterCore MsgBuffer NetState Routing RoutingFacts Network Spin RouterStep NI Frames CreditBalance.

Import Balance.

(** ** Well-wired links *)
Module Edge.

(** The ends whose flits, and whose credits, are in a queue. *)
Definition flit_end (q : queue_ref) : option link_end :=
  match q with
  | OutQueue r p => Some (Port r p)
  | NIFlitQueue i => Some (Interface i)
  | _ => None
  end.

Definition credit_end (q : queue_ref) : option link_end :=
  match q with
  | CreditQueue r p => Some (Port r p)
  | NICreditQueue i => Some (Interface i)
  | _ => None
  end.

Definition source_ok (ending : queue_ref -> option link_end) (own : link_end) (link : Z)
    (l : Z) (q : option queue_ref) : Prop :=
  match q with
  | None => True
  | Some q => match ending q with Some s => l = link <-> own = s | None => False end
  end.

Definition router_ok (e : edge) (id : Z) (w : Wires.router_wires) : Prop :=
  vec_all (fun p l => l = e_link e <-> e_dst e = Port id p) (Wires.w_in_links w) /\
  vec_all (fun p l => l = e_credit e <-> e_src e = Port id p) (Wires.w_credit_links w).

Definition interface_ok (e : edge) (i : Z) (w : Z * Z) : Prop :=
  (w.1 = e_link e <-> e_dst e = Interface i) /\ (w.2 = e_credit e <-> e_src e = Interface i).

(** The input port a node of the ring names, and the output port upstream of
    it, are the ends of the link, or both are not. *)
Definition node_ok (e : edge) (w : Wires.net_wires) (s : Z * PortDirection) : Prop :=
  match vec_at (Wires.w_routers w) s.1 with
  | Err _ => True
  | Ok r =>
      match Mesh.get_upstreamId (Wires.w_num_cols w) s.2 (Wires.w_id r),
            Mesh.get_upstreamOutportDirn s.2 with
      | Ok j, Ok d =>
          match vec_at (Wires.w_routers w) j with
          | Ok rj =>
              e_dst e = Port s.1 (Wires.index s.2 (Wires.w_inports r)) <->
              e_src e = Port j (Wires.index d (Wires.w_outports rj))
          | Err _ => True
          end
      | _, _ => True
      end
  end.

Definition ok_wires (e : edge) (w : Wires.net_wires) : Prop :=
  vec_all (router_ok e) (Wires.w_routers w) /\
  vec_all (interface_ok e) (Wires.w_interfaces w) /\
  vec_all (source_ok flit_end (e_src e) (e_link e)) (Wires.w_flit_sources w) /\
  vec_all (source_ok credit_end (e_dst e) (e_credit e)) (Wires.w_credit_sources w) /\
  Forall (node_ok e w) (Wires.w_ring w).

Definition ok (e : edge) (n : Net.t) : Prop := ok_wires e (Wires.net n).

#[global] Instance source_ok_dec f o k l q : Decision (source_ok f o k l q).
Proof. unfold source_ok. destruct q as [q|]; [destruct (f q)|]; apply _. Defined.

#[global] Instance node_ok_dec e w s : Decision (node_ok e w s).
Proof. unfold node_ok. repeat (case_match; try apply _). Defined.

#[global] Instance router_ok_dec e id w : Decision (router_ok e id w).
Proof. unfold router_ok. apply _. Defined.

#[global] Instance interface_ok_dec e i w : Decision (interface_ok e i w).
Proof. unfold interface_ok. apply _. Defined.

#[global] Instance ok_dec e n : Decision (ok e n).
Proof. unfold ok, ok_wires. apply _. Defined.

Lemma ok_same e n n' : ok e n -> Wires.net n' = Wires.net n -> ok e n'.
Proof. unfold ok. by intros ? ->. Qed.

Section Ok.
Context (e : edge) (n : Net.t) (Hok : ok e n).

Lemma ok_in id p r u :
  Net.router id n = Ok r -> vec_at (Router.m_input_unit r) p = Ok u ->
  (InputUnit.m_in_link u =? e_link e) = at_dst e (Port id p).
Proof.
  intros Hr Hu. destruct Hok as (H & _). eapply (vec_all_map _ Wires.router) in H as [H _]; [|exact Hr].
  eapply (vec_all_map _ InputUnit.m_in_link) in H; [|exact Hu]. unfold at_dst.
  apply Bool.eq_iff_eq_true. by rewrite Z.eqb_eq, bool_decide_eq_true.
Qed.

Lemma ok_out id p r o :
  Net.router id n = Ok r -> vec_at (Router.m_output_unit r) p = Ok o ->
  (OutputUnit.m_credit_link o =? e_credit e) = at_src e (Port id p).
Proof.
  intros Hr Ho. destruct Hok as (H & _). eapply (vec_all_map _ Wires.router) in H as [_ H]; [|exact Hr].
  eapply (vec_all_map _ OutputUnit.m_credit_link) in H; [|exact Ho]. unfold at_src.
  apply Bool.eq_iff_eq_true. by rewrite Z.eqb_eq, bool_decide_eq_true.
Qed.

Lemma ok_interface i ni :
  vec_at (Net.m_nis n) i = Ok ni ->
  (NetworkInterface.inNetLink ni =? e_link e) = at_dst e (Interface i) /\
  (NetworkInterface.inCreditLink ni =? e_credit e) = at_src e (Interface i).
Proof.
  intros Hi. destruct Hok as (_ & H & _). eapply (vec_all_map _ Wires.interface) in H as [H1 H2]; [|exact Hi].
  unfold at_dst, at_src. split; apply Bool.eq_iff_eq_true; by rewrite Z.eqb_eq, bool_decide_eq_true.
Qed.

Lemma ok_flit_source l x q :
  vec_at (Net.net_links n) l = Ok x -> NetworkLink.link_srcQueue x = Some q ->
  exists s, flit_end q = Some s /\ (l =? e_link e) = at_src e s.
Proof.
  intros Hl Hq. destruct Hok as (_ & _ & H & _).
  eapply (vec_all_map _ NetworkLink.link_srcQueue) in H; [|exact Hl]. unfold source_ok in H. rewrite Hq in H.
  destruct (flit_end q) as [s|]; [|done]. exists s. split; [done|].
  unfold at_src. apply Bool.eq_iff_eq_true. by rewrite Z.eqb_eq, bool_decide_eq_true.
Qed.

Lemma ok_credit_source l x q :
  vec_at (Net.credit_links n) l = Ok x -> NetworkLink.link_srcQueue x = Some q ->
  exists s, credit_end q = Some s /\ (l =? e_credit e) = at_dst e s.
Proof.
  intros Hl Hq. destruct Hok as (_ & _ & _ & H & _).
  eapply (vec_all_map _ NetworkLink.link_srcQueue) in H; [|exact Hl]. unfold source_ok in H. rewrite Hq in H.
  destruct (credit_end q) as [s|]; [|done]. exists s. split; [done|].
  unfold at_dst. apply Bool.eq_iff_eq_true. by rewrite Z.eqb_eq, bool_decide_eq_true.
Qed.

Lemma ok_node id dir r j d rj :
  (id, dir) ∈ Wires.w_ring (Wires.net n) -> Net.router id n = Ok r ->
  Mesh.get_upstreamId (NetConfig.m_num_cols (Net.cfg n)) dir (Router.m_id r) = Ok j ->
  Mesh.get_upstreamOutportDirn dir = Ok d -> Net.router j n = Ok rj ->
  at_dst e (Port id (Wires.index dir (RoutingUnit.m_inports_dirn2idx (Router.m_routing_unit r)))) =
  at_src e (Port j (Wires.index d (RoutingUnit.m_outports_dirn2idx (Router.m_routing_unit rj)))).
Proof.
  intros Hs Hr Hj Hd Hrj. destruct Hok as (_ & _ & _ & _ & H).
  rewrite Forall_forall in H. specialize (H _ Hs). unfold node_ok in H. cbn in H.
  rewrite (vec_at_map Wires.router _ _ _ Hr) in H. cbn in H. rewrite Hj, Hd in H.
  rewrite (vec_at_map Wires.router _ _ _ Hrj) in H. cbn in H. rewrite !Wires.index_directions in H.
  unfold at_dst, at_src. apply Bool.eq_iff_eq_true. by rewrite !bool_decide_eq_true.
Qed.

End Ok.
End Edge.

(** ** Steps of the network *)
Module Steps.
Section Steps.
Variables (e : edge) (v : Z).

#[local] Notation input_step := (Balance.input_step e v).
#[local] Notation output_step := (Balance.output_step e v).
#[local] Notation router_step := (Balance.router_step e v).
#[local] Notation rc_step := (Balance.rc_step e v).
#[local] Notation interface_step := (Balance.interface_step e v).
#[local] Notation net_step := (Balance.net_step e v).
#[local] Notation buf := (Balance.buf v).
#[local] Notation gets := (Balance.gets e v).
#[local] Notation sends := (Balance.sends e v).

Lemma net_refl n : net_step 0 n n.
Proof. apply wstep_refl. Qed.

Lemma net_trans a b d n1 n2 n3 : net_step a n1 n2 -> net_step b n2 n3 -> d = a + b -> net_step d n1 n3.
Proof. apply wstep_trans. Qed.

Lemma net_trans0 n1 n2 n3 : net_step 0 n1 n2 -> net_step 0 n2 n3 -> net_step 0 n1 n3.
Proof. intros H1 H2. by eapply net_trans; [exact H1|exact H2|]. Qed.

Lemma net_eq a b n1 n2 : net_step a n1 n2 -> a = b -> net_step b n1 n2.
Proof. apply wstep_eq. Qed.

(** What changes only the members of the state that are not weighed. *)
Lemma net_same n n' :
  Net.m_routers n' = Net.m_routers n -> Net.m_nis n' = Net.m_nis n ->
  Net.net_links n' = Net.net_links n -> Net.credit_links n' = Net.credit_links n ->
  Net.spinRing n' = Net.spinRing n -> Net.cfg n' = Net.cfg n -> net_step 0 n n'.
Proof.
  intros H1 H2 H3 H4 H5 H6. apply wstep_same.
  - unfold weight. by rewrite H1, H2, H3, H4.
  - unfold Wires.net. by rewrite H1, H2, H3, H4, H5, H6.
  - unfold Bounds.net. by rewrite H1, H2.
Qed.

Lemma net_wires d n n' : net_step d n n' -> Wires.net n' = Wires.net n.
Proof. by intros (_ & ? & _). Qed.

Lemma net_ok d n n' : Edge.ok e n -> net_step d n n' -> Edge.ok e n'.
Proof. intros H S. eapply Edge.ok_same; [exact H|by eapply net_wires]. Qed.

(** *** Updates of one object *)

Lemma upd_router_step id d f n n' :
  Net.upd_router id f n = Ok n' ->
  (forall r r', Net.router id n = Ok r -> f r = Ok r' -> router_step id d r r') -> net_step d n n'.
Proof.
  intros H Hf. unfold Net.upd_router in H. inv_bind H. simplify_res.
  apply (vec_upd_wstep (router e v) Wires.router Bounds.router d) in E as (Ht & Hw & HB); [|exact Hf].
  split_and!.
  - unfold weight. cbn. lia.
  - unfold Wires.net. cbn. by rewrite Hw.
  - intros [B1 B2]. split; [by apply HB|exact B2].
Qed.

Lemma upd_input_step id p d f n n' :
  Net.upd_input id p f n = Ok n' ->
  (forall r u u', Net.router id n = Ok r -> vec_at (Router.m_input_unit r) p = Ok u -> f u = Ok u' ->
     input_step id p d u u') -> net_step d n n'.
Proof.
  unfold Net.upd_input. intros H Hf. eapply upd_router_step; [exact H|]. intros r r' Hr Hr'.
  eapply Router_upd_input_step; [exact Hr'|]. intros u u'. by apply Hf.
Qed.

Lemma upd_output_step id p d f n n' :
  Net.upd_output id p f n = Ok n' ->
  (forall r o o', Net.router id n = Ok r -> vec_at (Router.m_output_unit r) p = Ok o -> f o = Ok o' ->
     output_step id p d o o') -> net_step d n n'.
Proof.
  unfold Net.upd_output. intros H Hf. eapply upd_router_step; [exact H|]. intros r r' Hr Hr'.
  eapply Router_upd_output_step; [exact Hr'|]. intros u u'. by apply Hf.
Qed.

Lemma upd_ni_step i d f n n' :
  Links.upd_ni i f n = Ok n' ->
  (forall x y, vec_at (Net.m_nis n) i = Ok x -> f x = Ok y -> interface_step i d x y) -> net_step d n n'.
Proof.
  intros H Hf. unfold Links.upd_ni in H. inv_bind H. simplify_res.
  apply (vec_upd_wstep (interface e v) Wires.interface Bounds.interface d) in E as (Ht & Hw & HB); [|exact Hf].
  split_and!.
  - unfold weight. cbn. lia.
  - unfold Wires.net. cbn. by rewrite Hw.
  - intros [B1 B2]. split; [exact B1|by apply HB].
Qed.

Lemma upd_vc_same id p k f n n' :
  (forall x, occupancy (f x) = occupancy x) ->
  Net.upd_input id p (InputUnit.upd_vc k f) n = Ok n' -> net_step 0 n n'.
Proof.
  intros Hf H. eapply upd_input_step; [exact H|]. intros r u u' _ _. by apply upd_vc_input_keep.
Qed.

Lemma on_router_step id stage n n' :
  (forall c c', stage c = Ok c' -> rc_step id 0 c c') -> Net.on_router id stage n = Ok n' -> net_step 0 n n'.
Proof.
  intros Hs H. unfold Net.on_router in H. inv_bind H. inv_bind H. apply Hs in E0. inv_bind H. simplify_res.
  apply (net_trans0 _ (Net.set_routers a1 n)); [|by apply net_same].
  eapply (upd_router_step id 0 (fun _ => Ok (RC.router a0))).
  - unfold Net.upd_router, vec_upd. unfold Net.router in E. rewrite E. cbn. by rewrite E1.
  - intros r r' Hr Hr'. rewrite E in Hr. simplify_res. exact E0.
Qed.

Lemma upd_net_link_step id l l' n n' :
  Links.upd_net_link id (fun _ => l') n = Ok n' -> vec_at (Net.net_links n) id = Ok l ->
  NetworkLink.link_srcQueue l' = NetworkLink.link_srcQueue l ->
  net_step (when (id =? e_link e) (buf (NetworkLink.linkBuffer l') - buf (NetworkLink.linkBuffer l))) n n'.
Proof.
  intros H Hl Hs. set (d := when _ _). unfold Links.upd_net_link in H. inv_bind H. simplify_res.
  eapply (vec_upd_wstep (net_link e v) NetworkLink.link_srcQueue (fun _ => True) d) in E as (Ht & Hw & _).
  - split_and!; [unfold weight; cbn; rewrite Ht; lia|unfold Wires.net; cbn; by rewrite Hw|done].
  - intros x y Hx Hy. rewrite Hl in Hx. simplify_res. split_and!; [|done|done].
    unfold d, net_link, when. destruct (id =? _); lia.
Qed.

Lemma upd_credit_link_step id l l' n n' :
  Links.upd_credit_link id (fun _ => l') n = Ok n' -> vec_at (Net.credit_links n) id = Ok l ->
  NetworkLink.link_srcQueue l' = NetworkLink.link_srcQueue l ->
  net_step (when (id =? e_credit e) (buf (NetworkLink.linkBuffer l') - buf (NetworkLink.linkBuffer l))) n n'.
Proof.
  intros H Hl Hs. set (d := when _ _). unfold Links.upd_credit_link in H. inv_bind H. simplify_res.
  eapply (vec_upd_wstep (credit_link e v) NetworkLink.link_srcQueue (fun _ => True) d) in E as (Ht & Hw & _).
  - split_and!; [unfold weight; cbn; rewrite Ht; lia|unfold Wires.net; cbn; by rewrite Hw|done].
  - intros x y Hx Hy. rewrite Hl in Hx. simplify_res. split_and!; [|done|done].
    unfold d, credit_link, when. destruct (id =? _); lia.
Qed.

Lemma foldM_step {A} (f : A -> Net.t -> Res Net.t) l n n' :
  (forall a n1 n2, f a n1 = Ok n2 -> net_step 0 n1 n2) -> foldM f l n = Ok n' -> net_step 0 n n'.
Proof. apply foldM_wstep. Qed.

(** *** Routing *)

(** The same ports, the same directions of the maps. *)
Lemma set_routing_unit_step id ru r :
  Wires.directions (RoutingUnit.m_inports_dirn2idx ru)
    = Wires.directions (RoutingUnit.m_inports_dirn2idx (Router.m_routing_unit r)) ->
  Wires.directions (RoutingUnit.m_outports_dirn2idx ru)
    = Wires.directions (RoutingUnit.m_outports_dirn2idx (Router.m_routing_unit r)) ->
  router_step id 0 r (Router.set_routing_unit ru r).
Proof.
  intros H1 H2. apply wstep_same; [done| |done]. unfold Wires.router. cbn. by rewrite H1, H2.
Qed.

Lemma port_of_step id d n p n' :
  Route.port_of id d n = Ok (p, n') ->
  net_step 0 n n' /\ exists r, Net.router id n = Ok r /\
    p = Wires.index d (RoutingUnit.m_outports_dirn2idx (Router.m_routing_unit r)).
Proof.
  unfold Route.port_of, RoutingUnit.outport_index. intros H. inv_bind H. rename a into r.
  pose proof (Wires.map_index_value d (RoutingUnit.m_outports_dirn2idx (Router.m_routing_unit r))) as Hv.
  pose proof (Wires.map_index_directions d (RoutingUnit.m_outports_dirn2idx (Router.m_routing_unit r))) as Hm.
  destruct (map_index 0 d _) as [i m]. inv_bind H. simplify_res. cbn in Hv, Hm. split; [|by exists r].
  eapply upd_router_step; [exact E0|]. intros x y Hx Hy. rewrite E in Hx. simplify_res.
  by apply set_routing_unit_step.
Qed.

Lemma inport_of_step id d n p n' :
  Spin.inport_of id d n = Ok (p, n') ->
  net_step 0 n n' /\ exists r, Net.router id n = Ok r /\
    p = Wires.index d (RoutingUnit.m_inports_dirn2idx (Router.m_routing_unit r)).
Proof.
  unfold Spin.inport_of, RoutingUnit.inport_index. intros H. inv_bind H. rename a into r.
  pose proof (Wires.map_index_value d (RoutingUnit.m_inports_dirn2idx (Router.m_routing_unit r))) as Hv.
  pose proof (Wires.map_index_directions d (RoutingUnit.m_inports_dirn2idx (Router.m_routing_unit r))) as Hm.
  destruct (map_index 0 d _) as [i m]. inv_bind H. simplify_res. cbn in Hv, Hm. split; [|by exists r].
  eapply upd_router_step; [exact E0|]. intros x y Hx Hy. rewrite E in Hx. simplify_res.
  by apply set_routing_unit_step.
Qed.

Lemma neighbour_free_step id d o n k n' : Route.neighbour_free id d o n = Ok (k, n') -> net_step 0 n n'.
Proof.
  unfold Route.neighbour_free, Router.get_numFreeVC, RoutingUnit.inport_index. intros H.
  inv_bind H. inv_bind H. destruct a0 as [j|]; [|done]. inv_bind H. rename a0 into r.
  inv_bind H. destruct a0 as [c r']. inv_bind H. simplify_res. inv_bind E2.
  pose proof (Wires.map_index_directions o (RoutingUnit.m_inports_dirn2idx (Router.m_routing_unit r))) as Hm.
  destruct (map_index 0 o _) as [i m]. inv_bind E2. inv_bind E2. simplify_res. cbn in Hm.
  eapply upd_router_step; [exact E3|]. intros x y Hx Hy. rewrite E1 in Hx. simplify_res.
  by apply set_routing_unit_step.
Qed.

Lemma random_step n : net_step 0 n (Net.random n).2.
Proof. by apply net_same. Qed.

Lemma adaptive_port_step id h r n p n' : Route.adaptive_port id h r n = Ok (p, n') -> net_step 0 n n'.
Proof.
  unfold Route.adaptive_port. intros H. inv_bind H. destruct a as [fx n1]. inv_bind H. destruct a as [fy n2].
  apply neighbour_free_step in E, E0. apply port_of_step in H as [H _].
  eapply net_trans0; [exact E|]. by eapply net_trans0.
Qed.

Lemma route_compute_step id route p d n q n' :
  Route.route_compute id route p d n = Ok (q, n') -> net_step 0 n n'.
Proof.
  unfold Route.route_compute, Route.outportCompute, Route.table_route. intros H. inv_bind H.
  destruct (_ =? _); [run_inv H; apply net_refl|].
  run_inv H. destruct (RoutingAlgorithm_of_int _);
    [|unfold Route.outportComputeXY in E0 | unfold Route.outportComputeRandom in E0
    |unfold Route.outportComputeAdaptRand in E0 | unfold Route.outportComputeWestFirst in E0
    |unfold Route.outportComputeAdaptWestFirst in E0| |];
    cbn in E0; run_inv E0; try apply net_refl; try done;
    first [apply port_of_step in E0 as [E0 _] | apply adaptive_port_step in E0];
    first [exact E0 | eapply net_trans0; [apply random_step|exact E0]].
Qed.

(** *** Ports *)

Lemma consumeLink_buf l f l' :
  NetworkLink.consumeLink l = Ok (f, l') ->
  buf (NetworkLink.linkBuffer l') = buf (NetworkLink.linkBuffer l) - has v f /\
  NetworkLink.link_srcQueue l' = NetworkLink.link_srcQueue l.
Proof.
  unfold NetworkLink.consumeLink. intros H. inv_bind H. destruct a. simplify_res.
  split; [|done]. by eapply buf_getTop_weight in E.
Qed.

Lemma route_head_step id p k u f n f' n' :
  GarnetNetwork.route_head id p k u f n = Ok (f', n') -> net_step 0 n n'.
Proof.
  unfold GarnetNetwork.route_head. intros H. inv_bind H. destruct (flit.is_head f); [|run_inv H; apply net_refl].
  inv_bind H. inv_bind H. rename a1 into n1. inv_bind H. destruct a1 as [o n2]. inv_bind H. inv_bind H.
  simplify_res. eapply upd_vc_same in E1; [|done]. apply route_compute_step in E2. by eapply net_trans0.
Qed.

Lemma buffer_flit_step id p k f u u' :
  GarnetNetwork.buffer_flit k f u = Ok u' -> input_step id p (gets id p k) u u'.
Proof.
  unfold GarnetNetwork.buffer_flit. intros H. inv_bind H. inv_bind H. inv_bind H. simplify_res.
  by eapply insertFlit_input_step in E.
Qed.

(** A flit that arrives goes from the link to a virtual channel. *)
Lemma input_wakeup_step id p n n' :
  Edge.ok e n -> GarnetNetwork.input_wakeup id p n = Ok n' -> net_step 0 n n'.
Proof.
  intros Hok H. unfold GarnetNetwork.input_wakeup in H. inv_bind H. rename a into r.
  inv_bind H. rename a into u. inv_bind H. rename a into l.
  inv_bind H. destruct a; cbn [negb] in H; [|simplify_res; apply net_refl].
  inv_bind H. destruct a as [f l']. inv_bind H. rename a into n1. inv_bind H. destruct a as [f1 n2].
  inv_bind H. inv_bind H. rename a0 into n3. simplify_res.
  apply consumeLink_buf in E3 as [Hl Hs]. eapply upd_net_link_step in E4; [|exact E1|exact Hs].
  rewrite (Edge.ok_in _ _ Hok _ _ _ _ E E0), Hl in E4. apply route_head_step in E5.
  eapply (upd_input_step _ _ (gets id p (flit.m_vc f))) in E7;
    [|intros ? ? ? _ _; apply buffer_flit_step].
  eapply net_trans; [exact E4| |symmetry; apply Z.add_opp_diag_r].
  eapply (net_trans 0 (gets id p (flit.m_vc f))); [exact E5| |unfold Balance.gets, has, when; destruct (at_dst e _); lia].
  eapply (net_trans _ 0); [exact E7|destruct (_ =? 0); by apply net_same|lia].
Qed.

Lemma OutputUnit_wakeup_step id p cur l o l' o' :
  OutputUnit.wakeup cur l o = Ok (l', o') ->
  output_step id p (when (at_src e (Port id p)) (buf (NetworkLink.linkBuffer l) - buf (NetworkLink.linkBuffer l'))) o o' /\
  NetworkLink.link_srcQueue l' = NetworkLink.link_srcQueue l.
Proof.
  unfold OutputUnit.wakeup. intros H. inv_bind H. destruct a.
  2:{ simplify_res. split; [|done]. eapply wstep_eq; [apply wstep_refl|].
      rewrite Z.sub_diag. unfold when. by destruct (at_src _ _). }
  inv_bind H. destruct a as [f l1]. apply consumeLink_buf in E0 as [Hl Hs]. inv_bind H. rename a into o1.
  apply (increment_credit_output e v id p) in E0.
  assert (output_step id p (when (at_src e (Port id p)) (buf (NetworkLink.linkBuffer l) - buf (NetworkLink.linkBuffer l1))) o o1) as S1.
  { eapply wstep_eq; [exact E0|]. rewrite Hl. unfold Balance.sends, has, when. destruct (at_src e _), (flit.m_vc f =? v); lia. }
  inv_bind H. destruct a; [|by simplify_res]. inv_bind H. simplify_res. split; [|done].
  apply (set_vc_state_output e v id p) in E2. eapply wstep_trans; [exact S1|exact E2|]. by rewrite Z.add_0_r.
Qed.

(** A credit that arrives goes from the link to the counter. *)
Lemma output_wakeup_step id p n n' :
  Edge.ok e n -> GarnetNetwork.output_wakeup id p n = Ok n' -> net_step 0 n n'.
Proof.
  intros Hok H. unfold GarnetNetwork.output_wakeup in H. inv_bind H. rename a into r.
  inv_bind H. rename a into o. inv_bind H. rename a into l. inv_bind H. destruct a as [l' o'].
  inv_bind H. rename a into n1. apply (OutputUnit_wakeup_step id p) in E2 as [So Hs].
  assert (Net.m_routers n1 = Net.m_routers n) as Hrs by (unfold Links.upd_credit_link in E3; by run_inv E3).
  eapply upd_credit_link_step in E3; [|exact E1|exact Hs]. rewrite (Edge.ok_out _ _ Hok _ _ _ _ E E0) in E3.
  eapply upd_output_step in H; cycle 1.
  { intros r1 o1 o2 Hr1 Ho1 Ho2. simplify_res. unfold Net.router in *. rewrite Hrs, E in Hr1. simplify_res.
    rewrite E0 in Ho1. simplify_res. exact So. }
  eapply net_trans; [exact E3|exact H|]. unfold when. destruct (at_src e _); lia.
Qed.

(** A loop whose steps need the wires. *)
Lemma foldM_ok {A} (f : A -> Net.t -> Res Net.t) l n n' :
  Edge.ok e n -> (forall a n1 n2, Edge.ok e n1 -> f a n1 = Ok n2 -> net_step 0 n1 n2) ->
  foldM f l n = Ok n' -> net_step 0 n n'.
Proof.
  intros Hok Hf. apply (foldM_preserve (fun s => net_step 0 n s)); [apply net_refl|].
  intros a s1 s2 _ Hs H. eapply net_trans0; [exact Hs|]. eapply Hf; [|exact H]. by eapply net_ok.
Qed.

Lemma input_units_wakeup_step id n n' :
  Edge.ok e n -> GarnetNetwork.input_units_wakeup id n = Ok n' -> net_step 0 n n'.
Proof.
  intros Hok H. unfold GarnetNetwork.input_units_wakeup in H. inv_bind H. revert H.
  apply foldM_ok; [done|]. intros. by eapply input_wakeup_step.
Qed.

Lemma output_units_wakeup_step id n n' :
  Edge.ok e n -> GarnetNetwork.output_units_wakeup id n = Ok n' -> net_step 0 n n'.
Proof.
  intros Hok H. unfold GarnetNetwork.output_units_wakeup in H. inv_bind H. revert H.
  apply foldM_ok; [done|]. intros. by eapply output_wakeup_step.
Qed.

(** *** Broadcasts *)

Lemma scheduleAll_wakeup_step k n : net_step 0 n (GarnetNetwork.scheduleAll_wakeup k n).
Proof.
  unfold GarnetNetwork.scheduleAll_wakeup. generalize (Net.m_routers n) as l. intros l. revert n.
  induction l as [|r l IH]; intros n; cbn; [apply net_refl|].
  apply (net_trans0 _ (Net.schedule (CRouter (Router.m_id r)) k n)); [by apply net_same|apply IH].
Qed.

Lemma set_routers_step rs n :
  itotal (router e v) rs = itotal (router e v) (Net.m_routers n) ->
  map Wires.router rs = map Wires.router (Net.m_routers n) ->
  (Forall Bounds.router (Net.m_routers n) -> Forall Bounds.router rs) ->
  net_step 0 n (Net.set_routers rs n).
Proof.
  intros H1 H2 H3. apply wstep_same.
  - unfold weight. cbn. by rewrite H1.
  - unfold Wires.net. cbn. by rewrite H2.
  - intros [B1 B2]. split; [by apply H3|done].
Qed.

Lemma set_halt_step b n : net_step 0 n (GarnetNetwork.set_halt b n).
Proof.
  apply set_routers_step.
  - unfold itotal. by rewrite total_from_map.
  - rewrite map_map. by apply map_ext.
  - intros HF. by apply Forall_map.
Qed.

Lemma set_flit_time_step k n n' : GarnetNetwork.set_flit_time k n = Ok n' -> net_step 0 n n'.
Proof.
  unfold GarnetNetwork.set_flit_time. intros H. inv_bind H. simplify_res.
  set (t := Net.curCycle n + _) in E. clearbody t.
  assert (forall id p u u', GarnetNetwork.set_flit_time_port k t u = Ok u' -> input_step id p 0 u u') as Hu.
  { intros id p u u' Hu. unfold GarnetNetwork.set_flit_time_port in Hu. inv_bind Hu.
    destruct (_ && _); [by eapply update_top_input_step|simplify_res; apply wstep_refl]. }
  assert (forall id r r', (us ← mapM (GarnetNetwork.set_flit_time_port k t) (Router.m_input_unit r);
      Ok (Router.set_inputs us r)) = Ok r' -> router_step id 0 r r') as Hr.
  { intros id r r' Hr. inv_bind Hr. simplify_res. apply wstep_same; [| |done].
    - unfold router. cbn. f_equal. f_equal. eapply itotal_mapM; [|exact E0].
      intros i x y Hx. destruct (Hu id i _ _ Hx) as (Hw & _). lia.
    - unfold Wires.router. cbn. f_equal. eapply map_mapM; [|exact E0]. intros x y Hx. by destruct (Hu 0 0 _ _ Hx) as (_ & ? & _). }
  apply set_routers_step.
  - eapply itotal_mapM; [|exact E]. intros i x y Hx. destruct (Hr i _ _ Hx) as (Hw & _). lia.
  - eapply map_mapM; [|exact E]. intros x y Hx. by destruct (Hr 0 _ _ Hx) as (_ & ? & _).
  - eapply Forall_mapM; [|exact E]. intros x y Hx. by destruct (Hr 0 _ _ Hx) as (_ & _ & ?).
Qed.

(** *** Link wake-ups *)

Lemma link_wakeup_buf cur b l b' l' ev :
  NetworkLink.wakeup cur b l = Ok (b', l', ev) ->
  buf (NetworkLink.linkBuffer l') - buf (NetworkLink.linkBuffer l) = buf b - buf b' /\
  NetworkLink.link_srcQueue l' = NetworkLink.link_srcQueue l.
Proof.
  unfold NetworkLink.wakeup. intros H. inv_bind H. destruct a; [|simplify_res; split; [lia|done]].
  inv_bind H. destruct a as [f src]. inv_bind H. inv_bind H. simplify_res. split; [|done].
  apply (buf_getTop_weight v) in E0. cbn -[flitBuffer.insert]. rewrite buf_insert_weight.
  change (has v (flit.set_time _ f)) with (has v f). lia.
Qed.

(** The queue a link reads from loses what the link gets. *)
Lemma write_queue_step q b b' n n' :
  Links.read_queue q n = Ok b -> Links.write_queue q b' n = Ok n' ->
  Net.net_links n' = Net.net_links n /\ Net.credit_links n' = Net.credit_links n /\
  (forall s, Edge.flit_end q = Some s -> net_step (when (at_src e s) (buf b' - buf b)) n n') /\
  (forall s, Edge.credit_end q = Some s -> net_step (when (at_dst e s) (buf b' - buf b)) n n').
Proof.
  destruct q as [id p|id p|i|i]; cbn; intros Hr H.
  - split_and!; [| | |done].
    1-2: unfold Net.upd_output, Net.upd_router in H; by run_inv H.
    intros s Hs. simplify_eq. inv_bind Hr. inv_bind Hr. simplify_res. eapply upd_output_step; [exact H|].
    intros r o o' H1 H2 H3. rewrite E in H1. simplify_res. rewrite E0 in H2. simplify_res.
    split_and!; [|done|done]. unfold output, sender, when. cbn. destruct (at_src e _); lia.
  - split_and!; [| |done|].
    1-2: unfold Net.upd_input, Net.upd_router in H; by run_inv H.
    intros s Hs. simplify_eq. inv_bind Hr. inv_bind Hr. simplify_res. eapply upd_input_step; [exact H|].
    intros r o o' H1 H2 H3. rewrite E in H1. simplify_res. rewrite E0 in H2. simplify_res.
    split_and!; [|done|done]. unfold input, when. cbn. destruct (at_dst e _); lia.
  - split_and!; [| | |done].
    1-2: unfold Links.upd_ni in H; by run_inv H.
    intros s Hs. simplify_eq. inv_bind Hr. simplify_res. eapply upd_ni_step; [exact H|].
    intros x y Hx Hy. rewrite E in Hx. simplify_res. split_and!; [|done|done].
    unfold interface, sender, when. cbn. destruct (at_src e _), (at_dst e _); lia.
  - split_and!; [| |done|].
    1-2: unfold Links.upd_ni in H; by run_inv H.
    intros s Hs. simplify_eq. inv_bind Hr. simplify_res. eapply upd_ni_step; [exact H|].
    intros x y Hx Hy. rewrite E in Hx. simplify_res. split_and!; [|done|done].
    unfold interface, sender, when. cbn. destruct (at_src e _), (at_dst e _); lia.
Qed.

Lemma run_link_step l n l' n' :
  Links.run_link l n = Ok (l', n') ->
  exists q, NetworkLink.link_srcQueue l = Some q /\ NetworkLink.link_srcQueue l' = Some q /\
    Net.net_links n' = Net.net_links n /\ Net.credit_links n' = Net.credit_links n /\
    let d := buf (NetworkLink.linkBuffer l) - buf (NetworkLink.linkBuffer l') in
    (forall s, Edge.flit_end q = Some s -> net_step (when (at_src e s) d) n n') /\
    (forall s, Edge.credit_end q = Some s -> net_step (when (at_dst e s) d) n n').
Proof.
  unfold Links.run_link, Links.source. intros H. inv_bind H. rename a into q.
  destruct (NetworkLink.link_srcQueue l) as [q'|] eqn:Hq; [|done]. simplify_res. exists q.
  inv_bind H. rename a into b. inv_bind H. destruct a as [[b' l1] ev]. inv_bind H. rename a into n1.
  simplify_res. apply link_wakeup_buf in E0 as [Hl Hs].
  apply (write_queue_step _ _ _ _ _ E) in E1 as (N1 & C1 & D1 & D2).
  assert (buf b' - buf b = buf (NetworkLink.linkBuffer l) - buf (NetworkLink.linkBuffer l')) as Hd by lia.
  rewrite Hd in D1, D2. assert (net_step 0 n1 (match ev with Some (c, k) => Net.schedule c k n1 | None => n1 end)) as S.
  { destruct ev as [[c k]|]; by apply net_same. }
  split_and!; [done|congruence|destruct ev as [[c k]|]; done|destruct ev as [[c k]|]; done| |].
  - intros s Hs'. eapply net_trans; [by apply D1|exact S|lia].
  - intros s Hs'. eapply net_trans; [by apply D2|exact S|lia].
Qed.

Lemma network_link_wakeup_step id n n' :
  Edge.ok e n -> Links.network_link_wakeup id n = Ok n' -> net_step 0 n n'.
Proof.
  intros Hok H. unfold Links.network_link_wakeup in H. inv_bind H. rename a into l.
  inv_bind H. destruct a as [l' n1]. inv_bind H. simplify_res.
  apply run_link_step in E0 as (q & Hq & Hq' & N1 & C1 & D1 & _).
  destruct (Edge.ok_flit_source _ _ Hok _ _ _ E Hq) as (s & Hs & Hid). specialize (D1 s Hs).
  assert (Links.upd_net_link id (fun _ => l') n1 = Ok (Net.set_net_links a n1)) as H.
  { unfold Links.upd_net_link, vec_upd. rewrite N1, E. cbn. rewrite <- N1, E1. done. }
  eapply upd_net_link_step in H; [|rewrite N1; exact E|congruence]. rewrite Hid in H.
  eapply net_trans; [exact D1|exact H|]. unfold when. destruct (at_src e s); lia.
Qed.

Lemma credit_link_wakeup_step id n n' :
  Edge.ok e n -> Links.credit_link_wakeup id n = Ok n' -> net_step 0 n n'.
Proof.
  intros Hok H. unfold Links.credit_link_wakeup in H. inv_bind H. rename a into l.
  inv_bind H. destruct a as [l' n1]. inv_bind H. simplify_res.
  apply run_link_step in E0 as (q & Hq & Hq' & N1 & C1 & _ & D1).
  destruct (Edge.ok_credit_source _ _ Hok _ _ _ E Hq) as (s & Hs & Hid). specialize (D1 s Hs).
  assert (Links.upd_credit_link id (fun _ => l') n1 = Ok (Net.set_credit_links a n1)) as H.
  { unfold Links.upd_credit_link, vec_upd. rewrite C1, E. cbn. rewrite <- C1, E1. done. }
  eapply upd_credit_link_step in H; [|rewrite C1; exact E|congruence]. rewrite Hid in H.
  eapply net_trans; [exact D1|exact H|]. unfold when. destruct (at_dst e s); lia.
Qed.

(** *** The spin *)

Definition on_ring (id : Z) (d : PortDirection) (n : Net.t) : Prop :=
  (id, d) ∈ Wires.w_ring (Wires.net n).

(** The port of a direction. *)
Definition in_port (id : Z) (d : PortDirection) (n : Net.t) : Z :=
  match vec_at (Wires.w_routers (Wires.net n)) id with
  | Ok r => Wires.index d (Wires.w_inports r)
  | Err _ => 0
  end.

Lemma in_port_router id d n r :
  Net.router id n = Ok r ->
  in_port id d n = Wires.index d (RoutingUnit.m_inports_dirn2idx (Router.m_routing_unit r)).
Proof.
  intros Hr. unfold in_port. cbn. rewrite (vec_at_map Wires.router _ _ _ Hr). cbn.
  apply Wires.index_directions.
Qed.

Lemma node_on_ring k s n :
  vec_at (Net.spinRing n) k = Ok s -> on_ring (spinStruct.router_id_ s) (spinStruct.inport_dir_ s) n.
Proof. intros [_ H]%vec_at_Ok. unfold on_ring. cbn. apply list_elem_of_fmap. exists s. split; [done|]. by eapply list_elem_of_lookup_2. Qed.

(** The output port upstream of a port of the ring gets [d] credits. *)
Lemma on_upstream_step id dir w f d n n' :
  Edge.ok e n -> on_ring id dir n ->
  (forall j q o o', f o = Ok o' -> output_step j q (when (at_src e (Port j q)) d) o o') ->
  Spin.on_upstream id dir w f n = Ok n' ->
  net_step (when (at_dst e (Port id (in_port id dir n))) d) n n'.
Proof.
  intros Hok Hring Hf H. unfold Spin.on_upstream, Mesh.get_upstreamrouter in H. inv_bind H.
  apply my_id_inv in E as (r & Hr & <-). inv_bind H. inv_bind E. simplify_res.
  destruct (_ || _); [done|]. inv_bind H. inv_bind H. destruct a1 as [q n1].
  apply port_of_step in E1 as (S1 & rj & Hrj & ->).
  rewrite (in_port_router _ _ _ _ Hr), (Edge.ok_node _ _ Hok _ _ _ _ _ _ Hring Hr E0 E Hrj).
  eapply upd_output_step in H; [|intros ? ? ? _ _; apply Hf].
  by eapply net_trans; [exact S1|exact H|].
Qed.

Lemma free_outvc_step k c j q o o' :
  Spin.free_outvc k c o = Ok o' -> output_step j q (when (at_src e (Port j q)) (when (k =? v) 1)) o o'.
Proof.
  unfold Spin.free_outvc. intros H. inv_bind H. apply (increment_credit_output e v j q) in E.
  apply (set_vc_state_output e v j q) in H. eapply wstep_trans; [exact E|exact H|]. by rewrite Z.add_0_r.
Qed.

Lemma occupy_outvc_step k c j q o o' :
  Spin.occupy_outvc k c o = Ok o' -> output_step j q (when (at_src e (Port j q)) (- when (k =? v) 1)) o o'.
Proof.
  unfold Spin.occupy_outvc. intros H. inv_bind H. apply (decrement_credit_output e v j q) in E.
  apply (set_vc_state_output e v j q) in H. eapply wstep_trans; [exact E|exact H|].
  unfold Balance.sends, when. destruct (at_src e _); lia.
Qed.

Lemma set_ring_flit_step k f n n' : Spin.set_ring_flit k f n = Ok n' -> net_step 0 n n'.
Proof.
  unfold Spin.set_ring_flit. intros H. inv_bind H. simplify_res.
  apply (vec_upd_wstep (fun _ _ => 0) Wires.node (fun _ => True) 0) in E as (_ & Hw & _).
  - apply wstep_same; [done| |done]. unfold Wires.net. cbn. by rewrite Hw.
  - intros x y _ Hy. by simplify_res.
Qed.

(** Taking a flit from the port frees a slot and returns its credit. *)
Lemma take_flit_step k i p node n n' :
  Edge.ok e n -> vec_at (Net.spinRing n) i = Ok node ->
  p = in_port (spinStruct.router_id_ node) (spinStruct.inport_dir_ node) n ->
  Spin.take_flit k i p node n = Ok n' -> net_step 0 n n'.
Proof.
  intros Hok Hnode%node_on_ring Hp H. unfold Spin.take_flit in H. inv_bind H. rename a into r.
  inv_bind H. rename a into u. inv_bind H. inv_bind H. inv_bind H. destruct a1 as [f u'].
  inv_bind H. rename a1 into n1. inv_bind H. inv_bind H. inv_bind H. inv_bind H. rename a4 into n2.
  inv_bind H. rename a4 into n3. set (id := spinStruct.router_id_ node) in *.
  assert (net_step (- gets id p k) n n1) as S1.
  { eapply upd_input_step; [exact E4|]. intros r1 x y Hr1 Hx Hy. simplify_res. rewrite E in Hr1. simplify_res.
    rewrite E0 in Hx. simplify_res. by eapply getTopFlit_input_step. }
  apply set_ring_flit_step in E8. eapply upd_vc_same in E9; [|done].
  assert (net_step (- gets id p k) n n3) as S3.
  { eapply (net_trans (- gets id p k) 0); [exact S1| |lia]. eapply net_trans0; [|exact E9].
    eapply net_trans0; [|exact E8]. destruct a2; by apply net_same. }
  eapply (on_upstream_step _ _ _ _ (when (k =? v) 1)) in H;
    [|by eapply net_ok|unfold on_ring; rewrite (net_wires _ _ _ S3); exact Hnode|intros j q; apply free_outvc_step].
  eapply net_trans; [exact S3|exact H|]. unfold in_port in *. rewrite (net_wires _ _ _ S3), Hp.
  symmetry. apply Z.add_opp_diag_l.
Qed.

Lemma remove_stage_step k i st st' :
  Edge.ok e st.2 -> Spin.remove_stage k i st = Ok st' -> net_step 0 st.2 st'.2.
Proof.
  destruct st as [c n]. cbn. intros Hok H. unfold Spin.remove_stage in H. inv_bind H. rename a into node.
  inv_bind H. destruct a as [p n1].
  assert (Net.spinRing n1 = Net.spinRing n) as HR.
  { unfold Spin.inport_of in E0. inv_bind E0. destruct (RoutingUnit.inport_index _ _). inv_bind E0. simplify_res.
    by apply upd_router_inv in E2 as (? & ? & _ & _ & ->). }
  apply inport_of_step in E0 as (S1 & r & Hr & Hp). inv_bind H. inv_bind H.
  destruct a0; inv_bind H; simplify_res; cbn.
  - apply set_ring_flit_step in E2. eapply net_trans0; [exact S1|]. eapply net_trans0; [exact E2|]. by apply net_same.
  - eapply net_trans0; [exact S1|]. eapply take_flit_step; [by eapply net_ok|rewrite HR; exact E| |exact E2].
    unfold in_port. rewrite (net_wires _ _ _ S1). symmetry. by apply in_port_router.
Qed.

(** Placing a flit uses up a slot and a credit. *)
Lemma place_flit_step k p node i f n n' :
  Edge.ok e n -> vec_at (Net.spinRing n) i = Ok node ->
  p = in_port (spinStruct.router_id_ node) (spinStruct.inport_dir_ node) n ->
  Spin.place_flit k p node f n = Ok n' -> net_step 0 n n'.
Proof.
  intros Hok Hnode%node_on_ring Hp H. unfold Spin.place_flit in H. inv_bind H. destruct a as [o n1].
  apply route_compute_step in E. inv_bind H. inv_bind H. inv_bind H. inv_bind H. inv_bind H. rename a3 into n2.
  inv_bind H. inv_bind H. inv_bind H. inv_bind H. rename a6 into n3. set (id := spinStruct.router_id_ node) in *.
  eapply (upd_input_step _ _ (gets id p k)) in E4; [|intros ? ? ? _ _; apply insertFlit_input_step].
  eapply upd_vc_same in E8; [|done].
  assert (net_step (gets id p k) n n3) as S3.
  { eapply (net_trans 0); [exact E| |done]. eapply (net_trans _ 0); [|exact E8|symmetry; apply Z.add_0_r].
    eapply (net_trans 0); [|exact E4|done]. destruct (_ >? _); by apply net_same. }
  eapply (on_upstream_step _ _ _ _ (- when (k =? v) 1)) in H;
    [|by eapply net_ok|unfold on_ring; rewrite (net_wires _ _ _ S3); exact Hnode|intros j q; apply occupy_outvc_step].
  eapply net_trans; [exact S3|exact H|]. unfold in_port in *. rewrite (net_wires _ _ _ S3), <- Hp.
  unfold Balance.gets, when. destruct (at_dst e (Port id p)), (k =? v); lia.
Qed.

Lemma insert_stage_step k i st st' :
  Edge.ok e st.2 -> Spin.insert_stage k i st = Ok st' -> net_step 0 st.2 st'.2.
Proof.
  destruct st as [c n]. cbn. intros Hok H. unfold Spin.insert_stage in H. inv_bind H. rename a into node.
  destruct (spinStruct.flit_ node) as [f|]; [|simplify_res; apply net_refl].
  inv_bind H. destruct a as [p n1].
  assert (Net.spinRing n1 = Net.spinRing n) as HR.
  { unfold Spin.inport_of in E0. inv_bind E0. destruct (RoutingUnit.inport_index _ _). inv_bind E0. simplify_res.
    by apply upd_router_inv in E2 as (? & ? & _ & _ & ->). }
  apply inport_of_step in E0 as (S1 & r & Hr & Hp). inv_bind H. inv_bind H. inv_bind H. simplify_res. cbn.
  eapply net_trans0; [exact S1|]. eapply place_flit_step; [by eapply net_ok|rewrite HR; exact E| |exact E2].
  unfold in_port. rewrite (net_wires _ _ _ S1). symmetry. by apply in_port_router.
Qed.

Lemma doSpin_step k n n' : Edge.ok e n -> Spin.doSpin k n = Ok n' -> net_step 0 n n'.
Proof.
  intros Hok H. unfold Spin.doSpin in H. inv_bind H. set (n0 := Spin.add_spin 1 0 0 0 n) in H.
  assert (net_step 0 n n0) as S0 by (by apply net_same).
  destruct (_ =? 0); [done|]. inv_bind H. destruct a0 as [k1 n1]. inv_bind H. inv_bind H. destruct a1 as [k2 n2].
  inv_bind H. simplify_res.
  assert (forall stage l st st',
    (forall i x y, Edge.ok e x.2 -> stage i x = Ok y -> net_step 0 x.2 y.2) -> net_step 0 n st.2 ->
    foldM (A := Z) (S := Z * Net.t) stage l st = Ok st' -> net_step 0 n st'.2) as Hl.
  { intros stage l st st' Hs Hst. apply (foldM_preserve (fun x => net_step 0 n x.2)); [done|].
    intros i x y _ Hx Hy. eapply net_trans0; [exact Hx|]. eapply Hs; [|exact Hy]. by eapply net_ok. }
  apply Hl in E0; [|intros i x y; apply remove_stage_step|exact S0].
  apply Hl in E2; [exact E2|intros i x y; apply insert_stage_step|exact E0].
Qed.

(** *** A router's cycle *)

Lemma spins_step r n n' : Edge.ok e n -> RouterStep.spins r n = Ok n' -> net_step 0 n n'.
Proof.
  intros Hok.
  assert (forall k n1 n2, Edge.ok e n1 -> RouterStep.drain_vc k n1 = Ok n2 -> net_step 0 n1 n2) as Hd.
  { intros k n1 n2 Hok1 H. by eapply doSpin_step in H. }
  assert (forall (l : list Z) vcs n1 n2, Edge.ok e n1 ->
    foldM (fun _ n => foldM RouterStep.drain_vc vcs n) l n1 = Ok n2 -> net_step 0 n1 n2) as Hl.
  { intros l vcs n1 n2 Hok1. apply foldM_ok; [done|]. intros _ m1 m2 Hm. by apply foldM_ok. }
  unfold RouterStep.spins. intros H. cbn in H. run_inv H; [|by eapply Hl|apply net_refl].
  apply Hl in H; [|done]. exact H.
Qed.

Lemma start_drain_step id n n' : RouterStep.start_drain id n = Ok n' -> net_step 0 n n'.
Proof.
  unfold RouterStep.start_drain. intros H. inv_bind H. inv_bind H. rename a0 into n1.
  assert (net_step 0 n n1) as S1.
  { destruct (negb _); [|simplify_res; apply net_refl]. inv_bind E0. simplify_res.
    eapply net_trans0; [apply set_halt_step|apply scheduleAll_wakeup_step]. }
  run_inv H; [|done]. eapply net_trans0; [exact S1|]. by apply net_same.
Qed.

Lemma do_drain_step id n n' : Edge.ok e n -> RouterStep.do_drain id n = Ok n' -> net_step 0 n n'.
Proof.
  intros Hok H. unfold RouterStep.do_drain in H. inv_bind H. rename a into n1. inv_bind H. inv_bind H.
  rename a0 into n2. simplify_res. eapply (upd_router_step _ 0) in E; [|intros; simplify_res; by apply wstep_same].
  eapply net_trans0; [exact E|]. apply (net_trans0 _ n2).
  2:{ eapply net_trans0; [|apply scheduleAll_wakeup_step]. by apply net_same. }
  destruct (Router.halt_ a); [|simplify_res; apply net_refl]. inv_bind E1. inv_bind E1. inv_bind E1.
  assert (net_step 0 n1 (GarnetNetwork.set_halt false n1)) as Sh by apply set_halt_step.
  apply spins_step in E4; [|eapply net_ok; [eapply net_ok; [exact Hok|exact E]|exact Sh]].
  apply foldM_step in E1; [|intros; by eapply set_flit_time_step].
  eapply net_trans0; [exact Sh|]. by eapply net_trans0.
Qed.

Lemma drain_step_step id n n' : Edge.ok e n -> RouterStep.drain_step id n = Ok n' -> net_step 0 n n'.
Proof.
  unfold RouterStep.drain_step, RouterStep.wait_drain. intros Hok H.
  destruct (NetConfig.m_spin _); [|simplify_res; apply net_refl].
  destruct (_ && _); [by apply start_drain_step in H|].
  destruct (_ && _); [by apply do_drain_step in H|]. run_inv H; apply net_refl.
Qed.

Lemma router_wakeup_step id n n' : Edge.ok e n -> RouterStep.wakeup id n = Ok n' -> net_step 0 n n'.
Proof.
  intros Hok H. unfold RouterStep.wakeup, RouterStep.switch_allocation, RouterStep.switch_traversal in H.
  inv_bind H. rename a into n1. inv_bind H. rename a into n2. inv_bind H. rename a into n3. inv_bind H.
  apply input_units_wakeup_step in E; [|done]. apply output_units_wakeup_step in E0; [|by eapply net_ok].
  assert (net_step 0 n n2) as S2 by (by eapply net_trans0).
  apply drain_step_step in E1; [|by eapply net_ok].
  apply on_router_step in E2; [|intros; by eapply SA_wakeup_step].
  apply on_router_step in H; [|intros; by eapply XBar_wakeup_step].
  eapply net_trans0; [exact S2|]. eapply net_trans0; [exact E1|]. by eapply net_trans0.
Qed.

End Steps.
End Steps.
