(* ===== verification/CreditInterfaces.v ===== *)
(** * The credit balance under the wake-ups of the interfaces

    An interface sends flits like an output port and receives them like an
    input port, with its stall queue as the buffer. *)

From S2P Require Import Prelude NetDest Types FlitBuffer Channels RouterCore MsgBuffer NetState Routing RoutingFacts Network Spin RouterStep NI Frames Multicast StallFacts CreditBalance CreditSteps.

Import Balance.

Module Ends.
Section Ends.
Variables (e : edge) (v : Z).

#[local] Notation interface_step := (Balance.interface_step e v).
#[local] Notation net_step := (Balance.net_step e v).
#[local] Notation buf := (Balance.buf v).
#[local] Notation has := (Balance.has v).
#[local] Notation net_refl := (Steps.net_refl e v).
#[local] Notation net_same := (Steps.net_same e v).
#[local] Notation net_trans := (Steps.net_trans e v).
#[local] Notation net_trans0 := (Steps.net_trans0 e v).

(** What an interface holds for the links it receives from. *)
Definition arrives (i : Z) (f : flit.t) : Z := when (at_dst e (Interface i)) (has f).

(** *** Statistics and protocol buffers *)

Lemma stats_upd_step f n n' : NetStats.upd f n = Ok n' -> net_step 0 n n'.
Proof. unfold NetStats.upd. intros H. inv_bind H. simplify_res. by apply net_same. Qed.

Lemma incrementStats_step f n n' : NI.incrementStats f n = Ok n' -> net_step 0 n n'.
Proof.
  unfold NI.incrementStats, NetStats.increment_received_flits. intros H. inv_bind H. inv_bind H.
  apply stats_upd_step in H. eapply net_trans0; [|exact H]. inv_bind E0. apply stats_upd_step in E1.
  destruct (_ && _); [|by simplify_res]. inv_bind E0. apply stats_upd_step in E0. by eapply net_trans0.
Qed.

Lemma upd_buffer_step b f n n' : NI.upd_buffer b f n = Ok n' -> net_step 0 n n'.
Proof. unfold NI.upd_buffer. intros H. inv_bind H. simplify_res. by apply net_same. Qed.

Lemma slot_available_step b n r n' : NI.slot_available b n = Ok (r, n') -> net_step 0 n n'.
Proof.
  unfold NI.slot_available. intros H. inv_bind H. destruct (MessageBuffer.areNSlotsAvailable _ _ _).
  inv_bind H. simplify_res. by apply upd_buffer_step in E0.
Qed.

(** *** The interface's own state *)

Lemma interface_same i x y :
  NetworkInterface.m_out_vc_state y = NetworkInterface.m_out_vc_state x ->
  NetworkInterface.outFlitQueue y = NetworkInterface.outFlitQueue x ->
  NetworkInterface.m_stall_queue y = NetworkInterface.m_stall_queue x ->
  NetworkInterface.outCreditQueue y = NetworkInterface.outCreditQueue x ->
  NetworkInterface.m_ni_out_vcs y = NetworkInterface.m_ni_out_vcs x ->
  Wires.interface y = Wires.interface x -> interface_step i 0 x y.
Proof.
  intros H1 H2 H3 H4 H5 H6. apply wstep_same; [|done|].
  - unfold interface. by rewrite H1, H2, H3, H4.
  - unfold Bounds.interface. by rewrite H1, H5.
Qed.

Lemma upd_out_vc_step i k d f x y :
  (forall s s', f s = Ok s' -> used s' = used s + d /\ (Bounds.credit s -> Bounds.credit s')) ->
  NIState.upd_out_vc k f x = Ok y ->
  interface_step i (when (at_src e (Interface i)) (when (k =? v) d)) x y.
Proof.
  intros Hf H. unfold NIState.upd_out_vc in H. inv_bind H. simplify_res.
  eapply (vec_upd_wstep (cred v) (fun _ => tt) Bounds.credit (when (k =? v) d)) in E as (Ht & _ & HB).
  - split_and!; [|done|intros [B1 B2]; split; [by apply HB|exact B2]].
    unfold interface, sender. cbn. rewrite Ht. unfold when. destruct (at_src _ _); lia.
  - intros s s' _ Hs. destruct (Hf _ _ Hs) as [Hu Hb]. split_and!; [|done|done].
    unfold cred. rewrite Hu. unfold when. destruct (k =? v); lia.
Qed.

Lemma upd_out_vc_keep i k x t y z :
  NIState.upd_out_vc k (fun s => Ok (OutVcState.setState x t s)) y = Ok z -> interface_step i 0 y z.
Proof.
  intros H. eapply wstep_eq; [eapply (upd_out_vc_step i k 0); [|exact H]|].
  - apply setState_used.
  - unfold when. by destruct (at_src e (Interface i)), (k =? v).
Qed.

Lemma sendCredit_step i net cur f b x :
  interface_step i (arrives i f) x (NIState.sendCredit net cur f b x).
Proof.
  split_and!; [|done|done]. unfold interface, arrives. cbn -[flitBuffer.insert]. rewrite buf_insert_weight.
  change (has (Credit.new _ _ (flit.m_vc f) _ _)) with (has f). unfold when. destruct (at_dst e _); lia.
Qed.

Lemma stall_step i f x y : NIState.stall f x = Ok y -> interface_step i (arrives i f) x y.
Proof.
  unfold NIState.stall. intros H. inv_bind H. simplify_res. split_and!; [|done|done].
  unfold interface, arrives. cbn. rewrite total_app. cbn. unfold when. destruct (at_dst e _); lia.
Qed.

Lemma unstall_step i k vnet f c x y :
  NetworkInterface.m_stall_queue x !! k = Some f -> NI.unstall k vnet x = Ok (c, y) ->
  interface_step i (- arrives i f) x y.
Proof.
  intros Hf H. unfold NI.unstall in H. inv_bind H. inv_bind H. simplify_res. split_and!; [|done|done].
  unfold interface, arrives. cbn. rewrite (total_delete _ _ _ _ Hf). unfold when. destruct (at_dst e _); lia.
Qed.

(** A credit that arrives goes from the link to the counter. *)
Lemma receive_credit_step i cur c x y :
  NIState.receive_credit cur c x = Ok y ->
  interface_step i (when (at_src e (Interface i)) (has c)) x y.
Proof.
  unfold NIState.receive_credit. intros H. inv_bind H. apply (upd_out_vc_step i _ 1) in E; [|apply increment_credit_used].
  inv_bind H. destruct a0; [|by simplify_res]. apply (upd_out_vc_keep i) in H.
  eapply wstep_trans; [exact E|exact H|]. by rewrite Z.add_0_r.
Qed.

(** *** Ejection *)

Section Eject.
Variables (rnd warm : bool) (rt : Z -> Z).

(** A delivered flit leaves a credit. *)
Lemma eject_step i b f n n' : NI.eject rnd warm rt i b f n = Ok n' -> net_step (arrives i f) n n'.
Proof.
  unfold NI.eject. intros H. inv_bind H. inv_bind H. inv_bind H. destruct a1 as [mb ev].
  inv_bind H. rename a1 into n1. inv_bind H. rename a1 into n2.
  apply upd_buffer_step in E2. apply incrementStats_step in H.
  eapply (Steps.upd_ni_step e v i (arrives i f)) in E3;
    [|intros x y _ Hy; simplify_res; apply sendCredit_step].
  eapply (net_trans 0); [exact E2| |symmetry; apply Z.add_0_l].
  eapply (net_trans (arrives i f) 0); [|exact H|symmetry; apply Z.add_0_r].
  eapply (net_trans 0); [|exact E3|symmetry; apply Z.add_0_l]. by apply net_same.
Qed.

Lemma checkStall_step i pre q n r n' ni :
  NI.ni_at i n = Ok ni -> NetworkInterface.m_stall_queue ni = pre ++ q ->
  NI.checkStall rnd warm rt i (length pre) q n = Ok (r, n') -> net_step 0 n n'.
Proof.
  revert pre n ni. induction q as [|f q IH]; intros pre n ni Hni Hq H; cbn in H;
    [simplify_res; apply net_refl|].
  rewrite Hni in H. cbn in H. inv_bind H. rename a into b. inv_bind H. destruct a as [ok n1].
  pose proof (slot_available_step _ _ _ _ E0) as D1. apply slot_available_stalls in E0.
  destruct (stalls_at i n n1 ni E0 Hni) as (ni1 & Hni1 & Hv1).
  pose proof (f_equal fst Hv1) as Hq1. cbn in Hq1. destruct ok.
  - inv_bind H. rename a into n2. pose proof (eject_step _ _ _ _ _ E1) as D2. apply eject_stalls in E1.
    destruct (stalls_at i n1 n2 ni1 E1 Hni1) as (ni2 & Hni2 & Hv2). rewrite Hni2 in H. cbn in H.
    inv_bind H. destruct a as [c ni3]. inv_bind H. rename a into n3. inv_bind H. rename a into n4.
    simplify_res. pose proof (f_equal fst Hv2) as Hq2. cbn in Hq2.
    eapply (Steps.upd_ni_step e v i (- arrives i f)) in E3.
    2:{ intros x y Hx Hy. simplify_res. unfold NI.ni_at in Hni2. rewrite Hni2 in Hx. simplify_res.
        eapply unstall_step; [|exact E2]. rewrite Hq2, Hq1, Hq. by apply list_lookup_middle. }
    eapply net_trans0; [exact D1|]. eapply (net_trans (arrives i f) (- arrives i f)); [exact D2| |lia].
    eapply (net_trans _ 0); [exact E3| |lia].
    destruct (c =? 0); [by apply upd_buffer_step in E4|simplify_res; apply net_refl].
  - replace (S (length pre)) with (length (pre ++ [f])) in H by (rewrite length_app; cbn; lia).
    eapply net_trans0; [exact D1|]. eapply IH; [exact Hni1| |exact H]. by rewrite Hq1, Hq, <- app_assoc.
Qed.

Lemma receive_flit_step i m f n n' :
  NI.receive_flit rnd warm rt i m f n = Ok n' -> net_step (arrives i f) n n'.
Proof.
  unfold NI.receive_flit. intros H. destruct (flit.is_tail f); [|by run_inv H].
  inv_bind H. destruct a as [d n1]. assert (net_step 0 n n1) as D1.
  { destruct m; [simplify_res; apply net_refl|]. inv_bind E. inv_bind E. by eapply slot_available_step. }
  inv_bind H. inv_bind H. eapply (net_trans 0); [exact D1| |symmetry; apply Z.add_0_l]. destruct d.
  - by apply eject_step in H.
  - inv_bind H. apply upd_buffer_step in H.
    eapply (Steps.upd_ni_step e v i (arrives i f)) in E2; [|intros x y _; apply stall_step].
    eapply (net_trans _ 0); [exact E2|exact H|lia].
Qed.

Lemma check_in_link_step i m n n' :
  Edge.ok e n -> NI.check_in_link rnd warm rt i m n = Ok n' -> net_step 0 n n'.
Proof.
  unfold NI.check_in_link. intros Hok H. inv_bind H. inv_bind H. inv_bind H.
  destruct a1; [|simplify_res; apply net_refl]. inv_bind H. destruct a1 as [f l']. inv_bind H. rename a1 into n1.
  eapply Steps.consumeLink_buf in E2 as [Hl Hs]. eapply Steps.upd_net_link_step in E3; [|exact E0|exact Hs].
  destruct (Edge.ok_interface _ _ Hok _ _ E) as [Hin _]. rewrite Hin, Hl in E3.
  apply receive_flit_step in H. eapply net_trans; [exact E3|exact H|].
  change (arrives i (flit.set_dequeue_time _ f)) with (arrives i f). unfold arrives, when. destruct (at_dst e (Interface i)); lia.
Qed.

End Eject.

Lemma check_credit_link_step i n n' :
  Edge.ok e n -> NI.check_credit_link i n = Ok n' -> net_step 0 n n'.
Proof.
  unfold NI.check_credit_link. intros Hok H. inv_bind H. inv_bind H. inv_bind H.
  destruct a1; [|simplify_res; apply net_refl]. inv_bind H. destruct a1 as [c l']. inv_bind H. rename a1 into n1.
  eapply Steps.consumeLink_buf in E2 as [Hl Hs]. eapply Steps.upd_credit_link_step in E3; [|exact E0|exact Hs].
  destruct (Edge.ok_interface _ _ Hok _ _ E) as [_ Hin]. rewrite Hin, Hl in E3.
  eapply (Steps.upd_ni_step e v i (when (at_src e (Interface i)) (has c))) in H; [|intros x y _; apply receive_credit_step].
  eapply net_trans; [exact E3|exact H|]. unfold when. destruct (at_src e (Interface i)); lia.
Qed.

(** *** Injection *)

Lemma take_mark_step id n b n' : NI.take_mark id n = Ok (b, n') -> net_step 0 n n'.
Proof.
  unfold NI.take_mark. intros H. destruct (_ && _); [|simplify_res; apply net_refl].
  inv_bind H. destruct (_ >? 0); [|simplify_res; apply net_refl]. inv_bind H. simplify_res.
  eapply Steps.upd_router_step; [exact E0|]. intros r r' _ Hr. simplify_res. by apply wstep_same.
Qed.

Lemma lane_insert k f b : flit.m_vc f = k -> Bounds.lane k b -> Bounds.lane k (flitBuffer.insert f b).
Proof.
  intros Hf Hb. unfold Bounds.lane. rewrite (insert_Permutation f b). by constructor.
Qed.

Lemma lane_getTop k b f b' :
  Bounds.lane k b -> flitBuffer.getTopFlit b = Ok (f, b') -> flit.m_vc f = k /\ Bounds.lane k b'.
Proof.
  intros Hb H%getTopFlit_Permutation. unfold Bounds.lane in *. rewrite H in Hb. by inversion Hb.
Qed.

(** A new flit waits in the queue of its virtual channel. *)
Lemma inject_flit_step i vc k route msg t n n' :
  NI.inject_flit i vc k route msg t n = Ok n' -> net_step 0 n n'.
Proof.
  unfold NI.inject_flit. intros H. inv_bind H. rename a into ni. inv_bind H. destruct a as [mk n1].
  pose proof (take_mark_nis _ _ _ _ E0) as [Hnis _]. apply take_mark_step in E0.
  cbn zeta in H. set (fl := flit.new _ _ _ _ _ _ _ _ _) in H. inv_bind H. rename a into n2.
  inv_bind H. rename a into d. inv_bind H. rename a into bs. inv_bind H. rename a into n3.
  assert (Net.m_nis n2 = Net.m_nis n1) as Hnis2 by (unfold NetStats.upd in E1; by run_inv E1).
  apply stats_upd_step in E1.
  eapply (Steps.upd_ni_step e v i 0) in E4.
  2:{ intros x y Hx Hy. simplify_res. unfold NI.ni_at in E. rewrite Hnis2, Hnis, E in Hx. simplify_res.
      split_and!; [unfold interface; cbn; lia|done|]. intros [B1 B2]. split; [exact B1|]. cbn.
      unfold vec_upd in E3. inv_bind E3. cbn [mbind Res_bind] in E3. eapply vec_all_set; [exact B2|exact E3|].
      apply lane_insert; [done|]. by eapply vec_all_at. }
  eapply net_trans0; [exact E0|]. eapply net_trans0; [exact E1|]. eapply net_trans0; [exact E4|].
  destruct (flit.is_tail _); [by apply stats_upd_step in H|simplify_res; apply net_refl].
Qed.

Lemma occupy_vc_step i vc cur x y : NI.occupy_vc vc cur x = Ok y -> interface_step i 0 x y.
Proof.
  unfold NI.occupy_vc. intros H. inv_bind H. apply (upd_out_vc_keep i) in H.
  eapply wstep_trans; [|exact H|symmetry; apply Z.add_0_l]. by apply interface_same.
Qed.

Lemma inject_dest_step i b vc k d m n n' : NI.inject_dest i b vc k d m n = Ok n' -> net_step 0 n n'.
Proof.
  unfold NI.inject_dest. intros H. inv_bind H. inv_bind H. inv_bind H. destruct a1 as [msg n1].
  inv_bind H. inv_bind H. inv_bind H. rename a3 into n2. apply inject_flit_step in E4.
  assert (net_step 0 n n1) as D1.
  { destruct m; [|simplify_res; apply net_refl]. unfold NI.split_message in E1.
    run_inv E1; run_all; by eapply upd_buffer_step. }
  eapply (Steps.upd_ni_step e v i 0) in H; [|intros x y _; apply occupy_vc_step].
  eapply net_trans0; [exact D1|]. by eapply net_trans0.
Qed.

Lemma calculateVC_step i net cur k x c y : NIState.calculateVC net cur k x = Ok (c, y) -> interface_step i 0 x y.
Proof.
  assert (forall f x y, NIState.set_busy k f x = Ok y -> interface_step i 0 x y) as Hbusy.
  { intros f a b H. unfold NIState.set_busy in H. inv_bind H. simplify_res. by apply interface_same. }
  unfold NIState.calculateVC. intros H. destruct (bool_decide _) in H.
  - revert H. generalize (Z.to_nat (NetworkInterface.m_vc_per_vnet x)) as j. intros j. revert x.
    induction j as [|j IH]; intros x H; cbn in H.
    + inv_bind H. simplify_res. by eapply Hbusy.
    + inv_bind H. inv_bind H. cbn zeta in H. inv_bind H.
      set (x' := NetworkInterface.set_vc_allocator _ _) in *.
      assert (interface_step i 0 x x') as S by (by apply interface_same).
      eapply wstep_trans; [exact S| |symmetry; apply Z.add_0_l].
      destruct a1; [inv_bind H; simplify_res; by eapply Hbusy|by apply IH].
  - destruct (bool_decide _) in H; [|done]. unfold NIState.calculateVC_fcfs in H. run_inv H; eauto.
Qed.

Lemma inject_dests_step i b k m ds n r n' : NI.inject_dests i b k m ds n = Ok (r, n') -> net_step 0 n n'.
Proof.
  revert n. induction ds as [|d ds IH]; intros n H; cbn in H; [simplify_res; apply net_refl|].
  inv_bind H. inv_bind H. inv_bind H. destruct a1 as [c ni']. inv_bind H. rename a1 into n1.
  eapply (Steps.upd_ni_step e v i 0) in E2.
  2:{ intros x y Hx Hy. simplify_res. unfold NI.ni_at in E0. rewrite E0 in Hx. simplify_res.
      by eapply calculateVC_step. }
  eapply net_trans0; [exact E2|]. destruct (c =? -1); [simplify_res; apply net_refl|]. inv_bind H.
  apply inject_dest_step in E3. apply IH in H. by eapply net_trans0.
Qed.

Lemma pick_up_step i k n n' : NI.pick_up i k n = Ok n' -> net_step 0 n n'.
Proof.
  unfold NI.pick_up, NI.flitisizeMessage. intros H. inv_bind H. inv_bind H.
  destruct a0 as [b|]; [|simplify_res; apply net_refl]. inv_bind H.
  destruct (_ && _); [|simplify_res; apply net_refl]. inv_bind H. destruct a1 as [d n1].
  assert (net_step 0 n n1) as S1.
  { inv_bind E2. inv_bind E2. by apply inject_dests_step in E2. }
  eapply net_trans0; [exact S1|]. destruct d; [|simplify_res; apply net_refl].
  inv_bind H. inv_bind H. destruct a2 as [[w mb] cb]. inv_bind H. simplify_res.
  apply upd_buffer_step in E5. eapply net_trans0; [exact E5|]. destruct cb; by apply net_same.
Qed.

(** *** Output *)

(** A flit takes a credit and goes to the queue of the link. *)
Lemma send_flit_step i cur vc x y :
  Bounds.interface x -> NIState.send_flit cur vc x = Ok y -> interface_step i 0 x y.
Proof.
  intros [_ HL] H. unfold NIState.send_flit in H. inv_bind H. rename a into x1.
  assert (NetworkInterface.m_ni_out_vcs x1 = NetworkInterface.m_ni_out_vcs x) as Hv1
    by (unfold NIState.upd_out_vc in E; by run_inv E).
  apply (upd_out_vc_step i _ (-1)) in E; [|apply decrement_credit_used]. inv_bind H. rename a into b.
  inv_bind H. destruct a as [f b']. inv_bind H. rename a into bs. cbn zeta in H.
  rewrite Hv1 in E0, E2. destruct (lane_getTop vc b f b') as [Hf Hb]; [by eapply vec_all_at|done|].
  set (z := NetworkInterface.set_outFlitQueue _ _) in H.
  assert (interface_step i (when (at_src e (Interface i)) (when (vc =? v) 1)) x1 z) as S.
  { split_and!; [|done|intros [B1 _]; split; [exact B1|by eapply vec_all_set]].
    unfold interface, sender, z. cbn -[flitBuffer.insert]. rewrite buf_insert_weight.
    change (has (flit.set_time _ f)) with (has f). unfold Balance.has. rewrite Hf.
    unfold when. destruct (at_src e _); lia. }
  assert (interface_step i 0 x z) as S'.
  { eapply wstep_trans; [exact E|exact S|]. unfold when. destruct (at_src e (Interface i)), (vc =? v); lia. }
  destruct (flit.is_tail _); [|by simplify_res]. inv_bind H. simplify_res.
  eapply wstep_trans; [exact S'| |symmetry; apply Z.add_0_l]. by apply interface_same.
Qed.

Lemma probe_vcs_step i net cur j c x y b :
  Bounds.interface x -> NIState.probe_vcs net cur j c x = Ok (y, b) -> interface_step i 0 x y.
Proof.
  intros HB. revert c. induction j as [|j IH]; intros c H; cbn in H; [simplify_res; apply wstep_refl|].
  inv_bind H. destruct a; [|by eapply IH]. inv_bind H. simplify_res. by eapply send_flit_step.
Qed.

Lemma schedule_link_step i n n' : Bounds.net n -> NI.schedule_link i n = Ok n' -> net_step 0 n n'.
Proof.
  intros [_ HB] H. unfold NI.schedule_link, NIState.scheduleOutputLink in H. inv_bind H. inv_bind H.
  destruct a0 as [ni b]. inv_bind H. simplify_res. apply vec_at_Ok in E as Hl. destruct Hl as [_ Hl].
  assert (Bounds.interface a) as Ha by (by eapply Forall_lookup_1).
  apply (probe_vcs_step i) in E0; [|exact Ha].
  eapply (Steps.upd_ni_step e v i 0) in E1.
  2:{ intros x y Hx Hy. simplify_res. unfold NI.ni_at in E. rewrite E in Hx. simplify_res.
      eapply wstep_trans; [|exact E0|symmetry; apply Z.add_0_l]. by apply interface_same. }
  eapply net_trans0; [exact E1|]. destruct b; by apply net_same.
Qed.

Lemma checkReschedule_step i n n' : NI.checkReschedule i n = Ok n' -> net_step 0 n n'.
Proof.
  unfold NI.checkReschedule. intros H. inv_bind H. inv_bind H. destruct a0; [simplify_res; by apply net_same|].
  inv_bind H. simplify_res. destruct a0; by apply net_same.
Qed.

Lemma NI_wakeup_step rnd warm rt i n n' :
  Edge.ok e n -> Bounds.net n -> NI.wakeup rnd warm rt i n = Ok n' -> net_step 0 n n'.
Proof.
  unfold NI.wakeup, NI.checkStallQueue. intros Hok HB H. inv_bind H. inv_bind H. rename a0 into n1.
  inv_bind H. rename a0 into n2. inv_bind H. rename a0 into n3. inv_bind H. destruct a0 as [m n4].
  inv_bind H. rename a0 into n5. inv_bind H. rename a0 into n6. inv_bind H. simplify_res.
  apply (Steps.foldM_step e v) in E0; [|intros k x y; apply pick_up_step].
  apply schedule_link_step in E1; [|destruct E0 as (_ & _ & HB'); by apply HB'].
  apply checkReschedule_step in E2. inv_bind E3. eapply (checkStall_step _ _ _ _ []) in E3; [|exact E7|done].
  assert (net_step 0 n n4) as S4.
  { eapply net_trans0; [exact E0|]. eapply net_trans0; [exact E1|]. by eapply net_trans0. }
  apply check_in_link_step in E4; [|by eapply Steps.net_ok].
  assert (net_step 0 n n5) as S5 by (by eapply net_trans0).
  apply check_credit_link_step in E5; [|by eapply Steps.net_ok].
  eapply net_trans0; [exact S5|]. eapply net_trans0; [exact E5|]. destruct (_ >? 0); by apply net_same.
Qed.

End Ends.
End Ends.
