(* ===== verification/Credits.v ===== *)
(** * Credit-based flow control

    In every reachable state the credits of a sender, the flits and credits
    under way on its link and the flits in the buffer it leads to add up to
    the size of the buffer. So no flit ever arrives at a full buffer, although
    no code on the receiving side checks it. *)

From S2P Require Import Prelude NetDest Types FlitBuffer Channels RouterCore MsgBuffer NetState Routing RoutingFacts Network Spin Example RouterStep NI Frames Sim Multicast StallFacts Conserve Account CreditBalance CreditSteps CreditInterfaces.

(** ** Where the slots of a buffer are *)
Module Slots.

(** What [w] says of element [i], 0 outside the vector. *)
Definition at_ {A} (w : A -> Z) (i : Z) (l : list A) : Z :=
  match vec_at l i with Ok x => w x | Err _ => 0 end.

Definition of_vc (v : Z) (f : flit.t) : Z := if flit.m_vc f =? v then 1 else 0.
Definition flits (v : Z) (b : flitBuffer.t) : Z := total (of_vc v) (flitBuffer.m_buffer b).

(** A member of the sender's record of virtual channel [v]. *)
Definition sender (w : OutVcState.t -> Z) (s : link_end) (v : Z) (n : Net.t) : Z :=
  match s with
  | Port id p =>
      at_ (fun r => at_ (fun o => at_ w v (OutputUnit.m_outvc_state o)) p (Router.m_output_unit r))
        id (Net.m_routers n)
  | Interface i => at_ (fun ni => at_ w v (NetworkInterface.m_out_vc_state ni)) i (Net.m_nis n)
  end.

Definition credits (e : edge) (v : Z) (n : Net.t) : Z :=
  sender OutVcState.m_credit_count (e_src e) v n.

Definition capacity (e : edge) (v : Z) (n : Net.t) : Z :=
  sender OutVcState.m_max_credit_count (e_src e) v n.

(** Flits that took a credit and have not arrived: in the sender's crossbar
    (which a router passes to any output port), its output queue and the
    link. *)
Definition to_port (p v : Z) (f : flit.t) : Z := if flit.m_outport f =? p then of_vc v f else 0.

Definition sent (e : edge) (v : Z) (n : Net.t) : Z :=
  match e_src e with
  | Port id p =>
      at_ (fun r =>
             total (fun b => total (to_port p v) (flitBuffer.m_buffer b))
               (CrossbarSwitch.m_switch_buffer (Router.m_switch r))
             + at_ (fun o => flits v (OutputUnit.m_out_buffer o)) p (Router.m_output_unit r))
        id (Net.m_routers n)
  | Interface i => at_ (fun ni => flits v (NetworkInterface.outFlitQueue ni)) i (Net.m_nis n)
  end + at_ (fun l => flits v (NetworkLink.linkBuffer l)) (e_link e) (Net.net_links n).

(** Flits in the buffer of the virtual channel; an interface delivers a flit
    at once or keeps it in the stall queue. *)
Definition buffered (e : edge) (v : Z) (n : Net.t) : Z :=
  match e_dst e with
  | Port id p =>
      at_ (fun r => at_ (fun u => at_ (fun x => zlen (flitBuffer.m_buffer (VirtualChannel.m_input_buffer x)))
                                      v (InputUnit.m_vcs u))
                      p (Router.m_input_unit r)) id (Net.m_routers n)
  | Interface i => at_ (fun ni => total (of_vc v) (NetworkInterface.m_stall_queue ni)) i (Net.m_nis n)
  end.

(** Credits on their way back. *)
Definition returning (e : edge) (v : Z) (n : Net.t) : Z :=
  match e_dst e with
  | Port id p =>
      at_ (fun r => at_ (fun u => flits v (InputUnit.creditQueue u)) p (Router.m_input_unit r))
        id (Net.m_routers n)
  | Interface i => at_ (fun ni => flits v (NetworkInterface.outCreditQueue ni)) i (Net.m_nis n)
  end + at_ (fun l => flits v (NetworkLink.linkBuffer l)) (e_credit e) (Net.credit_links n).

(** Every slot of the buffer is accounted for once. *)
Definition balanced (e : edge) (v : Z) (n : Net.t) : Prop :=
  credits e v n + sent e v n + buffered e v n + returning e v n = capacity e v n.

(** *** The balance of CreditBalance.v is about these numbers *)

Lemma itotal_at {A} (g : Z -> A -> Z) (w : A -> Z) k l :
  (forall i x, g i x = if i =? k then w x else 0) -> itotal g l = at_ w k l.
Proof.
  intros Hg. unfold at_, vec_at, itotal. destruct (decide (0 <= k)) as [Hk|Hk].
  - rewrite (total_from_single g w k) by done. rewrite Z.sub_0_r. by destruct (l !! Z.to_nat k).
  - apply total_from_below. intros i x Hi. rewrite Hg. destruct (Z.eqb_spec i k); [lia|done].
Qed.

Lemma at_plus {A} (w w' : A -> Z) k l : at_ (fun x => w x + w' x) k l = at_ w k l + at_ w' k l.
Proof. unfold at_. by destruct (vec_at l k). Qed.

Lemma at_minus {A} (w w' : A -> Z) k l : at_ (fun x => w x - w' x) k l = at_ w k l - at_ w' k l.
Proof. unfold at_. by destruct (vec_at l k). Qed.

Lemma at_ext {A} (w w' : A -> Z) k l : (forall x, w x = w' x) -> at_ w k l = at_ w' k l.
Proof. unfold at_. intros Hw. by destruct (vec_at l k). Qed.

Lemma at_nonneg {A} (w : A -> Z) k l : (forall x, x ∈ l -> 0 <= w x) -> 0 <= at_ w k l.
Proof.
  unfold at_. intros Hw. destruct (vec_at l k) eqn:E; [|done]. apply Hw.
  apply vec_at_Ok in E as [_ E]. by eapply list_elem_of_lookup_2.
Qed.

(** The part of a sum over ports that belongs to one end. *)
Lemma port_total {A} (w : A -> Z) own id l :
  itotal (fun p x => Balance.when (bool_decide (own = Port id p)) (w x)) l =
  match own with Port i0 p0 => if id =? i0 then at_ w p0 l else 0 | Interface _ => 0 end.
Proof.
  destruct own as [i0 p0|j].
  - destruct (Z.eqb_spec id i0) as [->|Hne].
    + apply itotal_at. intros p x. unfold Balance.when.
      destruct (Z.eqb_spec p p0) as [->|Hp]; [by rewrite bool_decide_true|rewrite bool_decide_false; congruence].
    + apply itotal_zero. intros p x. rewrite bool_decide_false by congruence. done.
  - apply itotal_zero. intros p x. by rewrite bool_decide_false.
Qed.

Lemma end_total {A} (W : Z -> A -> Z) own l :
  itotal (fun id r => match own with Port i0 p0 => if id =? i0 then W p0 r else 0 | Interface _ => 0 end) l =
  match own with Port i0 p0 => at_ (W p0) i0 l | Interface _ => 0 end.
Proof. destruct own as [i0 p0|j]; [by apply itotal_at|by apply itotal_zero]. Qed.

Lemma interface_total {A} (w : A -> Z) own l :
  itotal (fun i x => Balance.when (bool_decide (own = Interface i)) (w x)) l =
  match own with Interface i0 => at_ w i0 l | Port _ _ => 0 end.
Proof.
  destruct own as [j p|i0]; [apply itotal_zero; intros; by rewrite bool_decide_false|].
  apply itotal_at. intros i x. unfold Balance.when.
  destruct (Z.eqb_spec i i0) as [->|Hi]; [by rewrite bool_decide_true|rewrite bool_decide_false; congruence].
Qed.

Lemma crossing_total e v id (l : list flitBuffer.t) :
  total (Balance.crossbar e v id) l =
  match e_src e with
  | Port i0 p0 => if id =? i0 then total (fun b => total (to_port p0 v) (flitBuffer.m_buffer b)) l else 0
  | Interface _ => 0
  end.
Proof.
  unfold Balance.crossbar, Balance.crossing, Balance.at_src. destruct (e_src e) as [i0 p0|j].
  - destruct (Z.eqb_spec id i0) as [->|Hne].
    + apply total_ext. intros b. apply total_ext. intros f. unfold Balance.when, to_port, of_vc, Balance.has, Balance.when.
      destruct (Z.eqb_spec (flit.m_outport f) p0) as [->|Hp]; [by rewrite bool_decide_true|].
      rewrite bool_decide_false; [done|congruence].
    + apply total_zero. intros b. apply total_zero. intros f. by rewrite bool_decide_false by congruence.
  - apply total_zero. intros b. apply total_zero. intros f. by rewrite bool_decide_false.
Qed.

Lemma slots_at v (l : list VirtualChannel.t) :
  itotal (Balance.slot v) l = at_ (fun x => zlen (flitBuffer.m_buffer (VirtualChannel.m_input_buffer x))) v l.
Proof. by apply itotal_at. Qed.

Lemma used_at v (l : list OutVcState.t) :
  itotal (Balance.cred v) l = at_ OutVcState.m_credit_count v l - at_ OutVcState.m_max_credit_count v l.
Proof. rewrite <- at_minus. by apply itotal_at. Qed.

(** What the routers weigh. *)
Lemma routers_weight e v n :
  itotal (Balance.router e v) (Net.m_routers n) =
  match e_dst e with Port _ _ => buffered e v n | Interface _ => 0 end
  + match e_dst e with
    | Port id p => at_ (fun r => at_ (fun u => flits v (InputUnit.creditQueue u)) p (Router.m_input_unit r)) id (Net.m_routers n)
    | Interface _ => 0 end
  + match e_src e with
    | Port id p => credits e v n - capacity e v n
        + (sent e v n - at_ (fun l => flits v (NetworkLink.linkBuffer l)) (e_link e) (Net.net_links n))
    | Interface _ => 0 end.
Proof.
  unfold Balance.router. rewrite !itotal_plus.
  assert (itotal (fun id r => itotal (Balance.input e v id) (Router.m_input_unit r)) (Net.m_routers n) =
    match e_dst e with
    | Port i0 p0 => at_ (fun r => at_ (fun u =>
        at_ (fun x => zlen (flitBuffer.m_buffer (VirtualChannel.m_input_buffer x))) v (InputUnit.m_vcs u)
        + flits v (InputUnit.creditQueue u)) p0 (Router.m_input_unit r)) i0 (Net.m_routers n)
    | Interface _ => 0 end) as ->.
  { rewrite <- (end_total (fun p0 r => at_ _ p0 (Router.m_input_unit r))). apply itotal_ext. intros id r.
    etrans; [exact (port_total (fun u => itotal (Balance.slot v) (InputUnit.m_vcs u)
      + Balance.buf v (InputUnit.creditQueue u)) (e_dst e) id _)|]. destruct (e_dst e) as [i0 p0|]; [|done].
    destruct (id =? i0); [|done]. apply at_ext. intros u. by rewrite slots_at. }
  assert (itotal (fun id r => itotal (Balance.output e v id) (Router.m_output_unit r)) (Net.m_routers n) =
    match e_src e with
    | Port i0 p0 => at_ (fun r => at_ (fun o =>
        at_ OutVcState.m_credit_count v (OutputUnit.m_outvc_state o)
        - at_ OutVcState.m_max_credit_count v (OutputUnit.m_outvc_state o)
        + flits v (OutputUnit.m_out_buffer o)) p0 (Router.m_output_unit r)) i0 (Net.m_routers n)
    | Interface _ => 0 end) as ->.
  { rewrite <- (end_total (fun p0 r => at_ _ p0 (Router.m_output_unit r))). apply itotal_ext. intros id r.
    etrans; [exact (port_total (fun o => Balance.sender v (OutputUnit.m_outvc_state o)
      (OutputUnit.m_out_buffer o)) (e_src e) id _)|]. destruct (e_src e) as [i0 p0|]; [|done].
    destruct (id =? i0); [|done]. apply at_ext. intros o. unfold Balance.sender. by rewrite used_at. }
  assert (itotal (fun id r => total (Balance.crossbar e v id) (CrossbarSwitch.m_switch_buffer (Router.m_switch r))) (Net.m_routers n) =
    match e_src e with
    | Port i0 p0 => at_ (fun r => total (fun b => total (to_port p0 v) (flitBuffer.m_buffer b))
        (CrossbarSwitch.m_switch_buffer (Router.m_switch r))) i0 (Net.m_routers n)
    | Interface _ => 0 end) as ->.
  { rewrite <- (end_total (fun p0 r => total (fun b => total (to_port p0 v) _) _)). apply itotal_ext. intros id r.
    apply crossing_total. }
  unfold buffered, credits, capacity, sender, sent. destruct (e_dst e) as [i p|i], (e_src e) as [j q|j];
    rewrite ?(at_ext _ _ _ _ (fun r => at_plus _ _ _ _)), ?at_plus,
      ?(at_ext _ _ _ _ (fun r => at_minus _ _ _ _)), ?at_minus; lia.
Qed.

(** What the interfaces weigh. *)
Lemma interfaces_weight e v n :
  itotal (Balance.interface e v) (Net.m_nis n) =
  match e_dst e with
  | Interface i => buffered e v n + at_ (fun ni => flits v (NetworkInterface.outCreditQueue ni)) i (Net.m_nis n)
  | Port _ _ => 0 end
  + match e_src e with
    | Interface i => credits e v n - capacity e v n
        + (sent e v n - at_ (fun l => flits v (NetworkLink.linkBuffer l)) (e_link e) (Net.net_links n))
    | Port _ _ => 0 end.
Proof.
  unfold Balance.interface. rewrite itotal_plus.
  set (ws := fun ni => Balance.sender v (NetworkInterface.m_out_vc_state ni) (NetworkInterface.outFlitQueue ni)).
  set (wd := fun ni => total (Balance.has v) (NetworkInterface.m_stall_queue ni)
    + Balance.buf v (NetworkInterface.outCreditQueue ni)).
  etrans; [apply (f_equal2 Z.add); [exact (interface_total ws (e_src e) _)|exact (interface_total wd (e_dst e) _)]|].
  rewrite Z.add_comm. f_equal.
  - unfold buffered. destruct (e_dst e) as [|i]; [done|]. apply at_plus.
  - unfold credits, capacity, sender, sent. destruct (e_src e) as [|i]; [done|].
    rewrite (at_ext ws (fun ni => at_ OutVcState.m_credit_count v (NetworkInterface.m_out_vc_state ni)
      - at_ OutVcState.m_max_credit_count v (NetworkInterface.m_out_vc_state ni)
      + flits v (NetworkInterface.outFlitQueue ni))) by (intros x; unfold ws, Balance.sender; by rewrite used_at).
    rewrite at_plus, at_minus. lia.
Qed.

Lemma weight_slots e v n :
  Balance.weight e v n = credits e v n + sent e v n + buffered e v n + returning e v n - capacity e v n.
Proof.
  unfold Balance.weight. rewrite routers_weight, interfaces_weight.
  rewrite (itotal_at (Balance.net_link e v) (fun l => flits v (NetworkLink.linkBuffer l)) (e_link e)) by done.
  rewrite (itotal_at (Balance.credit_link e v) (fun l => flits v (NetworkLink.linkBuffer l)) (e_credit e)) by done.
  unfold returning. destruct (e_dst e), (e_src e); lia.
Qed.

Lemma balanced_weight e v n : balanced e v n <-> Balance.weight e v n = 0.
Proof. unfold balanced. rewrite weight_slots. lia. Qed.

Lemma of_vc_nonneg v f : 0 <= of_vc v f.
Proof. unfold of_vc. by destruct (_ =? _). Qed.

Lemma flits_nonneg v b : 0 <= flits v b.
Proof. apply total_nonneg, of_vc_nonneg. Qed.

Lemma sent_nonneg e v n : 0 <= sent e v n.
Proof.
  unfold sent. apply Z.add_nonneg_nonneg; [|apply at_nonneg; intros; apply flits_nonneg].
  destruct (e_src e); apply at_nonneg; intros; [|apply flits_nonneg].
  apply Z.add_nonneg_nonneg; [|apply at_nonneg; intros; apply flits_nonneg].
  apply total_nonneg. intros b. apply total_nonneg. intros f. unfold to_port.
  destruct (_ =? _); [apply of_vc_nonneg|done].
Qed.

Lemma returning_nonneg e v n : 0 <= returning e v n.
Proof.
  unfold returning. apply Z.add_nonneg_nonneg; [|apply at_nonneg; intros; apply flits_nonneg].
  destruct (e_dst e); apply at_nonneg; intros; [apply at_nonneg; intros|]; apply flits_nonneg.
Qed.

Lemma buffered_nonneg e v n : 0 <= buffered e v n.
Proof.
  unfold buffered. destruct (e_dst e); apply at_nonneg; intros.
  - apply at_nonneg. intros. apply at_nonneg. intros. unfold zlen. lia.
  - apply total_nonneg, of_vc_nonneg.
Qed.

Lemma credits_nonneg e v n : Bounds.net n -> 0 <= credits e v n.
Proof.
  intros [B1 B2]. unfold credits, sender. rewrite !Forall_forall in *. destruct (e_src e).
  - apply at_nonneg. intros r Hr. apply at_nonneg. intros o Ho. apply at_nonneg. intros s Hs.
    specialize (B1 r Hr). unfold Bounds.router in B1. rewrite Forall_forall in B1. specialize (B1 o Ho).
    unfold Bounds.output in B1. rewrite Forall_forall in B1. by apply B1.
  - apply at_nonneg. intros x Hx. apply at_nonneg. intros s Hs. destruct (B2 x Hx) as [B _].
    rewrite Forall_forall in B. by apply B.
Qed.

End Slots.

(** ** Theorems *)
Section Theorems.
Import Slots.
Variables (rnd warm : bool) (rt : Z -> Z).

Lemma sim_step_balance e v n n' :
  Edge.ok e n -> Bounds.net n -> Sim.step rnd warm rt n n' -> Balance.net_step e v 0 n n'.
Proof.
  intros Hok HB Hs. destruct Hs as [k c t n n' _ _ H].
  assert (Balance.net_step e v 0 n (Sim.at_event k t n)) as S0 by (by apply Steps.net_same).
  assert (Edge.ok e (Sim.at_event k t n)) as Hok' by exact Hok.
  eapply Steps.net_trans0; [exact S0|]. destruct c as [id|i|l|l| |s|s j]; cbn in H.
  - by eapply Steps.router_wakeup_step.
  - by eapply Ends.NI_wakeup_step.
  - by eapply Steps.network_link_wakeup_step.
  - by eapply Steps.credit_link_wakeup_step.
  - simplify_res. apply Steps.net_refl.
  - done.
  - done.
Qed.

Lemma run_balance e v n0 n :
  Edge.ok e n0 -> Bounds.net n0 -> Sim.open_run rnd warm rt n0 n -> Balance.net_step e v 0 n0 n.
Proof.
  intros Hok HB Hr. induction Hr as [|n n' Hr IH Hs|n cycle q bufs Hr IH]; [apply Steps.net_refl| |].
  - eapply Steps.net_trans0; [exact IH|]. eapply sim_step_balance; [|apply IH, HB|exact Hs].
    by eapply Steps.net_ok.
  - eapply Steps.net_trans0; [exact IH|]. by apply Steps.net_same.
Qed.

(** What follows from a balanced start. *)
Lemma balance_slots e v n0 n :
  Bounds.net n0 -> balanced e v n0 -> Balance.net_step e v 0 n0 n ->
  balanced e v n /\ 0 <= buffered e v n <= capacity e v n /\
  buffered e v n + sent e v n <= capacity e v n /\
  0 <= credits e v n <= capacity e v n - buffered e v n.
Proof.
  intros HB Hb (Hw & _ & HB').
  apply balanced_weight in Hb. rewrite Hb in Hw. apply balanced_weight in Hw. unfold balanced in *.
  pose proof (sent_nonneg e v n). pose proof (returning_nonneg e v n). pose proof (buffered_nonneg e v n).
  pose proof (credits_nonneg e v n (HB' HB)). lia.
Qed.

Lemma run_slots e v n0 n :
  Edge.ok e n0 -> Bounds.net n0 -> balanced e v n0 -> Sim.open_run rnd warm rt n0 n ->
  balanced e v n /\ 0 <= buffered e v n <= capacity e v n /\
  buffered e v n + sent e v n <= capacity e v n /\
  0 <= credits e v n <= capacity e v n - buffered e v n.
Proof. intros Hok HB Hb Hr. apply (balance_slots e v n0); [done..|]. by apply run_balance. Qed.

(** C4: credit conservation. Take any link of the network, from an output
    port or an interface to an input port or an interface, and any virtual
    channel. Whatever the network does, drains and
    spins included, and whatever the protocol does with its buffers, the credits
    of the sender, the flits that took a credit and are on their way, the
    flits in the buffer of the receiver and the credits on their way back add
    up to the size of the buffer. *)
Theorem credits_conserved e v n0 n :
  Edge.ok e n0 -> Bounds.net n0 -> balanced e v n0 ->
  Sim.open_run rnd warm rt n0 n -> balanced e v n.
Proof. intros Hok HB Hb Hr. by destruct (run_slots e v n0 n Hok HB Hb Hr). Qed.

(** C5: no buffer overflows. At every point of a run a virtual channel of an
    input port, and the stall queue of an interface, hold at most as many
    flits as the sender has credits for, and there is room for every flit
    that is on its way; a sender never has more credits than the buffer has
    free slots. *)
Theorem buffers_never_overflow e v n0 n :
  Edge.ok e n0 -> Bounds.net n0 -> balanced e v n0 -> Sim.open_run rnd warm rt n0 n ->
  0 <= buffered e v n <= capacity e v n /\
  buffered e v n + sent e v n <= capacity e v n /\
  0 <= credits e v n <= capacity e v n - buffered e v n.
Proof. intros Hok HB Hb Hr. by destruct (run_slots e v n0 n Hok HB Hb Hr). Qed.

End Theorems.

Module CreditExample.
Import Example AccountExample Slots.

(** The links of the mesh: of interface [i] in and out, and between the
    routers. *)
Definition edges : list edge :=
  flat_map (fun i => [mk_edge (Interface i) (2 * i) (Port i 0) (2 * i);
                      mk_edge (Port i 0) (2 * i + 1) (Interface i) (2 * i + 1)]) [0; 1; 2; 3] ++
  map (fun '(k, (s, o), (d, i)) => mk_edge (Port s o) k (Port d i) k)
    [(8, (0, 1), (1, 1)); (9, (1, 1), (0, 1)); (10, (2, 1), (3, 1)); (11, (3, 1), (2, 1));
     (12, (0, 2), (2, 2)); (13, (2, 2), (0, 2)); (14, (1, 2), (3, 2)); (15, (3, 2), (1, 2))].

Definition east : edge := mk_edge (Port 0 1) 8 (Port 1 1) 8.

Lemma edges_ok : Forall (fun e => Edge.ok e loaded) edges.
Proof. apply (proj1 (bool_decide_eq_true _)). vm_compute. reflexivity. Qed.

Definition bounds_check (n : Net.t) : bool :=
  forallb (fun r => forallb (fun o => forallb (fun s =>
    (0 <=? OutVcState.m_credit_count s) && (OutVcState.m_credit_count s <=? OutVcState.m_max_credit_count s))
    (OutputUnit.m_outvc_state o)) (Router.m_output_unit r)) (Net.m_routers n) &&
  forallb (fun ni => forallb (fun s =>
    (0 <=? OutVcState.m_credit_count s) && (OutVcState.m_credit_count s <=? OutVcState.m_max_credit_count s))
    (NetworkInterface.m_out_vc_state ni) &&
    forallb flitBuffer.isEmpty (NetworkInterface.m_ni_out_vcs ni)) (Net.m_nis n).

Lemma bounds_checked n : bounds_check n = true -> Bounds.net n.
Proof.
  assert (forall l, forallb (fun s => (0 <=? OutVcState.m_credit_count s)
    && (OutVcState.m_credit_count s <=? OutVcState.m_max_credit_count s)) l = true -> Forall Bounds.credit l) as Hc.
  { intros l H. rewrite forallb_forall in H. apply Forall_forall. intros s Hs. apply list_elem_of_In in Hs.
    specialize (H s Hs). zbool. unfold Bounds.credit. lia. }
  intros H. unfold bounds_check in H. apply andb_true_iff in H as [H1 H2]. split.
  - rewrite forallb_forall in H1. apply Forall_forall. intros r Hr. apply list_elem_of_In in Hr.
    specialize (H1 r Hr). rewrite forallb_forall in H1. apply Forall_forall. intros o Ho.
    apply list_elem_of_In in Ho. by apply Hc, H1.
  - rewrite forallb_forall in H2. apply Forall_forall. intros x Hx. apply list_elem_of_In in Hx.
    specialize (H2 x Hx). apply andb_true_iff in H2 as [H2 H3]. split; [by apply Hc|].
    apply vec_all_intro. intros k b Hb. rewrite forallb_forall in H3.
    assert (flitBuffer.isEmpty b = true) as He.
    { apply H3, list_elem_of_In. apply vec_at_Ok in Hb as [_ Hb]. by eapply list_elem_of_lookup_2. }
    unfold flitBuffer.isEmpty in He. unfold Bounds.lane. by destruct (flitBuffer.m_buffer b).
Qed.

(** The flit of a message from interface 0 to node 3 on its way to router 1,
    and its credit on the way back. *)
Lemma credits_conserved_witness :
  credits east 0 (after 3) = 0 /\ sent east 0 (after 3) = 1 /\
  sent east 0 (after 8) = 0 /\ returning east 0 (after 8) = 1 /\
  balanced east 0 (after 3) /\ balanced east 0 (after 8).
Proof.
  split; [vm_compute; reflexivity|]. split; [vm_compute; reflexivity|].
  split; [vm_compute; reflexivity|]. split; [vm_compute; reflexivity|].
  assert (Edge.ok east loaded) as Hok by (apply (proj1 (bool_decide_eq_true _)); vm_compute; reflexivity).
  assert (Bounds.net loaded) as HB by (apply bounds_checked; vm_compute; reflexivity).
  assert (balanced east 0 loaded) as H0 by (vm_compute; reflexivity).
  split; apply (credits_conserved false false (fun _ => 0) east 0 loaded _ Hok HB H0).
  - apply (Sim.open_reachable _ _ _ _ _ _ (Sim.open_start _ _ _ _)), (run_reachable false false (fun _ => 0) loaded 3 loaded); [apply Sim.reach_refl|]. vm_compute. reflexivity.
  - apply (Sim.open_reachable _ _ _ _ _ _ (Sim.open_start _ _ _ _)), (run_reachable false false (fun _ => 0) loaded 8 loaded); [apply Sim.reach_refl|]. vm_compute. reflexivity.
Defined.

(** The drain ends: router 0 spins the flit that waits at router 3 to
    router 1, over the link of the ring. *)
Definition south : edge := mk_edge (Port 3 2) 15 (Port 1 2) 15.

Definition spin_start : Net.t :=
  Net.set_evq (Consumer.mk [(CRouter 0, 1027)] ∅) SimExample.draining_busy.
Definition spin_end : Net.t := unwrap loaded (run false false (fun _ => 0) 1 spin_start).

Lemma buffers_never_overflow_witness :
  buffered south 0 spin_start = 0 /\ credits south 0 spin_start = 1 /\
  buffered south 0 spin_end = 1 /\ credits south 0 spin_end = 0 /\
  0 <= buffered south 0 spin_end <= capacity south 0 spin_end.
Proof.
  split; [vm_compute; reflexivity|]. split; [vm_compute; reflexivity|].
  split; [vm_compute; reflexivity|]. split; [vm_compute; reflexivity|].
  refine (proj1 (buffers_never_overflow false false (fun _ => 0) south 0 spin_start spin_end _ _ _ _)).
  - apply (proj1 (bool_decide_eq_true _)). vm_compute. reflexivity.
  - apply bounds_checked. vm_compute. reflexivity.
  - vm_compute. reflexivity.
  - apply (Sim.open_reachable _ _ _ _ _ _ (Sim.open_start _ _ _ _)), (run_reachable false false (fun _ => 0) spin_start 1 spin_start); [apply Sim.reach_refl|].
    assert (is_ok (run false false (fun _ => 0) 1 spin_start) = true) as H by (vm_compute; reflexivity).
    unfold spin_end. destruct (run false false (fun _ => 0) 1 spin_start); [reflexivity|discriminate H].
Defined.

End CreditExample.
