(* ===== verification/DrainReady.v ===== *)
(** * The drain of a run

    A run keeps the credits of every link in balance; once the flits and
    credits of the ring's links have arrived, which is what the cycles of the
    halt are for, the credits say what the virtual channels hold, and so the
    drain cannot fail. *)

From S2P Require Import Prelude NetDest Types FlitBuffer Channels RouterCore MsgBuffer NetState Routing RoutingFacts Network Spin Example MeshNet RouterStep NI Frames Sim SpinFacts SpinReady DrainSpins DrainEnd Multicast StallFacts Conserve Account CreditBalance CreditSteps CreditInterfaces Credits.

#[local] Abbreviation buf v := (flitBuffer.m_buffer (VirtualChannel.m_input_buffer v)).

(** The link that leads into the slot. *)
Definition feeds (e : edge) (s : slot) : Prop :=
  e_src e = Port (s_up s) (s_out s) /\ e_dst e = Port (s_id s) (s_in s).

(** Every flit and every credit of the link has arrived. *)
Definition quiet_link (e : edge) (v : Z) (n : Net.t) : Prop :=
  Slots.sent e v n = 0 /\ Slots.returning e v n = 0.

Lemma at_found {A} (w : A -> Z) i l x : vec_at l i = Ok x -> Slots.at_ w i l = w x.
Proof. unfold Slots.at_. by intros ->. Qed.

Section Feeds.
Context (vc : Z) (n : Net.t) (e : edge) (s : slot) (Hf : feeds e s).

Lemma feeds_credits c : cview vc (s_up s) (s_out s) n = Ok c ->
  Slots.credits e vc n = OutVcState.m_credit_count c /\
  Slots.capacity e vc n = OutVcState.m_max_credit_count c.
Proof.
  intros (r & o & Hr & Ho & Hc)%cview_parts. destruct Hf as [E _].
  unfold Slots.credits, Slots.capacity, Slots.sender. rewrite E.
  rewrite !(at_found _ _ _ _ Hr), !(at_found _ _ _ _ Ho), !(at_found _ _ _ _ Hc). done.
Qed.

Lemma feeds_buffered v : vcview vc (s_id s) (s_in s) n = Ok v -> Slots.buffered e vc n = zlen (buf v).
Proof.
  intros (r & u & Hr & Hu & Hv)%vcview_parts. destruct Hf as [_ E].
  unfold Slots.buffered. rewrite E. by rewrite (at_found _ _ _ _ Hr), (at_found _ _ _ _ Hu), (at_found _ _ _ _ Hv).
Qed.

(** On a quiet link in balance the credits tell what a channel with one
    buffer holds. *)
Lemma balanced_holds v c :
  vcview vc (s_id s) (s_in s) n = Ok v -> cview vc (s_up s) (s_out s) n = Ok c ->
  OutVcState.m_max_credit_count c = 1 -> (buf v = [] -> VirtualChannel.get_state v = IDLE_) ->
  Slots.balanced e vc n -> quiet_link e vc n -> 0 <= Slots.credits e vc n ->
  holds vc n s (content vc n s).
Proof.
  intros Hv Hc Hmax Hidle Hb [Hs Hr] Hpos. unfold Slots.balanced in Hb. rewrite Hs, Hr in Hb.
  destruct (feeds_credits c Hc) as [Ec Em]. rewrite (feeds_buffered v Hv), Ec, Em in Hb. rewrite Ec in Hpos.
  exists v, c. unfold content. rewrite Hv. split_and!; [done..|lia|].
  unfold zlen in Hb. destruct (buf v) as [|f [|]]; cbn in Hb |- *.
  - split_and!; [done|by apply Hidle|lia].
  - split; [done|lia].
  - lia.
Qed.

End Feeds.

(** [spin_ready] but for the credits: every channel of the ring has one
    buffer and is idle when it is empty. *)
Record parked (vc : Z) (n : Net.t) (l : list slot) : Prop := {
  pk_net : ring_net n l;
  pk_channels : forall s, s ∈ l -> exists v c,
    vcview vc (s_id s) (s_in s) n = Ok v /\ cview vc (s_up s) (s_out s) n = Ok c /\
    OutVcState.m_max_credit_count c = 1 /\ (buf v = [] -> VirtualChannel.get_state v = IDLE_);
  pk_movable : movable vc n l
}.

Lemma parked_ready vc n l : parked vc n l ->
  (forall s, s ∈ l -> exists e, feeds e s /\ Slots.balanced e vc n /\ quiet_link e vc n /\
     0 <= Slots.credits e vc n) ->
  spin_ready vc n l.
Proof.
  intros [P1 P2 P3] He. split; [done| |done].
  intros s Hs. destruct (P2 s Hs) as (v & c & Hv & Hc & Hmax & Hidle).
  destruct (He s Hs) as (e & Hf & Hb & Hq & Hpos). by eapply balanced_holds.
Qed.

(** In a run an event wakes router [id], whose ports take what has arrived;
    [n] is the state in which its [drain_step] is called. *)
Definition at_drain (rnd warm : bool) (rt : Z -> Z) (n0 : Net.t) (id : Z) (n : Net.t) : Prop :=
  exists m k t n1, Sim.open_run rnd warm rt n0 m /\
    Consumer.events (Net.evq m) !! k = Some (CRouter id, t) /\
    Forall (fun e => t <= e.2) (Consumer.events (Net.evq m)) /\
    GarnetNetwork.input_units_wakeup id (Sim.at_event k t m) = Ok n1 /\
    GarnetNetwork.output_units_wakeup id n1 = Ok n.

Lemma at_drain_balance rnd warm rt n0 id n e v : Edge.ok e n0 -> Bounds.net n0 ->
  at_drain rnd warm rt n0 id n -> Balance.net_step e v 0 n0 n.
Proof.
  intros Hok HB (m & k & t & n1 & Hrun & _ & _ & Hin & Hout).
  pose proof (run_balance rnd warm rt e v n0 m Hok HB Hrun) as S0.
  assert (Edge.ok e m) as Hm by (by eapply Steps.net_ok).
  assert (Balance.net_step e v 0 m (Sim.at_event k t m)) as S1 by (by apply Steps.net_same).
  assert (Edge.ok e (Sim.at_event k t m)) as Hm' by exact Hm.
  eapply Steps.input_units_wakeup_step in Hin; [|exact Hm'].
  eapply Steps.output_units_wakeup_step in Hout; [|by eapply Steps.net_ok].
  eapply Steps.net_trans0; [exact S0|]. eapply Steps.net_trans0; [exact S1|]. by eapply Steps.net_trans0.
Qed.


(** ** A test for the hypotheses *)

Definition channelb (vc : Z) (n : Net.t) (s : slot) : bool :=
  match vcview vc (s_id s) (s_in s) n, cview vc (s_up s) (s_out s) n with
  | Ok v, Ok c => (OutVcState.m_max_credit_count c =? 1) &&
      (negb (bool_decide (length (buf v) = 0%nat)) || bool_decide (VirtualChannel.get_state v = IDLE_))
  | _, _ => false
  end.

Definition parkedb (vc : Z) (n : Net.t) (l : list slot) : bool :=
  ring_netb n l && forallb (channelb vc n) l && movableb vc n l.

Lemma parkedb_sound vc n l : parkedb vc n l = true -> parked vc n l.
Proof.
  unfold parkedb. rewrite !andb_true_iff, forallb_forall. intros [[H1 H2] H3].
  split; [by apply ring_netb_sound| |by apply movableb_sound].
  intros s Hs%list_elem_of_In. specialize (H2 s Hs). unfold channelb in H2.
  destruct (vcview vc _ _ n) as [v|]; [|done]. destruct (cview vc _ _ n) as [c|]; [|done].
  apply andb_true_iff in H2 as [Hm Hi]. zbool. exists v, c. split_and!; [done..|].
  intros Hb. rewrite Hb in Hi. by apply bool_decide_eq_true in Hi.
Qed.

Definition quietb (e : edge) (v : Z) (n : Net.t) : bool :=
  (Slots.sent e v n =? 0) && (Slots.returning e v n =? 0).

#[export] Instance feeds_dec e s : Decision (feeds e s).
Proof. unfold feeds. apply _. Defined.

Definition has_channelb (vc : Z) (n : Net.t) : bool :=
  all_at (fun id r => all_at (fun p u => (0 <=? vc) && (vc <? zlen (InputUnit.m_vcs u)))
    (Router.m_input_unit r)) (Net.m_routers n).

Lemma has_channelb_sound vc n : has_channelb vc n = true -> has_channel vc n.
Proof.
  intros H id p r u Hr Hu. apply (all_at_sound _ _ _ _ H) in Hr.
  apply (all_at_sound _ _ _ _ Hr) in Hu. zbool. lia.
Qed.

(** The conditions on the slots of channel [vc]. *)
Definition slots_quietb (vc : Z) (n0 n : Net.t) (l : list slot) (link : slot -> edge) : bool :=
  forallb (fun s => (Slots.credits (link s) vc n0 + Slots.sent (link s) vc n0 + Slots.buffered (link s) vc n0
                     + Slots.returning (link s) vc n0 =? Slots.capacity (link s) vc n0) &&
                    quietb (link s) vc n) l.

Lemma slots_quietb_sound vc n0 n l link s : slots_quietb vc n0 n l link = true -> s ∈ l ->
  Slots.balanced (link s) vc n0 /\ quiet_link (link s) vc n.
Proof.
  unfold slots_quietb. rewrite forallb_forall. intros H Hs%list_elem_of_In. specialize (H s Hs).
  unfold quietb in H. zbool. by split_and!.
Qed.

Module RunExample.
Import Example AccountExample CreditExample ReadyExample.

(** The link of [edges] that leads into the slot. *)
Definition link_to (s : slot) : edge :=
  default east (head (filter (fun e => e_dst e = Port (s_id s) (s_in s)) edges)).

(** Two packets wait in the network, and router 0 is to wake in cycle 1024,
    the first multiple of the threshold. *)
Definition waiting : Net.t := Net.schedule (CRouter 0) 1024 SpinExample.loaded.

(** The run up to the wake-up that spins: the drain starts, and router 0 is
    woken in each cycle of the halt. *)
Definition halted : Net.t := unwrap waiting (run false false (fun _ => 0) 3 waiting).
Definition woken : Net.t :=
  unwrap halted (n ← GarnetNetwork.input_units_wakeup 0 (Sim.at_event 0 1027 halted);
                 GarnetNetwork.output_units_wakeup 0 n).

Lemma halted_run : Sim.open_run false false (fun _ => 0) waiting halted.
Proof.
  apply (Sim.open_reachable _ _ _ _ _ _ (Sim.open_start _ _ _ _)),
    (run_reachable false false (fun _ => 0) waiting 3 waiting); [apply Sim.reach_refl|].
  vm_compute. reflexivity.
Qed.

Lemma woken_at_drain : at_drain false false (fun _ => 0) waiting 0 woken.
Proof.
  exists halted, 0%nat, 1027,
    (unwrap halted (GarnetNetwork.input_units_wakeup 0 (Sim.at_event 0 1027 halted))).
  split; [exact halted_run|]. split; [vm_compute; reflexivity|].
  split; [apply (proj1 (bool_decide_eq_true _)); vm_compute; reflexivity|].
  split; vm_compute; reflexivity.
Qed.

Definition spinner : Router.t := unwrap drainer (Net.router 0 woken).


End RunExample.
