(* ===== verification/Wiring.v ===== *)
(** * The wiring of a network

    Hooking up a link joins an output port to an input port: the flit link
    gets the queue of the sender as its source and the credit link that of the
    receiver, and each port keeps the link it reads from. The senders and the
    receivers of a network are two sides of the same shape; a side agrees with
    a list of plugs when every port, interface and source of a link belongs to
    one of them. When both sides agree with the two ends of a list of cables,
    every link joined in the network is well wired in the sense of
    CreditSteps.v. The operations that build links keep this, always succeed
    on the links of a well-formed configuration, and leave every buffer empty
    and every credit at the sender. *)

From S2P Require Import Prelude NetDest Types FlitBuffer Channels RouterCore MsgBuffer NetState Routing Network CreditBalance CreditSteps Credits.

(** ** One side *)
Module Side.

(** Of every router the links its ports read from and the ports of its
    directions; of every interface the link it reads from; the queue every
    link of the other kind reads from. *)
Record t := mk {
  ports : list (list Z);
  dirs : list (gmap string Z);
  nis : list Z;
  sources : list (option queue_ref)
}.

(** Input ports read from flit links, and credit links from their queues. *)
Definition receivers (n : Net.t) : t :=
  mk (map (fun r => map InputUnit.m_in_link (Router.m_input_unit r)) (Net.m_routers n))
    (map (fun r => RoutingUnit.m_inports_dirn2idx (Router.m_routing_unit r)) (Net.m_routers n))
    (map NetworkInterface.inNetLink (Net.m_nis n))
    (map NetworkLink.link_srcQueue (Net.credit_links n)).

Definition senders (n : Net.t) : t :=
  mk (map (fun r => map OutputUnit.m_credit_link (Router.m_output_unit r)) (Net.m_routers n))
    (map (fun r => RoutingUnit.m_outports_dirn2idx (Router.m_routing_unit r)) (Net.m_routers n))
    (map NetworkInterface.inCreditLink (Net.m_nis n))
    (map NetworkLink.link_srcQueue (Net.net_links n)).

(** A new port of router [id], whose links and directions were [ls] and
    [ds], reads from link [l]; its queue [q] is the source of link [k]. *)
Definition plug_port (id : Z) (d : PortDirection) (l k : Z) (q : queue_ref) (ls : list Z)
    (ds : gmap string Z) (s : t) : t :=
  mk (<[Z.to_nat id := ls ++ [l]]> (ports s)) (<[Z.to_nat id := <[d := zlen ls]> ds]> (dirs s))
    (nis s) (<[Z.to_nat k := Some q]> (sources s)).

Definition plug_ni (i l k : Z) (q : queue_ref) (s : t) : t :=
  mk (ports s) (dirs s) (<[Z.to_nat i := l]> (nis s)) (<[Z.to_nat k := Some q]> (sources s)).

(** A plug: the end, the link the end reads from, the link that reads from
    the end, and the direction of the port. *)
Record plug := mk_plug {
  p_end : link_end;
  p_link : Z;
  p_feeds : Z;
  p_dirn : PortDirection
}.

(** The end [x] of the side reads from link [l]. *)
Definition reads (x : link_end) (l : Z) (s : t) : Prop :=
  match x with
  | Port id p => exists ls, vec_at (ports s) id = Ok ls /\ vec_at ls p = Ok l
  | Interface i => vec_at (nis s) i = Ok l
  end.

(** No other plug is in the same router and direction. *)
Definition lone (h : plug) (hs : list plug) : Prop :=
  forall h' id p p', h' ∈ hs -> p_end h = Port id p -> p_end h' = Port id p' ->
    p_dirn h' = p_dirn h -> h' = h.

Section Agrees.
Variable ending : queue_ref -> option link_end.

(** Interfaces have no link, number -1, until they are plugged. *)
Record agrees (hs : list plug) (s : t) : Prop := {
  ag_ports : forall id ls p l, vec_at (ports s) id = Ok ls -> vec_at ls p = Ok l ->
    exists h, h ∈ hs /\ p_end h = Port id p /\ p_link h = l;
  ag_nis : forall i l, vec_at (nis s) i = Ok l ->
    l = -1 \/ exists h, h ∈ hs /\ p_end h = Interface i /\ p_link h = l;
  ag_sources : forall k q, vec_at (sources s) k = Ok (Some q) ->
    exists h, h ∈ hs /\ ending q = Some (p_end h) /\ p_feeds h = k;
  ag_reads : forall h, h ∈ hs -> reads (p_end h) (p_link h) s /\ 0 <= p_link h;
  ag_feeds : forall h, h ∈ hs -> exists q, vec_at (sources s) (p_feeds h) = Ok (Some q) /\ ending q = Some (p_end h);
  ag_dirs : forall h id p, h ∈ hs -> p_end h = Port id p -> lone h hs ->
    exists ds, vec_at (dirs s) id = Ok ds /\ ds !! p_dirn h = Some p;
  ag_ends : NoDup (map p_end hs);
  ag_links : NoDup (map p_link hs);
  ag_fed : NoDup (map p_feeds hs)
}.

Lemma lone_app h h0 hs : lone h (hs ++ [h0]) -> lone h hs.
Proof. intros Hl h' id p p' Hh'. apply Hl. set_solver. Qed.

(** The old plugs' part of [agrees] does not see the source of a new link. *)
Lemma feeds_keep hs s q0 k0 h0 :
  agrees hs s -> k0 ∉ map p_feeds hs -> 0 <= k0 < zlen (sources s) ->
  ending q0 = Some (p_end h0) -> p_feeds h0 = k0 ->
  let ss := <[Z.to_nat k0 := Some q0]> (sources s) in
  (forall k q, vec_at ss k = Ok (Some q) ->
     exists h, h ∈ hs ++ [h0] /\ ending q = Some (p_end h) /\ p_feeds h = k) /\
  (forall h, h ∈ hs ++ [h0] -> exists q, vec_at ss (p_feeds h) = Ok (Some q) /\ ending q = Some (p_end h)).
Proof.
  intros Hag Hk Hin Hq Hf ss. split.
  - intros k q. unfold ss. rewrite vec_at_insert by done. destruct (Z.eqb_spec k k0) as [->|Hne].
    + intros [= <-]. exists h0. set_solver.
    + intros (h & Hh & ?)%(ag_sources _ _ Hag). exists h. set_solver.
  - intros h [Hh|Hh%list_elem_of_singleton]%elem_of_app.
    + destruct (ag_feeds _ _ Hag h Hh) as (q & Hs & He). exists q. split; [|done]. unfold ss.
      rewrite vec_at_insert by done. destruct (Z.eqb_spec (p_feeds h) k0) as [Heq|]; [|done].
      exfalso. apply Hk. rewrite <- Heq. by apply list_elem_of_fmap_2.
    + subst h. exists q0. split; [|done]. unfold ss. rewrite Hf, vec_at_insert, Z.eqb_refl by done. done.
Qed.

Lemma agrees_plug_port hs s id d l k q ls ds :
  agrees hs s -> vec_at (ports s) id = Ok ls -> vec_at (dirs s) id = Ok ds ->
  0 <= k < zlen (sources s) -> 0 <= l -> l ∉ map p_link hs -> k ∉ map p_feeds hs ->
  ending q = Some (Port id (zlen ls)) ->
  agrees (hs ++ [mk_plug (Port id (zlen ls)) l k d]) (plug_port id d l k q ls ds s).
Proof.
  intros Hag Hls Hds Hk Hl Hfresh Hfeed Hq. set (h0 := mk_plug _ _ _ _).
  pose proof (vec_at_inside _ _ _ Hls) as Hid. pose proof (vec_at_inside _ _ _ Hds) as Hid'.
  destruct (feeds_keep hs s q k h0 Hag Hfeed Hk Hq eq_refl) as [Hsrc Hfed].
  assert (forall h id' p, h ∈ hs -> p_end h = Port id' p -> id' = id -> p <> zlen ls) as Hnew.
  { intros h id' p Hh He ->. destruct (ag_reads _ _ Hag h Hh) as [Hr _]. rewrite He in Hr.
    destruct Hr as (ls' & Hls' & Hp). rewrite Hls in Hls'. simplify_res. apply vec_at_inside in Hp. lia. }
  split; cbn [ports dirs nis sources plug_port]; try done.
  - intros id' ls' p l'. rewrite vec_at_insert by done. destruct (Z.eqb_spec id' id) as [->|Hne].
    + intros [= <-]. rewrite vec_at_snoc. destruct (Z.eqb_spec p (zlen ls)) as [->|Hp].
      * intros [= <-]. exists h0. set_solver.
      * intros (h & Hh & ?)%(ag_ports _ _ Hag _ _ _ _ Hls). exists h. set_solver.
    + intros Hls' (h & Hh & ?)%(ag_ports _ _ Hag _ _ _ _ Hls'). exists h. set_solver.
  - intros i l' [->|(h & Hh & ?)]%(ag_nis _ _ Hag); [by left|right]. exists h. set_solver.
  - intros h [Hh|Hh%list_elem_of_singleton]%elem_of_app; [|subst h].
    + destruct (ag_reads _ _ Hag h Hh) as [Hr Hpos]. split; [|done]. destruct (p_end h) as [id' p|i]; [|done].
      destruct Hr as (ls' & Hls' & Hp). cbn. rewrite vec_at_insert by done.
      destruct (Z.eqb_spec id' id) as [->|Hne]; [|by exists ls']. rewrite Hls in Hls'. simplify_res.
      eexists. split; [done|]. rewrite vec_at_snoc. destruct (Z.eqb_spec p (zlen ls')); [|done].
      apply vec_at_inside in Hp. lia.
    + split; [|done]. exists (ls ++ [l]). cbn. rewrite vec_at_insert, Z.eqb_refl by done.
      split; [done|]. by rewrite vec_at_snoc, Z.eqb_refl.
  - intros h id' p Hh He Hlone. rewrite vec_at_insert by done.
    apply elem_of_app in Hh as [Hh|Hh%list_elem_of_singleton].
    + destruct (ag_dirs _ _ Hag h id' p Hh He (lone_app _ _ _ Hlone)) as (ds' & Hds' & Hd).
      destruct (Z.eqb_spec id' id) as [->|Hne]; [|by exists ds']. rewrite Hds in Hds'. simplify_res.
      eexists. split; [done|]. rewrite lookup_insert_ne; [done|]. intros Heq.
      assert (h0 = h) as Hh0 by (eapply Hlone; [set_solver|exact He|done|by rewrite <- Heq]).
      rewrite <- Hh0 in He, Hh. injection He as <-. by destruct (Hnew h0 id (zlen ls) Hh).
    + subst h. injection He as <- <-. rewrite Z.eqb_refl. eexists. split; [done|]. apply lookup_insert_eq.
  - apply NoDup_map_snoc; [apply Hag|]. intros (h & He & Hh)%list_elem_of_fmap_1.
    by destruct (Hnew h id (zlen ls) Hh).
  - apply NoDup_map_snoc; [apply Hag|done].
  - apply NoDup_map_snoc; [apply Hag|done].
Qed.

Lemma agrees_plug_ni hs s i l k q d :
  agrees hs s -> 0 <= i < zlen (nis s) -> Interface i ∉ map p_end hs ->
  0 <= k < zlen (sources s) -> 0 <= l -> l ∉ map p_link hs -> k ∉ map p_feeds hs ->
  ending q = Some (Interface i) ->
  agrees (hs ++ [mk_plug (Interface i) l k d]) (plug_ni i l k q s).
Proof.
  intros Hag Hi Hend Hk Hl Hfresh Hfeed Hq. set (h0 := mk_plug _ _ _ _).
  destruct (feeds_keep hs s q k h0 Hag Hfeed Hk Hq eq_refl) as [Hsrc Hfed].
  split; cbn [ports dirs nis sources plug_ni]; try done.
  - intros id ls p l' Hls (h & Hh & ?)%(ag_ports _ _ Hag _ _ _ _ Hls). exists h. set_solver.
  - intros i' l'. rewrite vec_at_insert by done. destruct (Z.eqb_spec i' i) as [->|Hne].
    + intros [= <-]. right. exists h0. set_solver.
    + intros [->|(h & Hh & ?)]%(ag_nis _ _ Hag); [by left|right]. exists h. set_solver.
  - intros h [Hh|Hh%list_elem_of_singleton]%elem_of_app; [|subst h].
    + destruct (ag_reads _ _ Hag h Hh) as [Hr Hpos]. split; [|done].
      destruct (p_end h) as [id' p|i'] eqn:He; [done|]. cbn. rewrite vec_at_insert by done.
      destruct (Z.eqb_spec i' i) as [->|]; [|done]. exfalso. apply Hend. rewrite <- He. by apply list_elem_of_fmap_2.
    + split; [|done]. cbn. by rewrite vec_at_insert, Z.eqb_refl.
  - intros h id p [Hh|Hh%list_elem_of_singleton]%elem_of_app He Hlone; [|by subst h].
    by apply (ag_dirs _ _ Hag h id p Hh He (lone_app _ _ _ Hlone)).
  - apply NoDup_map_snoc; [apply Hag|done].
  - apply NoDup_map_snoc; [apply Hag|done].
  - apply NoDup_map_snoc; [apply Hag|done].
Qed.

(** *** What a side that agrees says of one plug *)

Lemma reads_unique x l l' s : reads x l s -> reads x l' s -> l = l'.
Proof.
  destruct x as [id p|i]; cbn; [|congruence]. intros (ls & H1 & H2) (ls' & H1' & H2').
  rewrite H1 in H1'. simplify_res. rewrite H2 in H2'. by simplify_res.
Qed.

Lemma reads_plug hs s x l :
  agrees hs s -> reads x l s -> l = -1 \/ exists h, h ∈ hs /\ p_end h = x /\ p_link h = l.
Proof.
  intros Hag. destruct x as [id p|i]; [|apply (ag_nis _ _ Hag)].
  intros (ls & Hls & Hp). right. by eapply (ag_ports _ _ Hag).
Qed.

Lemma reads_iff hs s h x l : agrees hs s -> h ∈ hs -> reads x l s -> (l = p_link h <-> p_end h = x).
Proof.
  intros Hag Hh Hr. destruct (ag_reads _ _ Hag h Hh) as [Hr' Hpos]. split.
  - intros ->. destruct (reads_plug hs s _ _ Hag Hr) as [|(h' & Hh' & <- & Hl)]; [lia|].
    by rewrite (NoDup_map_inj p_link hs h' h (ag_links _ _ Hag) Hh' Hh Hl).
  - intros <-. by eapply reads_unique.
Qed.

Lemma sources_iff hs s h k q :
  agrees hs s -> h ∈ hs -> vec_at (sources s) k = Ok (Some q) ->
  exists x, ending q = Some x /\ (k = p_feeds h <-> p_end h = x).
Proof.
  intros Hag Hh Hq. destruct (ag_sources _ _ Hag k q Hq) as (h' & Hh' & He & <-).
  exists (p_end h'). split; [done|]. split; intros Heq.
  - by rewrite (NoDup_map_inj p_feeds hs h' h (ag_fed _ _ Hag) Hh' Hh Heq).
  - by rewrite (NoDup_map_inj p_end hs h h' (ag_ends _ _ Hag) Hh Hh' Heq).
Qed.

End Agrees.
End Side.

(** ** Both sides *)

(** The link [e] as one reads it off the network: the receiver reads from the
    flit link, which has the queue of the sender as its source, and the sender
    reads from the credit link, which has the queue of the receiver. *)
Definition fed_by (ending : queue_ref -> option link_end) (k : Z) (x : link_end) (s : Side.t) : Prop :=
  exists q, vec_at (Side.sources s) k = Ok (Some q) /\ ending q = Some x.

Definition joined (e : edge) (n : Net.t) : Prop :=
  Side.reads (e_dst e) (e_link e) (Side.receivers n) /\
  Side.reads (e_src e) (e_credit e) (Side.senders n) /\
  fed_by Edge.flit_end (e_link e) (e_src e) (Side.senders n) /\
  fed_by Edge.credit_end (e_credit e) (e_dst e) (Side.receivers n).

(** A cable is a link with the directions of its two ports. *)
Record cable := mk_cable {
  c_edge : edge;
  c_out : PortDirection;
  c_in : PortDirection
}.

Definition src_plug (c : cable) : Side.plug :=
  Side.mk_plug (e_src (c_edge c)) (e_credit (c_edge c)) (e_link (c_edge c)) (c_out c).
Definition dst_plug (c : cable) : Side.plug :=
  Side.mk_plug (e_dst (c_edge c)) (e_link (c_edge c)) (e_credit (c_edge c)) (c_in c).

Record wired (cs : list cable) (n : Net.t) : Prop := {
  wi_senders : Side.agrees Edge.flit_end (map src_plug cs) (Side.senders n);
  wi_receivers : Side.agrees Edge.credit_end (map dst_plug cs) (Side.receivers n)
}.

Lemma map_elem {A B} (f : A -> B) l x : x ∈ l -> f x ∈ map f l.
Proof. apply list_elem_of_fmap_2. Qed.

Section Wired.
Context (cs : list cable) (n : Net.t) (Hw : wired cs n).

Lemma cable_joined c : c ∈ cs -> joined (c_edge c) n.
Proof.
  intros Hc. split_and!.
  - apply (Side.ag_reads _ _ _ (wi_receivers _ _ Hw) (dst_plug c)). by apply map_elem.
  - apply (Side.ag_reads _ _ _ (wi_senders _ _ Hw) (src_plug c)). by apply map_elem.
  - apply (Side.ag_feeds _ _ _ (wi_senders _ _ Hw) (src_plug c)). by apply map_elem.
  - apply (Side.ag_feeds _ _ _ (wi_receivers _ _ Hw) (dst_plug c)). by apply map_elem.
Qed.

Lemma cable_links : NoDup (map (fun c => e_link (c_edge c)) cs).
Proof. pose proof (Side.ag_links _ _ _ (wi_receivers _ _ Hw)) as H. by rewrite map_map in H. Qed.

Lemma joined_cable e : joined e n -> exists c, c ∈ cs /\ c_edge c = e.
Proof.
  intros (Hd & Hs & (q & Hq & Hqe) & (q' & Hq' & Hqe')). pose proof (vec_at_inside _ _ _ Hq) as Hpos.
  pose proof (vec_at_inside _ _ _ Hq') as Hpos'.
  destruct (Side.ag_sources _ _ _ (wi_senders _ _ Hw) _ _ Hq) as (h & (c & -> & Hc)%list_elem_of_fmap_1 & He & Hl).
  rewrite Hqe in He. injection He as He. exists c. split; [done|]. cbn in He, Hl.
  assert (e_dst (c_edge c) = e_dst e) as Hdst.
  { by apply (Side.reads_iff _ _ _ (dst_plug c) (e_dst e) (e_link e) (wi_receivers _ _ Hw)); [by apply map_elem| |]. }
  destruct (Side.sources_iff _ _ _ (dst_plug c) (e_credit e) q' (wi_receivers _ _ Hw)) as (x & Hx & Hiff);
    [by apply map_elem|done|]. rewrite Hqe' in Hx. injection Hx as <-.
  assert (e_credit e = e_credit (c_edge c)) as Hcr by by apply Hiff.
  destruct e, (c_edge c). cbn in *. congruence.
Qed.

(** Every link of the network is well wired, if the nodes of the ring are. *)
Lemma cable_ok c :
  c ∈ cs -> Forall (Edge.node_ok (c_edge c) (Wires.net n)) (Wires.w_ring (Wires.net n)) -> Edge.ok (c_edge c) n.
Proof.
  intros Hc Hring. pose proof (map_elem src_plug cs c Hc) as Hsc. pose proof (map_elem dst_plug cs c Hc) as Hdc.
  pose proof (wi_receivers _ _ Hw) as HR. pose proof (wi_senders _ _ Hw) as HS.
  unfold Edge.ok, Edge.ok_wires, Wires.net. cbn [Wires.w_routers Wires.w_interfaces Wires.w_flit_sources Wires.w_credit_sources].
  split_and!; [| | | |exact Hring]; apply vec_all_intro.
  - intros id w (r & Hr & ->)%vec_at_map_inv. split; apply vec_all_intro; intros p l Hp.
    + apply (Side.reads_iff _ _ _ (dst_plug c) (Port id p) l HR Hdc). exists (map InputUnit.m_in_link (Router.m_input_unit r)).
      split; [by apply (vec_at_map (fun r => map InputUnit.m_in_link (Router.m_input_unit r)))|done].
    + apply (Side.reads_iff _ _ _ (src_plug c) (Port id p) l HS Hsc). exists (map OutputUnit.m_credit_link (Router.m_output_unit r)).
      split; [by apply (vec_at_map (fun r => map OutputUnit.m_credit_link (Router.m_output_unit r)))|done].
  - intros i w (ni & Hni & ->)%vec_at_map_inv. split.
    + apply (Side.reads_iff _ _ _ (dst_plug c) (Interface i) _ HR Hdc). by apply (vec_at_map NetworkInterface.inNetLink).
    + apply (Side.reads_iff _ _ _ (src_plug c) (Interface i) _ HS Hsc). by apply (vec_at_map NetworkInterface.inCreditLink).
  - intros l [q|] Hq; [|done]. destruct (Side.sources_iff _ _ _ (src_plug c) l q HS Hsc Hq) as (x & Hx & Hiff).
    cbn. by rewrite Hx.
  - intros l [q|] Hq; [|done]. destruct (Side.sources_iff _ _ _ (dst_plug c) l q HR Hdc Hq) as (x & Hx & Hiff).
    cbn. by rewrite Hx.
Qed.

End Wired.
