(* ===== verification/WiringSteps.v ===== *)
(** * The operations that build links, on the wiring

    Each of the operations of [Build] plugs one end of a link into one side of
    the network and leaves the other side, the configuration and the numbers
    of the routers as they were; it succeeds whenever its indices are in
    range. A network that is idle, with its buffers empty and its credits at
    the senders, stays idle. *)

From S2P Require Import Prelude NetDest Types FlitBuffer Channels RouterCore MsgBuffer NetState Routing Network CreditBalance CreditSteps Credits Wiring.

Import Side.

(** ** Idle networks *)
Module Idle.

Definition empty (b : flitBuffer.t) : Prop := flitBuffer.m_buffer b = [].

Definition full (s : OutVcState.t) : Prop :=
  OutVcState.m_credit_count s = OutVcState.m_max_credit_count s /\ 0 <= OutVcState.m_max_credit_count s.

(** The configuration has what a port with [k] virtual channels needs. *)
Definition supports (c : NetConfig.t) (k : Z) : Prop :=
  forall i, 0 <= i < k -> exists s, OutVcState.new i c = Ok s.

Definition input (u : InputUnit.t) : Prop :=
  Forall (fun x => empty (VirtualChannel.m_input_buffer x)) (InputUnit.m_vcs u) /\ empty (InputUnit.creditQueue u).

Definition output (o : OutputUnit.t) : Prop :=
  Forall full (OutputUnit.m_outvc_state o) /\ empty (OutputUnit.m_out_buffer o).

Record router (c : NetConfig.t) (r : Router.t) : Prop := {
  ro_inputs : Forall input (Router.m_input_unit r);
  ro_outputs : Forall output (Router.m_output_unit r);
  ro_switch : Forall empty (CrossbarSwitch.m_switch_buffer (Router.m_switch r));
  ro_vcs : supports c (Router.m_num_vcs r)
}.

Record interface (c : NetConfig.t) (ni : NetworkInterface.t) : Prop := {
  in_flits : empty (NetworkInterface.outFlitQueue ni);
  in_credits : empty (NetworkInterface.outCreditQueue ni);
  in_stalls : NetworkInterface.m_stall_queue ni = [];
  in_lanes : Forall empty (NetworkInterface.m_ni_out_vcs ni);
  in_full : Forall full (NetworkInterface.m_out_vc_state ni);
  in_vcs : supports c (NetworkInterface.m_num_vcs ni)
}.

Definition link (l : NetworkLink.t) : Prop := empty (NetworkLink.linkBuffer l).

Record net (n : Net.t) : Prop := {
  ne_routers : Forall (router (Net.cfg n)) (Net.m_routers n);
  ne_nis : Forall (interface (Net.cfg n)) (Net.m_nis n);
  ne_links : Forall link (Net.net_links n);
  ne_credits : Forall link (Net.credit_links n)
}.

Lemma new_full i c s : OutVcState.new i c = Ok s -> full s.
Proof.
  unfold OutVcState.new, assert_. intros H. inv_bind H. inv_bind H. simplify_res.
  destruct (_ >=? 1) eqn:Hge in E0; [|done]. rewrite Z.geb_leb in Hge. zbool. unfold full. cbn. lia.
Qed.

Lemma new_states c k :
  supports c k -> exists l, mapM (fun i => OutVcState.new i c) (range 0 k) = Ok l /\ Forall full l.
Proof.
  intros Hs. assert (forall i, i ∈ range 0 k -> exists s, OutVcState.new i c = Ok s) as Hall.
  { intros i Hi%in_range. by apply Hs. }
  clear Hs. induction (range 0 k) as [|i l IH]; [by exists []|].
  destruct (Hall i) as [s Hi]; [set_solver|]. destruct IH as (ss & Hl & Hf); [set_solver|].
  exists (s :: ss). cbn. rewrite Hi. cbn. rewrite Hl. split; [done|]. constructor; [by eapply new_full|done].
Qed.

End Idle.

(** *** An idle network is balanced *)

Section Balanced.
Import Slots.

Lemma at_ext_in {A} (w w' : A -> Z) k l : (forall x, x ∈ l -> w x = w' x) -> at_ w k l = at_ w' k l.
Proof.
  intros Hw. unfold at_. destruct (vec_at l k) eqn:E; [|done]. apply Hw.
  apply vec_at_Ok in E as [_ E]. by eapply list_elem_of_lookup_2.
Qed.

Lemma at_zero {A} (w : A -> Z) k l : (forall x, x ∈ l -> w x = 0) -> at_ w k l = 0.
Proof.
  intros Hw. rewrite (at_ext_in w (fun _ => 0)) by done. unfold at_. by destruct (vec_at l k).
Qed.

Lemma total_zero_in {A} (g : A -> Z) l : (forall x, x ∈ l -> g x = 0) -> total g l = 0.
Proof.
  induction l as [|x l IH]; intros Hg; cbn; [done|]. rewrite Hg, IH; [done| |set_solver]. intros y Hy. apply Hg. by right.
Qed.

Lemma empty_flits v b : Idle.empty b -> flits v b = 0.
Proof. unfold Idle.empty, flits. by intros ->. Qed.

Context (e : edge) (v : Z) (n : Net.t) (Hidle : Idle.net n).

Lemma idle_router_at {w} id : (forall r, Idle.router (Net.cfg n) r -> w r = 0) -> at_ w id (Net.m_routers n) = 0.
Proof.
  intros Hw. apply at_zero. intros r Hr. apply Hw. destruct Hidle as [H _ _ _]. rewrite Forall_forall in H. by apply H.
Qed.

Lemma idle_ni_at {w} i : (forall ni, Idle.interface (Net.cfg n) ni -> w ni = 0) -> at_ w i (Net.m_nis n) = 0.
Proof.
  intros Hw. apply at_zero. intros ni Hni. apply Hw. destruct Hidle as [_ H _ _]. rewrite Forall_forall in H. by apply H.
Qed.

Lemma idle_link_at k l : Forall Idle.link l -> at_ (fun l => flits v (NetworkLink.linkBuffer l)) k l = 0.
Proof. intros H. apply at_zero. intros x Hx. rewrite Forall_forall in H. by apply empty_flits, H. Qed.

Lemma idle_credits : credits e v n = capacity e v n.
Proof.
  destruct Hidle as [H1 H2 _ _]. rewrite Forall_forall in H1. rewrite Forall_forall in H2. unfold credits, capacity, sender. destruct (e_src e) as [id p|i].
  - apply at_ext_in. intros r Hr. destruct (H1 r Hr) as [_ Ho _ _]. rewrite Forall_forall in Ho.
    apply at_ext_in. intros o Hin. destruct (Ho o Hin) as [Hs _]. rewrite Forall_forall in Hs.
    apply at_ext_in. intros s Hs'. by apply Hs.
  - apply at_ext_in. intros ni Hni. destruct (H2 ni Hni) as [_ _ _ _ Hs _]. rewrite Forall_forall in Hs.
    apply at_ext_in. intros s Hs'. by apply Hs.
Qed.

Lemma idle_sent : sent e v n = 0.
Proof.
  unfold sent. rewrite idle_link_at by apply Hidle. rewrite Z.add_0_r. destruct (e_src e) as [id p|i].
  - apply idle_router_at. intros r [_ Ho Hsw _]. rewrite Forall_forall in Ho. rewrite Forall_forall in Hsw. rewrite total_zero_in, at_zero; [done| |].
    + intros o Hin. by apply empty_flits, (Ho o Hin).
    + intros b Hb. by rewrite (Hsw b Hb).
  - apply idle_ni_at. intros ni Hni. by apply empty_flits, Hni.
Qed.

Lemma idle_buffered : buffered e v n = 0.
Proof.
  unfold buffered. destruct (e_dst e) as [id p|i].
  - apply idle_router_at. intros r [Hi _ _ _]. rewrite Forall_forall in Hi. apply at_zero. intros u Hu.
    destruct (Hi u Hu) as [Hv _]. rewrite Forall_forall in Hv. apply at_zero. intros x Hx. by rewrite (Hv x Hx).
  - apply idle_ni_at. intros ni Hni. by rewrite (Idle.in_stalls _ _ Hni).
Qed.

Lemma idle_returning : returning e v n = 0.
Proof.
  unfold returning. rewrite idle_link_at by apply Hidle. rewrite Z.add_0_r. destruct (e_dst e) as [id p|i].
  - apply idle_router_at. intros r [Hi _ _ _]. rewrite Forall_forall in Hi. apply at_zero. intros u Hu.
    by apply empty_flits, (Hi u Hu).
  - apply idle_ni_at. intros ni Hni. by apply empty_flits, Hni.
Qed.

Lemma idle_balanced : balanced e v n.
Proof. unfold balanced. rewrite idle_credits, idle_sent, idle_buffered, idle_returning. lia. Qed.

End Balanced.

Lemma full_credit s : Idle.full s -> Bounds.credit s.
Proof. intros []. unfold Bounds.credit. lia. Qed.

Lemma idle_bounds n : Idle.net n -> Bounds.net n.
Proof.
  intros [H1 H2 _ _]. split.
  - eapply Forall_impl; [exact H1|]. intros r [_ Ho _ _]. eapply Forall_impl; [exact Ho|]. intros o [Hs _].
    eapply Forall_impl; [exact Hs|]. apply full_credit.
  - eapply Forall_impl; [exact H2|]. intros ni [_ _ _ Hl Hs _]. split.
    + eapply Forall_impl; [exact Hs|]. apply full_credit.
    + apply vec_all_intro. intros k b Hb. unfold Bounds.lane. by rewrite (Forall_vec_at _ _ _ _ Hl Hb).
Qed.

(** ** What building a link keeps *)

Record kept (n n' : Net.t) : Prop := {
  kp_cfg : Net.cfg n' = Net.cfg n;
  kp_ids : map Router.m_id (Net.m_routers n') = map Router.m_id (Net.m_routers n);
  kp_ring : Net.spinRing n' = Net.spinRing n;
  kp_idle : Idle.net n -> Idle.net n'
}.

#[global] Instance kept_preorder : PreOrder kept.
Proof.
  split; [by intros n|]. intros n1 n2 n3 [] []. split; [congruence|congruence|congruence|auto].
Qed.

(** *** The updates behind the operations *)

Definition set_source (k : Z) (q : queue_ref) (s : Side.t) : Side.t :=
  mk (ports s) (dirs s) (nis s) (<[Z.to_nat k := Some q]> (sources s)).

Definition set_ni (i l : Z) (s : Side.t) : Side.t :=
  mk (ports s) (dirs s) (<[Z.to_nat i := l]> (nis s)) (sources s).

Definition add_port (id : Z) (d : PortDirection) (l : Z) (ls : list Z) (ds : gmap string Z) (s : Side.t) : Side.t :=
  mk (<[Z.to_nat id := ls ++ [l]]> (ports s)) (<[Z.to_nat id := <[d := zlen ls]> ds]> (dirs s)) (nis s) (sources s).

(** The operation returns, the sides of the network are then [R] and [S]. *)
Definition does (m : Res Net.t) (n : Net.t) (R S : Side.t) : Prop :=
  exists n', m = Ok n' /\ receivers n' = R /\ senders n' = S /\ kept n n'.

Lemma does_bind m f n R S R' S' :
  does m n R S -> (forall n1, receivers n1 = R -> senders n1 = S -> kept n n1 -> does (f n1) n1 R' S') ->
  does (n1 ← m; f n1) n R' S'.
Proof.
  intros (n1 & -> & HR & HS & Hk) Hf. destruct (Hf n1 HR HS Hk) as (n2 & Hn2 & HR' & HS' & Hk').
  exists n2. split; [exact Hn2|]. split_and!; [done|done|by etrans].
Qed.

Lemma upd_links_idle f (l : list NetworkLink.t) k x :
  (forall x, NetworkLink.linkBuffer (f x) = NetworkLink.linkBuffer x) -> vec_at l k = Ok x ->
  Forall Idle.link l -> Forall Idle.link (<[Z.to_nat k := f x]> l).
Proof.
  intros Hf Hx HF. apply Forall_insert; [done|]. unfold Idle.link. rewrite Hf. by eapply (Forall_vec_at _ _ _ _ HF).
Qed.

Lemma net_link_keeps k f n :
  0 <= k < zlen (sources (senders n)) ->
  (forall x, NetworkLink.linkBuffer (f x) = NetworkLink.linkBuffer x /\
             NetworkLink.link_srcQueue (f x) = NetworkLink.link_srcQueue x) ->
  does (Links.upd_net_link k f n) n (receivers n) (senders n).
Proof.
  intros Hk Hf. cbn in Hk. rewrite zlen_map in Hk. destruct (vec_at_total _ _ Hk) as [x Hx].
  unfold Links.upd_net_link. rewrite (vec_upd_Ok _ _ (fun l => Ok (f l)) x (f x) Hx eq_refl).
  eexists. split; [done|]. split_and!; [done| |].
  - unfold senders. cbn. by rewrite (map_set_same _ _ _ _ _ Hx (proj2 (Hf x))).
  - split; [done|done|done|]. intros []. split; cbn; [done|done|by apply upd_links_idle; [apply Hf| |]|done].
Qed.

Lemma net_link_source k q n :
  0 <= k < zlen (sources (senders n)) ->
  does (Links.upd_net_link k (NetworkLink.setSourceQueue q) n) n (receivers n) (set_source k q (senders n)).
Proof.
  intros Hk. cbn in Hk. rewrite zlen_map in Hk. destruct (vec_at_total _ _ Hk) as [x Hx].
  unfold Links.upd_net_link.
  rewrite (vec_upd_Ok _ _ (fun l => Ok (NetworkLink.setSourceQueue q l)) x _ Hx eq_refl).
  eexists. split; [done|]. split_and!; [done| |].
  - unfold senders, set_source. cbn. by rewrite map_insert.
  - split; [done|done|done|]. intros []. split; cbn; [done|done|by apply upd_links_idle|done].
Qed.

Lemma credit_link_keeps k f n :
  0 <= k < zlen (sources (receivers n)) ->
  (forall x, NetworkLink.linkBuffer (f x) = NetworkLink.linkBuffer x /\
             NetworkLink.link_srcQueue (f x) = NetworkLink.link_srcQueue x) ->
  does (Links.upd_credit_link k f n) n (receivers n) (senders n).
Proof.
  intros Hk Hf. cbn in Hk. rewrite zlen_map in Hk. destruct (vec_at_total _ _ Hk) as [x Hx].
  unfold Links.upd_credit_link. rewrite (vec_upd_Ok _ _ (fun l => Ok (f l)) x (f x) Hx eq_refl).
  eexists. split; [done|]. split_and!; [|done|].
  - unfold receivers. cbn. by rewrite (map_set_same _ _ _ _ _ Hx (proj2 (Hf x))).
  - split; [done|done|done|]. intros []. split; cbn; [done|done|done|by apply upd_links_idle; [apply Hf| |]].
Qed.

Lemma credit_link_source k q n :
  0 <= k < zlen (sources (receivers n)) ->
  does (Links.upd_credit_link k (NetworkLink.setSourceQueue q) n) n (set_source k q (receivers n)) (senders n).
Proof.
  intros Hk. cbn in Hk. rewrite zlen_map in Hk. destruct (vec_at_total _ _ Hk) as [x Hx].
  unfold Links.upd_credit_link.
  rewrite (vec_upd_Ok _ _ (fun l => Ok (NetworkLink.setSourceQueue q l)) x _ Hx eq_refl).
  eexists. split; [done|]. split_and!; [|done|].
  - unfold receivers, set_source. cbn. by rewrite map_insert.
  - split; [done|done|done|]. intros []. split; cbn; [done|done|done|by apply upd_links_idle].
Qed.

(** *** Routers and interfaces *)

Lemma InputUnit_new_idle id d k v l c :
  Idle.input (InputUnit.set_credit_link c (InputUnit.set_in_link l (InputUnit.new id d k v))).
Proof. split; [|done]. cbn. apply Forall_map, Forall_forall. done. Qed.

Lemma add_in_port id d l c n ls ds :
  vec_at (ports (receivers n)) id = Ok ls -> vec_at (dirs (receivers n)) id = Ok ds ->
  does (Net.upd_router id (fun r => Ok (Router.addInPort d l c r)) n) n
    (add_port id d l ls ds (receivers n)) (senders n).
Proof.
  intros (r & Hr & ->)%vec_at_map_inv (r' & Hr' & ->)%vec_at_map_inv. rewrite Hr in Hr'. simplify_res.
  unfold Net.upd_router. rewrite (vec_upd_Ok _ _ (fun r => Ok (Router.addInPort d l c r)) r' _ Hr eq_refl).
  eexists. split; [done|]. split_and!.
  - unfold receivers, add_port. cbn. rewrite !map_insert. cbn. by rewrite map_app, zlen_map.
  - unfold senders. cbn. by rewrite !(map_set_same _ _ _ _ _ Hr).
  - split; [done|by apply (map_set_same _ _ _ _ _ Hr)|done|].
    intros [H1 H2 H3 H4]. split; cbn; [|done..]. apply Forall_insert; [done|].
    destruct (Forall_vec_at _ _ _ _ H1 Hr) as [R1 R2 R3 R4]. split; [|done..]. cbn.
    apply Forall_app. split; [done|]. constructor; [apply InputUnit_new_idle|done].
Qed.

Lemma add_out_port id d l nd w c n ls ds :
  vec_at (ports (senders n)) id = Ok ls -> vec_at (dirs (senders n)) id = Ok ds -> Idle.net n ->
  does (Net.upd_router id (Router.addOutPort (Net.cfg n) d l nd w c) n) n
    (receivers n) (add_port id d c ls ds (senders n)).
Proof.
  intros (r & Hr & ->)%vec_at_map_inv (r' & Hr' & ->)%vec_at_map_inv [H1 H2 H3 H4]. rewrite Hr in Hr'. simplify_res.
  destruct (Forall_vec_at _ _ _ _ H1 Hr) as [R1 R2 R3 R4]. destruct (Idle.new_states _ _ R4) as (ss & Hss & Hfull).
  unfold Net.upd_router. erewrite vec_upd_Ok; [|exact Hr|].
  2:{ unfold Router.addOutPort, OutputUnit.new. rewrite Hss. cbn. reflexivity. }
  eexists. split; [done|]. split_and!.
  - unfold receivers. cbn. by rewrite !(map_set_same _ _ _ _ _ Hr).
  - unfold senders, add_port. cbn. rewrite !map_insert. cbn. by rewrite map_app, zlen_map.
  - split; [done|by apply (map_set_same _ _ _ _ _ Hr)|done|]. intros _. split; cbn; [|done..].
    apply Forall_insert; [done|]. split; [done| |done|done]. cbn. apply Forall_app. split; [done|]. by repeat constructor.
Qed.

Lemma ni_in_port i l c n :
  0 <= i < zlen (nis (receivers n)) ->
  does (Links.upd_ni i (fun ni => Ok (NetworkInterface.set_in_port l c ni)) n) n
    (set_ni i l (receivers n)) (senders n).
Proof.
  intros Hi. cbn in Hi. rewrite zlen_map in Hi. destruct (vec_at_total _ _ Hi) as [ni Hni].
  unfold Links.upd_ni. rewrite (vec_upd_Ok _ _ (fun ni => Ok (NetworkInterface.set_in_port l c ni)) ni _ Hni eq_refl).
  eexists. split; [done|]. split_and!.
  - unfold receivers, set_ni. cbn. by rewrite map_insert.
  - unfold senders. cbn. by rewrite (map_set_same _ _ _ _ _ Hni).
  - split; [done|done|done|]. intros [H1 H2 H3 H4]. split; cbn; [done| |done..]. apply Forall_insert; [done|].
    destruct (Forall_vec_at _ _ _ _ H2 Hni). by split.
Qed.

Lemma ni_out_port i l c id n :
  0 <= i < zlen (nis (senders n)) ->
  does (Links.upd_ni i (fun ni => Ok (NetworkInterface.set_out_port l c flitBuffer.new id ni)) n) n
    (receivers n) (set_ni i c (senders n)).
Proof.
  intros Hi. cbn in Hi. rewrite zlen_map in Hi. destruct (vec_at_total _ _ Hi) as [ni Hni].
  unfold Links.upd_ni.
  rewrite (vec_upd_Ok _ _ (fun ni => Ok (NetworkInterface.set_out_port l c flitBuffer.new id ni)) ni _ Hni eq_refl).
  eexists. split; [done|]. split_and!.
  - unfold receivers. cbn. by rewrite (map_set_same _ _ _ _ _ Hni).
  - unfold senders, set_ni. cbn. by rewrite map_insert.
  - split; [done|done|done|]. intros [H1 H2 H3 H4]. split; cbn; [done| |done..]. apply Forall_insert; [done|].
    destruct (Forall_vec_at _ _ _ _ H2 Hni). by split.
Qed.

(** ** The operations of [Build] *)

Definition num_flit_links (n : Net.t) : Z := zlen (sources (senders n)).
Definition num_credit_links (n : Net.t) : Z := zlen (sources (receivers n)).
Definition num_routers (n : Net.t) : Z := zlen (ports (receivers n)).
Definition num_interfaces (n : Net.t) : Z := zlen (nis (receivers n)).

Definition shape (n : Net.t) : Z * Z * Z * Z :=
  (num_routers n, num_interfaces n, num_flit_links n, num_credit_links n).

Lemma receiver_ports id n :
  0 <= id < num_routers n ->
  exists ls ds, vec_at (ports (receivers n)) id = Ok ls /\ vec_at (dirs (receivers n)) id = Ok ds.
Proof.
  unfold num_routers. cbn. rewrite zlen_map. intros Hid. destruct (vec_at_total _ _ Hid) as [r Hr].
  do 2 eexists. split; by apply (vec_at_map (fun r => _ r)).
Qed.

Lemma sender_ports id n :
  0 <= id < num_routers n ->
  exists ls ds, vec_at (ports (senders n)) id = Ok ls /\ vec_at (dirs (senders n)) id = Ok ds.
Proof.
  unfold num_routers. cbn. rewrite zlen_map. intros Hid. destruct (vec_at_total _ _ Hid) as [r Hr].
  do 2 eexists. split; by apply (vec_at_map (fun r => _ r)).
Qed.

Lemma router_addInPort_does id d l k n ls ds R S :
  receivers n = R -> senders n = S ->
  vec_at (ports R) id = Ok ls -> vec_at (dirs R) id = Ok ds ->
  0 <= l < zlen (sources S) -> 0 <= k < zlen (sources R) ->
  does (Build.router_addInPort id d l k n) n
    (plug_port id d l k (CreditQueue id (zlen ls)) ls ds R) S.
Proof.
  intros <- <- Hls Hds Hl Hk. unfold Build.router_addInPort. pose proof Hls as (r & Hr & ->)%vec_at_map_inv.
  unfold Net.router. rewrite Hr. cbn [mbind Res_bind]. rewrite zlen_map in *.
  eapply does_bind; [by apply net_link_keeps|]. intros n1 R1 S1 K1.
  eapply does_bind; [apply credit_link_source; by rewrite R1|]. intros n2 R2 S2 K2. rewrite S1 in S2. rewrite R1 in R2.
  destruct (add_in_port id d l k n2 (map InputUnit.m_in_link (Router.m_input_unit r)) ds)
    as (n3 & Hn3 & R3 & S3 & K3); [by rewrite R2|by rewrite R2|].
  exists n3. split; [done|]. split_and!; [|by rewrite S3|done]. rewrite R3, R2. unfold add_port, plug_port, set_source. cbn. by rewrite zlen_map.
Qed.

Lemma router_addOutPort_does id d l nd w k n ls ds R S :
  receivers n = R -> senders n = S ->
  vec_at (ports S) id = Ok ls -> vec_at (dirs S) id = Ok ds ->
  0 <= l < zlen (sources S) -> 0 <= k < zlen (sources R) -> Idle.net n ->
  does (Build.router_addOutPort id d l nd w k n) n
    R (plug_port id d k l (OutQueue id (zlen ls)) ls ds S).
Proof.
  intros <- <- Hls Hds Hl Hk Hidle. unfold Build.router_addOutPort. pose proof Hls as (r & Hr & ->)%vec_at_map_inv.
  unfold Net.router. rewrite Hr. cbn [mbind Res_bind]. rewrite zlen_map in *.
  eapply does_bind; [by apply credit_link_keeps|]. intros n1 R1 S1 K1.
  eapply does_bind; [apply net_link_source; by rewrite S1|]. intros n2 R2 S2 K2. rewrite R1 in R2. rewrite S1 in S2.
  destruct (add_out_port id d l nd w k n2 (map OutputUnit.m_credit_link (Router.m_output_unit r)) ds)
    as (n3 & Hn3 & R3 & S3 & K3); [by rewrite S2|by rewrite S2|by apply K2, K1|].
  exists n3. split; [done|]. split_and!; [by rewrite R3|rewrite S3, S2; unfold add_port, plug_port, set_source; cbn; by rewrite zlen_map|done].
Qed.

Lemma ni_addInPort_does i l k n R S :
  receivers n = R -> senders n = S ->
  0 <= i < zlen (nis R) -> 0 <= l < zlen (sources S) -> 0 <= k < zlen (sources R) ->
  does (Build.ni_addInPort i l k n) n (plug_ni i l k (NICreditQueue i) R) S.
Proof.
  intros <- <- Hi Hl Hk. unfold Build.ni_addInPort.
  eapply does_bind; [by apply ni_in_port|]. intros n1 R1 S1 K1.
  eapply does_bind; [apply net_link_keeps; [by rewrite S1|done]|]. intros n2 R2 S2 K2.
  destruct (credit_link_source k (NICreditQueue i) n2) as (n3 & Hn3 & R3 & S3 & K3); [by rewrite R2, R1|].
  exists n3. by rewrite R3, S3, R2, S2, R1, S1.
Qed.

Lemma ni_addOutPort_does i l k id n R S :
  receivers n = R -> senders n = S ->
  0 <= i < zlen (nis R) -> 0 <= l < zlen (sources S) -> 0 <= k < zlen (sources R) ->
  does (Build.ni_addOutPort i l k id n) n R (plug_ni i k l (NIFlitQueue i) S).
Proof.
  intros <- <- Hi Hl Hk. unfold Build.ni_addOutPort.
  eapply does_bind; [by apply credit_link_keeps|]. intros n1 R1 S1 K1.
  eapply does_bind; [apply ni_out_port; rewrite S1; cbn in *; by rewrite zlen_map in *|].
  intros n2 R2 S2 K2.
  destruct (net_link_source l (NIFlitQueue i) n2) as (n3 & Hn3 & R3 & S3 & K3); [by rewrite S2, S1|].
  exists n3. by rewrite R3, S3, R2, S2, R1, S1.
Qed.

(** ** Adding a cable *)

(** The side conditions about a network whose sides are known. *)
Ltac sizes :=
  unfold num_routers, num_interfaces, num_flit_links, num_credit_links, zlen in *;
  cbn [ports dirs nis sources plug_port plug_ni] in *; rewrite ?length_insert in *.

Lemma kept_push l k n : kept n (Build.push_links l k n).
Proof. split; [done..|]. intros []. by split. Qed.

Lemma does_push m l k n R S : does m (Build.push_links l k n) R S -> does m n R S.
Proof.
  intros (n' & Hm & HR & HS & K). exists n'. split_and!; [done|done|done|]. etrans; [apply kept_push|exact K].
Qed.

Section Cables.
Context (cs : list cable) (n : Net.t) (l k : Z).
Hypothesis Hw : wired cs n.
Hypothesis Hidle : Idle.net n.
Hypothesis Hl : 0 <= l < num_flit_links n.
Hypothesis Hk : 0 <= k < num_credit_links n.
Hypothesis Hfl : l ∉ map (fun c => e_link (c_edge c)) cs.
Hypothesis Hfk : k ∉ map (fun c => e_credit (c_edge c)) cs.

(** The operation adds the cable [c]. *)
Definition adds (m : Res Net.t) (c : cable) : Prop :=
  exists n', m = Ok n' /\ wired (cs ++ [c]) n' /\ kept n n' /\ shape n' = shape n.

Lemma adds_intro m c R S :
  does m n R S -> agrees Edge.flit_end (map src_plug cs ++ [src_plug c]) S ->
  agrees Edge.credit_end (map dst_plug cs ++ [dst_plug c]) R ->
  (zlen (ports R), zlen (nis R), zlen (sources S), zlen (sources R)) = shape n -> adds m c.
Proof.
  intros (n' & Hm & <- & <- & K) HS HR Hsh. exists n'. split_and!; [done| |done|done].
  split; by rewrite map_app.
Qed.

(** The links are new to both sides. *)
Lemma new_link : (l ∉ map p_link (map dst_plug cs)) /\ (l ∉ map p_feeds (map src_plug cs)).
Proof. by rewrite !map_map. Qed.
Lemma new_credit_link : (k ∉ map p_link (map src_plug cs)) /\ (k ∉ map p_feeds (map dst_plug cs)).
Proof. by rewrite !map_map. Qed.

Lemma plug_receiver id d ls ds :
  vec_at (ports (receivers n)) id = Ok ls -> vec_at (dirs (receivers n)) id = Ok ds ->
  agrees Edge.credit_end (map dst_plug cs ++ [mk_plug (Port id (zlen ls)) l k d])
    (plug_port id d l k (CreditQueue id (zlen ls)) ls ds (receivers n)).
Proof.
  intros Hls Hds. destruct new_link, new_credit_link.
  apply agrees_plug_port; [apply Hw|done..|lia|done|done|done].
Qed.

Lemma plug_sender id d ls ds :
  vec_at (ports (senders n)) id = Ok ls -> vec_at (dirs (senders n)) id = Ok ds ->
  agrees Edge.flit_end (map src_plug cs ++ [mk_plug (Port id (zlen ls)) k l d])
    (plug_port id d k l (OutQueue id (zlen ls)) ls ds (senders n)).
Proof.
  intros Hls Hds. destruct new_link, new_credit_link.
  apply agrees_plug_port; [apply Hw|done..|lia|done|done|done].
Qed.

Lemma makeExtInLink_adds src dest :
  0 <= src < num_interfaces n -> src < NetConfig.m_nodes (Net.cfg n) -> 0 <= dest < num_routers n ->
  Interface src ∉ map (fun c => e_src (c_edge c)) cs ->
  exists p, adds (Build.makeExtInLink src dest l k n)
    (mk_cable (mk_edge (Interface src) l (Port dest p) k) "" "Local").
Proof.
  intros Hsrc Hnodes Hdest Hfresh. destruct new_link, new_credit_link.
  destruct (receiver_ports dest n Hdest) as (ls & ds & Hls & Hds). exists (zlen ls).
  eapply (adds_intro _ _ (plug_port dest "Local" l k (CreditQueue dest (zlen ls)) ls ds (receivers n))
    (plug_ni src k l (NIFlitQueue src) (senders n))).
  - unfold Build.makeExtInLink, assert_. rewrite (proj2 (Z.ltb_lt _ _)) by done. cbn [mbind Res_bind].
    eapply does_bind; [by apply net_link_keeps|]. intros n1 R1 S1 K1.
    apply (does_bind _ _ _ (plug_port dest "Local" l k (CreditQueue dest (zlen ls)) ls ds (receivers n)) (senders n)).
    + apply (does_push _ l k). by apply router_addInPort_does.
    + intros n2 R2 S2 K2. apply ni_addOutPort_does; by sizes.
  - apply agrees_plug_ni; [apply Hw| |by rewrite map_map|done|lia|done|done|done].
    unfold num_interfaces in Hsrc. cbn in *. by rewrite zlen_map in *.
  - by apply plug_receiver.
  - unfold shape, num_routers, num_interfaces, num_flit_links, num_credit_links, zlen. cbn. by rewrite !length_insert.
Qed.

Lemma makeExtOutLink_adds src dest nd w :
  0 <= src < num_routers n -> 0 <= dest < num_interfaces n -> dest < NetConfig.m_nodes (Net.cfg n) ->
  Interface dest ∉ map (fun c => e_dst (c_edge c)) cs ->
  exists p, adds (Build.makeExtOutLink src dest l k nd w n)
    (mk_cable (mk_edge (Port src p) l (Interface dest) k) "Local" "").
Proof.
  intros Hsrc Hdest Hnodes Hfresh. destruct new_link, new_credit_link.
  destruct (sender_ports src n Hsrc) as (ls & ds & Hls & Hds). exists (zlen ls).
  eapply (adds_intro _ _ (plug_ni dest l k (NICreditQueue dest) (receivers n))
    (plug_port src "Local" k l (OutQueue src (zlen ls)) ls ds (senders n))).
  - unfold Build.makeExtOutLink, assert_. rewrite (proj2 (Z.ltb_lt dest _)) by done. cbn [mbind Res_bind].
    rewrite (proj2 (Z.ltb_lt src _)) by (unfold num_routers in Hsrc; cbn in Hsrc; rewrite zlen_map in Hsrc; lia).
    cbn [mbind Res_bind]. eapply does_bind; [by apply net_link_keeps|]. intros n1 R1 S1 K1.
    apply (does_bind _ _ _ (receivers n) (plug_port src "Local" k l (OutQueue src (zlen ls)) ls ds (senders n))).
    + apply (does_push _ l k). apply router_addOutPort_does; try done. by apply kp_idle with n1; [apply kept_push|apply K1].
    + intros n2 R2 S2 K2. apply ni_addInPort_does; by sizes.
  - by apply plug_sender.
  - apply agrees_plug_ni; [apply Hw|done|by rewrite map_map|done|lia|done|done|done].
  - unfold shape. by sizes.
Qed.

Lemma makeInternalLink_adds src dest nd w od id :
  0 <= src < num_routers n -> 0 <= dest < num_routers n ->
  exists p q, adds (Build.makeInternalLink src dest l k nd w od id n)
    (mk_cable (mk_edge (Port src p) l (Port dest q) k) od id).
Proof.
  intros Hsrc Hdest.
  destruct (sender_ports src n Hsrc) as (ls & ds & Hls & Hds). exists (zlen ls).
  destruct (receiver_ports dest n Hdest) as (ls' & ds' & Hls' & Hds'). exists (zlen ls').
  eapply (adds_intro _ _ (plug_port dest id l k (CreditQueue dest (zlen ls')) ls' ds' (receivers n))
    (plug_port src od k l (OutQueue src (zlen ls)) ls ds (senders n))).
  - unfold Build.makeInternalLink. eapply does_bind; [by apply net_link_keeps|]. intros n1 R1 S1 K1.
    apply (does_bind _ _ _ (plug_port dest id l k (CreditQueue dest (zlen ls')) ls' ds' (receivers n)) (senders n)).
    + apply (does_push _ l k). by apply router_addInPort_does.
    + intros n2 R2 S2 K2. apply router_addOutPort_does; try done; [by sizes|]. by apply K2, K1.
  - by apply plug_sender.
  - by apply plug_receiver.
  - unfold shape. by sizes.
Qed.

End Cables.
