(* ===== verification/Topology.v ===== *)
(** * Topology construction

    Models src/mem/ruby/network/Topology.{hh,cc}, the links of
    src/mem/ruby/network/BasicLink.{hh,cc} and
    src/mem/ruby/network/garnet2.0/GarnetLink.{hh,cc}: the switches of the
    component network are numbered, all-pairs shortest paths are computed over the weights of the
    links, and every link is hooked up with the set of the nodes it is on a
    shortest path to, which becomes a routing-table entry.

    Switch numbers: the interfaces' sides into the network are
    [0 .. m_nodes - 1], their sides out of it [m_nodes .. 2 * m_nodes - 1],
    and router [r] is [2 * m_nodes + r]. *)

From S2P Require Import Prelude NetDest Types FlitBuffer Channels RouterCore MsgBuffer NetState Routing Network.

(** ** Links *)
Module BasicLink.

Record t := mk {
  m_latency : Z;
  m_bandwidth_factor : Z;
  m_weight : Z
}.

End BasicLink.

(** The subclasses of [BasicLink]: a [GarnetExtLink] has a flit and a credit
    link per direction (in, out), a [GarnetIntLink] one of each; the links of
    the simple network have a bandwidth multiplier. *)
Inductive basic_link :=
  | GarnetExtLink (b : BasicLink.t) (net_in net_out credit_in credit_out : Z)
  | GarnetIntLink (b : BasicLink.t) (network_link credit_link : Z)
  | SimpleExtLink (b : BasicLink.t) (m_bw_multiplier : Z)
  | SimpleIntLink (b : BasicLink.t) (m_bw_multiplier : Z).

(** The constructors of the links of the simple network. *)
Definition new_SimpleExtLink (b : BasicLink.t) : basic_link :=
  SimpleExtLink b (BasicLink.m_bandwidth_factor b).

Definition new_SimpleIntLink (b : BasicLink.t) : basic_link :=
  SimpleIntLink b (BasicLink.m_bandwidth_factor b).

Definition basic (l : basic_link) : BasicLink.t :=
  match l with
  | GarnetExtLink b _ _ _ _ | GarnetIntLink b _ _ | SimpleExtLink b _ | SimpleIntLink b _ => b
  end.

(** The parameters of the links: a controller and its router, or two routers
    with the directions of their ports. *)
Record ext_link := mk_ext_link {
  ext_type : Z;
  ext_version : Z;
  int_node : Z;
  ext_basic : basic_link
}.

Record int_link := mk_int_link {
  src_node : Z;
  dst_node : Z;
  src_outport : PortDirection;
  dst_inport : PortDirection;
  int_basic : basic_link
}.

(** ** The networks

    The virtual methods of [Network] through which a topology builds its
    links; [S] is the state of the network. *)
Class NetworkOps (S : Type) := {
  makeExtOutLink (src dest : Z) (l : basic_link) (routing_table_entry : NetDest.t) : S -> Res S;
  makeExtInLink (src dest : Z) (l : basic_link) (routing_table_entry : NetDest.t) : S -> Res S;
  makeInternalLink (src dest : Z) (l : basic_link) (routing_table_entry : NetDest.t)
    (src_outport dst_inport : PortDirection) : S -> Res S
}.

Definition safe_cast : err := AssertFail "cast.hh:49".

(** Garnet casts the link to its own class. *)
#[export] Instance GarnetNetwork_ops : NetworkOps Net.t := {|
  makeExtOutLink src dest l routing_table_entry n :=
    match l with
    | GarnetExtLink b _ net_out _ credit_out =>
        Build.makeExtOutLink src dest net_out credit_out routing_table_entry
          (BasicLink.m_weight b) n
    | _ => Err safe_cast
    end;
  makeExtInLink src dest l routing_table_entry n :=
    match l with
    | GarnetExtLink b net_in _ credit_in _ => Build.makeExtInLink src dest net_in credit_in n
    | _ => Err safe_cast
    end;
  makeInternalLink src dest l routing_table_entry src_outport dst_inport n :=
    match l with
    | GarnetIntLink b network_link credit_link =>
        Build.makeInternalLink src dest network_link credit_link routing_table_entry
          (BasicLink.m_weight b) src_outport dst_inport n
    | _ => Err safe_cast
    end
|}.

(** ** Matrices *)
Module Matrix.

(** [typedef std::vector<std::vector<int> > Matrix] *)
Notation t := (list (list Z)).

Definition fill (n x : Z) : t := replicate (Z.to_nat n) (replicate (Z.to_nat n) x).

Definition get (m : t) (i j : Z) : Res Z := row ← vec_at m i; vec_at row j.

Definition set (i j x : Z) (m : t) : Res t := vec_upd m i (fun row => vec_set row j x).

Definition size (m : t) : Z := zlen m.

Definition sum (m : t) : Z := total (total id) m.

End Matrix.

(** ** [class Topology] *)
Module Topology.

Definition INFINITE_LATENCY : Z := 10000.

Record LinkEntry := mk_entry {
  link : basic_link;
  src_outport_dirn : PortDirection;
  dst_inport_dirn : PortDirection
}.

Record t := mk {
  m_nodes : Z;
  m_number_of_switches : Z;
  m_ext_link_vector : list ext_link;
  m_int_link_vector : list int_link;
  m_link_map : gmap (Z * Z) LinkEntry
}.

(** [SwitchID] is unsigned. *)
Definition addLink (src dest : Z) (e : LinkEntry) (tp : t) : Res t :=
  let bound := u32 (m_number_of_switches tp + m_nodes tp + m_nodes tp) in
  let src := u32 src in
  let dest := u32 dest in
  _ ← assert_ (src <=? bound) "Topology.cc:165";
  _ ← assert_ (dest <=? bound) "Topology.cc:166";
  Ok (mk (m_nodes tp) (m_number_of_switches tp) (m_ext_link_vector tp) (m_int_link_vector tp)
         (<[(src, dest) := e]> (m_link_map tp))).

(** An external link is two links of the component network. *)
Definition add_ext_link (mt : MachineTypes) (l : ext_link) (tp : t) : Res t :=
  let machine_base_idx := MachineType_base_number mt (ext_type l) in
  let ext_idx1 := machine_base_idx + ext_version l in
  let ext_idx2 := ext_idx1 + m_nodes tp in
  let int_idx := int_node l + 2 * m_nodes tp in
  tp ← addLink ext_idx1 int_idx (mk_entry (ext_basic l) "" "") tp;
  addLink int_idx ext_idx2 (mk_entry (ext_basic l) "" "") tp.

Definition push_int_link (l : int_link) (tp : t) : t :=
  mk (m_nodes tp) (m_number_of_switches tp) (m_ext_link_vector tp)
     (m_int_link_vector tp ++ [l]) (m_link_map tp).

Definition add_int_link (l : int_link) (tp : t) : Res t :=
  let src := src_node l + 2 * m_nodes tp in
  let dst := dst_node l + 2 * m_nodes tp in
  addLink src dst (mk_entry (int_basic l) (src_outport l) (dst_inport l)) (push_int_link l tp).

Definition new (mt : MachineTypes) (num_routers : Z) (ext_links : list ext_link)
    (int_links : list int_link) : Res t :=
  let tp := mk (zlen ext_links) num_routers ext_links int_links ∅ in
  _ ← assert_ (m_nodes tp >? 1) "Topology.cc:58";
  tp ← foldM (add_ext_link mt) ext_links tp;
  foldM add_int_link int_links tp.

(** *** All-pairs shortest paths *)

(** The loop over [k]: the minimum, the last switch that lowered it, and the
    matrix of intermediate switches, which is written while it is read. *)
Definition relax_step (current_dist : Matrix.t) (i j k : Z) (st : Z * Z * Matrix.t)
    : Res (Z * Z * Matrix.t) :=
  let '(previous_minimum, intermediate_switch, inter_switches) := st in
  a ← Matrix.get current_dist i k;
  b ← Matrix.get current_dist k j;
  let minimum := Z.min previous_minimum (a + b) in
  if negb (previous_minimum =? minimum) then
    p ← Matrix.get inter_switches i k;
    q ← Matrix.get inter_switches k j;
    inter_switches ← Matrix.set i j (p + q + 1) inter_switches;
    Ok (minimum, k, inter_switches)
  else Ok (minimum, intermediate_switch, inter_switches).

(** The matrices and the flag [change]. *)
Record paths := mk_paths {
  current_dist : Matrix.t;
  latencies : Matrix.t;
  inter_switches : Matrix.t;
  change : bool
}.

Definition relax (i j : Z) (p : paths) : Res paths :=
  d ← Matrix.get (current_dist p) i j;
  '(minimum, intermediate_switch, inter) ←
    foldM (relax_step (current_dist p) i j) (range 0 (Matrix.size (current_dist p)))
      (d, -1, inter_switches p);
  if negb (d =? minimum) then
    dist ← Matrix.set i j minimum (current_dist p);
    _ ← assert_ (intermediate_switch >=? 0) "Topology.cc:247";
    row ← vec_at (latencies p) i;
    _ ← assert_ (intermediate_switch <? zlen row) "Topology.cc:248";
    a ← Matrix.get (latencies p) i intermediate_switch;
    b ← Matrix.get (latencies p) intermediate_switch j;
    lat ← Matrix.set i j (a + b) (latencies p);
    Ok (mk_paths dist lat inter true)
  else Ok (mk_paths (current_dist p) (latencies p) inter (change p)).

Definition set_change (b : bool) (p : paths) : paths :=
  mk_paths (current_dist p) (latencies p) (inter_switches p) b.

Definition sweep (p : paths) : Res paths :=
  let nodes := range 0 (Matrix.size (current_dist p)) in
  foldM (fun i p => foldM (fun j p => relax i j p) nodes p) nodes (set_change false p).

(** The [while] loop; the model stops when [fuel] runs out. *)
Fixpoint extend_loop (fuel : nat) (p : paths) : Res paths :=
  match fuel with
  | O => Err (FatalError "fuel")
  | S n => p ← sweep p; if change p then extend_loop n p else Ok p
  end.

(** Every sweep but the last lowers the sum of the distances. *)
Definition extend_fuel (dist : Matrix.t) : nat := S (Z.to_nat (Matrix.sum dist)).

Definition extend_shortest_path (dist latencies inter : Matrix.t) : Res paths :=
  extend_loop (extend_fuel dist) (mk_paths dist latencies inter true).

Definition shortest_path (weights latencies inter : Matrix.t) : Res Matrix.t :=
  p ← extend_shortest_path weights latencies inter; Ok (current_dist p).

(** *** Routing-table entries *)

Definition link_is_shortest_path_to_node (src next final : Z) (weights dist : Matrix.t)
    : Res bool :=
  w ← Matrix.get weights src next;
  a ← Matrix.get dist next final;
  b ← Matrix.get dist src final;
  Ok (w + a =? b).

(** The loops over the machines; [d] counts them. *)
Definition shortest_path_to_node (mt : MachineTypes) (src next : Z) (weights dist : Matrix.t)
    : Res NetDest.t :=
  let max_machines := MachineType_base_number mt (MachineType_NUM mt) in
  result ← NetDest.new mt;
  '(result, _) ←
    foldM (fun m st =>
      foldM (fun i '(result, d) =>
        b ← link_is_shortest_path_to_node src next (d + max_machines) weights dist;
        result ← (if (b : bool) then NetDest.add mt (mkMachineID m i) result else Ok result);
        Ok (result, d + 1)) (range 0 (MachineType_base_count mt m)) st)
      (range 0 (MachineType_NUM mt)) (result, 0);
  Ok result.

(** *** Hooking up the links *)

(** [m_link_map[src_dest].link]: an entry that is not in the map has no link. *)
Definition entry_of (src dest : Z) (tp : t) : Res LinkEntry :=
  match m_link_map tp !! (src, dest) with
  | Some e => Ok e
  | None => Err (NullDeref "link_entry.link")
  end.

Definition makeLink {S} `{!NetworkOps S} (src dest : Z) (routing_table_entry : NetDest.t)
    (tp : t) (n : S) : Res S :=
  let nodes := m_nodes tp in
  _ ← assert_ ((src >=? 2 * nodes) || (dest >=? 2 * nodes)) "Topology.cc:185";
  if src <? nodes then
    link_entry ← entry_of src dest tp;
    makeExtInLink src (dest - 2 * nodes) (link link_entry) routing_table_entry n
  else if dest <? 2 * nodes then
    _ ← assert_ (dest >=? nodes) "Topology.cc:197";
    link_entry ← entry_of src dest tp;
    makeExtOutLink (src - 2 * nodes) (dest - nodes) (link link_entry) routing_table_entry n
  else
    _ ← assert_ ((src >=? 2 * nodes) && (dest >=? 2 * nodes)) "Topology.cc:205";
    link_entry ← entry_of src dest tp;
    makeInternalLink (src - 2 * nodes) (dest - 2 * nodes) (link link_entry) routing_table_entry
      (src_outport_dirn link_entry) (dst_inport_dirn link_entry) n.

Definition max_switch_id (tp : t) : Z :=
  fold_left (fun m e => Z.max (Z.max m e.1.1) e.1.2) (map_to_list (m_link_map tp)) 0.

(** The weights and latencies of the links. The order of the keys does not
    matter, since they are different. *)
Definition fill_link (e : Z * Z * LinkEntry) (st : Matrix.t * Matrix.t)
    : Res (Matrix.t * Matrix.t) :=
  let '(src, dst, entry) := e in
  let src := s32 src in
  let dst := s32 dst in
  lat ← Matrix.set src dst (BasicLink.m_latency (basic (link entry))) st.2;
  w ← Matrix.set src dst (BasicLink.m_weight (basic (link entry))) st.1;
  Ok (w, lat).

Definition topology_weights (tp : t) : Res (Matrix.t * Matrix.t) :=
  let num_switches := max_switch_id tp + 1 in
  w ← foldM (fun i m => Matrix.set i i 0 m) (range 0 num_switches)
        (Matrix.fill num_switches INFINITE_LATENCY);
  foldM fill_link (map_to_list (m_link_map tp)) (w, Matrix.fill num_switches (-1)).

(** One pair of switches of the last loop of [createLinks]. *)
Definition hookup {S} `{!NetworkOps S} (mt : MachineTypes) (tp : t) (weights dist : Matrix.t)
    (i j : Z) (n : S) : Res S :=
  weight ← Matrix.get weights i j;
  if (weight >? 0) && negb (weight =? INFINITE_LATENCY) then
    destination_set ← shortest_path_to_node mt i j weights dist;
    makeLink i j destination_set tp n
  else Ok n.

Definition createLinks {S} `{!NetworkOps S} (mt : MachineTypes) (tp : t) (n : S) : Res S :=
  '(weights, lat) ← topology_weights tp;
  dist ← shortest_path weights lat (Matrix.fill (max_switch_id tp + 1) 0);
  foldM (fun i n =>
           row ← vec_at weights i;
           foldM (hookup mt tp weights dist i) (range 0 (zlen row)) n)
    (range 0 (Matrix.size weights)) n.

End Topology.
