(* ===== verification/TopologyFacts.v ===== *)
(** * Shortest paths: theorems

    The [while] loop of [extend_shortest_path] always ends, and the matrix it
    leaves is the matrix of the costs of the cheapest walks over the weights
    ([walk], the reference definition). A routing-table entry computed from
    it names exactly the nodes the link is on a shortest path to; following
    such links reaches the node, and a node that can be reached at all is
    always served by some link. *)

From S2P Require Import Prelude NetDest NetDestFacts Types FlitBuffer Channels RouterCore MsgBuffer NetState Routing Network Topology.

(** ** Square matrices *)

Definition square (n : Z) (m : Matrix.t) : Prop :=
  zlen m = n /\ Forall (fun row => zlen row = n) m.

(** The entry [m[i][j]]. *)
Definition entry (m : Matrix.t) (i j : Z) : Z :=
  default 0 (row ← m !! Z.to_nat i; row !! Z.to_nat j).
Arguments entry : simpl never.
Arguments Matrix.sum : simpl never.

Section Matrices.
Context (n : Z).
Implicit Types (m : Matrix.t) (i j : Z).

Lemma square_row m i : square n m -> 0 <= i < n -> exists row, vec_at m i = Ok row /\ zlen row = n.
Proof.
  intros [Hm HF] Hi. destruct (vec_at_total m i) as [row Hrow]; [lia|]. exists row. split; [done|].
  apply vec_at_Ok in Hrow as [_ Hrow]. by eapply Forall_lookup_1 in HF.
Qed.

Lemma get_entry m i j :
  square n m -> 0 <= i < n -> 0 <= j < n -> Matrix.get m i j = Ok (entry m i j).
Proof.
  intros Hm Hi Hj. destruct (square_row m i Hm Hi) as (row & Hrow & Hlen). unfold Matrix.get.
  rewrite Hrow. cbn. destruct (vec_at_total row j) as [x Hx]; [lia|]. rewrite Hx. unfold entry.
  apply vec_at_Ok in Hrow as [_ ->]. cbn. apply vec_at_Ok in Hx as [_ ->]. done.
Qed.

Lemma set_entry m i j x :
  square n m -> 0 <= i < n -> 0 <= j < n ->
  exists m', Matrix.set i j x m = Ok m' /\ square n m' /\ entry m' i j = x /\
    (forall i' j', 0 <= i' < n -> 0 <= j' < n -> (i', j') <> (i, j) -> entry m' i' j' = entry m i' j') /\
    Matrix.sum m' = Matrix.sum m + x - entry m i j.
Proof.
  intros Hm Hi Hj. destruct (square_row m i Hm Hi) as (row & Hrow & Hlen).
  assert (vec_set row j x = Ok (<[Z.to_nat j := x]> row)) as Hset by (apply vec_set_Ok; lia).
  exists (<[Z.to_nat i := <[Z.to_nat j := x]> row]> m).
  assert (Matrix.set i j x m = Ok (<[Z.to_nat i := <[Z.to_nat j := x]> row]> m)) as HS
    by (by apply (vec_upd_Ok _ _ _ row)).
  pose proof Hrow as [_ Hl]%vec_at_Ok. destruct Hm as [Hn HF].
  assert ((Z.to_nat i < length m)%nat) as Hilen by (unfold zlen in *; lia).
  assert ((Z.to_nat j < length row)%nat) as Hjlen by (unfold zlen in *; lia).
  split_and!; [done| | | |].
  - split; [unfold zlen; by rewrite length_insert|]. apply Forall_insert; [done|].
    unfold zlen. rewrite length_insert. exact Hlen.
  - unfold entry. rewrite list_lookup_insert_eq by done. cbn. by rewrite list_lookup_insert_eq.
  - intros i' j' Hi' Hj' Hne. unfold entry. destruct (decide (i' = i)) as [->|Hi''].
    + rewrite list_lookup_insert_eq by done. cbn. rewrite Hl. cbn.
      rewrite list_lookup_insert_ne; [done|]. intros ?. apply Hne. f_equal. lia.
    + rewrite list_lookup_insert_ne by lia. done.
  - unfold Matrix.sum. rewrite (total_insert _ _ _ row) by done.
    destruct (lookup_lt_is_Some_2 row (Z.to_nat j) Hjlen) as [y Hy].
    rewrite (total_insert _ _ _ y) by done. unfold entry. rewrite Hl. cbn. rewrite Hy. cbn. lia.
Qed.

Lemma sum_nonneg m :
  square n m -> (forall i j, 0 <= i < n -> 0 <= j < n -> 0 <= entry m i j) -> 0 <= Matrix.sum m.
Proof.
  intros [Hn HF] Hpos. unfold Matrix.sum.
  assert (forall {A} (g : A -> Z) l, Forall (fun x => 0 <= g x) l -> 0 <= total g l) as Htot.
  { intros A g l. induction 1; cbn; lia. }
  apply Htot, Forall_lookup. intros i row Hrow. apply Htot, Forall_lookup. intros j x Hx.
  pose proof (lookup_lt_Some _ _ _ Hrow) as Hi. pose proof (lookup_lt_Some _ _ _ Hx) as Hj.
  pose proof (Forall_lookup_1 _ _ _ _ HF Hrow) as Hlen. cbn in Hlen. unfold zlen in *.
  specialize (Hpos (Z.of_nat i) (Z.of_nat j) ltac:(lia) ltac:(lia)).
  unfold entry in Hpos. rewrite !Nat2Z.id, Hrow in Hpos. cbn in Hpos. by rewrite Hx in Hpos.
Qed.

Lemma fill_square x : 0 <= n -> square n (Matrix.fill n x).
Proof.
  intros Hn. unfold square, Matrix.fill, zlen. rewrite length_replicate. split; [lia|].
  apply Forall_replicate. unfold zlen. rewrite length_replicate. lia.
Qed.

Lemma fill_entry x i j : 0 <= i < n -> 0 <= j < n -> entry (Matrix.fill n x) i j = x.
Proof.
  intros Hi Hj. unfold entry, Matrix.fill. rewrite lookup_replicate_2 by lia. cbn.
  by rewrite lookup_replicate_2 by lia.
Qed.

End Matrices.

(** ** Walks: the reference definition *)

Section Walks.
Context (n : Z) (W : Matrix.t).

(** A walk from [i] to [j] of cost [c]. *)
Inductive walk : Z -> Z -> Z -> Prop :=
  | walk_nil i : 0 <= i < n -> walk i i 0
  | walk_cons i k j c : 0 <= i < n -> walk k j c -> walk i j (entry W i k + c).

Lemma walk_inside i j c : walk i j c -> 0 <= i < n /\ 0 <= j < n.
Proof. induction 1; lia. Qed.

Lemma walk_link i j : 0 <= i < n -> 0 <= j < n -> walk i j (entry W i j).
Proof. intros Hi Hj. rewrite <- (Z.add_0_r (entry W i j)). constructor; [done|by constructor]. Qed.

Lemma walk_app i k j c c' : walk i k c -> walk k j c' -> walk i j (c + c').
Proof. induction 1; intros Hw; [done|]. rewrite <- Z.add_assoc. constructor; auto. Qed.

(** The cost of the cheapest walk. *)
Definition shortest (i j d : Z) : Prop := walk i j d /\ forall c, walk i j c -> d <= c.

Lemma shortest_unique i j d d' : shortest i j d -> shortest i j d' -> d = d'.
Proof. intros [Hw Hm] [Hw' Hm']. specialize (Hm _ Hw'). specialize (Hm' _ Hw). lia. Qed.

(** Distances below the weights that no intermediate switch improves bound
    every walk. *)
Lemma closed_below_walks D :
  (forall i, 0 <= i < n -> entry D i i <= 0) ->
  (forall i j, 0 <= i < n -> 0 <= j < n -> entry D i j <= entry W i j) ->
  (forall i j k, 0 <= i < n -> 0 <= j < n -> 0 <= k < n -> entry D i j <= entry D i k + entry D k j) ->
  forall i j c, walk i j c -> entry D i j <= c.
Proof.
  intros H0 HW Ht i j c Hw. induction Hw as [i Hi|i k j c Hi Hw IH]; [by apply H0|].
  destruct (walk_inside _ _ _ Hw) as [Hk Hj]. pose proof (HW i k Hi Hk). pose proof (Ht i j k Hi Hj Hk). lia.
Qed.

End Walks.

(** ** The loops *)

Section Loops.
Context (n : Z) (W : Matrix.t).
Import Topology.

Record weights_ok : Prop := {
  wo_square : square n W;
  wo_diag : forall i, 0 <= i < n -> entry W i i = 0;
  wo_pos : forall i j, 0 <= i < n -> 0 <= j < n -> 0 <= entry W i j <= INFINITE_LATENCY
}.

(** The invariant: every distance is the cost of a walk and between 0 and
    the weight. *)
Record paths_ok (p : paths) : Prop := {
  po_dist : square n (current_dist p);
  po_lat : square n (latencies p);
  po_inter : square n (inter_switches p);
  po_walk : forall i j, 0 <= i < n -> 0 <= j < n -> walk n W i j (entry (current_dist p) i j);
  po_bound : forall i j, 0 <= i < n -> 0 <= j < n -> 0 <= entry (current_dist p) i j <= entry W i j
}.

(** The minimum over the intermediate switches seen so far. *)
Definition least (D : Matrix.t) (i j d : Z) (ks : list Z) (m via : Z) : Prop :=
  m <= d /\ (forall k, k ∈ ks -> m <= entry D i k + entry D k j) /\
  (m = d \/ exists k, k ∈ ks /\ via = k /\ m = entry D i k + entry D k j).

Lemma relax_loop D i j d inter :
  square n D -> square n inter -> 0 <= i < n -> 0 <= j < n ->
  exists m via inter', foldM (relax_step D i j) (range 0 (Matrix.size D)) (d, -1, inter) = Ok (m, via, inter') /\
    square n inter' /\ least D i j d (range 0 n) m via.
Proof.
  intros HD Hinter Hi Hj. unfold Matrix.size. rewrite (proj1 HD).
  destruct (foldM_total (fun ks st => square n st.2 /\ least D i j d ks st.1.1 st.1.2)
    (relax_step D i j) (range 0 n) (d, -1, inter)) as ([[m via] inter'] & Hf & Hs & Hl).
  - split; [done|]. split_and!; cbn; [lia| |by left]. intros k Hk. by apply elem_of_nil in Hk.
  - intros ks k rest [[m via] x] Hks [Hx (Hmd & Hall & Hcase)]. cbn in *.
    assert (0 <= k < n) as Hk by (apply in_range; rewrite Hks; set_solver).
    rewrite (get_entry n D i k), (get_entry n D k j) by done. cbn.
    destruct (Z.eqb_spec m (Z.min m (entry D i k + entry D k j))) as [Heq|Hne]; cbn.
    + eexists. split; [done|]. cbn. split; [done|]. split_and!; [lia| |].
      * intros k' [Hk'|Hk'%list_elem_of_singleton]%elem_of_app; [|subst; lia]. specialize (Hall k' Hk'). lia.
      * destruct Hcase as [Hc|(k' & Hk' & Hv & Hc)]; [left; lia|right; exists k'].
        split_and!; [set_solver|done|lia].
    + rewrite (get_entry n x i k), (get_entry n x k j) by done. cbn.
      destruct (set_entry n x i j (entry x i k + entry x k j + 1) Hx Hi Hj) as (x' & -> & Hx' & _). cbn.
      eexists. split; [done|]. cbn. split; [done|]. split_and!; [lia| |].
      * intros k' [Hk'|Hk'%list_elem_of_singleton]%elem_of_app; [|subst; lia]. specialize (Hall k' Hk'). lia.
      * right. exists k. split_and!; [set_solver|done|lia].
  - by exists m, via, inter'.
Qed.

(** One iteration of the two outer loops. *)
Lemma relax_spec i j p :
  paths_ok p -> 0 <= i < n -> 0 <= j < n ->
  exists p', relax i j p = Ok p' /\ paths_ok p' /\
    (forall k, 0 <= k < n -> entry (current_dist p') i j <= entry (current_dist p) i k + entry (current_dist p) k j) /\
    ((current_dist p' = current_dist p /\ change p' = change p) \/
     (Matrix.sum (current_dist p') < Matrix.sum (current_dist p) /\ change p' = true)).
Proof.
  intros [Hd Hlat Hin Hw Hb] Hi Hj. unfold relax. rewrite (get_entry n) by done. cbn.
  set (d := entry (current_dist p) i j).
  destruct (relax_loop (current_dist p) i j d (inter_switches p) Hd Hin Hi Hj)
    as (m & via & inter & -> & Hinter & Hmd & Hall & Hcase). cbn.
  assert (0 <= m <= d /\ walk n W i j m) as [Hm Hwm].
  { destruct Hcase as [->|(k & Hk%in_range & _ & ->)]; [split; [|by apply Hw]; pose proof (Hb i j Hi Hj); lia|].
    pose proof (Hb i k Hi Hk). pose proof (Hb k j Hk Hj). split; [lia|]. eapply walk_app; by apply Hw. }
  destruct (Z.eqb_spec d m) as [Heq|Hne]; cbn.
  - eexists. split; [done|]. split; [by split|]. cbn. split; [|by left].
    intros k Hk. fold d. rewrite Heq. apply Hall. by apply in_range.
  - destruct Hcase as [|(k & Hk%in_range & -> & Hmk)]; [lia|].
    destruct (set_entry n (current_dist p) i j m Hd Hi Hj) as (D & -> & HD & Heij & Hother & Hsum). cbn.
    unfold assert_. rewrite (proj2 (Z.geb_le _ _)) by lia. cbn.
    destruct (square_row n (latencies p) i Hlat Hi) as (row & -> & Hlen). cbn.
    rewrite (proj2 (Z.ltb_lt _ _)) by lia. cbn.
    rewrite (get_entry n (latencies p) i k), (get_entry n (latencies p) k j) by done. cbn.
    destruct (set_entry n (latencies p) i j (entry (latencies p) i k + entry (latencies p) k j) Hlat Hi Hj)
      as (L & -> & HL & _). cbn.
    eexists. split; [done|]. split; [split; cbn; try done|split; cbn; [|right; fold d in Hsum; split; [lia|done]]].
    + intros i' j' Hi' Hj'. destruct (decide ((i', j') = (i, j))) as [[= -> ->]|Hn]; [by rewrite Heij|].
      rewrite Hother by done. by apply Hw.
    + intros i' j' Hi' Hj'. destruct (decide ((i', j') = (i, j))) as [[= -> ->]|Hn].
      * rewrite Heij. pose proof (Hb i j Hi Hj). unfold d in *. lia.
      * rewrite Hother by done. by apply Hb.
    + intros k' Hk'. rewrite Heij. apply Hall. by apply in_range.
Qed.

(** What has happened since the start [p0] of a sweep: either nothing, and
    the pairs done so far cannot be improved, or the sum went down. *)
Definition progress (p0 p : paths) (done_ : Z -> Z -> Prop) : Prop :=
  (current_dist p = current_dist p0 /\ change p = false /\
   forall i j k, 0 <= k < n -> done_ i j ->
     entry (current_dist p0) i j <= entry (current_dist p0) i k + entry (current_dist p0) k j) \/
  (Matrix.sum (current_dist p) < Matrix.sum (current_dist p0) /\ change p = true).

Lemma progress_step p0 p p' i j (done_ done' : Z -> Z -> Prop) :
  progress p0 p done_ ->
  (forall k, 0 <= k < n -> entry (current_dist p') i j <= entry (current_dist p) i k + entry (current_dist p) k j) ->
  ((current_dist p' = current_dist p /\ change p' = change p) \/
   (Matrix.sum (current_dist p') < Matrix.sum (current_dist p) /\ change p' = true)) ->
  (forall i' j', done' i' j' -> done_ i' j' \/ (i' = i /\ j' = j)) ->
  progress p0 p' done'.
Proof.
  intros HP Htri Hstep Hdone. destruct HP as [(HD & Hc & Hall)|[Hs Hc]], Hstep as [[HD' Hc']|[Hs' Hc']].
  - left. rewrite HD', Hc', HD. split_and!; [done|done|]. intros i' j' k Hk [Hd|[-> ->]]%Hdone; [by apply Hall|].
    rewrite <- HD at 1. rewrite <- HD' at 1. rewrite <- !HD. by apply Htri.
  - right. rewrite HD in Hs'. done.
  - right. rewrite HD', Hc'. done.
  - right. split; [lia|done].
Qed.

Lemma sweep_spec p :
  paths_ok p -> exists p', sweep p = Ok p' /\ paths_ok p' /\
    progress p p' (fun i j => 0 <= i < n /\ 0 <= j < n).
Proof.
  intros Hp. unfold sweep, Matrix.size. rewrite (proj1 (po_dist p Hp)).
  destruct (foldM_total (fun is_ q => paths_ok q /\ progress p q (fun i j => i ∈ is_ /\ 0 <= j < n))
    (fun i p => foldM (fun j p => relax i j p) (range 0 n) p) (range 0 n) (set_change false p))
    as (p' & -> & Hp' & Hprog).
  - destruct Hp. split; [by split|]. left. split_and!; [done|done|].
    intros i j k _ [Hi _]. by apply elem_of_nil in Hi.
  - intros is_ i rest q His [Hq Hprog].
    assert (0 <= i < n) as Hi by (apply in_range; rewrite His; set_solver).
    destruct (foldM_total (fun js q => paths_ok q /\
        progress p q (fun i' j' => (i' ∈ is_ /\ 0 <= j' < n) \/ (i' = i /\ j' ∈ js)))
      (fun j p => relax i j p) (range 0 n) q) as (q' & -> & Hq' & Hprog').
    + split; [done|]. destruct Hprog as [(HD & Hc & Hall)|Hr]; [left|by right].
      split_and!; [done|done|]. intros i' j' k Hk [Hd|[_ Hj']]; [by apply Hall|by apply elem_of_nil in Hj'].
    + intros js j rest' r Hjs [Hr Hpr].
      assert (0 <= j < n) as Hj by (apply in_range; rewrite Hjs; set_solver).
      destruct (relax_spec i j r Hr Hi Hj) as (r' & Hrel & Hr' & Htri & Hstep).
      exists r'. split; [done|]. split; [done|]. eapply progress_step; [exact Hpr|exact Htri|exact Hstep|].
      intros i' j'. rewrite elem_of_app, list_elem_of_singleton. tauto.
    + exists q'. split; [done|]. split; [done|].
      destruct Hprog' as [(HD & Hc & Hall)|Hr]; [left|by right]. split_and!; [done|done|].
      intros i' j' k Hk [Hi' Hj']. apply Hall; [done|].
      apply elem_of_app in Hi' as [Hi'|Hi'%list_elem_of_singleton]; [by left|right].
      split; [done|by apply in_range].
  - exists p'. split; [done|]. split; [done|]. destruct Hprog as [(HD & Hc & Hall)|Hr]; [left|by right].
    split_and!; [done|done|]. intros i j k Hk [Hi Hj]. apply Hall; [done|]. split; [by apply in_range|done].
Qed.

(** The loop ends when it has more fuel than the sum of the distances. *)
Lemma extend_loop_spec fuel p :
  paths_ok p -> Matrix.sum (current_dist p) < Z.of_nat fuel ->
  exists p', extend_loop fuel p = Ok p' /\ paths_ok p' /\
    forall i j k, 0 <= i < n -> 0 <= j < n -> 0 <= k < n ->
      entry (current_dist p') i j <= entry (current_dist p') i k + entry (current_dist p') k j.
Proof.
  revert p. induction fuel as [|fuel IH]; intros p Hp Hf.
  - pose proof (sum_nonneg n (current_dist p) (po_dist p Hp)
      (fun i j Hi Hj => proj1 (po_bound p Hp i j Hi Hj))). lia.
  - cbn. destruct (sweep_spec p Hp) as (p' & -> & Hp' & [(HD & Hc & Hall)|[Hs Hc]]); cbn; rewrite Hc.
    + exists p'. split; [done|]. split; [done|]. intros i j k Hi Hj Hk. rewrite HD. by apply Hall.
    + apply IH; [done|lia].
Qed.

End Loops.

Lemma weights_paths_ok n W lat inter b :
  weights_ok n W -> square n lat -> square n inter -> paths_ok n W (Topology.mk_paths W lat inter b).
Proof.
  intros [Hs Hd Hp] Hlat Hin. split; cbn; try done.
  - intros i j Hi Hj. by apply walk_link.
  - intros i j Hi Hj. specialize (Hp i j Hi Hj). lia.
Qed.

Lemma shortest_path_spec n W lat inter :
  weights_ok n W -> square n lat -> square n inter ->
  exists D, Topology.shortest_path W lat inter = Ok D /\ square n D /\
    (forall i j, 0 <= i < n -> 0 <= j < n ->
       shortest n W i j (entry D i j) /\ 0 <= entry D i j <= Topology.INFINITE_LATENCY).
Proof.
  intros HW Hlat Hin. unfold Topology.shortest_path, Topology.extend_shortest_path, Topology.extend_fuel.
  pose proof (weights_paths_ok n W lat inter true HW Hlat Hin) as Hp.
  pose proof (sum_nonneg n W (wo_square _ _ HW) (fun i j Hi Hj => proj1 (wo_pos _ _ HW i j Hi Hj))).
  destruct (extend_loop_spec n W (S (Z.to_nat (Matrix.sum W))) _ Hp) as (p & -> & Hp' & Htri);
    [cbn; lia|]. cbn. exists (Topology.current_dist p). split; [done|]. split; [apply Hp'|].
  intros i j Hi Hj. pose proof (po_bound _ _ _ Hp' i j Hi Hj). pose proof (wo_pos _ _ HW i j Hi Hj).
  split; [|lia]. split; [by apply Hp'|]. intros c Hw.
  eapply closed_below_walks; [| |exact Htri|exact Hw].
  - intros k Hk. pose proof (po_bound _ _ _ Hp' k k Hk Hk). pose proof (wo_diag _ _ HW k Hk). lia.
  - intros i' j' Hi' Hj'. by apply Hp'.
Qed.

(** ** Routing along shortest paths *)

Section Routing.
Context (n : Z) (W D : Matrix.t).
Hypothesis HW : weights_ok n W.
Hypothesis HD : forall i j, 0 <= i < n -> 0 <= j < n -> shortest n W i j (entry D i j).
(** Different switches have links of positive weight. *)
Hypothesis Hpos : forall i j, 0 <= i < n -> 0 <= j < n -> i <> j -> 0 < entry W i j.

(** The switches [i] has a link to. *)
Definition hooked (i j : Z) : bool :=
  (entry W i j >? 0) && negb (entry W i j =? Topology.INFINITE_LATENCY).

(** The link from [i] to [j] is on a shortest path to [d]. *)
Definition on_path (i j d : Z) : Prop := entry W i j + entry D j d = entry D i d.

Lemma walk_nonneg i j c : walk n W i j c -> 0 <= c.
Proof.
  induction 1 as [|i k j c Hi Hw IH]; [lia|].
  destruct (walk_inside _ _ _ _ _ Hw). pose proof (wo_pos _ _ HW i k Hi). lia.
Qed.

(** A link on a shortest path leads closer to the destination. *)
Lemma on_path_closer i j d : hooked i j = true -> on_path i j d -> entry D j d < entry D i d.
Proof. unfold hooked, on_path. intros Hh Ho. rewrite Z.gtb_ltb in Hh. zbool. lia. Qed.

(** A destination that can be reached is served by some link. *)
Lemma on_path_exists i d :
  0 <= i < n -> 0 <= d < n -> i <> d -> entry D i d < Topology.INFINITE_LATENCY ->
  exists j, 0 <= j < n /\ hooked i j = true /\ on_path i j d.
Proof.
  intros Hi Hd Hne Hlt.
  assert (forall i c, walk n W i d c -> c = entry D i d -> i <> d -> entry D i d < Topology.INFINITE_LATENCY ->
    exists j, 0 <= j < n /\ hooked i j = true /\ on_path i j d) as Hgen.
  { clear i Hi Hne Hlt. intros i c Hw. induction Hw as [i Hi|i k j c Hi Hw IH]; intros Hc Hne Hlt; [done|].
    destruct (walk_inside _ _ _ _ _ Hw) as [Hk _].
    destruct (HD k j Hk Hd) as [Hwk Hmin]. pose proof (Hmin _ Hw) as Hle.
    destruct (HD i j Hi Hd) as [_ Hmini].
    pose proof (Hmini _ (walk_cons n W i k j _ Hi Hwk)) as Hle'.
    destruct (decide (i = k)) as [->|Hik].
    - rewrite (wo_diag _ _ HW) in Hc by done. apply IH; [done|lia|done|done].
    - exists k. split; [done|]. unfold hooked, on_path. pose proof (Hpos i k Hi Hk Hik).
      pose proof (walk_nonneg _ _ _ Hwk). split; [|lia]. rewrite Z.gtb_ltb. apply andb_true_iff.
      split; [by apply Z.ltb_lt|]. apply negb_true_iff, Z.eqb_neq. lia. }
  destruct (HD i d Hi Hd) as [Hw _]. by eapply Hgen.
Qed.

(** Nothing serves a destination that cannot be reached. *)
Lemma on_path_reachable i j d :
  0 <= j < n -> 0 <= d < n -> (forall i j, 0 <= i < n -> 0 <= j < n -> entry D i j <= Topology.INFINITE_LATENCY) ->
  0 <= i < n -> hooked i j = true -> on_path i j d -> entry D j d < Topology.INFINITE_LATENCY.
Proof.
  intros Hj Hd Hmax Hi Hh Ho. pose proof (on_path_closer _ _ _ Hh Ho). pose proof (Hmax i d Hi Hd). lia.
Qed.

End Routing.

(** ** Routing-table entries *)

(** The number of machine [i] of type [m]. *)
Lemma node_inside mt `{!MachineTypesOk mt} m i :
  0 <= m < MachineType_NUM mt -> 0 <= i < MachineType_base_count mt m ->
  0 <= MachineType_base_number mt m + i < MachineType_base_number mt (MachineType_NUM mt).
Proof.
  intros Hm Hi. pose proof (mt_base mt m Hm). pose proof (base_number_mono mt (m + 1) (MachineType_NUM mt)).
  pose proof (base_number_mono mt 0 m). rewrite (mt_base0 mt) in *. lia.
Qed.

Section Entries.
Context (mt : MachineTypes) `{Hmt : !MachineTypesOk mt} (n : Z) (W D : Matrix.t).
Hypothesis HW : square n W.
Hypothesis HD : square n D.

Local Notation nodes := (MachineType_base_number mt (MachineType_NUM mt)).
Hypothesis Hnodes : 2 * nodes <= n.

(** The entry holds exactly the nodes the link is on a shortest path to. *)
Lemma shortest_path_to_node_spec src next :
  0 <= src < n -> 0 <= next < n ->
  exists nd, Topology.shortest_path_to_node mt src next W D = Ok nd /\ dest_wf mt nd /\
    forall m i, 0 <= m < MachineType_NUM mt -> 0 <= i < MachineType_base_count mt m ->
      member m i nd <-> on_path W D src next (nodes + (MachineType_base_number mt m + i)).
Proof.
  intros Hsrc Hnext. unfold Topology.shortest_path_to_node.
  destruct (NetDest_new_spec mt) as (nd0 & -> & Hwf0 & Hno). cbn.
  (* the machines before number [i] of type [m] *)
  pose (before := fun (m i m' i' : Z) => m' < m \/ (m' = m /\ i' < i)).
  pose (inv := fun (m i : Z) (st : NetDest.t * Z) =>
    dest_wf mt st.1 /\ st.2 = MachineType_base_number mt m + i /\
    forall m' i', 0 <= m' < MachineType_NUM mt -> 0 <= i' < MachineType_base_count mt m' ->
      member m' i' st.1 <-> before m i m' i' /\ on_path W D src next (nodes + (MachineType_base_number mt m' + i'))).
  pose proof (mt_num mt) as HN.
  pose proof (node_inside mt) as Hnode.
  destruct (foldM_range_total (fun m st => inv m 0 st)
    (fun m st => foldM (fun i '(result, d) =>
        b ← Topology.link_is_shortest_path_to_node src next (d + nodes) W D;
        result ← (if (b : bool) then NetDest.add mt (mkMachineID m i) result else Ok result);
        Ok (result, d + 1)) (range 0 (MachineType_base_count mt m)) st)
    0 (MachineType_NUM mt) (nd0, 0)) as ([nd d] & -> & Hinv); [lia| | |].
  - split_and!; [done|cbn; rewrite (mt_base0 mt); lia|]. intros m' i' Hm' Hi'. cbn.
    split; [intros Hm; by apply Hno in Hm|]. unfold before. lia.
  - intros m st Hm Hst. pose proof (mt_count mt m Hm) as Hcnt.
    destruct (foldM_range_total (fun i st => inv m i st)
      (fun i '(result, d) =>
        b ← Topology.link_is_shortest_path_to_node src next (d + nodes) W D;
        result ← (if (b : bool) then NetDest.add mt (mkMachineID m i) result else Ok result);
        Ok (result, d + 1)) 0 (MachineType_base_count mt m) st) as (st' & -> & Hst'); [lia|done| |].
    + intros i [r d] Hi (Hwf & Hd & Hmem). cbn in Hwf, Hd, Hmem. specialize (Hnode m i Hm Hi).
      unfold Topology.link_is_shortest_path_to_node.
      rewrite (get_entry n W), (get_entry n D next), (get_entry n D src) by (done || lia). cbn.
      replace (d + nodes) with (nodes + (MachineType_base_number mt m + i)) by lia.
      destruct (Z.eqb_spec (entry W src next + entry D next (nodes + (MachineType_base_number mt m + i)))
        (entry D src (nodes + (MachineType_base_number mt m + i)))) as [Heq|Hne].
      * destruct (NetDest_add_spec mt m i r Hwf Hm Hi) as (r' & -> & Hwf' & Hr'). cbn.
        eexists. split; [done|]. split_and!; [done|cbn; lia|]. intros m' i' Hm' Hi'. cbn.
        rewrite Hr' by lia. rewrite Hmem by done. unfold before.
        destruct (decide (m' = m /\ i' = i)) as [[-> ->]|Hn]; [unfold on_path; split; [lia|]; tauto|].
        split; [intros [[Hb Ho]|?]; [split; [lia|done]|tauto]|]. intros [Hb Ho]. left. split; [|done]. lia.
      * cbn. eexists. split; [done|]. split_and!; [done|cbn; lia|]. intros m' i' Hm' Hi'. cbn.
        rewrite Hmem by done. unfold before.
        destruct (decide (m' = m /\ i' = i)) as [[-> ->]|Hn]; [unfold on_path; split; [lia|]; intros [_ ?]; lia|].
        split; intros [Hb Ho]; (split; [|done]); lia.
    + exists st'. split; [done|]. destruct Hst' as (Hwf & Hd & Hmem). split_and!; [done| |].
      * rewrite Hd, (mt_base mt m Hm). lia.
      * intros m' i' Hm' Hi'. rewrite Hmem by done. unfold before.
        destruct (decide (m' = m)) as [->|Hn]; (split; intros [Hb Ho]; (split; [|done]); lia).
  - cbn. exists nd. split; [done|]. destruct Hinv as (Hwf & _ & Hmem). cbn in *. split; [done|].
    intros m i Hm Hi. rewrite Hmem by done. unfold before. split; [tauto|]. intros Ho. split; [lia|done].
Qed.

End Entries.
