(* ===== verification/TopologyRoutes.v ===== *)
(** * The routing tables of a network: theorems

    [createLinks] gives every router one output port per link of the
    component network, in the order of the switches the links lead to; the
    routing-table entry of a port holds the nodes the link is on a shortest
    path to. So a table route exists for every node that can be reached, and
    every port it may choose leads closer to the node. *)

From S2P Require Import Prelude NetDest NetDestFacts Types FlitBuffer Channels RouterCore MsgBuffer NetState Routing RoutingFacts Network Topology TopologyFacts.

Import Topology.

(** ** The weights of the links *)

(** Links join different switches and have a positive weight. *)
Definition links_ok (tp : Topology.t) : Prop :=
  forall src dst e, m_link_map tp !! (src, dst) = Some e ->
    0 <= src < 2 ^ 31 /\ 0 <= dst < 2 ^ 31 /\ src <> dst /\ 0 < BasicLink.m_weight (basic (link e)) <= INFINITE_LATENCY.

(** The weight between two switches. *)
Definition link_weight (tp : Topology.t) (i j : Z) : Z :=
  if i =? j then 0
  else match m_link_map tp !! (i, j) with
       | Some e => BasicLink.m_weight (basic (link e))
       | None => INFINITE_LATENCY
       end.

Lemma s32_small z : 0 <= z < 2 ^ 31 -> s32 z = z.
Proof. intros Hz. unfold s32. rewrite Z.mod_small; lia. Qed.

Lemma fold_max_ge (l : list (Z * Z * LinkEntry)) m :
  m <= fold_left (fun m e => Z.max (Z.max m e.1.1) e.1.2) l m.
Proof.
  revert m. induction l as [|y l IH]; intros m; cbn; [lia|].
  specialize (IH (Z.max (Z.max m y.1.1) y.1.2)). lia.
Qed.

Lemma max_switch_id_bound tp src dst e :
  m_link_map tp !! (src, dst) = Some e ->
  src <= max_switch_id tp /\ dst <= max_switch_id tp.
Proof.
  intros H%elem_of_map_to_list. unfold max_switch_id. revert H. generalize 0 as m.
  induction (map_to_list (m_link_map tp)) as [|x l IH]; intros m Hl; [by apply elem_of_nil in Hl|].
  apply elem_of_cons in Hl as [<-|Hl]; [|by apply IH]. cbn.
  pose proof (fold_max_ge l (Z.max (Z.max m src) dst)). lia.
Qed.

Lemma max_switch_id_nonneg tp : 0 <= max_switch_id tp.
Proof. apply fold_max_ge. Qed.

Section Weights.
Context (tp : Topology.t).
Hypothesis Htp : links_ok tp.
Local Notation N := (max_switch_id tp + 1).

Lemma fill_links_spec l w0 lat0 :
  (forall i j e, ((i, j), e) ∈ l -> m_link_map tp !! (i, j) = Some e) -> NoDup l.*1 ->
  square N w0 -> square N lat0 ->
  exists w lat, foldM fill_link l (w0, lat0) = Ok (w, lat) /\ square N w /\ square N lat /\
    forall i j, 0 <= i < N -> 0 <= j < N ->
      entry w i j = match list_find (fun p => p.1 = (i, j)) l with
                    | Some (_, (_, e)) => BasicLink.m_weight (basic (link e))
                    | None => entry w0 i j
                    end.
Proof.
  revert w0 lat0. induction l as [|[[src dst] e] l IH]; intros w0 lat0 Hl Hnd Hw Hlat.
  { exists w0, lat0. done. }
  cbn in Hnd. apply NoDup_cons in Hnd as [Hni Hnd].
  assert (m_link_map tp !! (src, dst) = Some e) as He by (apply Hl; left).
  destruct (Htp _ _ _ He) as (Hs & Hd & _). destruct (max_switch_id_bound _ _ _ _ He).
  destruct (set_entry N lat0 src dst (BasicLink.m_latency (basic (link e)))) as (lat1 & E1 & Hlat1 & _); [done|lia|lia|].
  destruct (set_entry N w0 src dst (BasicLink.m_weight (basic (link e)))) as (w1 & E2 & Hw1 & Heq & Hne & _); [done|lia|lia|].
  destruct (IH w1 lat1) as (w & lat & Hf & Hsw & Hslat & Hent); [|done|done|done|].
  { intros i j e' He'. apply Hl. by right. }
  exists w, lat. cbn [foldM fill_link fst snd]. rewrite (s32_small src), (s32_small dst) by lia. rewrite E1. cbn. rewrite E2. cbn. rewrite Hf.
  split_and!; [done|done|done|]. intros i j Hi Hj. rewrite Hent by done. cbn.
  destruct (decide ((src, dst) = (i, j))) as [[= -> ->]|Hn].
  - assert (list_find (fun p : Z * Z * LinkEntry => p.1 = (i, j)) l = None) as ->.
    { apply list_find_None, Forall_forall. intros [k e'] Hk Heqk. cbn in Heqk. subst. apply Hni.
      by apply (list_elem_of_fmap_2 fst l (i, j, e')). }
    done.
  - assert (entry w1 i j = entry w0 i j) as Hw1' by (apply Hne; [done|done|congruence]).
    destruct (list_find (fun p : Z * Z * LinkEntry => p.1 = (i, j)) l) as [[k [p e']]|]; cbn; done.
Qed.

Lemma topology_weights_spec :
  exists w lat, topology_weights tp = Ok (w, lat) /\ square N w /\ square N lat /\
    forall i j, 0 <= i < N -> 0 <= j < N -> entry w i j = link_weight tp i j.
Proof.
  pose proof (max_switch_id_nonneg tp) as HN. unfold topology_weights.
  destruct (foldM_range_total (fun k m => square N m /\ forall i j, 0 <= i < N -> 0 <= j < N ->
      entry m i j = if (i =? j) && (i <? k) then 0 else INFINITE_LATENCY)
    (fun i m => Matrix.set i i 0 m) 0 N (Matrix.fill N INFINITE_LATENCY)) as (w0 & -> & Hw0 & Hent0).
  - lia.
  - split; [apply fill_square; lia|]. intros i j Hi Hj. rewrite fill_entry by done.
    rewrite (proj2 (Z.ltb_ge _ _)) by lia. by rewrite andb_false_r.
  - intros k m Hk [Hm Hent]. destruct (set_entry N m k k 0 Hm Hk Hk) as (m' & -> & Hm' & Heq & Hne & _).
    exists m'. split; [done|]. split; [done|]. intros i j Hi Hj.
    destruct (decide ((i, j) = (k, k))) as [[= -> ->]|Hn].
    + rewrite Heq, Z.eqb_refl, (proj2 (Z.ltb_lt _ _)) by lia. done.
    + rewrite Hne, Hent by done. destruct (Z.eqb_spec i j) as [->|]; cbn; [|done].
      destruct (Z.ltb_spec j k), (Z.ltb_spec j (k + 1)); [done|lia| |done].
      exfalso. apply Hn. f_equal; lia.
  - cbn. destruct (fill_links_spec (map_to_list (m_link_map tp)) w0 (Matrix.fill N (-1)))
      as (w & lat & -> & Hw & Hlat & Hent).
    + intros i j e. apply elem_of_map_to_list.
    + apply NoDup_fst_map_to_list.
    + done.
    + apply fill_square. lia.
    + exists w, lat. split_and!; [done|done|done|]. intros i j Hi Hj. rewrite Hent by done. unfold link_weight.
      destruct (list_find _ _) as [[k [p e]]|] eqn:Hf.
      * apply list_find_Some in Hf as (Hk & Hp & _). cbn in Hp. subst p.
        apply list_elem_of_lookup_2, elem_of_map_to_list in Hk. rewrite Hk.
        destruct (Htp _ _ _ Hk) as (_ & _ & Hne & _). by rewrite (proj2 (Z.eqb_neq _ _)).
      * rewrite Hent0 by done. rewrite (proj2 (Z.ltb_lt _ _)) by lia. rewrite andb_true_r.
        destruct (Z.eqb_spec i j); [done|]. destruct (m_link_map tp !! (i, j)) as [e|] eqn:He; [|done].
        apply elem_of_map_to_list in He. apply list_find_None in Hf. rewrite Forall_forall in Hf.
        by destruct (Hf _ He).
Qed.

(** The weights are as the shortest paths need them. *)
Lemma link_weights_ok w :
  square N w -> (forall i j, 0 <= i < N -> 0 <= j < N -> entry w i j = link_weight tp i j) ->
  weights_ok N w /\ forall i j, 0 <= i < N -> 0 <= j < N -> i <> j -> 0 < entry w i j.
Proof.
  intros Hw Hent.
  assert (forall i j, i <> j -> 0 < link_weight tp i j <= INFINITE_LATENCY) as Hpos.
  { intros i j Hne. unfold link_weight. rewrite (proj2 (Z.eqb_neq _ _)) by done.
    destruct (m_link_map tp !! (i, j)) as [e|] eqn:He; [by destruct (Htp _ _ _ He) as (_ & _ & _ & ?)|done]. }
  split; [split; [done| |]|].
  - intros i Hi. rewrite Hent by done. unfold link_weight. by rewrite Z.eqb_refl.
  - intros i j Hi Hj. rewrite Hent by done. destruct (decide (i = j)) as [->|Hne].
    + unfold link_weight. rewrite Z.eqb_refl. done.
    + specialize (Hpos i j Hne). lia.
  - intros i j Hi Hj Hne. rewrite Hent by done. by apply Hpos.
Qed.

End Weights.

(** ** What hooking up a link changes *)

(** The part of a router the routes depend on: its number, its routing and
    weight tables and the links of its output ports. *)
Record router_view := mk_view {
  rv_id : Z;
  rv_table : list NetDest.t;
  rv_weights : list Z;
  rv_links : list Z
}.

Definition view_of (r : Router.t) : router_view :=
  mk_view (Router.m_id r) (RoutingUnit.m_routing_table (Router.m_routing_unit r))
    (RoutingUnit.m_weight_table (Router.m_routing_unit r))
    (map OutputUnit.m_out_link (Router.m_output_unit r)).

Definition views (n : Net.t) : list router_view := map view_of (Net.m_routers n).

(** Who is woken by each flit link. *)
Definition consumers (n : Net.t) : list (option consumer) :=
  map NetworkLink.link_consumer (Net.net_links n).

Definition add_port (nd : NetDest.t) (w l : Z) (v : router_view) : router_view :=
  mk_view (rv_id v) (rv_table v ++ [nd]) (rv_weights v ++ [w]) (rv_links v ++ [l]).

Lemma upd_router_views id f n n' :
  Net.upd_router id f n = Ok n' ->
  exists r r', vec_at (Net.m_routers n) id = Ok r /\ f r = Ok r' /\
    views n' = <[Z.to_nat id := view_of r']> (views n) /\ consumers n' = consumers n /\
    views n !! Z.to_nat id = Some (view_of r).
Proof.
  unfold Net.upd_router. intros H. inv_bind H. simplify_res.
  apply vec_upd_inv in E as (r & r' & Hr & Hf & ->). exists r, r'. split_and!; [done|done| |done|].
  - unfold views. cbn. change (map view_of) with (fmap (M := list) view_of). apply list_fmap_insert.
  - apply vec_at_Ok in Hr as [_ Hr]. unfold views. change (map view_of) with (fmap (M := list) view_of).
    by rewrite list_lookup_fmap, Hr.
Qed.

Lemma upd_net_link_views id f n n' :
  Links.upd_net_link id f n = Ok n' ->
  exists l, Net.net_links n !! Z.to_nat id = Some l /\ 0 <= id /\ views n' = views n /\
    (Z.to_nat id < length (consumers n))%nat /\ consumers n' = <[Z.to_nat id := NetworkLink.link_consumer (f l)]> (consumers n).
Proof.
  unfold Links.upd_net_link. intros H. inv_bind H. simplify_res.
  apply vec_upd_inv in E as (l & l' & Hl & Hf & ->). simplify_res.
  apply vec_at_Ok in Hl as [Hi Hl]. exists l. split_and!; [done|done|done| |].
  { unfold consumers. rewrite length_map. by eapply lookup_lt_Some. }
  unfold consumers. cbn. change (map NetworkLink.link_consumer) with (fmap (M := list) NetworkLink.link_consumer).
  apply list_fmap_insert.
Qed.

Lemma upd_net_link_keep id f n n' :
  (forall l, NetworkLink.link_consumer (f l) = NetworkLink.link_consumer l) ->
  Links.upd_net_link id f n = Ok n' -> views n' = views n /\ consumers n' = consumers n.
Proof.
  intros Hf H. apply upd_net_link_views in H as (l & Hl & _ & Hv & _ & Hc). split; [done|].
  rewrite Hc, Hf. apply list_insert_id. unfold consumers.
  change (map NetworkLink.link_consumer) with (fmap (M := list) NetworkLink.link_consumer).
  by rewrite list_lookup_fmap, Hl.
Qed.

Lemma upd_credit_link_views id f n n' :
  Links.upd_credit_link id f n = Ok n' -> views n' = views n /\ consumers n' = consumers n.
Proof. unfold Links.upd_credit_link. intros H. inv_bind H. by simplify_res. Qed.

Lemma upd_ni_views i f n n' :
  Links.upd_ni i f n = Ok n' -> views n' = views n /\ consumers n' = consumers n.
Proof. unfold Links.upd_ni. intros H. inv_bind H. by simplify_res. Qed.

(** An input port of router [id]: its link wakes the router. *)
Lemma router_addInPort_views id d l cl n n' :
  Build.router_addInPort id d l cl n = Ok n' ->
  exists v, views n !! Z.to_nat id = Some v /\ 0 <= id /\ 0 <= l /\ views n' = views n /\
    (Z.to_nat l < length (consumers n))%nat /\ consumers n' = <[Z.to_nat l := Some (CRouter (rv_id v))]> (consumers n).
Proof.
  unfold Build.router_addInPort. intros H. inv_bind H. rename a into r. inv_bind H. rename a into n1.
  inv_bind H. rename a into n2. pose proof (vec_at_inside _ _ _ E) as [Hid _].
  apply upd_net_link_views in E0 as (x & _ & Hl & V1 & L1 & C1). cbn in C1.
  apply upd_credit_link_views in E1 as [V2 C2].
  apply upd_router_views in H as (r1 & r2 & Hr1 & Hr2 & V3 & C3 & Hv). simplify_res.
  exists (view_of r). split_and!; [|done|done| |done|].
  - apply vec_at_Ok in E as [_ E]. unfold views. change (map view_of) with (fmap (M := list) view_of).
    by rewrite list_lookup_fmap, E.
  - rewrite V3, <- V1, <- V2. by apply list_insert_id.
  - by rewrite C3, C2, C1.
Qed.

(** An output port of router [id]: a new entry in its tables. *)
Lemma router_addOutPort_views id d l nd w cl n n' :
  Build.router_addOutPort id d l nd w cl n = Ok n' ->
  exists v, views n !! Z.to_nat id = Some v /\ 0 <= id /\
    views n' = <[Z.to_nat id := add_port nd w l v]> (views n) /\ consumers n' = consumers n.
Proof.
  unfold Build.router_addOutPort. intros H. inv_bind H. inv_bind H. rename a0 into n1.
  inv_bind H. rename a0 into n2. pose proof (vec_at_inside _ _ _ E) as [Hid _].
  apply upd_credit_link_views in E0 as [V1 C1]. apply upd_net_link_keep in E1 as [V2 C2]; [|done].
  apply upd_router_views in H as (r1 & r2 & Hr1 & Hr2 & V3 & C3 & Hv).
  exists (view_of r1). rewrite V3, V2, V1, C3, C2, C1. rewrite V2, V1 in Hv. split_and!; [done|done| |done].
  f_equal. unfold Router.addOutPort in Hr2. inv_bind Hr2. simplify_res.
  unfold view_of, add_port. cbn. by rewrite map_app.
Qed.

(** The flit link of an entry and the consumer at the switch it leads to. *)
Definition flit_link (nodes src : Z) (e : LinkEntry) : Z :=
  match link e with
  | GarnetExtLink _ net_in net_out _ _ => if src <? nodes then net_in else net_out
  | GarnetIntLink _ l _ => l
  | _ => -1
  end.

(** The object at switch [dest], where routers have the numbers [ids]. *)
Definition ends_at (nodes dest : Z) (ids : list Z) (c : consumer) : Prop :=
  if dest <? 2 * nodes then nodes <= dest /\ c = CNetworkInterface (dest - nodes)
  else exists id, ids !! Z.to_nat (dest - 2 * nodes) = Some id /\ c = CRouter id.

Definition ids (n : Net.t) : list Z := map rv_id (views n).

Lemma ids_lookup n k v : views n !! k = Some v -> ids n !! k = Some (rv_id v).
Proof.
  intros H. unfold ids. change (map rv_id) with (fmap (M := list) rv_id). by rewrite list_lookup_fmap, H.
Qed.

Lemma add_port_ids k nd w l v n n' :
  views n !! k = Some v -> views n' = <[k := add_port nd w l v]> (views n) -> ids n' = ids n.
Proof. intros Hv Hn. unfold ids. rewrite Hn. by eapply map_insert_same. Qed.

(** Recording a link in the lists of links changes no view. *)
Ltac drop_push :=
  repeat match goal with
  | H : context [views (Build.push_links ?a ?b ?n)] |- _ => change (views (Build.push_links a b n)) with (views n) in H
  | H : context [consumers (Build.push_links ?a ?b ?n)] |- _ =>
      change (consumers (Build.push_links a b n)) with (consumers n) in H
  end.

Lemma makeLink_views src dest nd tp n n' :
  0 <= m_nodes tp -> makeLink src dest nd tp n = Ok n' ->
  let nodes := m_nodes tp in
  exists e c, m_link_map tp !! (src, dest) = Some e /\ ends_at nodes dest (ids n) c /\ ids n' = ids n /\
    0 <= flit_link nodes src e /\ (Z.to_nat (flit_link nodes src e) < length (consumers n))%nat /\
    consumers n' = <[Z.to_nat (flit_link nodes src e) := Some c]> (consumers n) /\
    ((src < nodes /\ views n' = views n) \/
     exists v, 2 * nodes <= src /\ views n !! Z.to_nat (src - 2 * nodes) = Some v /\
       views n' = <[Z.to_nat (src - 2 * nodes) :=
                     add_port nd (BasicLink.m_weight (basic (link e))) (flit_link nodes src e) v]> (views n)).
Proof.
  intros Hn H nodes. fold nodes in Hn. unfold makeLink in H. cbn [makeExtInLink makeExtOutLink makeInternalLink GarnetNetwork_ops] in H. fold nodes in H. inv_bind H.
  unfold assert_ in E. destruct (_ || _) eqn:Hor; [|done]. clear E. unfold entry_of in H.
  destruct (m_link_map tp !! (src, dest)) as [a0|] eqn:He; cbn [mbind Res_bind] in H.
  2:{ destruct (src <? nodes); [done|]. destruct (dest <? 2 * nodes); by inv_bind H. }
  exists a0.
  unfold ends_at, flit_link, basic. destruct (Z.ltb_spec src nodes) as [Hs|Hs].
  - destruct (link a0) as [b ni no ci co| | |]; [|done..].
    unfold Build.makeExtInLink, Build.ni_addOutPort in H. inv_bind H. inv_bind H. inv_bind H.
    apply upd_net_link_keep in E0 as [V1 C1]; [|done].
    apply router_addInPort_views in E1 as (v & Hv & Hid & Hl & V2 & L2 & C2).
    inv_bind H. apply upd_credit_link_views in E0 as [V3 C3]. inv_bind H. apply upd_ni_views in E0 as [V4 C4].
    apply upd_net_link_keep in H as [V5 C5]; [|done].
    drop_push. rewrite !Z.geb_leb in Hor. apply orb_true_iff in Hor as [Hor|Hor]; zbool; [lia|].
    rewrite (proj2 (Z.ltb_ge dest _)) by lia. exists (CRouter (rv_id v)).
    assert (views n' = views n) as Hvv by congruence. rewrite V1 in Hv.
    split_and!; [done|exists (rv_id v); split; [by apply ids_lookup|done]|unfold ids; by rewrite Hvv|done|congruence|congruence|by left].
  - rewrite !Z.geb_leb in Hor. destruct (Z.ltb_spec dest (2 * nodes)) as [Hd|Hd].
    + assert (2 * nodes <= src) as Hsrc.
      { apply orb_true_iff in Hor as [Hor|Hor]; zbool; lia. }
      inv_bind H. unfold assert_ in E. destruct (dest >=? nodes) eqn:Hge; [|done]. rewrite Z.geb_leb in Hge. zbool.
      destruct (link a0) as [b ni no ci co| | |]; [|done..].
      unfold Build.makeExtOutLink, Build.ni_addInPort in H. inv_bind H. inv_bind H. inv_bind H. inv_bind H.
      apply upd_net_link_keep in E2 as [V1 C1]; [|done].
      apply router_addOutPort_views in E3 as (v & Hv & Hid & V2 & C2).
      inv_bind H. apply upd_ni_views in E2 as [V3 C3]. inv_bind H.
      apply upd_net_link_views in E2 as (x & _ & Hl & V4 & L4 & C4). cbn in C4.
      apply upd_credit_link_views in H as [V5 C5].
      drop_push. rewrite V1 in Hv. assert (views n' = <[Z.to_nat (src - 2 * nodes) :=
        add_port nd (BasicLink.m_weight b) no v]> (views n)) as Hvv by congruence.
      exists (CNetworkInterface (dest - nodes)).
      split_and!; [done|done|done|by eapply add_port_ids|done|congruence|congruence|right; by exists v].
    + inv_bind H. unfold assert_ in E. destruct (_ && _) eqn:Hand; [|done]. rewrite !Z.geb_leb in Hand. zbool.
      destruct (link a0) as [|b l cl| |]; [done| |done..].
      unfold Build.makeInternalLink in H. inv_bind H. inv_bind H.
      apply upd_net_link_keep in E0 as [V1 C1]; [|done].
      apply router_addInPort_views in E1 as (v & Hv & Hid & Hl & V2 & L2 & C2).
      apply router_addOutPort_views in H as (v' & Hv' & Hid' & V3 & C3).
      drop_push. exists (CRouter (rv_id v)). rewrite V1 in Hv. rewrite V2, V1 in Hv'.
      assert (views n' = <[Z.to_nat (src - 2 * nodes) :=
        add_port nd (BasicLink.m_weight b) l v']> (views n)) as Hvv by congruence.
      split_and!; [done|exists (rv_id v); split; [by apply ids_lookup|done]|by eapply add_port_ids|done
                  |congruence|congruence|right; by exists v'].
Qed.

(** ** The tables [createLinks] leaves *)

Section Tables.
Context (mt : MachineTypes) (tp : Topology.t) (W D : Matrix.t) (N : Z).
Local Notation nodes := (m_nodes tp).
Hypothesis Hnodes : 0 <= nodes.
Hypothesis HW : square N W.
Hypothesis Hweight : forall i j, 0 <= i < N -> 0 <= j < N -> entry W i j = link_weight tp i j.

(** No two links share a flit link. *)
Hypothesis Hdistinct : forall k1 k2 e1 e2,
  m_link_map tp !! k1 = Some e1 -> m_link_map tp !! k2 = Some e2 ->
  Z.to_nat (flit_link nodes k1.1 e1) = Z.to_nat (flit_link nodes k2.1 e2) -> k1 = k2.

(** The switches below [lim] that [i] has links to. *)
Definition out_switches (i lim : Z) : list Z := filter (fun j => hooked W i j = true) (range 0 lim).

Lemma out_switches_snoc i j :
  0 <= j -> out_switches i (j + 1) = out_switches i j ++ (if hooked W i j then [j] else []).
Proof.
  intros Hj. unfold out_switches. rewrite range_snoc, filter_app by lia. f_equal. cbn.
  by destruct (hooked W i j).
Qed.

(** The port of [i] towards [j] with its table entry, weight and flit link,
    whose consumer is the object at [j]. *)
Definition port_entry (i : Z) (j : Z) (nd : NetDest.t) : Prop :=
  shortest_path_to_node mt i j W D = Ok nd.

Definition port_link (is_ : list Z) (cs : list (option consumer)) (i j l : Z) : Prop :=
  exists e c, m_link_map tp !! (i, j) = Some e /\ l = flit_link nodes i e /\ 0 <= l /\
    cs !! Z.to_nat l = Some (Some c) /\ ends_at nodes j is_ c.

Record ports_ok (n : Net.t) (i lim : Z) (v : router_view) : Prop := {
  pk_table : Forall2 (port_entry i) (out_switches i lim) (rv_table v);
  pk_weights : rv_weights v = map (entry W i) (out_switches i lim);
  pk_links : Forall2 (port_link (ids n) (consumers n) i) (out_switches i lim) (rv_links v)
}.

(** The loops have done the pairs before (i, j). *)
Definition limit (i j s : Z) : Z := if s <? i then N else if s =? i then j else 0.

Definition tables_ok (i j : Z) (n : Net.t) : Prop :=
  forall r v, views n !! r = Some v ->
    ports_ok n (2 * nodes + Z.of_nat r) (limit i j (2 * nodes + Z.of_nat r)) v.

Lemma port_link_keep n n' i j s j' l e c :
  m_link_map tp !! (i, j) = Some e -> ids n' = ids n ->
  consumers n' = <[Z.to_nat (flit_link nodes i e) := Some c]> (consumers n) ->
  (s, j') <> (i, j) ->
  port_link (ids n) (consumers n) s j' l -> port_link (ids n') (consumers n') s j' l.
Proof.
  intros He Hids Hc Hne (e' & c' & He' & -> & Hl & Hc' & Hend). exists e', c'.
  rewrite Hids, Hc. split_and!; [done|done|done| |done].
  rewrite list_lookup_insert_ne; [done|]. intros Heq. apply Hne. symmetry.
  by apply (Hdistinct _ _ _ _ He He').
Qed.

Lemma out_switches_elem i lim j : j ∈ out_switches i lim <-> hooked W i j = true /\ 0 <= j < lim.
Proof. unfold out_switches. by rewrite list_elem_of_filter, in_range. Qed.

Lemma ports_ok_keep n n' i j s lim v e c :
  m_link_map tp !! (i, j) = Some e -> ids n' = ids n ->
  consumers n' = <[Z.to_nat (flit_link nodes i e) := Some c]> (consumers n) ->
  (s = i -> lim <= j) -> ports_ok n s lim v -> ports_ok n' s lim v.
Proof.
  intros He Hids Hc Hlim [Ht Hws Hl]. split; [done|done|].
  eapply Forall2_impl_elem; [exact Hl|]. intros j' l [_ Hj']%out_switches_elem Hp.
  eapply port_link_keep; [exact He|done|done| |exact Hp].
  intros [= -> ->]. specialize (Hlim eq_refl). lia.
Qed.

Lemma hooked_link i j : 0 <= i < N -> 0 <= j < N -> hooked W i j = true ->
  exists e, m_link_map tp !! (i, j) = Some e /\ BasicLink.m_weight (basic (link e)) = entry W i j.
Proof.
  intros Hi Hj Hh. unfold hooked in Hh. rewrite Hweight in * by done. unfold link_weight in *.
  destruct (i =? j); [done|]. destruct (m_link_map tp !! (i, j)) as [e|]; [by exists e|done].
Qed.

Lemma limit_at i j s : limit i j s = (if s <? i then N else if s =? i then j else 0).
Proof. done. Qed.

(** One pair of switches. *)
Lemma hookup_tables i j n n' :
  0 <= i < N -> 0 <= j < N -> tables_ok i j n -> hookup mt tp W D i j n = Ok n' ->
  tables_ok i (j + 1) n' /\ ids n' = ids n.
Proof.
  intros Hi Hj Hok H. unfold hookup in H. rewrite (get_entry N) in H by done. cbn in H.
  fold (hooked W i j) in H. destruct (hooked W i j) eqn:Hh.
  2:{ simplify_res. split; [|done]. intros r v Hv. specialize (Hok r v Hv).
      unfold limit in *. destruct (_ <? i); [done|].
      destruct (Z.eqb_spec (2 * nodes + Z.of_nat r) i) as [Heq|]; [|done]. rewrite Heq in *.
      destruct Hok as [H1 H2 H3]. split; rewrite out_switches_snoc, Hh, app_nil_r by lia; done. }
  inv_bind H. rename a into nd. destruct (hooked_link i j Hi Hj Hh) as (e0 & He0 & Hw0).
  apply makeLink_views in H as (e & c & He & Hend & Hids & Hl & Hlen & Hc & Hcase); [|done].
  rewrite He0 in He. injection He as <-. split; [|done].
  intros r v Hv. set (s := 2 * nodes + Z.of_nat r).
  destruct Hcase as [[Hs Hvs]|(v0 & Hs & Hv0 & Hvs)].
  - rewrite Hvs in Hv. specialize (Hok r v Hv). fold s in Hok.
    replace (limit i (j + 1) s) with (limit i j s)
      by (unfold limit, s; destruct (Z.eqb_spec (2 * nodes + Z.of_nat r) i); [lia|done]).
    eapply ports_ok_keep; [exact He0|done|exact Hc|unfold s; lia|exact Hok].
  - rewrite Hvs in Hv. destruct (decide (r = Z.to_nat (i - 2 * nodes))) as [->|Hr].
    + rewrite list_lookup_insert_eq in Hv by (by eapply lookup_lt_Some). injection Hv as <-.
      assert (s = i) as Hsi by (unfold s; lia). rewrite Hsi. specialize (Hok _ _ Hv0).
      replace (2 * nodes + Z.of_nat (Z.to_nat (i - 2 * nodes))) with i in Hok by lia.
      unfold limit in *. rewrite Z.ltb_irrefl, Z.eqb_refl in *.
      eapply (ports_ok_keep n n') in Hok; [|exact He0|done|exact Hc|lia]. destruct Hok as [H1 H2 H3].
      split; rewrite out_switches_snoc, Hh by lia; cbn.
      * apply Forall2_app; [done|]. by constructor.
      * rewrite map_app, H2. cbn. by rewrite Hw0.
      * apply Forall2_app; [done|]. constructor; [|done]. exists e0, c. rewrite Hc, Hids.
        split_and!; [done|done|done|by apply list_lookup_insert_eq|done].
    + rewrite list_lookup_insert_ne in Hv by done. specialize (Hok r v Hv). fold s in Hok.
      assert (s <> i) by (unfold s; lia).
      replace (limit i (j + 1) s) with (limit i j s)
        by (unfold limit; destruct (Z.eqb_spec s i); [lia|done]).
      eapply ports_ok_keep; [exact He0|done|exact Hc|lia|exact Hok].
Qed.

Lemma hookup_all_tables n n' :
  0 <= N -> tables_ok 0 0 n ->
  foldM (fun i n => row ← vec_at W i; foldM (hookup mt tp W D i) (range 0 (zlen row)) n)
    (range 0 (Matrix.size W)) n = Ok n' ->
  tables_ok N 0 n' /\ ids n' = ids n.
Proof.
  intros HN Hok. unfold Matrix.size. rewrite (proj1 HW).
  apply (foldM_range_inv (fun i m => tables_ok i 0 m /\ ids m = ids n)); [done|done|].
  intros i m m' Hi [Hm Hids] H. destruct (square_row N W i HW Hi) as (row & Hrow & Hlen).
  rewrite Hrow in H. cbn in H. rewrite Hlen in H.
  apply (foldM_range_inv (fun j m => tables_ok i j m /\ ids m = ids n)) in H; [|lia|done|].
  - destruct H as [Hm' Hids']. split; [|done]. intros r v Hv. specialize (Hm' r v Hv).
    replace (limit (i + 1) 0 (2 * nodes + Z.of_nat r)) with (limit i N (2 * nodes + Z.of_nat r)); [done|].
    unfold limit. destruct (Z.ltb_spec (2 * nodes + Z.of_nat r) i), (Z.ltb_spec (2 * nodes + Z.of_nat r) (i + 1)),
      (Z.eqb_spec (2 * nodes + Z.of_nat r) i), (Z.eqb_spec (2 * nodes + Z.of_nat r) (i + 1)); lia.
  - intros j m1 m2 Hj [Hm1 Hids1] Hh. destruct (hookup_tables i j m1 m2 Hi Hj Hm1 Hh). split; [done|congruence].
Qed.

End Tables.

(** ** Table routes *)

Lemma foldM_range_ok {S} (f : Z -> S -> Res S) hi s :
  0 <= hi -> (forall i s1, 0 <= i < hi -> exists s2, f i s1 = Ok s2) ->
  exists s', foldM f (range 0 hi) s = Ok s'.
Proof.
  intros Hhi Hf. destruct (foldM_range_total (fun _ _ => True) f 0 hi s) as (s' & Hs & _); [done|done| |by exists s'].
  intros i s1 Hi _. destruct (Hf i s1 Hi) as [s2 Hs]. by exists s2.
Qed.

(** The routing table yields a route when an entry of it serves the
    destination. *)
Lemma pref_outport_total dest ru :
  zlen (RoutingUnit.m_weight_table ru) = zlen (RoutingUnit.m_routing_table ru) ->
  Forall (fun w => w <= INFINITE_) (RoutingUnit.m_weight_table ru) ->
  (forall q, 0 <= q < zlen (RoutingUnit.m_routing_table ru) -> exists b, Route.serves dest q ru = Ok b) ->
  (exists q, 0 <= q < zlen (RoutingUnit.m_routing_table ru) /\ serves dest ru q) ->
  exists ports, Route.lookupRoutingTable_pref_outport dest ru = Ok ports /\ ports <> [] /\
    forall q, q ∈ ports -> 0 <= q < zlen (RoutingUnit.m_routing_table ru) /\ serves dest ru q.
Proof.
  intros Hlen Hmax Htot (q0 & Hq0 & Hs0).
  assert (0 <= zlen (RoutingUnit.m_routing_table ru)) as Hz by (unfold zlen; lia).
  assert (exists m, Route.min_weight dest ru = Ok m) as [m Hm].
  { unfold Route.min_weight. apply foldM_range_ok; [done|].
    intros q s1 Hq. cbn. destruct (Htot q Hq) as [b ->]. cbn. destruct b; [|by eexists].
    destruct (vec_at_total (RoutingUnit.m_weight_table ru) q) as [w ->]; [lia|]. by eexists. }
  assert (exists l, Route.candidates dest m ru = Ok l) as [l Hl].
  { unfold Route.candidates. apply foldM_range_ok; [done|].
    intros q s1 Hq. cbn. destruct (Htot q Hq) as [b ->]. cbn. destruct b; [|by eexists].
    destruct (vec_at_total (RoutingUnit.m_weight_table ru) q) as [w ->]; [lia|]. by eexists. }
  pose proof (candidates_spec dest ru m l Hl) as Hc.
  destruct (min_weight_spec dest ru m Hm) as (Hm1 & Hm2 & Hm3).
  assert (exists q, q ∈ l) as [q Hq].
  { destruct Hm3 as [Hinf|(q & Hq & Hs & Hw)]; [|exists q; by apply Hc].
    exists q0. apply Hc. split; [done|split; [done|]].
    destruct (vec_at_total (RoutingUnit.m_weight_table ru) q0) as [w Hw]; [lia|]. unfold weight.
    specialize (Hm2 q0 w Hq0 Hs0 Hw). rewrite Hw. f_equal.
    apply vec_at_Ok in Hw as [_ Hw]. eapply Forall_lookup_1 in Hmax; [|exact Hw]. cbn in Hmax. lia. }
  exists l. unfold Route.lookupRoutingTable_pref_outport. rewrite Hm. cbn. rewrite Hl. cbn.
  destruct l as [|x l]; [by apply elem_of_nil in Hq|].
  split_and!; [done|done|]. intros q' Hq'. apply Hc in Hq'. tauto.
Qed.

(** The topology has one interface per node; an interface's side into the
    network only sends, its side out of it only receives, and no two links
    share a flit link. *)
Record topology_ok (mt : MachineTypes) (tp : Topology.t) : Prop := {
  to_links : links_ok tp;
  to_nodes : m_nodes tp = MachineType_base_number mt (MachineType_NUM mt);
  to_switches : 2 * m_nodes tp <= max_switch_id tp + 1;
  to_shape : forall src dst e, m_link_map tp !! (src, dst) = Some e ->
    (src < m_nodes tp \/ 2 * m_nodes tp <= src) /\ m_nodes tp <= dst;
  to_distinct : forall k1 k2 e1 e2,
    m_link_map tp !! k1 = Some e1 -> m_link_map tp !! k2 = Some e2 ->
    Z.to_nat (flit_link (m_nodes tp) k1.1 e1) = Z.to_nat (flit_link (m_nodes tp) k2.1 e2) -> k1 = k2
}.

(** The routers have no ports yet. *)
Definition fresh (n : Net.t) : Prop :=
  Forall (fun v => rv_table v = [] /\ rv_weights v = [] /\ rv_links v = []) (views n).

(** A path over the links of the topology, with the sum of their weights;
    the distance is the weight of the cheapest path. *)
Inductive link_path (tp : Topology.t) : Z -> Z -> Z -> Prop :=
  | path_nil i : link_path tp i i 0
  | path_cons i k j c e : m_link_map tp !! (i, k) = Some e -> link_path tp k j c ->
      link_path tp i j (BasicLink.m_weight (basic (link e)) + c).

Definition distance (tp : Topology.t) (i j d : Z) : Prop :=
  link_path tp i j d /\ forall c, link_path tp i j c -> d <= c.

Section Distance.
Context (tp : Topology.t) (W : Matrix.t).
Hypothesis Htp : links_ok tp.
Local Notation N := (max_switch_id tp + 1).
Hypothesis HW : square N W.
Hypothesis Hweight : forall i j, 0 <= i < N -> 0 <= j < N -> entry W i j = link_weight tp i j.

Lemma link_inside i j e : m_link_map tp !! (i, j) = Some e -> 0 <= i < N /\ 0 <= j < N.
Proof.
  intros He. destruct (Htp _ _ _ He) as (? & ? & _). destruct (max_switch_id_bound _ _ _ _ He). lia.
Qed.

Lemma link_entry i j e :
  m_link_map tp !! (i, j) = Some e -> entry W i j = BasicLink.m_weight (basic (link e)).
Proof.
  intros He. destruct (link_inside _ _ _ He). rewrite Hweight by done. unfold link_weight.
  destruct (Htp _ _ _ He) as (_ & _ & Hne & _). by rewrite (proj2 (Z.eqb_neq _ _)), He.
Qed.

Lemma link_path_walk i j c : link_path tp i j c -> 0 <= j < N -> walk N W i j c.
Proof.
  induction 1 as [i|i k j c e He Hp IH]; intros Hj; [by constructor|].
  rewrite <- (link_entry _ _ _ He). constructor; [by destruct (link_inside _ _ _ He)|by apply IH].
Qed.

Lemma walk_link_path i j c : walk N W i j c -> c < INFINITE_LATENCY -> link_path tp i j c.
Proof.
  destruct (link_weights_ok tp Htp W HW Hweight) as [Hok _].
  induction 1 as [i Hi|i k j c Hi Hw IH]; intros Hc; [constructor|].
  destruct (walk_inside _ _ _ _ _ Hw) as [Hk _]. pose proof (walk_nonneg N W Hok _ _ _ Hw).
  pose proof (wo_pos _ _ Hok i k Hi Hk). revert Hc. rewrite Hweight in * by done. unfold link_weight in *.
  destruct (Z.eqb_spec i k) as [->|Hne]; intros Hc; [rewrite Z.add_0_l; apply IH; lia|].
  destruct (m_link_map tp !! (i, k)) as [e|] eqn:He; [|lia].
  apply (path_cons _ i k j c e); [done|apply IH; lia].
Qed.

Lemma shortest_distance i j d :
  0 <= j < N -> d < INFINITE_LATENCY -> shortest N W i j d <-> distance tp i j d.
Proof.
  intros Hj Hd. unfold shortest, distance. split; intros [Hw Hmin].
  - split; [by apply walk_link_path|]. intros c Hc. apply Hmin. by apply link_path_walk.
  - split; [by apply link_path_walk|]. intros c Hc. destruct (Z.lt_ge_cases c INFINITE_LATENCY); [|lia].
    apply Hmin. by apply walk_link_path.
Qed.

Lemma path_starts_inside i j c : link_path tp i j c -> i <> j -> 0 <= i < N.
Proof. destruct 1 as [|i k j c e He _]; [done|]. intros _. by destruct (link_inside _ _ _ He). Qed.

End Distance.

(** Port [q] of router [r], at switch [i], drives the link to switch [j],
    which wakes the object there. *)
Definition leads_to (tp : Topology.t) (n : Net.t) (i : Z) (r : Router.t) (q j : Z) : Prop :=
  exists e o l c, m_link_map tp !! (i, j) = Some e /\ vec_at (Router.m_output_unit r) q = Ok o /\
    OutputUnit.m_out_link o = flit_link (m_nodes tp) i e /\
    vec_at (Net.net_links n) (OutputUnit.m_out_link o) = Ok l /\
    NetworkLink.link_consumer l = Some c /\ ends_at (m_nodes tp) j (ids n) c.

Section Delivery.
Context (mt : MachineTypes) `{Hmt : !MachineTypesOk mt} (tp : Topology.t) (n n' : Net.t).
Hypothesis Htp : topology_ok mt tp.
Hypothesis Hfresh : fresh n.
Hypothesis Hcreate : createLinks mt tp n = Ok n'.
Local Notation nodes := (m_nodes tp).
Local Notation N := (max_switch_id tp + 1).

(** What [createLinks] has computed when it returns. *)
Lemma createLinks_spec :
  exists W D, square N W /\ square N D /\ weights_ok N W /\
    (forall i j, 0 <= i < N -> 0 <= j < N -> i <> j -> 0 < entry W i j) /\
    (forall i j, 0 <= i < N -> 0 <= j < N -> entry W i j = link_weight tp i j) /\
    (forall i j, 0 <= i < N -> 0 <= j < N -> shortest N W i j (entry D i j)) /\
    forall r v, views n' !! r = Some v -> ports_ok mt tp W D n' (2 * nodes + Z.of_nat r)
      (limit N N 0 (2 * nodes + Z.of_nat r)) v.
Proof.
  destruct Htp as [Hl Hn Hs _ Hd].
  pose proof (base_number_mono mt 0 (MachineType_NUM mt)) as Hb. rewrite (mt_base0 mt) in Hb.
  pose proof (mt_num mt). pose proof (max_switch_id_nonneg tp).
  destruct (topology_weights_spec tp Hl) as (W & lat & Hw & HW & Hlat & Hent).
  destruct (link_weights_ok tp Hl W HW Hent) as [HWok Hpos].
  destruct (shortest_path_spec N W lat (Matrix.fill N 0) HWok Hlat) as (D & HSP & HD & Hsh);
    [apply fill_square; lia|].
  unfold createLinks in Hcreate. rewrite Hw in Hcreate. cbn [mbind Res_bind] in Hcreate.
  rewrite HSP in Hcreate. cbn [mbind Res_bind] in Hcreate.
  exists W, D. split_and!; [done|done|done|done|done| |].
  - intros i j Hi Hj. by apply Hsh.
  - eapply (hookup_all_tables mt tp W D N) in Hcreate as [Hok _]; [exact Hok|lia|done|done|done|lia|].
    intros r v Hv. assert (limit N 0 0 (2 * nodes + Z.of_nat r) = 0) as ->.
    { unfold limit. rewrite (proj2 (Z.ltb_ge _ _)) by lia. by destruct (_ =? 0). }
    eapply Forall_lookup_1 in Hfresh as (H1 & H2 & H3); [|exact Hv].
    split; rewrite ?H1, ?H2, ?H3; constructor.
Qed.

Local Notation target m k := (nodes + (MachineType_base_number mt m + k)).

(** Entry [q] of the table of router [r] serves the node exactly when the
    link it belongs to is on a shortest path to the node. *)
Lemma table_serves W D i j nd m k dest :
  square N W -> square N D -> 0 <= i < N -> 0 <= j < N -> port_entry mt W D i j nd ->
  0 <= m < MachineType_NUM mt -> 0 <= k < MachineType_base_count mt m -> dest_wf mt dest ->
  (forall m' k', 0 <= m' -> 0 <= k' -> member m' k' dest <-> m' = m /\ k' = k) ->
  exists b, NetDest.intersectionIsNotEmpty nd dest = Ok b /\ (b = true <-> on_path W D i j (target m k)).
Proof.
  intros HW HD Hi Hj Hnd Hm Hk Hwf Honly. destruct Htp as [_ Hn Hs _ _]. rewrite Hn in *.
  destruct (shortest_path_to_node_spec mt N W D HW HD Hs i j Hi Hj) as (nd' & Hnd' & Hwf' & Hmem).
  unfold port_entry in Hnd. rewrite Hnd in Hnd'. injection Hnd' as <-.
  destruct (intersectionIsNotEmpty_spec mt nd dest Hwf' Hwf) as (b & Hb & Hiff).
  exists b. split; [done|]. rewrite Hiff, <- (Hmem m k Hm Hk). split.
  - intros (m' & k' & Hm' & Hk' & Hin & [-> ->]%Honly); done.
  - intros Hin. exists m, k. split_and!; [lia|lia|done|]. apply (Honly m k); [lia|lia|done].
Qed.

(** What port [q] of the router at switch [i] leads to. *)
Lemma port_leads_to W D i lim r rt q j :
  ports_ok mt tp W D n' i lim (view_of rt) -> Net.m_routers n' !! r = Some rt ->
  0 <= q -> out_switches W i lim !! Z.to_nat q = Some j -> leads_to tp n' i rt q j.
Proof.
  intros [_ _ Hl] Hrt Hq Hj. destruct (Forall2_lookup_l _ _ _ _ _ Hl Hj) as (l & Hlk & e & c & He & Hle & Hl0 & Hc & Hend).
  apply list_lookup_fmap_Some in Hlk as (o & -> & Ho). apply list_lookup_fmap_Some in Hc as (x & Hx & Hxl).
  exists e, o, x, c. split_and!; [done|by apply vec_at_Ok|done|by apply vec_at_Ok|done|done].
Qed.

(** The table of router [r]: one entry per link out of its switch. *)
Lemma router_tables W D r rt :
  ports_ok mt tp W D n' (2 * nodes + Z.of_nat r) (limit N N 0 (2 * nodes + Z.of_nat r)) (view_of rt) ->
  2 * nodes + Z.of_nat r < N ->
  let i := 2 * nodes + Z.of_nat r in let ru := Router.m_routing_unit rt in
  zlen (RoutingUnit.m_routing_table ru) = zlen (out_switches W i N) /\
  zlen (RoutingUnit.m_weight_table ru) = zlen (out_switches W i N) /\
  (forall w, w ∈ RoutingUnit.m_weight_table ru -> exists j, 0 <= j < N /\ w = entry W i j) /\
  (forall q j, 0 <= q -> out_switches W i N !! Z.to_nat q = Some j ->
     0 <= j < N /\ hooked W i j = true /\
     exists nd, vec_at (RoutingUnit.m_routing_table ru) q = Ok nd /\ port_entry mt W D i j nd).
Proof.
  intros Hok Hr i ru. unfold limit in Hok. rewrite (proj2 (Z.ltb_lt _ _)) in Hok by done. fold i in Hok.
  destruct Hok as [Ht Hw _]. cbn in Ht, Hw. fold ru in Ht, Hw. split_and!.
  - unfold zlen. by rewrite (Forall2_length _ _ _ Ht).
  - unfold zlen. rewrite Hw. by rewrite length_map.
  - intros w Hin. rewrite Hw in Hin. apply list_elem_of_fmap in Hin as (j & -> & Hj%out_switches_elem).
    exists j. split; [tauto|done].
  - intros q j Hq Hj. pose proof (list_elem_of_lookup_2 _ _ _ Hj) as [Hh Hb]%out_switches_elem.
    split_and!; [tauto|tauto|done|]. destruct (Forall2_lookup_l _ _ _ _ _ Ht Hj) as (nd & Hnd & Hp).
    exists nd. split; [by apply vec_at_Ok|done].
Qed.

Lemma table_routes_closer r rt m k dest d :
  Net.m_routers n' !! r = Some rt ->
  0 <= m < MachineType_NUM mt -> 0 <= k < MachineType_base_count mt m -> dest_wf mt dest ->
  (forall m' k', 0 <= m' -> 0 <= k' -> member m' k' dest <-> m' = m /\ k' = k) ->
  distance tp (2 * nodes + Z.of_nat r) (target m k) d -> d < INFINITE_LATENCY ->
  exists ports, Route.lookupRoutingTable_pref_outport dest (Router.m_routing_unit rt) = Ok ports /\
    ports <> [] /\
    forall q, q ∈ ports -> exists j d',
      leads_to tp n' (2 * nodes + Z.of_nat r) rt q j /\ distance tp j (target m k) d' /\ d' < d.
Proof.
  intros Hrt Hm Hk Hwf Honly Hdist Hd. set (i := 2 * nodes + Z.of_nat r) in *.
  destruct createLinks_spec as (W & D & HW & HD & HWok & Hpos & Hweight & Hsh & Hports).
  pose proof Htp as [Hl Hn Hs _ _].
  assert (0 <= nodes <= target m k /\ target m k < 2 * nodes) as Ht.
  { pose proof (node_inside mt m k Hm Hk). lia. }
  assert (0 <= i < N) as Hi by (eapply path_starts_inside; [done|apply Hdist|unfold i; lia]).
  assert (views n' !! r = Some (view_of rt)) as Hv by (by apply list_lookup_fmap_Some; exists rt).
  specialize (Hports r _ Hv). fold i in Hports.
  destruct (router_tables W D r rt Hports) as (Ht1 & Ht2 & Hmax & Hent); [unfold i in Hi; lia|].
  fold i in Ht1, Ht2, Hmax, Hent.
  assert (entry D i (target m k) = d) as HDd.
  { apply (shortest_distance tp W Hl HW Hweight) in Hdist; [|lia|done].
    destruct (Hsh i (target m k) Hi ltac:(lia)) as [Hw1 Hm1], Hdist as [Hw2 Hm2].
    specialize (Hm1 _ Hw2). specialize (Hm2 _ Hw1). lia. }
  assert (forall q j, 0 <= q -> out_switches W i N !! Z.to_nat q = Some j -> exists b,
    Route.serves dest q (Router.m_routing_unit rt) = Ok b /\ (b = true <-> on_path W D i j (target m k))) as Hserves.
  { intros q j Hq Hj. destruct (Hent q j Hq Hj) as (Hjb & _ & nd & Hnd & Hp). unfold Route.serves.
    rewrite Hnd. by eapply table_serves. }
  destruct (pref_outport_total dest (Router.m_routing_unit rt)) as (ports & Hports' & Hne & Hall).
  - lia.
  - apply Forall_forall. intros w (j & Hj & ->)%Hmax. pose proof (wo_pos _ _ HWok i j Hi Hj).
    unfold INFINITE_LATENCY, INFINITE_ in *. lia.
  - intros q Hq. rewrite Ht1 in Hq. destruct (vec_at_total (out_switches W i N) q Hq) as [j Hj%vec_at_Ok].
    destruct (Hserves q j) as (b & Hb & _); [tauto|tauto|]. by exists b.
  - destruct (on_path_exists N W D HWok Hsh Hpos i (target m k)) as (j & Hj & Hh & Ho); [done|lia|unfold i; lia|lia|].
    assert (j ∈ out_switches W i N) as [q Hq]%list_elem_of_lookup by (by apply out_switches_elem).
    destruct (Hserves (Z.of_nat q) j) as (b & Hb & Hiff); [lia|by rewrite Nat2Z.id|].
    exists (Z.of_nat q). split; [rewrite Ht1; pose proof (lookup_lt_Some _ _ _ Hq); unfold zlen; lia|].
    unfold serves. rewrite Hb. f_equal. by apply Hiff.
  - exists ports. split_and!; [done|done|]. intros q [Hq Hs']%Hall. rewrite Ht1 in Hq.
    destruct (vec_at_total (out_switches W i N) q Hq) as [j [Hq0 Hj]%vec_at_Ok].
    destruct (Hserves q j Hq0 Hj) as (b & Hb & Hiff). unfold serves in Hs'. rewrite Hs' in Hb. injection Hb as <-.
    pose proof (proj1 Hiff eq_refl) as Ho. destruct (Hent q j Hq0 Hj) as (Hjb & Hh & _).
    pose proof (on_path_closer W D i j _ Hh Ho) as Hcl. exists j, (entry D j (target m k)). split_and!.
    + eapply port_leads_to; [exact Hports|exact Hrt|done|]. unfold limit. by rewrite (proj2 (Z.ltb_lt i N)) by lia.
    + apply (shortest_distance tp W Hl HW Hweight); [lia|lia|]. apply Hsh; [done|lia].
    + lia.
Qed.

(** A hop over some port the table allows. *)
Definition hop (dest : NetDest.t) (i j : Z) : Prop :=
  exists rt ports q, 2 * nodes <= i /\ Net.m_routers n' !! Z.to_nat (i - 2 * nodes) = Some rt /\
    Route.lookupRoutingTable_pref_outport dest (Router.m_routing_unit rt) = Ok ports /\
    q ∈ ports /\ leads_to tp n' i rt q j.

(** The switch is the target or that of a router. *)
Definition on_route (t i : Z) : Prop :=
  i = t \/ 2 * nodes <= i /\ exists rt, Net.m_routers n' !! Z.to_nat (i - 2 * nodes) = Some rt.

Lemma distance_nonneg i j d : distance tp i j d -> 0 <= d.
Proof.
  intros [Hp _]. induction Hp as [|i k j c e He _ IH]; [lia|].
  destruct (to_links _ _ Htp _ _ _ He) as (_ & _ & _ & Hw). lia.
Qed.

(** A switch a link leads to from which the target can be reached. *)
Lemma leads_on_route i rt q j t d : leads_to tp n' i rt q j -> distance tp j t d -> on_route t j.
Proof.
  intros (e0 & o & l & c & _ & _ & _ & _ & _ & Hend) [Hp _]. unfold ends_at in Hend.
  destruct (Z.ltb_spec j (2 * nodes)) as [Hj|Hj].
  - destruct Hp as [|j k t c' e He _]; [by left|]. destruct (to_shape _ _ Htp _ _ _ He). lia.
  - right. split; [done|]. destruct Hend as (id & Hid & _).
    apply list_lookup_fmap_Some in Hid as (v & _ & Hv). apply list_lookup_fmap_Some in Hv as (rt' & _ & Hrt).
    by exists rt'.
Qed.

Lemma leads_unique i rt q j j' : leads_to tp n' i rt q j -> leads_to tp n' i rt q j' -> j = j'.
Proof.
  intros (e & o & l & c & He & Ho & Hl & _) (e' & o' & l' & c' & He' & Ho' & Hl' & _).
  rewrite Ho in Ho'. injection Ho' as <-. assert ((i, j) = (i, j')) as [= ?]; [|done].
  apply (to_distinct _ _ Htp _ _ _ _ He He'). cbn. congruence.
Qed.

(** Following any routes of the tables leads to the target, in at most as
    many hops as its distance. *)
Lemma hops_deliver m k dest :
  0 <= m < MachineType_NUM mt -> 0 <= k < MachineType_base_count mt m -> dest_wf mt dest ->
  (forall m' k', 0 <= m' -> 0 <= k' -> member m' k' dest <-> m' = m /\ k' = k) ->
  forall h i j d, on_route (target m k) i -> distance tp i (target m k) d -> d < INFINITE_LATENCY ->
    nsteps (hop dest) h i j ->
    Z.of_nat h <= d /\ (j = target m k \/ exists j', hop dest j j').
Proof.
  intros Hm Hk Hwf Honly.
  assert (forall i rt d, 2 * nodes <= i -> Net.m_routers n' !! Z.to_nat (i - 2 * nodes) = Some rt ->
    distance tp i (target m k) d -> d < INFINITE_LATENCY ->
    exists ports, Route.lookupRoutingTable_pref_outport dest (Router.m_routing_unit rt) = Ok ports /\
      ports <> [] /\ forall q, q ∈ ports -> exists j d',
        leads_to tp n' i rt q j /\ distance tp j (target m k) d' /\ d' < d) as Hnext.
  { intros i rt d Hi Hrt Hdist Hd.
    assert (2 * nodes + Z.of_nat (Z.to_nat (i - 2 * nodes)) = i) as Hid by lia.
    pose proof (table_routes_closer (Z.to_nat (i - 2 * nodes)) rt m k dest d) as Hc. rewrite Hid in Hc.
    by apply Hc. }
  induction h as [|h IH]; intros i j d Hon Hdist Hd Hsteps.
  - inversion Hsteps; subst. pose proof (distance_nonneg _ _ _ Hdist). split; [lia|].
    destruct Hon as [->|[Hi [rt Hrt]]]; [by left|right].
    destruct (Hnext j rt d Hi Hrt Hdist Hd) as (ports & Hp & Hne & Hall).
    destruct ports as [|q ports]; [done|]. destruct (Hall q) as (j' & d' & Hl & _); [left|].
    exists j', rt, (q :: ports), q. split_and!; [done|done|done|left|done].
  - inversion Hsteps as [|? ? z ? (rt & ports & q & Hi & Hrt & Hp & Hq & Hl) Hrest]; subst.
    destruct (Hnext i rt d Hi Hrt Hdist Hd) as (ports' & Hp' & _ & Hall).
    rewrite Hp in Hp'. injection Hp' as <-. destruct (Hall q Hq) as (z' & d' & Hl' & Hdist' & Hlt).
    rewrite (leads_unique _ _ _ _ _ Hl' Hl) in *.
    destruct (IH z j d') as [Hh Hnx]; [by eapply leads_on_route|done|lia|done|]. split; [lia|done].
Qed.

End Delivery.
