(* ===== verification/Hookup.v ===== *)
(** * The cables [createLinks] plugs in

    [createLinks] always returns on the links of a well-formed configuration,
    and leaves the network wired: every entry of the link map whose weight is
    finite has become a cable between the objects its switches stand for. *)

From S2P Require Import Prelude NetDest NetDestFacts Types FlitBuffer Channels RouterCore MsgBuffer NetState Routing RoutingFacts Network CreditBalance CreditSteps Credits Wiring WiringSteps Topology TopologyFacts TopologyRoutes.

Import Topology.

(** ** The cable of an entry *)

(** The credit link of an entry. *)
Definition credit_link (nodes src : Z) (e : LinkEntry) : Z :=
  match link e with
  | GarnetExtLink _ _ _ credit_in credit_out => if src <? nodes then credit_in else credit_out
  | GarnetIntLink _ _ c => c
  | _ => -1
  end.

(** The end of a cable at a switch that sends, or receives. *)
Definition sends_at (nodes i : Z) (x : link_end) : Prop :=
  if i <? nodes then x = Interface i else exists p, x = Port (i - 2 * nodes) p.

Definition receives_at (nodes j : Z) (x : link_end) : Prop :=
  if j <? 2 * nodes then x = Interface (j - nodes) else exists p, x = Port (j - 2 * nodes) p.

Definition out_dirn (nodes : Z) (k : Z * Z) (e : LinkEntry) : PortDirection :=
  if k.1 <? nodes then "" else if k.2 <? 2 * nodes then "Local" else src_outport_dirn e.
Definition in_dirn (nodes : Z) (k : Z * Z) (e : LinkEntry) : PortDirection :=
  if k.1 <? nodes then "Local" else if k.2 <? 2 * nodes then "" else dst_inport_dirn e.

Record cable_of (nodes : Z) (k : Z * Z) (e : LinkEntry) (c : cable) : Prop := {
  co_link : e_link (c_edge c) = flit_link nodes k.1 e;
  co_credit : e_credit (c_edge c) = credit_link nodes k.1 e;
  co_src : sends_at nodes k.1 (e_src (c_edge c));
  co_dst : receives_at nodes k.2 (e_dst (c_edge c));
  co_out : c_out c = out_dirn nodes k e;
  co_in : c_in c = in_dirn nodes k e
}.

(** ** Topologies that can be plugged in

    Every entry joins an interface and a router, by an external link, or two
    routers, by an internal link, which the network has; no two entries share
    a link, and an interface has one entry in each direction. *)
Definition entry_ok (nodes : Z) (n : Net.t) (k : Z * Z) (e : LinkEntry) : Prop :=
  let router_at i := 2 * nodes <= i < 2 * nodes + num_routers n in
  match link e with
  | GarnetExtLink _ _ _ _ _ =>
      0 <= k.1 < nodes /\ router_at k.2 \/ router_at k.1 /\ nodes <= k.2 < 2 * nodes
  | GarnetIntLink _ _ _ => router_at k.1 /\ router_at k.2
  | _ => False
  end /\ 0 <= flit_link nodes k.1 e < num_flit_links n /\ 0 <= credit_link nodes k.1 e < num_credit_links n.

Record pluggable (tp : Topology.t) (n : Net.t) : Prop := {
  pl_entry : forall k e, m_link_map tp !! k = Some e -> entry_ok (m_nodes tp) n k e;
  pl_flit : forall k1 k2 e1 e2, m_link_map tp !! k1 = Some e1 -> m_link_map tp !! k2 = Some e2 ->
    flit_link (m_nodes tp) k1.1 e1 = flit_link (m_nodes tp) k2.1 e2 -> k1 = k2;
  pl_credit : forall k1 k2 e1 e2, m_link_map tp !! k1 = Some e1 -> m_link_map tp !! k2 = Some e2 ->
    credit_link (m_nodes tp) k1.1 e1 = credit_link (m_nodes tp) k2.1 e2 -> k1 = k2;
  pl_into : forall i j j', i < m_nodes tp -> is_Some (m_link_map tp !! (i, j)) ->
    is_Some (m_link_map tp !! (i, j')) -> j = j';
  pl_out_of : forall i i' j, j < 2 * m_nodes tp -> is_Some (m_link_map tp !! (i, j)) ->
    is_Some (m_link_map tp !! (i', j)) -> i = i';
  pl_nodes : 0 <= m_nodes tp;
  pl_cfg : m_nodes tp <= NetConfig.m_nodes (Net.cfg n);
  pl_interfaces : m_nodes tp <= num_interfaces n
}.

(** The entries of the pairs of switches before [(i, j)], and those that are
    hooked up. *)
Definition before (k : Z * Z) (i j : Z) : Prop := k.1 < i \/ k.1 = i /\ k.2 < j.
Definition finite (e : LinkEntry) : Prop := BasicLink.m_weight (basic (link e)) < INFINITE_LATENCY.

(** The cables in place when the loops have come to [(i, j)]. *)
Record plugged (tp : Topology.t) (n0 : Net.t) (i j : Z) (cs : list cable) (n : Net.t) : Prop := {
  pg_wired : wired cs n;
  pg_kept : kept n0 n;
  pg_shape : shape n = shape n0;
  pg_from : forall c, c ∈ cs -> exists k e, before k i j /\ m_link_map tp !! k = Some e /\ cable_of (m_nodes tp) k e c;
  pg_all : forall k e, before k i j -> m_link_map tp !! k = Some e -> finite e ->
    exists c, c ∈ cs /\ cable_of (m_nodes tp) k e c
}.

Lemma shape_inv n n' : shape n' = shape n ->
  num_routers n' = num_routers n /\ num_interfaces n' = num_interfaces n /\
  num_flit_links n' = num_flit_links n /\ num_credit_links n' = num_credit_links n.
Proof. unfold shape. by intros [= -> -> -> ->]. Qed.

Section Hookup.
Context (mt : MachineTypes) `{Hmt : !MachineTypesOk mt} (tp : Topology.t) (n0 : Net.t).
Hypothesis Hpl : pluggable tp n0.
Hypothesis Hidle : Idle.net n0.
Local Notation nodes := (m_nodes tp).

(** A cable with the links and at the switches of an entry. *)
Ltac matches_entry Hlink :=
  split; cbn; unfold flit_link, credit_link, sends_at, receives_at, out_dirn, in_dirn; cbn; rewrite ?Hlink;
  repeat match goal with |- context [?a <? ?b] => destruct (Z.ltb_spec a b) end;
  try lia; try done; by eexists.

(** *** The entry at [(i, j)] is new to the cables before it *)

Section Entry.
Context (i j : Z) (e : LinkEntry) (cs : list cable) (n : Net.t).
Hypothesis He : m_link_map tp !! (i, j) = Some e.
Hypothesis Hpg : plugged tp n0 i j cs n.

Lemma not_before k : before k i j -> k <> (i, j).
Proof. intros Hb ->. unfold before in Hb. cbn in Hb. lia. Qed.

Lemma fresh_flit : flit_link nodes i e ∉ map (fun c => e_link (c_edge c)) cs.
Proof.
  intros (c & Hc & (k & e' & Hb & Hk & Hco)%(pg_from _ _ _ _ _ _ Hpg))%list_elem_of_fmap_1.
  apply (not_before k Hb). apply (pl_flit _ _ Hpl _ _ _ _ Hk He). rewrite <- (co_link _ _ _ _ Hco). by symmetry.
Qed.

Lemma fresh_credit : credit_link nodes i e ∉ map (fun c => e_credit (c_edge c)) cs.
Proof.
  intros (c & Hc & (k & e' & Hb & Hk & Hco)%(pg_from _ _ _ _ _ _ Hpg))%list_elem_of_fmap_1.
  apply (not_before k Hb). apply (pl_credit _ _ Hpl _ _ _ _ Hk He). rewrite <- (co_credit _ _ _ _ Hco). by symmetry.
Qed.

Lemma fresh_source : i < nodes -> Interface i ∉ map (fun c => e_src (c_edge c)) cs.
Proof.
  intros Hi (c & Hc & (k & e' & Hb & Hk & Hco)%(pg_from _ _ _ _ _ _ Hpg))%list_elem_of_fmap_1.
  apply (not_before k Hb). pose proof (co_src _ _ _ _ Hco) as Hsrc. rewrite <- Hc in Hsrc. unfold sends_at in Hsrc.
  destruct (Z.ltb_spec k.1 nodes); [|by destruct Hsrc]. injection Hsrc as Hsrc.
  rewrite (surjective_pairing k), <- Hsrc in Hk |- *. f_equal. by apply (pl_into _ _ Hpl i); [|eexists..].
Qed.

Lemma fresh_dest : j < 2 * nodes -> Interface (j - nodes) ∉ map (fun c => e_dst (c_edge c)) cs.
Proof.
  intros Hj (c & Hc & (k & e' & Hb & Hk & Hco)%(pg_from _ _ _ _ _ _ Hpg))%list_elem_of_fmap_1.
  apply (not_before k Hb). pose proof (co_dst _ _ _ _ Hco) as Hdst. rewrite <- Hc in Hdst. unfold receives_at in Hdst.
  destruct (Z.ltb_spec k.2 (2 * nodes)); [|by destruct Hdst]. injection Hdst as Hdst.
  assert (k.2 = j) as Hkj by lia. rewrite (surjective_pairing k), Hkj in Hk |- *. f_equal.
  by apply (pl_out_of _ _ Hpl _ _ j); [|eexists..].
Qed.

(** [makeLink] adds the cable of the entry. *)
Lemma makeLink_adds nd : exists c, adds cs n (makeLink i j nd tp n) c /\ cable_of nodes (i, j) e c.
Proof.
  pose proof fresh_flit as Hff. pose proof fresh_credit as Hfc. pose proof fresh_source as Hfs. pose proof fresh_dest as Hfd.
  destruct Hpg as [Hw Hk Hs _ _]. destruct (shape_inv _ _ Hs) as (Sr & Si & Sf & Sc).
  pose proof (kp_idle _ _ Hk Hidle) as Hid. pose proof (pl_cfg _ _ Hpl) as Hcfg. rewrite <- (kp_cfg _ _ Hk) in Hcfg.
  pose proof (pl_interfaces _ _ Hpl) as Hnis. rewrite <- Si in Hnis.
  pose proof (pl_nodes _ _ Hpl) as Hn0. destruct (pl_entry _ _ Hpl _ _ He) as (Hshape & Hfl & Hcl). rewrite <- Sf in Hfl. rewrite <- Sc in Hcl. rewrite <- Sr in Hshape.
  unfold makeLink, entry_of, assert_. rewrite He, !Z.geb_leb. unfold flit_link, credit_link in *.
  destruct (link e) as [b ni no ci co|b l c| |] eqn:Hlink; [|..|done|done]; cbn [fst snd mbind Res_bind] in *.
  - destruct Hshape as [[Hi Hj]|[Hi Hj]].
    + destruct (Z.leb_spec (2 * nodes) i), (Z.leb_spec (2 * nodes) j), (Z.ltb_spec i nodes); try lia. cbn. rewrite Hlink.
      destruct (makeExtInLink_adds cs n ni ci Hw Hfl Hcl Hff Hfc i (j - 2 * nodes)) as [p Ha]; [lia|lia|lia|auto|].
      eexists. split; [exact Ha|]. matches_entry Hlink.
    + destruct (Z.leb_spec (2 * nodes) i), (Z.ltb_spec i nodes), (Z.ltb_spec j (2 * nodes)), (Z.leb_spec nodes j); try lia.
      cbn. rewrite Hlink.
      destruct (makeExtOutLink_adds cs n no co Hw Hid Hfl Hcl Hff Hfc (i - 2 * nodes) (j - nodes) nd (BasicLink.m_weight b))
        as [p Ha]; [lia|lia|lia|auto|].
      eexists. split; [exact Ha|]. matches_entry Hlink.
  - destruct Hshape as [Hi Hj].
    destruct (Z.leb_spec (2 * nodes) i), (Z.leb_spec (2 * nodes) j), (Z.ltb_spec i nodes), (Z.ltb_spec j (2 * nodes)); try lia.
    cbn. rewrite Hlink.
    destruct (makeInternalLink_adds cs n l c Hw Hid Hfl Hcl Hff Hfc (i - 2 * nodes) (j - 2 * nodes) nd (BasicLink.m_weight b)
      (src_outport_dirn e) (dst_inport_dirn e)) as (p & q & Ha); [lia|lia|].
    eexists. split; [exact Ha|]. matches_entry Hlink.
Qed.

(** The invariant of the loops goes on to the next pair. *)
Lemma plugged_next nd :
  exists n', makeLink i j nd tp n = Ok n' /\ exists c, plugged tp n0 i (j + 1) (cs ++ [c]) n'.
Proof.
  destruct (makeLink_adds nd) as (c & (n' & Hm & Hw' & Hk' & Hs') & Hc). exists n'. split; [done|]. exists c.
  destruct Hpg as [Hw Hk Hs Hfrom Hall]. split; [done|by etrans|congruence| |].
  - intros c' [(k & e' & Hb & ?)%Hfrom|Hc'%list_elem_of_singleton]%elem_of_app.
    + exists k, e'. split; [unfold before in *; lia|done].
    + subst c'. exists (i, j), e. split; [unfold before; cbn; lia|done].
  - intros k e' Hb Hke Hfin. destruct (decide (k = (i, j))) as [->|Hne].
    + rewrite He in Hke. injection Hke as <-. exists c. set_solver.
    + destruct (Hall k e') as (c' & Hc' & Hco); [|done|done|exists c'; set_solver].
      unfold before in *. destruct (decide (k.2 = j)); [|lia]. destruct (decide (k.1 = i)); [|lia].
      destruct Hne. rewrite (surjective_pairing k). congruence.
Qed.

End Entry.

(** A pair of switches without a link to hook up. *)
Lemma plugged_skip i j cs n :
  plugged tp n0 i j cs n -> (forall e, m_link_map tp !! (i, j) = Some e -> ~ finite e) ->
  plugged tp n0 i (j + 1) cs n.
Proof.
  intros [Hw Hk Hs Hfrom Hall] Hno. split; [done..| |].
  - intros c (k & e & Hb & ?)%Hfrom. exists k, e. split; [unfold before in *; lia|done].
  - intros k e Hb Hke Hfin. apply (Hall k e); [|done|done]. unfold before in *.
    destruct (decide (k.2 = j)); [|lia]. destruct (decide (k.1 = i)); [|lia].
    destruct (Hno e); [|done]. rewrite <- Hke. f_equal. rewrite (surjective_pairing k). congruence.
Qed.

(** *** The loops *)

Section Loops.
Context (W D : Matrix.t) (N : Z).
Hypothesis HW : square N W.
Hypothesis HD : square N D.
Hypothesis Htp : links_ok tp.
Hypothesis HN : N = max_switch_id tp + 1.
Hypothesis Hweight : forall i j, 0 <= i < N -> 0 <= j < N -> entry W i j = link_weight tp i j.
Hypothesis Hsize : 2 * MachineType_base_number mt (MachineType_NUM mt) <= N.

Lemma hookup_plugs i j cs n :
  0 <= i < N -> 0 <= j < N -> plugged tp n0 i j cs n ->
  exists n', hookup mt tp W D i j n = Ok n' /\ exists cs', plugged tp n0 i (j + 1) cs' n'.
Proof.
  intros Hi Hj Hpg. unfold hookup. rewrite (get_entry N) by done. cbn [mbind Res_bind]. rewrite Hweight by done.
  unfold link_weight. destruct (m_link_map tp !! (i, j)) as [e|] eqn:He.
  - destruct (Htp _ _ _ He) as (_ & _ & Hne & Hpos & Hle). rewrite (proj2 (Z.eqb_neq i j)) by done.
    rewrite Z.gtb_ltb, (proj2 (Z.ltb_lt 0 _)) by done. cbn [andb].
    destruct (Z.eqb_spec (BasicLink.m_weight (basic (link e))) INFINITE_LATENCY) as [Hinf|Hfin]; cbn [negb].
    + exists n. split; [done|]. exists cs. apply plugged_skip; [done|]. intros e' He' Hf. rewrite He in He'.
      injection He' as <-. unfold finite in Hf. lia.
    + destruct (shortest_path_to_node_spec mt N W D HW HD Hsize i j Hi Hj) as (nd & -> & _). cbn [mbind Res_bind].
      destruct (plugged_next i j e cs n He Hpg nd) as (n' & -> & c & Hc). exists n'. split; [done|by exists (cs ++ [c])].
  - exists n. split; [destruct (i =? j); done|]. exists cs. apply plugged_skip; [done|]. intros e He'. congruence.
Qed.

Lemma plugged_row i cs n : plugged tp n0 i N cs n -> plugged tp n0 (i + 1) 0 cs n.
Proof.
  intros [Hw Hk Hs Hfrom Hall]. split; [done..| |].
  - intros c (k & e & Hb & ?)%Hfrom. exists k, e. split; [unfold before in *; lia|done].
  - intros k e Hb Hke Hfin. apply (Hall k e); [|done|done].
    assert (k.2 < N) by (destruct k as [k1 k2]; destruct (max_switch_id_bound tp k1 k2 e Hke); cbn; lia).
    assert (0 <= k.2) by (destruct k as [k1 k2]; destruct (Htp k1 k2 e Hke) as (_ & ? & _); cbn; lia).
    unfold before in *. lia.
Qed.

Lemma hookup_all_plugs n :
  0 <= N -> plugged tp n0 0 0 [] n ->
  exists n', foldM (fun i n => row ← vec_at W i; foldM (hookup mt tp W D i) (range 0 (zlen row)) n)
    (range 0 (Matrix.size W)) n = Ok n' /\ exists cs, plugged tp n0 N 0 cs n'.
Proof.
  intros HN0 Hpg. unfold Matrix.size. rewrite (proj1 HW).
  apply (foldM_range_total (fun i m => exists cs, plugged tp n0 i 0 cs m)); [done|by exists []|].
  intros i m Hi [cs Hm]. destruct (square_row N W i HW Hi) as (row & -> & Hlen). cbn [mbind Res_bind]. rewrite Hlen.
  destruct (foldM_range_total (fun j m => exists cs, plugged tp n0 i j cs m) (hookup mt tp W D i) 0 N m) as (m' & Hm' & cs' & Hpg');
    [done|by exists cs| |].
  - intros j m1 Hj [cs1 Hm1]. by apply (hookup_plugs i j cs1).
  - exists m'. split; [done|]. exists cs'. by apply plugged_row.
Qed.

End Loops.
End Hookup.

(** ** [createLinks] *)

Lemma createLinks_plugs mt `{!MachineTypesOk mt} tp n :
  links_ok tp -> m_nodes tp = MachineType_base_number mt (MachineType_NUM mt) ->
  2 * m_nodes tp <= max_switch_id tp + 1 -> pluggable tp n -> Idle.net n -> wired [] n ->
  exists n' cs, createLinks mt tp n = Ok n' /\ plugged tp n (max_switch_id tp + 1) 0 cs n'.
Proof.
  intros Hl Hn Hs Hpl Hidle Hw. pose proof (max_switch_id_nonneg tp).
  destruct (topology_weights_spec tp Hl) as (W & lat & HWok & HW & Hlat & Hent).
  destruct (link_weights_ok tp Hl W HW Hent) as [HWok' _].
  destruct (shortest_path_spec (max_switch_id tp + 1) W lat (Matrix.fill (max_switch_id tp + 1) 0) HWok' Hlat)
    as (D & HSP & HD & _); [apply fill_square; lia|].
  unfold createLinks. rewrite HWok. cbn [mbind Res_bind]. rewrite HSP. cbn [mbind Res_bind].
  destruct (hookup_all_plugs mt tp n Hpl Hidle W D (max_switch_id tp + 1) HW HD Hl eq_refl Hent) with (n := n)
    as (n' & Hn' & cs & Hcs); [lia|lia| |by exists n', cs].
  split; [done|done|done| |].
  - intros c Hc. by apply elem_of_nil in Hc.
  - intros [k1 k2] e Hb Hk. destruct (Hl _ _ _ Hk) as (? & ? & _). unfold before in Hb. cbn in Hb. lia.
Qed.
