(* ===== verification/TopologyDelivery.v ===== *)
(** * The constructor of the topology: theorems

    The constructor of [Topology] turns well-formed links into a component
    network as the routing tables need it. The shortest paths and the
    routing-table entries are right, and are instantiated at the links of
    the 2x2 mesh. *)

From S2P Require Import Prelude NetDest NetDestFacts Types FlitBuffer Channels RouterCore MsgBuffer NetState Routing RoutingFacts Network Example Topology TopologyFacts TopologyRoutes.

Import Topology.

(** ** The constructor *)

Definition net_in (l : ext_link) : Z :=
  match ext_basic l with GarnetExtLink _ i _ _ _ => i | _ => -1 end.
Definition net_out (l : ext_link) : Z :=
  match ext_basic l with GarnetExtLink _ _ o _ _ => o | _ => -1 end.
Definition net_int (l : int_link) : Z :=
  match int_basic l with GarnetIntLink _ i _ => i | _ => -1 end.

Definition weight_ok (l : basic_link) : Prop :=
  0 < BasicLink.m_weight (basic l) <= INFINITE_LATENCY.

(** The links the constructor is given: every controller has one external
    link, internal links join different routers, weights are positive and no
    two links share a flit link. *)
Record params_ok (mt : MachineTypes) (num_routers : Z) (exts : list ext_link) (ints : list int_link) : Prop := {
  pa_nodes : zlen exts = MachineType_base_number mt (MachineType_NUM mt);
  pa_size : num_routers + 2 * zlen exts < 2 ^ 31;
  pa_ext : forall l, l ∈ exts -> 0 <= ext_type l < MachineType_NUM mt /\
    0 <= ext_version l < MachineType_base_count mt (ext_type l) /\ 0 <= int_node l < num_routers /\
    weight_ok (ext_basic l) /\ exists b ni no ci co, ext_basic l = GarnetExtLink b ni no ci co;
  pa_int : forall l, l ∈ ints -> 0 <= src_node l < num_routers /\ 0 <= dst_node l < num_routers /\
    src_node l <> dst_node l /\ weight_ok (int_basic l) /\ exists b i c, int_basic l = GarnetIntLink b i c;
  pa_links : NoDup (map Z.to_nat (map net_in exts ++ map net_out exts ++ map net_int ints))
}.

Section Constructor.
Context (mt : MachineTypes) `{Hmt : !MachineTypesOk mt} (num_routers : Z)
  (exts : list ext_link) (ints : list int_link).
Hypothesis Hpa : params_ok mt num_routers exts ints.
Local Notation nodes := (zlen exts).

(** The pairs of switches a link joins. *)
Definition node_of (l : ext_link) : Z := MachineType_base_number mt (ext_type l) + ext_version l.
Definition in_key (l : ext_link) : Z * Z := (node_of l, int_node l + 2 * nodes).
Definition out_key (l : ext_link) : Z * Z := (int_node l + 2 * nodes, node_of l + nodes).
Definition int_key (l : int_link) : Z * Z := (src_node l + 2 * nodes, dst_node l + 2 * nodes).

(** Every entry of the map comes from a link. *)
Definition came_from (k : Z * Z) (e : LinkEntry) : Prop :=
  (exists l, l ∈ exts /\ (k = in_key l \/ k = out_key l) /\ e = mk_entry (ext_basic l) "" "") \/
  (exists l, l ∈ ints /\ k = int_key l /\ e = mk_entry (int_basic l) (src_outport l) (dst_inport l)).

Record built (es : list ext_link) (tp : Topology.t) : Prop := {
  bu_nodes : m_nodes tp = nodes;
  bu_from : forall k e, m_link_map tp !! k = Some e -> came_from k e;
  bu_ext : forall l, l ∈ es -> is_Some (m_link_map tp !! in_key l) /\ is_Some (m_link_map tp !! out_key l)
}.

Lemma node_of_bound l : l ∈ exts -> 0 <= node_of l < nodes /\ 0 <= int_node l < num_routers.
Proof.
  intros Hl. destruct (pa_ext _ _ _ _ Hpa l Hl) as (Ht & Hv & Hi & _). rewrite (pa_nodes _ _ _ _ Hpa).
  split; [by apply (node_inside mt)|done].
Qed.

Lemma addLink_spec src dst e tp tp' :
  0 <= src < 2 ^ 31 -> 0 <= dst < 2 ^ 31 -> addLink src dst e tp = Ok tp' ->
  m_nodes tp' = m_nodes tp /\ m_link_map tp' = <[(src, dst) := e]> (m_link_map tp).
Proof.
  intros Hs Hd H. unfold addLink in H. inv_bind H. inv_bind H. simplify_res. cbn. split; [done|].
  unfold u32. by rewrite !(Z.mod_small src), !(Z.mod_small dst) by lia.
Qed.

Lemma built_insert es tp tp' k e :
  m_nodes tp' = m_nodes tp -> m_link_map tp' = <[k := e]> (m_link_map tp) -> came_from k e ->
  built es tp -> built es tp'.
Proof.
  intros Hn Hm Hk [Hbn Hbf Hbe]. split; [congruence| |]; intros x; rewrite Hm.
  - intros y. rewrite lookup_insert_Some. intros [[<- <-]|[_ Hx]]; [done|by apply Hbf].
  - intros Hx. rewrite !lookup_insert_is_Some'. split; right; by apply Hbe.
Qed.

Lemma add_ext_link_built es l tp tp' :
  l ∈ exts -> built es tp -> add_ext_link mt l tp = Ok tp' -> built (es ++ [l]) tp'.
Proof.
  intros Hl Hb H. destruct (node_of_bound l Hl) as [Hn Hr]. pose proof (pa_size _ _ _ _ Hpa) as Hsize.
  unfold add_ext_link in H. rewrite (bu_nodes _ _ Hb) in H. fold (node_of l) in H. inv_bind H.
  apply addLink_spec in E as [N1 M1]; [|lia|lia]. apply addLink_spec in H as [N2 M2]; [|lia|lia].
  assert (built es tp') as [Hbn Hbf Hbe].
  { eapply (built_insert _ a _ (out_key l)); [exact N2|exact M2| |].
    - left. exists l. split_and!; [done|by right|done].
    - eapply (built_insert _ tp _ (in_key l)); [exact N1|exact M1| |done].
      left. exists l. split_and!; [done|by left|done]. }
  split; [done|done|]. intros x [Hx|Hx%list_elem_of_singleton]%elem_of_app; [by apply Hbe|]. subst x.
  rewrite M2, M1. rewrite !lookup_insert_is_Some'. split; [right|]; by left.
Qed.

Lemma new_built tp : Topology.new mt num_routers exts ints = Ok tp -> built exts tp /\ 1 < nodes.
Proof.
  unfold Topology.new. intros H. pose proof (pa_size _ _ _ _ Hpa) as Hsize. cbn [m_nodes] in H. inv_bind H.
  unfold assert_ in E. destruct (_ >? 1) eqn:Hgt; [|done]. rewrite Z.gtb_ltb in Hgt. zbool. split; [|done].
  inv_bind H. rename a0 into tp1.
  assert (built exts tp1) as H1.
  { refine (foldM_inv (fun es tp => (forall l, l ∈ es -> l ∈ exts) -> built es tp) _ _ _ _ _ _ E0 (fun l H => H)).
    - intros _. split; [done| |]; intros x; [|intros Hx; by apply elem_of_nil in Hx].
      intros y. cbn. by rewrite lookup_empty.
    - intros es l tp2 tp3 Hb Ha Hin. apply (add_ext_link_built es l tp2 tp3); [set_solver|apply Hb; set_solver|done]. }
  eapply (foldM_preserve (built exts)) in H; [exact H|done|].
  intros l tp2 tp3 Hl Hb Ha. destruct (pa_int _ _ _ _ Hpa l Hl) as (Hsrc & Hdst & _).
  unfold add_int_link in Ha. rewrite (bu_nodes _ _ Hb) in Ha. apply addLink_spec in Ha as [Hn Hm]; [|lia|lia].
  eapply (built_insert _ tp2); [exact Hn|exact Hm| |exact Hb]. right. by exists l.
Qed.

Lemma map_disjoint {A B C} (f : A -> C) (g : B -> C) la lb (P : C -> Prop) a b :
  (forall x, x ∈ map f la -> ~ P x) -> (forall x, x ∈ map g lb -> P x) -> a ∈ la -> b ∈ lb -> f a <> g b.
Proof.
  intros Hf Hg Ha Hb Heq. apply (Hf (f a)); [by apply list_elem_of_fmap_2|].
  rewrite Heq. apply Hg. by apply list_elem_of_fmap_2.
Qed.

Lemma addLink_nodes src dst e tp tp' : addLink src dst e tp = Ok tp' -> m_nodes tp' = m_nodes tp.
Proof. unfold addLink. intros H. inv_bind H. inv_bind H. by simplify_res. Qed.

(** Every internal link has an entry, the last one of its routers. *)
Lemma new_internal tp l :
  Topology.new mt num_routers exts ints = Ok tp -> l ∈ ints -> is_Some (m_link_map tp !! int_key l).
Proof.
  unfold Topology.new. intros H Hl. pose proof (pa_size _ _ _ _ Hpa) as Hsize. inv_bind H. inv_bind H. rename a0 into tp1.
  assert (m_nodes tp1 = nodes) as Hn1.
  { eapply (foldM_preserve (fun tp => m_nodes tp = nodes)) in E0; [exact E0|done|].
    intros x tp2 tp3 _ Hn Ha. unfold add_ext_link in Ha. inv_bind Ha. apply addLink_nodes in E1, Ha. congruence. }
  assert (m_nodes tp = nodes /\ forall x, x ∈ ints -> is_Some (m_link_map tp !! int_key x)) as [_ Hall]; [|by apply Hall].
  refine (foldM_inv (fun is_ tp => (forall x, x ∈ is_ -> x ∈ ints) ->
    m_nodes tp = nodes /\ forall x, x ∈ is_ -> is_Some (m_link_map tp !! int_key x)) _ _ _ _ _ _ H (fun x H => H)).
  - intros _. split; [done|]. intros x Hx. by apply elem_of_nil in Hx.
  - intros is_ x tp2 tp3 IH Ha Hin. destruct IH as [Hn Hall]; [intros y Hy; apply Hin; set_solver|].
    assert (x ∈ ints) as Hx by set_solver. destruct (pa_int _ _ _ _ Hpa x Hx) as (Hs & Hd & _).
    unfold add_int_link in Ha. rewrite Hn in Ha. apply addLink_spec in Ha as [Hn3 Hm]; [|unfold zlen in *; lia|unfold zlen in *; lia].
    split; [by rewrite Hn3|]. intros y [Hy|Hy%list_elem_of_singleton]%elem_of_app; rewrite Hm, lookup_insert_is_Some'.
    + right. by apply Hall.
    + left. by subst y.
Qed.

(** Links that a numbering [g] of the entries, with the given numbers for the
    three kinds of entries, tells apart belong to different switches. *)
Lemma came_from_unique_by {X} (g : Z * Z -> LinkEntry -> X) (gi go : ext_link -> X) (gl : int_link -> X) k1 k2 e1 e2 :
  NoDup (map gi exts ++ map go exts ++ map gl ints) ->
  (forall l, l ∈ exts -> g (in_key l) (mk_entry (ext_basic l) "" "") = gi l) ->
  (forall l, l ∈ exts -> g (out_key l) (mk_entry (ext_basic l) "" "") = go l) ->
  (forall l, l ∈ ints -> g (int_key l) (mk_entry (int_basic l) (src_outport l) (dst_inport l)) = gl l) ->
  came_from k1 e1 -> came_from k2 e2 -> g k1 e1 = g k2 e2 -> k1 = k2.
Proof.
  intros (Hn1 & Hd1 & (Hn2 & Hd2 & Hn3)%NoDup_app)%NoDup_app Gi Go Gl.
  assert (forall k e, came_from k e ->
    (exists l, l ∈ exts /\ k = in_key l /\ g k e = gi l) \/
    (exists l, l ∈ exts /\ k = out_key l /\ g k e = go l) \/
    (exists l, l ∈ ints /\ k = int_key l /\ g k e = gl l)) as Hcase.
  { intros k e [(l & Hl & [-> | ->] & ->)|(l & Hl & -> & ->)]; [left|right; left|right; right]; exists l; auto. }
  assert (forall l1 l2, l1 ∈ exts -> l2 ∈ exts -> gi l1 <> go l2) as H12.
  { intros l1 l2. eapply (map_disjoint gi go); [exact Hd1|set_solver]. }
  assert (forall l1 l2, l1 ∈ exts -> l2 ∈ ints -> gi l1 <> gl l2) as H13.
  { intros l1 l2. eapply (map_disjoint gi gl); [exact Hd1|set_solver]. }
  assert (forall l1 l2, l1 ∈ exts -> l2 ∈ ints -> go l1 <> gl l2) as H23.
  { intros l1 l2. eapply (map_disjoint go gl); [exact Hd2|done]. }
  intros H1%Hcase H2%Hcase Heq.
  destruct H1 as [(l1 & Hl1 & -> & E1)|[(l1 & Hl1 & -> & E1)|(l1 & Hl1 & -> & E1)]],
           H2 as [(l2 & Hl2 & -> & E2)|[(l2 & Hl2 & -> & E2)|(l2 & Hl2 & -> & E2)]];
    rewrite E1, E2 in Heq.
  all: try (f_equal; eapply NoDup_map_inj; [| | |exact Heq]; done); exfalso.
  all: first [by destruct (H12 l1 l2)|by destruct (H12 l2 l1)|by destruct (H13 l1 l2)|by destruct (H13 l2 l1)
             |by destruct (H23 l1 l2)|by destruct (H23 l2 l1)].
Qed.

Lemma came_from_unique k1 k2 e1 e2 :
  came_from k1 e1 -> came_from k2 e2 ->
  Z.to_nat (flit_link nodes k1.1 e1) = Z.to_nat (flit_link nodes k2.1 e2) -> k1 = k2.
Proof.
  pose proof (pa_links _ _ _ _ Hpa) as Hnd. rewrite !map_app, !map_map in Hnd.
  apply (came_from_unique_by (fun k e => Z.to_nat (flit_link nodes k.1 e)) _ _ _ _ _ _ _ Hnd);
    intros l Hl; unfold flit_link, net_in, net_out, net_int; cbn.
  - destruct (node_of_bound l Hl). destruct (pa_ext _ _ _ _ Hpa l Hl) as (_ & _ & _ & _ & b & ni & no & ci & co & ->).
    by rewrite (proj2 (Z.ltb_lt _ _)) by lia.
  - destruct (node_of_bound l Hl). destruct (pa_ext _ _ _ _ Hpa l Hl) as (_ & _ & _ & _ & b & ni & no & ci & co & ->).
    by rewrite (proj2 (Z.ltb_ge _ _)) by lia.
  - by destruct (pa_int _ _ _ _ Hpa l Hl) as (_ & _ & _ & _ & b & i & c & ->).
Qed.

(** The component network is as the routing tables need it. *)
Lemma new_topology_ok tp : Topology.new mt num_routers exts ints = Ok tp -> topology_ok mt tp.
Proof.
  intros Hnew. destruct (new_built tp Hnew) as [[Hn Hfrom Hin] Hgt]. pose proof (pa_size _ _ _ _ Hpa) as Hsize.
  assert (links_ok tp) as Hlinks.
  { intros src dst e [(l & Hl & Hk & He)|(l & Hl & Hk & He)]%Hfrom; rewrite He.
    - destruct (node_of_bound l Hl). destruct (pa_ext _ _ _ _ Hpa l Hl) as (_ & _ & _ & Hw & _).
      destruct Hk as [[= -> ->]|[= -> ->]]; split_and!; try lia; by apply Hw.
    - destruct (pa_int _ _ _ _ Hpa l Hl) as (Hs & Hd & Hne & Hw & _).
      injection Hk as -> ->. split_and!; try lia; by apply Hw. }
  split; rewrite ?Hn.
  - done.
  - by apply Hpa.
  - assert (exists l, l ∈ exts) as [l Hl].
    { destruct (exts !! 0%nat) as [l|] eqn:H0; [exists l; by eapply list_elem_of_lookup_2|].
      apply lookup_ge_None in H0. unfold zlen in Hgt. lia. }
    destruct (Hin l Hl) as [[e He] _]. destruct (node_of_bound l Hl).
    destruct (max_switch_id_bound tp _ _ _ He). lia.
  - intros src dst e [(l & Hl & Hk & He)|(l & Hl & Hk & He)]%Hfrom.
    + destruct (node_of_bound l Hl). destruct Hk as [[= -> ->]|[= -> ->]]; lia.
    + destruct (pa_int _ _ _ _ Hpa l Hl) as (Hs & Hd & _). injection Hk as -> ->. lia.
  - intros k1 k2 e1 e2 H1%Hfrom H2%Hfrom. by apply came_from_unique.
Qed.


End Constructor.

(** ** Theorems *)

(** C11: [shortest_path] always returns, and what it returns is the matrix of
    the costs of the cheapest walks over the weights: the [while] loop of
    [extend_shortest_path] ends, with the same result as the definition by
    walks, whatever the order in which the loops find the shorter paths. *)
Theorem shortest_path_correct n W lat inter :
  weights_ok n W -> square n lat -> square n inter ->
  exists D, shortest_path W lat inter = Ok D /\ square n D /\
    forall i j, 0 <= i < n -> 0 <= j < n -> shortest n W i j (entry D i j).
Proof.
  intros HW Hlat Hinter. destruct (shortest_path_spec n W lat inter HW Hlat Hinter) as (D & HD & Hsq & Hsh).
  exists D. split_and!; [done|done|]. intros i j Hi Hj. by apply Hsh.
Qed.

(** The routing-table entry [shortest_path_to_node] computes for the link
    from [src] to [next] always exists and holds exactly the nodes some
    cheapest walk from [src] reaches over that link. *)
Theorem routing_table_entry_correct mt `{!MachineTypesOk mt} n W lat inter D src next :
  weights_ok n W -> square n lat -> square n inter -> shortest_path W lat inter = Ok D ->
  2 * MachineType_base_number mt (MachineType_NUM mt) <= n -> 0 <= src < n -> 0 <= next < n ->
  exists nd, shortest_path_to_node mt src next W D = Ok nd /\ dest_wf mt nd /\
    forall m i, 0 <= m < MachineType_NUM mt -> 0 <= i < MachineType_base_count mt m ->
      let t := MachineType_base_number mt (MachineType_NUM mt) + (MachineType_base_number mt m + i) in
      member m i nd <-> exists c, shortest n W next t c /\ shortest n W src t (entry W src next + c).
Proof.
  intros HW Hlat Hinter HSP Hn Hsrc Hnext.
  destruct (shortest_path_spec n W lat inter HW Hlat Hinter) as (D' & HD & Hsq & Hsh).
  rewrite HSP in HD. injection HD as <-.
  destruct (shortest_path_to_node_spec mt n W D (wo_square _ _ HW) Hsq Hn src next Hsrc Hnext) as (nd & Hnd & Hwf & Hmem).
  exists nd. split_and!; [done|done|]. intros m i Hm Hi t. rewrite Hmem by done. fold t.
  assert (0 <= t < n) as Ht.
  { destruct (node_inside mt m i Hm Hi). unfold t. lia. }
  destruct (Hsh next t Hnext Ht) as [Hs1 _], (Hsh src t Hsrc Ht) as [Hs2 _]. unfold on_path. split.
  - intros Heq. exists (entry D next t). rewrite Heq. done.
  - intros (c & Hc1 & Hc2). rewrite (shortest_unique _ _ _ _ _ _ Hs1 Hc1). symmetry. by eapply shortest_unique.
Qed.

(** ** The 2x2 mesh *)

Module DeliveryExample.
Import Example.

Definition bl : BasicLink.t := BasicLink.mk 1 16 1.

Definition exts : list ext_link :=
  map (fun i => mk_ext_link 0 i i (GarnetExtLink bl (2 * i) (2 * i + 1) (2 * i) (2 * i + 1))) [0; 1; 2; 3].

Definition ints : list int_link :=
  map (fun '(k, (s, d, (od, id), _)) => mk_int_link s d od id (GarnetIntLink bl (8 + k) (8 + k)))
    (zip (range 0 8) int_links).

Definition empty_topology : Topology.t := Topology.mk 0 0 [] [] ∅.
Definition tp : Topology.t := unwrap empty_topology (Topology.new mt 4 exts ints).
Definition linked : Net.t := unwrap (unlinked cfg) (createLinks mt tp (unlinked cfg)).

Lemma unwrap_ok {A} (d : A) m : is_ok m = true -> m = Ok (unwrap d m).
Proof. by destruct m. Qed.

Lemma tp_ok : Topology.new mt 4 exts ints = Ok tp.
Proof. apply unwrap_ok. vm_compute. reflexivity. Qed.

Lemma linked_ok : createLinks mt tp (unlinked cfg) = Ok linked.
Proof. apply unwrap_ok. vm_compute. reflexivity. Qed.

Lemma mesh_params_ok : params_ok mt 4 exts ints.
Proof.
  split.
  - vm_compute. reflexivity.
  - vm_compute. reflexivity.
  - apply Forall_forall. unfold exts, weight_ok, INFINITE_LATENCY.
    repeat (constructor; [cbn; split_and!; try lia; by do 5 eexists|]). constructor.
  - apply Forall_forall. unfold ints, weight_ok, INFINITE_LATENCY. cbn.
    repeat (constructor; [cbn; split_and!; try lia; by do 3 eexists|]). constructor.
  - apply (bool_decide_unpack _). vm_compute. reflexivity.
Qed.

Lemma unlinked_fresh : fresh (unlinked cfg).
Proof. unfold fresh. repeat (constructor; [done|]). constructor. Qed.

(** Distances to node 3, as lower bounds on the paths. *)
Definition potential (i : Z) : Z :=
  unwrap 0 (vec_at [4; 3; 3; 2; INFINITE_LATENCY; INFINITE_LATENCY; INFINITE_LATENCY; 0; 3; 2; 2; 1] i).

Definition potential_ok (k : Z * Z) (e : LinkEntry) : Prop :=
  potential k.1 <= BasicLink.m_weight (basic (link e)) + potential k.2.

#[export] Instance potential_dec k e : Decision (potential_ok k e).
Proof. unfold potential_ok. apply _. Defined.

Lemma mesh_potential i j c : link_path tp i j c -> potential i <= c + potential j.
Proof.
  assert (map_Forall potential_ok (m_link_map tp)) as Hall.
  { apply (bool_decide_unpack _). vm_compute. reflexivity. }
  induction 1 as [|i k j c e He _ IH]; [lia|]. specialize (Hall (i, k) e He). unfold potential_ok in Hall. cbn in Hall. lia.
Qed.

Definition int_entry (k : Z) (od id : PortDirection) : LinkEntry :=
  mk_entry (GarnetIntLink bl (8 + k) (8 + k)) od id.

(** From router 0 by router 1 and router 3 to the interface of node 3. *)
Lemma mesh_distance : distance tp 8 7 3.
Proof.
  split.
  - apply (path_cons tp 8 9 7 2 (int_entry 0 "East" "West")); [vm_compute; reflexivity|].
    apply (path_cons tp 9 11 7 1 (int_entry 6 "North" "South")); [vm_compute; reflexivity|].
    apply (path_cons tp 11 7 7 0 (mk_entry (GarnetExtLink bl 6 7 6 7) "" "")); [vm_compute; reflexivity|].
    constructor.
  - intros c Hc%mesh_potential. assert (potential 8 = 3 /\ potential 7 = 0) as [E1 E2] by done. lia.
Qed.

Lemma only_node3 m k : 0 <= m -> 0 <= k -> member m k (dests 8) <-> m = 0 /\ k = 3.
Proof.
  intros Hm Hk. unfold member, dests. cbn [NetDest.m_bits]. split.
  - intros (s & Hs & Hb). destruct (Z.to_nat m) eqn:E; [|done]. injection Hs as <-. cbn [NodeSet.bits] in Hb.
    split; [lia|]. change 8 with (2 ^ 3) in Hb. rewrite Z.pow2_bits_eqb in Hb by lia. zbool. lia.
  - intros [-> ->]. exists (NodeSet.mk 4 8). done.
Qed.

Lemma dests_wf mask : dest_wf mt (dests mask).
Proof. split; [done|]. intros [|i] s Hs; [by injection Hs as <-|done]. Qed.

(** The weights of the mesh. *)
Definition mesh_weights : Matrix.t * Matrix.t := unwrap ([], []) (topology_weights tp).
Definition W : Matrix.t := mesh_weights.1.
Definition lat : Matrix.t := mesh_weights.2.
Definition inter : Matrix.t := Matrix.fill 12 0.
Definition dist : Matrix.t := unwrap [] (shortest_path W lat inter).

Lemma mesh_weights_ok : weights_ok 12 W /\ square 12 lat.
Proof.
  pose proof (new_topology_ok mt 4 exts ints mesh_params_ok tp tp_ok) as [Hl _ _ _ _].
  destruct (topology_weights_spec tp Hl) as (w & l & Hw & HW & Hlat & Hent).
  destruct (link_weights_ok tp Hl w HW Hent) as [Hok _].
  assert (max_switch_id tp + 1 = 12) as Hmax by (vm_compute; reflexivity). rewrite Hmax in *.
  unfold W, lat, mesh_weights. rewrite Hw. cbn [fst snd unwrap]. split; [exact Hok|exact Hlat].
Qed.

Lemma shortest_path_correct_witness :
  exists D, shortest_path W lat inter = Ok D /\ entry dist 8 7 = 3 /\ shortest 12 W 8 7 (entry D 8 7).
Proof.
  destruct mesh_weights_ok as [HW Hlat].
  destruct (shortest_path_correct 12 W lat inter HW Hlat ltac:(by apply fill_square)) as (D & HD & _ & Hsh).
  exists D. split; [exact HD|]. split; [vm_compute; reflexivity|]. apply Hsh; lia.
Defined.

(** The link from router 0 to router 1 serves the nodes 1 and 3. *)
Lemma routing_table_entry_correct_witness :
  shortest_path_to_node mt 8 9 W dist = Ok (dests 10) /\
  exists c, shortest 12 W 9 7 c /\ shortest 12 W 8 7 (entry W 8 9 + c).
Proof.
  destruct mesh_weights_ok as [HW Hlat].
  assert (shortest_path W lat inter = Ok dist) as HSP by (apply unwrap_ok; vm_compute; reflexivity).
  assert (shortest_path_to_node mt 8 9 W dist = Ok (dests 10)) as Hnd by (vm_compute; reflexivity).
  split; [exact Hnd|].
  destruct (routing_table_entry_correct mt 12 W lat inter dist 8 9 HW Hlat ltac:(by apply fill_square) HSP
    ltac:(cbn; lia) ltac:(lia) ltac:(lia)) as (nd & Hnd' & _ & Hmem).
  rewrite Hnd in Hnd'. injection Hnd' as <-. apply (Hmem 0 3); [cbn; lia|cbn; lia|].
  exists (NodeSet.mk 4 10). split; [reflexivity|vm_compute; reflexivity].
Defined.

End DeliveryExample.
