(* ===== verification/AddrRange.v ===== *)
(** * Addresses and the nodes responsible for them

    Models src/base/addr_range.hh with the bit fields of src/base/bitfield.hh
    it uses ([Bitfield], [AddrRange]), the logarithms of src/base/intmath.hh
    and the block size of src/mem/ruby/system/RubySystem.cc ([IntMath],
    [RubySystem]), the line addresses of src/mem/ruby/common/Address.cc
    ([RubyAddress]), the address map of src/mem/ruby/network/Network.cc
    ([AddrMap]) and its use in the directory memory of
    src/mem/ruby/structures/DirectoryMemory.cc ([DirectoryMemory]).

    An address is a number below 2^64, a [uint8_t] one below 2^8. Shifts by
    a negative count or by the width of the type are undefined in C++ and are
    errors here. *)

From S2P Require Import Prelude NetDest.

Definition u8 (z : Z) : Z := z mod 2 ^ 8.

Definition MaxAddr : Z := u64 (-1).

(** [x << n] and [x >> n] on [uint64_t]. *)
Definition shl64 (x n : Z) : Res Z :=
  if (0 <=? n) && (n <? 64) then Ok (u64 (Z.shiftl x n)) else Err (InvalidArgument "shift").

Definition shr64 (x n : Z) : Res Z :=
  if (0 <=? n) && (n <? 64) then Ok (Z.shiftr x n) else Err (InvalidArgument "shift").

(** [~x] on [uint64_t]. *)
Definition not64 (x : Z) : Z := u64 (Z.lnot x).

(** ** bitfield.hh *)
Module Bitfield.

Definition mask (nbits : Z) : Res Z :=
  if nbits =? 64 then Ok (u64 (-1)) else one ← shl64 1 nbits; Ok (u64 (one - 1)).

Definition bits (val first last : Z) : Res Z :=
  let nbits := first - last + 1 in
  v ← shr64 val last;
  m ← mask nbits;
  Ok (Z.land v m).

Definition insertBits (val first last bit_val : Z) : Res Z :=
  m ← mask (first - last + 1);
  bmask ← shl64 m last;
  v ← shl64 (u64 bit_val) last;
  Ok (Z.lor (Z.land v bmask) (Z.land val (not64 bmask))).

End Bitfield.

(** ** [class AddrRange] *)
Module AddrRange.

Record t := mk {
  start_ : Z;
  end_ : Z;
  intlvHighBit : Z;
  xorHighBit : Z;
  intlvBits : Z;
  intlvMatch : Z
}.

#[global] Instance t_eq_dec : EqDecision t.
Proof. solve_decision. Defined.

(** [AddrRange()]: an empty range. *)
Definition empty : t := mk 1 0 0 0 0 0.

Definition fatal (what : string) : Res unit := Err (FatalError what).

(** The check of the XOR bits in the constructor. *)
Definition check_xor (r : t) : Res unit :=
  if negb (intlvBits r =? 0) && negb (xorHighBit r =? 0) then
    if xorHighBit r =? intlvHighBit r then
      fatal "XOR and interleave high bit must be different"
    else if xorHighBit r >? intlvHighBit r then
      if xorHighBit r - intlvHighBit r <? intlvBits r then
        fatal "XOR and interleave high bit must be at least %d bits apart"
      else Ok tt
    else if intlvHighBit r - xorHighBit r <? intlvBits r then
      fatal "Interleave and XOR high bit must be at least %d bits apart"
    else Ok tt
  else Ok tt.

Definition new (start end_ intlv_high_bit xor_high_bit intlv_bits intlv_match : Z) : Res t :=
  let r := mk start end_ intlv_high_bit xor_high_bit intlv_bits intlv_match in
  _ ← (if intlvBits r =? 0 then Ok tt else
         n ← shl64 1 (intlvBits r);
         if intlvMatch r >=? n then fatal "Match value %d does not fit in %d interleaving bits"
         else Ok tt);
  _ ← check_xor r;
  Ok r.

Definition plain (start end_ : Z) : t := mk start end_ 0 0 0 0.

Definition interleaved (r : t) : bool := negb (intlvBits r =? 0).

Definition hashed (r : t) : bool := interleaved r && negb (xorHighBit r =? 0).

Definition size (r : t) : Res Z := shr64 (u64 (end_ r - start_ r + 1)) (intlvBits r).

(** The low bits are [uint8_t]s here and [int]s in [contains]. *)
Definition granularity (r : t) : Res Z :=
  if interleaved r then
    let intlv_low_bit := u8 (intlvHighBit r - intlvBits r + 1) in
    if hashed r then
      let xor_low_bit := u8 (xorHighBit r - intlvBits r + 1) in
      shl64 1 (Z.min intlv_low_bit xor_low_bit)
    else shl64 1 intlv_low_bit
  else size r.

(** The result is a [uint32_t]. *)
Definition stripes (r : t) : Res Z := n ← shl64 1 (intlvBits r); Ok (u32 n).

Definition valid (r : t) : bool := start_ r <=? end_ r.

Definition mergesWith (r this : t) : bool :=
  (start_ r =? start_ this) && (end_ r =? end_ this) &&
  (intlvHighBit r =? intlvHighBit this) && (xorHighBit r =? xorHighBit this) &&
  (intlvBits r =? intlvBits this).

(** One turn of the loop of the merging constructor; the state is the
    [uint8_t] with the match value expected. *)
Definition merge_one (this r : t) (match_ : Z) : Res Z :=
  if negb (mergesWith r this) then
    Err (FatalError "Can only merge ranges with the same start, end and interleaving bits")
  else if negb (intlvMatch r =? match_) then
    Err (FatalError "Expected interleave match %d but got %d when merging")
  else Ok (u8 (match_ + 1)).

(** [AddrRange(const std::vector<AddrRange>&)] *)
Definition merge (ranges : list t) : Res t :=
  match ranges with
  | [] => Ok empty
  | f :: _ =>
      let this := mk (start_ f) (end_ f) (intlvHighBit f) (xorHighBit f) (intlvBits f) 0 in
      n ← shl64 1 (intlvBits this);
      if negb (zlen ranges =? n) then
        Err (FatalError "Got %d ranges spanning %d interleaving bits")
      else
        _ ← foldM (merge_one this) ranges 0;
        Ok (mk (start_ this) (end_ this) 0 0 0 0)
  end.

Definition contains (a : Z) (r : t) : Res bool :=
  let in_range := (a >=? start_ r) && (a <=? end_ r) in
  if negb (interleaved r) then Ok in_range
  else if in_range then
    if negb (hashed r) then
      b ← Bitfield.bits a (intlvHighBit r) (intlvHighBit r - intlvBits r + 1);
      Ok (b =? intlvMatch r)
    else
      b ← Bitfield.bits a (intlvHighBit r) (intlvHighBit r - intlvBits r + 1);
      x ← Bitfield.bits a (xorHighBit r) (xorHighBit r - intlvBits r + 1);
      Ok (Z.lxor b x =? intlvMatch r)
  else Ok false.

Definition intersects (r this : t) : Res bool :=
  if (start_ this >? end_ r) || (end_ this <? start_ r) then Ok false
  else if negb (interleaved this) && negb (interleaved r) then Ok true
  else
    sz ← size r;
    if sz =? 1 then contains (start_ r) this
    else if mergesWith r this then Ok (intlvMatch this =? intlvMatch r)
    else Err (FatalError "Cannot test intersection of %s and %s").

(** [&&] evaluates its operands from the left, as far as needed. *)
Definition andM (a b : Res bool) : Res bool :=
  x ← a; if (x : bool) then b else Ok false.

Definition isSubset (r this : t) : Res bool :=
  if interleaved this then Err (FatalError "Cannot test subset of interleaved range %s")
  else if interleaved r then
    andM (contains (start_ this) r)
      (andM (contains (end_ this) r)
         (sz ← size this; g ← granularity r; Ok (sz <=? g)))
  else Ok ((start_ this >=? start_ r) && (end_ this <=? end_ r)).

Definition removeIntlvBits (a : Z) (r : t) : Res Z :=
  let intlv_low_bit := intlvHighBit r - intlvBits r + 1 in
  v ← shr64 a (intlvBits r);
  Bitfield.insertBits v (intlv_low_bit - 1) 0 a.

Definition getOffset (a : Z) (r : t) : Res Z :=
  let in_range := (a >=? start_ r) && (a <=? end_ r) in
  if negb in_range then Ok MaxAddr
  else if interleaved r then
    x ← removeIntlvBits a r;
    y ← removeIntlvBits (start_ r) r;
    Ok (u64 (x - y))
  else Ok (u64 (a - start_ r)).

(** [operator<], the order of maps keyed by ranges. *)
Definition lt (this r : t) : bool :=
  if negb (start_ this =? start_ r) then start_ this <? start_ r
  else intlvMatch this <? intlvMatch r.

(** [operator==] *)
Definition eq (this r : t) : bool :=
  if negb (start_ this =? start_ r) then false
  else if negb (end_ this =? end_ r) then false
  else if negb (intlvBits this =? intlvBits r) then false
  else if negb (intlvBits this =? 0) then
    if negb (intlvHighBit this =? intlvHighBit r) then false
    else if negb (intlvMatch this =? intlvMatch r) then false
    else true
  else true.

Definition RangeEx (start end_ : Z) : t := plain start (u64 (end_ - 1)).
Definition RangeIn (start end_ : Z) : t := plain start end_.
Definition RangeSize (start size : Z) : t := plain start (u64 (start + size - 1)).

End AddrRange.

(** ** intmath.hh *)
Module IntMath.

(** [n & ~(n - 1)] on an unsigned type of [w] bits. *)
Definition leastSigBit (w n : Z) : Z := Z.land n (Z.lnot (n - 1) mod 2 ^ w).

Definition isPowerOf2 (w n : Z) : bool := negb (n =? 0) && (leastSigBit w n =? n).

(** [if (x & m) { y += k; x >>= k; }] *)
Definition log2_step (m k : Z) (s : Z * Z) : Z * Z :=
  if negb (Z.land s.1 m =? 0) then (Z.shiftr s.1 k, s.2 + k) else s.

(** [floorLog2(unsigned)] *)
Definition floorLog2_32 (x : Z) : Res Z :=
  _ ← assert_ (x >? 0) "intmath.hh:102";
  let s := log2_step 0xffff0000 16 (x, 0) in
  let s := log2_step 0x0000ff00 8 s in
  let s := log2_step 0x000000f0 4 s in
  let s := log2_step 0x0000000c 2 s in
  Ok (if negb (Z.land s.1 0x00000002 =? 0) then s.2 + 1 else s.2).

(** [floorLog2(unsigned long)], with 64 bits. *)
Definition floorLog2_64 (x : Z) : Res Z :=
  _ ← assert_ (x >? 0) "intmath.hh:118";
  let s := log2_step 0xffffffff00000000 32 (x, 0) in
  let s := log2_step 0xffff0000 16 s in
  let s := log2_step 0x0000ff00 8 s in
  let s := log2_step 0x000000f0 4 s in
  let s := log2_step 0x0000000c 2 s in
  Ok (if negb (Z.land s.1 0x00000002 =? 0) then s.2 + 1 else s.2).

End IntMath.

(** ** The block size of [class RubySystem] *)
Module RubySystem.

Record t := mk {
  m_block_size_bytes : Z;
  m_block_size_bits : Z
}.

Definition new (block_size_bytes : Z) : Res t :=
  _ ← assert_ (IntMath.isPowerOf2 32 block_size_bytes) "RubySystem.cc:66";
  b ← IntMath.floorLog2_32 block_size_bytes;
  Ok (mk block_size_bytes b).

Definition getBlockSizeBytes (s : t) : Z := m_block_size_bytes s.
Definition getBlockSizeBits (s : t) : Z := m_block_size_bits s.

End RubySystem.

(** ** ruby/common/Address.cc *)
Module RubyAddress.

Definition ADDRESS_WIDTH : Z := 64.

(** [(Addr)~0] *)
Definition ones : Z := not64 0.

Definition bitSelect (addr small big : Z) : Res Z :=
  _ ← assert_ (big >=? small) "Address.cc:36";
  if big >=? ADDRESS_WIDTH - 1 then shr64 addr small
  else
    m ← shl64 ones (big + 1);
    shr64 (Z.land addr (not64 m)) small.

Definition bitRemove (addr small big : Z) : Res Z :=
  _ ← assert_ (big >=? small) "Address.cc:51";
  if small >=? ADDRESS_WIDTH - 1 then Ok addr
  else if big >=? ADDRESS_WIDTH - 1 then
    m ← shr64 ones small; Ok (Z.land addr m)
  else if small =? 0 then
    m ← shl64 ones big; Ok (Z.land addr m)
  else
    m ← shl64 ones small;
    let lower_bits := Z.land addr (not64 m) in
    m ← shl64 ones (big + 1);
    let higher_bits := Z.land addr m in
    higher_bits ← shr64 higher_bits (big - small + 1);
    Ok (Z.lor higher_bits lower_bits).

(** [mask = ~0] converts the [int] -1. *)
Definition maskLowOrderBits (addr number : Z) : Res Z :=
  m ← (if number >=? ADDRESS_WIDTH - 1 then Ok (u64 (-1)) else shl64 ones number);
  Ok (Z.land addr m).

Definition maskHighOrderBits (addr number : Z) : Res Z :=
  m ← (if number >=? ADDRESS_WIDTH - 1 then Ok (u64 (-1)) else shr64 ones number);
  Ok (Z.land addr m).

Definition shiftLowOrderBits (addr number : Z) : Res Z := shr64 addr number.

Definition getOffset (addr : Z) (s : RubySystem.t) : Res Z :=
  bitSelect addr 0 (u32 (RubySystem.getBlockSizeBits s - 1)).

Definition makeLineAddress (addr : Z) (s : RubySystem.t) : Res Z :=
  maskLowOrderBits addr (RubySystem.getBlockSizeBits s).

(** [uint32_t * int] is an unsigned product of 32 bits. *)
Definition makeNextStrideAddress (addr stride : Z) (s : RubySystem.t) : Res Z :=
  a ← maskLowOrderBits addr (RubySystem.getBlockSizeBits s);
  Ok (u64 (a + u32 (RubySystem.getBlockSizeBytes s * stride))).

End RubyAddress.

(** ** The address map of [class Network] *)
Module AddrMap.

(** [struct AddrMapNode] *)
Record node := mk_node {
  id : Z;
  ranges : list AddrRange.t
}.

(** The [std::unordered_multimap], in the order in which it is searched. *)
Definition t : Type := list (Z * node).

(** What the network asks of a controller: its machine ID and ranges. *)
Record controller := mk_controller {
  cntrl_type : Z;
  cntrl_num : Z;
  cntrl_ranges : list AddrRange.t
}.

(** [emplace] puts the pair at a place the library does not specify. *)
Inductive emplaced (k : Z) (v : node) : t -> t -> Prop :=
  | emplaced_at l1 l2 : emplaced k v (l1 ++ l2) (l1 ++ (k, v) :: l2).

(** The loop of the constructor over the external links' controllers. *)
Inductive constructed : list controller -> t -> Prop :=
  | constructed_nil : constructed [] []
  | constructed_skip cs c m :
      constructed cs m -> cntrl_ranges c = [] -> constructed (cs ++ [c]) m
  | constructed_emplace cs c m m' :
      constructed cs m -> cntrl_ranges c <> [] ->
      emplaced (cntrl_type c) (mk_node (cntrl_num c) (cntrl_ranges c)) m m' ->
      constructed (cs ++ [c]) m'.

Definition equal_range (mtype : Z) (m : t) : list node :=
  map snd (filter (fun kv => kv.1 = mtype) m).

(** The inner loop of the search. *)
Definition node_contains (addr : Z) (n : node) : Res bool :=
  o ← findM (AddrRange.contains addr) (ranges n);
  Ok (match o with Some _ => true | None => false end).

Definition addressToNodeID (mt : MachineTypes) (addr mtype : Z) (m : t) : Res Z :=
  o ← findM (node_contains addr) (equal_range mtype m);
  Ok (match o with Some n => id n | None => MachineType_base_count mt mtype end).

End AddrMap.

(** ** [class DirectoryMemory]

    The entries are pointers to objects of the protocol; the method
    [changePermission] that [allocate] calls on one is a parameter that acts
    on the store of these objects. *)
Module DirectoryMemory.

Record t := mk {
  addrRanges : list AddrRange.t;
  m_size_bytes : Z;
  m_size_bits : Z;
  m_num_entries : Z;
  m_entries : list (option Z)
}.

Definition new (addr_ranges : list AddrRange.t) : Res t :=
  sz ← foldM (fun r acc => s ← AddrRange.size r; Ok (u64 (acc + s))) addr_ranges 0;
  b ← IntMath.floorLog2_64 sz;
  Ok (mk addr_ranges sz b 0 []).

(** The division by zero is undefined. The counter of the loop is an [int],
    which overflows at 2^31. *)
Definition init (s : RubySystem.t) (d : t) : Res t :=
  if RubySystem.getBlockSizeBytes s =? 0 then Err (InvalidArgument "division by zero")
  else
    let n := m_size_bytes d / RubySystem.getBlockSizeBytes s in
    if n >? 2 ^ 31 - 1 then Err (InvalidArgument "int overflow")
    else Ok (mk (addrRanges d) (m_size_bytes d) (m_size_bits d) n (replicate (Z.to_nat n) None)).

Definition isPresent (address : Z) (d : t) : Res bool :=
  o ← findM (AddrRange.contains address) (addrRanges d);
  Ok (match o with Some _ => true | None => false end).

(** The loop of [mapAddressToLocalIdx] with the sum so far. *)
Fixpoint local_offset (address ret : Z) (rs : list AddrRange.t) : Res Z :=
  match rs with
  | [] => Ok ret
  | r :: rs =>
      c ← AddrRange.contains address r;
      if (c : bool) then o ← AddrRange.getOffset address r; Ok (u64 (ret + o))
      else s ← AddrRange.size r; local_offset address (u64 (ret + s)) rs
  end.

Definition mapAddressToLocalIdx (s : RubySystem.t) (address : Z) (d : t) : Res Z :=
  ret ← local_offset address 0 (addrRanges d);
  shr64 ret (RubySystem.getBlockSizeBits s).

Definition lookup (s : RubySystem.t) (address : Z) (d : t) : Res (option Z) :=
  p ← isPresent address d;
  _ ← assert_ p "DirectoryMemory.cc:115";
  idx ← mapAddressToLocalIdx s address d;
  _ ← assert_ (idx <? m_num_entries d) "DirectoryMemory.cc:119";
  vec_at (m_entries d) idx.

Section Allocate.
Context {Store : Type} (changePermission_Read_Only : Z -> Store -> Res Store).

Definition allocate (s : RubySystem.t) (address entry : Z) (d : t) (st : Store)
    : Res (t * Store) :=
  p ← isPresent address d;
  _ ← assert_ p "DirectoryMemory.cc:126";
  idx ← mapAddressToLocalIdx s address d;
  _ ← assert_ (idx <? m_num_entries d) "DirectoryMemory.cc:131";
  st ← changePermission_Read_Only entry st;
  es ← vec_set (m_entries d) idx (Some entry);
  Ok (mk (addrRanges d) (m_size_bytes d) (m_size_bits d) (m_num_entries d) es, st).

End Allocate.

End DirectoryMemory.
