(* ===== verification/AddrRangeFacts.v ===== *)
(** * Address ranges are what they promise

    Over the definitions of AddrRange.v: the ranges of an interleaved family
    partition the addresses, hashed or not; the offsets in a range are a
    bijection; a merged range is the union of its parts; the logarithms and
    the block size; a line address and its offset make up the address. *)

From S2P Require Import Prelude NetDest AddrRange.

(** ** Bit fields *)

(** The field of [k] bits of [a] from bit [lo] on. *)
Definition slice (a lo k : Z) : Z := (a / 2 ^ lo) mod 2 ^ k.

Definition is_addr (a : Z) : Prop := 0 <= a < 2 ^ 64.

Lemma pow2_pos n : 0 <= n -> 0 < 2 ^ n.
Proof. intros. by apply Z.pow_pos_nonneg. Qed.

Lemma pow2_split n m : 0 <= m <= n -> 2 ^ n = 2 ^ (n - m) * 2 ^ m.
Proof. intros. rewrite <- Z.pow_add_r by lia. f_equal. lia. Qed.

Lemma u64_addr a : is_addr a -> u64 a = a.
Proof. intros. by apply Z.mod_small. Qed.

Lemma shl64_Ok x n : 0 <= n < 64 -> shl64 x n = Ok (u64 (x * 2 ^ n)).
Proof.
  intros. unfold shl64. rewrite (proj2 (Z.leb_le _ _)), (proj2 (Z.ltb_lt _ _)) by lia.
  cbn. by rewrite Z.shiftl_mul_pow2 by lia.
Qed.

Lemma shr64_Ok x n : 0 <= n < 64 -> shr64 x n = Ok (x / 2 ^ n).
Proof.
  intros. unfold shr64. rewrite (proj2 (Z.leb_le _ _)), (proj2 (Z.ltb_lt _ _)) by lia.
  cbn. by rewrite Z.shiftr_div_pow2 by lia.
Qed.

Lemma shl64_one n : 0 <= n < 64 -> shl64 1 n = Ok (2 ^ n).
Proof.
  intros. rewrite shl64_Ok by lia. f_equal. rewrite Z.mul_1_l. apply u64_addr.
  pose proof (pow2_pos n). pose proof (Z.pow_lt_mono_r 2 n 64). unfold is_addr. lia.
Qed.

Lemma mask_Ok n : 0 <= n <= 64 -> Bitfield.mask n = Ok (Z.ones n).
Proof.
  intros. unfold Bitfield.mask. destruct (Z.eqb_spec n 64) as [->|]; [done|].
  rewrite shl64_one by lia. cbn. f_equal. rewrite Z.ones_equiv, <- Z.sub_1_r.
  apply u64_addr. pose proof (pow2_pos n). pose proof (Z.pow_lt_mono_r 2 n 64). unfold is_addr. lia.
Qed.

Lemma slice_range a lo k : 0 <= k -> 0 <= slice a lo k < 2 ^ k.
Proof. intros. apply Z.mod_pos_bound, pow2_pos. lia. Qed.

(** The field of [bits] from its first bit down to its last. *)
Lemma bits_Ok a h k : 0 <= k <= h + 1 -> h < 64 -> h - k + 1 < 64 ->
  Bitfield.bits a h (h - k + 1) = Ok (slice a (h - k + 1) k).
Proof.
  intros. unfold Bitfield.bits. rewrite shr64_Ok by lia. cbn.
  replace (h - (h - k + 1) + 1) with k by lia. rewrite mask_Ok by lia. cbn.
  f_equal. apply Z.land_ones. lia.
Qed.

(** A field above bit [n] is one of the number without its low bits. *)
Lemma slice_above a lo k n : 0 <= n <= lo -> slice a lo k = slice (a / 2 ^ n) (lo - n) k.
Proof.
  intros. unfold slice. rewrite Z.div_div by (apply Z.pow_nonzero + apply pow2_pos; lia).
  rewrite <- Z.pow_add_r by lia. do 3 f_equal. lia.
Qed.

(** A field below bit [n] depends on the low bits only. *)
Lemma slice_below a lo k n : 0 <= lo -> 0 <= k -> lo + k <= n ->
  slice (a mod 2 ^ n) lo k = slice a lo k.
Proof.
  intros. unfold slice. apply Z.bits_inj'. intros i Hi.
  destruct (decide (i < k)).
  - rewrite !Z.mod_pow2_bits_low, !Z.div_pow2_bits, Z.mod_pow2_bits_low by lia. done.
  - rewrite !Z.mod_pow2_bits_high by lia. done.
Qed.

Lemma lxor_slice_range a b lo lo' k : 0 <= k ->
  0 <= Z.lxor (slice a lo k) (slice b lo' k) < 2 ^ k.
Proof.
  intros. unfold slice. rewrite <- !Z.land_ones by lia.
  assert (forall x y, Z.lxor (Z.land x (Z.ones k)) (Z.land y (Z.ones k))
                      = Z.land (Z.lxor x y) (Z.ones k)) as ->.
  { intros. apply Z.bits_inj'. intros i Hi. rewrite !Z.land_spec, !Z.lxor_spec, !Z.land_spec.
    by destruct (Z.testbit x i), (Z.testbit y i), (Z.testbit (Z.ones k) i). }
  rewrite Z.land_ones by lia. apply Z.mod_pos_bound, pow2_pos. lia.
Qed.

(** ** Interleaving *)

(** A slice of [k] bits below bit [h], and one below [x] when that is not
    0, that lie in the address and do not overlap: what the constructor
    checks, and that the slices do not stick out of the address. *)
Definition geometry (h x k : Z) : Prop :=
  0 < k <= 8 /\ k <= h + 1 /\ 0 <= h < 64 /\
  (x = 0 \/ k <= x + 1 /\ 0 < x < 64 /\ (h + k <= x \/ x + k <= h)).

(** The match value of an address: the one range of a family it is in. *)
Definition key (h x k a : Z) : Z :=
  let b := slice a (h - k + 1) k in
  if x =? 0 then b else Z.lxor b (slice a (x - k + 1) k).

Lemma key_range h x k a : 0 <= k -> 0 <= key h x k a < 2 ^ k.
Proof.
  intros. unfold key. case_match; [by apply slice_range | by apply lxor_slice_range].
Qed.

(** What the objects of the class have in common. *)
Definition wf (r : AddrRange.t) : Prop :=
  is_addr (AddrRange.start_ r) /\ is_addr (AddrRange.end_ r) /\
  (AddrRange.intlvBits r = 0 \/
   geometry (AddrRange.intlvHighBit r) (AddrRange.xorHighBit r) (AddrRange.intlvBits r) /\
   0 <= AddrRange.intlvMatch r < 2 ^ AddrRange.intlvBits r).

Definition within (a : Z) (r : AddrRange.t) : bool :=
  (AddrRange.start_ r <=? a) && (a <=? AddrRange.end_ r).

(** The address has the range's match value. *)
Definition matches (a : Z) (r : AddrRange.t) : bool :=
  (AddrRange.intlvBits r =? 0) ||
  (key (AddrRange.intlvHighBit r) (AddrRange.xorHighBit r) (AddrRange.intlvBits r) a
     =? AddrRange.intlvMatch r).

Lemma contains_Ok a r : wf r -> AddrRange.contains a r = Ok (within a r && matches a r).
Proof.
  intros (_ & _ & Hk). unfold AddrRange.contains, within, matches, AddrRange.interleaved.
  rewrite Z.geb_leb. destruct (Z.eqb_spec (AddrRange.intlvBits r) 0) as [E|E]; cbn [negb orb].
  { by rewrite andb_true_r. }
  destruct Hk as [|[(? & ? & ? & Hx) _]]; [done|].
  case_match; [|done]. cbn [andb]. unfold AddrRange.hashed, AddrRange.interleaved, key.
  rewrite (proj2 (Z.eqb_neq _ _) E). cbn [negb andb].
  rewrite !bits_Ok by lia. destruct (Z.eqb_spec (AddrRange.xorHighBit r) 0); cbn [negb]; [done|].
  cbn. destruct Hx as [|(? & ? & ?)]; [done|]. rewrite bits_Ok by lia. done.
Qed.

Lemma new_Ok s e h x k m : geometry h x k -> 0 <= m < 2 ^ k ->
  AddrRange.new s e h x k m = Ok (AddrRange.mk s e h x k m).
Proof.
  intros (? & ? & ? & Hx) ?. unfold AddrRange.new, AddrRange.check_xor. cbn.
  rewrite (proj2 (Z.eqb_neq k 0)) by lia. rewrite shl64_one by lia. cbn.
  rewrite Z.geb_leb, (proj2 (Z.leb_gt _ _)) by lia. cbn.
  destruct (Z.eqb_spec x 0); cbn; [done|]. destruct Hx as [|(? & ? & Hx)]; [done|].
  rewrite (proj2 (Z.eqb_neq x h)), Z.gtb_ltb by lia.
  destruct (Z.ltb_spec h x); rewrite (proj2 (Z.ltb_ge _ _)) by lia; done.
Qed.

(** The member of the family with a match value. *)
Definition member (s e h x k m : Z) : AddrRange.t := AddrRange.mk s e h x k m.

Lemma member_wf s e h x k m :
  is_addr s -> is_addr e -> geometry h x k -> 0 <= m < 2 ^ k -> wf (member s e h x k m).
Proof. intros. split_and!; [done..|]. right. done. Qed.

Lemma member_matches s e h x k m a : 0 < k ->
  matches a (member s e h x k m) = (key h x k a =? m).
Proof. intros. unfold matches. cbn. by rewrite (proj2 (Z.eqb_neq k 0)) by lia. Qed.

(** The ranges of an interleaved family partition the addresses
    between their ends: the constructor takes every match value, each
    address is in the range of exactly one of them, with or without hashing,
    and no range holds an address outside. *)
Theorem interleaving_partitions s e h x k :
  is_addr s -> is_addr e -> geometry h x k ->
  forall a, exists m, 0 <= m < 2 ^ k /\
  forall m', 0 <= m' < 2 ^ k ->
  exists r, AddrRange.new s e h x k m' = Ok r /\
    AddrRange.contains a r = Ok ((s <=? a) && (a <=? e) && (m =? m')).
Proof.
  intros Hs He Hg a. pose proof Hg as (? & _).
  exists (key h x k a). split; [apply key_range; lia|]. intros m' Hm'.
  exists (member s e h x k m'). split; [by apply new_Ok|].
  rewrite contains_Ok by (by apply member_wf). f_equal.
  rewrite member_matches by lia. done.
Qed.

(** ** Merging *)

(** The complete family, in the order of the match values. *)
Definition family (s e h x k : Z) : list AddrRange.t := map (member s e h x k) (range 0 (2 ^ k)).

Lemma merge_one_Ok this r m :
  0 <= m < 256 ->
  AddrRange.merge_one this r m =
    (if decide (r = member (AddrRange.start_ this) (AddrRange.end_ this)
                      (AddrRange.intlvHighBit this) (AddrRange.xorHighBit this)
                      (AddrRange.intlvBits this) m)
     then Ok (u8 (m + 1)) else AddrRange.merge_one this r m) /\
  (r <> member (AddrRange.start_ this) (AddrRange.end_ this)
          (AddrRange.intlvHighBit this) (AddrRange.xorHighBit this) (AddrRange.intlvBits this) m ->
   is_ok (AddrRange.merge_one this r m) = false).
Proof.
  intros Hm. destruct r as [s e h x k m'], this as [s0 e0 h0 x0 k0 m0].
  unfold AddrRange.merge_one, AddrRange.mergesWith, member. cbn. split.
  - case_decide as E; [|done]. injection E as -> -> -> -> -> ->. by rewrite !Z.eqb_refl.
  - intros Hne.
    destruct (Z.eqb_spec s s0), (Z.eqb_spec e e0), (Z.eqb_spec h h0), (Z.eqb_spec x x0),
      (Z.eqb_spec k k0), (Z.eqb_spec m' m); cbn [andb negb]; try done. by subst.
Qed.

(** The loop of the merging constructor accepts the family and nothing else. *)
Lemma merge_loop this rs m :
  0 <= m -> m + zlen rs <= 256 ->
  is_ok (foldM (AddrRange.merge_one this) rs (u8 m)) = true <->
  rs = map (member (AddrRange.start_ this) (AddrRange.end_ this)
              (AddrRange.intlvHighBit this) (AddrRange.xorHighBit this)
              (AddrRange.intlvBits this)) (range m (m + zlen rs)).
Proof.
  unfold zlen. revert m. induction rs as [|r rs IH]; intros m Hm Hlen; cbn [length foldM] in *.
  { by rewrite range_empty by lia. }
  rewrite range_cons by lia. cbn [map].
  assert (u8 m = m) as -> by (apply Z.mod_small; lia).
  destruct (merge_one_Ok this r m) as [Hok Herr]; [lia|]. rewrite Hok.
  case_decide as E.
  - cbn. rewrite IH by lia. replace (m + 1 + Z.of_nat (length rs)) with (m + Z.of_nat (S (length rs))) by lia.
    rewrite <- E. split; [by intros <- | congruence].
  - split; [|by intros [= ? _]]. intros H. specialize (Herr E).
    destruct (AddrRange.merge_one this r m); done.
Qed.

(** The merging constructor as a test of its argument. *)
Lemma merge_cases rs f : head rs = Some f -> 0 <= AddrRange.intlvBits f <= 8 ->
  is_ok (AddrRange.merge rs) = true <->
  rs = family (AddrRange.start_ f) (AddrRange.end_ f) (AddrRange.intlvHighBit f)
         (AddrRange.xorHighBit f) (AddrRange.intlvBits f).
Proof.
  destruct rs as [|f' rs]; [done|]. intros [= <-] Hk.
  unfold AddrRange.merge. rewrite shl64_one by (cbn; lia). cbn -[foldM map zlen]. unfold family.
  assert (2 ^ AddrRange.intlvBits f' <= 256) as Hp
    by (change 256 with (2 ^ 8); apply Z.pow_le_mono_r; lia).
  pose proof (pow2_pos (AddrRange.intlvBits f')).
  set (this := AddrRange.mk _ _ (AddrRange.intlvHighBit f') _ _ _).
  destruct (Z.eqb_spec (zlen (f' :: rs)) (2 ^ AddrRange.intlvBits f')) as [E|E]; cbn [negb].
  - pose proof (merge_loop this (f' :: rs) 0) as H0. rewrite Z.add_0_l, E in H0.
    etransitivity; [|apply H0; lia]. change (u8 0) with 0. by destruct (foldM _ (f' :: rs) 0).
  - split; [done|]. intros H0. destruct E. rewrite H0, zlen_map. unfold zlen, range.
    rewrite length_seqZ. lia.
Qed.

Lemma merge_value rs f r :
  head rs = Some f -> AddrRange.merge rs = Ok r ->
  r = AddrRange.plain (AddrRange.start_ f) (AddrRange.end_ f).
Proof.
  destruct rs as [|f' rs]; [done|]. intros [= <-] H. unfold AddrRange.merge in H.
  inv_bind H. case_match; [done|]. inv_bind H. by simplify_res.
Qed.

Lemma family_head s e h x k : 0 <= k -> head (family s e h x k) = Some (member s e h x k 0).
Proof. intros. unfold family. rewrite range_cons; [done|]. by apply pow2_pos. Qed.

(** Ranges merge exactly when they are a complete family in order,
    and the merged range holds exactly the addresses the parts hold; every
    address of it is in one of them. *)
Theorem merge_correct rs f :
  head rs = Some f -> Forall wf rs ->
  (is_ok (AddrRange.merge rs) = true <->
   rs = family (AddrRange.start_ f) (AddrRange.end_ f) (AddrRange.intlvHighBit f)
          (AddrRange.xorHighBit f) (AddrRange.intlvBits f)) /\
  forall r a, AddrRange.merge rs = Ok r ->
    AddrRange.contains a r = Ok true <->
    exists r', r' ∈ rs /\ AddrRange.contains a r' = Ok true.
Proof.
  intros Hf Hwf. assert (f ∈ rs) as Hin by (destruct rs; simplify_eq/=; constructor).
  rewrite Forall_forall in Hwf. destruct (Hwf f Hin) as (Hs & He & Hk).
  assert (0 <= AddrRange.intlvBits f <= 8) as Hk8.
  { destruct Hk as [->|[(? & _) _]]; lia. }
  split; [by apply merge_cases|]. intros r a Hr.
  assert (is_ok (AddrRange.merge rs) = true) as Hok by (by rewrite Hr).
  apply (merge_cases _ _ Hf Hk8) in Hok. apply (merge_value _ _ _ Hf) in Hr as ->.
  rewrite contains_Ok by (split_and!; [done..|by left]).
  unfold within, matches, AddrRange.plain. cbn. rewrite andb_true_r. split.
  - intros [= Ha]. destruct (decide (AddrRange.intlvBits f = 0)) as [E|E].
    { exists f. split; [done|]. rewrite contains_Ok by auto. unfold within, matches.
      by rewrite E, Ha. }
    destruct Hk as [|[Hg _]]; [done|]. pose proof Hg as (? & _).
    pose proof (key_range (AddrRange.intlvHighBit f) (AddrRange.xorHighBit f)
                  (AddrRange.intlvBits f) a) as Hkr.
    rewrite Hok. eexists. split.
    { unfold family. apply list_elem_of_fmap. eexists. split; [reflexivity|].
      apply in_range. apply Hkr. lia. }
    rewrite contains_Ok by (apply member_wf; auto; apply Hkr; lia).
    rewrite member_matches, Z.eqb_refl, andb_true_r by lia. f_equal. apply Ha.
  - intros (r' & Hin' & Hc). rewrite contains_Ok in Hc by auto.
    rewrite Hok in Hin'. apply list_elem_of_fmap in Hin' as (m & -> & _).
    injection Hc as [Hc _]%andb_true_iff. f_equal. apply Hc.
Qed.

(** ** Offsets *)

Lemma land_not64 v m : is_addr v -> Z.land v (not64 m) = Z.ldiff v m.
Proof.
  intros Hv. unfold not64, u64. rewrite <- Z.land_ones by lia.
  rewrite (Z.land_comm (Z.lnot m)), Z.land_assoc, Z.land_ones, Z.mod_small by (done || lia).
  by rewrite Z.ldiff_land.
Qed.

Lemma lor_parts a b n : 0 <= n -> Z.lor (a mod 2 ^ n) (b * 2 ^ n) = b * 2 ^ n + a mod 2 ^ n.
Proof.
  intros. rewrite Z.add_comm, <- Z.add_lor_land.
  assert (Z.land (a mod 2 ^ n) (b * 2 ^ n) = 0) as ->; [|lia].
  apply Z.bits_inj'. intros i Hi. rewrite Z.land_spec, Z.bits_0.
  destruct (decide (i < n)).
  - by rewrite Z.mul_pow2_bits_low, andb_false_r by lia.
  - by rewrite Z.mod_pow2_bits_high by lia.
Qed.

(** The address without the [k] bits up to bit [h]. *)
Definition rem (h k a : Z) : Z := a / 2 ^ (h + 1) * 2 ^ (h - k + 1) + a mod 2 ^ (h - k + 1).

(** The address with the bits [i] put in. *)
Definition glue (h k q i : Z) : Z :=
  q / 2 ^ (h - k + 1) * 2 ^ (h + 1) + i * 2 ^ (h - k + 1) + q mod 2 ^ (h - k + 1).

Lemma div_addr a n : 0 <= n -> is_addr a -> is_addr (a / 2 ^ n).
Proof.
  intros Hn [? ?]. pose proof (pow2_pos n Hn). split; [by apply Z.div_pos|].
  apply Z.le_lt_trans with a; [|done]. apply Z.div_le_upper_bound; nia.
Qed.

Lemma mul_div_addr a n : 0 <= n -> is_addr a -> is_addr (a / 2 ^ n * 2 ^ n).
Proof.
  intros Hn [? ?]. pose proof (pow2_pos n Hn).
  pose proof (Z.mul_div_le a (2 ^ n)). pose proof (Z.div_pos a (2 ^ n)).
  split; nia.
Qed.

Lemma removeIntlvBits_Ok a r :
  geometry (AddrRange.intlvHighBit r) (AddrRange.xorHighBit r) (AddrRange.intlvBits r) ->
  is_addr a ->
  AddrRange.removeIntlvBits a r = Ok (rem (AddrRange.intlvHighBit r) (AddrRange.intlvBits r) a).
Proof.
  intros (? & ? & ? & _) Ha. unfold AddrRange.removeIntlvBits, Bitfield.insertBits, rem.
  set (k := AddrRange.intlvBits r) in *. set (h := AddrRange.intlvHighBit r) in *.
  rewrite shr64_Ok by lia. cbn -[shl64 Bitfield.mask].
  replace (h - k + 1 - 1 - 0 + 1) with (h - k + 1) by lia.
  rewrite mask_Ok by lia. cbn -[shl64]. rewrite !shl64_Ok by lia.
  cbn -[u64 not64]. rewrite !Z.mul_1_r. f_equal.
  assert (u64 (Z.ones (h - k + 1)) = Z.ones (h - k + 1)) as ->.
  { apply u64_addr. rewrite Z.ones_equiv. pose proof (pow2_pos (h - k + 1)).
    pose proof (Z.pow_lt_mono_r 2 (h - k + 1) 64). unfold is_addr. lia. }
  rewrite !(u64_addr a) by done. rewrite land_not64 by (apply div_addr; [lia|done]).
  rewrite Z.ldiff_ones_r, Z.shiftl_mul_pow2, Z.shiftr_div_pow2, Z.land_ones by lia.
  rewrite Z.div_div by (apply Z.pow_nonzero + apply pow2_pos; lia).
  rewrite <- Z.pow_add_r by lia. replace (k + (h - k + 1)) with (h + 1) by lia.
  apply lor_parts. lia.
Qed.

Section Split.
Context (h k : Z).
Hypothesis (Hk : 0 < k <= h + 1).

Let low : Z := h - k + 1.

Lemma pow_high : 2 ^ (h + 1) = 2 ^ k * 2 ^ low.
Proof. unfold low. rewrite <- Z.pow_add_r by lia. f_equal. lia. Qed.

Lemma rem_div a : rem h k a / 2 ^ low = a / 2 ^ (h + 1).
Proof.
  unfold rem. fold low. pose proof (pow2_pos low).
  rewrite Z.div_add_l by lia. rewrite (Z.div_small (a mod _)); [lia|].
  apply Z.mod_pos_bound. lia.
Qed.

Lemma rem_mod a : rem h k a mod 2 ^ low = a mod 2 ^ low.
Proof.
  unfold rem. fold low. rewrite Z.add_comm, Z.mod_add, Z.mod_mod; [done|..];
    apply Z.pow_nonzero; lia.
Qed.

(** The parts of an address put together again. *)
Lemma glue_rem a : glue h k (rem h k a) (slice a low k) = a.
Proof.
  unfold glue. fold low. rewrite rem_div, rem_mod. unfold slice.
  pose proof (pow2_pos low). pose proof (pow2_pos k).
  rewrite pow_high, (Z.mul_comm (2 ^ k)), <- Z.div_div by lia.
  pose proof (Z.div_mod a (2 ^ low)). pose proof (Z.div_mod (a / 2 ^ low) (2 ^ k)). nia.
Qed.

Lemma glue_split q i : 0 <= i < 2 ^ k ->
  glue h k q i / 2 ^ (h + 1) = q / 2 ^ low /\ glue h k q i mod 2 ^ low = q mod 2 ^ low /\
  slice (glue h k q i) low k = i.
Proof.
  intros Hi. assert (0 < 2 ^ low) as Hl by (apply pow2_pos; unfold low; lia).
  unfold glue, slice. fold low. rewrite pow_high.
  pose proof (Z.mod_pos_bound q (2 ^ low) Hl) as Hq.
  revert Hi Hl Hq. generalize (2 ^ low) as L, (2 ^ k) as K. intros L K Hi Hl Hq.
  replace (q / L * (K * L) + i * L + q mod L) with ((q / L * K + i) * L + q mod L) by ring.
  assert (((q / L * K + i) * L + q mod L) / L = q / L * K + i) as Hd.
  { rewrite Z.div_add_l, (Z.div_small (q mod L)) by lia. lia. }
  split_and!.
  - rewrite (Z.mul_comm K), <- Z.div_div, Hd by lia.
    rewrite Z.div_add_l, (Z.div_small i) by lia. lia.
  - rewrite Z.add_comm, Z.mod_add, Z.mod_mod by lia. done.
  - rewrite Hd, Z.add_comm, Z.mod_add, Z.mod_small by lia. done.
Qed.

Lemma rem_glue q i : 0 <= i < 2 ^ k -> rem h k (glue h k q i) = q.
Proof.
  intros Hi. destruct (glue_split q i Hi) as (Ha & Hb & _). unfold rem. fold low.
  rewrite Ha, Hb. pose proof (pow2_pos low). pose proof (Z.div_mod q (2 ^ low)). lia.
Qed.

(** A slice that does not overlap the removed bits does not depend on them. *)
Lemma slice_apart x a b :
  0 <= x - k + 1 -> h + k <= x \/ x + k <= h -> rem h k a = rem h k b ->
  slice a (x - k + 1) k = slice b (x - k + 1) k.
Proof.
  intros Hx Ho Hr. destruct Ho.
  - rewrite !(slice_above _ (x - k + 1) k (h + 1)) by lia. f_equal.
    by rewrite <- (rem_div a), <- (rem_div b), Hr.
  - rewrite <- (slice_below a _ k low), <- (slice_below b _ k low) by (unfold low; lia). f_equal.
    by rewrite <- (rem_mod a), <- (rem_mod b), Hr.
Qed.

End Split.

Lemma lxor_range m a lo k : 0 <= m < 2 ^ k -> 0 <= k -> 0 <= Z.lxor m (slice a lo k) < 2 ^ k.
Proof.
  intros Hm Hk. assert (m = slice m 0 k) as ->.
  { unfold slice. rewrite Z.pow_0_r, Z.div_1_r, Z.mod_small; done. }
  by apply lxor_slice_range.
Qed.

Lemma lxor_cancel a b : Z.lxor (Z.lxor a b) b = a.
Proof. by rewrite Z.lxor_assoc, Z.lxor_nilpotent, Z.lxor_0_r. Qed.

(** The removed bits can be filled in for every match value, in one way. *)
Lemma fill_in h x k q m : geometry h x k -> 0 <= m < 2 ^ k ->
  exists a, rem h k a = q /\ key h x k a = m /\
    forall a', rem h k a' = q -> key h x k a' = m -> a' = a.
Proof.
  intros (Hk & Hkh & _ & Hx) Hm. assert (0 < k <= h + 1) as Hh by lia.
  set (i := if x =? 0 then m else Z.lxor m (slice (glue h k q 0) (x - k + 1) k)).
  assert (0 <= i < 2 ^ k) as Hi by (unfold i; case_match; [done|apply lxor_range; lia]).
  assert (0 <= 0 < 2 ^ k) as H0 by lia.
  exists (glue h k q i). pose proof (rem_glue h k Hh q) as Hrem.
  assert (forall a, rem h k a = q -> key h x k a = m <-> slice a (h - k + 1) k = i) as Hkey.
  { intros a Ha. unfold key, i. destruct (Z.eqb_spec x 0); [done|].
    destruct Hx as [|(? & ? & Ho)]; [done|].
    rewrite (slice_apart h k Hh x (glue h k q 0) a) by (rewrite ?Hrem, ?Ha; lia).
    split; [intros <- | intros ->]; by rewrite lxor_cancel. }
  split_and!; [by apply Hrem| |].
  - apply Hkey; [by apply Hrem|]. by apply glue_split.
  - intros a' Hq Ha'. rewrite <- (glue_rem h k Hh a'), Hq. f_equal. by apply Hkey.
Qed.

(** A range whose ends lie at multiples of the interleaving. *)
Definition aligned (r : AddrRange.t) : Prop :=
  let h := AddrRange.intlvHighBit r in
  AddrRange.start_ r <= AddrRange.end_ r /\
  AddrRange.end_ r - AddrRange.start_ r + 1 < 2 ^ 64 /\
  (AddrRange.intlvBits r = 0 \/
   exists s e, AddrRange.start_ r = s * 2 ^ (h + 1) /\ AddrRange.end_ r + 1 = e * 2 ^ (h + 1)).

(** The position of an address among those of its match value. *)
Definition position (r : AddrRange.t) (a : Z) : Z :=
  if AddrRange.intlvBits r =? 0 then a
  else rem (AddrRange.intlvHighBit r) (AddrRange.intlvBits r) a.

Lemma size_Ok r : wf r -> aligned r ->
  AddrRange.size r
  = Ok ((AddrRange.end_ r - AddrRange.start_ r + 1) / 2 ^ AddrRange.intlvBits r).
Proof.
  intros (_ & _ & Hk) (? & ? & _). unfold AddrRange.size. rewrite u64_addr by (unfold is_addr; lia).
  apply shr64_Ok. destruct Hk as [|[(? & _) _]]; lia.
Qed.

Lemma le_div_iff n p b : 0 < p -> n <= b / p <-> n * p <= b.
Proof.
  intros Hp. pose proof (Z.mul_div_le b p Hp). split.
  - nia.
  - intros. apply Z.div_le_lower_bound; lia.
Qed.

(** The addresses between the ends are those at certain positions. *)
Lemma within_position r sz a : wf r -> aligned r -> AddrRange.size r = Ok sz ->
  within a r = true <->
  position r (AddrRange.start_ r) <= position r a < position r (AddrRange.start_ r) + sz.
Proof.
  intros Hwf Hal Hsz. rewrite size_Ok in Hsz by done. injection Hsz as <-.
  destruct Hwf as (_ & _ & Hk), Hal as (_ & _ & Hal).
  unfold within, position. rewrite andb_true_iff, !Z.leb_le.
  destruct (Z.eqb_spec (AddrRange.intlvBits r) 0) as [E|E].
  { rewrite E, Z.pow_0_r, Z.div_1_r. lia. }
  destruct Hk as [|[(Hk & Hkh & _) _]], Hal as [|(s & e & Hs & He)]; [done..|].
  set (k := AddrRange.intlvBits r) in *. set (h := AddrRange.intlvHighBit r) in *.
  assert (0 < k <= h + 1) as Hh by lia.
  replace (AddrRange.end_ r - AddrRange.start_ r + 1) with ((e - s) * 2 ^ (h + 1)) by lia.
  assert (0 < 2 ^ (h - k + 1)) as Hl by (apply pow2_pos; lia).
  assert (0 < 2 ^ k) as Hpk by (apply pow2_pos; lia).
  assert (0 < 2 ^ (h + 1)) as Hph by (apply pow2_pos; lia).
  rewrite (pow_high h k Hh), (Z.mul_comm (2 ^ k)), Z.mul_assoc, Z.div_mul by lia.
  assert (forall n b, n * 2 ^ (h + 1) <= b <-> n * 2 ^ (h - k + 1) <= rem h k b) as Hle.
  { intros n b. rewrite <- !le_div_iff by done. by rewrite rem_div by done. }
  assert (rem h k (AddrRange.start_ r) = s * 2 ^ (h - k + 1)) as ->.
  { unfold rem. rewrite Hs, Z.div_mul, (pow_high h k Hh), Z.mul_assoc, Z.mod_mul by lia. lia. }
  rewrite Hs. specialize (Hle s a) as Hs'. specialize (Hle e a). lia.
Qed.

Lemma within_addr r a : wf r -> within a r = true -> is_addr a.
Proof.
  intros ([? ?] & [? ?] & _) Ha. unfold within in Ha. zbool. unfold is_addr. lia.
Qed.

Lemma size_bounds r sz : wf r -> aligned r -> AddrRange.size r = Ok sz -> 0 <= sz < 2 ^ 64.
Proof.
  intros Hwf Hal Hsz. rewrite size_Ok in Hsz by done. injection Hsz as <-.
  destruct Hwf as (_ & _ & Hk), Hal as (? & ? & _). apply div_addr.
  - destruct Hk as [->|[(? & _) _]]; lia.
  - unfold is_addr. lia.
Qed.

Lemma getOffset_position r sz a :
  wf r -> aligned r -> AddrRange.size r = Ok sz -> within a r = true ->
  AddrRange.getOffset a r = Ok (position r a - position r (AddrRange.start_ r)).
Proof.
  intros Hwf Hal Hsz Ha. pose proof (size_bounds r sz Hwf Hal Hsz).
  pose proof (proj1 (within_position r sz a Hwf Hal Hsz) Ha) as Hp.
  unfold AddrRange.getOffset. unfold within in Ha. rewrite Z.geb_leb, Ha. cbn [negb].
  unfold AddrRange.interleaved. unfold position in *.
  destruct (Z.eqb_spec (AddrRange.intlvBits r) 0) as [E|E]; cbn [negb].
  - f_equal. apply u64_addr. unfold is_addr. lia.
  - destruct Hwf as (? & Hw & Hk). destruct Hk as [|[Hg ?]]; [done|].
    rewrite !removeIntlvBits_Ok by (done || by apply (within_addr r); [split_and!; auto|]).
    cbn. f_equal. apply u64_addr. unfold is_addr. lia.
Qed.

(** A position has one address with the match value of the range. *)
Lemma position_address r q : wf r ->
  exists a, position r a = q /\ matches a r = true /\
    forall a', position r a' = q -> matches a' r = true -> a' = a.
Proof.
  intros (_ & _ & Hk). unfold position, matches.
  destruct (Z.eqb_spec (AddrRange.intlvBits r) 0) as [E|E]; [by exists q|].
  destruct Hk as [|[Hg Hm]]; [done|].
  destruct (fill_in _ _ _ q _ Hg Hm) as (a & ? & ? & Huniq). exists a. cbn.
  split_and!; [done|by apply Z.eqb_eq|]. intros a' Hq Ha'%Z.eqb_eq. by apply Huniq.
Qed.

(** C36: The offset is a bijection between the addresses of an aligned
    range and the numbers below its size: what [getOffset] promises, "a new
    unique address in a continuous range that starts from 0". *)
Theorem getOffset_bijective r :
  wf r -> aligned r ->
  exists sz, AddrRange.size r = Ok sz /\
  (forall a, AddrRange.contains a r = Ok true ->
     exists o, AddrRange.getOffset a r = Ok o /\ 0 <= o < sz) /\
  (forall o, 0 <= o < sz ->
     exists a, AddrRange.contains a r = Ok true /\ AddrRange.getOffset a r = Ok o /\
     forall a', AddrRange.contains a' r = Ok true -> AddrRange.getOffset a' r = Ok o -> a' = a).
Proof.
  intros Hwf Hal. eexists. split; [by apply size_Ok|].
  set (sz := _ / _). assert (AddrRange.size r = Ok sz) as Hsz by (by apply size_Ok).
  pose proof (within_position r sz) as Hpos. split.
  - intros a Ha. rewrite contains_Ok in Ha by done. injection Ha as [Ha _]%andb_true_iff.
    eexists. split; [by eapply getOffset_position|]. apply Hpos in Ha; [lia|done..].
  - intros o Ho.
    destruct (position_address r (position r (AddrRange.start_ r) + o) Hwf) as (a & Hp & Hm & Hu).
    assert (within a r = true) as Hw by (apply Hpos; [done..|lia]).
    exists a. rewrite contains_Ok, Hw, Hm by done. split; [done|].
    rewrite (getOffset_position r sz a) by done. split; [f_equal; lia|].
    intros a' Ha' Hoff. rewrite contains_Ok in Ha' by done. injection Ha' as [Hw' Hm']%andb_true_iff.
    rewrite (getOffset_position r sz a') in Hoff by done. injection Hoff as Hoff.
    apply Hu; [lia|done].
Qed.

(** ** The block size *)

(** A halving step keeps the sum of the count and the logarithm. *)
Lemma log2_step_ok k w x y : w = 2 * k -> 0 < k -> 0 < x < 2 ^ w ->
  let s := IntMath.log2_step (Z.shiftl (Z.ones k) k) k (x, y) in
  0 < s.1 < 2 ^ k /\ s.2 + Z.log2 s.1 = y + Z.log2 x.
Proof.
  intros -> Hk Hx. unfold IntMath.log2_step. cbn.
  assert (0 < 2 ^ k) as Hp by (apply pow2_pos; lia).
  assert (2 ^ (2 * k) = 2 ^ k * 2 ^ k) as E by (rewrite <- Z.pow_add_r by lia; f_equal; lia).
  assert (Z.land x (Z.shiftl (Z.ones k) k) = x / 2 ^ k * 2 ^ k) as ->.
  { transitivity (Z.shiftl (Z.land (Z.shiftr x k) (Z.ones k)) k).
    - apply Z.bits_inj'. intros i Hi. rewrite Z.land_spec.
      destruct (decide (i < k)).
      + by rewrite !Z.shiftl_spec_low, andb_false_r by lia.
      + rewrite !Z.shiftl_spec_high, Z.land_spec, Z.shiftr_spec by lia.
        by replace (i - k + k) with i by lia.
    - rewrite Z.land_ones, Z.shiftr_div_pow2, Z.shiftl_mul_pow2 by lia.
      rewrite Z.mod_small; [done|]. split; [apply Z.div_pos; lia|].
      apply Z.div_lt_upper_bound; lia. }
  assert (0 <= x / 2 ^ k) as Hd by (apply Z.div_pos; lia).
  pose proof (le_div_iff 1 (2 ^ k) x Hp) as H1.
  destruct (Z.eqb_spec (x / 2 ^ k * 2 ^ k) 0) as [E0|E0]; cbn.
  - apply Z.mul_eq_0 in E0 as [E0|]; [|lia]. lia.
  - assert (x / 2 ^ k <> 0) by (intros E1; apply E0; by rewrite E1).
    assert (k <= Z.log2 x) by (apply Z.log2_le_pow2; lia).
    rewrite Z.log2_shiftr, Z.shiftr_div_pow2 by lia.
    split; [|lia]. split; [lia|]. apply Z.div_lt_upper_bound; lia.
Qed.

Lemma log2_last x : 0 < x < 4 -> Z.log2 x = if negb (Z.land x 2 =? 0) then 1 else 0.
Proof. intros. assert (x = 1 \/ x = 2 \/ x = 3) as [->|[->| ->]] by lia; done. Qed.

(** The steps for 16, 8, 4 and 2 bits with the last test. *)
Lemma log2_tail x y : 0 < x < 2 ^ 32 ->
  let s := IntMath.log2_step 0xffff0000 16 (x, y) in
  let s := IntMath.log2_step 0x0000ff00 8 s in
  let s := IntMath.log2_step 0x000000f0 4 s in
  let s := IntMath.log2_step 0x0000000c 2 s in
  (if negb (Z.land s.1 0x00000002 =? 0) then s.2 + 1 else s.2) = y + Z.log2 x.
Proof.
  intros Hx. cbv zeta.
  pose proof (log2_step_ok 16 32 x y eq_refl) as H1. change (Z.shiftl (Z.ones 16) 16) with 0xffff0000 in H1.
  destruct (IntMath.log2_step 0xffff0000 16 (x, y)) as [x1 y1]. destruct H1 as [B1 E1]; [lia..|].
  pose proof (log2_step_ok 8 16 x1 y1 eq_refl) as H2. change (Z.shiftl (Z.ones 8) 8) with 0x0000ff00 in H2.
  destruct (IntMath.log2_step 0x0000ff00 8 (x1, y1)) as [x2 y2]. destruct H2 as [B2 E2]; [cbn in *; lia..|].
  pose proof (log2_step_ok 4 8 x2 y2 eq_refl) as H3. change (Z.shiftl (Z.ones 4) 4) with 0x000000f0 in H3.
  destruct (IntMath.log2_step 0x000000f0 4 (x2, y2)) as [x3 y3]. destruct H3 as [B3 E3]; [cbn in *; lia..|].
  pose proof (log2_step_ok 2 4 x3 y3 eq_refl) as H4. change (Z.shiftl (Z.ones 2) 2) with 0x0000000c in H4.
  destruct (IntMath.log2_step 0x0000000c 2 (x3, y3)) as [x4 y4]. destruct H4 as [B4 E4]; [cbn in *; lia..|].
  cbn [fst snd] in *. change (2 ^ 2) with 4 in B4.
  rewrite <- E1, <- E2, <- E3, <- E4, (log2_last x4 B4). destruct (Z.land x4 2 =? 0); cbn [negb]; lia.
Qed.

Lemma floorLog2_32_correct x : 0 < x < 2 ^ 32 -> IntMath.floorLog2_32 x = Ok (Z.log2 x).
Proof.
  intros Hx. unfold IntMath.floorLog2_32. rewrite Z.gtb_ltb, (proj2 (Z.ltb_lt _ _)) by lia.
  cbn -[IntMath.log2_step Z.land]. f_equal. apply (log2_tail x 0). lia.
Qed.

Lemma floorLog2_64_correct x : 0 < x < 2 ^ 64 -> IntMath.floorLog2_64 x = Ok (Z.log2 x).
Proof.
  intros Hx. unfold IntMath.floorLog2_64. rewrite Z.gtb_ltb, (proj2 (Z.ltb_lt _ _)) by lia.
  cbn -[IntMath.log2_step Z.land]. f_equal.
  pose proof (log2_step_ok 32 64 x 0 eq_refl) as H1.
  change (Z.shiftl (Z.ones 32) 32) with 0xffffffff00000000 in H1.
  destruct (IntMath.log2_step 0xffffffff00000000 32 (x, 0)) as [x1 y1]. destruct H1 as [B1 E1]; [lia..|].
  cbn [fst snd] in B1, E1. rewrite Z.add_0_l in E1. rewrite <- E1. apply log2_tail. lia.
Qed.

Lemma isPowerOf2_correct w n : 0 <= n < 2 ^ w -> 0 <= w ->
  IntMath.isPowerOf2 w n = true <-> exists j, 0 <= j /\ n = 2 ^ j.
Proof.
  intros Hn Hw. unfold IntMath.isPowerOf2, IntMath.leastSigBit.
  rewrite andb_true_iff, negb_true_iff, Z.eqb_neq, Z.eqb_eq, <- Z.land_ones by lia. split.
  - intros [H0 E]. exists (Z.log2 n). split; [apply Z.log2_nonneg|].
    pose proof (Z.log2_spec n) as Hl. destruct (decide (n = 2 ^ Z.log2 n)) as [|Hne]; [done|].
    assert (Z.log2 (n - 1) = Z.log2 n) as El.
    { apply Z.log2_unique; [apply Z.log2_nonneg|lia]. }
    pose proof (f_equal (fun v => Z.testbit v (Z.log2 n)) E) as Hb. cbn in Hb.
    rewrite !Z.land_spec, Z.lnot_spec, Z.bit_log2 in Hb by (apply Z.log2_nonneg || lia).
    rewrite <- El, Z.bit_log2 in Hb; [done|]. destruct (decide (n = 1)) as [->|]; [done|lia].
  - intros (j & Hj & ->). pose proof (pow2_pos j Hj). split; [lia|].
    assert (j < w) by (apply (Z.pow_lt_mono_r_iff 2); lia).
    apply Z.bits_inj'. intros i Hi. rewrite !Z.land_spec, Z.lnot_spec by done.
    rewrite Z.pow2_bits_eqb by done. destruct (Z.eqb_spec j i) as [<-|]; [|done].
    assert (2 ^ j - 1 = Z.ones j) as -> by (rewrite Z.ones_equiv; lia).
    rewrite Z.ones_spec_high, Z.ones_spec_low by lia. done.
Qed.

(** A Ruby system exists for the powers of two of 32 bits, and knows the
    exponent. *)
Lemma block_size_correct bytes : 0 <= bytes < 2 ^ 32 ->
  (is_ok (RubySystem.new bytes) = true <-> exists j, 0 <= j /\ bytes = 2 ^ j) /\
  forall s, RubySystem.new bytes = Ok s ->
    RubySystem.getBlockSizeBytes s = bytes /\ 0 <= RubySystem.getBlockSizeBits s < 32 /\
    bytes = 2 ^ RubySystem.getBlockSizeBits s.
Proof.
  intros Hb. pose proof (isPowerOf2_correct 32 bytes Hb) as Hp. unfold RubySystem.new.
  destruct (IntMath.isPowerOf2 32 bytes); cbn -[IntMath.floorLog2_32].
  - destruct Hp as [Hp _]; [done|]. destruct Hp as (j & Hj & ->); [done|].
    pose proof (pow2_pos j Hj). rewrite floorLog2_32_correct by lia.
    rewrite Z.log2_pow2 by done. cbn. split.
    + split; [|done]. intros _. by exists j.
    + intros s [= <-]. cbn. split_and!; [done|done| |done].
      apply (Z.pow_lt_mono_r_iff 2); lia.
  - split; [|done]. split; [done|]. intros Hex. by apply Hp in Hex.
Qed.

(** ** Line addresses *)

Lemma not64_addr x : is_addr x -> not64 x = 2 ^ 64 - 1 - x.
Proof.
  intros Hx. unfold not64, u64. replace (Z.lnot x) with (2 ^ 64 - 1 - x + (-1) * 2 ^ 64)
    by (unfold Z.lnot; lia).
  rewrite Z.mod_add by lia. apply Z.mod_small. unfold is_addr in Hx. lia.
Qed.

Lemma not64_not64 x : is_addr x -> not64 (not64 x) = x.
Proof.
  intros Hx. rewrite (not64_addr x) by done. unfold is_addr in Hx.
  rewrite not64_addr by (unfold is_addr; lia). lia.
Qed.

Lemma ones_addr n : 0 <= n <= 64 -> is_addr (Z.ones n).
Proof.
  intros. rewrite Z.ones_equiv. pose proof (pow2_pos n). pose proof (Z.pow_le_mono_r 2 n 64).
  unfold is_addr. lia.
Qed.

Lemma shl_ones n : 0 <= n < 64 -> shl64 RubyAddress.ones n = Ok (not64 (Z.ones n)).
Proof.
  intros. rewrite shl64_Ok by lia. f_equal. rewrite not64_addr by (apply ones_addr; lia).
  unfold RubyAddress.ones. rewrite not64_addr, Z.ones_equiv by done. unfold u64.
  pose proof (pow2_pos n). pose proof (Z.pow_lt_mono_r 2 n 64).
  replace ((2 ^ 64 - 1 - 0) * 2 ^ n) with (2 ^ 64 - 1 - Z.pred (2 ^ n) + (2 ^ n - 1) * 2 ^ 64) by lia.
  rewrite Z.mod_add by lia. apply Z.mod_small. lia.
Qed.

Lemma maskLowOrderBits_Ok a n : is_addr a -> 0 <= n < 63 ->
  RubyAddress.maskLowOrderBits a n = Ok (a / 2 ^ n * 2 ^ n).
Proof.
  intros Ha Hn. unfold RubyAddress.maskLowOrderBits, RubyAddress.ADDRESS_WIDTH.
  rewrite Z.geb_leb, (proj2 (Z.leb_gt _ _)), shl_ones by lia. cbn -[not64]. f_equal.
  by rewrite land_not64, Z.ldiff_ones_r, Z.shiftl_mul_pow2, Z.shiftr_div_pow2 by (done || lia).
Qed.

(** The bits from [small] to [big]. *)
Lemma bitSelect_Ok a small big : is_addr a -> 0 <= small <= big -> big < 63 ->
  RubyAddress.bitSelect a small big = Ok (slice a small (big - small + 1)).
Proof.
  intros Ha Hs Hb. unfold RubyAddress.bitSelect, RubyAddress.ADDRESS_WIDTH.
  rewrite !Z.geb_leb, (proj2 (Z.leb_le small big)), (proj2 (Z.leb_gt _ big)) by lia.
  cbn -[not64 shl64 shr64]. rewrite shl_ones by lia. cbn -[not64 shr64].
  rewrite not64_not64, shr64_Ok by (apply ones_addr || idtac; lia). f_equal. unfold slice.
  rewrite Z.land_ones by lia. apply Z.bits_inj'. intros i Hi.
  rewrite Z.div_pow2_bits by lia. destruct (decide (i < big - small + 1)).
  - by rewrite !Z.mod_pow2_bits_low, Z.div_pow2_bits by lia.
  - by rewrite !Z.mod_pow2_bits_high by lia.
Qed.

(** The line of an address and the offset in it: the line is a
    multiple of the block size, the offset is below it, and together they
    are the address; the stride goes up by whole lines. *)
Theorem line_address_correct bytes s a :
  1 < bytes < 2 ^ 32 -> RubySystem.new bytes = Ok s -> is_addr a ->
  exists l o, RubyAddress.makeLineAddress a s = Ok l /\ RubyAddress.getOffset a s = Ok o /\
    a = l + o /\ 0 <= o < bytes /\ (exists q, l = q * bytes) /\
    forall stride, 0 <= bytes * stride < 2 ^ 32 -> l + bytes * stride < 2 ^ 64 ->
      RubyAddress.makeNextStrideAddress a stride s = Ok (l + bytes * stride).
Proof.
  intros Hb Hs Ha. destruct (block_size_correct bytes) as [_ Hok]; [lia|].
  destruct (Hok s Hs) as (Ebytes & Hn & Eb). set (n := RubySystem.getBlockSizeBits s) in *.
  assert (0 < n) by (destruct (decide (n = 0)) as [E|]; [rewrite E in Eb; lia|lia]).
  exists (a / 2 ^ n * 2 ^ n), (a mod 2 ^ n).
  unfold RubyAddress.makeLineAddress, RubyAddress.getOffset, RubyAddress.makeNextStrideAddress.
  fold n. rewrite maskLowOrderBits_Ok by (done || lia).
  assert (u32 (n - 1) = n - 1) as -> by (apply Z.mod_small; lia).
  rewrite bitSelect_Ok by (done || lia). rewrite Ebytes, Eb. pose proof (pow2_pos n).
  pose proof (mul_div_addr a n) as [Hl1 Hl2]; [lia|done|].
  split_and!; [done| | |apply Z.mod_pos_bound; lia..| |].
  - f_equal. unfold slice. rewrite Z.pow_0_r, Z.div_1_r. do 2 f_equal. lia.
  - pose proof (Z.div_mod a (2 ^ n)). lia.
  - by exists (a / 2 ^ n).
  - intros stride Hst Hlt. cbn. f_equal. rewrite <- Eb in Hst |- *.
    unfold u32. rewrite (Z.mod_small (bytes * stride)) by lia. apply u64_addr.
    rewrite <- Eb in *. unfold is_addr. lia.
Qed.

(** A negative stride goes up instead: the unsigned product adds 2^32. *)
Lemma negative_stride_goes_up bytes s a stride :
  1 < bytes < 2 ^ 32 -> RubySystem.new bytes = Ok s -> is_addr a ->
  - 2 ^ 32 <= bytes * stride < 0 -> a + 2 ^ 32 < 2 ^ 64 ->
  exists l r, RubyAddress.makeLineAddress a s = Ok l /\
    RubyAddress.makeNextStrideAddress a stride s = Ok r /\ r = l + bytes * stride + 2 ^ 32 /\ l <= r.
Proof.
  intros Hb Hs Ha Hst Hlt. destruct (block_size_correct bytes) as [_ Hok]; [lia|].
  destruct (Hok s Hs) as (Ebytes & Hn & Eb).
  unfold RubyAddress.makeLineAddress, RubyAddress.makeNextStrideAddress.
  rewrite maskLowOrderBits_Ok by (done || lia). rewrite Ebytes, <- Eb.
  pose proof (Z.mul_div_le a bytes). pose proof (Z.div_pos a bytes). unfold is_addr in Ha.
  eexists _, _. split; [done|]. cbn -[u32 u64]. split; [done|].
  assert (u32 (bytes * stride) = bytes * stride + 2 ^ 32) as ->.
  { unfold u32. replace (bytes * stride) with (bytes * stride + 2 ^ 32 + (-1) * 2 ^ 32) at 1 by lia.
    rewrite Z.mod_add by lia. apply Z.mod_small. lia. }
  rewrite u64_addr; [lia|]. unfold is_addr. nia.
Qed.

(** ** Corners of the code *)

(** Two ranges that share the address 1, and [intersects] denies it: the
    second is interleaved, has one address, and does not hold its start. *)
Lemma intersects_misses :
  let this := AddrRange.plain 1 1 in
  exists r, AddrRange.new 0 1 0 0 1 1 = Ok r /\ AddrRange.intersects r this = Ok false /\
    AddrRange.contains 1 this = Ok true /\ AddrRange.contains 1 r = Ok true.
Proof.
  exists (AddrRange.mk 0 1 0 0 1 1). split_and!; vm_compute; reflexivity.
Qed.

(** Removing the bits from 0 to [big] clears those below [big] and shifts
    nothing, unlike the removal of any higher bits. *)
Lemma bitRemove_from_zero :
  RubyAddress.bitRemove 0x1234 0 3 = Ok 0x1230 /\ RubyAddress.bitRemove 0x1234 4 7 = Ok 0x124.
Proof. split; vm_compute; reflexivity. Qed.

(** With blocks of one byte the offset in the line is the whole address. *)
Lemma offset_of_one_byte_blocks :
  exists s, RubySystem.new 1 = Ok s /\ RubyAddress.makeLineAddress 5 s = Ok 5 /\
    RubyAddress.getOffset 5 s = Ok 5.
Proof. exists (RubySystem.mk 1 0). split_and!; vm_compute; reflexivity. Qed.

(** ** The theorems at concrete ranges *)
Module RangeExample.

(** Four stripes of 64 bytes, selected by the bits 7 and 6, with and without
    the bits 12 and 11. *)
Lemma geometry_plain : geometry 7 0 2.
Proof. unfold geometry. lia. Qed.

Lemma geometry_hashed : geometry 7 12 2.
Proof. unfold geometry. lia. Qed.

Lemma interleaving_partitions_witness :
  is_addr 0 /\ is_addr 8191 /\ geometry 7 12 2 /\
  exists m, 0 <= m < 4 /\ forall m', 0 <= m' < 4 ->
  exists r, AddrRange.new 0 8191 7 12 2 m' = Ok r /\
    AddrRange.contains 4288 r = Ok ((0 <=? 4288) && (4288 <=? 8191) && (m =? m')).
Proof.
  split; [done|]. split; [done|]. split; [exact geometry_hashed|].
  apply (interleaving_partitions 0 8191 7 12 2); [done|done|exact geometry_hashed].
Defined.

Definition quarters : list AddrRange.t := family 0 1023 7 0 2.

Lemma quarters_wf : Forall wf quarters.
Proof.
  unfold quarters, family. apply Forall_forall. intros r (m & -> & Hm)%list_elem_of_fmap.
  apply in_range in Hm. apply member_wf; [done|done|exact geometry_plain|done].
Qed.

Lemma merge_correct_witness :
  Forall wf quarters /\
  (is_ok (AddrRange.merge quarters) = true <-> quarters = family 0 1023 7 0 2) /\
  (AddrRange.contains 200 (AddrRange.plain 0 1023) = Ok true <->
   exists r', r' ∈ quarters /\ AddrRange.contains 200 r' = Ok true).
Proof.
  split; [exact quarters_wf|].
  destruct (merge_correct quarters (member 0 1023 7 0 2 0)) as [H1 H2];
    [reflexivity|exact quarters_wf|].
  split; [exact H1|]. apply H2. vm_compute. reflexivity.
Defined.

Definition quarter : AddrRange.t := member 0 8191 7 12 2 3.

Lemma quarter_wf : wf quarter.
Proof. apply member_wf; [done|done|exact geometry_hashed|lia]. Qed.

Lemma quarter_aligned : aligned quarter.
Proof. split; [done|]. split; [done|]. right. by exists 0, 32. Qed.

Lemma getOffset_bijective_witness :
  wf quarter /\ aligned quarter /\
  exists sz, AddrRange.size quarter = Ok sz /\
  (forall a, AddrRange.contains a quarter = Ok true ->
     exists o, AddrRange.getOffset a quarter = Ok o /\ 0 <= o < sz) /\
  (forall o, 0 <= o < sz ->
     exists a, AddrRange.contains a quarter = Ok true /\ AddrRange.getOffset a quarter = Ok o /\
     forall a', AddrRange.contains a' quarter = Ok true ->
       AddrRange.getOffset a' quarter = Ok o -> a' = a).
Proof.
  split; [exact quarter_wf|]. split; [exact quarter_aligned|].
  exact (getOffset_bijective quarter quarter_wf quarter_aligned).
Defined.

Lemma line_address_correct_witness :
  exists s, RubySystem.new 64 = Ok s /\
  exists l o, RubyAddress.makeLineAddress 4660 s = Ok l /\ RubyAddress.getOffset 4660 s = Ok o /\
    4660 = l + o /\ 0 <= o < 64 /\ (exists q, l = q * 64) /\
    forall stride, 0 <= 64 * stride < 2 ^ 32 -> l + 64 * stride < 2 ^ 64 ->
      RubyAddress.makeNextStrideAddress 4660 stride s = Ok (l + 64 * stride).
Proof.
  exists (RubySystem.mk 64 6). split; [vm_compute; reflexivity|].
  apply (line_address_correct 64); [lia|vm_compute; reflexivity|done].
Defined.

End RangeExample.
