(* ===== verification/AddrMapFacts.v ===== *)
(** * The nodes responsible for an address

    The clients of the address ranges: the network's address map finds the
    controller whose range holds an address, in whatever order the multimap
    is searched ([AddrMapFacts]); the directory memory is a map from lines to
    entries ([DirectoryFacts]). *)

From S2P Require Import Prelude NetDest AddrRange AddrRangeFacts.

Lemma contains_total r a : wf r -> exists b, AddrRange.contains a r = Ok b.
Proof. intros. eexists. by apply contains_Ok. Qed.

Lemma find_contains rs a : Forall wf rs ->
  exists o, findM (AddrRange.contains a) rs = Ok o /\
    match o with
    | Some r => r ∈ rs /\ AddrRange.contains a r = Ok true
    | None => forall r, r ∈ rs -> AddrRange.contains a r = Ok false
    end.
Proof.
  rewrite Forall_forall. intros Hwf.
  destruct (findM_total (AddrRange.contains a) rs) as [o Ho].
  { intros r Hr. by apply contains_total, Hwf. }
  exists o. split; [done|]. destruct o as [r|].
  - by apply findM_Some.
  - apply findM_None in Ho. by rewrite Forall_forall in Ho.
Qed.

Module AddrMapFacts.
Import AddrMap.

(** The controller has a range that holds the address. *)
Definition responsible (mtype addr : Z) (c : controller) : Prop :=
  cntrl_type c = mtype /\ exists r, r ∈ cntrl_ranges c /\ AddrRange.contains addr r = Ok true.

Definition ranges_wf (cs : list controller) : Prop :=
  forall c, c ∈ cs -> Forall wf (cntrl_ranges c).

Definition entry (c : controller) : Z * node :=
  (cntrl_type c, mk_node (cntrl_num c) (cntrl_ranges c)).

(** The map holds one entry for each controller with ranges. *)
Lemma constructed_entries cs m kv : constructed cs m ->
  kv ∈ m <-> exists c, c ∈ cs /\ cntrl_ranges c <> [] /\ kv = entry c.
Proof.
  induction 1 as [|cs c m Hm IH Hc|cs c m m' Hm IH Hc He].
  - split; [by intros ?%elem_of_nil|]. by intros (? & ?%elem_of_nil & _).
  - rewrite IH. setoid_rewrite elem_of_app. setoid_rewrite list_elem_of_singleton. split.
    + intros (c' & ? & ? & ?). eauto.
    + intros (c' & [?| ->] & ? & ?); [eauto|done].
  - inversion He as [l1 l2 E1 E2]. subst m m'. rewrite elem_of_app in IH.
    rewrite elem_of_app, elem_of_cons. setoid_rewrite elem_of_app. setoid_rewrite list_elem_of_singleton.
    split.
    + intros [H|[->|H]]; [| by exists c; auto |].
      all: destruct (proj1 IH) as (c' & ? & ? & ?); eauto 6.
    + intros (c' & [Hin| ->] & Hne & ->); [|auto].
      destruct (proj2 IH) as [?|?]; eauto.
Qed.

Lemma elem_of_equal_range mtype m n : n ∈ equal_range mtype m <-> (mtype, n) ∈ m.
Proof.
  unfold equal_range. rewrite list_elem_of_fmap. split.
  - intros ([k v] & -> & H). apply list_elem_of_filter in H as [E H]. cbn in E. by subst.
  - intros H. exists (mtype, n). split; [done|]. by apply list_elem_of_filter.
Qed.

Lemma node_contains_Ok addr n : Forall wf (ranges n) ->
  exists b, node_contains addr n = Ok b /\
    (b = true <-> exists r, r ∈ ranges n /\ AddrRange.contains addr r = Ok true).
Proof.
  intros Hwf. destruct (find_contains (ranges n) addr Hwf) as (o & Ho & Hspec).
  unfold node_contains. rewrite Ho. eexists. split; [done|]. destruct o as [r|].
  - split; [eauto|done].
  - split; [done|]. intros (r & Hr & Hc). by rewrite Hspec in Hc.
Qed.

(** The search always answers: with a responsible controller if there is
    one, in whatever order the multimap is searched. *)
Lemma search_answers mt cs m addr mtype : constructed cs m -> ranges_wf cs ->
  exists n, addressToNodeID mt addr mtype m = Ok n /\
    ((exists c, c ∈ cs /\ responsible mtype addr c /\ n = cntrl_num c) \/
     (forall c, c ∈ cs -> ~ responsible mtype addr c) /\ n = MachineType_base_count mt mtype).
Proof.
  intros Hm Hwf. unfold addressToNodeID.
  assert (forall n, n ∈ equal_range mtype m ->
            exists c, c ∈ cs /\ cntrl_type c = mtype /\ n = mk_node (cntrl_num c) (cntrl_ranges c))
    as Hent.
  { intros n Hn%elem_of_equal_range. apply (constructed_entries _ _ _ Hm) in Hn as (c & ? & _ & E).
    injection E as -> ->. by exists c. }
  assert (forall n, n ∈ equal_range mtype m -> Forall wf (ranges n)) as Hnwf.
  { intros n (c & Hc & _ & ->)%Hent. by apply Hwf. }
  destruct (findM_total (node_contains addr) (equal_range mtype m)) as [o Ho].
  { intros n Hn. destruct (node_contains_Ok addr n) as (b & ? & _); eauto. }
  rewrite Ho. eexists. split; [done|]. destruct o as [n|].
  - left. apply findM_Some in Ho as [Hin Hc]. destruct (Hent n Hin) as (c & ? & ? & ->).
    exists c. split_and!; [done| |done]. split; [done|].
    destruct (node_contains_Ok addr (mk_node (cntrl_num c) (cntrl_ranges c))) as (b & Hb & Hspec);
      [by apply Hnwf|]. rewrite Hc in Hb. injection Hb as <-. by apply Hspec.
  - right. split; [|done]. intros c Hc (Ht & r & Hr & Hrc). apply findM_None in Ho.
    rewrite Forall_forall in Ho.
    assert (mk_node (cntrl_num c) (cntrl_ranges c) ∈ equal_range mtype m) as Hin.
    { apply elem_of_equal_range, (constructed_entries _ _ _ Hm). exists c.
      split_and!; [done| |by rewrite <- Ht]. intros E. rewrite E in Hr. by apply elem_of_nil in Hr. }
    destruct (node_contains_Ok addr _ (Hnwf _ Hin)) as (b & Hb & Hspec).
    rewrite (Ho _ Hin) in Hb. injection Hb as <-. destruct Hspec as [_ Hspec].
    discriminate Hspec. eauto.
Qed.

(** The controllers of a type share the addresses from [s] to [e]: each of
    them has the slice of its number. *)
Definition interleaved_over (cs : list controller) (mtype s e h x k : Z) : Prop :=
  (forall c, c ∈ cs -> cntrl_type c = mtype -> cntrl_ranges c <> [] ->
     0 <= cntrl_num c < 2 ^ k /\ cntrl_ranges c = [member s e h x k (cntrl_num c)]) /\
  (forall j, 0 <= j < 2 ^ k ->
     exists c, c ∈ cs /\ cntrl_type c = mtype /\ cntrl_num c = j /\ cntrl_ranges c <> []).

(** C35: Interleaved controllers: every address between the ends is
    mapped to the controller whose number is the match value of the address,
    every other address to the number that no controller has, whatever the
    order of the controllers and of the multimap. *)
Theorem addressToNodeID_interleaved mt cs m addr mtype s e h x k :
  constructed cs m -> ranges_wf cs -> geometry h x k -> is_addr s -> is_addr e ->
  interleaved_over cs mtype s e h x k ->
  addressToNodeID mt addr mtype m
  = Ok (if (s <=? addr) && (addr <=? e) then key h x k addr else MachineType_base_count mt mtype).
Proof.
  intros Hm Hwf Hg Hs He [Hall Hex]. pose proof Hg as (Hk & _).
  assert (forall c, c ∈ cs -> responsible mtype addr c <->
            cntrl_type c = mtype /\ cntrl_ranges c <> [] /\
            (s <=? addr) && (addr <=? e) && (key h x k addr =? cntrl_num c) = true) as Hresp.
  { intros c Hc. split.
    - intros (Ht & r & Hr & Hrc).
      assert (cntrl_ranges c <> []) as Hne by (intros E; rewrite E in Hr; by apply elem_of_nil in Hr).
      destruct (Hall c Hc Ht Hne) as [Hn E]. rewrite E, list_elem_of_singleton in Hr. subst r.
      rewrite contains_Ok, member_matches in Hrc by (lia || by apply member_wf).
      injection Hrc as Hrc. done.
    - intros (Ht & Hne & Hb). destruct (Hall c Hc Ht Hne) as [Hn E]. split; [done|].
      rewrite E. eexists. split; [by apply list_elem_of_singleton|].
      rewrite contains_Ok, member_matches by (lia || by apply member_wf). by f_equal. }
  destruct (search_answers mt cs m addr mtype Hm Hwf) as (n & -> & [(c & Hc & Hr & ->)|[Hno ->]]).
  - apply Hresp in Hr as (_ & _ & Hb); [|done]. apply andb_true_iff in Hb as [Hb Hkey].
    rewrite Hb. apply Z.eqb_eq in Hkey. by rewrite Hkey.
  - destruct ((s <=? addr) && (addr <=? e)) eqn:Ein; [|done]. exfalso.
    destruct (Hex (key h x k addr)) as (c & Hc & Ht & Hn & Hne); [apply key_range; lia|].
    apply (Hno c Hc). apply Hresp; [done|]. by rewrite Hn, Z.eqb_refl.
Qed.

End AddrMapFacts.

(** ** Lines *)

(** The first address of the line of [2 ^ b] bytes that holds [a]. *)
Definition line (b a : Z) : Z := a / 2 ^ b * 2 ^ b.

Lemma line_mod b a : line b a = a - a mod 2 ^ b.
Proof. unfold line. pose proof (Z.div_mod a (2 ^ b)). destruct (decide (2 ^ b = 0)) as [E|]; [|lia].
  rewrite E, Zdiv_0_r, Zmod_0_r. lia.
Qed.

Lemma line_eq b a a' : 0 <= b -> line b a = line b a' <-> a / 2 ^ b = a' / 2 ^ b.
Proof. intros Hb. unfold line. pose proof (pow2_pos b Hb). nia. Qed.

Lemma line_div b n a : 0 <= b <= n -> line b a / 2 ^ n = a / 2 ^ n.
Proof.
  intros. unfold line. pose proof (pow2_pos b). pose proof (pow2_pos (n - b)).
  rewrite (pow2_split n b), (Z.mul_comm (2 ^ (n - b))), <- !Z.div_div, Z.div_mul by lia. done.
Qed.

Lemma line_mod_high b n a : 0 <= b <= n -> line b a mod 2 ^ n = a mod 2 ^ n - a mod 2 ^ b.
Proof.
  intros. pose proof (pow2_pos n). pose proof (line_div b n a) as E.
  rewrite !Z.mod_eq, E, line_mod, (Z.mod_eq a (2 ^ b)) by lia. lia.
Qed.

Lemma slice_line b lo k a : 0 <= b <= lo -> slice (line b a) lo k = slice a lo k.
Proof. intros. unfold slice. by rewrite line_div. Qed.

Lemma mod_mod_low a b n : 0 <= b <= n -> (a mod 2 ^ n) mod 2 ^ b = a mod 2 ^ b.
Proof.
  intros. pose proof (pow2_pos n). pose proof (pow2_pos b).
  symmetry. rewrite (Z.div_mod a (2 ^ n)) at 1 by lia.
  rewrite (pow2_split n b) at 1 by lia.
  rewrite (Z.mul_comm (2 ^ (n - b))), <- Z.mul_assoc, Z.add_comm, Z.mul_comm, Z.mod_add by lia. done.
Qed.

Lemma rem_line b h k a : 0 <= b <= h - k + 1 -> 0 < k ->
  rem h k (line b a) = line b (rem h k a).
Proof.
  intros. rewrite (line_mod b (rem h k a)). unfold rem.
  rewrite line_div, line_mod_high by lia.
  assert ((a / 2 ^ (h + 1) * 2 ^ (h - k + 1) + a mod 2 ^ (h - k + 1)) mod 2 ^ b = a mod 2 ^ b) as ->; [|lia].
  rewrite (pow2_split (h - k + 1) b) at 1 by lia.
  rewrite Z.mul_assoc, Z.add_comm, Z.mod_add by (apply Z.pow_nonzero; lia).
  apply mod_mod_low. lia.
Qed.

(** The lines do not straddle the range or its slices. *)
Definition blocked (b : Z) (r : AddrRange.t) : Prop :=
  let '(h, x, k) := (AddrRange.intlvHighBit r, AddrRange.xorHighBit r, AddrRange.intlvBits r) in
  line b (AddrRange.start_ r) = AddrRange.start_ r /\
  line b (AddrRange.end_ r + 1) = AddrRange.end_ r + 1 /\
  (k = 0 \/ b <= h - k + 1 /\ (x = 0 \/ b <= x - k + 1)).

Section Lines.
Context (b : Z) (r : AddrRange.t).
Hypothesis (Hb : 0 <= b) (Hwf : wf r) (Hbl : blocked b r).

Lemma within_line a : within (line b a) r = within a r.
Proof.
  destruct Hbl as (Hs & He & _). unfold within.
  pose proof (pow2_pos b Hb) as Hp. revert Hs He. unfold line. intros Hs He.
  pose proof (le_div_iff (AddrRange.start_ r / 2 ^ b) (2 ^ b) a Hp) as H1.
  pose proof (le_div_iff ((AddrRange.end_ r + 1) / 2 ^ b) (2 ^ b) a Hp) as H2.
  rewrite Hs in H1. rewrite He in H2.
  apply eq_iff_eq_true. rewrite !andb_true_iff, !Z.leb_le.
  assert (forall n, n * 2 ^ b <= a / 2 ^ b * 2 ^ b <-> n <= a / 2 ^ b) as Hc by (intros; nia).
  pose proof (Hc (AddrRange.start_ r / 2 ^ b)) as H3. rewrite Hs in H3.
  pose proof (Hc ((AddrRange.end_ r + 1) / 2 ^ b)) as H4. rewrite He in H4. lia.
Qed.

Lemma matches_line a : matches (line b a) r = matches a r.
Proof.
  destruct Hbl as (_ & _ & Hk). unfold matches, key.
  destruct (Z.eqb_spec (AddrRange.intlvBits r) 0); [done|]. destruct Hk as [|[? Hx]]; [done|].
  rewrite slice_line by lia. destruct (Z.eqb_spec (AddrRange.xorHighBit r) 0); [done|].
  destruct Hx; [done|]. by rewrite slice_line by lia.
Qed.

Lemma position_line a : position r (line b a) = line b (position r a).
Proof.
  destruct Hbl as (_ & _ & Hk), Hwf as (_ & _ & Hg). unfold position.
  destruct (Z.eqb_spec (AddrRange.intlvBits r) 0); [done|].
  destruct Hk as [|[? Hx]], Hg as [|[(? & _) _]]; [done..|]. apply rem_line; lia.
Qed.

Lemma contains_line a : AddrRange.contains (line b a) r = AddrRange.contains a r.
Proof. by rewrite !contains_Ok, within_line, matches_line by done. Qed.

(** The first position and the size are multiples of the line. *)
Lemma start_line : position r (AddrRange.start_ r) = line b (position r (AddrRange.start_ r)).
Proof. rewrite <- position_line. by destruct Hbl as (-> & _). Qed.

(** Two addresses of the range are in one line when their positions are. *)
Lemma same_line a a' :
  matches a r = true -> matches a' r = true ->
  line b (position r a) = line b (position r a') <-> line b a = line b a'.
Proof.
  intros Ha Ha'. rewrite <- !position_line. split; [|by intros ->]. intros E.
  destruct (position_address r (position r (line b a)) Hwf) as (a0 & _ & _ & Hu).
  rewrite (Hu (line b a)), (Hu (line b a')); [done|..]; by rewrite ?matches_line.
Qed.

End Lines.

(** ** The directory memory *)
Module DirectoryFacts.
Import DirectoryMemory.

Definition total_size (szs : list Z) : Z := foldr Z.add 0 szs.

(** A range of the directory with its size. *)
Record good_range (b : Z) (r : AddrRange.t) (sz : Z) : Prop := {
  gr_wf : wf r;
  gr_aligned : aligned r;
  gr_blocked : blocked b r;
  gr_size : AddrRange.size r = Ok sz
}.

Lemma line_multiple b q : 0 <= b -> line b (q * 2 ^ b) = q * 2 ^ b.
Proof. intros. unfold line. by rewrite Z.div_mul by (apply Z.pow_nonzero; lia). Qed.

Lemma line_add b x y : 0 <= b -> line b y = y -> line b (y + x) = y + line b x.
Proof.
  intros Hb Hy. rewrite <- Hy. unfold line.
  rewrite Z.div_add_l by (apply Z.pow_nonzero; lia). lia.
Qed.

Lemma line_sub b x y : 0 <= b -> line b x = x -> line b y = y -> line b (x - y) = x - y.
Proof.
  intros Hb Hx Hy. rewrite <- Hx at 1 2. rewrite <- Hy at 1 2. unfold line at 2 3 4 5.
  rewrite <- Z.mul_sub_distr_r. by apply line_multiple.
Qed.

Lemma size_line b r sz : 0 <= b -> good_range b r sz -> line b sz = sz.
Proof.
  intros Hb [Hwf Hal Hbl Hsz]. rewrite size_Ok in Hsz by done. injection Hsz as <-.
  destruct Hwf as (_ & _ & Hg), Hal as (_ & _ & Hal), Hbl as (Hs & He & Hk).
  destruct (decide (AddrRange.intlvBits r = 0)) as [E|E].
  - rewrite E, Z.pow_0_r, Z.div_1_r.
    replace (AddrRange.end_ r - AddrRange.start_ r + 1)
      with (AddrRange.end_ r + 1 - AddrRange.start_ r) by lia.
    pose proof (line_add b (AddrRange.end_ r + 1 - AddrRange.start_ r) _ Hb Hs) as H.
    rewrite Zplus_minus, He in H. lia.
  - destruct Hg as [|[(? & ? & _) _]], Hal as [|(s & e & E1 & E2)], Hk as [|[Hk _]]; [done..|].
    replace (AddrRange.end_ r - AddrRange.start_ r + 1)
      with ((e - s) * 2 ^ (AddrRange.intlvHighBit r + 1)) by lia.
    rewrite (pow_high (AddrRange.intlvHighBit r) (AddrRange.intlvBits r)) by lia.
    rewrite (Z.mul_comm (2 ^ AddrRange.intlvBits r)), Z.mul_assoc, Z.div_mul
      by (apply Z.pow_nonzero; lia).
    rewrite (pow2_split (_ - _ + 1) b), Z.mul_assoc by lia. by apply line_multiple.
Qed.

(** What the directory keeps true: its ranges are disjoint and hold whole
    lines, and it has one entry for each line. *)
Record dir_inv (s : RubySystem.t) (szs : list Z) (d : t) : Prop := {
  di_block : 0 <= RubySystem.getBlockSizeBits s < 32;
  di_ranges : Forall2 (good_range (RubySystem.getBlockSizeBits s)) (addrRanges d) szs;
  di_total : total_size szs < 2 ^ 64;
  di_disjoint : forall i j r r' a,
    addrRanges d !! i = Some r -> addrRanges d !! j = Some r' ->
    AddrRange.contains a r = Ok true -> AddrRange.contains a r' = Ok true -> i = j;
  di_num : m_num_entries d = total_size szs / 2 ^ RubySystem.getBlockSizeBits s;
  di_entries : zlen (m_entries d) = m_num_entries d
}.

Lemma total_size_app l l' : total_size (l ++ l') = total_size l + total_size l'.
Proof. unfold total_size. induction l; cbn; lia. Qed.

Lemma total_size_take (szs : list Z) i sz : szs !! i = Some sz -> total_size (take (S i) szs) = total_size (take i szs) + sz.
Proof. intros H. rewrite (take_S_r _ _ sz) by done. rewrite total_size_app. cbn. lia. Qed.

Section Sizes.
Context (b : Z) (rs : list AddrRange.t) (szs : list Z).
Hypothesis (Hb : 0 <= b) (Hgood : Forall2 (good_range b) rs szs).

Lemma sizes_nonneg i sz : szs !! i = Some sz -> 0 <= sz < 2 ^ 64.
Proof.
  intros Hi. destruct (Forall2_lookup_r _ _ _ _ _ Hgood Hi) as (r & _ & [Hwf Hal _ Hsz]).
  by eapply size_bounds.
Qed.

Lemma total_size_take_mono i j : (i <= j)%nat -> 0 <= total_size (take i szs) <= total_size (take j szs).
Proof.
  assert (forall n, total_size (take n szs) <= total_size (take (S n) szs)) as Hn.
  { intros n. destruct (szs !! n) as [z|] eqn:E.
    - rewrite (total_size_take szs n z E). pose proof (sizes_nonneg _ _ E). lia.
    - apply lookup_ge_None in E. rewrite !take_ge; lia. }
  assert (forall n, 0 <= total_size (take n szs)) as H0.
  { induction n as [|n IH]; [done|]. specialize (Hn n). lia. }
  split; [done|]. induction H as [|j Hj IH]; [done|]. specialize (Hn j). lia.
Qed.

Lemma total_size_take_line i : line b (total_size (take i szs)) = total_size (take i szs).
Proof.
  induction i as [|i IH]; [by apply (line_multiple b 0)|].
  destruct (szs !! i) as [sz|] eqn:E.
  - rewrite (total_size_take szs i sz E), line_add by done. f_equal.
    destruct (Forall2_lookup_r _ _ _ _ _ Hgood E) as (r & _ & Hr). by eapply size_line.
  - apply lookup_ge_None in E. by rewrite !take_ge in * by lia.
Qed.

(** The end of one range is not beyond the start of a later one. *)
Lemma total_size_take_lt i j sz : (i < j)%nat -> szs !! i = Some sz ->
  total_size (take i szs) + sz <= total_size (take j szs).
Proof. intros Hij Hi. rewrite <- (total_size_take _ _ _ Hi). apply total_size_take_mono. lia. Qed.

(** The line of a number in the part of a range stays in that part. *)
Lemma slot_line i sz v : szs !! i = Some sz ->
  total_size (take i szs) <= v < total_size (take i szs) + sz ->
  total_size (take i szs) <= line b v < total_size (take i szs) + sz.
Proof.
  intros Hi Hv. pose proof (total_size_take_line i) as H1. unfold line in *.
  pose proof (pow2_pos b Hb) as Hpos. pose proof (Z.mul_div_le v (2 ^ b) Hpos).
  split; [|lia]. rewrite <- H1. apply Z.mul_le_mono_nonneg_r; [lia|]. apply Z.div_le_mono; lia.
Qed.

End Sizes.

(** The loop of [mapAddressToLocalIdx] finds the range of the address. *)
Lemma local_offset_Ok b rs szs a ret :
  0 <= b -> Forall2 (good_range b) rs szs -> 0 <= ret -> ret + total_size szs < 2 ^ 64 ->
  (exists r, r ∈ rs /\ AddrRange.contains a r = Ok true) ->
  exists i r sz, rs !! i = Some r /\ szs !! i = Some sz /\ AddrRange.contains a r = Ok true /\
    local_offset a ret rs
    = Ok (ret + total_size (take i szs) + (position r a - position r (AddrRange.start_ r))).
Proof.
  intros Hb Hall. revert ret.
  induction Hall as [|r sz rs szs [Hwf Hal Hbl Hsz] Hall IH]; intros ret H0 Hlt (r' & Hin & Hc).
  { by apply elem_of_nil in Hin. }
  cbn [total_size foldr] in Hlt. fold (total_size szs) in Hlt.
  pose proof (total_size_take_mono b rs szs Hall 0 (length szs)) as Hpos.
  rewrite firstn_all in Hpos. pose proof (size_bounds r sz Hwf Hal Hsz) as Hszb.
  cbn [local_offset]. destruct (AddrRange.contains a r) as [[]|e] eqn:Ec.
  - exists 0%nat, r, sz. split_and!; [done..|]. rewrite contains_Ok in Ec by done.
    injection Ec as [Hw _]%andb_true_iff. cbn. rewrite (getOffset_position r sz a) by done. cbn.
    f_equal. apply (within_position r sz) in Hw; [|done..]. rewrite u64_addr; [lia|].
    unfold is_addr. specialize (Hpos ltac:(lia)). lia.
  - cbn. rewrite Hsz. cbn. rewrite u64_addr by (unfold is_addr; specialize (Hpos ltac:(lia)); lia).
    destruct (IH (ret + sz)) as (i & r2 & sz2 & H1 & H2 & H3 & H4); [lia|lia| |].
    { exists r'. split; [|done]. apply elem_of_cons in Hin as [->|]; [congruence|done]. }
    exists (S i), r2, sz2. split_and!; [done..|]. rewrite H4. f_equal. cbn. fold (total_size (take i szs)).
    lia.
  - rewrite contains_Ok in Ec by done. discriminate Ec.
Qed.

Section Directory.
Context (s : RubySystem.t) (szs : list Z).

Let b : Z := RubySystem.getBlockSizeBits s.

Lemma ranges_wf d : dir_inv s szs d -> Forall wf (addrRanges d).
Proof.
  intros Hd. apply Forall_forall. intros r (i & Hi)%list_elem_of_lookup_1.
  destruct (Forall2_lookup_l _ _ _ _ _ (di_ranges _ _ _ Hd) Hi) as (sz & _ & Hg). apply Hg.
Qed.

Lemma present_total d a : dir_inv s szs d -> exists p, isPresent a d = Ok p.
Proof.
  intros Hd. destruct (find_contains (addrRanges d) a (ranges_wf d Hd)) as (o & Ho & _).
  unfold isPresent. rewrite Ho. by eexists.
Qed.

Lemma present_range d a : dir_inv s szs d ->
  isPresent a d = Ok true <-> exists r, r ∈ addrRanges d /\ AddrRange.contains a r = Ok true.
Proof.
  intros Hd. destruct (find_contains (addrRanges d) a (ranges_wf d Hd)) as (o & Ho & Hspec).
  unfold isPresent. rewrite Ho. cbn. destruct o as [r|].
  - split; [by exists r|done].
  - split; [done|]. intros (r & Hr & Hc). by rewrite Hspec in Hc.
Qed.

(** The place of an address: its range and its number in the directory. *)
Lemma local_index d a : dir_inv s szs d -> isPresent a d = Ok true ->
  exists i r sz v, addrRanges d !! i = Some r /\ szs !! i = Some sz /\
    AddrRange.contains a r = Ok true /\
    v = total_size (take i szs) + (position r a - position r (AddrRange.start_ r)) /\
    0 <= position r a - position r (AddrRange.start_ r) < sz /\
    mapAddressToLocalIdx s a d = Ok (v / 2 ^ b) /\ 0 <= v / 2 ^ b < m_num_entries d.
Proof.
  intros Hd Hp. pose proof (proj1 (present_range d a Hd) Hp) as Hex. destruct Hd as [Hb Hr Ht _ Hn _].
  fold b in Hb, Hr, Hn.
  destruct (local_offset_Ok b (addrRanges d) szs a 0) as (i & r & sz & Hi & Hsi & Hc & Hl);
    [lia|done|lia|lia|done|].
  destruct (Forall2_lookup_l _ _ _ _ _ Hr Hi) as (sz' & Hs' & [Hwf Hal Hbl Hsz]).
  rewrite Hsi in Hs'. injection Hs' as <-.
  pose proof Hc as Hw. rewrite contains_Ok in Hw by done. injection Hw as [Hw _]%andb_true_iff.
  apply (within_position r sz) in Hw; [|done..].
  exists i, r, sz, (total_size (take i szs) + (position r a - position r (AddrRange.start_ r))).
  split_and!; [done..|lia|lia| | |].
  - unfold mapAddressToLocalIdx. rewrite Hl. cbn. by rewrite shr64_Ok by (fold b; lia).
  - apply Z.div_pos; [|apply pow2_pos; lia].
    pose proof (total_size_take_mono b _ szs Hr i i ltac:(lia)). lia.
  - rewrite Hn. pose proof (total_size_take_line b _ szs ltac:(lia) Hr (length szs)) as Hl2.
    rewrite firstn_all in Hl2. unfold line in Hl2. apply Z.div_lt_upper_bound; [apply pow2_pos; lia|].
    rewrite Z.mul_comm, Hl2.
    pose proof (total_size_take_mono b _ szs Hr (S i) (length szs)) as Hm. rewrite firstn_all in Hm.
    apply lookup_lt_Some in Hsi as Hlen. rewrite (total_size_take _ _ _ Hsi) in Hm. lia.
Qed.

(** Two addresses have the same number when they are in the same line. *)
Lemma index_line d a a' x x' : dir_inv s szs d ->
  isPresent a d = Ok true -> isPresent a' d = Ok true ->
  mapAddressToLocalIdx s a d = Ok x -> mapAddressToLocalIdx s a' d = Ok x' ->
  x = x' <-> line b a = line b a'.
Proof.
  intros Hd Hp Hp' Hx Hx'.
  destruct (local_index d a Hd Hp) as (i & r & sz & v & Hi & Hsi & Hc & Ev & Hv & E & _).
  destruct (local_index d a' Hd Hp') as (i' & r' & sz' & v' & Hi' & Hsi' & Hc' & Ev' & Hv' & E' & _).
  rewrite Hx in E. rewrite Hx' in E'. injection E as ->. injection E' as ->.
  destruct Hd as [Hb Hr _ Hdis _ _]. fold b in Hb, Hr. assert (0 <= b) as Hb0 by lia.
  destruct (Forall2_lookup_l _ _ _ _ _ Hr Hi) as (? & _ & [Hwf _ Hbl _]).
  rewrite <- line_eq by done.
  pose proof (total_size_take_line b _ szs Hb0 Hr) as Hlines.
  assert (line b a = line b a' -> i = i') as Hsame.
  { intros E. eapply Hdis; [exact Hi|exact Hi'| |exact Hc'].
    rewrite <- (contains_line b) by done. rewrite <- E. by rewrite contains_line by done. }
  pose proof (slot_line b _ szs Hb0 Hr) as Hin.
  pose proof (Hin i sz v Hsi ltac:(lia)) as Hv1. pose proof (Hin i' sz' v' Hsi' ltac:(lia)) as Hv1'.
  destruct (Nat.lt_trichotomy i i') as [Hlt|[<-|Hlt]].
  - pose proof (total_size_take_lt b _ szs Hr i i' sz Hlt Hsi).
    split; [lia|]. intros ->%Hsame. lia.
  - rewrite Hi in Hi'. injection Hi' as <-.
    pose proof (start_line b r Hb0 Hwf Hbl).
    assert (line b (total_size (take i szs) - position r (AddrRange.start_ r))
            = total_size (take i szs) - position r (AddrRange.start_ r)) as Hbase.
    { by apply line_sub. }
    rewrite Ev, Ev'.
    replace (total_size (take i szs) + (position r a - position r (AddrRange.start_ r)))
      with (total_size (take i szs) - position r (AddrRange.start_ r) + position r a) by lia.
    replace (total_size (take i szs) + (position r a' - position r (AddrRange.start_ r)))
      with (total_size (take i szs) - position r (AddrRange.start_ r) + position r a') by lia.
    rewrite !line_add by done. rewrite contains_Ok in Hc, Hc' by done.
    injection Hc as [_ Hm]%andb_true_iff. injection Hc' as [_ Hm']%andb_true_iff.
    rewrite <- (same_line b r) by done. lia.
  - pose proof (total_size_take_lt b _ szs Hr i' i sz' Hlt Hsi').
    split; [lia|]. intros ->%Hsame. lia.
Qed.

End Directory.

(** What the constructor and [init] need of the ranges they are given. *)
Record sound_ranges (s : RubySystem.t) (rs : list AddrRange.t) (szs : list Z) : Prop := {
  sr_good : Forall2 (good_range (RubySystem.getBlockSizeBits s)) rs szs;
  sr_total : 0 < total_size szs < 2 ^ 64;
  sr_entries : total_size szs / 2 ^ RubySystem.getBlockSizeBits s < 2 ^ 31;
  sr_disjoint : forall i j r r' a,
    rs !! i = Some r -> rs !! j = Some r' ->
    AddrRange.contains a r = Ok true -> AddrRange.contains a r' = Ok true -> i = j
}.

Lemma sizes_sum b rs szs acc :
  Forall2 (good_range b) rs szs -> 0 <= acc -> acc + total_size szs < 2 ^ 64 ->
  foldM (fun r acc => x ← AddrRange.size r; Ok (u64 (acc + x))) rs acc = Ok (acc + total_size szs).
Proof.
  intros Hall. revert acc. induction Hall as [|r sz rs szs [Hwf Hal _ Hsz] Hall IH];
    intros acc H0 Hlt; [cbn; f_equal; lia|].
  cbn [total_size foldr] in Hlt. fold (total_size szs) in Hlt.
  pose proof (total_size_take_mono b rs szs Hall 0 (length szs)) as Hpos. rewrite firstn_all in Hpos.
  specialize (Hpos ltac:(lia)). pose proof (size_bounds r sz Hwf Hal Hsz).
  cbn [foldM]. rewrite Hsz. cbn. rewrite u64_addr by (unfold is_addr; lia).
  rewrite IH by lia. f_equal. fold (total_size szs). lia.
Qed.

(** The directory comes up empty. *)
Lemma directory_starts bytes s rs szs :
  0 <= bytes < 2 ^ 32 -> RubySystem.new bytes = Ok s -> sound_ranges s rs szs ->
  exists d0 d, new rs = Ok d0 /\ init s d0 = Ok d /\ addrRanges d = rs /\ dir_inv s szs d /\
    m_entries d = replicate (Z.to_nat (m_num_entries d)) None.
Proof.
  intros Hb Hs [Hgood Ht Hn Hdis]. destruct (block_size_correct bytes Hb) as [_ Hok].
  destruct (Hok s Hs) as (Ebytes & Hbits & Eb).
  unfold new. rewrite (sizes_sum _ _ _ 0 Hgood) by lia. rewrite Z.add_0_l. cbn.
  rewrite floorLog2_64_correct by done. cbn. eexists _, _. split; [done|].
  unfold init. cbn. rewrite Ebytes, Eb in *.
  pose proof (pow2_pos (RubySystem.getBlockSizeBits s)).
  rewrite (proj2 (Z.eqb_neq _ 0)), Z.gtb_ltb, (proj2 (Z.ltb_ge _ _)) by lia.
  split; [done|]. cbn. split; [done|]. split; [|done].
  constructor; cbn; [done|done|lia|done|done|].
  unfold zlen. rewrite length_replicate. apply Z2Nat.id, Z.div_pos; lia.
Qed.

Section Map.
Context {Store : Type} (changePermission : Z -> Store -> Res Store).
Hypothesis (Hchange : forall e st, exists st', changePermission e st = Ok st').
Context (s : RubySystem.t) (szs : list Z).

Let b : Z := RubySystem.getBlockSizeBits s.

(** The directory behaves as the map [f] from lines to entries. *)
Definition is_map (d : t) (f : Z -> option Z) : Prop :=
  forall a, isPresent a d = Ok true -> lookup s a d = Ok (f (line b a)).

Lemma lookup_index d a x : isPresent a d = Ok true ->
  mapAddressToLocalIdx s a d = Ok x -> x < m_num_entries d ->
  lookup s a d = vec_at (m_entries d) x.
Proof.
  intros Hp Hx Hlt. unfold lookup. rewrite Hp. cbn. rewrite Hx. cbn.
  by rewrite (proj2 (Z.ltb_lt _ _) Hlt).
Qed.

Lemma allocate_map d a e f st : dir_inv s szs d -> isPresent a d = Ok true -> is_map d f ->
  exists d' st', allocate changePermission s a e d st = Ok (d', st') /\ dir_inv s szs d' /\
    addrRanges d' = addrRanges d /\
    is_map d' (fun l => if decide (l = line b a) then Some e else f l).
Proof.
  intros Hd Hp Hf. destruct (Hchange e st) as [st' Hst].
  destruct (local_index s szs d a Hd Hp) as (_ & _ & _ & v & _ & _ & _ & _ & _ & Hx & Hlt).
  fold b in Hx, Hlt. set (x := v / 2 ^ b) in *.
  assert (0 <= x < zlen (m_entries d)) as Hin by (rewrite (di_entries _ _ _ Hd); lia).
  unfold allocate. rewrite Hp. cbn. rewrite Hx. cbn.
  rewrite (proj2 (Z.ltb_lt x _)) by lia. cbn. rewrite Hst. cbn. rewrite vec_set_Ok by done. cbn.
  eexists _, st'. split; [done|]. cbn. split; [|split; [done|]].
  - destruct Hd. constructor; cbn; [done..|]. unfold zlen in *. by rewrite length_insert.
  - intros a' Hp'. change (isPresent a' d = Ok true) in Hp'.
    destruct (local_index s szs d a' Hd Hp') as (_ & _ & _ & v' & _ & _ & _ & _ & _ & Hx' & Hlt').
    fold b in Hx', Hlt'. rewrite (lookup_index _ _ (v' / 2 ^ b)) by (done || cbn; lia). cbn.
    pose proof (index_line s szs d a' a _ _ Hd Hp' Hp Hx' Hx) as Hidx. fold b in Hidx.
    specialize (Hf a' Hp'). rewrite (lookup_index _ _ (v' / 2 ^ b)) in Hf by (done || lia).
    case_decide as E.
    + apply Hidx in E as ->. apply (vec_at_set_eq (m_entries d) x). by apply vec_set_Ok.
    + rewrite <- Hf. apply (vec_at_set_ne (m_entries d) x _ (Some e)); [|by apply vec_set_Ok].
      intros E'. apply E, Hidx. done.
Qed.

(** The entry last allocated for a line. *)
Definition last_entry (l : Z) (ops : list (Z * Z)) (o : option Z) : option Z :=
  foldl (fun o op => if decide (l = line b op.1) then Some op.2 else o) o ops.

Definition allocate_all (ops : list (Z * Z)) (d : t) (st : Store) : Res (t * Store) :=
  foldM (fun op ds => allocate changePermission s op.1 op.2 ds.1 ds.2) ops (d, st).

Lemma allocate_all_map d f ops st :
  dir_inv s szs d -> is_map d f -> (forall op, op ∈ ops -> isPresent op.1 d = Ok true) ->
  exists d' st', allocate_all ops d st = Ok (d', st') /\ dir_inv s szs d' /\
    addrRanges d' = addrRanges d /\ is_map d' (fun l => last_entry l ops (f l)).
Proof.
  intros Hd Hf. induction ops as [|op ops IH] using rev_ind; intros Hops; [by exists d, st|].
  destruct IH as (d1 & st1 & Hrun & Hd1 & Hrs & Hmap).
  { intros op' Hop'. apply Hops, elem_of_app. by left. }
  assert (isPresent op.1 d1 = Ok true) as Hp.
  { unfold isPresent. rewrite Hrs. apply Hops, elem_of_app. right. by left. }
  destruct (allocate_map d1 op.1 op.2 _ st1 Hd1 Hp Hmap) as (d2 & st2 & Hal & Hd2 & Hrs2 & Hmap2).
  exists d2, st2. unfold allocate_all in *. rewrite foldM_app, Hrun. cbn. rewrite Hal.
  split_and!; [done..|by rewrite Hrs2|]. intros a Ha. rewrite Hmap2 by done.
  unfold last_entry. by rewrite foldl_snoc.
Qed.

Lemma empty_is_map d : dir_inv s szs d ->
  m_entries d = replicate (Z.to_nat (m_num_entries d)) None -> is_map d (fun _ => None).
Proof.
  intros Hd He a Hp.
  destruct (local_index s szs d a Hd Hp) as (_ & _ & _ & v & _ & _ & _ & _ & _ & Hx & Hlt).
  rewrite (lookup_index _ _ _ Hp Hx) by lia. rewrite He. apply vec_at_Ok.
  split; [lia|]. apply lookup_replicate. split; [done|lia].
Qed.

End Map.

(** C34: The directory memory is a map from lines to entries: it comes up
    from sound ranges, and after any allocations at addresses of the ranges,
    which never fail an assertion, an address of the ranges finds the entry
    that was last allocated for its line, and none if there was none; an
    address outside is refused. *)
Theorem directory_memory_is_map {Store} (changePermission : Z -> Store -> Res Store) bytes s rs szs :
  (forall e st, exists st', changePermission e st = Ok st') ->
  0 <= bytes < 2 ^ 32 -> RubySystem.new bytes = Ok s -> sound_ranges s rs szs ->
  exists d0 d, new rs = Ok d0 /\ init s d0 = Ok d /\
  forall ops st, (forall op, op ∈ ops -> isPresent op.1 d = Ok true) ->
  exists d' st', allocate_all changePermission s ops d st = Ok (d', st') /\
    forall a, lookup s a d'
      = match isPresent a d with
        | Ok true => Ok (last_entry s (line (RubySystem.getBlockSizeBits s) a) ops None)
        | _ => Err (AssertFail "DirectoryMemory.cc:115")
        end.
Proof.
  intros Hc Hb Hs Hr. destruct (directory_starts bytes s rs szs Hb Hs Hr) as (d0 & d & H0 & H1 & _ & Hd & He).
  exists d0, d. split; [done|]. split; [done|]. intros ops st Hops.
  destruct (allocate_all_map changePermission Hc s szs d _ ops st Hd (empty_is_map s szs d Hd He) Hops)
    as (d' & st' & Hrun & _ & Hrs & Hmap).
  exists d', st'. split; [done|]. intros a.
  assert (isPresent a d' = isPresent a d) as Hpres by (unfold isPresent; by rewrite Hrs).
  destruct (isPresent a d) as [[]|e] eqn:Hp; [by apply Hmap; rewrite Hpres| |].
  - unfold lookup. by rewrite Hpres.
  - exfalso. destruct (present_total s szs d a Hd) as [? E]. by rewrite E in Hp.
Qed.

End DirectoryFacts.

(** ** A system with four interleaved directories *)
Module AddrMapExample.
Import AddrMap AddrMapFacts.

(** A protocol with caches (type 0) and directories (type 1). *)
Definition types : MachineTypes := {|
  MachineType_NUM := 2;
  MachineType_base_level := fun i => i;
  MachineType_base_count := fun _ => 4;
  MachineType_base_number := fun i => 4 * i
|}.

Definition directory (j : Z) : controller := mk_controller 1 j [member 0 8191 7 12 2 j].

Definition cache (j : Z) : controller := mk_controller 0 j [].

Definition controllers : list controller :=
  [cache 0; directory 0; cache 1; directory 3; directory 1; directory 2].

(** One of the orders in which the multimap may hold them. *)
Definition the_map : t :=
  [entry (directory 2); entry (directory 0); entry (directory 1); entry (directory 3)].

Lemma the_map_constructed : constructed controllers the_map.
Proof.
  change controllers with ([] ++ [cache 0] ++ [directory 0] ++ [cache 1] ++ [directory 3]
                            ++ [directory 1] ++ [directory 2]).
  rewrite !app_assoc.
  apply (constructed_emplace _ _ [entry (directory 0); entry (directory 1); entry (directory 3)]);
    [|done|apply (emplaced_at _ _ [] _)].
  apply (constructed_emplace _ _ [entry (directory 0); entry (directory 3)]);
    [|done|apply (emplaced_at _ _ [entry (directory 0)] [entry (directory 3)])].
  apply (constructed_emplace _ _ [entry (directory 0)]);
    [|done|apply (emplaced_at _ _ [entry (directory 0)] [])].
  apply constructed_skip; [|done].
  apply (constructed_emplace _ _ []); [|done|apply (emplaced_at _ _ [] [])].
  apply constructed_skip; [|done]. constructor.
Qed.

Lemma controllers_wf : ranges_wf controllers.
Proof.
  assert (forall j, 0 <= j < 4 -> Forall wf (cntrl_ranges (directory j))) as Hd.
  { intros j Hj. constructor; [|constructor].
    apply member_wf; [done|done|exact RangeExample.geometry_hashed|done]. }
  intros c Hc. unfold controllers in Hc. rewrite !elem_of_cons in Hc.
  destruct Hc as [->|[->|[->|[->|[->|[->|Hc]]]]]]; [by constructor|apply Hd; lia|by constructor
    |apply Hd; lia..|by apply elem_of_nil in Hc].
Qed.

Lemma controllers_interleaved : interleaved_over controllers 1 0 8191 7 12 2.
Proof.
  split.
  - intros c Hc Ht _. unfold controllers in Hc. rewrite !elem_of_cons in Hc.
    destruct Hc as [->|[->|[->|[->|[->|[->|Hc]]]]]]; try done. by apply elem_of_nil in Hc.
  - intros j Hj. exists (directory j). split_and!; [|done..].
    unfold controllers. rewrite !elem_of_cons. change (2 ^ 2) with 4 in Hj.
    assert (j = 0 \/ j = 1 \/ j = 2 \/ j = 3) as [->|[->|[->| ->]]] by lia; tauto.
Qed.

Lemma addressToNodeID_interleaved_witness :
  constructed controllers the_map /\
  addressToNodeID types 4288 1 the_map = Ok 1 /\ addressToNodeID types 9000 1 the_map = Ok 4.
Proof.
  split; [exact the_map_constructed|].
  split; (etransitivity; [apply (addressToNodeID_interleaved types controllers the_map _ 1 0 8191 7 12 2);
    [exact the_map_constructed|exact controllers_wf|exact RangeExample.geometry_hashed|done|done
    |exact controllers_interleaved]|vm_compute; reflexivity]).
Defined.

End AddrMapExample.

(** ** A directory with an interleaved and a plain range *)
Module DirectoryExample.
Import DirectoryMemory DirectoryFacts.

Definition system : RubySystem.t := RubySystem.mk 64 6.

Definition directory_ranges : list AddrRange.t :=
  [AddrRange.plain 8192 8319; RangeExample.quarter].

Lemma directory_ranges_sound : sound_ranges system directory_ranges [128; 2048].
Proof.
  constructor; cbn.
  - constructor; [|constructor; [|constructor]].
    + constructor; [|split; [done|]; split; [done|by left]|by vm_compute; auto|done].
      split; [done|]. split; [done|by left].
    + constructor; [exact RangeExample.quarter_wf|exact RangeExample.quarter_aligned| |done].
      split; [done|]. split; [done|]. right. split; [done|by right].
  - lia.
  - done.
  - assert (forall a, AddrRange.contains a (AddrRange.plain 8192 8319) = Ok true -> 8192 <= a) as H1.
    { intros a. rewrite contains_Ok by (split; [done|]; split; [done|by left]).
      intros [= [Hw _]%andb_true_iff]. unfold within in Hw. zbool. done. }
    assert (forall a, AddrRange.contains a RangeExample.quarter = Ok true -> a <= 8191) as H2.
    { intros a. rewrite contains_Ok by exact RangeExample.quarter_wf.
      intros [= [Hw _]%andb_true_iff]. unfold within in Hw. zbool. done. }
    intros [|[|i]] [|[|j]] r r' a Hi Hj Ha Ha'; cbn in Hi, Hj; simplify_eq; try done.
    + specialize (H1 a Ha). specialize (H2 a Ha'). lia.
    + specialize (H1 a Ha'). specialize (H2 a Ha). lia.
Qed.

Lemma directory_memory_is_map_witness :
  RubySystem.new 64 = Ok system /\ sound_ranges system directory_ranges [128; 2048] /\
  exists d0 d, new directory_ranges = Ok d0 /\ init system d0 = Ok d /\
  forall ops st, (forall op, op ∈ ops -> isPresent op.1 d = Ok true) ->
  exists d' st', allocate_all (fun _ (n : Z) => Ok (n + 1)) system ops d st = Ok (d', st') /\
    forall a, lookup system a d'
      = match isPresent a d with
        | Ok true => Ok (last_entry system (line 6 a) ops None)
        | _ => Err (AssertFail "DirectoryMemory.cc:115")
        end.
Proof.
  split; [vm_compute; reflexivity|]. split; [exact directory_ranges_sound|].
  apply (directory_memory_is_map (fun _ (n : Z) => Ok (n + 1)) 64 system directory_ranges [128; 2048]);
    [by intros; eexists|lia|vm_compute; reflexivity|exact directory_ranges_sound].
Defined.

(** A run: two entries in two lines, the second line written twice. *)
Example directory_run :
  (d0 ← new directory_ranges; d ← init system d0;
   ds ← allocate_all (fun _ (n : Z) => Ok (n + 1)) system [(8200, 1); (192, 2); (255, 3)] d 0;
   x ← lookup system 8255 ds.1; y ← lookup system 200 ds.1; z ← lookup system 8256 ds.1;
   Ok (x, y, z, ds.2))
  = Ok (Some 1, Some 3, None, 3).
Proof. by vm_compute. Qed.

End DirectoryExample.
