(* ===== verification/Setup.v ===== *)
(** * Setting a network up

    Models src/mem/ruby/network/Network.{hh,cc}, the base class of the
    networks with the queues to and from the protocol, and the constructor
    and [init] of src/mem/ruby/network/garnet2.0/GarnetNetwork.cc.

    The controllers, which are generated, register their queues in
    [initNetQueues]; the model takes the list of these calls. *)

From S2P Require Import Prelude NetDest Types FlitBuffer Channels RouterCore MsgBuffer NetState Routing Network Spin Topology.

(** [fatal_if] *)
Definition fatal_if (b : bool) (what : string) : Res unit :=
  if b then Err (FatalError what) else Ok tt.

Inductive MessageSizeType :=
  | MessageSizeType_Control
  | MessageSizeType_Data
  | MessageSizeType_Request_Control
  | MessageSizeType_Reissue_Control
  | MessageSizeType_Response_Data
  | MessageSizeType_ResponseL2hit_Data
  | MessageSizeType_ResponseLocal_Data
  | MessageSizeType_Response_Control
  | MessageSizeType_Writeback_Data
  | MessageSizeType_Writeback_Control
  | MessageSizeType_Broadcast_Control
  | MessageSizeType_Multicast_Control
  | MessageSizeType_Forwarded_Control
  | MessageSizeType_Invalidate_Control
  | MessageSizeType_Unblock_Control
  | MessageSizeType_Persistent_Control
  | MessageSizeType_Completion_Control.

(** ** [class Network] *)
Module NetworkBase.

(** The queues are references to message buffers, [None] a null pointer. *)
Record t := mk {
  m_virtual_networks : Z;
  m_control_msg_size : Z;
  m_data_msg_size : Z;
  m_nodes : Z;
  m_topology_ptr : Topology.t;
  m_toNetQueues : list (list (option Z));
  m_fromNetQueues : list (list (option Z));
  m_ordered : list bool;
  m_vnet_type_names : list string
}.

Definition new (mt : MachineTypes) (number_of_virtual_networks control_msg_size num_routers : Z)
    (ext_links : list ext_link) (int_links : list int_link) : Res t :=
  let m_nodes := MachineType_base_number mt (MachineType_NUM mt) in
  _ ← assert_ (negb (m_nodes =? 0)) "Network.cc:61";
  _ ← assert_ (negb (number_of_virtual_networks =? 0)) "Network.cc:62";
  tp ← Topology.new mt num_routers ext_links int_links;
  let vnets := Z.to_nat number_of_virtual_networks in
  Ok (mk number_of_virtual_networks control_msg_size 0 m_nodes tp
        (replicate (Z.to_nat m_nodes) []) (replicate (Z.to_nat m_nodes) [])
        (replicate vnets false) (replicate vnets "")).

(** [init] with the block size of the Ruby system. *)
Definition init (block_size : Z) (b : t) : t :=
  mk (m_virtual_networks b) (m_control_msg_size b) (u32 (block_size + m_control_msg_size b))
    (m_nodes b) (m_topology_ptr b) (m_toNetQueues b) (m_fromNetQueues b) (m_ordered b)
    (m_vnet_type_names b).

Definition MessageSizeType_to_int (size_type : MessageSizeType) (b : t) : Z :=
  match size_type with
  | MessageSizeType_Control | MessageSizeType_Request_Control | MessageSizeType_Reissue_Control
  | MessageSizeType_Response_Control | MessageSizeType_Writeback_Control
  | MessageSizeType_Broadcast_Control | MessageSizeType_Multicast_Control
  | MessageSizeType_Forwarded_Control | MessageSizeType_Invalidate_Control
  | MessageSizeType_Unblock_Control | MessageSizeType_Persistent_Control
  | MessageSizeType_Completion_Control => m_control_msg_size b
  | MessageSizeType_Data | MessageSizeType_Response_Data | MessageSizeType_ResponseLocal_Data
  | MessageSizeType_ResponseL2hit_Data | MessageSizeType_Writeback_Data => m_data_msg_size b
  end.

(** Both comparisons are unsigned. *)
Definition checkNetworkAllocation (id : Z) (ordered : bool) (network_num : Z) (vnet_type : string)
    (b : t) : Res t :=
  _ ← fatal_if (u32 id >=? m_nodes b) "Node ID is out of range";
  _ ← fatal_if (u32 network_num >=? m_virtual_networks b) "Network id is out of range";
  ord ← (if ordered then vec_set (m_ordered b) network_num true else Ok (m_ordered b));
  names ← vec_set (m_vnet_type_names b) network_num vnet_type;
  Ok (mk (m_virtual_networks b) (m_control_msg_size b) (m_data_msg_size b) (m_nodes b)
        (m_topology_ptr b) (m_toNetQueues b) (m_fromNetQueues b) ord names).

(** The [while] loop pushes null pointers until the vector has the index. *)
Definition grow (network_num : Z) (q : list (option Z)) : list (option Z) :=
  q ++ replicate (Z.to_nat (network_num + 1 - zlen q)) None.

Definition set_queue (id network_num buf : Z) (qs : list (list (option Z)))
    : Res (list (list (option Z))) :=
  vec_upd qs id (fun q => vec_set (grow network_num q) network_num (Some buf)).

Definition setToNetQueue (id : Z) (ordered : bool) (network_num : Z) (vnet_type : string)
    (buf : Z) (b : t) : Res t :=
  b ← checkNetworkAllocation id ordered network_num vnet_type b;
  qs ← set_queue id network_num buf (m_toNetQueues b);
  Ok (mk (m_virtual_networks b) (m_control_msg_size b) (m_data_msg_size b) (m_nodes b)
        (m_topology_ptr b) qs (m_fromNetQueues b) (m_ordered b) (m_vnet_type_names b)).

Definition setFromNetQueue (id : Z) (ordered : bool) (network_num : Z) (vnet_type : string)
    (buf : Z) (b : t) : Res t :=
  b ← checkNetworkAllocation id ordered network_num vnet_type b;
  qs ← set_queue id network_num buf (m_fromNetQueues b);
  Ok (mk (m_virtual_networks b) (m_control_msg_size b) (m_data_msg_size b) (m_nodes b)
        (m_topology_ptr b) (m_toNetQueues b) qs (m_ordered b) (m_vnet_type_names b)).

(** A call of a controller. *)
Record registration := mk_registration {
  to_network : bool;
  reg_id : Z;
  reg_ordered : bool;
  reg_network : Z;
  reg_type : string;
  reg_buffer : Z
}.

Definition register (r : registration) : t -> Res t :=
  (if to_network r then setToNetQueue else setFromNetQueue)
    (reg_id r) (reg_ordered r) (reg_network r) (reg_type r) (reg_buffer r).

End NetworkBase.

(** ** [class GarnetNetwork] *)
Module GarnetSetup.

(** The members of the configuration the base class determines. *)
Definition configure (b : NetworkBase.t) (c : NetConfig.t) : NetConfig.t :=
  let 'NetConfig.mk rows cols _ vcs data ctrl alg _ _ spin thr mult all uturn sim warm single inj
        _ clk mt ed ind := c in
  NetConfig.mk rows cols (NetworkBase.m_virtual_networks b) vcs data ctrl alg
    (NetworkBase.m_ordered b) (Build.vnet_types (NetworkBase.m_vnet_type_names b))
    spin thr mult all uturn sim warm single inj (NetworkBase.m_nodes b) clk mt ed ind.

Definition set_dimensions (d : Z * Z) (c : NetConfig.t) : NetConfig.t :=
  let 'NetConfig.mk _ _ vn vcs data ctrl alg ord types spin thr mult all uturn sim warm single inj
        nodes clk mt ed ind := c in
  NetConfig.mk d.1 d.2 vn vcs data ctrl alg ord types spin thr mult all uturn sim warm single inj
    nodes clk mt ed ind.

Definition set_cfg (c : NetConfig.t) (n : Net.t) : Net.t :=
  Net.mk c (Net.curCycle n) (Net.m_routers n) (Net.m_nis n) (Net.net_links n)
    (Net.credit_links n) (Net.m_networklinks n) (Net.m_creditlinks n) (Net.spinRing n)
    (Net.lock n) (Net.dstats n) (Net.tstats n) (Net.evq n) (Net.rand_values n)
    (Net.rand_pos n) (Net.msgbufs n).

(** The constructor: the routers, interfaces and parameters are those of
    [n], the spin file is read when draining is on. *)
Definition construct (b : NetworkBase.t) (spin_file : option (list string * bool)) (n : Net.t)
    : Res Net.t :=
  ring ← (if NetConfig.m_spin (Net.cfg n) then
            _ ← assert_ (negb (NetConfig.m_spin_thrshld (Net.cfg n) =? 0)) "GarnetNetwork.cc:122";
            SpinRing.init_spinRing (NetConfig.m_num_rows (Net.cfg n)) spin_file
          else Ok []);
  Ok (set_cfg (configure b (Net.cfg n)) (Net.set_lock (-1) (Net.set_spinRing ring n))).

(** [init]: the queues are handed to the interfaces, the links are hooked
    up, and the dimensions of the mesh are computed. The fault model, which
    DRAIN does not enable, and the trace file are left out. *)
Definition init (mt : MachineTypes) (block_size : Z) (b : NetworkBase.t) (n : Net.t)
    : Res (NetworkBase.t * Net.t) :=
  let b := NetworkBase.init block_size b in
  n ← foldM (fun i n =>
               ins ← vec_at (NetworkBase.m_toNetQueues b) i;
               outs ← vec_at (NetworkBase.m_fromNetQueues b) i;
               Build.addNode i ins outs n) (range 0 (NetworkBase.m_nodes b)) n;
  n ← Topology.createLinks mt (NetworkBase.m_topology_ptr b) n;
  d ← Build.mesh_dimensions (NetConfig.m_num_rows (Net.cfg n)) (zlen (Net.m_routers n));
  Ok (b, set_cfg (set_dimensions d (Net.cfg n)) n).

End GarnetSetup.
