(* ===== verification/SetupFacts.v ===== *)
(** * Setting a network up: theorems

    The queues between the protocol and the network are registered where the
    interfaces look for them. A network that [GarnetNetwork::init] has set up
    from well-formed links routes every packet to the interface of its
    destination: whatever ports are chosen among those of the routing tables,
    it arrives within as many hops as the distance. *)

From S2P Require Import Prelude NetDest NetDestFacts Types FlitBuffer Channels RouterCore MsgBuffer NetState Routing RoutingFacts Network Spin Example Topology TopologyFacts TopologyRoutes TopologyDelivery Setup.

Import Topology.

(** ** The queues *)

(** What an interface finds for a virtual network: nothing when the vector is
    too short or holds a null pointer. *)
Definition queue_at (qs : list (list (option Z))) (id net : Z) : option Z :=
  match qs !! Z.to_nat id with
  | Some q => match q !! Z.to_nat net with Some o => o | None => None end
  | None => None
  end.

(** One vector per node, none longer than the number of virtual networks. *)
Definition queues_wf (nodes vnets : Z) (qs : list (list (option Z))) : Prop :=
  zlen qs = nodes /\ Forall (fun q => zlen q <= vnets) qs.

Record base_wf (b : NetworkBase.t) : Prop := {
  bw_nodes : NetworkBase.m_nodes b < 2 ^ 32;
  bw_vnets : NetworkBase.m_virtual_networks b < 2 ^ 31;
  bw_to : queues_wf (NetworkBase.m_nodes b) (NetworkBase.m_virtual_networks b) (NetworkBase.m_toNetQueues b);
  bw_from : queues_wf (NetworkBase.m_nodes b) (NetworkBase.m_virtual_networks b) (NetworkBase.m_fromNetQueues b);
  bw_ordered : zlen (NetworkBase.m_ordered b) = NetworkBase.m_virtual_networks b;
  bw_names : zlen (NetworkBase.m_vnet_type_names b) = NetworkBase.m_virtual_networks b
}.

Lemma grow_spec net q :
  0 <= net -> zlen (NetworkBase.grow net q) = Z.max (zlen q) (net + 1) /\
  forall k, match NetworkBase.grow net q !! k with Some o => o | None => None end =
            match q !! k with Some o => o | None => None end.
Proof.
  intros Hnet. unfold NetworkBase.grow, zlen. rewrite length_app, length_replicate. split; [lia|].
  intros k. destruct (decide (k < length q)%nat) as [Hk|Hk]; [by rewrite lookup_app_l|].
  rewrite lookup_app_r, (proj2 (lookup_ge_None q k)) by lia.
  destruct (replicate _ _ !! _) as [o|] eqn:Ho; [|done]. by apply lookup_replicate in Ho as [-> _].
Qed.

Lemma set_queue_spec nodes vnets id net buf qs :
  queues_wf nodes vnets qs -> 0 <= id < nodes -> 0 <= net < vnets ->
  exists qs', NetworkBase.set_queue id net buf qs = Ok qs' /\ queues_wf nodes vnets qs' /\
    forall id' net', 0 <= id' -> 0 <= net' ->
      queue_at qs' id' net' = if (id' =? id) && (net' =? net) then Some buf else queue_at qs id' net'.
Proof.
  intros [Hlen Hall] Hid Hnet. unfold NetworkBase.set_queue.
  destruct (vec_at_total qs id) as [q Hq]; [lia|]. pose proof Hq as [_ Hl]%vec_at_Ok.
  destruct (grow_spec net q) as [Hg Hgk]; [lia|].
  assert (vec_set (NetworkBase.grow net q) net (Some buf) = Ok (<[Z.to_nat net := Some buf]> (NetworkBase.grow net q))) as Hs.
  { unfold vec_set. rewrite decide_True; [done|]. unfold zlen in *. lia. }
  eexists. split; [by eapply vec_upd_Ok|]. split; [split|].
  - unfold zlen in *. by rewrite length_insert.
  - apply Forall_insert; [done|]. eapply Forall_lookup_1 in Hall; [|exact Hl]. cbn in Hall.
    unfold zlen in *. rewrite length_insert. lia.
  - intros id' net' Hid' Hnet'. unfold queue_at. destruct (Z.eqb_spec id' id) as [->|Hne]; cbn.
    + rewrite list_lookup_insert_eq by (by eapply lookup_lt_Some). rewrite Hl.
      destruct (Z.eqb_spec net' net) as [->|Hne'].
      * rewrite list_lookup_insert_eq; [done|]. unfold zlen in *. lia.
      * rewrite list_lookup_insert_ne by lia. apply Hgk.
    + rewrite list_lookup_insert_ne by lia. done.
Qed.

(** The registrations [checkNetworkAllocation] lets through. *)
Definition admissible (r : NetworkBase.registration) (b : NetworkBase.t) : bool :=
  (NetworkBase.reg_id r <? NetworkBase.m_nodes b) && (0 <=? NetworkBase.reg_network r) &&
  (NetworkBase.reg_network r <? NetworkBase.m_virtual_networks b).

Lemma zlen_vec_set {A} (l l' : list A) i x : vec_set l i x = Ok l' -> zlen l' = zlen l /\ 0 <= i < zlen l /\ l' = <[Z.to_nat i := x]> l.
Proof.
  unfold vec_set. case_decide as Hi; [|done]. intros [= <-]. unfold zlen. by rewrite length_insert.
Qed.

Lemma vec_set_total {A} (l : list A) i x : 0 <= i < zlen l -> vec_set l i x = Ok (<[Z.to_nat i := x]> l).
Proof. intros Hi. unfold vec_set. by rewrite decide_True. Qed.

Lemma checkNetworkAllocation_spec r b :
  base_wf b -> 0 <= NetworkBase.reg_id r < 2 ^ 32 -> - 2 ^ 31 <= NetworkBase.reg_network r < 2 ^ 31 ->
  let net := NetworkBase.reg_network r in
  match NetworkBase.checkNetworkAllocation (NetworkBase.reg_id r) (NetworkBase.reg_ordered r) net
          (NetworkBase.reg_type r) b with
  | Ok b' => admissible r b = true /\ base_wf b' /\
      b' = NetworkBase.mk (NetworkBase.m_virtual_networks b) (NetworkBase.m_control_msg_size b)
             (NetworkBase.m_data_msg_size b) (NetworkBase.m_nodes b) (NetworkBase.m_topology_ptr b)
             (NetworkBase.m_toNetQueues b) (NetworkBase.m_fromNetQueues b)
             (if NetworkBase.reg_ordered r then <[Z.to_nat net := true]> (NetworkBase.m_ordered b)
              else NetworkBase.m_ordered b)
             (<[Z.to_nat net := NetworkBase.reg_type r]> (NetworkBase.m_vnet_type_names b))
  | Err _ => admissible r b = false
  end.
Proof.
  intros [H1 H2 H3 H4 H5 H6] Hid Hnet net. unfold NetworkBase.checkNetworkAllocation, fatal_if, admissible. fold net in Hnet |- *.
  rewrite !Z.geb_leb. unfold u32. rewrite (Z.mod_small _ _ Hid).
  destruct (Z.leb_spec (NetworkBase.m_nodes b) (NetworkBase.reg_id r)); cbn.
  { by rewrite (proj2 (Z.ltb_ge _ _)). }
  rewrite (proj2 (Z.ltb_lt (NetworkBase.reg_id r) _)) by done. cbn.
  assert ((NetworkBase.m_virtual_networks b <=? net mod 2 ^ 32) =
    negb ((0 <=? net) && (net <? NetworkBase.m_virtual_networks b))) as ->.
  { destruct (Z.leb_spec 0 net); cbn; [|pose proof (Z.mod_unique net (2 ^ 32) (-1) (net + 2 ^ 32)); apply Z.leb_le; lia].
    rewrite Z.mod_small by lia. by rewrite Z.leb_antisym. }
  destruct ((0 <=? net) && (net <? NetworkBase.m_virtual_networks b)) eqn:Hin; cbn; [|done]. zbool.
  assert (zlen (<[Z.to_nat net := true]> (NetworkBase.m_ordered b)) = NetworkBase.m_virtual_networks b) as Ho
    by (unfold zlen in *; by rewrite length_insert).
  rewrite !vec_set_total by lia.
  destruct (NetworkBase.reg_ordered r); cbn; (split; [done|]); (split; [|done]); split; cbn;
    try done; unfold zlen in *; by rewrite length_insert.
Qed.

(** C31: registering a queue of the protocol. The call is refused exactly when
    the node or the virtual network is out of range; otherwise the interface
    of that node finds the buffer for that virtual network, every other
    queue, in both directions, is what it was, the network is ordered if it
    was or the queue is, and the vectors keep their sizes. *)
Theorem register_correct b r :
  base_wf b -> 0 <= NetworkBase.reg_id r < 2 ^ 32 -> - 2 ^ 31 <= NetworkBase.reg_network r < 2 ^ 31 ->
  is_ok (NetworkBase.register r b) = admissible r b /\
  forall b', NetworkBase.register r b = Ok b' ->
    base_wf b' /\
    (forall id net, 0 <= id -> 0 <= net ->
       let here := (id =? NetworkBase.reg_id r) && (net =? NetworkBase.reg_network r) in
       queue_at (NetworkBase.m_toNetQueues b') id net =
         (if here && NetworkBase.to_network r then Some (NetworkBase.reg_buffer r)
          else queue_at (NetworkBase.m_toNetQueues b) id net) /\
       queue_at (NetworkBase.m_fromNetQueues b') id net =
         (if here && negb (NetworkBase.to_network r) then Some (NetworkBase.reg_buffer r)
          else queue_at (NetworkBase.m_fromNetQueues b) id net)) /\
    NetworkBase.m_ordered b' = (if NetworkBase.reg_ordered r
       then <[Z.to_nat (NetworkBase.reg_network r) := true]> (NetworkBase.m_ordered b)
       else NetworkBase.m_ordered b) /\
    NetworkBase.m_topology_ptr b' = NetworkBase.m_topology_ptr b.
Proof.
  intros Hwf Hid Hnet. pose proof (checkNetworkAllocation_spec r b Hwf Hid Hnet) as Hc. cbn zeta in Hc.
  unfold NetworkBase.register, NetworkBase.setToNetQueue, NetworkBase.setFromNetQueue.
  assert (admissible r b = true -> NetworkBase.reg_id r < NetworkBase.m_nodes b /\
    0 <= NetworkBase.reg_network r < NetworkBase.m_virtual_networks b) as Hadm.
  { unfold admissible. intros H. apply andb_true_iff in H as [[??]%andb_true_iff ?]. zbool. lia. }
  destruct (NetworkBase.to_network r); cbn;
    (destruct (NetworkBase.checkNetworkAllocation _ _ _ _ b) as [b1|e]; cbn; [|by rewrite Hc]);
    destruct Hc as (Had & [H1 H2 H3 H4 H5 H6] & ->); specialize (Hadm Had); cbn in *.
  - destruct (set_queue_spec _ _ (NetworkBase.reg_id r) (NetworkBase.reg_network r) (NetworkBase.reg_buffer r) _ H3)
      as (qs & -> & Hqs & Hat); [lia|lia|]. cbn. rewrite Had. split; [done|]. intros b' [= <-]. cbn.
    split_and!; [by split| |done|done]. intros id net Hi Hn. rewrite Hat, andb_true_r, andb_false_r by done. done.
  - destruct (set_queue_spec _ _ (NetworkBase.reg_id r) (NetworkBase.reg_network r) (NetworkBase.reg_buffer r) _ H4)
      as (qs & -> & Hqs & Hat); [lia|lia|]. cbn. rewrite Had. split; [done|]. intros b' [= <-]. cbn.
    split_and!; [by split| |done|done]. intros id net Hi Hn. rewrite Hat, andb_true_r, andb_false_r by done. done.
Qed.

(** ** [init] *)

Lemma register_topology r b b' :
  NetworkBase.register r b = Ok b' -> NetworkBase.m_topology_ptr b' = NetworkBase.m_topology_ptr b.
Proof.
  assert (forall id o net ty b1, NetworkBase.checkNetworkAllocation id o net ty b = Ok b1 ->
    NetworkBase.m_topology_ptr b1 = NetworkBase.m_topology_ptr b) as Hc.
  { intros id o net ty b1 H. unfold NetworkBase.checkNetworkAllocation in H. repeat inv_bind H. by simplify_res. }
  unfold NetworkBase.register, NetworkBase.setToNetQueue, NetworkBase.setFromNetQueue.
  destruct (NetworkBase.to_network r); intros H; inv_bind H; inv_bind H; simplify_res; cbn; by eapply Hc.
Qed.

Lemma addNode_views i ins outs n n' : Build.addNode i ins outs n = Ok n' -> views n' = views n.
Proof.
  unfold Build.addNode. intros H. inv_bind H. apply upd_ni_views in E as [E _]. rewrite <- E.
  eapply (foldM_preserve (fun m => views m = views a)) in H; [exact H|done|].
  intros [b|] m1 m2 _ Hm Hf; cbn in Hf; [inv_bind Hf|]; by simplify_res.
Qed.

Lemma init_views mt block b b' n n' :
  GarnetSetup.init mt block b n = Ok (b', n') ->
  exists n1 n2, views n1 = views n /\ createLinks mt (NetworkBase.m_topology_ptr b) n1 = Ok n2 /\
    Net.m_routers n' = Net.m_routers n2 /\ Net.net_links n' = Net.net_links n2.
Proof.
  unfold GarnetSetup.init. intros H. inv_bind H. rename a into n1. inv_bind H. rename a into n2. inv_bind H. simplify_res.
  exists n1, n2. split_and!; [|done|done|done].
  eapply (foldM_preserve (fun m => views m = views n)) in E; [exact E|done|].
  intros i m1 m2 _ Hm Hf. inv_bind Hf. inv_bind Hf. apply addNode_views in Hf. congruence.
Qed.

(** Hops depend on the routers and the links only. *)
Lemma hop_same tp n1 n2 dest i j :
  Net.m_routers n1 = Net.m_routers n2 -> Net.net_links n1 = Net.net_links n2 ->
  hop tp n1 dest i j <-> hop tp n2 dest i j.
Proof.
  intros Hr Hl. unfold hop, leads_to, ids, views. by rewrite Hr, Hl.
Qed.

Lemma nsteps_same {A} (R S : A -> A -> Prop) h i j :
  (forall x y, R x y <-> S x y) -> nsteps R h i j -> nsteps S h i j.
Proof. intros HRS. induction 1; econstructor; [by apply HRS|done]. Qed.

(** C10: table routing delivers. Over the network [init] sets up from
    well-formed links, take any packet for one node and any router from
    which the node can be reached, at distance [d]. However the ports are
    chosen among those the routing tables offer, the packet takes at most [d]
    hops, and until it is at the interface of the node every router it comes
    to offers a further port. *)
Theorem table_routing_delivers mt `{!MachineTypesOk mt} vnets ctrl num_routers exts ints regs b0 block b b' n n'
    r rt m k dest d h j :
  params_ok mt num_routers exts ints ->
  NetworkBase.new mt vnets ctrl num_routers exts ints = Ok b0 ->
  foldM NetworkBase.register regs b0 = Ok b ->
  fresh n -> GarnetSetup.init mt block b n = Ok (b', n') -> Net.m_routers n' !! r = Some rt ->
  0 <= m < MachineType_NUM mt -> 0 <= k < MachineType_base_count mt m -> dest_wf mt dest ->
  (forall m' k', 0 <= m' -> 0 <= k' -> member m' k' dest <-> m' = m /\ k' = k) ->
  let tp := NetworkBase.m_topology_ptr b in
  let s := 2 * zlen exts + Z.of_nat r in
  let t := zlen exts + (MachineType_base_number mt m + k) in
  distance tp s t d -> d < INFINITE_LATENCY ->
  nsteps (hop tp n' dest) h s j ->
  Z.of_nat h <= d /\ (j = t \/ exists j', hop tp n' dest j j').
Proof.
  intros Hpa Hbase Hregs Hfresh Hinit Hrt Hm Hk Hwf Honly tp s t Hdist Hd Hsteps.
  assert (Topology.new mt num_routers exts ints = Ok tp) as Hnew.
  { unfold NetworkBase.new in Hbase. inv_bind Hbase. inv_bind Hbase. inv_bind Hbase. simplify_res. f_equal.
    eapply (foldM_preserve (fun b => NetworkBase.m_topology_ptr b = a1)) in Hregs; [by symmetry|done|].
    intros reg b1 b2 _ Hb1 Hreg%register_topology. congruence. }
  pose proof (new_topology_ok mt num_routers exts ints Hpa tp Hnew) as Htp.
  destruct (new_built mt num_routers exts ints Hpa tp Hnew) as [Hbuilt _]. apply bu_nodes in Hbuilt.
  destruct (init_views _ _ _ _ _ _ Hinit) as (n1 & n2 & Hv & Hcreate & Hr & Hl). fold tp in Hcreate.
  pose proof (fun x y => hop_same tp n' n2 dest x y Hr Hl) as Hsame.
  unfold s, t in *. rewrite <- Hbuilt in *.
  destruct (hops_deliver mt tp n1 n2 Htp ltac:(unfold fresh; by rewrite Hv) Hcreate m k dest Hm Hk Hwf Honly h
    (2 * m_nodes tp + Z.of_nat r) j d) as [Hh Hj]; [|done|done|by eapply nsteps_same|].
  - right. split; [lia|]. exists rt. rewrite <- Hr. by replace (Z.to_nat _) with r by lia.
  - split; [done|]. destruct Hj as [Hj|[j' Hj]]; [by left|right]. exists j'. by apply Hsame.
Qed.

(** ** The 2x2 mesh, set up from its parameters *)
Module SetupExample.
Import Example DeliveryExample.

Definition regs : list NetworkBase.registration :=
  map (fun i => NetworkBase.mk_registration true i false 0 "request" (4 + i)) [0; 1; 2; 3] ++
  map (fun i => NetworkBase.mk_registration false i false 0 "request" i) [0; 1; 2; 3].

Definition no_base : NetworkBase.t := NetworkBase.mk 0 0 0 0 empty_topology [] [] [] [].
Definition base0 : NetworkBase.t := unwrap no_base (NetworkBase.new mt 1 8 4 exts ints).
Definition base : NetworkBase.t := unwrap no_base (foldM NetworkBase.register regs base0).
Definition constructed : Net.t :=
  unwrap (unlinked cfg) (GarnetSetup.construct base (Some (spin_file, false)) (unlinked cfg)).
Definition started : NetworkBase.t * Net.t := unwrap (base, constructed) (GarnetSetup.init mt 64 base constructed).
Definition ready : Net.t := started.2.

Lemma table_routing_delivers_witness :
  exists j, hop tp ready (dests 8) 8 j /\ (j = 7 \/ exists j', hop tp ready (dests 8) j j').
Proof.
  assert (NetworkBase.new mt 1 8 4 exts ints = Ok base0) as H0 by (apply unwrap_ok; vm_compute; reflexivity).
  assert (foldM NetworkBase.register regs base0 = Ok base) as H1 by (apply unwrap_ok; vm_compute; reflexivity).
  assert (views constructed = views (unlinked cfg)) as Hv by (vm_compute; reflexivity).
  assert (fresh constructed) as H2 by (unfold fresh; rewrite Hv; exact unlinked_fresh).
  assert (GarnetSetup.init mt 64 base constructed = Ok (started.1, ready)) as H3.
  { unfold ready. rewrite <- surjective_pairing. apply unwrap_ok. vm_compute. reflexivity. }
  assert (NetworkBase.m_topology_ptr base = tp) as H4 by (vm_compute; reflexivity).
  assert (exists rt, Net.m_routers ready !! 0%nat = Some rt) as [rt Hrt].
  { apply lookup_lt_is_Some_2. vm_compute. lia. }
  pose proof (fun h j => table_routing_delivers mt 1 8 4 exts ints regs base0 64 base started.1 constructed ready 0 rt 0 3
    (dests 8) 3 h j mesh_params_ok H0 H1 H2 H3 Hrt ltac:(cbn; lia) ltac:(cbn; lia) (dests_wf 8) only_node3) as Hdel.
  cbn zeta in Hdel. rewrite H4 in Hdel.
  pose proof (fun h j => Hdel h j mesh_distance ltac:(unfold INFINITE_LATENCY; lia)) as Hd.
  destruct (Hd 0%nat 8 (nsteps_O _ _)) as [_ [Hj|[j Hj]]]; [discriminate Hj|].
  exists j. split; [exact Hj|]. exact (proj2 (Hd 1%nat j (nsteps_once _ _ Hj))).
Defined.

Definition again : NetworkBase.registration := NetworkBase.mk_registration true 2 true 0 "response" 9.

Lemma register_correct_witness :
  queue_at (NetworkBase.m_toNetQueues base) 2 0 = Some 6 /\
  exists b', NetworkBase.register again base = Ok b' /\
    queue_at (NetworkBase.m_toNetQueues b') 2 0 = Some 9 /\ queue_at (NetworkBase.m_fromNetQueues b') 2 0 = Some 2.
Proof.
  split; [vm_compute; reflexivity|].
  assert (base_wf base) as Hwf.
  { split; try (vm_compute; reflexivity); (split; [vm_compute; reflexivity|]);
      vm_compute; repeat (constructor; [discriminate|]); constructor. }
  destruct (register_correct base again Hwf ltac:(cbn; lia) ltac:(cbn; lia)) as [Hok Hall].
  destruct (NetworkBase.register again base) as [b'|e]; [|vm_compute in Hok; discriminate Hok].
  exists b'. split; [reflexivity|].
  destruct (Hall b' eq_refl) as (_ & Hq & _). exact (Hq 2 0 ltac:(lia) ltac:(lia)).
Defined.

End SetupExample.
