(* ===== verification/Startup.v ===== *)
(** * A network comes up

    [m5.instantiate] calls [init] of the network and then of its routers and
    interfaces. From the objects as their constructors leave them and links
    that are well formed this always succeeds, and it leaves a network in
    which every port reads from exactly one link, every link is well wired and
    all credits are at the senders. So the flow control of Credits.v holds in
    every state the network reaches. *)

From S2P Require Import Prelude NetDest NetDestFacts Types FlitBuffer Channels RouterCore MsgBuffer NetState Routing RoutingFacts Network Spin Sim CreditBalance CreditSteps Credits Topology TopologyFacts TopologyRoutes TopologyDelivery Setup SetupFacts Example Account Wiring WiringSteps Hookup.

Import Side.

Import Topology.

(** ** The start *)

Definition bring_up (mt : MachineTypes) (block_size : Z) (b : NetworkBase.t) (n : Net.t)
    : Res (NetworkBase.t * Net.t) :=
  '(b, n) ← GarnetSetup.init mt block_size b n;
  nis ← mapM (NetworkInterface.init (Net.cfg n)) (Net.m_nis n);
  Ok (b, Net.set_routers (map Router.init (Net.m_routers n)) (Net.set_nis nis n)).

(** ** Well-formed parameters *)

Definition credit_in (l : ext_link) : Z :=
  match ext_basic l with GarnetExtLink _ _ _ c _ => c | _ => -1 end.
Definition credit_out (l : ext_link) : Z :=
  match ext_basic l with GarnetExtLink _ _ _ _ c => c | _ => -1 end.
Definition credit_int (l : int_link) : Z :=
  match int_basic l with GarnetIntLink _ _ c => c | _ => -1 end.

Definition flit_ids (exts : list ext_link) (ints : list int_link) : list Z :=
  map net_in exts ++ map net_out exts ++ map net_int ints.
Definition credit_ids (exts : list ext_link) (ints : list int_link) : list Z :=
  map credit_in exts ++ map credit_out exts ++ map credit_int ints.

(** No two external links are of the same controller, no two internal links
    join the same routers in the same direction, no two links share a credit
    link, and the network has the flit and credit links. *)
Record links_distinct (mt : MachineTypes) (exts : list ext_link) (ints : list int_link) (n : Net.t) : Prop := {
  di_nodes : NoDup (map (node_of mt) exts);
  di_pairs : NoDup (map (fun l => (src_node l, dst_node l)) ints);
  di_credits : NoDup (credit_ids exts ints);
  di_flit_range : Forall (fun x => 0 <= x < zlen (Net.net_links n)) (flit_ids exts ints);
  di_credit_range : Forall (fun x => 0 <= x < zlen (Net.credit_links n)) (credit_ids exts ints)
}.

Lemma sizes_of n :
  num_routers n = zlen (Net.m_routers n) /\ num_interfaces n = zlen (Net.m_nis n) /\
  num_flit_links n = zlen (Net.net_links n) /\ num_credit_links n = zlen (Net.credit_links n).
Proof. unfold num_routers, num_interfaces, num_flit_links, num_credit_links. cbn. by rewrite !zlen_map. Qed.

Section Parameters.
Context (mt : MachineTypes) `{Hmt : !MachineTypesOk mt} (routers : Z)
  (exts : list ext_link) (ints : list int_link) (tp : Topology.t) (n : Net.t).
Hypothesis Hpa : params_ok mt routers exts ints.
Hypothesis Hdi : links_distinct mt exts ints n.
Hypothesis Hnew : Topology.new mt routers exts ints = Ok tp.
Hypothesis Hrouters : zlen (Net.m_routers n) = routers.
Hypothesis Hnis : zlen exts <= zlen (Net.m_nis n).
Hypothesis Hcfg : zlen exts <= NetConfig.m_nodes (Net.cfg n).

#[local] Notation nodes := (zlen exts).
#[local] Notation came_from := (came_from mt exts ints).

Lemma new_nodes : m_nodes tp = nodes.
Proof. destruct (new_built mt routers exts ints Hpa tp Hnew) as [Hb _]. by apply (bu_nodes _ _ _ _ _ Hb). Qed.

Lemma new_came_from k e : m_link_map tp !! k = Some e -> came_from k e.
Proof. destruct (new_built mt routers exts ints Hpa tp Hnew) as [Hb _]. by apply (bu_from _ _ _ _ _ Hb). Qed.

Lemma flit_range x : x ∈ flit_ids exts ints -> 0 <= x < zlen (Net.net_links n).
Proof. revert x. apply Forall_forall. apply Hdi. Qed.

Lemma credit_range x : x ∈ credit_ids exts ints -> 0 <= x < zlen (Net.credit_links n).
Proof. revert x. apply Forall_forall. apply Hdi. Qed.

(** The numbers of the links of an entry. *)
Lemma ext_numbers l :
  l ∈ exts -> exists b ni no ci co, ext_basic l = GarnetExtLink b ni no ci co /\
    net_in l = ni /\ net_out l = no /\ credit_in l = ci /\ credit_out l = co /\
    0 <= ni < zlen (Net.net_links n) /\ 0 <= no < zlen (Net.net_links n) /\
    0 <= ci < zlen (Net.credit_links n) /\ 0 <= co < zlen (Net.credit_links n).
Proof.
  intros Hl. destruct (pa_ext _ _ _ _ Hpa l Hl) as (_ & _ & _ & _ & b & ni & no & ci & co & Hb).
  exists b, ni, no, ci, co.
  assert (net_in l ∈ flit_ids exts ints /\ net_out l ∈ flit_ids exts ints) as [H1%flit_range H2%flit_range].
  { unfold flit_ids. rewrite !elem_of_app. split; [left|right; left]; by apply list_elem_of_fmap_2. }
  assert (credit_in l ∈ credit_ids exts ints /\ credit_out l ∈ credit_ids exts ints) as [H3%credit_range H4%credit_range].
  { unfold credit_ids. rewrite !elem_of_app. split; [left|right; left]; by apply list_elem_of_fmap_2. }
  unfold net_in, net_out, credit_in, credit_out in *. by rewrite Hb in *.
Qed.

Lemma int_numbers l :
  l ∈ ints -> exists b x c, int_basic l = GarnetIntLink b x c /\ net_int l = x /\ credit_int l = c /\
    0 <= x < zlen (Net.net_links n) /\ 0 <= c < zlen (Net.credit_links n).
Proof.
  intros Hl. destruct (pa_int _ _ _ _ Hpa l Hl) as (_ & _ & _ & _ & b & x & c & Hb). exists b, x, c.
  assert (net_int l ∈ flit_ids exts ints) as H1%flit_range.
  { unfold flit_ids. rewrite !elem_of_app. right; right. by apply list_elem_of_fmap_2. }
  assert (credit_int l ∈ credit_ids exts ints) as H2%credit_range.
  { unfold credit_ids. rewrite !elem_of_app. right; right. by apply list_elem_of_fmap_2. }
  unfold net_int, credit_int in *. by rewrite Hb in *.
Qed.

Lemma came_from_credit k1 k2 e1 e2 :
  came_from k1 e1 -> came_from k2 e2 -> credit_link nodes k1.1 e1 = credit_link nodes k2.1 e2 -> k1 = k2.
Proof.
  pose proof (di_credits _ _ _ _ Hdi) as Hnd. unfold credit_ids in Hnd.
  apply (came_from_unique_by mt routers exts ints Hpa (fun k e => credit_link nodes k.1 e) _ _ _ _ _ _ _ Hnd); intros l Hl;
    unfold credit_link; cbn.
  - destruct (ext_numbers l Hl) as (b & ni & no & ci & co & -> & _ & _ & <- & _).
    by rewrite (proj2 (Z.ltb_lt _ _)) by (destruct (node_of_bound mt routers exts ints Hpa l Hl); lia).
  - destruct (ext_numbers l Hl) as (b & ni & no & ci & co & -> & _ & _ & _ & <- & _).
    by rewrite (proj2 (Z.ltb_ge _ _)) by (destruct (node_of_bound mt routers exts ints Hpa l Hl); lia).
  - by destruct (int_numbers l Hl) as (b & x & c & -> & _ & <- & _).
Qed.

(** An interface has one link in each direction. *)
Lemma came_from_node k e :
  came_from k e -> (k.1 < nodes -> exists l, l ∈ exts /\ k = in_key mt exts l) /\
  (k.2 < 2 * nodes -> exists l, l ∈ exts /\ k = out_key mt exts l).
Proof.
  intros [(l & Hl & [-> | ->] & ->)|(l & Hl & -> & ->)]; cbn.
  - destruct (node_of_bound mt routers exts ints Hpa l Hl). split; [by exists l|]. unfold zlen in *. lia.
  - destruct (node_of_bound mt routers exts ints Hpa l Hl). split; [lia|by exists l].
  - destruct (pa_int _ _ _ _ Hpa l Hl) as (? & ? & _). split; unfold zlen in *; lia.
Qed.

Lemma new_pluggable : pluggable tp n.
Proof.
  destruct (sizes_of n) as (Sr & Si & Sf & Sc).
  pose proof (new_topology_ok mt routers exts ints Hpa tp Hnew) as Htp.
  split; rewrite ?new_nodes; [..|unfold zlen; lia|done|lia].
  - intros k e Hk%new_came_from. unfold entry_ok. rewrite Sr, Sf, Sc, Hrouters.
    destruct Hk as [(l & Hl & Hk & ->)|(l & Hl & -> & ->)]; cbn.
    + destruct (ext_numbers l Hl) as (b & ni & no & ci & co & Hb & _ & _ & _ & _ & ?). unfold flit_link, credit_link. cbn.
      rewrite Hb. destruct (node_of_bound mt routers exts ints Hpa l Hl). destruct Hk as [-> | ->]; cbn.
      * rewrite (proj2 (Z.ltb_lt _ _)) by lia. lia.
      * rewrite (proj2 (Z.ltb_ge _ _)) by lia. lia.
    + destruct (int_numbers l Hl) as (b & x & c & Hb & _ & _ & ?). unfold flit_link, credit_link. cbn. rewrite Hb.
      destruct (pa_int _ _ _ _ Hpa l Hl) as (? & ? & _). lia.
  - intros k1 k2 e1 e2 H1%new_came_from H2%new_came_from Heq.
    apply (came_from_unique mt routers exts ints Hpa k1 k2 e1 e2 H1 H2). by rewrite Heq.
  - intros k1 k2 e1 e2 H1%new_came_from H2%new_came_from. by apply came_from_credit.
  - intros i j j' Hi [e He%new_came_from] [e' He'%new_came_from].
    destruct (proj1 (came_from_node _ _ He) Hi) as (l & Hl & [= -> ->]).
    destruct (proj1 (came_from_node _ _ He') Hi) as (l' & Hl' & [= Heq ->]). do 2 f_equal.
    by rewrite (NoDup_map_inj (node_of mt) exts l l' (di_nodes _ _ _ _ Hdi) Hl Hl' Heq).
  - intros i i' j Hj [e He%new_came_from] [e' He'%new_came_from].
    destruct (proj2 (came_from_node _ _ He) Hj) as (l & Hl & [= -> ->]).
    destruct (proj2 (came_from_node _ _ He') Hj) as (l' & Hl' & [= -> Heq]). do 2 f_equal.
    by rewrite (NoDup_map_inj (node_of mt) exts l l' (di_nodes _ _ _ _ Hdi) Hl Hl' ltac:(lia)).
Qed.

End Parameters.

(** ** The objects as their constructors leave them *)

(** Router [id] and interface [i] are number [id] and [i], have [V] virtual
    networks with the virtual channels of the configuration, which has a
    buffer for each, and a mesh has full rows. *)
Record as_constructed (V : Z) (n : Net.t) : Prop := {
  ac_routers : vec_all (fun id r => exists latency marked,
    r = Router.new id latency V (NetConfig.m_vcs_per_vnet (Net.cfg n)) marked) (Net.m_routers n);
  ac_nis : vec_all (fun i ni => exists threshold,
    ni = NetworkInterface.new i V (NetConfig.m_vcs_per_vnet (Net.cfg n)) threshold) (Net.m_nis n);
  ac_links : Forall (fun l => exists id latency,
    l = NetworkLink.new id latency (NetConfig.m_vcs_per_vnet (Net.cfg n)) V) (Net.net_links n ++ Net.credit_links n);
  ac_vcs : 0 < NetConfig.m_vcs_per_vnet (Net.cfg n) /\ V * NetConfig.m_vcs_per_vnet (Net.cfg n) < 2 ^ 32;
  ac_buffers : 1 <= NetConfig.m_buffers_per_data_vc (Net.cfg n) /\ 1 <= NetConfig.m_buffers_per_ctrl_vc (Net.cfg n);
  ac_rows : 0 < NetConfig.m_num_rows (Net.cfg n) ->
    NetConfig.m_num_rows (Net.cfg n) * (zlen (Net.m_routers n) / NetConfig.m_num_rows (Net.cfg n)) = zlen (Net.m_routers n)
}.

(** The buffers of the protocol that have become outgoing queues are there,
    and no queue is registered twice. *)
Definition queue_refs (qs : list (list (option Z))) : list Z := omap id (concat qs).

Definition unclaimed (bufs : list MessageBuffer.t) (q : Z) : Prop :=
  exists m, vec_at bufs q = Ok m /\ MessageBuffer.m_consumer m = None.

Definition attachable (b : NetworkBase.t) (n : Net.t) : Prop :=
  NoDup (queue_refs (NetworkBase.m_toNetQueues b)) /\
  Forall (unclaimed (Net.msgbufs n)) (queue_refs (NetworkBase.m_toNetQueues b)).

(** What registering queues keeps. *)
Record base_sizes (b : NetworkBase.t) : Prop := {
  bs_to : zlen (NetworkBase.m_toNetQueues b) = NetworkBase.m_nodes b;
  bs_from : zlen (NetworkBase.m_fromNetQueues b) = NetworkBase.m_nodes b;
  bs_names : zlen (NetworkBase.m_vnet_type_names b) = NetworkBase.m_virtual_networks b
}.

Definition base_kept (b b' : NetworkBase.t) : Prop :=
  NetworkBase.m_nodes b' = NetworkBase.m_nodes b /\
  NetworkBase.m_virtual_networks b' = NetworkBase.m_virtual_networks b /\
  NetworkBase.m_topology_ptr b' = NetworkBase.m_topology_ptr b /\ (base_sizes b -> base_sizes b').

Lemma zlen_insert {A} (l : list A) i x : zlen (<[i := x]> l) = zlen l.
Proof. unfold zlen. by rewrite length_insert. Qed.

Lemma set_queue_size id net buf qs qs' : NetworkBase.set_queue id net buf qs = Ok qs' -> zlen qs' = zlen qs.
Proof. unfold NetworkBase.set_queue. intros (x & y & _ & _ & ->)%vec_upd_inv. apply zlen_insert. Qed.

Lemma checkNetworkAllocation_kept id o net ty b b' :
  NetworkBase.checkNetworkAllocation id o net ty b = Ok b' ->
  base_kept b b' /\ NetworkBase.m_toNetQueues b' = NetworkBase.m_toNetQueues b /\
  NetworkBase.m_fromNetQueues b' = NetworkBase.m_fromNetQueues b.
Proof.
  unfold NetworkBase.checkNetworkAllocation. intros H. inv_bind H. inv_bind H. inv_bind H. inv_bind H. simplify_res.
  split; [|done]. split_and!; [done|done|done|]. intros []. split; cbn; [done|done|].
  apply vec_set_inv in E2 as [_ ->]. by rewrite zlen_insert.
Qed.

Lemma register_kept r b b' : NetworkBase.register r b = Ok b' -> base_kept b b'.
Proof.
  unfold NetworkBase.register, NetworkBase.setToNetQueue, NetworkBase.setFromNetQueue.
  destruct (NetworkBase.to_network r); intros H; inv_bind H; inv_bind H; simplify_res;
    apply checkNetworkAllocation_kept in E as ((K1 & K2 & K3 & K4) & Q1 & Q2); apply set_queue_size in E0;
    (split_and!; [done|done|done|]); intros [S1 S2 S3]%K4; split; cbn; congruence.
Qed.

Lemma registers_kept regs b b' : foldM NetworkBase.register regs b = Ok b' -> base_kept b b'.
Proof.
  apply (foldM_preserve (base_kept b)); [by split_and!|]. intros r b1 b2 _ (A1 & A2 & A3 & A4) (B1 & B2 & B3 & B4)%register_kept.
  split_and!; [congruence|congruence|congruence|auto].
Qed.

Lemma new_base mt vnets ctrl routers exts ints b :
  MachineTypesOk mt -> NetworkBase.new mt vnets ctrl routers exts ints = Ok b -> 0 <= vnets ->
  Topology.new mt routers exts ints = Ok (NetworkBase.m_topology_ptr b) /\ base_sizes b /\
  NetworkBase.m_virtual_networks b = vnets /\ NetworkBase.m_nodes b = MachineType_base_number mt (MachineType_NUM mt).
Proof.
  intros Hmt H Hv. unfold NetworkBase.new in H. inv_bind H. inv_bind H. inv_bind H. simplify_res. cbn.
  pose proof (base_number_mono mt 0 (MachineType_NUM mt)) as Hb. rewrite (mt_base0 mt) in Hb. pose proof (mt_num mt).
  split_and!; [done| |done|done]. split; unfold zlen; cbn; rewrite length_replicate; lia.
Qed.

(** ** The network before [init] *)

Lemma config_supports c V :
  0 < NetConfig.m_vcs_per_vnet c -> V * NetConfig.m_vcs_per_vnet c < 2 ^ 32 -> zlen (NetConfig.m_vnet_type c) = V ->
  1 <= NetConfig.m_buffers_per_data_vc c -> 1 <= NetConfig.m_buffers_per_ctrl_vc c ->
  Idle.supports c (V * NetConfig.m_vcs_per_vnet c).
Proof.
  intros Hvcs Hsize HV Hd Hc i Hi. unfold OutVcState.new, NetConfig.get_vnet_type, u32, assert_.
  rewrite (Z.mod_small i) by lia.
  destruct (vec_at_total (NetConfig.m_vnet_type c) (i / NetConfig.m_vcs_per_vnet c)) as [ty ->].
  { rewrite HV. split; [apply Z.div_pos; lia|apply Z.div_lt_upper_bound; lia]. }
  cbn [mbind Res_bind]. rewrite Z.geb_leb. rewrite (proj2 (Z.leb_le _ _)) by (destruct (bool_decide _); done). by eexists.
Qed.

Lemma unplugged ending s :
  vec_all (fun _ ls => ls = []) (Side.ports s) -> vec_all (fun _ l => l = -1) (Side.nis s) ->
  Forall (fun q => q = None) (Side.sources s) -> Side.agrees ending [] s.
Proof.
  intros Hp Hn Hs. split; try (by intros h Hh; apply elem_of_nil in Hh); try (cbn; apply NoDup_nil_2).
  - intros id ls p l Hls Hl. pose proof (vec_all_at _ _ _ _ Hp Hls) as ->. apply vec_at_Ok in Hl as [_ Hl]. by rewrite lookup_nil in Hl.
  - intros i l Hl. left. pose proof (vec_all_at _ _ _ _ Hn Hl) as Hm. exact Hm.
  - intros k q Hq. pose proof (Forall_vec_at _ _ _ _ Hs Hq) as Hm. done.
  - intros h id p Hh. by apply elem_of_nil in Hh.
Qed.

Section Constructed.
Context (V : Z) (n : Net.t) (c : NetConfig.t).
Hypothesis Hac : as_constructed V n.
Hypothesis HV : zlen (NetConfig.m_vnet_type c) = V.
Hypothesis Hvcs : NetConfig.m_vcs_per_vnet c = NetConfig.m_vcs_per_vnet (Net.cfg n).
Hypothesis Hdata : NetConfig.m_buffers_per_data_vc c = NetConfig.m_buffers_per_data_vc (Net.cfg n).
Hypothesis Hctrl : NetConfig.m_buffers_per_ctrl_vc c = NetConfig.m_buffers_per_ctrl_vc (Net.cfg n).

Lemma constructed_supports k : k = V * NetConfig.m_vcs_per_vnet (Net.cfg n) -> Idle.supports c k.
Proof.
  intros ->. destruct Hac as [_ _ _ [H1 H2] [H3 H4] _]. rewrite <- Hvcs. apply config_supports; lia.
Qed.

Lemma constructed_link l :
  l ∈ Net.net_links n ++ Net.credit_links n -> Idle.link l /\ NetworkLink.link_srcQueue l = None.
Proof.
  pose proof (ac_links _ _ Hac) as H. rewrite Forall_forall in H. by intros (id & latency & ->)%H.
Qed.

(** With the configuration [c]. *)
Lemma constructed_idle : Idle.net (GarnetSetup.set_cfg c n).
Proof.
  split; cbn.
  - apply Forall_forall. intros r [i Hr]%list_elem_of_lookup.
    destruct (vec_all_at _ _ (Z.of_nat i) r (ac_routers _ _ Hac)) as (latency & marked & ->).
    { apply vec_at_Ok. rewrite Nat2Z.id. split; [lia|done]. }
    split; [constructor..|]. by apply constructed_supports.
  - apply Forall_forall. intros ni [i Hni]%list_elem_of_lookup.
    destruct (vec_all_at _ _ (Z.of_nat i) ni (ac_nis _ _ Hac)) as (threshold & ->).
    { apply vec_at_Ok. rewrite Nat2Z.id. split; [lia|done]. }
    split; [done|done|done| |constructor|apply constructed_supports; cbn; lia]. cbn. by apply Forall_replicate.
  - apply Forall_forall. intros l Hl. apply constructed_link. set_solver.
  - apply Forall_forall. intros l Hl. apply constructed_link. set_solver.
Qed.

Lemma constructed_ids : forall id r, vec_at (Net.m_routers n) id = Ok r -> Router.m_id r = id.
Proof. intros id r Hr. by destruct (vec_all_at _ _ _ _ (ac_routers _ _ Hac) Hr) as (? & ? & ->). Qed.

Lemma constructed_wired : wired [] (GarnetSetup.set_cfg c n).
Proof.
  split; apply unplugged; cbn.
  - apply vec_all_intro. intros id ls (r & Hr & ->)%vec_at_map_inv.
    by destruct (vec_all_at _ _ _ _ (ac_routers _ _ Hac) Hr) as (? & ? & ->).
  - apply vec_all_intro. intros i l (ni & Hni & ->)%vec_at_map_inv.
    by destruct (vec_all_at _ _ _ _ (ac_nis _ _ Hac) Hni) as (? & ->).
  - apply Forall_map, Forall_forall. intros l Hl. apply constructed_link. set_solver.
  - apply vec_all_intro. intros id ls (r & Hr & ->)%vec_at_map_inv.
    by destruct (vec_all_at _ _ _ _ (ac_routers _ _ Hac) Hr) as (? & ? & ->).
  - apply vec_all_intro. intros i l (ni & Hni & ->)%vec_at_map_inv.
    by destruct (vec_all_at _ _ _ _ (ac_nis _ _ Hac) Hni) as (? & ->).
  - apply Forall_map, Forall_forall. intros l Hl. apply constructed_link. set_solver.
Qed.

End Constructed.

(** ** [addNode] *)

(** Attaching buffers changes the buffers only. *)
Lemma attach_all c ins n :
  NoDup (omap id ins) -> Forall (unclaimed (Net.msgbufs n)) (omap id ins) ->
  exists l, foldM (fun it n => match it with
                  | None => Ok n
                  | Some b => l ← vec_upd (Net.msgbufs n) b (MessageBuffer.setConsumer c); Ok (Net.set_msgbufs l n)
                  end) ins n = Ok (Net.set_msgbufs l n) /\
    forall q, q ∉ omap id ins -> unclaimed (Net.msgbufs n) q -> unclaimed l q.
Proof.
  revert n. induction ins as [|[b|] ins IH]; intros n Hnd HF; cbn in *.
  - exists (Net.msgbufs n). split; [by destruct n|done].
  - apply NoDup_cons in Hnd as [Hb Hnd]. apply Forall_cons in HF as [(m & Hm & Hc) HF].
    rewrite (vec_upd_Ok _ _ _ m (MessageBuffer.set_consumer_ (Some c) m) Hm) by (unfold MessageBuffer.setConsumer; by rewrite Hc).
    cbn [mbind Res_bind]. set (bs := <[Z.to_nat b := _]> _).
    assert (forall q, q <> b -> unclaimed (Net.msgbufs n) q -> unclaimed bs q) as Hkeep.
    { intros q Hq (m' & Hm' & Hc'). exists m'. split; [|done]. unfold bs. rewrite vec_at_insert by (by eapply vec_at_inside).
      by rewrite (proj2 (Z.eqb_neq q b)). }
    destruct (IH (Net.set_msgbufs bs n) Hnd) as (l & Hl & Hq).
    { rewrite Forall_forall in HF |- *. intros q Hin. apply Hkeep; [set_solver|by apply HF]. }
    exists l. split; [exact Hl|]. intros q Hnin Hun. apply Hq; [set_solver|]. apply Hkeep; [set_solver|done].
  - by apply IH.
Qed.

Lemma addNode_ok i ins outs n :
  0 <= i < num_interfaces n -> NoDup (omap id ins) -> Forall (unclaimed (Net.msgbufs n)) (omap id ins) ->
  exists n', Build.addNode i ins outs n = Ok n' /\ receivers n' = receivers n /\ senders n' = senders n /\ kept n n' /\
    forall q, q ∉ omap id ins -> unclaimed (Net.msgbufs n) q -> unclaimed (Net.msgbufs n') q.
Proof.
  intros Hi Hnd HF. destruct (sizes_of n) as (_ & Hsz & _). rewrite Hsz in Hi. destruct (vec_at_total _ _ Hi) as [ni Hni].
  unfold Build.addNode, Links.upd_ni.
  rewrite (vec_upd_Ok _ _ (fun ni => Ok (NetworkInterface.set_nodes ins outs ni)) ni _ Hni eq_refl). cbn [mbind Res_bind].
  destruct (attach_all (CNetworkInterface i) ins (Net.set_nis (<[Z.to_nat i := NetworkInterface.set_nodes ins outs ni]> (Net.m_nis n)) n))
    as (l & -> & Hq); [done|done|]. eexists. split; [done|]. split_and!; [| | |exact Hq].
  - unfold receivers. cbn. by rewrite (map_set_same _ _ _ _ _ Hni).
  - unfold senders. cbn. by rewrite (map_set_same _ _ _ _ _ Hni).
  - split; [done|done|done|]. intros [H1 H2 H3 H4]. split; cbn; [done| |done|done]. apply Forall_insert; [done|].
    destruct (Forall_vec_at _ _ _ _ H2 Hni). by split.
Qed.

Lemma queue_refs_cons q qs : queue_refs (q :: qs) = omap id q ++ queue_refs qs.
Proof. unfold queue_refs. cbn. apply omap_app. Qed.

Lemma addNodes_ok b n :
  base_sizes b -> attachable b n -> NetworkBase.m_nodes b <= num_interfaces n ->
  exists n', foldM (fun i n => ins ← vec_at (NetworkBase.m_toNetQueues b) i;
                               outs ← vec_at (NetworkBase.m_fromNetQueues b) i;
                               Build.addNode i ins outs n) (range 0 (NetworkBase.m_nodes b)) n = Ok n' /\
    receivers n' = receivers n /\ senders n' = senders n /\ kept n n'.
Proof.
  intros [Hto Hfrom _] [Hnd Hun] Hnis.
  destruct (foldM_range_total (fun i m => receivers m = receivers n /\ senders m = senders n /\ kept n m /\
      NoDup (queue_refs (drop (Z.to_nat i) (NetworkBase.m_toNetQueues b))) /\
      Forall (unclaimed (Net.msgbufs m)) (queue_refs (drop (Z.to_nat i) (NetworkBase.m_toNetQueues b))))
    (fun i n => ins ← vec_at (NetworkBase.m_toNetQueues b) i; outs ← vec_at (NetworkBase.m_fromNetQueues b) i;
                Build.addNode i ins outs n) 0 (NetworkBase.m_nodes b) n) as (n' & Hn' & HR & HS & HK & _).
  - unfold zlen in Hto. lia.
  - split_and!; done.
  - intros i m Hi (HR & HS & HK & Hd & HF).
    destruct (vec_at_total (NetworkBase.m_toNetQueues b) i) as [ins Hins]; [lia|].
    destruct (vec_at_total (NetworkBase.m_fromNetQueues b) i) as [outs Houts]; [lia|].
    rewrite Hins, Houts. cbn [mbind Res_bind]. apply vec_at_Ok in Hins as [_ Hins].
    rewrite (drop_S _ _ _ Hins), queue_refs_cons in Hd, HF. apply NoDup_app in Hd as (Hd1 & Hd2 & Hd3).
    apply Forall_app in HF as [HF1 HF2].
    destruct (addNode_ok i ins outs m) as (m' & Hm' & HR' & HS' & HK' & Hq); [|done|done|].
    { unfold num_interfaces in *. rewrite HR. lia. }
    exists m'. split; [done|]. replace (Z.to_nat (i + 1)) with (S (Z.to_nat i)) by lia.
    split_and!; [congruence|congruence|by etrans|done|]. rewrite Forall_forall in HF2 |- *. intros q Hin.
    apply Hq; [|by apply HF2]. intros Hin'. by apply (Hd2 q).
  - by exists n'.
Qed.

(** ** [init] of the network *)

Section Init.
Context (mt : MachineTypes) `{Hmt : !MachineTypesOk mt} (routers block : Z) (exts : list ext_link) (ints : list int_link)
  (b : NetworkBase.t) (n : Net.t).
Let tp := NetworkBase.m_topology_ptr b.
Hypothesis Hpa : params_ok mt routers exts ints.
Hypothesis Hdi : links_distinct mt exts ints n.
Hypothesis Hnew : Topology.new mt routers exts ints = Ok tp.
Hypothesis Hsizes : base_sizes b.
Hypothesis Hbnodes : NetworkBase.m_nodes b = zlen exts.
Hypothesis Hatt : attachable b n.
Hypothesis Hrouters : zlen (Net.m_routers n) = routers.
Hypothesis Hnis : zlen exts <= zlen (Net.m_nis n).
Hypothesis Hcfg : NetConfig.m_nodes (Net.cfg n) = zlen exts.
Hypothesis Hrows : 0 < NetConfig.m_num_rows (Net.cfg n) ->
  NetConfig.m_num_rows (Net.cfg n) * (zlen (Net.m_routers n) / NetConfig.m_num_rows (Net.cfg n)) = zlen (Net.m_routers n).
Hypothesis Hidle : Idle.net n.
Hypothesis Hwired : wired [] n.

(** The number of columns [init] computes. *)
Definition columns : Z :=
  if NetConfig.m_num_rows (Net.cfg n) >? 0 then zlen (Net.m_routers n) / NetConfig.m_num_rows (Net.cfg n) else -1.

Lemma zlen_routers m : kept n m -> zlen (Net.m_routers m) = zlen (Net.m_routers n).
Proof. intros K. rewrite <- (zlen_map Router.m_id), (kp_ids _ _ K). apply zlen_map. Qed.

Lemma supports_dimensions d c k : Idle.supports c k -> Idle.supports (GarnetSetup.set_dimensions d c) k.
Proof. destruct c. exact id. Qed.

Lemma idle_dimensions d m : Idle.net m -> Idle.net (GarnetSetup.set_cfg (GarnetSetup.set_dimensions d (Net.cfg m)) m).
Proof.
  intros [H1 H2 H3 H4]. split; cbn; [| |done|done].
  - eapply Forall_impl; [exact H1|]. intros r []. split; [done..|by apply supports_dimensions].
  - eapply Forall_impl; [exact H2|]. intros ni []. split; [done..|by apply supports_dimensions].
Qed.

Lemma init_ok :
  exists n' cs, GarnetSetup.init mt block b n = Ok (NetworkBase.init block b, n') /\ Idle.net n' /\ wired cs n' /\
    (forall c, c ∈ cs -> exists k e, m_link_map tp !! k = Some e /\ cable_of (m_nodes tp) k e c) /\
    (forall k e, m_link_map tp !! k = Some e -> finite e -> exists c, c ∈ cs /\ cable_of (m_nodes tp) k e c) /\
    map Router.m_id (Net.m_routers n') = map Router.m_id (Net.m_routers n) /\ Net.spinRing n' = Net.spinRing n /\
    NetConfig.m_num_cols (Net.cfg n') = columns /\ shape n' = shape n.
Proof.
  destruct (sizes_of n) as (Sr & Si & Sf & Sc).
  destruct (addNodes_ok (NetworkBase.init block b) n) as (n1 & H1 & R1 & S1 & K1).
  { destruct Hsizes. by split. } { exact Hatt. } { cbn. rewrite Hbnodes, Si. lia. }
  assert (shape n1 = shape n) as Sh1.
  { unfold shape, num_routers, num_interfaces, num_flit_links, num_credit_links. by rewrite R1, S1. }
  destruct (shape_inv _ _ Sh1) as (E1 & E2 & E3 & E4). destruct (sizes_of n1) as (Sr1 & Si1 & Sf1 & Sc1).
  pose proof (new_topology_ok mt routers exts ints Hpa tp Hnew) as Htp.
  assert (links_distinct mt exts ints n1) as Hdi1.
  { destruct Hdi as [D1 D2 D3 D4 D5]. split; [done..| |].
    - by replace (zlen (Net.net_links n1)) with (zlen (Net.net_links n)) by lia.
    - by replace (zlen (Net.credit_links n1)) with (zlen (Net.credit_links n)) by lia. }
  destruct (createLinks_plugs mt tp n1) as (n2 & cs & H2 & [W2 K2 Sh2 From All]).
  { apply Htp. } { apply Htp. } { apply Htp. }
  { apply (new_pluggable mt routers exts ints tp n1 Hpa Hdi1 Hnew); [lia|lia|]. rewrite (kp_cfg _ _ K1). lia. }
  { by apply K1. } { destruct Hwired. split; by rewrite ?R1, ?S1. }
  assert (kept n n2) as K by (by etrans).
  unfold GarnetSetup.init. rewrite H1. cbn [mbind Res_bind]. fold tp in H2.
  change (NetworkBase.m_topology_ptr (NetworkBase.init block b)) with tp. rewrite H2. cbn [mbind Res_bind].
  unfold Build.mesh_dimensions, assert_. rewrite (kp_cfg _ _ K), (zlen_routers _ K).
  set (d := if NetConfig.m_num_rows (Net.cfg n) >? 0 then _ else _).
  assert (exists x, d = Ok x /\ x.2 = columns) as (x & -> & Hx).
  { unfold d, columns. rewrite Z.gtb_ltb. destruct (Z.ltb_spec 0 (NetConfig.m_num_rows (Net.cfg n))) as [Hr|]; [|by eexists].
    rewrite (proj2 (Z.eqb_eq _ _)) by auto. by eexists. }
  cbn [mbind Res_bind]. eexists _, cs. split; [done|]. rewrite <- (kp_cfg _ _ K).
  split_and!; [by apply idle_dimensions, K| | | |by apply K|by apply K| |by rewrite <- Sh1].
  - destruct W2. by split.
  - intros c (k & e & _ & ?)%From. by exists k, e.
  - intros k e Hk. apply All; [|done]. destruct (to_links _ _ Htp k.1 k.2 e) as (? & _); [by rewrite <- surjective_pairing|].
    unfold before. destruct (max_switch_id_bound tp k.1 k.2 e) as [? _]; [by rewrite <- surjective_pairing|]. lia.
  - rewrite <- Hx. cbn. by destruct (Net.cfg n2).
Qed.

End Init.

(** ** [init] of the interfaces and routers *)

Lemma init_interface_ok c ni :
  Idle.interface c ni ->
  exists ni', NetworkInterface.init c ni = Ok ni' /\ Idle.interface c ni' /\
    NetworkInterface.inNetLink ni' = NetworkInterface.inNetLink ni /\
    NetworkInterface.inCreditLink ni' = NetworkInterface.inCreditLink ni.
Proof.
  intros [H1 H2 H3 H4 H5 H6]. destruct (Idle.new_states _ _ H6) as (l & Hl & Hf). unfold NetworkInterface.init.
  rewrite Hl. eexists. split; [done|]. split; [|done]. split; cbn; try done. by apply Forall_app.
Qed.

Lemma init_interfaces_ok c nis :
  Forall (Idle.interface c) nis ->
  exists nis', mapM (NetworkInterface.init c) nis = Ok nis' /\ Forall (Idle.interface c) nis' /\
    map NetworkInterface.inNetLink nis' = map NetworkInterface.inNetLink nis /\
    map NetworkInterface.inCreditLink nis' = map NetworkInterface.inCreditLink nis.
Proof.
  induction 1 as [|ni nis Hni _ (nis' & IH1 & IH2 & IH3 & IH4)]; [by exists []|].
  destruct (init_interface_ok _ _ Hni) as (ni' & H1 & H2 & H3 & H4). exists (ni' :: nis'). cbn.
  rewrite H1. cbn. rewrite IH1. cbn. rewrite IH3, IH4, H3, H4. split_and!; [done|by constructor|done|done].
Qed.

Lemma Router_init_idle c r : Idle.router c r -> Idle.router c (Router.init r).
Proof. intros []. split; try done. cbn. by apply Forall_replicate. Qed.

(** The last step: the sides stay, and so does idleness. *)
Lemma init_objects_ok n :
  Idle.net n ->
  exists nis, mapM (NetworkInterface.init (Net.cfg n)) (Net.m_nis n) = Ok nis /\
    let n' := Net.set_routers (map Router.init (Net.m_routers n)) (Net.set_nis nis n) in
    Idle.net n' /\ senders n' = senders n /\ receivers n' = receivers n.
Proof.
  intros [H1 H2 H3 H4]. destruct (init_interfaces_ok _ _ H2) as (nis & Hn & Hi & Hl & Hc). exists nis.
  split; [done|]. split_and!.
  - split; cbn; [|done..]. apply Forall_map. eapply Forall_impl; [exact H1|]. apply Router_init_idle.
  - unfold senders. cbn. by rewrite !map_map, Hc.
  - unfold receivers. cbn. by rewrite !map_map, Hl.
Qed.

(** ** A configuration *)

(** What the configuration scripts provide: well-formed links, the objects
    they connect as constructed, and protocol buffers for the queues. *)
Record well_configured (mt : MachineTypes) (routers : Z) (exts : list ext_link) (ints : list int_link)
    (b : NetworkBase.t) (n : Net.t) : Prop := {
  wc_params : params_ok mt routers exts ints;
  wc_distinct : links_distinct mt exts ints n;
  wc_objects : as_constructed (NetworkBase.m_virtual_networks b) n;
  wc_routers : zlen (Net.m_routers n) = routers;
  wc_nis : zlen (Net.m_nis n) = zlen exts;
  wc_attachable : attachable b n;
  wc_vnets : 0 <= NetworkBase.m_virtual_networks b
}.

(** The base class after its constructor and the calls of the controllers. *)
Definition registered (mt : MachineTypes) (ctrl routers : Z) (exts : list ext_link) (ints : list int_link)
    (regs : list NetworkBase.registration) (b : NetworkBase.t) : Prop :=
  exists b0, NetworkBase.new mt (NetworkBase.m_virtual_networks b) ctrl routers exts ints = Ok b0 /\
    foldM NetworkBase.register regs b0 = Ok b.

Section Configured.
Context (mt : MachineTypes) `{Hmt : !MachineTypesOk mt} (ctrl routers block : Z) (exts : list ext_link) (ints : list int_link)
  (regs : list NetworkBase.registration) (b : NetworkBase.t) (spin_file : option (list string * bool)) (n0 n : Net.t).
Let tp := NetworkBase.m_topology_ptr b.
Hypothesis Hwc : well_configured mt routers exts ints b n0.
Hypothesis Hreg : registered mt ctrl routers exts ints regs b.
Hypothesis Hcon : GarnetSetup.construct b spin_file n0 = Ok n.

Lemma registered_base :
  Topology.new mt routers exts ints = Ok tp /\ base_sizes b /\
  NetworkBase.m_nodes b = MachineType_base_number mt (MachineType_NUM mt).
Proof.
  destruct Hreg as (b0 & Hb0 & Hregs). apply registers_kept in Hregs as (K1 & K2 & K3 & K4).
  destruct (new_base _ _ _ _ _ _ _ Hmt Hb0) as (H1 & H2 & H3 & H4); [apply Hwc|].
  unfold tp. rewrite K3, K1. auto.
Qed.

(** The constructor changes the configuration, the ring and the lock. *)
Lemma constructed_as :
  exists ring, n = GarnetSetup.set_cfg (GarnetSetup.configure b (Net.cfg n0)) (Net.set_lock (-1) (Net.set_spinRing ring n0)).
Proof. unfold GarnetSetup.construct in Hcon. inv_bind Hcon. simplify_res. by eexists. Qed.

Lemma configured_net :
  Idle.net n /\ wired [] n /\ NetConfig.m_nodes (Net.cfg n) = NetworkBase.m_nodes b /\
  Net.m_routers n = Net.m_routers n0 /\ Net.m_nis n = Net.m_nis n0 /\ Net.net_links n = Net.net_links n0 /\
  Net.credit_links n = Net.credit_links n0 /\ Net.msgbufs n = Net.msgbufs n0 /\
  NetConfig.m_num_rows (Net.cfg n) = NetConfig.m_num_rows (Net.cfg n0).
Proof.
  destruct registered_base as (_ & [_ _ Hnames] & _). destruct constructed_as as [ring ->].
  pose proof (wc_objects _ _ _ _ _ _ Hwc) as Hac. set (c := GarnetSetup.configure b (Net.cfg n0)).
  assert (zlen (NetConfig.m_vnet_type c) = NetworkBase.m_virtual_networks b) as HV.
  { unfold c. destruct (Net.cfg n0). cbn. unfold Build.vnet_types. by rewrite zlen_map. }
  assert (NetConfig.m_vcs_per_vnet c = NetConfig.m_vcs_per_vnet (Net.cfg n0) /\
    NetConfig.m_buffers_per_data_vc c = NetConfig.m_buffers_per_data_vc (Net.cfg n0) /\
    NetConfig.m_buffers_per_ctrl_vc c = NetConfig.m_buffers_per_ctrl_vc (Net.cfg n0) /\
    NetConfig.m_nodes c = NetworkBase.m_nodes b /\ NetConfig.m_num_rows c = NetConfig.m_num_rows (Net.cfg n0)) as (C1 & C2 & C3 & C4 & C5).
  { unfold c. by destruct (Net.cfg n0). }
  split_and!; [| |exact C4|done|done|done|done|done|exact C5].
  - destruct (constructed_idle _ _ c Hac HV C1 C2 C3). by split.
  - destruct (constructed_wired _ _ c Hac HV C1 C2 C3). by split.
Qed.

(** Everything the theorems need of the network that has come up. *)
Lemma bring_up_ok :
  exists n' cs, bring_up mt block b n = Ok (NetworkBase.init block b, n') /\ Idle.net n' /\ wired cs n' /\
    (forall c, c ∈ cs -> exists k e, came_from mt exts ints k e /\ cable_of (zlen exts) k e c) /\
    (forall k e, m_link_map tp !! k = Some e -> finite e -> exists c, c ∈ cs /\ cable_of (zlen exts) k e c) /\
    (forall id r, vec_at (Net.m_routers n') id = Ok r -> Router.m_id r = id) /\
    Net.spinRing n' = Net.spinRing n /\ NetConfig.m_num_cols (Net.cfg n') = columns n /\
    zlen (Net.m_routers n') = routers.
Proof.
  destruct registered_base as (Hnew & Hsz & Hbn). pose proof Hwc as [Hpa Hdi Hac Hr Hnis Hatt _].
  destruct configured_net as (Hidle & Hw & C1 & C2 & C3 & C4 & C5 & C6 & C7).
  assert (NetworkBase.m_nodes b = zlen exts) as Hbn' by (rewrite Hbn; symmetry; apply Hpa).
  destruct (init_ok mt routers block exts ints b n Hpa) as (n1 & cs & H1 & I1 & W1 & From & All & Hids & Hring & Hcols & Hshape);
    rewrite ?C2, ?C3, ?C7; try done.
  { destruct Hdi as [D1 D2 D3 D4 D5]. split; by rewrite ?C4, ?C5. }
  { unfold attachable. by rewrite C6. } { lia. } { congruence. } { apply Hac. }
  destruct (init_objects_ok n1 I1) as (nis & Hm & I2 & S2 & R2).
  pose proof (new_nodes mt routers exts ints tp Hpa Hnew) as Hn.
  eexists _, cs. unfold bring_up. rewrite H1. cbn [mbind Res_bind]. rewrite Hm. cbn [mbind Res_bind]. split; [done|].
  split_and!; [exact I2| | | | |exact Hring|exact Hcols|].
  - destruct W1. split; by rewrite ?S2, ?R2.
  - intros c (k & e & He & Hc)%From. exists k, e. rewrite <- Hn. split; [|done]. by apply (new_came_from mt routers exts ints tp Hpa Hnew).
  - rewrite <- Hn. exact All.
  - intros id r (r1 & Hr1 & ->)%vec_at_map_inv. cbn. apply (vec_at_map Router.m_id) in Hr1. rewrite Hids, C2 in Hr1.
    apply vec_at_map_inv in Hr1 as (r0 & Hr0 & ->). by apply (constructed_ids _ _ Hac).
  - cbn. rewrite zlen_map. rewrite <- (zlen_map Router.m_id), Hids, zlen_map. congruence.
Qed.

End Configured.

(** ** The ring of a configuration *)

(** The node of the ring is the receiving end of an internal link from the
    upstream router, the only one at that port and at the port upstream. *)
Definition ring_link (ints : list int_link) (cols : Z) (s : spinStruct.t) : Prop :=
  exists l, l ∈ ints /\ BasicLink.m_weight (basic (int_basic l)) < INFINITE_LATENCY /\
    dst_node l = spinStruct.router_id_ s /\ dst_inport l = spinStruct.inport_dir_ s /\
    Mesh.get_upstreamId cols (spinStruct.inport_dir_ s) (spinStruct.router_id_ s) = Ok (src_node l) /\
    Mesh.get_upstreamOutportDirn (spinStruct.inport_dir_ s) = Ok (src_outport l) /\
    (forall l', l' ∈ ints -> dst_node l' = dst_node l -> dst_inport l' = dst_inport l -> l' = l) /\
    (forall l', l' ∈ ints -> src_node l' = src_node l -> src_outport l' = src_outport l -> l' = l).

(** Neither port of such a link is a port of an interface. *)
Lemma upstream_directions cols d i j o :
  Mesh.get_upstreamId cols d i = Ok j -> Mesh.get_upstreamOutportDirn d = Ok o ->
  d <> "Local" /\ d <> "" /\ o <> "Local" /\ o <> "".
Proof.
  unfold Mesh.get_upstreamId, Mesh.get_upstreamOutportDirn. intros H1 H2.
  repeat (case_bool_decide; [by simplify_res|]). by simplify_res.
Qed.

Section Ring.
Context (mt : MachineTypes) `{Hmt : !MachineTypesOk mt} (routers : Z) (exts : list ext_link) (ints : list int_link)
  (cs : list cable) (n : Net.t).
Hypothesis Hpa : params_ok mt routers exts ints.
Hypothesis Hwired : wired cs n.
Hypothesis Hfrom : forall c, c ∈ cs -> exists k e, came_from mt exts ints k e /\ cable_of (zlen exts) k e c.
Hypothesis Hids : forall id r, vec_at (Net.m_routers n) id = Ok r -> Router.m_id r = id.

#[local] Notation nodes := (zlen exts).

(** The cable of an internal link. *)
Definition int_entry (l : int_link) : LinkEntry := mk_entry (int_basic l) (src_outport l) (dst_inport l).

Lemma int_cable_ends l c :
  l ∈ ints -> cable_of nodes (int_key exts l) (int_entry l) c ->
  (exists p, e_src (c_edge c) = Port (src_node l) p) /\ (exists q, e_dst (c_edge c) = Port (dst_node l) q) /\
  c_out c = src_outport l /\ c_in c = dst_inport l /\ e_link (c_edge c) = net_int l.
Proof.
  intros Hl [H1 H2 H3 H4 H5 H6]. destruct (pa_int _ _ _ _ Hpa l Hl) as (Hs & Hd & _ & _ & b & x & y & Hb).
  unfold sends_at, receives_at, out_dirn, in_dirn, int_key, flit_link in *. cbn in *. rewrite Hb in H1. unfold net_int. rewrite Hb.
  assert (0 <= nodes) by (unfold zlen; lia).
  rewrite (proj2 (Z.ltb_ge _ _)) in H3, H5, H6 by lia. rewrite (proj2 (Z.ltb_ge (_ + _) _)) in H4, H5, H6 by lia.
  rewrite Z.add_simpl_r in H3, H4. done.
Qed.

(** A cable between two routers with real directions is one of an internal
    link. *)
Lemma cable_internal c d :
  c ∈ cs -> d <> "Local" -> d <> "" -> (c_in c = d \/ c_out c = d) ->
  exists l, l ∈ ints /\ cable_of nodes (int_key exts l) (int_entry l) c.
Proof.
  intros Hc Hd1 Hd2 Hd. destruct (Hfrom c Hc) as (k & e & He & Hco).
  pose proof (co_in _ _ _ _ Hco) as Hin. pose proof (co_out _ _ _ _ Hco) as Hout. unfold in_dirn, out_dirn in *.
  assert (0 <= nodes) by (unfold zlen; lia).
  destruct He as [(l & Hl & Hk & ->)|(l & Hl & -> & ->)]; [|by exists l]. exfalso.
  destruct (node_of_bound mt routers exts ints Hpa l Hl). destruct Hk as [-> | ->]; cbn in Hin, Hout.
  - rewrite (proj2 (Z.ltb_lt _ _)) in Hin, Hout by lia. destruct Hd; congruence.
  - rewrite (proj2 (Z.ltb_ge _ _)) in Hin, Hout by lia. rewrite (proj2 (Z.ltb_lt _ _)) in Hin, Hout by lia.
    destruct Hd; congruence.
Qed.

Section Node.
Context (l : int_link) (c0 : cable).
Hypothesis Hl : l ∈ ints.
Hypothesis Hc0 : c0 ∈ cs.
Hypothesis Hco : cable_of nodes (int_key exts l) (int_entry l) c0.

Lemma same_cable c l' :
  c ∈ cs -> l' = l -> l' ∈ ints -> cable_of nodes (int_key exts l') (int_entry l') c -> c = c0.
Proof.
  intros Hc -> _ Hcl. destruct (int_cable_ends _ _ Hl Hcl) as (_ & _ & _ & _ & H1).
  destruct (int_cable_ends _ _ Hl Hco) as (_ & _ & _ & _ & H2).
  apply (NoDup_map_inj (fun c => e_link (c_edge c)) cs c c0 (cable_links _ _ Hwired) Hc Hc0). congruence.
Qed.

(** The direction of the receiving router leads to the port of the cable. *)
Lemma inport_index r :
  dst_inport l <> "Local" -> dst_inport l <> "" ->
  (forall l', l' ∈ ints -> dst_node l' = dst_node l -> dst_inport l' = dst_inport l -> l' = l) ->
  vec_at (Net.m_routers n) (dst_node l) = Ok r ->
  e_dst (c_edge c0) = Port (dst_node l) (Wires.index (dst_inport l) (RoutingUnit.m_inports_dirn2idx (Router.m_routing_unit r))).
Proof.
  intros Hd1 Hd2 Honly Hr. destruct (int_cable_ends _ _ Hl Hco) as (_ & (q & Hq) & _ & Hin & _).
  destruct (ag_dirs _ _ _ (wi_receivers _ _ Hwired) (dst_plug c0) (dst_node l) q) as (ds & Hds & Hdq).
  - by apply map_elem.
  - exact Hq.
  - intros h id p p' (c & -> & Hc)%list_elem_of_fmap_1 Hp Hp' Hdir. cbn in Hp, Hp', Hdir.
    destruct (cable_internal c (dst_inport l) Hc Hd1 Hd2) as (l' & Hl' & Hcl); [left; congruence|].
    destruct (int_cable_ends _ _ Hl' Hcl) as (_ & (q' & Hq') & _ & Hin' & _).
    rewrite (same_cable c l' Hc); [done| |done|done]. apply Honly; [done|congruence|congruence].
  - cbn in Hds. apply (vec_at_map (fun r => RoutingUnit.m_inports_dirn2idx (Router.m_routing_unit r))) in Hr.
    rewrite Hr in Hds. simplify_res. cbn in Hdq. rewrite Hin in Hdq. unfold Wires.index. by rewrite Hdq.
Qed.

Lemma outport_index r :
  src_outport l <> "Local" -> src_outport l <> "" ->
  (forall l', l' ∈ ints -> src_node l' = src_node l -> src_outport l' = src_outport l -> l' = l) ->
  vec_at (Net.m_routers n) (src_node l) = Ok r ->
  e_src (c_edge c0) = Port (src_node l) (Wires.index (src_outport l) (RoutingUnit.m_outports_dirn2idx (Router.m_routing_unit r))).
Proof.
  intros Hd1 Hd2 Honly Hr. destruct (int_cable_ends _ _ Hl Hco) as ((q & Hq) & _ & Hout & _).
  destruct (ag_dirs _ _ _ (wi_senders _ _ Hwired) (src_plug c0) (src_node l) q) as (ds & Hds & Hdq).
  - by apply map_elem.
  - exact Hq.
  - intros h id p p' (c & -> & Hc)%list_elem_of_fmap_1 Hp Hp' Hdir. cbn in Hp, Hp', Hdir.
    destruct (cable_internal c (src_outport l) Hc Hd1 Hd2) as (l' & Hl' & Hcl); [right; congruence|].
    destruct (int_cable_ends _ _ Hl' Hcl) as ((q' & Hq') & _ & Hout' & _).
    rewrite (same_cable c l' Hc); [done| |done|done]. apply Honly; [done|congruence|congruence].
  - cbn in Hds. apply (vec_at_map (fun r => RoutingUnit.m_outports_dirn2idx (Router.m_routing_unit r))) in Hr.
    rewrite Hr in Hds. simplify_res. cbn in Hdq. rewrite Hout in Hdq. unfold Wires.index. by rewrite Hdq.
Qed.

End Node.

Hypothesis Hall : forall l, l ∈ ints -> BasicLink.m_weight (basic (int_basic l)) < INFINITE_LATENCY ->
  exists c, c ∈ cs /\ cable_of nodes (int_key exts l) (int_entry l) c.

Lemma ring_node_ok c s :
  c ∈ cs -> ring_link ints (NetConfig.m_num_cols (Net.cfg n)) s -> Edge.node_ok (c_edge c) (Wires.net n) (Wires.node s).
Proof.
  intros Hc (l & Hl & Hfin & Hdn & Hdi & Hup & Hdir & Hin & Hout). destruct (upstream_directions _ _ _ _ _ Hup Hdir) as (D1 & D2 & D3 & D4).
  destruct (Hall l Hl Hfin) as (c0 & Hc0 & Hco).
  unfold Edge.node_ok, Wires.node, Wires.net. cbn [Wires.w_routers Wires.w_num_cols fst snd].
  destruct (vec_at (map Wires.router (Net.m_routers n)) (spinStruct.router_id_ s)) as [w|] eqn:Hw; [|done].
  apply vec_at_map_inv in Hw as (r & Hr & ->). cbn [Wires.w_id Wires.router]. rewrite (Hids _ _ Hr), Hup, Hdir.
  destruct (vec_at (map Wires.router (Net.m_routers n)) (src_node l)) as [w|] eqn:Hw; [|done].
  apply vec_at_map_inv in Hw as (rj & Hrj & ->). cbn [Wires.w_inports Wires.w_outports Wires.router]. rewrite !Wires.index_directions.
  rewrite <- Hdn in Hr. rewrite <- Hdi in *. rewrite <- Hdn.
  rewrite <- (inport_index l c0 Hl Hc0 Hco r D1 D2 Hin Hr), <- (outport_index l c0 Hl Hc0 Hco rj D3 D4 Hout Hrj).
  split; intros Heq; f_equal.
  - f_equal. apply (NoDup_map_inj p_end _ (dst_plug c) (dst_plug c0) (ag_ends _ _ _ (wi_receivers _ _ Hwired))) in Heq;
      [|by apply map_elem..]. injection Heq. intros _ _ Hlk _.
    by apply (NoDup_map_inj (fun c => e_link (c_edge c)) cs c c0 (cable_links _ _ Hwired)).
  - f_equal. apply (NoDup_map_inj p_end _ (src_plug c) (src_plug c0) (ag_ends _ _ _ (wi_senders _ _ Hwired))) in Heq;
      [|by apply map_elem..]. injection Heq. intros _ Hlk _ _.
    by apply (NoDup_map_inj (fun c => e_link (c_edge c)) cs c c0 (cable_links _ _ Hwired)).
Qed.

End Ring.

(** ** Theorems *)

Section Theorems.
Context (mt : MachineTypes) `{Hmt : !MachineTypesOk mt} (ctrl routers block : Z) (exts : list ext_link) (ints : list int_link)
  (regs : list NetworkBase.registration) (b : NetworkBase.t) (spin_file : option (list string * bool)) (n0 n : Net.t).
Hypothesis Hwc : well_configured mt routers exts ints b n0.
Hypothesis Hreg : registered mt ctrl routers exts ints regs b.
Hypothesis Hcon : GarnetSetup.construct b spin_file n0 = Ok n.

(** The entry of an internal link. *)
Lemma internal_entry l :
  l ∈ ints -> m_link_map (NetworkBase.m_topology_ptr b) !! int_key exts l = Some (int_entry l).
Proof.
  intros Hl. pose proof (wc_params _ _ _ _ _ _ Hwc) as Hpa.
  destruct (registered_base mt ctrl routers exts ints regs b n0 Hwc Hreg) as (Hnew & _).
  destruct (new_internal mt routers exts ints Hpa _ l Hnew Hl) as [e He]. rewrite He. f_equal.
  apply (new_came_from mt routers exts ints _ Hpa Hnew) in He as [(x & Hx & Hk & _)|(l' & Hl' & Hk & ->)].
  - exfalso. destruct (node_of_bound mt routers exts ints Hpa x Hx). destruct (pa_int _ _ _ _ Hpa l Hl) as (? & ? & _).
    unfold int_key, in_key, out_key, zlen in *. destruct Hk as [Hk|Hk]; injection Hk; lia.
  - injection Hk as Hs Hd. assert (src_node l = src_node l' /\ dst_node l = dst_node l') as [Es Ed] by lia.
    pose proof (di_pairs _ _ _ _ (wc_distinct _ _ _ _ _ _ Hwc)) as Hnd.
    assert (l = l') as <-; [|done]. eapply (NoDup_map_inj _ _ _ _ Hnd Hl Hl'). cbn. congruence.
Qed.

(** [bring_up_ok] with the links of the network in place of cables. *)
Lemma bring_up_edges :
  exists n', bring_up mt block b n = Ok (NetworkBase.init block b, n') /\ Idle.net n' /\
    (forall e, joined e n' -> Forall (ring_link ints (columns n)) (Net.spinRing n) -> Edge.ok e n').
Proof.
  destruct (bring_up_ok mt ctrl routers block exts ints regs b spin_file n0 n Hwc Hreg Hcon)
    as (n' & cs & Hup & Hidle & Hw & From & All & Hids & Hring & Hcols & _). exists n'. split_and!; [done|done|].
  intros e He HF. destruct (joined_cable cs n' Hw e He) as (c & Hc & <-). apply (cable_ok cs n' Hw c Hc).
  cbn. rewrite Hring. apply Forall_map. eapply Forall_impl; [exact HF|]. intros s Hs.
  apply (ring_node_ok mt routers exts ints cs n' (wc_params _ _ _ _ _ _ Hwc) Hw From Hids); [|done|by rewrite Hcols].
  intros l Hl Hfin. apply All; [|done]. by apply internal_entry.
Qed.

(** C7: a configured network comes up. From well-formed links, and the routers,
    interfaces and links as constructed, [init] always succeeds. It leaves all
    buffers empty and all credits at the senders; every input and output port
    of a router is the end of a link, and a link is known by either of its
    ends, its flit link or its credit link. *)
Theorem network_comes_up :
  exists n', bring_up mt block b n = Ok (NetworkBase.init block b, n') /\ Idle.net n' /\
    (forall id p l, reads (Port id p) l (receivers n') -> exists e, joined e n' /\ e_dst e = Port id p /\ e_link e = l) /\
    (forall id p l, reads (Port id p) l (senders n') -> exists e, joined e n' /\ e_src e = Port id p /\ e_credit e = l) /\
    (forall e e', joined e n' -> joined e' n' ->
       e_src e = e_src e' \/ e_dst e = e_dst e' \/ e_link e = e_link e' \/ e_credit e = e_credit e' -> e = e').
Proof.
  destruct (bring_up_ok mt ctrl routers block exts ints regs b spin_file n0 n Hwc Hreg Hcon)
    as (n' & cs & Hup & Hidle & Hw & _). pose proof Hw as [HS HR]. exists n'. split_and!; [done|done| | |].
  - intros id p l (ls & Hls & Hp). destruct (ag_ports _ _ _ HR _ _ _ _ Hls Hp) as (h & (c & -> & Hc)%list_elem_of_fmap_1 & ? & ?).
    exists (c_edge c). split; [by apply (cable_joined cs)|done].
  - intros id p l (ls & Hls & Hp). destruct (ag_ports _ _ _ HS _ _ _ _ Hls Hp) as (h & (c & -> & Hc)%list_elem_of_fmap_1 & ? & ?).
    exists (c_edge c). split; [by apply (cable_joined cs)|done].
  - intros e e' (c & Hc & <-)%(joined_cable cs n' Hw) (c' & Hc' & <-)%(joined_cable cs n' Hw) Heq. f_equal.
    pose proof (ag_ends _ _ _ HS) as N1. pose proof (ag_ends _ _ _ HR) as N2.
    pose proof (ag_links _ _ _ HS) as N3. pose proof (ag_links _ _ _ HR) as N4. rewrite map_map in N1, N2, N3, N4.
    destruct Heq as [Heq|[Heq|[Heq|Heq]]].
    + exact (NoDup_map_inj _ cs c c' N1 Hc Hc' Heq).
    + exact (NoDup_map_inj _ cs c c' N2 Hc Hc' Heq).
    + exact (NoDup_map_inj _ cs c c' N4 Hc Hc' Heq).
    + exact (NoDup_map_inj _ cs c c' N3 Hc Hc' Heq).
Qed.

(** C6: a configured network never overflows a buffer. Whatever happens after
    the start, drains and spins included, along every link and for every
    virtual channel the slots of the buffer are accounted for, and the
    receiver holds at most as many flits as its buffer has room for. The ring,
    if there is one, follows internal links. *)
Theorem configured_network_never_overflows rnd warm rt b' n' n'' e v :
  Forall (ring_link ints (columns n)) (Net.spinRing n) ->
  bring_up mt block b n = Ok (b', n') -> joined e n' -> Sim.open_run rnd warm rt n' n'' ->
  Slots.balanced e v n'' /\ 0 <= Slots.buffered e v n'' <= Slots.capacity e v n'' /\
  Slots.buffered e v n'' + Slots.sent e v n'' <= Slots.capacity e v n''.
Proof.
  intros HF Hup He Hr. destruct bring_up_edges as (m & Hm & Hidle & Hok). rewrite Hup in Hm. simplify_res.
  pose proof (idle_balanced e v _ Hidle) as Hb. pose proof (idle_bounds _ Hidle) as HB. specialize (Hok e He HF).
  by destruct (run_slots rnd warm rt e v m n'' Hok HB Hb Hr) as (H1 & H2 & H3 & _).
Qed.

End Theorems.


(** ** The 2x2 mesh comes up *)
Module StartupExample.
Import Example DeliveryExample SetupExample.

Lemma mesh_distinct : links_distinct mt exts ints (unlinked cfg).
Proof.
  split; [..|apply (proj1 (bool_decide_eq_true _)); vm_compute; reflexivity|apply (proj1 (bool_decide_eq_true _)); vm_compute; reflexivity];
    apply (proj1 (bool_decide_eq_true _)); vm_compute; reflexivity.
Qed.

Lemma mesh_constructed : as_constructed 1 (unlinked cfg).
Proof.
  split.
  - unfold vec_all. cbn. repeat (constructor; [by do 2 eexists|]). constructor.
  - unfold vec_all. cbn. repeat (constructor; [by eexists|]). constructor.
  - cbn. repeat (constructor; [by do 2 eexists|]). constructor.
  - done.
  - done.
  - done.
Qed.

Lemma mesh_attachable : attachable base (unlinked cfg).
Proof.
  split; [apply (proj1 (bool_decide_eq_true _)); vm_compute; reflexivity|].
  assert (queue_refs (NetworkBase.m_toNetQueues base) = [4; 5; 6; 7]) as -> by (vm_compute; reflexivity).
  repeat (constructor; [by eexists|]). constructor.
Qed.

Lemma mesh_configured : well_configured mt 4 exts ints base (unlinked cfg).
Proof.
  assert (NetworkBase.m_virtual_networks base = 1) as HV by (vm_compute; reflexivity).
  split; rewrite ?HV; [exact mesh_params_ok|exact mesh_distinct|exact mesh_constructed|done|done|exact mesh_attachable|done].
Qed.

Lemma mesh_registered : registered mt 8 4 exts ints regs base.
Proof.
  exists base0. split; [|apply unwrap_ok; vm_compute; reflexivity].
  replace (NetworkBase.m_virtual_networks base) with 1 by (vm_compute; reflexivity).
  apply unwrap_ok. vm_compute. reflexivity.
Qed.

Lemma mesh_construct : GarnetSetup.construct base (Some (spin_file, false)) (unlinked cfg) = Ok constructed.
Proof. apply unwrap_ok. vm_compute. reflexivity. Qed.

Definition up : Net.t := (unwrap (base, constructed) (bring_up mt 64 base constructed)).2.

Lemma network_comes_up_witness :
  bring_up mt 64 base constructed = Ok (NetworkBase.init 64 base, up) /\
  exists e, joined e up /\ e_dst e = Port 3 1 /\ e_link e = 14.
Proof.
  destruct (network_comes_up mt 8 4 64 exts ints regs base (Some (spin_file, false)) (unlinked cfg) constructed
    mesh_configured mesh_registered mesh_construct) as (n' & Hup & _ & Hin & _).
  assert (up = n') as Heq by (unfold up; rewrite Hup; reflexivity).
  rewrite <- Heq in Hup, Hin. split; [exact Hup|]. apply Hin.
  exists [6; 14; 10]. split; vm_compute; reflexivity.
Defined.

(** The ring follows the links of the mesh. *)
Ltac only_link :=
  intros x Hx; let v := eval vm_compute in ints in change ints with v in Hx;
  repeat (apply elem_of_cons in Hx as [->|Hx]; [first [by intros|cbn; intros; discriminate]|]);
  by apply elem_of_nil in Hx.

Ltac follows_link k :=
  let l := eval vm_compute in (nth k ints (mk_int_link 0 0 "" "" (GarnetIntLink bl 0 0))) in
  exists l; split; [apply list_elem_of_lookup; exists k; vm_compute; reflexivity|];
  split; [reflexivity|]; split; [reflexivity|]; split; [reflexivity|]; split; [vm_compute; reflexivity|];
  split; [vm_compute; reflexivity|]; split; only_link.

Lemma mesh_ring : Forall (ring_link ints (columns constructed)) (Net.spinRing constructed).
Proof.
  assert (columns constructed = 2) as -> by (vm_compute; reflexivity).
  assert (exists ring, Net.spinRing constructed = ring) as [ring Hr] by (by eexists). rewrite Hr.
  vm_compute in Hr. subst ring.
  repeat (constructor; [first [follows_link 0%nat|follows_link 1%nat|follows_link 2%nat|follows_link 3%nat
    |follows_link 4%nat|follows_link 5%nat|follows_link 6%nat|follows_link 7%nat]|]). constructor.
Qed.

(** The protocol sends a message from interface 0 to node 3. *)
Definition sending : Net.t :=
  let m := unwrap up (send_message 0 8 up) in
  Net.set_msgbufs (Net.msgbufs m) (Net.set_evq (Net.evq m) (Net.set_curCycle 0 up)).
Definition later (k : nat) : Net.t := unwrap sending (run false false (fun _ => 0) k sending).

(** The link from router 0 to router 1. *)
Definition eastward : edge := mk_edge (Port 0 1) 8 (Port 1 1) 8.

Lemma configured_network_never_overflows_witness :
  Slots.sent eastward 0 (later 3) = 1 /\ Slots.capacity eastward 0 (later 3) = 1 /\
  Slots.balanced eastward 0 (later 3) /\
  Slots.buffered eastward 0 (later 3) + Slots.sent eastward 0 (later 3) <= Slots.capacity eastward 0 (later 3).
Proof.
  split; [vm_compute; reflexivity|]. split; [vm_compute; reflexivity|].
  assert (bring_up mt 64 base constructed = Ok (NetworkBase.init 64 base, up)) as Hup.
  { assert (is_ok (bring_up mt 64 base constructed) = true) as Hok by (vm_compute; reflexivity).
    destruct (bring_up_edges mt 8 4 64 exts ints regs base (Some (spin_file, false)) (unlinked cfg) constructed
      mesh_configured mesh_registered mesh_construct) as (n' & Hn' & _).
    unfold up. rewrite Hn'. reflexivity. }
  assert (joined eastward up) as Hj.
  { split; [exists [2; 8; 15]; split; vm_compute; reflexivity|].
    split; [exists [1; 8; 12]; split; vm_compute; reflexivity|].
    split; [exists (OutQueue 0 1)|exists (CreditQueue 1 1)]; split; vm_compute; reflexivity. }
  assert (Sim.open_run false false (fun _ => 0) up (later 3)) as Hr.
  { eapply Sim.open_reachable; [apply Sim.open_outside, Sim.open_start|].
    apply (run_reachable false false (fun _ => 0) sending 3 sending); [apply Sim.reach_refl|]. vm_compute. reflexivity. }
  destruct (configured_network_never_overflows mt 8 4 64 exts ints regs base (Some (spin_file, false)) (unlinked cfg) constructed
    mesh_configured mesh_registered mesh_construct false false (fun _ => 0) _ up (later 3) eastward 0 mesh_ring Hup Hj Hr)
    as (H1 & _ & H3).
  split; [exact H1|exact H3].
Defined.

End StartupExample.
