(* ===== verification/SimpleNet.v ===== *)
(** * The simple network

    Models src/mem/ruby/network/simple: PerfectSwitch.{hh,cc}, Throttle.{hh,cc},
    Switch.{hh,cc} and SimpleNetwork.{hh,cc}, the other network of the
    simulator that the topology can build. A perfect switch moves the messages
    of its input buffers to intermediate buffers, one per output link and
    virtual network, and splits the destinations of a message over the links;
    a throttle moves the messages of the intermediate buffers on with the
    bandwidth and latency of the link.

    Message buffers are in a store and named by references, as everywhere.
    The order in which [std::sort] leaves equal links is not specified:
    [sort] is a parameter. So is [getMessageSize], a member of the generated
    message classes. *)

From S2P Require Import Prelude NetDest Types FlitBuffer MsgBuffer Topology Setup.

(** [const int PRIORITY_SWITCH_LIMIT], the same in PerfectSwitch.cc and Throttle.cc. *)
Definition PRIORITY_SWITCH_LIMIT : Z := 128.

Definition MESSAGE_SIZE_MULTIPLIER : Z := 1000.

(** ** [struct LinkOrder] *)
Module LinkOrder.

Record t := mk { m_link : Z; m_value : Z }.

(** [operator<] *)
Definition less (l1 l2 : t) : bool := m_value l1 <? m_value l2.

End LinkOrder.

(** ** [class PerfectSwitch]: its state *)
Module PerfectSwitch.

Record t := mk {
  m_switch_id : Z;
  m_in : list (list (option Z));
  m_out : list (list Z);
  m_routing_table : list NetDest.t;
  m_link_order : list LinkOrder.t;
  m_virtual_networks : Z;
  m_round_robin_start : Z;
  m_wakeups_wo_switch : Z;
  m_pending_message_count : list Z
}.

Definition new (sid virt_nets : Z) : t := mk sid [] [] [] [] virt_nets 0 0 [].

Definition set_pending (l : list Z) (s : t) : t :=
  mk (m_switch_id s) (m_in s) (m_out s) (m_routing_table s) (m_link_order s)
    (m_virtual_networks s) (m_round_robin_start s) (m_wakeups_wo_switch s) l.

Definition set_link_order (l : list LinkOrder.t) (s : t) : t :=
  mk (m_switch_id s) (m_in s) (m_out s) (m_routing_table s) l
    (m_virtual_networks s) (m_round_robin_start s) (m_wakeups_wo_switch s)
    (m_pending_message_count s).

Definition set_round_robin (k : Z) (s : t) : t :=
  mk (m_switch_id s) (m_in s) (m_out s) (m_routing_table s) (m_link_order s)
    (m_virtual_networks s) k (m_wakeups_wo_switch s) (m_pending_message_count s).

Definition set_wakeups (k : Z) (s : t) : t :=
  mk (m_switch_id s) (m_in s) (m_out s) (m_routing_table s) (m_link_order s)
    (m_virtual_networks s) (m_round_robin_start s) k (m_pending_message_count s).

Definition init (s : t) : t :=
  set_pending (m_pending_message_count s ++ replicate (Z.to_nat (m_virtual_networks s)) 0) s.

(** The part of [addInPort] and [addOutPort] on the switch's own vectors. *)
Definition push_in (b : list (option Z)) (s : t) : t :=
  mk (m_switch_id s) (m_in s ++ [b]) (m_out s) (m_routing_table s) (m_link_order s)
    (m_virtual_networks s) (m_round_robin_start s) (m_wakeups_wo_switch s)
    (m_pending_message_count s).

Definition addOutPort (out : list Z) (routing_table_entry : NetDest.t) (s : t) : t :=
  mk (m_switch_id s) (m_in s) (m_out s ++ [out]) (m_routing_table s ++ [routing_table_entry])
    (m_link_order s ++ [LinkOrder.mk (zlen (m_out s)) 0]) (m_virtual_networks s)
    (m_round_robin_start s) (m_wakeups_wo_switch s) (m_pending_message_count s).

Definition storeEventInfo (info : Z) (s : t) : Res t :=
  l ← vec_upd (m_pending_message_count s) info (fun k => Ok (k + 1)); Ok (set_pending l s).

Definition count_down (vnet : Z) (s : t) : Res t :=
  l ← vec_upd (m_pending_message_count s) vnet (fun k => Ok (k - 1)); Ok (set_pending l s).

(** The loop over the links: the links a message goes to with the
    destinations each serves, and the destinations that are left. *)
Definition route_link (mt : MachineTypes) (routing_table : list NetDest.t) (o : LinkOrder.t)
    (st : list (Z * NetDest.t) * NetDest.t) : Res (list (Z * NetDest.t) * NetDest.t) :=
  let '(outs, msg_dsts) := st in
  let link := LinkOrder.m_link o in
  dst ← vec_at routing_table link;
  b ← NetDest.intersectionIsNotEmpty dst msg_dsts;
  if (b : bool) then
    both ← NetDest.AND mt dst msg_dsts;
    rest ← NetDest.removeNetDest dst msg_dsts;
    Ok (outs ++ [(link, both)], rest)
  else Ok (outs, msg_dsts).

Definition route (mt : MachineTypes) (order : list LinkOrder.t) (routing_table : list NetDest.t)
    (msg_dsts : NetDest.t) : Res (list (Z * NetDest.t) * NetDest.t) :=
  foldM (fun i st => o ← vec_at order i; route_link mt routing_table o st)
    (range 0 (zlen routing_table)) ([], msg_dsts).

End PerfectSwitch.

(** ** [class Throttle]: its state *)
Module Throttle.

(** [m_link_utilization_proxy], a sum of doubles [1 - bw_remaining / bandwidth],
    is kept as the bandwidth used. *)
Record t := mk {
  m_in : list Z;
  m_out : list (option Z);
  m_vnets : Z;
  m_units_remaining : list Z;
  m_switch_id : Z;
  m_node : Z;
  m_link_bandwidth_multiplier : Z;
  m_link_latency : Z;
  m_wakeups_wo_switch : Z;
  m_endpoint_bandwidth : Z;
  m_msg_counts : list (list Z);
  m_link_utilization_proxy : Z
}.

Definition new (sID node link_latency link_bandwidth_multiplier endpoint_bandwidth : Z) : Res t :=
  _ ← assert_ (link_bandwidth_multiplier >? 0) "Throttle.cc:59";
  Ok (mk [] [] 0 [] sID node link_bandwidth_multiplier link_latency 0 endpoint_bandwidth [] 0).

Definition getLinkBandwidth (s : t) : Z := m_endpoint_bandwidth s * m_link_bandwidth_multiplier s.

Definition set_links (i : list Z) (o : list (option Z)) (vnets : Z) (units : list Z) (s : t) : t :=
  mk i o vnets units (m_switch_id s) (m_node s) (m_link_bandwidth_multiplier s)
    (m_link_latency s) (m_wakeups_wo_switch s) (m_endpoint_bandwidth s) (m_msg_counts s)
    (m_link_utilization_proxy s).

Definition set_units (l : list Z) (s : t) : t := set_links (m_in s) (m_out s) (m_vnets s) l s.

Definition set_wakeups (k : Z) (s : t) : t :=
  mk (m_in s) (m_out s) (m_vnets s) (m_units_remaining s) (m_switch_id s) (m_node s)
    (m_link_bandwidth_multiplier s) (m_link_latency s) k (m_endpoint_bandwidth s)
    (m_msg_counts s) (m_link_utilization_proxy s).

Definition set_stats (counts : list (list Z)) (proxy : Z) (s : t) : t :=
  mk (m_in s) (m_out s) (m_vnets s) (m_units_remaining s) (m_switch_id s) (m_node s)
    (m_link_bandwidth_multiplier s) (m_link_latency s) (m_wakeups_wo_switch s)
    (m_endpoint_bandwidth s) counts proxy.

(** The part of [addLinks] on the throttle's own vectors. *)
Definition addLink (in_ptr : Z) (out_ptr : option Z) (s : t) : t :=
  set_links (m_in s ++ [in_ptr]) (m_out s ++ [out_ptr]) (m_vnets s + 1)
    (m_units_remaining s ++ [0]) s.

Definition addLinks (in_vec : list Z) (out_vec : list (option Z)) (s : t) : Res t :=
  _ ← assert_ (zlen in_vec =? zlen out_vec) "Throttle.cc:73";
  Ok (fold_left (fun s p => addLink p.1 p.2 s) (zip in_vec out_vec) s).

(** The counters of messages: a vector over the virtual networks for every
    size. *)
Definition MessageSizeType_index (m : MessageSizeType) : Z :=
  match m with
  | MessageSizeType_Control => 0
  | MessageSizeType_Data => 1
  | MessageSizeType_Request_Control => 2
  | MessageSizeType_Reissue_Control => 3
  | MessageSizeType_Response_Data => 4
  | MessageSizeType_ResponseL2hit_Data => 5
  | MessageSizeType_ResponseLocal_Data => 6
  | MessageSizeType_Response_Control => 7
  | MessageSizeType_Writeback_Data => 8
  | MessageSizeType_Writeback_Control => 9
  | MessageSizeType_Broadcast_Control => 10
  | MessageSizeType_Multicast_Control => 11
  | MessageSizeType_Forwarded_Control => 12
  | MessageSizeType_Invalidate_Control => 13
  | MessageSizeType_Unblock_Control => 14
  | MessageSizeType_Persistent_Control => 15
  | MessageSizeType_Completion_Control => 16
  end.

Definition MessageSizeType_NUM : Z := 17.

Definition regStats (numberOfVirtualNetworks : Z) (s : t) : t :=
  set_stats (replicate (Z.to_nat MessageSizeType_NUM)
               (replicate (Z.to_nat numberOfVirtualNetworks) 0))
    (m_link_utilization_proxy s) s.

Definition clearStats (s : t) : t := set_stats (m_msg_counts s) 0 s.

Definition count_message (size : MessageSizeType) (vnet : Z) (s : t) : Res t :=
  c ← vec_upd (m_msg_counts s) (MessageSizeType_index size)
        (fun row => vec_upd row vnet (fun k => Ok (k + 1)));
  Ok (set_stats c (m_link_utilization_proxy s) s).

(** [network_message_to_size]; [BROADCAST_SCALING] is 1. *)
Definition network_message_to_size (size : MessageSizeType) (b : NetworkBase.t) : Z :=
  s32 (s32 (NetworkBase.MessageSizeType_to_int size b) * MESSAGE_SIZE_MULTIPLIER).

End Throttle.

(** ** [class Switch] *)
Module Switch.

Record t := mk {
  m_id : Z;
  m_perfect_switch : PerfectSwitch.t;
  m_throttles : list Throttle.t;
  m_port_buffers : list Z;
  m_num_connected_buffers : Z
}.

Definition new (id virt_nets : Z) (port_buffers : list Z) : t :=
  mk id (PerfectSwitch.new id virt_nets) [] port_buffers 0.

Definition set_perfect_switch (p : PerfectSwitch.t) (s : t) : t :=
  mk (m_id s) p (m_throttles s) (m_port_buffers s) (m_num_connected_buffers s).

Definition set_throttles (l : list Throttle.t) (s : t) : t :=
  mk (m_id s) (m_perfect_switch s) l (m_port_buffers s) (m_num_connected_buffers s).

Definition set_connected (k : Z) (s : t) : t :=
  mk (m_id s) (m_perfect_switch s) (m_throttles s) (m_port_buffers s) k.

Definition init (s : t) : t := set_perfect_switch (PerfectSwitch.init (m_perfect_switch s)) s.

Definition regStats (numberOfVirtualNetworks : Z) (s : t) : t :=
  set_throttles (map (Throttle.regStats numberOfVirtualNetworks) (m_throttles s)) s.

Definition resetStats (s : t) : t := set_throttles (map Throttle.clearStats (m_throttles s)) s.

(** The intermediate buffers of a new port. *)
Definition take_buffer (_ : option Z) (st : list Z * t) : Res (list Z * t) :=
  let '(bufs, s) := st in
  _ ← assert_ (m_num_connected_buffers s <? zlen (m_port_buffers s)) "Switch.cc:93";
  b ← vec_at (m_port_buffers s) (m_num_connected_buffers s);
  Ok (bufs ++ [b], set_connected (m_num_connected_buffers s + 1) s).

(** [addOutPort] but for the consumers of the intermediate buffers. *)
Definition addOutPort (out : list (option Z)) (routing_table_entry : NetDest.t)
    (link_latency bw_multiplier endpoint_bandwidth : Z) (s : t) : Res (list Z * t) :=
  th ← Throttle.new (m_id s) (zlen (m_throttles s)) link_latency bw_multiplier endpoint_bandwidth;
  '(bufs, s) ← foldM take_buffer out ([], s);
  th ← Throttle.addLinks bufs out th;
  Ok (bufs, set_throttles (m_throttles s ++ [th])
              (set_perfect_switch
                 (PerfectSwitch.addOutPort bufs routing_table_entry (m_perfect_switch s)) s)).

End Switch.

(** ** The state of a run *)
Module Simple.

(** [rand_values] are the values of [random_mt.random(0, 0xff)], [delays]
    those of [random_time()]; [now] is the tick of the current clock edge. *)
Record t := mk {
  base : NetworkBase.t;
  m_switches : list Switch.t;
  m_int_link_buffers : list Z;
  m_num_connected_buffers : Z;
  m_buffer_size : Z;
  m_endpoint_bandwidth : Z;
  m_adaptive_routing : bool;
  clk_period : Z;
  now : Z;
  msgbufs : list MessageBuffer.t;
  evq : Consumer.t;
  rand_values : nat -> Z;
  rand_pos : nat;
  delays : nat -> Z;
  delay_pos : nat
}.

Definition set_switches (l : list Switch.t) (n : t) : t :=
  mk (base n) l (m_int_link_buffers n) (m_num_connected_buffers n) (m_buffer_size n)
    (m_endpoint_bandwidth n) (m_adaptive_routing n) (clk_period n) (now n) (msgbufs n) (evq n)
    (rand_values n) (rand_pos n) (delays n) (delay_pos n).

Definition set_base (b : NetworkBase.t) (n : t) : t :=
  mk b (m_switches n) (m_int_link_buffers n) (m_num_connected_buffers n) (m_buffer_size n)
    (m_endpoint_bandwidth n) (m_adaptive_routing n) (clk_period n) (now n) (msgbufs n) (evq n)
    (rand_values n) (rand_pos n) (delays n) (delay_pos n).

Definition set_connected (k : Z) (n : t) : t :=
  mk (base n) (m_switches n) (m_int_link_buffers n) k (m_buffer_size n)
    (m_endpoint_bandwidth n) (m_adaptive_routing n) (clk_period n) (now n) (msgbufs n) (evq n)
    (rand_values n) (rand_pos n) (delays n) (delay_pos n).

Definition set_msgbufs (l : list MessageBuffer.t) (n : t) : t :=
  mk (base n) (m_switches n) (m_int_link_buffers n) (m_num_connected_buffers n) (m_buffer_size n)
    (m_endpoint_bandwidth n) (m_adaptive_routing n) (clk_period n) (now n) l (evq n)
    (rand_values n) (rand_pos n) (delays n) (delay_pos n).

Definition set_evq (q : Consumer.t) (n : t) : t :=
  mk (base n) (m_switches n) (m_int_link_buffers n) (m_num_connected_buffers n) (m_buffer_size n)
    (m_endpoint_bandwidth n) (m_adaptive_routing n) (clk_period n) (now n) (msgbufs n) q
    (rand_values n) (rand_pos n) (delays n) (delay_pos n).

Definition set_now (k : Z) (n : t) : t :=
  mk (base n) (m_switches n) (m_int_link_buffers n) (m_num_connected_buffers n) (m_buffer_size n)
    (m_endpoint_bandwidth n) (m_adaptive_routing n) (clk_period n) k (msgbufs n) (evq n)
    (rand_values n) (rand_pos n) (delays n) (delay_pos n).

Definition set_streams (r d : nat) (n : t) : t :=
  mk (base n) (m_switches n) (m_int_link_buffers n) (m_num_connected_buffers n) (m_buffer_size n)
    (m_endpoint_bandwidth n) (m_adaptive_routing n) (clk_period n) (now n) (msgbufs n) (evq n)
    (rand_values n) r (delays n) d.

Definition random (n : t) : Z * t :=
  (rand_values n (rand_pos n), set_streams (S (rand_pos n)) (delay_pos n) n).

Definition switch (sid : Z) (n : t) : Res Switch.t := vec_at (m_switches n) sid.

Definition upd_switch (sid : Z) (f : Switch.t -> Res Switch.t) (n : t) : Res t :=
  l ← vec_upd (m_switches n) sid f; Ok (set_switches l n).

Definition perfect_switch (sid : Z) (n : t) : Res PerfectSwitch.t :=
  s ← switch sid n; Ok (Switch.m_perfect_switch s).

Definition upd_perfect (sid : Z) (f : PerfectSwitch.t -> Res PerfectSwitch.t) : t -> Res t :=
  upd_switch sid (fun s => p ← f (Switch.m_perfect_switch s); Ok (Switch.set_perfect_switch p s)).

Definition throttle (sid k : Z) (n : t) : Res Throttle.t :=
  s ← switch sid n; vec_at (Switch.m_throttles s) k.

Definition upd_throttle (sid k : Z) (f : Throttle.t -> Res Throttle.t) : t -> Res t :=
  upd_switch sid (fun s => l ← vec_upd (Switch.m_throttles s) k f; Ok (Switch.set_throttles l s)).

Definition buffer (b : Z) (n : t) : Res MessageBuffer.t := vec_at (msgbufs n) b.

Definition upd_buffer (b : Z) (f : MessageBuffer.t -> Res MessageBuffer.t) (n : t) : Res t :=
  l ← vec_upd (msgbufs n) b f; Ok (set_msgbufs l n).

Definition schedule_at (c : consumer) (tick : Z) (n : t) : t :=
  set_evq (Consumer.scheduleEventAbsolute (now n) c tick (evq n)) n.

(** [scheduleEvent(Cycles(k))] *)
Definition schedule (c : consumer) (k : Z) (n : t) : t :=
  set_evq (Consumer.scheduleEvent (clk_period n) (now n) c k (evq n)) n.

Definition isReady (b : Z) (n : t) : Res bool :=
  buf ← buffer b n; Ok (MessageBuffer.isReady (now n) buf).

(** [areNSlotsAvailable(1, current_time)] counts the refusals. *)
Definition slot_available (b : Z) (n : t) : Res (bool * t) :=
  buf ← buffer b n;
  let '(r, buf) := MessageBuffer.areNSlotsAvailable 1 (now n) buf in
  n ← upd_buffer b (fun _ => Ok buf) n;
  Ok (r, n).

(** Only a perfect switch overrides [storeEventInfo]. *)
Definition storeEventInfo (c : consumer) (info : Z) (n : t) : Res t :=
  match c with
  | CPerfectSwitch sid => upd_perfect sid (PerfectSwitch.storeEventInfo info) n
  | _ => Ok n
  end.

(** [dequeue]: the message, with the delay the buffer noted in it, and the
    call of a registered callback, which schedules its object. *)
Definition dequeue (b : Z) (n : t) : Res (Message.t * t) :=
  buf ← buffer b n;
  m ← MessageBuffer.peekMsgPtr buf;
  '(_, buf, cb) ← MessageBuffer.dequeue (now n) true buf;
  m ← Message.updateDelayedTicks (now n) m;
  n ← upd_buffer b (fun _ => Ok buf) n;
  Ok (m, match cb with Some c => schedule c 1 n | None => n end).

Section Simple.
Variable mt : MachineTypes.
Variables (getRandomization getWarmupEnabled : bool).
Variable sort : list LinkOrder.t -> list LinkOrder.t.
Variable getMessageSize : Message.t -> MessageSizeType.

(** [enqueue] with the wake-up of the buffer's consumer. *)
Definition enqueue (b : Z) (m : Message.t) (delta : Z) (n : t) : Res t :=
  buf ← buffer b n;
  '(buf, (c, arrival)) ← MessageBuffer.enqueue getRandomization getWarmupEnabled
                           (delays n (delay_pos n)) m (now n) delta buf;
  n ← upd_buffer b (fun _ => Ok buf) (set_streams (rand_pos n) (S (delay_pos n)) n);
  storeEventInfo c (MessageBuffer.m_vnet_id buf) (schedule_at c arrival n).

(** *** [PerfectSwitch] *)

(** The value of an output link: how clogged it is, with random low bits. *)
Definition out_queue_length (out : list Z) (vnets : Z) (n : t) : Res (Z * t) :=
  foldM (fun v '(len, n) =>
           b ← vec_at out v;
           buf ← buffer b n;
           let '(size, buf) := MessageBuffer.getSize (now n) buf in
           n ← upd_buffer b (fun _ => Ok buf) n;
           Ok (s32 (len + size), n)) (range 0 vnets) (0, n).

Definition link_value (ps : PerfectSwitch.t) (out : Z) (st : list LinkOrder.t * t)
    : Res (list LinkOrder.t * t) :=
  let '(order, n) := st in
  bufs ← vec_at (PerfectSwitch.m_out ps) out;
  '(len, n) ← out_queue_length bufs (PerfectSwitch.m_virtual_networks ps) n;
  let '(r, n) := random n in
  Ok (order ++ [LinkOrder.mk out (Z.lor (s32 (Z.shiftl len 8)) r)], n).

(** The order in which the links are looked at. *)
Definition order_links (sid vnet : Z) (n : t) : Res t :=
  if m_adaptive_routing n then
    ps ← perfect_switch sid n;
    ordered ← vec_at (NetworkBase.m_ordered (base n)) vnet;
    let outs := range 0 (zlen (PerfectSwitch.m_out ps)) in
    '(order, n) ← (if (ordered : bool) then Ok (map (fun out => LinkOrder.mk out 0) outs, n)
                   else '(order, n) ← foldM (link_value ps) outs ([], n); Ok (sort order, n));
    upd_perfect sid (fun ps => Ok (PerfectSwitch.set_link_order order ps)) n
  else Ok n.

(** The intermediate buffer of an output link for a virtual network. *)
Definition out_buffer (sid link vnet : Z) (n : t) : Res Z :=
  ps ← perfect_switch sid n;
  out ← vec_at (PerfectSwitch.m_out ps) link;
  vec_at out vnet.

Definition check_slots (sid vnet : Z) (outs : list (Z * NetDest.t)) (n : t) : Res (bool * t) :=
  foldM (fun o '(enough, n) =>
           b ← out_buffer sid o.1 vnet n;
           '(avail, n) ← slot_available b n;
           Ok (if (avail : bool) then enough else false, n)) outs (true, n).

(** The message itself goes to the first link, copies made before it was
    dequeued to the others. *)
Definition send (sid vnet : Z) (m : Message.t) (o : Z * NetDest.t) (n : t) : Res t :=
  b ← out_buffer sid o.1 vnet n;
  enqueue b (Message.set_dest o.2 m) (clk_period n) n.

Definition send_all (sid vnet : Z) (msg unmodified : Message.t) (outs : list (Z * NetDest.t)) (n : t)
    : Res t :=
  match outs with
  | [] => Ok n
  | o :: outs => n ← send sid vnet msg o n; foldM (send sid vnet unmodified) outs n
  end.

(** The body of the [while] loop: [false] when the loop ends early because a
    buffer is full. *)
Definition operate_message (sid buf vnet : Z) (n : t) : Res (bool * t) :=
  mb ← buffer buf n;
  msg_ptr ← MessageBuffer.peekMsgPtr mb;
  ps ← perfect_switch sid n;
  _ ← assert_ (zlen (PerfectSwitch.m_link_order ps) =? zlen (PerfectSwitch.m_routing_table ps))
        "PerfectSwitch.cc:166";
  _ ← assert_ (zlen (PerfectSwitch.m_link_order ps) =? zlen (PerfectSwitch.m_out ps))
        "PerfectSwitch.cc:167";
  n ← order_links sid vnet n;
  ps ← perfect_switch sid n;
  '(outs, msg_dsts) ← PerfectSwitch.route mt (PerfectSwitch.m_link_order ps)
                        (PerfectSwitch.m_routing_table ps) (Message.getDestination msg_ptr);
  _ ← assert_ (NetDest.count msg_dsts =? 0) "PerfectSwitch.cc:218";
  '(enough, n) ← check_slots sid vnet outs n;
  if negb enough then Ok (false, schedule (CPerfectSwitch sid) 1 n)
  else
    '(msg, n) ← dequeue buf n;
    n ← upd_perfect sid (PerfectSwitch.count_down vnet) n;
    n ← send_all sid vnet msg msg_ptr outs n;
    Ok (true, n).

(** The [while] loop; the model stops when [fuel] runs out. *)
Fixpoint operate_loop (fuel : nat) (sid buf vnet : Z) (n : t) : Res t :=
  match fuel with
  | O => Err (FatalError "fuel")
  | S f =>
      r ← isReady buf n;
      if (r : bool) then
        '(go, n) ← operate_message sid buf vnet n;
        if (go : bool) then operate_loop f sid buf vnet n else Ok n
      else Ok n
  end.

(** Every iteration takes a ready message out of the buffer. *)
Definition operateMessageBuffer (sid buf vnet : Z) (n : t) : Res t :=
  mb ← buffer buf n;
  operate_loop (S (length (MessageBuffer.m_prio_heap mb))) sid buf vnet n.

(** One input port of [operateVnet]. *)
Definition operate_port (sid vnet : Z) (_ : Z) (st : Z * t) : Res (Z * t) :=
  let '(incoming, n) := st in
  ps ← perfect_switch sid n;
  let incoming := if incoming + 1 >=? zlen (PerfectSwitch.m_in ps) then 0 else incoming + 1 in
  ins ← vec_at (PerfectSwitch.m_in ps) incoming;
  if zlen ins <=? vnet then Ok (incoming, n)
  else
    b ← vec_at ins vnet;
    match b with
    | None => Ok (incoming, n)
    | Some buf => n ← operateMessageBuffer sid buf vnet n; Ok (incoming, n)
    end.

Definition operateVnet (sid vnet : Z) (n : t) : Res t :=
  ps ← perfect_switch sid n;
  let incoming := PerfectSwitch.m_round_robin_start ps in
  let next := if incoming + 1 >=? zlen (PerfectSwitch.m_in ps) then 0 else incoming + 1 in
  n ← upd_perfect sid (fun ps => Ok (PerfectSwitch.set_round_robin next ps)) n;
  pending ← vec_at (PerfectSwitch.m_pending_message_count ps) vnet;
  if pending >? 0 then
    '(_, n) ← foldM (operate_port sid vnet) (range 0 (zlen (PerfectSwitch.m_in ps))) (incoming, n);
    Ok n
  else Ok n.

(** The wake-ups since the priorities were inverted, and whether they are now. *)
Definition invert_priorities (wakeups : Z) : Z * bool :=
  if wakeups + 1 >? PRIORITY_SWITCH_LIMIT then (0, true) else (wakeups + 1, false).

Definition perfect_wakeup (sid : Z) (n : t) : Res t :=
  ps ← perfect_switch sid n;
  let '(k, inverted) := invert_priorities (PerfectSwitch.m_wakeups_wo_switch ps) in
  n ← upd_perfect sid (fun ps => Ok (PerfectSwitch.set_wakeups k ps)) n;
  let vnets := range 0 (PerfectSwitch.m_virtual_networks ps) in
  foldM (operateVnet sid) (if inverted then vnets else reverse vnets) n.

(** *** [Throttle] *)

Definition units (sid k vnet : Z) (n : t) : Res Z :=
  th ← throttle sid k n; vec_at (Throttle.m_units_remaining th) vnet.

Definition upd_units (sid k vnet : Z) (f : Z -> Z) : t -> Res t :=
  upd_throttle sid k (fun th =>
    l ← vec_upd (Throttle.m_units_remaining th) vnet (fun u => Ok (f u));
    Ok (Throttle.set_units l th)).

(** [bw_remaining > 0 && (in->isReady() || m_units_remaining[vnet] > 0)] *)
Definition has_work (sid k vnet in_ bw_remaining : Z) (n : t) : Res bool :=
  r ← isReady in_ n;
  u ← units sid k vnet n;
  Ok ((bw_remaining >? 0) && (r || (u >? 0))).

(** A message that is ready moves when the previous one is done. *)
Definition move_message (sid k vnet in_ out : Z) (n : t) : Res t :=
  u ← units sid k vnet n;
  r ← isReady in_ n;
  if (u =? 0) && r then
    mb ← buffer in_ n;
    msg_ptr ← MessageBuffer.peekMsgPtr mb;
    let size := getMessageSize msg_ptr in
    n ← upd_units sid k vnet (fun u => u + Throttle.network_message_to_size size (base n)) n;
    '(msg, n) ← dequeue in_ n;
    th ← throttle sid k n;
    n ← enqueue out msg (Throttle.m_link_latency th * clk_period n) n;
    upd_throttle sid k (Throttle.count_message size vnet) n
  else Ok n.

(** The body of the [while] loop. *)
Definition transfer (sid k vnet in_ out bw_remaining : Z) (n : t) : Res (Z * t) :=
  n ← move_message sid k vnet in_ out n;
  u ← units sid k vnet n;
  let diff := u - bw_remaining in
  n ← upd_units sid k vnet (fun _ => Z.max 0 diff) n;
  Ok (Z.max 0 (- diff), n).

Fixpoint transfer_loop (fuel : nat) (sid k vnet in_ out bw_remaining : Z) (n : t) : Res (Z * t) :=
  match fuel with
  | O => Err (FatalError "fuel")
  | S f =>
      work ← has_work sid k vnet in_ bw_remaining n;
      '(go, n) ← (if (work : bool) then slot_available out n else Ok (false, n));
      if (go : bool) then
        '(bw_remaining, n) ← transfer sid k vnet in_ out bw_remaining n;
        transfer_loop f sid k vnet in_ out bw_remaining n
      else Ok (bw_remaining, n)
  end.

(** The remaining bandwidth, [schedule_wakeup] and the network. At most one
    iteration finishes an earlier message, the others take one out of [in]. *)
Definition throttle_operateVnet (sid k vnet : Z) (st : Z * bool * t) : Res (Z * bool * t) :=
  let '(bw_remaining, schedule_wakeup, n) := st in
  th ← throttle sid k n;
  in_ ← vec_at (Throttle.m_in th) vnet;
  out ← vec_at (Throttle.m_out th) vnet;
  match out with
  | None => Ok (bw_remaining, schedule_wakeup, n)
  | Some out =>
      u ← vec_at (Throttle.m_units_remaining th) vnet;
      _ ← assert_ (u >=? 0) "Throttle.cc:99";
      mb ← buffer in_ n;
      '(bw_remaining, n) ← transfer_loop (S (S (length (MessageBuffer.m_prio_heap mb))))
                             sid k vnet in_ out bw_remaining n;
      work ← has_work sid k vnet in_ bw_remaining n;
      '(avail, n) ← (if (work : bool) then slot_available out n else Ok (true, n));
      Ok (bw_remaining, if (avail : bool) then schedule_wakeup else true, n)
  end.

Definition throttle_wakeup (sid k : Z) (n : t) : Res t :=
  th ← throttle sid k n;
  let bandwidth := Throttle.getLinkBandwidth th in
  _ ← assert_ (bandwidth >? 0) "Throttle.cc:150";
  let '(w, iteration_direction) := invert_priorities (Throttle.m_wakeups_wo_switch th) in
  n ← upd_throttle sid k (fun th => Ok (Throttle.set_wakeups w th)) n;
  let vnets := range 0 (Throttle.m_vnets th) in
  '(bw_remaining, schedule_wakeup, n) ←
    foldM (throttle_operateVnet sid k) (if iteration_direction then vnets else reverse vnets)
      (bandwidth, false, n);
  n ← upd_throttle sid k (fun th =>
        Ok (Throttle.set_stats (Throttle.m_msg_counts th)
              (Throttle.m_link_utilization_proxy th + (bandwidth - bw_remaining)) th)) n;
  if (bw_remaining >? 0) && negb schedule_wakeup then Ok n
  else Ok (schedule (CThrottle sid k) 1 n).

(** *** Building the network *)

(** [PerfectSwitch::addInPort]: the buffers get the switch as consumer. *)
Definition connect_in (sid port i : Z) (b : option Z) (n : t) : Res t :=
  match b with
  | None => Ok n
  | Some b =>
      upd_buffer b (fun buf =>
        buf ← MessageBuffer.setConsumer (CPerfectSwitch sid) buf;
        Ok (MessageBuffer.setVnet i (MessageBuffer.setIncomingLink port buf))) n
  end.

Definition addInPort (sid : Z) (ins : list (option Z)) (n : t) : Res t :=
  ps ← perfect_switch sid n;
  let port := zlen (PerfectSwitch.m_in ps) in
  n ← upd_perfect sid (fun ps => Ok (PerfectSwitch.push_in ins ps)) n;
  foldM (fun i n => b ← vec_at ins i; connect_in sid port i b n) (range 0 (zlen ins)) n.

(** [Switch::addOutPort]: the throttle consumes the intermediate buffers. *)
Definition addOutPort (sid : Z) (out : list (option Z)) (routing_table_entry : NetDest.t)
    (link_latency bw_multiplier : Z) (n : t) : Res t :=
  s ← switch sid n;
  let k := zlen (Switch.m_throttles s) in
  '(bufs, s) ← Switch.addOutPort out routing_table_entry link_latency bw_multiplier
                 (m_endpoint_bandwidth n) s;
  n ← upd_switch sid (fun _ => Ok s) n;
  foldM (fun b n => upd_buffer b (MessageBuffer.setConsumer (CThrottle sid k)) n) bufs n.

(** The queues of an internal link. *)
Definition take_buffer (_ : Z) (st : list Z * t) : Res (list Z * t) :=
  let '(queues, n) := st in
  _ ← assert_ (m_num_connected_buffers n <? zlen (m_int_link_buffers n)) "SimpleNetwork.cc:117";
  b ← vec_at (m_int_link_buffers n) (m_num_connected_buffers n);
  Ok (queues ++ [b], set_connected (m_num_connected_buffers n + 1) n).

#[export] Instance SimpleNetwork_ops : NetworkOps t := {|
  makeExtOutLink src dest l routing_table_entry n :=
    _ ← assert_ (dest <? NetworkBase.m_nodes (base n)) "SimpleNetwork.cc:85";
    _ ← assert_ (src <? zlen (m_switches n)) "SimpleNetwork.cc:86";
    match l with
    | SimpleExtLink b m_bw_multiplier =>
        out ← vec_at (NetworkBase.m_fromNetQueues (base n)) dest;
        addOutPort src out routing_table_entry (BasicLink.m_latency b) m_bw_multiplier n
    | _ => Err safe_cast
    end;
  makeExtInLink src dest l routing_table_entry n :=
    _ ← assert_ (src <? NetworkBase.m_nodes (base n)) "SimpleNetwork.cc:101";
    ins ← vec_at (NetworkBase.m_toNetQueues (base n)) src;
    addInPort dest ins n;
  makeInternalLink src dest l routing_table_entry src_outport dst_inport n :=
    '(queues, n) ← foldM take_buffer (range 0 (NetworkBase.m_virtual_networks (base n))) ([], n);
    match l with
    | SimpleIntLink b m_bw_multiplier =>
        n ← addInPort dest (map Some queues) n;
        addOutPort src (map Some queues) routing_table_entry (BasicLink.m_latency b)
          m_bw_multiplier n
    | _ => Err safe_cast
    end
|}.

(** [init] of the network and of its switches. *)
Definition init (block_size : Z) (n : t) : Res t :=
  let n := set_base (NetworkBase.init block_size (base n)) n in
  n ← Topology.createLinks mt (NetworkBase.m_topology_ptr (base n)) n;
  Ok (set_switches (map Switch.init (m_switches n)) n).

Definition regStats (n : t) : t :=
  set_switches (map (Switch.regStats (NetworkBase.m_virtual_networks (base n))) (m_switches n)) n.

Definition resetStats (n : t) : t := set_switches (map Switch.resetStats (m_switches n)) n.

(** [functionalWrite] of the switches and of the network. *)
Definition write_buffers {Packet : Type} (msg_write : Packet -> Message.t -> bool * Message.t)
    (pkt : Packet) (bufs : list Z) (st : Z * t) : Res (Z * t) :=
  foldM (fun b '(num, n) =>
           buf ← buffer b n;
           let '(k, buf) := MessageBuffer.functionalWrite msg_write pkt buf in
           n ← upd_buffer b (fun _ => Ok buf) n;
           Ok (u32 (num + k), n)) bufs st.

Definition functionalWrite {Packet : Type} (msg_write : Packet -> Message.t -> bool * Message.t)
    (pkt : Packet) (n : t) : Res (Z * t) :=
  st ← foldM (fun s st => write_buffers msg_write pkt (Switch.m_port_buffers s) st)
         (m_switches n) (0, n);
  write_buffers msg_write pkt (m_int_link_buffers n) st.

(** *** Runs *)

(** What a controller, which is generated, does in its own wake-up are the
    steps [run_inject] and [run_take]. *)
Definition dispatch (c : consumer) (n : t) : Res t :=
  match c with
  | CPerfectSwitch sid => perfect_wakeup sid n
  | CThrottle sid k => throttle_wakeup sid k n
  | _ => Ok n
  end.

(** The state in which an event of tick [t] runs, the event removed. *)
Definition at_event (k : nat) (tick : Z) (n : t) : t :=
  let q := evq n in
  set_evq (Consumer.mk (delete k (Consumer.events q)) (Consumer.m_scheduled_wakeups q))
    (set_now tick n).

Definition among (b : Z) (queues : list (list (option Z))) : Prop :=
  exists q, q ∈ queues /\ Some b ∈ q.

(** A run from [n0] with the messages the controllers enqueued and those
    they took, the latest first. An earliest event runs next. *)
Inductive run (n0 : t) : list Message.t -> list Message.t -> t -> Prop :=
  | run_start : run n0 [] [] n0
  | run_event injected taken n k c tick n' :
      run n0 injected taken n ->
      Consumer.events (evq n) !! k = Some (c, tick) ->
      Forall (fun e => tick <= e.2) (Consumer.events (evq n)) ->
      dispatch c (at_event k tick n) = Ok n' ->
      run n0 injected taken n'
  | run_inject injected taken n b m delta n' :
      run n0 injected taken n ->
      among b (NetworkBase.m_toNetQueues (base n)) ->
      enqueue b m delta n = Ok n' ->
      run n0 (m :: injected) taken n'
  | run_take injected taken n b m n' :
      run n0 injected taken n ->
      among b (NetworkBase.m_fromNetQueues (base n)) ->
      dequeue b n = Ok (m, n') ->
      run n0 injected (m :: taken) n'.

End Simple.
End Simple.
