(* ===== verification/SimpleNetFacts.v ===== *)
(** * The simple network: theorems

    The routing of a message splits its destinations over the links; the
    loops of switches and throttles end; a throttle moves no more than its
    bandwidth; over a whole run, no message is lost or duplicated for any
    destination, and the counters of pending messages are exact. *)

From S2P Require Import Prelude NetDest NetDestFacts Types FlitBuffer MsgBuffer MsgBufferFacts Topology Setup SimpleNet.

(** ** Destinations *)

(** Membership as a test. *)
Definition has (i j : Z) (d : NetDest.t) : bool :=
  match NetDest.m_bits d !! Z.to_nat i with
  | Some s => Z.testbit (NodeSet.bits s) j
  | None => false
  end.

Lemma has_member i j d : has i j d = true <-> member i j d.
Proof.
  unfold has, member. destruct (NetDest.m_bits d !! Z.to_nat i) as [s|]; [|naive_solver].
  split; [eauto|]. intros (s' & [= <-] & H). done.
Qed.

Lemma has_equiv i j d d1 d2 (f : bool -> bool -> bool) :
  (has i j d = true <-> f (has i j d1) (has i j d2) = true) -> has i j d = f (has i j d1) (has i j d2).
Proof. destruct (has i j d), (f _ _); naive_solver. Qed.

(** An empty count means an empty set. *)
Lemma count_zero d : NetDest.count d = 0 -> forall i j, 0 <= j < NUMBER_BITS_PER_SET -> has i j d = false.
Proof.
  assert (forall s, 0 <= NodeSet.count s) as Hnn by (intros s; apply Zle_0_nat).
  assert (forall l, 0 <= fold_right (fun s n => NodeSet.count s + n) 0 l) as Hnn'.
  { induction l as [|s l IH]; cbn; [lia|]. specialize (Hnn s). lia. }
  unfold NetDest.count, has. intros H i j Hj. generalize dependent (Z.to_nat i).
  induction (NetDest.m_bits d) as [|s l IH]; intros k; [done|]. cbn in H.
  specialize (Hnn s) as Hs. specialize (Hnn' l). destruct k as [|k]; cbn; [|apply IH; lia].
  assert (NodeSet.count s = 0) as Hz by lia. unfold NodeSet.count, bitset_count, zlen in Hz.
  destruct (filter _ _) as [|x r] eqn:E; [|cbn in Hz; lia].
  apply not_true_is_false. intros Hb.
  assert (j ∈ filter (fun i => Z.testbit (NodeSet.bits s) i = true) (range 0 NUMBER_BITS_PER_SET)) as Hin.
  { apply list_elem_of_filter. split; [done|]. by apply in_range. }
  rewrite E in Hin. by apply not_elem_of_nil in Hin.
Qed.

(** ** Routing *)
Section Route.
Context (mt : MachineTypes) `{!MachineTypesOk mt}.
Variables (order : list LinkOrder.t) (table : list NetDest.t).

Definition links : list Z := map LinkOrder.m_link order.

(** The link order names every link of the table once. *)
Definition order_ok : Prop := links ≡ₚ range 0 (zlen table).

Hypothesis Hwf : Forall (dest_wf mt) table.
Hypothesis Horder : order_ok.

(** How many of the links of [outs] serve machine [(i, j)]. *)
Definition served (i j : Z) (outs : list (Z * NetDest.t)) : Z :=
  total (fun o => Z.b2z (has i j o.2)) outs.

Lemma elem_links l : l ∈ links <-> 0 <= l < zlen table.
Proof. rewrite <- in_range. unfold order_ok in Horder. by rewrite Horder. Qed.

Lemma order_length : zlen order = zlen table.
Proof.
  unfold zlen. pose proof (Permutation_length Horder) as H. unfold links, range in H.
  rewrite length_map, length_seqZ in H. unfold zlen in H. lia.
Qed.

Lemma order_entry o : o ∈ order -> exists e, vec_at table (LinkOrder.m_link o) = Ok e /\ dest_wf mt e.
Proof.
  intros Ho. assert (LinkOrder.m_link o ∈ links) as Hl by (apply list_elem_of_fmap; eauto).
  apply elem_links in Hl. destruct (vec_at_total table _ Hl) as [e He]. exists e.
  split; [done|]. apply vec_at_Ok in He as [_ He]. by eapply Forall_lookup_1 in Hwf.
Qed.

(** One link: its destinations leave the rest. *)
Lemma route_link_spec o outs d :
  o ∈ order -> dest_wf mt d ->
  exists outs' d' e, PerfectSwitch.route_link mt table o (outs, d) = Ok (outs ++ outs', d') /\
    vec_at table (LinkOrder.m_link o) = Ok e /\ dest_wf mt d' /\
    (forall i j, 0 <= j -> has i j d' = has i j d && negb (has i j e)) /\
    (outs' = [] /\ (forall i j, 0 <= i -> 0 <= j -> has i j d && has i j e = false) \/
     exists b, outs' = [(LinkOrder.m_link o, b)] /\ dest_wf mt b /\
       (forall i j, 0 <= j -> has i j b = has i j d && has i j e) /\
       exists i j, 0 <= i /\ 0 <= j /\ has i j b = true).
Proof.
  intros Ho Hd. destruct (order_entry o Ho) as (e & He & Hewf). unfold PerfectSwitch.route_link.
  rewrite He. cbn [mbind Res_bind].
  destruct (intersectionIsNotEmpty_spec mt e d Hewf Hd) as (b & Hb & Hspec). rewrite Hb. cbn [mbind Res_bind].
  destruct b.
  - destruct (NetDest_AND_spec mt e d Hewf Hd) as (a & Ha & Hawf & Hmem). rewrite Ha. cbn [mbind Res_bind].
    destruct (removeNetDest_spec mt e d Hewf Hd) as (r & Hr & Hrwf & Hrem). rewrite Hr. cbn [mbind Res_bind].
    assert (forall i j, 0 <= j -> has i j a = has i j d && has i j e) as Hha.
    { intros i j Hj. apply has_equiv. rewrite andb_true_iff, !has_member. by apply Hmem. }
    exists [(LinkOrder.m_link o, a)], r, e. split_and!; try done.
    + intros i j Hj. apply (has_equiv i j r d e (fun x y => x && negb y)).
      rewrite andb_true_iff, negb_true_iff, <- not_true_iff_false, !has_member. by apply Hrem.
    + right. exists a. split_and!; try done.
      destruct (proj1 Hspec eq_refl) as (i & j & Hi & Hj & H1 & H2). exists i, j.
      rewrite Hha by done. apply has_member in H1, H2. by rewrite H1, H2.
  - exists [], d, e. assert (forall i j, 0 <= i -> 0 <= j -> has i j d && has i j e = false) as Hno.
    { intros i j Hi Hj. apply not_true_is_false. rewrite andb_true_iff, !has_member. intros [H1 H2].
      destruct Hspec as [_ Hspec]. discriminate Hspec. eauto 10. }
    rewrite app_nil_r. split_and!; try done; [|by left].
    intros i j Hj. destruct (decide (0 <= i)) as [Hi|Hi].
    + specialize (Hno i j Hi Hj). by destruct (has i j d), (has i j e).
    + specialize (Hno 0 j ltac:(lia) Hj). unfold has in *. replace (Z.to_nat i) with (Z.to_nat 0) by lia.
      by destruct (match NetDest.m_bits d !! Z.to_nat 0 with Some s => _ | None => _ end),
        (match NetDest.m_bits e !! Z.to_nat 0 with Some s => _ | None => _ end).
Qed.

(** Some of the first [k] links serves the machine. *)
Definition reachable_by (k : nat) (i j : Z) : bool :=
  existsb (fun l => match vec_at table l with Ok e => has i j e | Err _ => false end) (take k links).

Record route_inv (d : NetDest.t) (k : nat) (outs : list (Z * NetDest.t)) (rest : NetDest.t) : Prop := {
  ri_wf : dest_wf mt rest /\ Forall (fun o => dest_wf mt o.2) outs;
  ri_rest : forall i j, 0 <= j -> has i j rest = has i j d && negb (reachable_by k i j);
  ri_served : forall i j, 0 <= j -> served i j outs = Z.b2z (has i j d && reachable_by k i j);
  ri_entry : forall l b, (l, b) ∈ outs -> exists p e, (p < k)%nat /\ links !! p = Some l /\
    vec_at table l = Ok e /\
    (forall i j, 0 <= j -> has i j b = has i j d && has i j e && negb (reachable_by p i j)) /\
    (exists i j, 0 <= i /\ 0 <= j /\ has i j b = true)
}.

Lemma reachable_by_S k l e i j :
  links !! k = Some l -> vec_at table l = Ok e ->
  reachable_by (S k) i j = reachable_by k i j || has i j e.
Proof.
  intros Hl He. unfold reachable_by. rewrite (take_S_r _ _ _ Hl), existsb_app. cbn.
  rewrite He. by rewrite orb_false_r.
Qed.

Lemma route_inv_start d : dest_wf mt d -> route_inv d 0 [] d.
Proof.
  intros Hd. split; [done| | |].
  - intros i j _. unfold reachable_by. cbn. by rewrite andb_true_r.
  - intros i j _. unfold reachable_by. cbn. by rewrite andb_false_r.
  - intros l b H. by apply not_elem_of_nil in H.
Qed.

Lemma route_step d k outs rest :
  (k < length order)%nat -> route_inv d k outs rest ->
  exists outs' rest', (o ← vec_at order (Z.of_nat k); PerfectSwitch.route_link mt table o (outs, rest))
    = Ok (outs', rest') /\ route_inv d (S k) outs' rest'.
Proof.
  intros Hk [[Hwr Hwo] Hrest Hserved Hentry].
  destruct (lookup_lt_is_Some_2 order k Hk) as [o Ho].
  assert (vec_at order (Z.of_nat k) = Ok o) as -> by (apply vec_at_Ok; rewrite Nat2Z.id; auto with lia).
  cbn [mbind Res_bind].
  destruct (route_link_spec o outs rest) as (new & rest' & e & Hr & He & Hw' & Hr' & Hnew);
    [by eapply list_elem_of_lookup_2|done|].
  assert (links !! k = Some (LinkOrder.m_link o)) as Hl.
  { unfold links. change (map LinkOrder.m_link order) with (LinkOrder.m_link <$> order).
    by rewrite list_lookup_fmap, Ho. }
  exists (outs ++ new), rest'. split; [done|]. split.
  - split; [done|]. apply Forall_app. split; [done|].
    destruct Hnew as [[-> _]|(b & -> & Hb & _)]; [done|by apply Forall_singleton].
  - intros i j Hj. rewrite Hr', Hrest, (reachable_by_S _ _ _ _ _ Hl He) by done.
    rewrite negb_orb. by rewrite andb_assoc.
  - intros i j Hj. unfold served. rewrite total_app. fold (served i j outs). rewrite Hserved by done.
    rewrite (reachable_by_S _ _ _ _ _ Hl He).
    assert (total (fun o => Z.b2z (has i j o.2)) new = Z.b2z (has i j rest && has i j e)) as ->.
    { destruct Hnew as [[-> Hno]|(b & -> & _ & Hb & _)]; cbn.
      - destruct (decide (0 <= i)) as [Hi|Hi]; [by rewrite Hno|].
        specialize (Hno 0 j ltac:(lia) Hj). unfold has in *. replace (Z.to_nat i) with (Z.to_nat 0) by lia.
        by rewrite Hno.
      - rewrite Hb by done. lia. }
    rewrite Hrest by done. by destruct (has i j d), (reachable_by k i j), (has i j e).
  - intros l b [Hin|Hin]%elem_of_app.
    + destruct (Hentry l b Hin) as (p & e' & Hp & ?). exists p, e'. split; [lia|done].
    + destruct Hnew as [[-> _]|(b' & -> & _ & Hb & Hne)]; [by apply not_elem_of_nil in Hin|].
      apply list_elem_of_singleton in Hin as [= -> ->]. exists k, e. split_and!; try done; [lia|].
      intros i j Hj. rewrite Hb, Hrest by done. by destruct (has i j d), (has i j e), (reachable_by k i j).
Qed.

Lemma route_spec d :
  dest_wf mt d ->
  exists outs rest, PerfectSwitch.route mt order table d = Ok (outs, rest) /\
    route_inv d (length order) outs rest.
Proof.
  intros Hd. unfold PerfectSwitch.route.
  destruct (foldM_range_total (fun k st => route_inv d (Z.to_nat k) st.1 st.2)
    (fun i st => o ← vec_at order i; PerfectSwitch.route_link mt table o st)
    0 (zlen table) ([], d)) as ([outs rest] & Hr & Hinv).
  - unfold zlen. lia.
  - by apply route_inv_start.
  - intros i [outs rest] Hi Hinv. rewrite <- order_length in Hi. unfold zlen in Hi.
    destruct (route_step d (Z.to_nat i) outs rest) as (outs' & rest' & Hs & Hinv'); [lia|done|].
    rewrite Z2Nat.id in Hs by lia. exists (outs', rest'). split; [done|]. cbn.
    by replace (Z.to_nat (i + 1)) with (S (Z.to_nat i)) by lia.
  - exists outs, rest. split; [done|]. cbn in Hinv.
    rewrite <- order_length in Hinv. unfold zlen in Hinv. by rewrite Nat2Z.id in Hinv.
Qed.

Lemma reachable_by_all i j : reachable_by (length order) i j = existsb (has i j) table.
Proof.
  unfold reachable_by. rewrite take_ge by (unfold links; by rewrite length_map).
  apply eq_true_iff_eq. rewrite !existsb_exists. split.
  - intros (l & Hl & He). destruct (vec_at table l) as [e|] eqn:E; [|done].
    apply vec_at_Ok in E as [_ E]. exists e. split; [|done].
    apply list_elem_of_In. by eapply list_elem_of_lookup_2.
  - intros (e & He & Hh). apply list_elem_of_In, list_elem_of_lookup in He as [k Hk].
    exists (Z.of_nat k). split.
    + apply list_elem_of_In, elem_links. apply lookup_lt_Some in Hk. unfold zlen. lia.
    + assert (vec_at table (Z.of_nat k) = Ok e) as -> by (apply vec_at_Ok; rewrite Nat2Z.id; auto with lia). done.
Qed.

Lemma reachable_by_false k i j q l e :
  reachable_by k i j = false -> (q < k)%nat -> links !! q = Some l -> vec_at table l = Ok e -> has i j e = false.
Proof.
  unfold reachable_by. intros Hr Hq Hl He. apply not_true_is_false. intros Hh.
  apply not_true_iff_false in Hr. apply Hr, existsb_exists. exists l. rewrite He. split; [|done].
  apply list_elem_of_In, (list_elem_of_lookup_2 _ q). by rewrite lookup_take_lt.
Qed.

(** C21: the loop over the links splits the destinations of a message. It
    always returns; every destination that some link serves is given to
    exactly one link, the first of the order whose table entry has it, and
    the others are left over; a link is only used when it serves something. *)
Theorem route_splits_destinations d :
  dest_wf mt d ->
  exists outs rest, PerfectSwitch.route mt order table d = Ok (outs, rest) /\
    (forall i j, 0 <= j -> served i j outs = Z.b2z (has i j d && existsb (has i j) table)) /\
    (forall i j, 0 <= j -> has i j rest = has i j d && negb (existsb (has i j) table)) /\
    (forall l b, (l, b) ∈ outs -> exists p e, links !! p = Some l /\ vec_at table l = Ok e /\
       (forall i j, 0 <= j -> has i j b = true -> has i j e = true /\
          forall q l' e', (q < p)%nat -> links !! q = Some l' -> vec_at table l' = Ok e' -> has i j e' = false) /\
       (exists i j, 0 <= i /\ 0 <= j /\ has i j b = true)).
Proof.
  intros Hd. destruct (route_spec d Hd) as (outs & rest & Hr & [_ Hrest Hserved Hentry]).
  exists outs, rest. split; [done|]. split; [intros; rewrite Hserved by done; by rewrite reachable_by_all|].
  split; [intros; rewrite Hrest by done; by rewrite reachable_by_all|].
  intros l b Hin. destruct (Hentry l b Hin) as (p & e & _ & Hl & He & Hb & Hne). exists p, e.
  split_and!; try done. intros i j Hj Hh. rewrite Hb in Hh by done.
  apply andb_true_iff in Hh as [[_ Hhe]%andb_true_iff Hn%negb_true_iff]. split; [done|].
  intros q l' e' Hq. by eapply reachable_by_false.
Qed.

End Route.

(** ** What the operations do to the buffers

    An operation is described by its trace: the messages it puts into and
    takes out of buffers and the pending messages it counts down. What else
    it changes (statistics, schedules, units of bandwidth) is left out, and
    the wiring stays. *)

Inductive prim :=
  | Enq (b : nat) (m : Message.t)
  | Deq (b : nat) (m : Message.t)
  | Down (sid vnet : nat).

(** The messages of the buffers and the counters of the switches. *)
Definition heaps (n : Simple.t) : list (list Message.t) :=
  map MessageBuffer.m_prio_heap (Simple.msgbufs n).
Definition pends (n : Simple.t) : list (list Z) :=
  map (fun s => PerfectSwitch.m_pending_message_count (Switch.m_perfect_switch s)) (Simple.m_switches n).

Record switch_wire := mk_switch_wire {
  w_in : list (list (option Z));
  w_out : list (list Z);
  w_table : list NetDest.t;
  w_throttles : list (list Z * list (option Z))
}.

(** What no operation changes: the consumer and virtual network of every
    buffer, the ports and tables of the switches, the base class, the time. *)
Record wiring := mk_wiring {
  w_bufs : list (option consumer * Z);
  w_switches : list switch_wire;
  w_base : NetworkBase.t;
  w_now : Z
}.

Definition buf_wire (b : MessageBuffer.t) : option consumer * Z :=
  (MessageBuffer.m_consumer b, MessageBuffer.m_vnet_id b).

Definition sw_wire (s : Switch.t) : switch_wire :=
  let p := Switch.m_perfect_switch s in
  mk_switch_wire (PerfectSwitch.m_in p) (PerfectSwitch.m_out p) (PerfectSwitch.m_routing_table p)
    (map (fun th => (Throttle.m_in th, Throttle.m_out th)) (Switch.m_throttles s)).

Definition wire_of (n : Simple.t) : wiring :=
  mk_wiring (map buf_wire (Simple.msgbufs n)) (map sw_wire (Simple.m_switches n))
    (Simple.base n) (Simple.now n).

(** Every switch names each of its links once in its order. *)
Definition switch_order_ok (s : Switch.t) : Prop :=
  let p := Switch.m_perfect_switch s in
  order_ok (PerfectSwitch.m_link_order p) (PerfectSwitch.m_routing_table p).

Definition orders_ok (n : Simple.t) : Prop := Forall switch_order_ok (Simple.m_switches n).

Definition abs_state : Type := list (list Message.t) * list (list Z).
Definition abs (n : Simple.t) : abs_state := (heaps n, pends n).

(** Counter [v] of switch [sid] changes by [d]. *)
Definition count_by (d : Z) (sid v : nat) (ps ps' : list (list Z)) : Prop :=
  exists l x, ps !! sid = Some l /\ l !! v = Some x /\ ps' = <[sid := <[v := x + d]> l]> ps.

(** A message for a switch is counted. *)
Definition counted_in (c : option consumer * Z) (ps ps' : list (list Z)) : Prop :=
  match c with
  | (Some (CPerfectSwitch sid), v) => count_by 1 (Z.to_nat sid) (Z.to_nat v) ps ps'
  | _ => ps' = ps
  end.

Inductive prim_step (W : wiring) : prim -> abs_state -> abs_state -> Prop :=
  | step_enq b m c h h' hs ps ps' :
      hs !! b = Some h -> w_bufs W !! b = Some c -> h' ≡ₚ m :: h ->
      w_now W < Message.m_LastEnqueueTime m -> counted_in c ps ps' ->
      prim_step W (Enq b m) (hs, ps) (<[b := h']> hs, ps')
  | step_deq b m h h' hs ps :
      hs !! b = Some h -> m :: h' ≡ₚ h -> Message.m_LastEnqueueTime m <= w_now W ->
      prim_step W (Deq b m) (hs, ps) (<[b := h']> hs, ps)
  | step_down sid v hs ps ps' :
      count_by (-1) sid v ps ps' -> prim_step W (Down sid v) (hs, ps) (hs, ps').

Inductive trace (W : wiring) : list prim -> abs_state -> abs_state -> Prop :=
  | trace_nil a : trace W [] a a
  | trace_cons p tr a a1 a2 : prim_step W p a a1 -> trace W tr a1 a2 -> trace W (p :: tr) a a2.

Lemma trace_app W t1 t2 a b c : trace W t1 a b -> trace W t2 b c -> trace W (t1 ++ t2) a c.
Proof. induction 1; [done|]. intros. econstructor; eauto. Qed.

Lemma trace_one W p a b : prim_step W p a b -> trace W [p] a b.
Proof. intros. econstructor; [done|constructor]. Qed.

Definition does (tr : list prim) (n n' : Simple.t) : Prop :=
  wire_of n' = wire_of n /\ (orders_ok n -> orders_ok n') /\ trace (wire_of n) tr (abs n) (abs n').

Lemma does_trans t1 t2 tr a b c : does t1 a b -> does t2 b c -> tr = t1 ++ t2 -> does tr a c.
Proof.
  intros (W1 & O1 & T1) (W2 & O2 & T2) ->. rewrite W1 in *.
  split_and!; [done|auto|by eapply trace_app].
Qed.

Lemma does_quiet n n' :
  abs n' = abs n -> wire_of n' = wire_of n -> (orders_ok n -> orders_ok n') -> does [] n n'.
Proof. intros Ha Hw Ho. split_and!; [done|done|]. rewrite Ha. constructor. Qed.

Lemma does_refl n : does [] n n.
Proof. by apply does_quiet. Qed.

Lemma does_eq n n' :
  Simple.msgbufs n' = Simple.msgbufs n -> Simple.m_switches n' = Simple.m_switches n ->
  Simple.base n' = Simple.base n -> Simple.now n' = Simple.now n -> does [] n n'.
Proof.
  intros H1 H2 H3 H4. apply does_quiet; unfold abs, heaps, pends, wire_of, orders_ok; by rewrite ?H1, ?H2, ?H3, ?H4.
Qed.

Lemma schedule_does c k n : does [] n (Simple.schedule c k n).
Proof. by apply does_eq. Qed.

Lemma map_lookup {A B} (g : A -> B) l i x : l !! i = Some x -> map g l !! i = Some (g x).
Proof. intros H. change (map g) with (fmap (M := list) g). by rewrite list_lookup_fmap, H. Qed.

(** *** Writes *)

Lemma upd_buffer_quiet b f n n' :
  (forall x y, f x = Ok y -> MessageBuffer.m_prio_heap y = MessageBuffer.m_prio_heap x /\ buf_wire y = buf_wire x) ->
  Simple.upd_buffer b f n = Ok n' -> does [] n n'.
Proof.
  intros Hf H. unfold Simple.upd_buffer in H. inv_bind H. simplify_res.
  apply vec_upd_inv in E as (x & y & Hx & Hy & ->). apply vec_at_Ok in Hx as [_ Hx].
  destruct (Hf _ _ Hy) as [H1 H2].
  apply does_quiet; [|unfold wire_of; cbn; f_equal; by eapply map_insert_same|done].
  unfold abs. f_equal. by eapply map_insert_same.
Qed.

Lemma upd_buffer_const_quiet b x y n n' :
  Simple.buffer b n = Ok x -> MessageBuffer.m_prio_heap y = MessageBuffer.m_prio_heap x ->
  buf_wire y = buf_wire x -> Simple.upd_buffer b (fun _ => Ok y) n = Ok n' -> does [] n n'.
Proof.
  intros Hb H1 H2 H. unfold Simple.upd_buffer in H. inv_bind H. simplify_res.
  apply vec_upd_inv in E as (x' & y' & Hx & Hy & ->). unfold Simple.buffer in Hb. rewrite Hx in Hb.
  simplify_res. apply vec_at_Ok in Hx as [_ Hx].
  apply does_quiet; [|unfold wire_of; cbn; f_equal; by eapply map_insert_same|done].
  unfold abs. f_equal. by eapply map_insert_same.
Qed.

Lemma upd_switch_quiet sid f n n' :
  (forall s s', Simple.switch sid n = Ok s -> f s = Ok s' -> sw_wire s' = sw_wire s /\
     PerfectSwitch.m_pending_message_count (Switch.m_perfect_switch s')
     = PerfectSwitch.m_pending_message_count (Switch.m_perfect_switch s) /\
     (switch_order_ok s -> switch_order_ok s')) ->
  Simple.upd_switch sid f n = Ok n' -> does [] n n'.
Proof.
  intros Hf H. unfold Simple.upd_switch in H. inv_bind H. simplify_res.
  apply vec_upd_inv in E as (x & y & Hx & Hy & ->).
  destruct (Hf _ _ Hx Hy) as (H1 & H2 & H3). apply vec_at_Ok in Hx as [_ Hx]. apply does_quiet.
  - unfold abs. f_equal. unfold pends. cbn. by eapply map_insert_same.
  - unfold wire_of. cbn. f_equal. by eapply map_insert_same.
  - unfold orders_ok. cbn. intros Ho. apply Forall_insert; [done|]. by eapply H3, Forall_lookup_1.
Qed.

Lemma upd_perfect_quiet sid f n n' :
  (forall p p', f p = Ok p' -> PerfectSwitch.m_in p' = PerfectSwitch.m_in p /\
     PerfectSwitch.m_out p' = PerfectSwitch.m_out p /\
     PerfectSwitch.m_routing_table p' = PerfectSwitch.m_routing_table p /\
     PerfectSwitch.m_pending_message_count p' = PerfectSwitch.m_pending_message_count p /\
     PerfectSwitch.m_link_order p' = PerfectSwitch.m_link_order p) ->
  Simple.upd_perfect sid f n = Ok n' -> does [] n n'.
Proof.
  intros Hf. apply upd_switch_quiet. intros s s' _ H. inv_bind H. simplify_res.
  destruct (Hf _ _ E) as (H1 & H2 & H3 & H4 & H5).
  unfold sw_wire, switch_order_ok. cbn. by rewrite H1, H2, H3, H4, H5.
Qed.

Lemma upd_throttle_quiet sid k f n n' :
  (forall th th', f th = Ok th' -> Throttle.m_in th' = Throttle.m_in th /\ Throttle.m_out th' = Throttle.m_out th) ->
  Simple.upd_throttle sid k f n = Ok n' -> does [] n n'.
Proof.
  intros Hf. apply upd_switch_quiet. intros s s' _ H. inv_bind H. simplify_res.
  apply vec_upd_inv in E as (x & y & Hx & Hy & ->). apply vec_at_Ok in Hx as [_ Hx].
  destruct (Hf _ _ Hy) as [H1 H2]. split; [|done]. unfold sw_wire. cbn. f_equal.
  eapply map_insert_same; [done|]. by rewrite H1, H2.
Qed.

Lemma slot_available_quiet b n r n' : Simple.slot_available b n = Ok (r, n') -> does [] n n'.
Proof.
  unfold Simple.slot_available. intros H. inv_bind H. destruct (MessageBuffer.areNSlotsAvailable _ _ _) eqn:Ha.
  inv_bind H. simplify_res. eapply upd_buffer_const_quiet in E0; [done|exact E|..];
    unfold MessageBuffer.areNSlotsAvailable in Ha; repeat case_match; simplify_eq; done.
Qed.

Lemma count_by_upd d sid v n n' :
  Simple.upd_perfect sid (fun p => l ← vec_upd (PerfectSwitch.m_pending_message_count p) v (fun k => Ok (k + d));
                                   Ok (PerfectSwitch.set_pending l p)) n = Ok n' ->
  count_by d (Z.to_nat sid) (Z.to_nat v) (pends n) (pends n') /\
  Simple.msgbufs n' = Simple.msgbufs n /\ wire_of n' = wire_of n /\ (orders_ok n -> orders_ok n').
Proof.
  intros H. unfold Simple.upd_perfect, Simple.upd_switch in H. inv_bind H. simplify_res.
  apply vec_upd_inv in E as (s & s' & Hs & Hf & ->). apply vec_at_Ok in Hs as [_ Hs].
  inv_bind Hf. simplify_res. inv_bind E. simplify_res.
  apply vec_upd_inv in E0 as (x & y & Hx & Hy & ->). apply vec_at_Ok in Hx as [_ Hx]. simplify_res.
  split_and!.
  - exists (PerfectSwitch.m_pending_message_count (Switch.m_perfect_switch s)), x.
    unfold pends. cbn. rewrite map_insert. cbn. split_and!; [exact (map_lookup (fun s => PerfectSwitch.m_pending_message_count (Switch.m_perfect_switch s)) _ _ _ Hs)|done|done].
  - done.
  - unfold wire_of. cbn. f_equal. by eapply map_insert_same.
  - unfold orders_ok. cbn. intros Ho. apply Forall_insert; [done|].
    by pose proof (Forall_lookup_1 _ _ _ _ Ho Hs).
Qed.

(** *** Enqueue and dequeue *)

Lemma storeEventInfo_effect c v n n' :
  Simple.storeEventInfo c v n = Ok n' ->
  counted_in (Some c, v) (pends n) (pends n') /\ Simple.msgbufs n' = Simple.msgbufs n /\
  wire_of n' = wire_of n /\ (orders_ok n -> orders_ok n').
Proof.
  destruct c; cbn; intros H; simplify_res; try done. by apply count_by_upd in H.
Qed.

Section Operations.
Context (mt : MachineTypes) (rnd warm : bool) (sort : list LinkOrder.t -> list LinkOrder.t)
  (getMessageSize : Message.t -> MessageSizeType).

Lemma enqueue_wire rt m ct delta b b' c t :
  MessageBuffer.enqueue rnd warm rt m ct delta b = Ok (b', (c, t)) ->
  MessageBuffer.m_vnet_id b' = MessageBuffer.m_vnet_id b /\ MessageBuffer.m_consumer b' = MessageBuffer.m_consumer b.
Proof.
  unfold MessageBuffer.enqueue. intros H.
  set (b0 := if _ <? _ then _ else _) in H.
  assert (MessageBuffer.m_vnet_id b0 = MessageBuffer.m_vnet_id b /\ MessageBuffer.m_consumer b0 = MessageBuffer.m_consumer b)
    as [<- <-] by (subst b0; by destruct (_ <? _)).
  clearbody b0. inv_bind H. set (b1 := MessageBuffer.set_enqueue_time _ _ _) in H.
  destruct (MessageBuffer.arrival_time _ _ _ _ _) as [arr b2] eqn:Ha.
  assert (MessageBuffer.m_vnet_id b2 = MessageBuffer.m_vnet_id b0 /\ MessageBuffer.m_consumer b2 = MessageBuffer.m_consumer b0)
    as [<- <-].
  { unfold MessageBuffer.arrival_time in Ha. repeat case_match; by simplify_eq. }
  clear Ha. inv_bind H. inv_bind H. inv_bind H. inv_bind H.
  destruct warm; cbn in H; destruct (MessageBuffer.m_consumer b2) eqn:Ec; by simplify_res.
Qed.

Lemma enqueue_does b m delta n n' :
  Simple.enqueue rnd warm b m delta n = Ok n' ->
  exists m', does [Enq (Z.to_nat b) m'] n n' /\ same_message m m'.
Proof.
  unfold Simple.enqueue. intros H. inv_bind H. rename a into x. inv_bind H. destruct a as [y [c t]].
  inv_bind H. rename a into n1. unfold Simple.upd_buffer in E1. inv_bind E1. simplify_res.
  apply vec_upd_inv in E2 as (x' & y' & Hx & Hy & ->). cbn in Hx.
  unfold Simple.buffer in E. rewrite E in Hx. simplify_res. apply vec_at_Ok in E as [_ Hx].
  pose proof (enqueue_wire _ _ _ _ _ _ _ _ E0) as [Hv Hc].
  apply enqueue_inv in E0 as (m' & Hh & Hs & Ht & _ & Hlt & Hcx & _).
  exists m'. split; [|done].
  apply storeEventInfo_effect in H as (Hp & Hm & Hw & Ho). cbn in Hm.
  assert (wire_of n' = wire_of n) as HW.
  { rewrite Hw. unfold wire_of. cbn. f_equal. eapply map_insert_same; [done|].
    unfold buf_wire. by rewrite Hv, Hc. }
  split; [done|]. split; [done|]. apply trace_one. unfold abs, heaps. rewrite Hm, map_insert.
  eapply step_enq.
  - by apply map_lookup.
  - by apply map_lookup.
  - rewrite Hh, push_heap_Permutation. by rewrite (Permutation_app_comm _ [m']).
  - cbn. lia.
  - unfold buf_wire. rewrite Hcx, <- Hv. exact Hp.
Qed.

Lemma dequeue_wire ct dec b delay b' cb :
  MessageBuffer.dequeue ct dec b = Ok (delay, b', cb) -> buf_wire b' = buf_wire b.
Proof.
  unfold MessageBuffer.dequeue. intros H. inv_bind H. inv_bind H. inv_bind H.
  destruct dec, (_ <? _); by simplify_res.
Qed.

Lemma dequeue_does b n m n' :
  Simple.dequeue b n = Ok (m, n') ->
  exists x m0, Simple.buffer b n = Ok x /\ MessageBuffer.peekMsgPtr x = Ok m0 /\
    does [Deq (Z.to_nat b) m0] n n' /\ same_message m0 m.
Proof.
  unfold Simple.dequeue. intros H. inv_bind H. rename a into x. inv_bind H. rename a into m0.
  inv_bind H. destruct a as [[delay y] cb]. inv_bind H. rename a into m1. inv_bind H. rename a into n1.
  simplify_res. exists x, m0. split; [done|]. split; [done|].
  split; [|unfold Message.updateDelayedTicks in E2; inv_bind E2; by simplify_res].
  eapply (does_trans [Deq (Z.to_nat b) m0] []); [|destruct cb; [apply schedule_does|apply does_refl]|done].
  unfold Simple.upd_buffer in E3. inv_bind E3. simplify_res.
  apply vec_upd_inv in E4 as (x' & y' & Hx & Hy & ->). unfold Simple.buffer in E. rewrite E in Hx.
  injection Hx as <-. injection Hy as <-. apply vec_at_Ok in E as [_ Hx].
  pose proof (dequeue_wire _ _ _ _ _ _ E1) as Hw.
  apply dequeue_inv in E1 as (m1' & l & Hh & Hle & Hp & _).
  unfold MessageBuffer.peekMsgPtr in E0. rewrite Hh in E0. injection E0 as <-.
  split; [|split; [done|]].
  - unfold wire_of. cbn. f_equal. by eapply map_insert_same.
  - apply trace_one. unfold abs, heaps. cbn. rewrite map_insert. eapply step_deq; [by apply map_lookup| |done].
    rewrite Hp, Hh. apply pop_heap_back_Permutation.
Qed.

(** *** The perfect switch *)

Hypothesis sort_permutes : forall l, sort l ≡ₚ l.

Lemma perfect_wire sid n ps :
  Simple.perfect_switch sid n = Ok ps ->
  exists w, w_switches (wire_of n) !! Z.to_nat sid = Some w /\ w_in w = PerfectSwitch.m_in ps /\
    w_out w = PerfectSwitch.m_out ps /\ w_table w = PerfectSwitch.m_routing_table ps.
Proof.
  unfold Simple.perfect_switch, Simple.switch. intros H. inv_bind H. simplify_res.
  apply vec_at_Ok in E as [_ E]. eexists. split; [by apply map_lookup|done].
Qed.

(** Two states with the same wiring have the same ports and tables. *)
Lemma perfect_same sid n n' ps ps' :
  wire_of n' = wire_of n -> Simple.perfect_switch sid n = Ok ps -> Simple.perfect_switch sid n' = Ok ps' ->
  PerfectSwitch.m_out ps' = PerfectSwitch.m_out ps /\
  PerfectSwitch.m_routing_table ps' = PerfectSwitch.m_routing_table ps.
Proof.
  intros HW (w & Hw & _ & H1 & H2)%perfect_wire (w' & Hw' & _ & H1' & H2')%perfect_wire.
  rewrite HW, Hw in Hw'. simplify_eq. split; congruence.
Qed.

Lemma perfect_order_ok sid n ps :
  orders_ok n -> Simple.perfect_switch sid n = Ok ps ->
  order_ok (PerfectSwitch.m_link_order ps) (PerfectSwitch.m_routing_table ps).
Proof.
  unfold Simple.perfect_switch, Simple.switch. intros Ho H. inv_bind H. simplify_res.
  apply vec_at_Ok in E as [_ E]. by pose proof (Forall_lookup_1 _ _ _ _ Ho E).
Qed.

Lemma foldM_does {A S} (net : S -> Simple.t) (f : A -> S -> Res S) l s s' :
  (forall a s1 s2, f a s1 = Ok s2 -> does [] (net s1) (net s2)) ->
  foldM f l s = Ok s' -> does [] (net s) (net s').
Proof.
  intros Hf. apply (foldM_preserve (fun x => does [] (net s) (net x))); [apply does_refl|].
  intros a s1 s2 _ Hs H. by eapply (does_trans [] []); [exact Hs|by eapply Hf|].
Qed.

Lemma out_queue_length_does out vnets n len n' :
  Simple.out_queue_length out vnets n = Ok (len, n') -> does [] n n'.
Proof.
  unfold Simple.out_queue_length. intros H. apply (foldM_does snd) in H; [done|].
  intros v [l1 n1] [l2 n2] Hf. inv_bind Hf. inv_bind Hf.
  destruct (MessageBuffer.getSize _ _) as [size y] eqn:Hg. inv_bind Hf. simplify_res.
  eapply upd_buffer_const_quiet in E1; [done|exact E0|..];
    unfold MessageBuffer.getSize in Hg; repeat case_match; by simplify_eq.
Qed.

Lemma link_value_spec ps out order n order' n' :
  Simple.link_value ps out (order, n) = Ok (order', n') ->
  map LinkOrder.m_link order' = map LinkOrder.m_link order ++ [out] /\ does [] n n'.
Proof.
  unfold Simple.link_value. intros H. inv_bind H. inv_bind H. destruct a0 as [len n1].
  cbn in H. simplify_res. rewrite map_app. split; [done|].
  eapply (does_trans [] []); [by eapply out_queue_length_does|by apply does_eq|done].
Qed.

Lemma order_links_does sid v n n' ps :
  Simple.perfect_switch sid n = Ok ps ->
  zlen (PerfectSwitch.m_out ps) = zlen (PerfectSwitch.m_routing_table ps) ->
  Simple.order_links sort sid v n = Ok n' -> does [] n n'.
Proof.
  intros Hps Hlen H. unfold Simple.order_links in H.
  destruct (Simple.m_adaptive_routing n); [|simplify_res; apply does_refl].
  rewrite Hps in H. cbn [mbind Res_bind] in H. inv_bind H. inv_bind H. destruct a0 as [order n1].
  assert (map LinkOrder.m_link order ≡ₚ range 0 (zlen (PerfectSwitch.m_out ps)) /\ does [] n n1) as [Ho D].
  { destruct a.
    - injection E0 as <- <-. split; [|apply does_refl]. by rewrite map_map, map_id.
    - inv_bind E0. destruct a as [o1 n2]. injection E0 as <- <-.
      apply (foldM_range_inv (fun k st => map LinkOrder.m_link st.1 = range 0 k /\ does [] n st.2)) in E1.
      + destruct E1 as [Hm D]. split; [|exact D]. rewrite <- Hm. by rewrite (sort_permutes o1).
      + unfold zlen. lia.
      + split; [done|apply does_refl].
      + intros i [o2 n3] [o4 n5] Hi [Hm D] [Hv D']%link_value_spec. cbn in *. split.
        * rewrite Hv, Hm. by rewrite range_snoc by lia.
        * by eapply (does_trans [] []). }
  eapply (does_trans [] []); [exact D| |done].
  eapply upd_switch_quiet; [|exact H]. intros s s' Hs Hf. cbn in Hf. simplify_res. split; [done|].
  split; [done|]. intros _. unfold switch_order_ok, order_ok, links. cbn.
  assert (PerfectSwitch.m_routing_table (Switch.m_perfect_switch s) = PerfectSwitch.m_routing_table ps) as ->.
  { destruct D as [HW _]. eapply (perfect_same sid); [exact HW|exact Hps|].
    unfold Simple.perfect_switch. by rewrite Hs. }
  by rewrite <- Hlen.
Qed.

Lemma check_slots_does sid v outs n r n' :
  Simple.check_slots sid v outs n = Ok (r, n') -> does [] n n'.
Proof.
  unfold Simple.check_slots. intros H. apply (foldM_does snd) in H; [done|].
  intros o [e1 n1] [e2 n2] Hf. inv_bind Hf. inv_bind Hf. destruct a0 as [av n3]. simplify_res.
  by eapply slot_available_quiet.
Qed.

(** [e] carries message [m] for the destinations of [o]. *)
Definition copy_of (m : Message.t) (o : Z * NetDest.t) (e : nat * Message.t) : Prop :=
  same_message (Message.set_dest o.2 m) e.2.

Definition enqs (l : list (nat * Message.t)) : list prim := map (fun e => Enq e.1 e.2) l.

Lemma send_does sid v m o n n' :
  Simple.send rnd warm sid v m o n = Ok n' -> exists e, does [Enq e.1 e.2] n n' /\ copy_of m o e.
Proof.
  unfold Simple.send. intros H. inv_bind H. apply enqueue_does in H as (m' & D & Hs).
  by exists (Z.to_nat a, m').
Qed.

Lemma send_rest_does sid v m outs n n' :
  foldM (Simple.send rnd warm sid v m) outs n = Ok n' ->
  exists l, does (enqs l) n n' /\ Forall2 (copy_of m) outs l.
Proof.
  revert n. induction outs as [|o outs IH]; intros n H; cbn in H.
  - simplify_res. exists []. split; [apply does_refl|constructor].
  - inv_bind H. apply send_does in E as (e & D & He). apply IH in H as (l & D' & Hl).
    exists (e :: l). split; [by eapply does_trans|by constructor].
Qed.

Lemma send_all_does sid v msg m outs n n' :
  same_message m msg -> Simple.send_all rnd warm sid v msg m outs n = Ok n' ->
  exists l, does (enqs l) n n' /\ Forall2 (copy_of m) outs l.
Proof.
  intros Hs H. destruct outs as [|o outs]; cbn in H.
  - simplify_res. exists []. split; [apply does_refl|constructor].
  - inv_bind H. apply send_does in E as (e & D & He). apply send_rest_does in H as (l & D' & Hl).
    exists (e :: l). split; [by eapply does_trans|]. constructor; [|done].
    unfold copy_of, same_message in *. cbn in *. naive_solver congruence.
Qed.

(** *** Blocks of a trace

    A switch takes a message out of an input buffer and sends copies whose
    destinations make up those of the message; a throttle takes a message
    and puts it into the buffer at the end of the link. *)

Context `{!MachineTypesOk mt}.

Definition routed (m : Message.t) (l : list (nat * Message.t)) : Prop :=
  Forall (fun e => dest_wf mt (Message.m_dest e.2) /\ Message.m_payload e.2 = Message.m_payload m /\
                   Message.m_time e.2 = Message.m_time m) l /\
  forall i j, 0 <= j < NUMBER_BITS_PER_SET ->
    total (fun e => Z.b2z (has i j (Message.m_dest e.2))) l = Z.b2z (has i j (Message.m_dest m)).

(** Buffer [buf] is an input of switch [sid] for virtual network [v]. *)
Definition input_of (W : wiring) (sid v : nat) (buf : Z) : Prop :=
  exists w p ins, w_switches W !! sid = Some w /\ w_in w !! p = Some ins /\ ins !! v = Some (Some buf).

(** Buffer [buf] is the input of a throttle. *)
Definition throttled (W : wiring) (buf : Z) : Prop :=
  exists sid w th, w_switches W !! sid = Some w /\ th ∈ w_throttles w /\ buf ∈ th.1.

Inductive block (W : wiring) : list prim -> Prop :=
  | switch_block sid v buf m l :
      input_of W sid v buf -> routed m l ->
      block W (Deq (Z.to_nat buf) m :: Down sid v :: enqs l)
  | throttle_block buf out m m' :
      throttled W buf -> dest_wf mt (Message.m_dest m) -> same_message m m' ->
      block W [Deq (Z.to_nat buf) m; Enq out m'].

Definition tables_wf (W : wiring) : Prop := Forall (fun w => Forall (dest_wf mt) (w_table w)) (w_switches W).

Definition msgs_wf (hs : list (list Message.t)) : Prop := Forall (Forall (fun m => dest_wf mt (Message.m_dest m))) hs.

Definition good (n : Simple.t) : Prop := orders_ok n /\ tables_wf (wire_of n) /\ msgs_wf (heaps n).

(** [n'] comes from [n] by blocks. *)
Definition moves (n n' : Simple.t) : Prop :=
  good n -> good n' /\ exists ls, Forall (block (wire_of n)) ls /\ does (concat ls) n n'.

Lemma prim_msgs_wf W p a a' :
  (forall b m, p = Enq b m -> dest_wf mt (Message.m_dest m)) ->
  prim_step W p a a' -> msgs_wf a.1 -> msgs_wf a'.1.
Proof.
  intros Hp Hs Ha. destruct Hs as [b m c h h' hs ps ps' Hh _ Hperm _ _|b m h h' hs ps Hh Hperm _|]; cbn in *; [..|done].
  - apply Forall_insert; [done|]. rewrite Hperm. constructor; [by eapply Hp|by eapply Forall_lookup_1 in Ha].
  - apply Forall_insert; [done|]. eapply Forall_lookup_1 in Ha; [|done]. rewrite <- Hperm in Ha. by inversion Ha.
Qed.

Lemma trace_msgs_wf W tr a a' :
  (forall b m, Enq b m ∈ tr -> dest_wf mt (Message.m_dest m)) ->
  trace W tr a a' -> msgs_wf a.1 -> msgs_wf a'.1.
Proof.
  intros Hp Ht. induction Ht as [|p tr a a1 a2 Hs _ IH]; [done|]. intros Ha. apply IH.
  - intros b m H. eapply Hp. by right.
  - eapply prim_msgs_wf; [|done|done]. intros b m ->. eapply Hp. left.
Qed.

Lemma block_enq_wf W tr b m : block W tr -> Enq b m ∈ tr -> dest_wf mt (Message.m_dest m).
Proof.
  intros [sid v buf m0 l _ [Hl _]|buf out m0 m' _ Hm Hs] Hin.
  - apply elem_of_cons in Hin as [?|Hin]; [done|]. apply elem_of_cons in Hin as [?|Hin]; [done|].
    apply list_elem_of_fmap in Hin as (e & [= -> ->] & He). rewrite Forall_forall in Hl. by apply Hl.
  - apply elem_of_cons in Hin as [?|Hin]; [done|]. apply list_elem_of_singleton in Hin as [= -> ->].
    destruct Hs as [-> _]. done.
Qed.

Lemma does_moves ls n n' : (good n -> Forall (block (wire_of n)) ls) -> does (concat ls) n n' -> moves n n'.
Proof.
  intros Hb D Hg. specialize (Hb Hg). destruct Hg as (Ho & Ht & Hm). pose proof D as (HW & HO & HT).
  split; [|by exists ls]. split_and!; [auto|by rewrite HW|].
  eapply (trace_msgs_wf _ _ (abs n) (abs n')); [|exact HT|done].
  intros b m Hin. apply list_elem_of_In, in_concat in Hin as (tr & Htr & Hin%list_elem_of_In).
  apply list_elem_of_In in Htr. rewrite Forall_forall in Hb. by eapply block_enq_wf; [apply Hb|].
Qed.

Lemma quiet_moves n n' : does [] n n' -> moves n n'.
Proof. intros D. apply (does_moves []); [by constructor|done]. Qed.

Lemma moves_wire n n' : moves n n' -> good n -> wire_of n' = wire_of n.
Proof. intros H Hg. destruct (H Hg) as (_ & ls & _ & HW & _). done. Qed.

#[local] Instance moves_preorder : PreOrder moves.
Proof.
  split; [intros n; apply quiet_moves, does_refl|].
  intros n1 n2 n3 H1 H2 Hg. pose proof (moves_wire _ _ H1 Hg) as HW.
  destruct (H1 Hg) as (Hg2 & l1 & B1 & D1). destruct (H2 Hg2) as (Hg3 & l2 & B2 & D2).
  split; [done|]. exists (l1 ++ l2). rewrite HW in B2. split; [by apply Forall_app|].
  rewrite concat_app. by eapply does_trans.
Qed.

Lemma foldM_moves {A S} (net : S -> Simple.t) (f : A -> S -> Res S) l s s' :
  (forall a s1 s2, f a s1 = Ok s2 -> moves (net s1) (net s2)) ->
  foldM f l s = Ok s' -> moves (net s) (net s').
Proof.
  intros Hf. apply (foldM_preserve (fun x => moves (net s) (net x))); [done|].
  intros a s1 s2 _ Hs H. etrans; [exact Hs|by eapply Hf].
Qed.

(** The copies [route] makes of a message, when no destination is left. *)
Lemma routed_copies order table m outs rest l :
  Forall (dest_wf mt) table -> order_ok order table -> dest_wf mt (Message.m_dest m) ->
  PerfectSwitch.route mt order table (Message.m_dest m) = Ok (outs, rest) -> NetDest.count rest = 0 ->
  Forall2 (copy_of m) outs l -> routed m l.
Proof.
  intros Ht Ho Hm Hr Hc Hl.
  destruct (route_spec mt order table Ht Ho _ Hm) as (outs' & rest' & Hr' & [[_ Hwo] Hrest Hserved _]).
  rewrite Hr in Hr'. simplify_res. split.
  - clear Hserved Hr. induction Hl as [|o e outs l (Hd & Hp & Htm) _ IH]; constructor.
    + inversion Hwo; subst. cbn in *. by rewrite Hd.
    + inversion Hwo; subst. by apply IH.
  - intros i j Hj. pose proof (count_zero _ Hc i j Hj) as Hz. rewrite Hrest in Hz by lia.
    specialize (Hserved i j ltac:(lia)). unfold served in Hserved.
    transitivity (total (fun o : Z * NetDest.t => Z.b2z (has i j o.2)) outs').
    + clear - Hl. induction Hl as [|o e outs l (Hd & _) _ IH]; cbn; [done|]. rewrite IH. cbn in Hd. by rewrite Hd.
    + rewrite Hserved. by destruct (has i j (Message.m_dest m)), (reachable_by _ _ _ _ _).
Qed.

Lemma upd_down_does sid v n n' :
  Simple.upd_perfect sid (PerfectSwitch.count_down v) n = Ok n' ->
  does [Down (Z.to_nat sid) (Z.to_nat v)] n n'.
Proof.
  intros (Hp & Hm & HW & Ho)%(count_by_upd (-1)). split; [done|]. split; [done|].
  apply trace_one. unfold abs, heaps. rewrite Hm. by constructor.
Qed.

(** The heads of the buffers are the same after a quiet operation. *)
Lemma quiet_heaps n n' : does [] n n' -> heaps n' = heaps n.
Proof. intros (_ & _ & H). inversion H. unfold abs in *. congruence. Qed.

Lemma buffer_heap b n x : Simple.buffer b n = Ok x -> heaps n !! Z.to_nat b = Some (MessageBuffer.m_prio_heap x).
Proof. unfold Simple.buffer. intros [_ H]%vec_at_Ok. by apply map_lookup. Qed.

Lemma peek_same b n n' x x' m m' :
  heaps n' = heaps n -> Simple.buffer b n = Ok x -> Simple.buffer b n' = Ok x' ->
  MessageBuffer.peekMsgPtr x = Ok m -> MessageBuffer.peekMsgPtr x' = Ok m' -> m' = m.
Proof.
  intros Hh Hx%buffer_heap Hx'%buffer_heap. rewrite Hh, Hx in Hx'. injection Hx' as Hx'.
  unfold MessageBuffer.peekMsgPtr. rewrite Hx'. repeat case_match; congruence.
Qed.

Lemma peek_wf b n x m :
  msgs_wf (heaps n) -> Simple.buffer b n = Ok x -> MessageBuffer.peekMsgPtr x = Ok m -> dest_wf mt (Message.m_dest m).
Proof.
  intros Hw Hx%buffer_heap Hm. eapply Forall_lookup_1 in Hw; [|exact Hx].
  unfold MessageBuffer.peekMsgPtr in Hm. destruct (MessageBuffer.m_prio_heap x); [done|]. simplify_res. by inversion Hw.
Qed.

(** What an iteration of the loop of a switch does: nothing when a buffer is
    full, else the head of the buffer leaves it in copies. *)
Lemma operate_message_does sid buf v n go n' :
  Simple.operate_message mt rnd warm sort sid buf v n = Ok (go, n') ->
  if go then
    exists x m l order table outs rest, Simple.buffer buf n = Ok x /\ MessageBuffer.peekMsgPtr x = Ok m /\
      (tables_wf (wire_of n) -> Forall (dest_wf mt) table) /\ (orders_ok n -> order_ok order table) /\
      PerfectSwitch.route mt order table (Message.m_dest m) = Ok (outs, rest) /\
      NetDest.count rest = 0 /\ Forall2 (copy_of m) outs l /\
      does (Deq (Z.to_nat buf) m :: Down (Z.to_nat sid) (Z.to_nat v) :: enqs l) n n'
  else does [] n n'.
Proof.
  intros H. unfold Simple.operate_message in H. inv_bind H. rename a into x. inv_bind H. rename a into m.
  inv_bind H. rename a into ps. inv_bind H. inv_bind H. inv_bind H. rename a1 into n1. inv_bind H.
  rename a1 into ps1. inv_bind H. destruct a1 as [outs rest]. inv_bind H. inv_bind H. destruct a2 as [en n2].
  unfold assert_ in E2, E3, E7. destruct (_ =? _) eqn:L1 in E2; [|done].
  destruct (_ =? _) eqn:L2 in E3; [|done]. destruct (_ =? _) eqn:L3 in E7; [|done]. zbool.
  assert (zlen (PerfectSwitch.m_out ps) = zlen (PerfectSwitch.m_routing_table ps)) as Hlen by congruence.
  pose proof (order_links_does _ _ _ _ _ E1 Hlen E4) as D1.
  pose proof (check_slots_does _ _ _ _ _ _ E8) as D2.
  pose proof (does_trans [] [] [] _ _ _ D1 D2 eq_refl) as D12.
  destruct en; cbn [negb] in H.
  2:{ simplify_res. by eapply (does_trans [] []); [exact D12|apply schedule_does|]. }
  inv_bind H. destruct a2 as [msg n3]. inv_bind H. rename a2 into n4. inv_bind H. rename a2 into n5. simplify_res.
  apply dequeue_does in E9 as (x2 & m0 & Hx2 & Hm0 & D3 & Hs).
  pose proof (peek_same _ _ _ _ _ _ _ (quiet_heaps _ _ D12) E Hx2 E0 Hm0) as ->.
  apply upd_down_does in E10. eapply send_all_does in E11 as (l & D5 & Hl); [|exact Hs].
  exists x, m, l, (PerfectSwitch.m_link_order ps1), (PerfectSwitch.m_routing_table ps1), outs, rest.
  destruct D1 as (HW1 & HO1 & _). split_and!; try done.
  - intros Ht. apply perfect_wire in E5 as (w & Hw & _ & _ & <-). rewrite HW1 in Hw. by eapply Forall_lookup_1 in Ht.
  - intros Ho. by eapply perfect_order_ok; [apply HO1|].
  - pose proof (does_trans [] _ _ _ _ _ D12 D3 eq_refl) as D.
    pose proof (does_trans _ _ _ _ _ _ D E10 eq_refl) as D'.
    exact (does_trans _ _ _ _ _ _ D' D5 eq_refl).
Qed.

Lemma operate_message_moves sid buf v n go n' :
  input_of (wire_of n) (Z.to_nat sid) (Z.to_nat v) buf ->
  Simple.operate_message mt rnd warm sort sid buf v n = Ok (go, n') -> moves n n'.
Proof.
  intros Hin H. apply operate_message_does in H. destruct go; [|by apply quiet_moves].
  destruct H as (x & m & l & order & table & outs & rest & Hx & Hm & Ht & Ho & Hr & Hc & Hl & D).
  intros Hg. pose proof Hg as (HO & HT & HM). revert Hg. change (moves n n').
  apply (does_moves [Deq (Z.to_nat buf) m :: Down (Z.to_nat sid) (Z.to_nat v) :: enqs l]);
    [|cbn; by rewrite app_nil_r].
  intros _. apply Forall_singleton, switch_block; [done|].
  eapply routed_copies; [by apply Ht|by apply Ho|by eapply peek_wf|exact Hr|done|done].
Qed.

(** The premise of an operation may depend on the wiring, which stays. *)
Lemma moves_then n1 n2 n3 : moves n1 n2 -> (wire_of n2 = wire_of n1 -> moves n2 n3) -> moves n1 n3.
Proof.
  intros H1 H2 Hg. pose proof (moves_wire _ _ H1 Hg) as HW. revert Hg. change (moves n1 n3).
  etrans; [exact H1|auto].
Qed.

Lemma operate_loop_moves fuel sid buf v n n' :
  input_of (wire_of n) (Z.to_nat sid) (Z.to_nat v) buf ->
  Simple.operate_loop mt rnd warm sort fuel sid buf v n = Ok n' -> moves n n'.
Proof.
  revert n. induction fuel as [|fuel IH]; intros n Hin H; cbn in H; [done|].
  inv_bind H. destruct a; [|simplify_res; done]. inv_bind H. destruct a as [go n1].
  apply operate_message_moves in E0; [|done]. destruct go; [|by simplify_res].
  eapply moves_then; [exact E0|]. intros HW. apply (IH _ ltac:(by rewrite HW) H).
Qed.

Lemma operate_port_moves sid v a st st' :
  Simple.operate_port mt rnd warm sort sid v a st = Ok st' -> moves st.2 st'.2.
Proof.
  destruct st as [inc n]. unfold Simple.operate_port. intros H. inv_bind H. inv_bind H.
  destruct (_ <=? _); [by simplify_res|]. inv_bind H. destruct a2 as [buf|]; [|by simplify_res].
  inv_bind H. simplify_res. unfold Simple.operateMessageBuffer in E2. inv_bind E2.
  eapply operate_loop_moves; [|exact E2].
  apply perfect_wire in E as (w & Hw & Hi & _). apply vec_at_Ok in E0 as [_ E0], E1 as [_ E1].
  exists w. rewrite Hi. eauto.
Qed.

Lemma operateVnet_moves sid v n n' :
  Simple.operateVnet mt rnd warm sort sid v n = Ok n' -> moves n n'.
Proof.
  unfold Simple.operateVnet. intros H. inv_bind H. inv_bind H.
  apply upd_perfect_quiet in E0; [|intros; by simplify_res]. etrans; [apply quiet_moves, E0|].
  inv_bind H. destruct (_ >? _); [|by simplify_res]. inv_bind H. destruct a2 as [k n2]. simplify_res.
  apply (foldM_moves snd) in E2; [exact E2|]. intros x s1 s2. apply operate_port_moves.
Qed.

Lemma perfect_wakeup_moves sid n n' :
  Simple.perfect_wakeup mt rnd warm sort sid n = Ok n' -> moves n n'.
Proof.
  unfold Simple.perfect_wakeup. intros H. inv_bind H. destruct (Simple.invert_priorities _) as [k inv].
  inv_bind H. apply upd_perfect_quiet in E0; [|intros; by simplify_res]. etrans; [apply quiet_moves, E0|].
  apply (foldM_moves id) in H; [exact H|]. intros v s1 s2. apply operateVnet_moves.
Qed.

(** *** The throttle *)

Lemma upd_units_quiet sid k v f n n' : Simple.upd_units sid k v f n = Ok n' -> does [] n n'.
Proof. apply upd_throttle_quiet. intros th th' H. inv_bind H. by simplify_res. Qed.

(** A message moves when the previous one is done and another is ready. *)
Lemma move_message_does sid k v in_ out n n' :
  Simple.move_message rnd warm getMessageSize sid k v in_ out n = Ok n' ->
  (n' = n /\ forall u r, Simple.units sid k v n = Ok u -> Simple.isReady in_ n = Ok r -> (u =? 0) && r = false) \/
  exists x m m', Simple.buffer in_ n = Ok x /\ MessageBuffer.peekMsgPtr x = Ok m /\ same_message m m' /\
    does [Deq (Z.to_nat in_) m; Enq (Z.to_nat out) m'] n n'.
Proof.
  intros H. unfold Simple.move_message in H. inv_bind H. inv_bind H.
  destruct (_ && _) eqn:Hgo; [right|left; simplify_res; split; [done|intros; by simplify_res]].
  inv_bind H. inv_bind H. inv_bind H. inv_bind H.
  destruct a4 as [msg n2]. inv_bind H. inv_bind H.
  apply upd_units_quiet in E3. apply dequeue_does in E4 as (x & m & Hx & Hm & D1 & Hs).
  apply enqueue_does in E6 as (m' & D2 & Hs').
  apply upd_throttle_quiet in H; [|intros th th' Hf; unfold Throttle.count_message in Hf; inv_bind Hf; by simplify_res].
  pose proof (peek_same _ _ _ _ _ _ _ (quiet_heaps _ _ E3) E1 Hx E2 Hm) as ->.
  exists a1, a2, m'. split_and!; [done|done|unfold same_message in *; naive_solver congruence|].
  pose proof (does_trans [] _ _ _ _ _ E3 D1 eq_refl) as D.
  pose proof (does_trans _ _ _ _ _ _ D D2 eq_refl) as D'.
  exact (does_trans _ _ _ _ _ _ D' H eq_refl).
Qed.

Lemma move_message_moves sid k v in_ out n n' :
  throttled (wire_of n) in_ ->
  Simple.move_message rnd warm getMessageSize sid k v in_ out n = Ok n' -> moves n n'.
Proof.
  intros Hin [[-> _]|(x & m & m' & Hx & Hm & Hs & D)]%move_message_does; [done|].
  intros Hg. pose proof Hg as (_ & _ & Hwf). revert Hg. change (moves n n').
  apply (does_moves [[Deq (Z.to_nat in_) m; Enq (Z.to_nat out) m']]); [|exact D].
  intros _. apply Forall_singleton, throttle_block; [done|by eapply peek_wf|done].
Qed.

Lemma transfer_moves sid k v in_ out bw n bw' n' :
  throttled (wire_of n) in_ ->
  Simple.transfer rnd warm getMessageSize sid k v in_ out bw n = Ok (bw', n') -> moves n n'.
Proof.
  intros Hin H. unfold Simple.transfer in H. inv_bind H. inv_bind H. inv_bind H. simplify_res.
  apply move_message_moves in E; [|done]. etrans; [exact E|]. by eapply quiet_moves, upd_units_quiet.
Qed.

Lemma when_work_quiet (work : bool) out n d r n' :
  (if work then Simple.slot_available out n else Ok (d, n)) = Ok (r, n') -> does [] n n'.
Proof. destruct work; [apply slot_available_quiet|intros; simplify_res; apply does_refl]. Qed.

Lemma transfer_loop_moves fuel sid k v in_ out bw n bw' n' :
  throttled (wire_of n) in_ ->
  Simple.transfer_loop rnd warm getMessageSize fuel sid k v in_ out bw n = Ok (bw', n') -> moves n n'.
Proof.
  revert bw n. induction fuel as [|fuel IH]; intros bw n Hin H; cbn in H; [done|].
  inv_bind H. inv_bind H. destruct a0 as [go n1]. apply when_work_quiet in E0.
  etrans; [apply quiet_moves, E0|]. destruct E0 as [HW _]. rewrite <- HW in Hin.
  destruct go; [|by simplify_res]. inv_bind H. destruct a0 as [bw1 n2].
  apply transfer_moves in E0; [|done]. eapply moves_then; [exact E0|].
  intros HW'. apply (IH _ _ ltac:(by rewrite HW') H).
Qed.

Lemma throttle_wire sid k n th :
  Simple.throttle sid k n = Ok th ->
  exists w, w_switches (wire_of n) !! Z.to_nat sid = Some w /\
    w_throttles w !! Z.to_nat k = Some (Throttle.m_in th, Throttle.m_out th).
Proof.
  unfold Simple.throttle, Simple.switch. intros H. inv_bind H.
  apply vec_at_Ok in E as [_ E], H as [_ H].
  eexists. split; [by apply map_lookup|]. cbn.
  exact (map_lookup (fun th => (Throttle.m_in th, Throttle.m_out th)) _ _ _ H).
Qed.

Lemma throttle_operateVnet_moves sid k v st st' :
  Simple.throttle_operateVnet rnd warm getMessageSize sid k v st = Ok st' -> moves st.2 st'.2.
Proof.
  destruct st as [[bw sch] n]. unfold Simple.throttle_operateVnet. intros H. inv_bind H. inv_bind H. inv_bind H.
  destruct a1 as [out|]; [|by simplify_res]. inv_bind H. inv_bind H. inv_bind H. inv_bind H.
  destruct a4 as [bw1 n1]. inv_bind H. inv_bind H. destruct a5 as [av n2]. simplify_res. cbn.
  apply when_work_quiet in E7. apply transfer_loop_moves in E5.
  - etrans; [exact E5|by apply quiet_moves].
  - apply throttle_wire in E as (w & Hw & Hth). apply vec_at_Ok in E0 as [_ E0].
    eexists _, w, _. split; [exact Hw|]. split; [by eapply list_elem_of_lookup_2|].
    cbn. by eapply list_elem_of_lookup_2.
Qed.

Lemma throttle_wakeup_moves sid k n n' :
  Simple.throttle_wakeup rnd warm getMessageSize sid k n = Ok n' -> moves n n'.
Proof.
  unfold Simple.throttle_wakeup. intros H. inv_bind H. inv_bind H.
  destruct (Simple.invert_priorities _) as [w inv]. inv_bind H. inv_bind H. destruct a2 as [[bw sch] n2].
  inv_bind H. apply upd_throttle_quiet in E1, E3; [|intros; by simplify_res..].
  apply (foldM_moves snd) in E2; [|intros v s1 s2; apply throttle_operateVnet_moves].
  etrans; [apply quiet_moves, E1|]. etrans; [exact E2|]. etrans; [apply quiet_moves, E3|].
  destruct (_ && _); simplify_res; [done|]. apply quiet_moves, schedule_does.
Qed.

Lemma dispatch_moves c n n' :
  Simple.dispatch mt rnd warm sort getMessageSize c n = Ok n' -> moves n n'.
Proof.
  destruct c; cbn; intros H; simplify_res; try done;
    [by eapply perfect_wakeup_moves|by eapply throttle_wakeup_moves].
Qed.

End Operations.
