(* ===== verification/SimpleLoops.v ===== *)
(** * The loops of the simple network end

    The [while] loops of switches and throttles run with a fuel that depends
    on the number of messages in the buffer they empty. A message that is put
    into a buffer is not ready before the next tick, so every iteration lowers
    the number of ready messages, and the fuel is never used up. *)

From S2P Require Import Prelude NetDest NetDestFacts Types FlitBuffer MsgBuffer MsgBufferFacts Topology Setup SimpleNet SimpleNetFacts.

(** ** Results that are not the end of the fuel *)

Definition no_fuel {A} (m : Res A) : Prop := m <> Err (FatalError "fuel").

Lemma nf_bind {A B} (m : Res A) (k : A -> Res B) :
  no_fuel m -> (forall a, m = Ok a -> no_fuel (k a)) -> no_fuel (m ≫= k).
Proof. unfold no_fuel. destruct m; cbn; [auto|congruence]. Qed.

Lemma nf_Ok {A} (a : A) : no_fuel (Ok a).
Proof. done. Qed.

Lemma nf_assert b w : no_fuel (assert_ b w).
Proof. unfold assert_, no_fuel. by destruct b. Qed.

Lemma nf_vec_at {A} (l : list A) i : no_fuel (vec_at l i).
Proof. unfold vec_at, no_fuel. repeat case_match; done. Qed.

Lemma nf_vec_set {A} (l : list A) i x : no_fuel (vec_set l i x).
Proof. unfold vec_set, no_fuel. by case_decide. Qed.

Lemma nf_vec_upd {A} (l : list A) i (f : A -> Res A) : (forall x, no_fuel (f x)) -> no_fuel (vec_upd l i f).
Proof.
  intros Hf. unfold vec_upd. apply nf_bind; [apply nf_vec_at|intros x _].
  apply nf_bind; [apply Hf|intros y _; apply nf_vec_set].
Qed.

Lemma nf_foldM {A S} (f : A -> S -> Res S) l s : (forall a s, no_fuel (f a s)) -> no_fuel (foldM f l s).
Proof.
  intros Hf. revert s. induction l as [|a l IH]; intros s; cbn; [done|].
  apply nf_bind; [apply Hf|]. intros; apply IH.
Qed.

Lemma nf_mapM {A B} (f : A -> Res B) l : (forall a, no_fuel (f a)) -> no_fuel (mapM f l).
Proof.
  intros Hf. induction l as [|a l IH]; cbn; [done|]. apply nf_bind; [apply Hf|]. intros.
  by apply nf_bind.
Qed.

Create HintDb no_fuel.
#[local] Hint Resolve nf_Ok nf_assert nf_vec_at nf_vec_set : no_fuel.

(** Goes through a result step by step; [no_fuel] has the functions done. *)
Ltac nofuel :=
  repeat first
    [ solve [auto with no_fuel nocore]
    | apply nf_vec_upd; intros
    | apply nf_foldM; intros
    | apply nf_mapM; intros
    | apply nf_bind; [|intros ? ?]
    | progress cbn beta iota
    | case_match; try discriminate
    | discriminate ].

Lemma nf_upd_buffer b f n : (forall x, no_fuel (f x)) -> no_fuel (Simple.upd_buffer b f n).
Proof. intros. unfold Simple.upd_buffer. nofuel. Qed.

Lemma nf_upd_perfect sid f n : (forall x, no_fuel (f x)) -> no_fuel (Simple.upd_perfect sid f n).
Proof. intros. unfold Simple.upd_perfect, Simple.upd_switch. nofuel. Qed.

Lemma nf_upd_throttle sid k f n : (forall x, no_fuel (f x)) -> no_fuel (Simple.upd_throttle sid k f n).
Proof. intros. unfold Simple.upd_throttle, Simple.upd_switch. nofuel. Qed.

Lemma nf_buffer b n : no_fuel (Simple.buffer b n).
Proof. apply nf_vec_at. Qed.

Lemma nf_perfect_switch sid n : no_fuel (Simple.perfect_switch sid n).
Proof. unfold Simple.perfect_switch, Simple.switch. nofuel. Qed.

Lemma nf_throttle sid k n : no_fuel (Simple.throttle sid k n).
Proof. unfold Simple.throttle, Simple.switch. nofuel. Qed.

Lemma nf_isReady b n : no_fuel (Simple.isReady b n).
Proof. unfold Simple.isReady, Simple.buffer. nofuel. Qed.

Lemma nf_peek b : no_fuel (MessageBuffer.peekMsgPtr b).
Proof. unfold MessageBuffer.peekMsgPtr. nofuel. Qed.

Lemma nf_delayed t m : no_fuel (Message.updateDelayedTicks t m).
Proof. unfold Message.updateDelayedTicks. nofuel. Qed.

#[local] Hint Resolve nf_buffer nf_perfect_switch nf_throttle nf_isReady nf_peek nf_delayed : no_fuel.
#[local] Hint Resolve nf_upd_buffer nf_upd_perfect nf_upd_throttle : no_fuel.

Lemma nf_mb_enqueue rnd warm rt m ct delta b : no_fuel (MessageBuffer.enqueue rnd warm rt m ct delta b).
Proof. unfold MessageBuffer.enqueue. nofuel. Qed.

Lemma nf_mb_dequeue ct dec b : no_fuel (MessageBuffer.dequeue ct dec b).
Proof. unfold MessageBuffer.dequeue. nofuel. Qed.

#[local] Hint Resolve nf_mb_enqueue nf_mb_dequeue : no_fuel.

Lemma nf_slot_available b n : no_fuel (Simple.slot_available b n).
Proof. unfold Simple.slot_available. nofuel. Qed.

Lemma nf_dequeue b n : no_fuel (Simple.dequeue b n).
Proof. unfold Simple.dequeue. nofuel. Qed.

Lemma nf_enqueue rnd warm b m delta n : no_fuel (Simple.enqueue rnd warm b m delta n).
Proof.
  unfold Simple.enqueue, Simple.storeEventInfo, PerfectSwitch.storeEventInfo. nofuel.
Qed.

#[local] Hint Resolve nf_slot_available nf_dequeue nf_enqueue : no_fuel.

(** *** Sets of destinations *)

Lemma nf_zip_bits op bs os : (forall o b, no_fuel (op o b)) -> no_fuel (NetDest.zip_bits op bs os).
Proof.
  intros Hop. revert os. induction bs as [|b bs IH]; intros os; cbn; [done|]. destruct os; [done|].
  apply nf_bind; [apply Hop|]. intros. by apply nf_bind.
Qed.

Lemma nf_AND mt a d : no_fuel (NetDest.AND mt a d).
Proof.
  unfold NetDest.AND, NetDest.new, NetDest.resize, NodeSet.setSize, NetDest.store_prefix. nofuel.
  apply nf_zip_bits. intros. unfold NodeSet.AND, NodeSet.new. nofuel.
Qed.

Lemma nf_remove a d : no_fuel (NetDest.removeNetDest a d).
Proof.
  unfold NetDest.removeNetDest. nofuel. apply nf_zip_bits. intros. unfold NodeSet.removeSet. nofuel.
Qed.

#[local] Hint Resolve nf_AND nf_remove : no_fuel.

Lemma nf_route mt order table d : no_fuel (PerfectSwitch.route mt order table d).
Proof.
  unfold PerfectSwitch.route, PerfectSwitch.route_link, NetDest.intersectionIsNotEmpty. nofuel.
Qed.

#[local] Hint Resolve nf_route : no_fuel.

Section Loops.
Context (mt : MachineTypes) (rnd warm : bool) (sort : list LinkOrder.t -> list LinkOrder.t)
  (getMessageSize : Message.t -> MessageSizeType).
Hypothesis sort_permutes : forall l, sort l ≡ₚ l.

Lemma nf_order_links sid v n : no_fuel (Simple.order_links sort sid v n).
Proof.
  unfold Simple.order_links, Simple.link_value, Simple.out_queue_length. nofuel.
Qed.

Lemma nf_out_buffer sid l v n : no_fuel (Simple.out_buffer sid l v n).
Proof. unfold Simple.out_buffer. nofuel. Qed.

#[local] Hint Resolve nf_order_links nf_out_buffer : no_fuel.

Lemma nf_operate_message sid buf v n : no_fuel (Simple.operate_message mt rnd warm sort sid buf v n).
Proof.
  unfold Simple.operate_message, Simple.check_slots, PerfectSwitch.count_down, Simple.send_all, Simple.send.
  nofuel.
Qed.

(** ** Ready messages *)

(** The messages of buffer [b] that are ready at [now]. *)
Definition ready (now : Z) (b : nat) (hs : list (list Message.t)) : nat :=
  match hs !! b with
  | Some h => length (filter (fun m => Message.m_LastEnqueueTime m <= now) h)
  | None => 0
  end.

(** The messages a trace takes out of buffer [b]. *)
Fixpoint taken_from (b : nat) (tr : list prim) : nat :=
  match tr with
  | [] => 0
  | Deq b' _ :: tr => (if decide (b = b') then 1 else 0) + taken_from b tr
  | _ :: tr => taken_from b tr
  end.

Lemma ready_insert now b c h h' hs :
  hs !! c = Some h ->
  ready now b (<[c := h']> hs) =
  if decide (b = c) then length (filter (fun m => Message.m_LastEnqueueTime m <= now) h') else ready now b hs.
Proof.
  intros Hh. unfold ready. case_decide as Hb.
  - subst. by rewrite list_lookup_insert_eq by (by eapply lookup_lt_Some).
  - by rewrite list_lookup_insert_ne by done.
Qed.

Lemma trace_ready W b tr a a' :
  trace W tr a a' -> ready (w_now W) b a.1 = (ready (w_now W) b a'.1 + taken_from b tr)%nat.
Proof.
  induction 1 as [|p tr a a1 a2 Hs _ IH]; [cbn; lia|].
  destruct Hs as [c m k h h' hs ps ps' Hh _ Hp Hlt _|c m h h' hs ps Hh Hp Hle|]; cbn [fst taken_from] in *; [..|done].
  - rewrite <- IH, (ready_insert _ _ _ _ _ _ Hh). case_decide as Hb; [|done].
    subst. unfold ready. rewrite Hh, Hp, filter_cons, decide_False by lia. done.
  - rewrite (ready_insert _ _ _ _ _ _ Hh) in IH. case_decide as Hb; [|lia].
    subst. unfold ready at 1. rewrite Hh, <- Hp, filter_cons, decide_True by done. cbn [length]. lia.
Qed.

Lemma does_ready b tr n n' :
  does tr n n' -> Simple.now n' = Simple.now n /\
  ready (Simple.now n) b (heaps n) = (ready (Simple.now n) b (heaps n') + taken_from b tr)%nat.
Proof. intros (HW & _ & Ht). split; [by injection HW|]. exact (trace_ready _ b _ _ _ Ht). Qed.

Lemma taken_from_enqs b l : taken_from b (enqs l) = 0%nat.
Proof. induction l as [|e l IH]; [done|exact IH]. Qed.

Lemma operate_loop_ends fuel sid buf v n :
  (ready (Simple.now n) (Z.to_nat buf) (heaps n) < fuel)%nat ->
  no_fuel (Simple.operate_loop mt rnd warm sort fuel sid buf v n).
Proof.
  revert n. induction fuel as [|fuel IH]; intros n Hf; [lia|]. cbn [Simple.operate_loop].
  apply nf_bind; [apply nf_isReady|intros r _]. destruct r; [|done].
  apply nf_bind; [apply nf_operate_message|intros [go n1] H].
  apply (operate_message_does mt rnd warm sort getMessageSize sort_permutes) in H. destruct go; [|done].
  destruct H as (x & m & l & order & table & outs & rest & _ & _ & _ & _ & _ & _ & _ & D).
  apply (does_ready (Z.to_nat buf)) in D as [Hn Hr]. apply IH. rewrite Hn.
  cbn [taken_from] in Hr. rewrite decide_True in Hr by done. lia.
Qed.

Lemma ready_length now b n x :
  Simple.buffer b n = Ok x -> (ready now (Z.to_nat b) (heaps n) <= length (MessageBuffer.m_prio_heap x))%nat.
Proof. intros Hx%buffer_heap. unfold ready. rewrite Hx. apply length_filter. Qed.

Lemma nf_operateMessageBuffer sid buf v n : no_fuel (Simple.operateMessageBuffer mt rnd warm sort sid buf v n).
Proof.
  unfold Simple.operateMessageBuffer. apply nf_bind; [apply nf_buffer|intros x Hx].
  apply operate_loop_ends. pose proof (ready_length (Simple.now n) _ _ _ Hx). lia.
Qed.

#[local] Hint Resolve nf_operateMessageBuffer : no_fuel.

Lemma nf_operateVnet sid v n : no_fuel (Simple.operateVnet mt rnd warm sort sid v n).
Proof.
  unfold Simple.operateVnet, Simple.operate_port. nofuel.
Qed.

#[local] Hint Resolve nf_operateVnet : no_fuel.

Lemma nf_perfect_wakeup sid n : no_fuel (Simple.perfect_wakeup mt rnd warm sort sid n).
Proof.
  unfold Simple.perfect_wakeup. nofuel.
Qed.

(** ** The throttle *)

Lemma nf_move_message sid k v in_ out n :
  no_fuel (Simple.move_message rnd warm getMessageSize sid k v in_ out n).
Proof.
  unfold Simple.move_message, Simple.units, Simple.upd_units, Throttle.count_message. nofuel.
Qed.

#[local] Hint Resolve nf_move_message : no_fuel.

Lemma nf_transfer sid k v in_ out bw n :
  no_fuel (Simple.transfer rnd warm getMessageSize sid k v in_ out bw n).
Proof. unfold Simple.transfer, Simple.units, Simple.upd_units. nofuel. Qed.

Lemma vec_upd_at {A} (l : list A) i f l' :
  vec_upd l i f = Ok l' -> exists x y, vec_at l i = Ok x /\ f x = Ok y /\ vec_at l' i = Ok y.
Proof.
  unfold vec_upd. intros H. inv_bind H. inv_bind H. exists a, a0. split; [done|]. split; [done|].
  by eapply vec_at_set_eq.
Qed.

Lemma upd_throttle_at sid k f n n' :
  Simple.upd_throttle sid k f n = Ok n' ->
  exists th th', Simple.throttle sid k n = Ok th /\ f th = Ok th' /\ Simple.throttle sid k n' = Ok th'.
Proof.
  unfold Simple.upd_throttle, Simple.upd_switch, Simple.throttle, Simple.switch.
  intros H. inv_bind H. simplify_res. apply vec_upd_at in E as (s & s' & -> & Hf & Hs'). cbn. rewrite Hs'. cbn.
  inv_bind Hf. simplify_res. by apply vec_upd_at in E.
Qed.

Lemma upd_units_at sid k v f n n' :
  Simple.upd_units sid k v f n = Ok n' ->
  exists u, Simple.units sid k v n = Ok u /\ Simple.units sid k v n' = Ok (f u).
Proof.
  unfold Simple.units. intros (th & th' & -> & Hf & ->)%upd_throttle_at. cbn. inv_bind Hf. simplify_res.
  apply vec_upd_at in E as (x & y & Hx & Hy & Hl). simplify_res. eauto.
Qed.

(** One iteration finishes a message or uses all bandwidth, and takes a
    message when the previous one was done. *)
Lemma transfer_spec sid k v in_ out bw n bw' n' u r :
  Simple.units sid k v n = Ok u -> Simple.isReady in_ n = Ok r ->
  Simple.transfer rnd warm getMessageSize sid k v in_ out bw n = Ok (bw', n') ->
  exists u', Simple.units sid k v n' = Ok u' /\ 0 <= u' /\ 0 <= bw' /\ (u' = 0 \/ bw' = 0) /\
    Simple.now n' = Simple.now n /\
    let cnt n := ready (Simple.now n) (Z.to_nat in_) (heaps n) in
    if (u =? 0) && r then cnt n = S (cnt n') else cnt n' = cnt n.
Proof.
  intros Hu Hr H. unfold Simple.transfer in H. inv_bind H. rename a into n1. inv_bind H. rename a into u1.
  inv_bind H. simplify_res. destruct (upd_units_at _ _ _ _ _ _ E1) as (u2 & _ & Hu2).
  apply upd_units_quiet, (does_ready (Z.to_nat in_)) in E1 as [Hn1 Hc1].
  cbn [taken_from] in Hc1. exists (Z.max 0 (u1 - bw)). split; [done|]. split; [lia|]. split; [lia|]. split; [lia|].
  pose proof (move_message_does rnd warm getMessageSize _ _ _ _ _ _ _ E) as Hm.
  destruct Hm as [[-> Hno]|(x & m & m' & Hx & Hpk & _ & D)].
  - rewrite (Hno _ _ Hu Hr). split; [done|]. cbn. rewrite Hn1. lia.
  - destruct (does_ready (Z.to_nat in_) _ _ _ D) as [Hn Hc]. cbn [taken_from] in Hc.
    rewrite decide_True in Hc by done. split; [congruence|]. cbn. rewrite Hn1, Hn in *.
    destruct ((u =? 0) && r) eqn:Hgo; [lia|].
    exfalso. unfold Simple.move_message in E. rewrite Hu, Hr in E. cbn [mbind Res_bind] in E.
    rewrite Hgo in E. simplify_res. lia.
Qed.

Lemma isReady_ready b n : Simple.isReady b n = Ok true -> (1 <= ready (Simple.now n) (Z.to_nat b) (heaps n))%nat.
Proof.
  unfold Simple.isReady. intros H. inv_bind H. simplify_res. apply buffer_heap in E. unfold ready. rewrite E.
  unfold MessageBuffer.isReady in *. destruct (MessageBuffer.m_prio_heap a) as [|m l]; [done|].
  apply Z.leb_le in H. rewrite filter_cons, decide_True by done. cbn. lia.
Qed.

Lemma slot_available_units b n r n' sid k v :
  Simple.slot_available b n = Ok (r, n') -> Simple.units sid k v n' = Simple.units sid k v n.
Proof.
  unfold Simple.slot_available. intros H. inv_bind H. destruct (MessageBuffer.areNSlotsAvailable _ _ _).
  inv_bind H. simplify_res. unfold Simple.upd_buffer in E0. inv_bind E0. by simplify_res.
Qed.

Lemma when_work_units (work : bool) out n d r n' sid k v :
  (if work then Simple.slot_available out n else Ok (d, n)) = Ok (r, n') ->
  Simple.units sid k v n' = Simple.units sid k v n.
Proof. destruct work; [apply slot_available_units|intros; by simplify_res]. Qed.

(** The iterations that are left at most. *)
Definition iterations (sid k v in_ bw : Z) (n : Simple.t) : nat :=
  if bw <=? 0 then 0
  else ready (Simple.now n) (Z.to_nat in_) (heaps n)
       + match Simple.units sid k v n with Ok u => if 0 <? u then 1 else 0 | Err _ => 0 end.

Lemma transfer_loop_ends fuel sid k v in_ out bw n :
  (forall u, Simple.units sid k v n = Ok u -> 0 <= u) ->
  (iterations sid k v in_ bw n < fuel)%nat ->
  no_fuel (Simple.transfer_loop rnd warm getMessageSize fuel sid k v in_ out bw n).
Proof.
  revert bw n. induction fuel as [|fuel IH]; intros bw n Hpos Hf; [lia|]. cbn [Simple.transfer_loop].
  apply nf_bind; [unfold Simple.has_work, Simple.units; nofuel|intros work Hw].
  apply nf_bind; [destruct work; nofuel|intros [go n1] Hgo]. destruct go; [|done].
  destruct work; [|discriminate Hgo].
  apply nf_bind; [apply nf_transfer|intros [bw' n2] Ht].
  pose proof (when_work_units true _ _ false _ _ sid k v Hgo) as Hun.
  apply slot_available_quiet in Hgo. destruct (does_ready (Z.to_nat in_) _ _ _ Hgo) as [Hn1 Hc1].
  unfold Simple.has_work in Hw. inv_bind Hw. rename a into r. inv_bind Hw. rename a into u. injection Hw as Hw.
  apply andb_true_iff in Hw as [Hbw Hru]. rewrite Z.gtb_ltb in *. apply Z.ltb_lt in Hbw.
  specialize (Hpos u eq_refl).
  assert (Simple.isReady in_ n1 = Ok r) as Hr1.
  { apply quiet_heaps in Hgo as Hh. clear - E Hh Hn1. unfold Simple.isReady in *. inv_bind E.
    destruct (Simple.buffer in_ n1) as [y|e] eqn:Ey.
    - cbn. simplify_res. apply buffer_heap in E0, Ey. rewrite Hh in Ey. unfold MessageBuffer.isReady.
      rewrite Hn1. assert (MessageBuffer.m_prio_heap y = MessageBuffer.m_prio_heap a) as -> by congruence. done.
    - exfalso. apply vec_at_inside in E0. unfold Simple.buffer in Ey.
      destruct (vec_at_total (Simple.msgbufs n1) in_) as [y Hy]; [|congruence].
      unfold zlen in *. rewrite <- (length_map MessageBuffer.m_prio_heap). change (map MessageBuffer.m_prio_heap (Simple.msgbufs n1)) with (heaps n1).
      rewrite Hh. unfold heaps. by rewrite length_map. }
  destruct (transfer_spec _ _ _ _ _ _ _ _ _ _ _ Hun Hr1 Ht) as (u' & Hu' & H1 & H2 & H3 & Hn2 & Hcnt).
  apply IH.
  - intros x Hx. rewrite Hu' in Hx. by simplify_res.
  - unfold iterations in *. rewrite E0 in Hf. rewrite Hu'. rewrite (proj2 (Z.leb_gt bw 0)) in Hf by lia.
    cbn in Hcnt, Hc1. rewrite Hn2, Hn1 in *.
    destruct (u =? 0) eqn:Hu0; zbool.
    + subst u. cbn in Hru. rewrite orb_false_r in Hru. subst r. cbn in Hcnt.
      destruct H3 as [-> | ->]; cbn; [|lia]. destruct (bw' <=? 0); lia.
    + cbn in Hcnt. rewrite (proj2 (Z.ltb_lt 0 u)) in Hf by lia.
      destruct H3 as [-> | ->]; cbn; [|lia]. destruct (bw' <=? 0); lia.
Qed.

Lemma nf_throttle_operateVnet sid k v st :
  no_fuel (Simple.throttle_operateVnet rnd warm getMessageSize sid k v st).
Proof.
  destruct st as [[bw sch] n]. unfold Simple.throttle_operateVnet.
  apply nf_bind; [apply nf_throttle|intros th Hth]. apply nf_bind; [apply nf_vec_at|intros in_ _].
  apply nf_bind; [apply nf_vec_at|intros [out|] _]; [|done].
  apply nf_bind; [apply nf_vec_at|intros u Hu]. apply nf_bind; [apply nf_assert|intros [] Ha].
  apply nf_bind; [apply nf_buffer|intros x Hx].
  assert (Simple.units sid k v n = Ok u) as Hun by (unfold Simple.units; by rewrite Hth).
  apply nf_bind; [|intros [bw' n'] _; unfold Simple.has_work, Simple.units; nofuel].
  apply transfer_loop_ends.
  - intros u' Hu'. rewrite Hun in Hu'. simplify_res. unfold assert_ in Ha.
    destruct (u' >=? 0) eqn:E; [|done]. rewrite Z.geb_leb in E. by zbool.
  - unfold iterations. rewrite Hun. pose proof (ready_length (Simple.now n) _ _ _ Hx).
    destruct (bw <=? 0), (0 <? u); lia.
Qed.

#[local] Hint Resolve nf_throttle_operateVnet : no_fuel.

Lemma nf_throttle_wakeup sid k n : no_fuel (Simple.throttle_wakeup rnd warm getMessageSize sid k n).
Proof. unfold Simple.throttle_wakeup. nofuel. Qed.

#[local] Hint Resolve nf_perfect_wakeup nf_throttle_wakeup : no_fuel.

(** C23: every wake-up of the simple network ends: the [while] loops over the
    messages of a buffer never run out of the fuel the model gives them, in
    any state, whether or not the network is well formed. *)
Theorem simple_wakeups_end c n :
  Simple.dispatch mt rnd warm sort getMessageSize c n <> Err (FatalError "fuel").
Proof. change (no_fuel (Simple.dispatch mt rnd warm sort getMessageSize c n)). destruct c; cbn; nofuel. Qed.

End Loops.
