(* ===== verification/SimpleBandwidth.v ===== *)
(** * The bandwidth of a link of the simple network

    A throttle accounts for the messages it moves in units of bandwidth: the
    size of the messages it counts is the bandwidth it used and the units that
    remain for later cycles, and no wake-up uses more than the link has. *)

From S2P Require Import Prelude NetDest Types FlitBuffer MsgBuffer MsgBufferFacts Topology Setup SimpleNet SimpleNetFacts SimpleLoops.

Definition all_sizes : list MessageSizeType :=
  [MessageSizeType_Control; MessageSizeType_Data; MessageSizeType_Request_Control;
   MessageSizeType_Reissue_Control; MessageSizeType_Response_Data;
   MessageSizeType_ResponseL2hit_Data; MessageSizeType_ResponseLocal_Data;
   MessageSizeType_Response_Control; MessageSizeType_Writeback_Data;
   MessageSizeType_Writeback_Control; MessageSizeType_Broadcast_Control;
   MessageSizeType_Multicast_Control; MessageSizeType_Forwarded_Control;
   MessageSizeType_Invalidate_Control; MessageSizeType_Unblock_Control;
   MessageSizeType_Persistent_Control; MessageSizeType_Completion_Control].

#[local] Instance MessageSizeType_eq_dec : EqDecision MessageSizeType.
Proof. solve_decision. Defined.

(** The messages of a size a throttle has counted. *)
Definition count_of (ty : MessageSizeType) (th : Throttle.t) : Z :=
  match Throttle.m_msg_counts th !! Z.to_nat (Throttle.MessageSizeType_index ty) with
  | Some row => total id row
  | None => 0
  end.

(** The size of all messages counted, and the units that remain. *)
Definition counted (b : NetworkBase.t) (th : Throttle.t) : Z :=
  total (fun ty => Throttle.network_message_to_size ty b * count_of ty th) all_sizes.
Definition remaining (th : Throttle.t) : Z := total id (Throttle.m_units_remaining th).

Lemma size_index_inj a b : Throttle.MessageSizeType_index a = Throttle.MessageSizeType_index b -> a = b.
Proof. destruct a, b; cbn; intros H; try done; lia. Qed.

Lemma size_index_nonneg a : 0 <= Throttle.MessageSizeType_index a.
Proof. destruct a; cbn; lia. Qed.

Lemma total_add {A} (f g : A -> Z) l : total (fun a => f a + g a) l = total f l + total g l.
Proof. induction l as [|a l IH]; cbn; [done|]. rewrite IH. lia. Qed.

Lemma total_one (ty : MessageSizeType) x : total (fun ty' => if decide (ty' = ty) then x else 0) all_sizes = x.
Proof. destruct ty; cbn [all_sizes total]; repeat (case_decide; try congruence); lia. Qed.

Lemma count_message_counted b ty v th th' :
  Throttle.count_message ty v th = Ok th' ->
  counted b th' = counted b th + Throttle.network_message_to_size ty b /\
  Throttle.m_units_remaining th' = Throttle.m_units_remaining th /\
  Throttle.m_link_utilization_proxy th' = Throttle.m_link_utilization_proxy th.
Proof.
  unfold Throttle.count_message. intros H. inv_bind H. simplify_res. split; [|done].
  apply vec_upd_inv in E as (row & row' & Hrow & Hup & ->). apply vec_at_Ok in Hrow as [_ Hrow].
  apply (total_upd id) in Hup as (x & y & _ & Hy & Htot). simplify_res.
  unfold counted. rewrite <- (total_one ty (Throttle.network_message_to_size ty b)).
  rewrite <- total_add. apply total_ext. intros ty'. unfold count_of. cbn. case_decide as Hd.
  - subst. rewrite list_lookup_insert_eq by (by eapply lookup_lt_Some). rewrite Hrow, Htot. unfold id. lia.
  - rewrite list_lookup_insert_ne; [lia|]. intros He. apply Hd, size_index_inj.
    pose proof (size_index_nonneg ty). pose proof (size_index_nonneg ty'). lia.
Qed.

(** ** What leaves the throttles alone *)

Definition same_throttles (n n' : Simple.t) : Prop :=
  Simple.base n' = Simple.base n /\ forall sid k, Simple.throttle sid k n' = Simple.throttle sid k n.

#[local] Instance same_throttles_preorder : PreOrder same_throttles.
Proof. split; [done|]. intros a b c [B1 T1] [B2 T2]. split; [congruence|]. intros. by rewrite T2. Qed.

Lemma upd_buffer_throttles b f n n' : Simple.upd_buffer b f n = Ok n' -> same_throttles n n'.
Proof. unfold Simple.upd_buffer. intros H. inv_bind H. by simplify_res. Qed.

Lemma upd_perfect_throttles sid f n n' : Simple.upd_perfect sid f n = Ok n' -> same_throttles n n'.
Proof.
  unfold Simple.upd_perfect, Simple.upd_switch. intros H. inv_bind H.
  unfold vec_upd in E. inv_bind E. inv_bind E. inv_bind E1. simplify_res. split; [done|].
  intros sid' j. unfold Simple.throttle, Simple.switch. cbn [Simple.set_switches Simple.m_switches].
  destruct (decide (sid = sid')) as [<-|Hne].
  - by rewrite (vec_at_set_eq _ _ _ _ E), E0.
  - by rewrite (vec_at_set_ne _ _ _ _ _ Hne E).
Qed.

Lemma slot_available_throttles b n r n' : Simple.slot_available b n = Ok (r, n') -> same_throttles n n'.
Proof.
  unfold Simple.slot_available. intros H. inv_bind H. destruct (MessageBuffer.areNSlotsAvailable _ _ _).
  inv_bind H. simplify_res. by eapply upd_buffer_throttles.
Qed.

Lemma when_work_throttles (work : bool) out n d r n' :
  (if work then Simple.slot_available out n else Ok (d, n)) = Ok (r, n') -> same_throttles n n'.
Proof. destruct work; [apply slot_available_throttles|intros; by simplify_res]. Qed.

Lemma dequeue_throttles b n m n' : Simple.dequeue b n = Ok (m, n') -> same_throttles n n'.
Proof.
  unfold Simple.dequeue. intros H. inv_bind H. inv_bind H. inv_bind H. destruct a1 as [[? ?] cb]. inv_bind H.
  inv_bind H. simplify_res. apply upd_buffer_throttles in E3. by destruct cb.
Qed.

Lemma enqueue_throttles rnd warm b m delta n n' :
  Simple.enqueue rnd warm b m delta n = Ok n' -> same_throttles n n'.
Proof.
  unfold Simple.enqueue. intros H. inv_bind H. inv_bind H. destruct a0 as [y [c t]]. inv_bind H.
  apply upd_buffer_throttles in E1. etrans; [exact E1|].
  destruct c; cbn in H; simplify_res; try done. by apply upd_perfect_throttles in H.
Qed.

(** ** The account of one wake-up *)
Section Account.
Context (rnd warm : bool) (getMessageSize : Message.t -> MessageSizeType).
Variables (sid k : Z).

(** The throttle spends [bw - bw'] units between [n] and [n']. *)
Definition spends (bw bw' : Z) (n n' : Simple.t) : Prop :=
  Simple.base n' = Simple.base n /\
  forall th, Simple.throttle sid k n = Ok th ->
  exists th', Simple.throttle sid k n' = Ok th' /\
    counted (Simple.base n) th' - remaining th' + bw' = counted (Simple.base n) th - remaining th + bw /\
    Throttle.m_link_utilization_proxy th' = Throttle.m_link_utilization_proxy th /\
    ((forall ty, 0 <= Throttle.network_message_to_size ty (Simple.base n)) -> 0 <= bw ->
     Forall (fun u => 0 <= u) (Throttle.m_units_remaining th) ->
     0 <= bw' <= bw /\ Forall (fun u => 0 <= u) (Throttle.m_units_remaining th')).

Lemma spends_same bw n n' : same_throttles n n' -> spends bw bw n n'.
Proof. intros [HB HT]. split; [done|]. intros th Hth. exists th. rewrite HT. split_and!; [done..|]. intros _ ?. split; [lia|done]. Qed.

Lemma spends_trans a b c n1 n2 n3 : spends a b n1 n2 -> spends b c n2 n3 -> spends a c n1 n3.
Proof.
  intros [B1 S1] [B2 S2]. split; [congruence|]. intros th Hth.
  destruct (S1 th Hth) as (th2 & Hth2 & C1 & P1 & F1). destruct (S2 th2 Hth2) as (th3 & Hth3 & C2 & P2 & F2).
  rewrite B1 in *. exists th3. split_and!; [done|lia|congruence|].
  intros Hs Hb Hu. destruct (F1 Hs Hb Hu) as [? Hu2]. destruct (F2 Hs ltac:(lia) Hu2) as [? ?]. split; [lia|done].
Qed.

Lemma spends_refl bw n : spends bw bw n n.
Proof. by apply spends_same. Qed.

Lemma upd_throttle_base f n n' : Simple.upd_throttle sid k f n = Ok n' -> Simple.base n' = Simple.base n.
Proof. unfold Simple.upd_throttle, Simple.upd_switch. intros H. inv_bind H. by simplify_res. Qed.

Lemma move_message_spends v in_ out bw n n' :
  Simple.move_message rnd warm getMessageSize sid k v in_ out n = Ok n' -> spends bw bw n n'.
Proof.
  unfold Simple.move_message. intros H. inv_bind H. inv_bind H. destruct (_ && _); [|simplify_res; apply spends_refl].
  inv_bind H. inv_bind H. inv_bind H. rename a3 into n1. inv_bind H. destruct a3 as [msg n2]. inv_bind H.
  inv_bind H. rename a4 into n3.
  apply dequeue_throttles in E4. apply enqueue_throttles in E6. destruct (transitivity E4 E6) as [HB HT]. clear E4 E6 E5.
  pose proof (upd_throttle_base _ _ _ E3) as B1. pose proof (upd_throttle_base _ _ _ H) as B2.
  split; [congruence|]. intros th Hth.
  apply upd_throttle_at in E3 as (th0 & th1 & Hth0 & Hf & Hth1). rewrite Hth in Hth0. simplify_res.
  apply upd_throttle_at in H as (th2 & th3 & Hth2 & Hg & Hth3). rewrite HT, Hth1 in Hth2. simplify_res.
  exists th3. split; [done|].
  apply (count_message_counted (Simple.base n)) in Hg as (Hc & Hu & Hp).
  inv_bind Hf. simplify_res. cbn in Hu, Hp. split_and!.
  - rewrite Hc. unfold remaining. rewrite Hu. apply (total_upd id) in E3 as (x & y & _ & Hy & Ht). simplify_res.
    rewrite Ht. unfold id. unfold counted, count_of. cbn. lia.
  - rewrite Hp. done.
  - intros Hs Hb HF. split; [lia|]. rewrite Hu. apply vec_upd_inv in E3 as (x & y & Hx & Hy & ->). simplify_res.
    apply Forall_insert; [done|]. apply vec_at_Ok in Hx as [_ Hx]. eapply Forall_lookup_1 in HF; [|done].
    specialize (Hs (getMessageSize a2)). cbn in HF. lia.
Qed.

Lemma transfer_spends v in_ out bw n bw' n' :
  Simple.transfer rnd warm getMessageSize sid k v in_ out bw n = Ok (bw', n') -> spends bw bw' n n'.
Proof.
  unfold Simple.transfer. intros H. inv_bind H. inv_bind H. inv_bind H. simplify_res.
  eapply spends_trans; [by eapply (move_message_spends _ _ _ bw)|].
  split; [by eapply upd_throttle_base|]. intros th Hth. unfold Simple.units in E0. rewrite Hth in E0. cbn in E0.
  apply upd_throttle_at in E1 as (th0 & th1 & Hth0 & Hf & Hth1). rewrite Hth in Hth0. simplify_res.
  exists th1. split; [done|]. inv_bind Hf. simplify_res. cbn. split_and!; [|done|].
  - unfold remaining. cbn. apply (total_upd id) in E1 as (x & y & Hx & Hy & Ht). rewrite E0 in Hx. simplify_res.
    rewrite Ht. unfold id, counted, count_of. cbn. lia.
  - intros Hs Hb HF. apply vec_upd_inv in E1 as (x & y & Hx & Hy & ->). rewrite E0 in Hx. simplify_res.
    apply vec_at_Ok in E0 as [_ E0]. pose proof (Forall_lookup_1 _ _ _ _ HF E0) as Hx. cbn in Hx.
    split; [lia|]. apply Forall_insert; [done|lia].
Qed.

Lemma transfer_loop_spends fuel v in_ out bw n bw' n' :
  Simple.transfer_loop rnd warm getMessageSize fuel sid k v in_ out bw n = Ok (bw', n') -> spends bw bw' n n'.
Proof.
  revert bw n. induction fuel as [|fuel IH]; intros bw n H; cbn in H; [done|].
  inv_bind H. inv_bind H. destruct a0 as [go n1]. apply when_work_throttles in E0.
  eapply spends_trans; [by apply spends_same|]. destruct go; [|simplify_res; apply spends_refl].
  inv_bind H. destruct a0 as [bw1 n2]. eapply spends_trans; [by eapply transfer_spends|by apply IH].
Qed.

Lemma throttle_operateVnet_spends v bw sch n bw' sch' n' :
  Simple.throttle_operateVnet rnd warm getMessageSize sid k v (bw, sch, n) = Ok (bw', sch', n') ->
  spends bw bw' n n'.
Proof.
  unfold Simple.throttle_operateVnet. intros H. inv_bind H. inv_bind H. inv_bind H.
  destruct a1 as [out|]; [|simplify_res; apply spends_refl]. inv_bind H. inv_bind H. inv_bind H. inv_bind H.
  destruct a4 as [bw1 n1]. inv_bind H. inv_bind H. destruct a5 as [av n2]. simplify_res.
  eapply spends_trans; [by eapply transfer_loop_spends|]. by eapply spends_same, when_work_throttles.
Qed.

(** C24: a throttle keeps to the bandwidth of its link. A wake-up uses between
    nothing and the whole bandwidth of a cycle, which it adds to the
    utilization; the size of the messages it starts in the wake-up is that
    bandwidth and what is added to the units that remain for later cycles. *)
Theorem throttle_keeps_bandwidth n n' th :
  Simple.throttle sid k n = Ok th ->
  (forall ty, 0 <= Throttle.network_message_to_size ty (Simple.base n)) ->
  Forall (fun u => 0 <= u) (Throttle.m_units_remaining th) ->
  Simple.throttle_wakeup rnd warm getMessageSize sid k n = Ok n' ->
  exists th' used, Simple.throttle sid k n' = Ok th' /\
    0 <= used <= Throttle.getLinkBandwidth th /\
    Throttle.m_link_utilization_proxy th' = Throttle.m_link_utilization_proxy th + used /\
    counted (Simple.base n) th' - counted (Simple.base n) th = used + (remaining th' - remaining th) /\
    Forall (fun u => 0 <= u) (Throttle.m_units_remaining th').
Proof.
  intros Hth Hs Hu H. unfold Simple.throttle_wakeup in H. rewrite Hth in H. cbn [mbind Res_bind] in H.
  inv_bind H. unfold assert_ in E. destruct (_ >? 0) eqn:Hbw in E; [|done]. rewrite Z.gtb_ltb in Hbw. zbool.
  destruct (Simple.invert_priorities _) as [w inv]. inv_bind H. rename a0 into n1.
  inv_bind H. destruct a0 as [[bw sch] n2]. inv_bind H. rename a0 into n3.
  pose proof (upd_throttle_base _ _ _ E0) as B1.
  apply upd_throttle_at in E0 as (th0 & th1 & Hth0 & Hf & Hth1). rewrite Hth in Hth0. simplify_res.
  apply (foldM_preserve (fun st => spends (Throttle.getLinkBandwidth th0) st.1.1 n1 st.2)) in E1.
  2:{ apply spends_refl. }
  2:{ intros v [[b1 s1] m1] [[b2 s2] m2] _ Hs1 Hv. eapply spends_trans; [exact Hs1|by eapply throttle_operateVnet_spends]. }
  destruct E1 as [B2 S2]. cbn in B2, S2. destruct (S2 _ Hth1) as (th2 & Hth2 & Hc & Hp & Hb).
  rewrite B1 in *. destruct (Hb Hs ltac:(lia) Hu) as [Hbw2 Hu2].
  apply upd_throttle_at in E2 as (th2' & th3 & Hth2' & Hf & Hth3). rewrite Hth2 in Hth2'. simplify_res.
  exists (Throttle.set_stats (Throttle.m_msg_counts th2') (Throttle.m_link_utilization_proxy th2' + (Throttle.getLinkBandwidth th0 - bw)) th2'),
    (Throttle.getLinkBandwidth th0 - bw).
  split_and!; [|lia|lia|cbn; rewrite Hp; done| |done].
  - destruct (_ && _); by simplify_res.
  - unfold counted, count_of, remaining in *. cbn in *. lia.
Qed.

End Account.
