(* ===== verification/SimpleExample.v ===== *)
(** * An instance of the simple network

    Two switches with one node each, joined in both directions, built by
    [Simple.init] from its links. The theorems on the simple network are
    instantiated here. *)

From stdpp Require Import sorting.
From S2P Require Import Prelude NetDest NetDestFacts Types FlitBuffer MsgBuffer MsgBufferFacts Topology TopologyDelivery Setup SimpleNet SimpleNetFacts SimpleRuns SimpleLoops SimpleBandwidth Example.

Module SimpleExample.

Local Notation unwrap := Example.unwrap.

Definition two : MachineTypes := {|
  MachineType_NUM := 1;
  MachineType_base_level := fun i => i;
  MachineType_base_count := fun _ => 2;
  MachineType_base_number := fun i => 2 * i
|}.

#[export] Instance two_ok : MachineTypesOk two.
Proof. split; cbn; unfold NUMBER_BITS_PER_SET; lia. Defined.

Definition bl : BasicLink.t := BasicLink.mk 1 16 1.
Definition exts : list ext_link := map (fun i => mk_ext_link 0 i i (new_SimpleExtLink bl)) [0; 1].
Definition ints : list int_link :=
  [mk_int_link 0 1 "East" "West" (new_SimpleIntLink bl); mk_int_link 1 0 "West" "East" (new_SimpleIntLink bl)].

Definition no_base : NetworkBase.t :=
  NetworkBase.mk 0 0 0 0 (Topology.mk 0 0 [] [] ∅) [] [] [] [].

(** Buffers 0 and 1 come from the controllers, 2 and 3 lead to them; the
    controllers consume these, under the names of interfaces. *)
Definition regs : list NetworkBase.registration :=
  map (fun i => NetworkBase.mk_registration true i false 0 "request" i) [0; 1] ++
  map (fun i => NetworkBase.mk_registration false i false 0 "request" (2 + i)) [0; 1].

Definition base : NetworkBase.t :=
  unwrap no_base (b ← NetworkBase.new two 1 8 2 exts ints; foldM NetworkBase.register regs b).

Definition fresh : MessageBuffer.t := MessageBuffer.new 0 true false.
Definition toward (i : Z) : MessageBuffer.t := MessageBuffer.set_consumer_ (Some (CNetworkInterface i)) fresh.

(** Buffers 4 and 5 are those of the internal links, 6 to 9 of the ports. *)
Definition unlinked (adaptive : bool) : Simple.t :=
  Simple.mk base [Switch.new 0 1 [6; 7]; Switch.new 1 1 [8; 9]] [4; 5] 0 0 1000 adaptive 1 1
    ([fresh; fresh; toward 0; toward 1] ++ replicate 6 fresh) (Consumer.mk [] ∅)
    (fun k => Z.of_nat k mod 256) 0 (fun _ => 1) 0.

Definition net : Simple.t :=
  unwrap (unlinked true) (n ← Simple.init two 64 (unlinked true); Ok (Simple.regStats n)).

Definition not_greater (a b : LinkOrder.t) : Prop := LinkOrder.m_value a <= LinkOrder.m_value b.

#[local] Instance not_greater_dec : RelDecision not_greater.
Proof. intros a b. unfold not_greater. apply _. Defined.

Definition sort : list LinkOrder.t -> list LinkOrder.t := merge_sort not_greater.

Lemma sort_permutes l : sort l ≡ₚ l.
Proof. apply merge_sort_Permutation. Qed.

Definition size_of (m : Message.t) : MessageSizeType := MessageSizeType_Data.

(** A message from node 0 to both nodes. *)
Definition message : Message.t := Message.new 1 (NetDest.mk [NodeSet.mk 2 3]) 42.

Definition injected : Simple.t := unwrap net (Simple.enqueue false false 0 message 1 net).
Definition switched : Simple.t :=
  unwrap net (Simple.dispatch two false false sort size_of (CPerfectSwitch 0) (Simple.at_event 0 2 injected)).

Ltac computes := apply TopologyDelivery.DeliveryExample.unwrap_ok; vm_compute; reflexivity.

Lemma injected_ok : Simple.enqueue false false 0 message 1 net = Ok injected.
Proof. computes. Qed.

Lemma switched_ok :
  Simple.dispatch two false false sort size_of (CPerfectSwitch 0) (Simple.at_event 0 2 injected) = Ok switched.
Proof. computes. Qed.

(** *** The network is well formed *)

Lemma orders_ok_net : orders_ok net.
Proof.
  assert (map (fun s => let p := Switch.m_perfect_switch s in
      (links (PerfectSwitch.m_link_order p), range 0 (zlen (PerfectSwitch.m_routing_table p))))
    (Simple.m_switches net) = [([0; 1], [0; 1]); ([0; 1], [0; 1])]) as H by (vm_compute; reflexivity).
  unfold orders_ok. apply Forall_forall. intros s Hs. apply list_elem_of_lookup in Hs as [k Hk].
  apply (map_lookup (fun s => let p := Switch.m_perfect_switch s in
      (links (PerfectSwitch.m_link_order p), range 0 (zlen (PerfectSwitch.m_routing_table p))))) in Hk.
  rewrite H in Hk. unfold switch_order_ok, order_ok.
  destruct k as [|[|k]]; cbn in Hk; try discriminate Hk; injection Hk as <- <-; reflexivity.
Defined.

Lemma sized_wf (b : Z) : dest_wf two (NetDest.mk [NodeSet.mk 2 b]).
Proof. split; [reflexivity|]. intros [|k] s Hs; cbn in Hs; [injection Hs as <-; reflexivity|discriminate]. Defined.

Lemma tables_wf_net : tables_wf two (wire_of net).
Proof.
  assert (map w_table (w_switches (wire_of net)) =
    [[NetDest.mk [NodeSet.mk 2 1]; NetDest.mk [NodeSet.mk 2 2]];
     [NetDest.mk [NodeSet.mk 2 2]; NetDest.mk [NodeSet.mk 2 1]]]) as H by (vm_compute; reflexivity).
  unfold tables_wf. apply Forall_forall. intros w Hw. apply list_elem_of_lookup in Hw as [k Hk].
  apply (map_lookup w_table) in Hk. rewrite H in Hk.
  destruct k as [|[|k]]; cbn in Hk; try discriminate Hk; injection Hk as <-; repeat (constructor; [apply sized_wf|]); constructor.
Defined.

Lemma heaps_net : heaps net = replicate 10 [].
Proof. vm_compute. reflexivity. Qed.

Lemma good_net : good two net.
Proof.
  split; [exact orders_ok_net|]. split; [exact tables_wf_net|]. rewrite heaps_net.
  repeat constructor.
Defined.

Lemma bufs_net : w_bufs (wire_of net) =
  [(Some (CPerfectSwitch 0), 0); (Some (CPerfectSwitch 1), 0); (Some (CNetworkInterface 0), 0);
   (Some (CNetworkInterface 1), 0); (Some (CPerfectSwitch 1), 0); (Some (CPerfectSwitch 0), 0);
   (Some (CThrottle 0 0), 0); (Some (CThrottle 0 1), 0); (Some (CThrottle 1 0), 0); (Some (CThrottle 1 1), 0)].
Proof. vm_compute. reflexivity. Qed.

Lemma no_switch_interface i v : no_switch (Some (CNetworkInterface i), v).
Proof. done. Qed.

Lemma no_switch_throttle i k v : no_switch (Some (CThrottle i k), v).
Proof. done. Qed.

Lemma wired_net : wired (wire_of net).
Proof.
  split.
  - intros sid v buf (w & p & ins & Hw & Hp & Hv). apply (map_lookup w_in) in Hw.
    assert (map w_in (w_switches (wire_of net)) = [[[Some 0]; [Some 5]]; [[Some 1]; [Some 4]]]) as H
      by (vm_compute; reflexivity).
    rewrite H in Hw. destruct sid as [|[|sid]]; cbn in Hw; try discriminate Hw; injection Hw as Hw; rewrite <- Hw in Hp;
      destruct p as [|[|p]]; cbn in Hp; try discriminate Hp; injection Hp as <-; destruct v as [|v]; cbn in Hv; try discriminate Hv; injection Hv as <-;
      rewrite bufs_net; eexists _, _; (split; [vm_compute; reflexivity|split; reflexivity]).
  - intros buf (sid & w & th & Hw & Hth & Hb). apply (map_lookup w_throttles) in Hw.
    assert (map w_throttles (w_switches (wire_of net)) =
      [[([6], [Some 2]); ([7], [Some 4])]; [([8], [Some 3]); ([9], [Some 5])]]) as H by (vm_compute; reflexivity).
    rewrite H in Hw. destruct sid as [|[|sid]]; cbn in Hw; try discriminate Hw; injection Hw as Hw; rewrite <- Hw in Hth;
      (apply elem_of_cons in Hth as [->|Hth%list_elem_of_singleton]; [|subst th]);
      apply list_elem_of_singleton in Hb; cbn in Hb; subst buf;
      eexists; (split; [vm_compute; reflexivity|apply no_switch_throttle]).
  - intros buf (q & Hq & Hb).
    assert (NetworkBase.m_fromNetQueues (w_base (wire_of net)) = [[Some 2]; [Some 3]]) as H by (vm_compute; reflexivity).
    rewrite H in Hq. apply elem_of_cons in Hq as [->|Hq%list_elem_of_singleton]; [|subst q];
      apply list_elem_of_singleton in Hb; injection Hb as ->;
      eexists; (split; [vm_compute; reflexivity|apply no_switch_interface]).
Defined.

(** *** A run: the message is enqueued and switch 0 sends it both ways *)

Lemma run_switched : Simple.run two false false sort size_of net [message] [] switched.
Proof.
  apply (Simple.run_event two false false sort size_of net [message] [] injected 0 (CPerfectSwitch 0) 2).
  - apply (Simple.run_inject two false false sort size_of net [] [] net 0 message 1 injected).
    + apply Simple.run_start.
    + exists [Some 0]. assert (NetworkBase.m_toNetQueues (Simple.base net) = [[Some 0]; [Some 1]]) as ->
        by (vm_compute; reflexivity). split; left.
    + exact injected_ok.
  - vm_compute. reflexivity.
  - assert (Consumer.events (Simple.evq injected) = [(CPerfectSwitch 0, 2)]) as -> by (vm_compute; reflexivity).
    repeat constructor. cbn. lia.
  - exact switched_ok.
Defined.

Lemma injected_message_wf : Forall (msg_wf two) [message].
Proof. constructor; [apply sized_wf|constructor]. Defined.

(** The copies for machine 1 of all messages. *)
Lemma simple_network_conserves_witness :
  copies (fun _ _ => true) 0 1 (heaps switched) = 1.
Proof.
  pose proof (simple_network_conserves two false false sort size_of sort_permutes (fun _ _ => true) 0 1 net [message] []
    switched ltac:(unfold NUMBER_BITS_PER_SET; lia) good_net run_switched injected_message_wf) as H.
  rewrite heaps_net in H.
  assert (copies (fun _ _ => true) 0 1 (replicate 10 []) = 0) as H0 by (vm_compute; reflexivity).
  assert (total (copy (fun _ _ => true) 0 1) [message] = 1) as H1 by (vm_compute; reflexivity).
  rewrite H0, H1 in H. cbn [total] in H. lia.
Defined.

Lemma pending_net : pending_ok net.
Proof.
  intros sid v. rewrite heaps_net, bufs_net. assert (pends net = [[0]; [0]]) as -> by (vm_compute; reflexivity).
  unfold pending, waiting. cbn. change (zlen (@nil Message.t)) with 0.
  destruct sid as [|[|sid]], v as [|v]; cbn; reflexivity.
Defined.

Lemma pending_count_exact_witness : pending_ok switched.
Proof.
  exact (pending_count_exact two false false sort size_of sort_permutes net [message] [] switched good_net wired_net
    pending_net run_switched injected_message_wf).
Defined.

Lemma simple_wakeups_end_witness :
  Simple.dispatch two false false sort size_of (CThrottle 0 1) (Simple.at_event 1 3 switched) <> Err (FatalError "fuel").
Proof. exact (simple_wakeups_end two false false sort size_of sort_permutes _ _). Defined.

(** Switch 0 looks at its link to switch 1 first. *)
Definition order01 : list LinkOrder.t := [LinkOrder.mk 1 0; LinkOrder.mk 0 7].
Definition table0 : list NetDest.t := [NetDest.mk [NodeSet.mk 2 1]; NetDest.mk [NodeSet.mk 2 2]].

Lemma route_splits_destinations_witness :
  PerfectSwitch.route two order01 table0 (Message.m_dest message)
    = Ok ([(1, NetDest.mk [NodeSet.mk 2 2]); (0, NetDest.mk [NodeSet.mk 2 1])], NetDest.mk [NodeSet.mk 2 0]) /\
  exists outs rest, PerfectSwitch.route two order01 table0 (Message.m_dest message) = Ok (outs, rest) /\
    served 0 1 outs = 1.
Proof.
  split; [vm_compute; reflexivity|].
  assert (Forall (dest_wf two) table0) as Ht by (repeat (constructor; [apply sized_wf|]); constructor).
  assert (order_ok order01 table0) as Ho by (apply Permutation_swap).
  destruct (route_splits_destinations two order01 table0 Ht Ho (Message.m_dest message) (sized_wf 3))
    as (outs & rest & H1 & H2 & _).
  exists outs, rest. split; [exact H1|]. rewrite (H2 0 1 ltac:(lia)). vm_compute. reflexivity.
Defined.

(** *** A cycle of the throttle towards switch 1 *)

Definition at_throttle : Simple.t := Simple.at_event 1 3 switched.
Definition throttled_net : Simple.t :=
  unwrap net (Simple.throttle_wakeup false false size_of 0 1 at_throttle).

Definition some_throttle : Throttle.t := Throttle.mk [] [] 0 [] 0 0 1 1 0 1000 [] 0.
Definition th01 : Throttle.t := unwrap some_throttle (Simple.throttle 0 1 at_throttle).

Lemma throttle_keeps_bandwidth_witness :
  exists th' used, Simple.throttle 0 1 throttled_net = Ok th' /\ 0 <= used <= 16000 /\
    counted (Simple.base at_throttle) th' - counted (Simple.base at_throttle) th01
    = used + (remaining th' - remaining th01).
Proof.
  destruct (throttle_keeps_bandwidth false false size_of 0 1 at_throttle throttled_net th01)
    as (th' & used & H1 & H2 & _ & H3 & _).
  - computes.
  - assert (NetworkBase.m_control_msg_size (Simple.base at_throttle) = 8 /\
            NetworkBase.m_data_msg_size (Simple.base at_throttle) = 72) as [Hc Hd] by (vm_compute; done).
    intros ty. unfold Throttle.network_message_to_size, NetworkBase.MessageSizeType_to_int.
    rewrite Hc, Hd. destruct ty; vm_compute; discriminate.
  - assert (Throttle.m_units_remaining th01 = [0]) as -> by (vm_compute; reflexivity). by repeat constructor.
  - computes.
  - exists th', used. split; [exact H1|]. split; [|exact H3].
    assert (Throttle.getLinkBandwidth th01 = 16000) as Hb by (vm_compute; reflexivity). rewrite Hb in H2. exact H2.
Defined.

(** The message is larger than the bandwidth of a cycle: 72000 units. *)
Lemma throttle_example : Simple.units 0 1 0 throttled_net = Ok 56000.
Proof. vm_compute. reflexivity. Qed.

End SimpleExample.
