(* ===== verification/Traffic.v ===== *)
(** * The synthetic traffic generator

    Models src/cpu/testers/garnet_synthetic_traffic/GarnetSyntheticTraffic.{hh,cc},
    the processors of the experiments with DRAIN: in every cycle a tester may
    generate a packet for the destination its traffic pattern prescribes, and
    hands it to its cache port. The values of [random_mt] and the answers of
    the port come from the environment and are arguments. *)

From S2P Require Import Prelude.

Inductive TrafficType :=
  | BIT_COMPLEMENT_
  | BIT_REVERSE_
  | BIT_ROTATION_
  | NEIGHBOR_
  | SHUFFLE_
  | TORNADO_
  | TRANSPOSE_
  | UNIFORM_RANDOM_.

#[export] Instance TrafficType_eq_dec : EqDecision TrafficType.
Proof. solve_decision. Defined.

(** ** Destinations *)
Module Pattern.

(** [(int) sqrt(num_destinations)] *)
Definition radix (num_destinations : Z) : Z := Z.sqrt num_destinations.

(** The loop of BIT_REVERSE: [reverse] and [straight] are unsigned. *)
Definition reverse_step (st : Z * Z) : Z * Z :=
  let '(reverse, straight) := st in
  let reverse := u32 (Z.shiftl reverse 1) in
  let straight := Z.shiftr straight 1 in
  (Z.lor reverse (Z.land straight 1), straight).

Definition bit_reverse (num_destinations source : Z) : Z :=
  let num_bits := Z.log2 num_destinations in
  let straight := u32 source in
  (Nat.iter (Z.to_nat (num_bits - 1)) reverse_step (Z.land straight 1, straight)).1.

(** The destination of [source] in a deterministic pattern. *)
Definition destination (traffic : TrafficType) (num_destinations source : Z) : Z :=
  let radix := radix num_destinations in
  let src_x := Z.rem source radix in
  let src_y := Z.quot source radix in
  u32 match traffic with
      | BIT_COMPLEMENT_ => (radix - src_y - 1) * radix + (radix - src_x - 1)
      | BIT_REVERSE_ => bit_reverse num_destinations source
      | BIT_ROTATION_ =>
          if Z.rem source 2 =? 0 then Z.quot source 2
          else Z.quot source 2 + Z.quot num_destinations 2
      | NEIGHBOR_ => src_y * radix + Z.rem (src_x + 1) radix
      | SHUFFLE_ =>
          if source <? Z.quot num_destinations 2 then source * 2
          else source * 2 - num_destinations + 1
      | TRANSPOSE_ => src_x * radix + src_y
      | TORNADO_ => src_y * radix + Z.rem (src_x + Z.quot radix 2 - 1) radix
      | UNIFORM_RANDOM_ => source
      end.

End Pattern.

(** ** [class GarnetSyntheticTraffic] *)
Module Tester.

(** What the network tests see of a packet: read or write, instruction fetch,
    address and context. *)
Record packet := mk_packet {
  is_write : bool;
  inst_fetch : bool;
  paddr : Z;
  context : Z
}.

(** [inj_limit] is the least integer that is not below [injRate*injRange],
    a product of doubles. *)
Record t := mk {
  id : Z;
  numDestinations : Z;
  blockSizeBits : Z;
  simCycles : Z;
  numPacketsMax : Z;
  numPacketsSent : Z;
  singleSender : Z;
  singleDest : Z;
  sim_type : Z;
  traffic : TrafficType;
  inj_limit : Z;
  injVnet : Z;
  responseLimit : Z;
  noResponseCycles : Z;
  retryPkt : option packet
}.

Definition set_sent (k : Z) (s : t) : t :=
  mk (id s) (numDestinations s) (blockSizeBits s) (simCycles s) (numPacketsMax s) k
    (singleSender s) (singleDest s) (sim_type s) (traffic s) (inj_limit s) (injVnet s)
    (responseLimit s) (noResponseCycles s) (retryPkt s).

Definition set_noResponse (k : Z) (s : t) : t :=
  mk (id s) (numDestinations s) (blockSizeBits s) (simCycles s) (numPacketsMax s)
    (numPacketsSent s) (singleSender s) (singleDest s) (sim_type s) (traffic s) (inj_limit s)
    (injVnet s) (responseLimit s) k (retryPkt s).

Definition set_retry (p : option packet) (s : t) : t :=
  mk (id s) (numDestinations s) (blockSizeBits s) (simCycles s) (numPacketsMax s)
    (numPacketsSent s) (singleSender s) (singleDest s) (sim_type s) (traffic s) (inj_limit s)
    (injVnet s) (responseLimit s) (noResponseCycles s) p.

Definition traffic_of_string (s : string) : option TrafficType :=
  if bool_decide (s = "bit_complement") then Some BIT_COMPLEMENT_
  else if bool_decide (s = "bit_reverse") then Some BIT_REVERSE_
  else if bool_decide (s = "bit_rotation") then Some BIT_ROTATION_
  else if bool_decide (s = "neighbor") then Some NEIGHBOR_
  else if bool_decide (s = "shuffle") then Some SHUFFLE_
  else if bool_decide (s = "tornado") then Some TORNADO_
  else if bool_decide (s = "transpose") then Some TRANSPOSE_
  else if bool_decide (s = "uniform_random") then Some UNIFORM_RANDOM_
  else None.

(** The constructor, with the number [tester_network] of testers before it,
    which it counts up. *)
Definition new (num_dest block_offset sim_cycles num_packets_max single_sender single_dest sim_type : Z)
    (traffic_type : string) (inj_limit inj_vnet response_limit tester_network : Z)
    : Res (t * Z) :=
  match traffic_of_string traffic_type with
  | None => Err (FatalError "Unknown Traffic Type")
  | Some traffic =>
      Ok (mk tester_network num_dest block_offset sim_cycles num_packets_max 0 single_sender
            single_dest sim_type traffic inj_limit inj_vnet response_limit 0 None,
          tester_network + 1)
  end.

Definition init (s : t) : t := set_sent 0 s.

(** [sendPkt] with the answer of the port; a packet that is refused waits in
    [retryPkt]. The packet that was taken is the second component. *)
Definition sendPkt (accepted : bool) (pkt : packet) (s : t) : t * option packet :=
  let s' := if accepted then s else set_retry (Some pkt) s in
  (set_sent (numPacketsSent s' + 1) s', if accepted then Some pkt else None).

Definition doRetry (accepted : bool) (s : t) : Res (t * option packet) :=
  match retryPkt s with
  | None => Err (NullDeref "retryPkt")
  | Some pkt => Ok (if accepted then (set_retry None s, Some pkt) else (s, None))
  end.

Definition completeRequest (isResponse : bool) (s : t) : Res t :=
  _ ← assert_ isResponse "GarnetSyntheticTraffic.cc:138";
  Ok (set_noResponse 0 s).

(** The destination: one that is configured, a random one, or that of the
    pattern. A division by zero stops the simulator. *)
Definition choose (rand_dest : Z) (s : t) : Res Z :=
  if Pattern.radix (numDestinations s) =? 0 then Err (FatalError "division by zero")
  else if singleDest s >=? 0 then Ok (u32 (singleDest s))
  else if bool_decide (traffic s = UNIFORM_RANDOM_) then Ok rand_dest
  else Ok (Pattern.destination (traffic s) (numDestinations s) (id s)).

(** The virtual network decides on the kind of the request. *)
Definition request (rand_vnet : Z) (addr : Z) (s : t) : packet :=
  let injReqType :=
    if (injVnet s <? 0) || (injVnet s >? 2) then rand_vnet else injVnet s in
  if injReqType =? 0 then mk_packet false false addr (id s)
  else if injReqType =? 1 then mk_packet false true addr (id s)
  else mk_packet true false addr (id s).

(** The values of [random_mt] and the answer of the port in one cycle. *)
Record env := mk_env {
  trySending : Z;
  rand_dest : Z;
  rand_vnet : Z;
  accepted : bool
}.

Definition generatePkt (e : env) (s : t) : Res (t * option packet) :=
  destination ← choose (rand_dest e) s;
  let paddr := u64 (Z.shiftl destination (blockSizeBits s)) in
  Ok (sendPkt (accepted e) (request (rand_vnet e) paddr s) s).

(** What becomes of the tick event: scheduled for the next clock edge, or the
    end of the simulation. *)
Inductive next := Scheduled (edge : Z) | ExitSimLoop.

Definition sender_enabled (s : t) : bool :=
  negb ((numPacketsMax s >=? 0) && (numPacketsSent s >=? numPacketsMax s)) &&
  negb ((singleSender s >=? 0) && negb (id s =? singleSender s)).

Definition schedule_tick (curTick next_edge : Z) (s : t) : Res next :=
  if sim_type s =? 1 then
    Ok (if curTick >=? simCycles s then ExitSimLoop else Scheduled next_edge)
  else if sim_type s =? 2 then Ok (Scheduled next_edge)
  else Err (FatalError "unknown 'sim_type' option given").

Definition tick (curTick next_edge : Z) (e : env) (s : t) : Res (t * option packet * next) :=
  let s := set_noResponse (u64 (noResponseCycles s + 1)) s in
  '(s, sent) ← (if (trySending e <? inj_limit s) && sender_enabled s then generatePkt e s
                else Ok (s, None));
  n ← schedule_tick curTick next_edge s;
  Ok (s, sent, n).

End Tester.
