(* ===== verification/TrafficFacts.v ===== *)
(** * The synthetic traffic generator: theorems

    The traffic patterns are permutations of the nodes, so that every node
    receives as much as it sends; bit rotation undoes the shuffle and bit
    reversal itself. A tester sends at most one packet per cycle, to the
    destination of its pattern, and no more packets than it may; but a packet
    that waits for a retry is lost when the next one is refused too. *)

From S2P Require Import Prelude Traffic.

Import Pattern.

(** ** The mesh patterns *)

Section Mesh.
Context (r : Z).
Hypothesis Hr : 0 < r.

Lemma radix_square : radix (r * r) = r.
Proof. unfold radix. apply Z.sqrt_square. lia. Qed.

(** Coordinates: [y * r + x] is a bijection. *)
Lemma coordinates_inj x y x' y' :
  0 <= x < r -> 0 <= x' < r -> y * r + x = y' * r + x' -> x = x' /\ y = y'.
Proof. intros. assert (y = y') by nia. nia. Qed.

Lemma coordinates_bound x y : 0 <= x < r -> 0 <= y < r -> 0 <= y * r + x < r * r.
Proof. nia. Qed.

Lemma source_coordinates s :
  0 <= s < r * r ->
  let x := Z.rem s r in let y := Z.quot s r in 0 <= x < r /\ 0 <= y < r /\ s = y * r + x.
Proof.
  intros Hs x y. unfold x, y. rewrite Z.rem_mod_nonneg, Z.quot_div_nonneg by lia.
  pose proof (Z.mod_pos_bound s r Hr). pose proof (Z.div_mod s r). pose proof (Z.div_pos s r).
  pose proof (Z.div_lt_upper_bound s r r). lia.
Qed.

(** A rotation of a row. *)
Lemma rotation_inj k x x' :
  0 <= x < r -> 0 <= x' < r -> (x + k) mod r = (x' + k) mod r -> x = x'.
Proof.
  intros Hx Hx' H. pose proof (Z.div_mod (x + k) r). pose proof (Z.div_mod (x' + k) r).
  assert (x - x' = r * ((x + k) / r - (x' + k) / r)) as Heq by (rewrite Z.mul_sub_distr_l; lia).
  assert ((x + k) / r - (x' + k) / r = 0) as Hq by nia. rewrite Hq in Heq. lia.
Qed.

End Mesh.

(** ** Bit reversal *)

(** After [i] iterations: the lowest [i + 1] bits in reverse order. *)
Definition reversed (s i : Z) (st : Z * Z) : Prop :=
  st.2 = Z.shiftr s i /\ 0 <= st.1 < 2 ^ (i + 1) /\
  forall j, 0 <= j <= i -> Z.testbit st.1 j = Z.testbit s (i - j).

Lemma bits_bound z n : 0 <= n -> 0 <= z -> (forall j, n <= j -> Z.testbit z j = false) -> z < 2 ^ n.
Proof.
  intros Hn Hz Hb. destruct (Z.eq_dec z 0) as [->|Hne]; [apply Z.pow_pos_nonneg; lia|].
  apply Z.log2_lt_pow2; [lia|]. destruct (Z.lt_ge_cases (Z.log2 z) n); [done|].
  pose proof (Z.bit_log2 z). rewrite Hb in * by done. assert (false = true) by (apply H0; lia). done.
Qed.

Lemma bits_above k z j : 0 <= z < 2 ^ k -> 0 <= k <= j -> Z.testbit z j = false.
Proof. intros Hz Hj. rewrite <- (Z.mod_small z (2 ^ k)) by done. apply Z.mod_pow2_bits_high. lia. Qed.

Lemma reverse_step_spec s i st :
  0 <= s -> 0 <= i < 31 -> reversed s i st -> reversed s (i + 1) (reverse_step st).
Proof.
  intros Hs Hi (H2 & H1 & Hb). destruct st as [rev str]. cbn in *. subst str.
  assert (2 ^ (i + 1) <= 2 ^ 31) as Hp by (apply Z.pow_le_mono_r; lia).
  assert (u32 (Z.shiftl rev 1) = Z.shiftl rev 1) as ->.
  { unfold u32. apply Z.mod_small. rewrite Z.shiftl_mul_pow2 by lia. change (2 ^ 1) with 2. lia. }
  rewrite Z.shiftr_shiftr by lia.
  assert (forall j, 0 <= j -> Z.testbit (Z.lor (Z.shiftl rev 1) (Z.land (Z.shiftr s (i + 1)) 1)) j =
    if j =? 0 then Z.testbit s (i + 1) else Z.testbit rev (j - 1)) as Hbit.
  { intros j Hj. rewrite Z.lor_spec, Z.land_spec, Z.shiftl_spec, Z.shiftr_spec by lia.
    rewrite (Z.pow2_bits_eqb 0 j ltac:(lia) : Z.testbit 1 j = (0 =? j)).
    destruct (Z.eqb_spec j 0) as [->|Hj0].
    - rewrite Z.testbit_neg_r by lia. rewrite andb_true_r. done.
    - rewrite (proj2 (Z.eqb_neq 0 j)), andb_false_r, orb_false_r by lia. done. }
  split; [done|]. cbn. split.
  - assert (0 <= Z.lor (Z.shiftl rev 1) (Z.land (Z.shiftr s (i + 1)) 1)) as Hnn.
    { apply Z.lor_nonneg. split; [apply Z.shiftl_nonneg; lia|]. apply Z.land_nonneg. by right. }
    split; [done|]. apply bits_bound; [lia|done|]. intros j Hj. rewrite Hbit by lia.
    rewrite (proj2 (Z.eqb_neq _ _)) by lia. apply (bits_above (i + 1)); lia.
  - intros j Hj. rewrite Hbit by lia. destruct (Z.eqb_spec j 0) as [->|Hj0]; [f_equal; lia|].
    rewrite Hb by lia. f_equal. lia.
Qed.

Lemma bit_reverse_spec k s :
  0 <= k < 32 -> 0 <= s < 2 ^ k ->
  0 <= bit_reverse (2 ^ k) s < 2 ^ k /\
  forall j, 0 <= j < k -> Z.testbit (bit_reverse (2 ^ k) s) j = Z.testbit s (k - 1 - j).
Proof.
  intros Hk Hs. unfold bit_reverse. rewrite Z.log2_pow2 by lia.
  assert (2 ^ k <= 2 ^ 31) by (apply Z.pow_le_mono_r; lia).
  assert (u32 s = s) as -> by (unfold u32; apply Z.mod_small; lia).
  destruct (Z.eq_dec k 0) as [->|Hk0]; [replace s with 0 by lia; split; [done|lia]|].
  assert (forall i : nat, Z.of_nat i <= k - 1 -> reversed s (Z.of_nat i) (Nat.iter i reverse_step (Z.land s 1, s))) as Hall.
  { induction i as [|i IH]; intros Hi.
    - split; [cbn; by rewrite Z.shiftr_0_r|]. cbn. assert (Z.land s 1 = s mod 2) as Hl by (change 1 with (Z.ones 1); by rewrite Z.land_ones).
      rewrite Hl. split; [apply Z.mod_pos_bound; lia|]. intros j Hj. replace j with 0 by lia.
      replace (0 - 0) with 0 by lia.
      rewrite ?Z.bit0_odd, <- ?Z.bit0_odd. apply (Z.mod_pow2_bits_low s 1 0). lia.
    - replace (Z.of_nat (S i)) with (Z.of_nat i + 1) by lia. cbn [Nat.iter]. apply reverse_step_spec; [lia|lia|]. apply IH. lia. }
  specialize (Hall (Z.to_nat (k - 1))). rewrite Z2Nat.id in Hall by lia. destruct Hall as (_ & Hbd & Hbits); [lia|].
  replace (k - 1 + 1) with k in Hbd by lia. split; [done|]. intros j Hj. rewrite Hbits by lia. done.
Qed.

(** ** Permutations *)

(** The numbers of nodes a pattern is meant for. *)
Definition fits (traffic : TrafficType) (n : Z) : Prop :=
  n < 2 ^ 31 /\
  match traffic with
  | BIT_COMPLEMENT_ | NEIGHBOR_ | TRANSPOSE_ | TORNADO_ => exists r, 0 < r /\ n = r * r
  | BIT_ROTATION_ | SHUFFLE_ => exists h, 0 < h /\ n = 2 * h
  | BIT_REVERSE_ => exists k, 0 <= k /\ n = 2 ^ k
  | UNIFORM_RANDOM_ => False
  end.

Lemma u32_small z : 0 <= z < 2 ^ 31 -> u32 z = z.
Proof. intros. unfold u32. apply Z.mod_small. lia. Qed.

(** The coordinates of the destination in a mesh pattern. *)
Definition image (traffic : TrafficType) (r x y : Z) : Z * Z :=
  match traffic with
  | BIT_COMPLEMENT_ => (r - x - 1, r - y - 1)
  | NEIGHBOR_ => ((x + 1) mod r, y)
  | TRANSPOSE_ => (y, x)
  | TORNADO_ => ((x + (r / 2 - 1)) mod r, y)
  | _ => (x, y)
  end.

Definition mesh_pattern (traffic : TrafficType) : bool :=
  match traffic with BIT_COMPLEMENT_ | NEIGHBOR_ | TRANSPOSE_ | TORNADO_ => true | _ => false end.

Lemma mesh_destination traffic r s :
  mesh_pattern traffic = true -> 0 < r -> r * r < 2 ^ 31 -> 0 <= s < r * r ->
  let x := Z.rem s r in let y := Z.quot s r in let p := image traffic r x y in
  0 <= p.1 < r /\ 0 <= p.2 < r /\ destination traffic (r * r) s = p.2 * r + p.1.
Proof.
  intros Ht Hr Hn Hs x y p. destruct (source_coordinates r Hr s Hs) as (Hx & Hy & Heq). fold x y in Hx, Hy, Heq.
  assert (0 <= p.1 < r /\ 0 <= p.2 < r) as [H1 H2].
  { unfold p. destruct traffic; cbn; try done; split; try lia; apply Z.mod_pos_bound; lia. }
  split_and!; [lia..|]. unfold destination. rewrite radix_square by done. fold x y.
  pose proof (coordinates_bound r Hr p.1 p.2 H1 H2).
  assert (Z.rem (x + 1) r = (x + 1) mod r) as E1 by (apply Z.rem_mod_nonneg; lia).
  assert (0 <= r / 2 /\ (r = 1 \/ 1 <= r / 2)) as [Hh Hc].
  { split; [apply Z.div_pos; lia|]. destruct (Z.eq_dec r 1); [by left|right]. apply Z.div_le_lower_bound; lia. }
  assert (Z.rem (x + Z.quot r 2 - 1) r = (x + (r / 2 - 1)) mod r) as E2.
  { rewrite Z.quot_div_nonneg by lia. replace (x + (r / 2 - 1)) with (x + r / 2 - 1) by lia.
    destruct Hc as [->|Hc]; [|apply Z.rem_mod_nonneg; lia]. replace x with 0 by lia. done. }
  rewrite <- (u32_small (p.2 * r + p.1)) by lia. f_equal.
  unfold p. destruct traffic; try done; cbn; rewrite ?E1, ?E2; lia.
Qed.

Lemma image_inj traffic r x y x' y' :
  mesh_pattern traffic = true -> 0 < r -> 0 <= x < r -> 0 <= x' < r ->
  image traffic r x y = image traffic r x' y' -> x = x' /\ y = y'.
Proof.
  intros Ht Hr Hx Hx' H. destruct traffic; try done; cbn in H; injection H as H1 H2; split; try lia;
    by eapply (rotation_inj r Hr).
Qed.

(** Shuffle and rotation of a ring of [2 * h] nodes. *)
Lemma shuffle_spec h s :
  0 < h -> 2 * h < 2 ^ 31 -> 0 <= s < 2 * h ->
  destination SHUFFLE_ (2 * h) s = if s <? h then s * 2 else s * 2 - 2 * h + 1.
Proof.
  intros Hh Hn Hs. unfold destination. assert (Z.quot (2 * h) 2 = h) as -> by (rewrite Z.mul_comm; by apply Z.quot_mul).
  destruct (Z.ltb_spec s h); apply u32_small; lia.
Qed.

Lemma rotation_spec h s :
  0 < h -> 2 * h < 2 ^ 31 -> 0 <= s < 2 * h ->
  destination BIT_ROTATION_ (2 * h) s = if s mod 2 =? 0 then s / 2 else s / 2 + h.
Proof.
  intros Hh Hn Hs. unfold destination. assert (Z.quot (2 * h) 2 = h) as -> by (rewrite Z.mul_comm; by apply Z.quot_mul).
  rewrite Z.rem_mod_nonneg, Z.quot_div_nonneg by lia.
  assert (0 <= s / 2 < h) by (split; [apply Z.div_pos; lia|apply Z.div_lt_upper_bound; lia]).
  destruct (s mod 2 =? 0); apply u32_small; lia.
Qed.

Lemma rotation_shuffle h s :
  0 < h -> 2 * h < 2 ^ 31 -> 0 <= s < 2 * h ->
  0 <= destination SHUFFLE_ (2 * h) s < 2 * h /\
  destination BIT_ROTATION_ (2 * h) (destination SHUFFLE_ (2 * h) s) = s.
Proof.
  intros Hh Hn Hs. rewrite shuffle_spec by done. destruct (Z.ltb_spec s h).
  - split; [lia|]. rewrite rotation_spec by lia. rewrite Z.mod_mul, Z.div_mul by lia. done.
  - split; [lia|]. rewrite rotation_spec by lia.
    replace (s * 2 - 2 * h + 1) with (1 + (s - h) * 2) by lia.
    rewrite Z.mod_add, Z.div_add by lia. change (1 mod 2) with 1. change (1 / 2) with 0. cbn [Z.eqb]. lia.
Qed.

Lemma shuffle_rotation h s :
  0 < h -> 2 * h < 2 ^ 31 -> 0 <= s < 2 * h ->
  0 <= destination BIT_ROTATION_ (2 * h) s < 2 * h /\
  destination SHUFFLE_ (2 * h) (destination BIT_ROTATION_ (2 * h) s) = s.
Proof.
  intros Hh Hn Hs. rewrite rotation_spec by done.
  assert (0 <= s / 2 < h) by (split; [apply Z.div_pos; lia|apply Z.div_lt_upper_bound; lia]).
  pose proof (Z.div_mod s 2). pose proof (Z.mod_pos_bound s 2).
  destruct (Z.eqb_spec (s mod 2) 0); (split; [lia|]); rewrite shuffle_spec by lia;
    [rewrite (proj2 (Z.ltb_lt _ _)) by lia|rewrite (proj2 (Z.ltb_ge _ _)) by lia]; lia.
Qed.

Lemma reverse_reverse k s :
  0 <= k < 31 -> 0 <= s < 2 ^ k ->
  0 <= destination BIT_REVERSE_ (2 ^ k) s < 2 ^ k /\
  destination BIT_REVERSE_ (2 ^ k) (destination BIT_REVERSE_ (2 ^ k) s) = s.
Proof.
  intros Hk Hs. assert (2 ^ k <= 2 ^ 30) by (apply Z.pow_le_mono_r; lia).
  destruct (bit_reverse_spec k s) as [Hb Hbit]; [lia|done|].
  assert (destination BIT_REVERSE_ (2 ^ k) s = bit_reverse (2 ^ k) s) as -> by (apply u32_small; lia).
  split; [done|]. destruct (bit_reverse_spec k _ ltac:(lia) Hb) as [Hb' Hbit'].
  assert (destination BIT_REVERSE_ (2 ^ k) (bit_reverse (2 ^ k) s) = bit_reverse (2 ^ k) (bit_reverse (2 ^ k) s)) as ->
    by (apply u32_small; lia).
  apply Z.bits_inj'. intros j Hj. destruct (Z.lt_ge_cases j k) as [Hjk|Hjk].
  - rewrite Hbit', Hbit by lia. f_equal. lia.
  - rewrite !(bits_above k) by lia. done.
Qed.

(** C32: the deterministic traffic patterns are permutations of the nodes: for
    the numbers of nodes a pattern is meant for (squares for the patterns on
    coordinates, even numbers for shuffle and bit rotation, powers of two for
    bit reversal), every destination is a node and no two nodes send to the
    same one. *)
Theorem destination_permutes traffic n s s' :
  fits traffic n -> 0 <= s < n -> 0 <= s' < n ->
  0 <= destination traffic n s < n /\
  (destination traffic n s = destination traffic n s' -> s = s').
Proof.
  intros [Hn Hf] Hs Hs'. destruct (mesh_pattern traffic) eqn:Ht.
  - assert (exists r, 0 < r /\ n = r * r) as (r & Hr & ->) by (by destruct traffic).
    destruct (mesh_destination traffic r s) as (H1 & H2 & ->); [done..|].
    destruct (mesh_destination traffic r s') as (H1' & H2' & ->); [done..|].
    destruct (source_coordinates r Hr s Hs) as (Hx & Hy & Heq), (source_coordinates r Hr s' Hs') as (Hx' & Hy' & Heq').
    split; [by apply coordinates_bound|]. intros H. apply (coordinates_inj r Hr) in H as [E1 E2]; [|done|done].
    pose proof (injective_projections _ _ E1 E2) as Hi. apply image_inj in Hi as [E3 E4]; [|done..].
    rewrite Heq, Heq'. congruence.
  - destruct traffic; try done.
    + destruct Hf as (k & Hk & ->). assert (k < 31) by (apply (Z.pow_lt_mono_r_iff 2); lia).
      destruct (reverse_reverse k s ltac:(lia) Hs) as [Hb E], (reverse_reverse k s' ltac:(lia) Hs') as [_ E'].
      split; [done|]. congruence.
    + destruct Hf as (h & Hh & ->). destruct (shuffle_rotation h s Hh Hn Hs) as [Hb E], (shuffle_rotation h s' Hh Hn Hs') as [_ E'].
      split; [done|]. congruence.
    + destruct Hf as (h & Hh & ->). destruct (rotation_shuffle h s Hh Hn Hs) as [Hb E], (rotation_shuffle h s' Hh Hn Hs') as [_ E'].
      split; [done|]. congruence.
Qed.

(** ** Runs of a tester *)

Import Tester.

Section Runs.
Context (s0 : t).

(** A run: the packets the port has taken. In a cycle the tester ticks, the
    port may ask for the packet that waits, and responses arrive. *)
Inductive run : t -> list packet -> Prop :=
  | run_start : run s0 []
  | run_tick s l curTick edge e s' sent n :
      run s l -> tick curTick edge e s = Ok (s', sent, n) -> run s' (l ++ option_list sent)
  | run_retry s l b s' sent :
      run s l -> doRetry b s = Ok (s', sent) -> run s' (l ++ option_list sent)
  | run_response s l s' : run s l -> completeRequest true s = Ok s' -> run s' l.

(** The parameters of a tester. *)
Definition same_params (s : t) : Prop :=
  id s = id s0 /\ numDestinations s = numDestinations s0 /\ blockSizeBits s = blockSizeBits s0 /\
  numPacketsMax s = numPacketsMax s0 /\ singleSender s = singleSender s0 /\
  singleDest s = singleDest s0 /\ traffic s = traffic s0.

(** A packet of this tester for a destination of its pattern. *)
Definition addressed (p : packet) : Prop :=
  context p = id s0 /\
  exists r d, choose r s0 = Ok d /\ paddr p = u64 (Z.shiftl d (blockSizeBits s0)).

Definition waiting (s : t) : list packet := option_list (retryPkt s).

Record run_ok (s : t) (l : list packet) : Prop := {
  ro_params : same_params s;
  ro_limit : 0 <= numPacketsMax s0 -> numPacketsSent s <= Z.max (numPacketsMax s0) (numPacketsSent s0);
  ro_count : numPacketsSent s0 + zlen l + zlen (waiting s) <= numPacketsSent s;
  ro_addressed : Forall addressed (l ++ waiting s);
  ro_sender : 0 <= singleSender s0 -> singleSender s0 <> id s0 -> l = [] /\ waiting s = []
}.

Lemma choose_same s r : same_params s -> choose r s = choose r s0.
Proof.
  intros (H1 & H2 & H3 & H4 & H5 & H6 & H7). unfold choose. by rewrite H1, H2, H6, H7.
Qed.

Lemma request_addressed s v d r :
  same_params s -> choose r s0 = Ok d -> addressed (request v (u64 (Z.shiftl d (blockSizeBits s))) s).
Proof.
  intros (H1 & _ & H3 & _) Hd. rewrite H3. unfold addressed, request.
  destruct (_ =? 0); [|destruct (_ =? 1)]; cbn; (split; [done|]); by exists r, d.
Qed.

(** Handing a packet to the port. *)
Lemma send_ok b p s l :
  retryPkt s0 = None -> run_ok s l -> addressed p -> sender_enabled s = true ->
  run_ok (sendPkt b p s).1 (l ++ option_list (sendPkt b p s).2).
Proof.
  intros Hr0 [Hp Hlim Hcnt Had Hsnd] Ha He. unfold sender_enabled in He. apply andb_true_iff in He as [He1 He2].
  pose proof Hp as (P1 & P2 & P3 & P4 & P5 & P6 & P7). rewrite P4 in He1. rewrite P1, P5 in He2.
  assert (0 <= numPacketsMax s0 -> numPacketsSent s < numPacketsMax s0) as Hlt.
  { intros H0. apply negb_true_iff, andb_false_iff in He1 as [He1|He1]; rewrite Z.geb_leb in He1; zbool; lia. }
  assert (0 <= singleSender s0 -> singleSender s0 = id s0) as Hse.
  { intros H0. apply negb_true_iff, andb_false_iff in He2 as [He2|He2].
    - rewrite Z.geb_leb in He2. zbool. lia.
    - apply negb_false_iff in He2. zbool. done. }
  unfold waiting, zlen in *. apply Forall_app in Had as [Had1 Had2].
  assert (0 <= singleSender s0 -> singleSender s0 <> id s0 -> False) as Hno by (intros H0 Hne; by apply Hne, Hse).
  destruct b; cbn; split; cbn [numPacketsSent set_sent set_retry retryPkt]; unfold waiting, zlen; cbn.
  - done.
  - intros H0. specialize (Hlt H0). lia.
  - rewrite length_app. cbn. lia.
  - rewrite !Forall_app. split_and!; [done|by constructor|done].
  - intros H0 Hne. by destruct (Hno H0 Hne).
  - done.
  - intros H0. specialize (Hlt H0). lia.
  - rewrite app_nil_r. destruct (retryPkt s); cbn in *; lia.
  - rewrite app_nil_r, Forall_app. split; [done|by constructor].
  - intros H0 Hne. by destruct (Hno H0 Hne).
Qed.

Lemma set_noResponse_ok k s l : run_ok s l -> run_ok (set_noResponse k s) l.
Proof. by intros [? ? ? ? ?]. Qed.

Lemma run_run_ok s l : retryPkt s0 = None -> run s l -> run_ok s l.
Proof.
  intros Hr0. induction 1 as [|s l cur edge e s' sent n _ IH H|s l b s' sent _ IH H|s l s' _ IH H].
  - split; [done|lia| |by unfold waiting; rewrite Hr0|by unfold waiting; rewrite Hr0].
    unfold waiting, zlen. rewrite Hr0. cbn. lia.
  - unfold tick in H. apply (set_noResponse_ok (u64 (noResponseCycles s + 1))) in IH. revert IH H.
    set (s1 := set_noResponse _ s). intros IH H. inv_bind H. destruct a as [s2 sent2]. inv_bind H. simplify_res.
    destruct ((trySending e <? inj_limit s1) && sender_enabled s1) eqn:Hg; [|simplify_res; by rewrite app_nil_r].
    apply andb_true_iff in Hg as [_ Hen]. unfold generatePkt in E. inv_bind E. rename a into d, E1 into Hd.
    pose proof (send_ok (accepted e) (request (rand_vnet e) (u64 (Z.shiftl d (blockSizeBits s1))) s1) s1 l Hr0 IH) as Hs.
    injection E as Es1 Es2. unfold sendPkt in Hs. cbn [fst snd] in Hs. change (blockSizeBits s1) with (blockSizeBits s) in Hs.
    rewrite Es1, Es2 in Hs. apply Hs; [|done]. change (blockSizeBits s) with (blockSizeBits s1).
    rewrite (choose_same s1) in Hd by apply IH. eapply request_addressed; [apply IH|exact Hd].
  - unfold doRetry in H. destruct (retryPkt s) as [p|] eqn:Hp; [|done].
    destruct IH as [H1 H2 H3 H4 H5]. unfold waiting in *. rewrite Hp in *. cbn in *.
    destruct b; injection H as <- <-; cbn [option_list];
      [|rewrite app_nil_r; split; unfold waiting; by rewrite ?Hp].
    split; unfold waiting; cbn; try done.
    + unfold zlen in *. rewrite length_app. cbn in *. lia.
    + by rewrite app_nil_r.
    + intros Ha Hb. by destruct (H5 Ha Hb).
  - unfold completeRequest in H. cbn in H. simplify_res. by apply set_noResponse_ok.
Qed.

End Runs.

(** C33: in any run of a tester that starts with no packet waiting, every
    packet the port has taken, and the one that waits for a retry, comes from
    this tester and carries a destination of its pattern in its address; the
    packets taken and waiting are at most those counted as sent; with a
    limit the count never passes it; and with a single sender no other
    tester sends anything. *)
Theorem tester_run_correct s0 s l :
  retryPkt s0 = None -> numPacketsSent s0 = 0 -> run s0 s l ->
  Forall (addressed s0) (l ++ waiting s) /\
  zlen l + zlen (waiting s) <= numPacketsSent s /\
  (0 <= numPacketsMax s0 -> numPacketsSent s <= numPacketsMax s0) /\
  (0 <= singleSender s0 -> singleSender s0 <> id s0 -> l = [] /\ waiting s = []).
Proof.
  intros Hr H0 Hrun. destruct (run_run_ok s0 s l Hr Hrun) as [_ Hlim Hcnt Had Hsnd].
  split_and!; [done|lia| |done]. intros Hm. specialize (Hlim Hm). lia.
Qed.

Module TrafficExample.

(** The transpose pattern on 4x4 nodes, from node 1. *)
Definition tester : t := mk 1 16 6 1000 10 0 (-1) (-1) 1 TRANSPOSE_ 500 0 5000000 0 None.
Definition refused : env := mk_env 0 0 0 false.
Definition taken : env := mk_env 0 0 0 true.

(** Two packets are refused one after the other: the first is lost, though
    it counts as sent. *)
Definition pkt : packet := mk_packet false false 256 1.
Definition once : t := set_sent 1 (set_retry (Some pkt) (set_noResponse 1 tester)).
Definition twice : t := set_sent 2 (set_noResponse 2 once).

Lemma retry_loses_packet : run tester twice [] /\ numPacketsSent twice = 2 /\ zlen (waiting twice) = 1.
Proof.
  split; [|split; reflexivity].
  apply (run_tick tester once [] 1 2 refused twice None (Scheduled 2)); [|vm_compute; reflexivity].
  apply (run_tick tester tester [] 0 1 refused once None (Scheduled 1)); [constructor|vm_compute; reflexivity].
Qed.

Lemma destination_permutes_witness :
  destination TRANSPOSE_ 16 1 = 4 /\ 0 <= destination TRANSPOSE_ 16 1 < 16.
Proof.
  split; [vm_compute; reflexivity|].
  assert (fits TRANSPOSE_ 16) as Hf by (split; [lia|]; exists 4; lia).
  exact (proj1 (destination_permutes TRANSPOSE_ 16 1 2 Hf ltac:(lia) ltac:(lia))).
Defined.

Lemma tester_run_correct_witness :
  exists s, run tester s [pkt] /\ paddr pkt = 256 /\ addressed tester pkt.
Proof.
  pose (s := set_sent 1 (set_noResponse 1 tester)).
  assert (run tester s [pkt]) as Hrun.
  { apply (run_tick tester tester [] 0 1 taken s (Some pkt) (Scheduled 1)); [constructor|vm_compute; reflexivity]. }
  exists s. split; [exact Hrun|]. split; [reflexivity|].
  destruct (tester_run_correct tester s [pkt] eq_refl eq_refl Hrun) as [Hall _].
  exact (Forall_inv Hall).
Defined.

End TrafficExample.
