(* ===== verification/ExampleFacts.v ===== *)
(** * Buffers, channels and routing at the 2x2 mesh

    The theorems on the flit buffer, the credits, the virtual-channel
    selection, the links and the routing, applied to states of the concrete
    network. *)

From S2P Require Import Prelude NetDest NetDestFacts Types FlitBuffer Channels ChannelFacts RouterCore MsgBuffer NetState Routing RoutingFacts Network Spin Example.
From Stdlib Require Import Sorted.

Module ExampleFacts.
Import Example.

(** ** Buffers *)

(** Three packets, inserted out of order. *)
Definition queue : flitBuffer.t :=
  flitBuffer.insert (packet 7 0 9)
    (flitBuffer.insert (packet 8 1 3) (flitBuffer.insert (packet 9 2 5) flitBuffer.new)).

Lemma queue_wf : buffer_wf queue.
Proof. unfold queue. auto using insert_wf, new_wf. Qed.

Lemma flitBuffer_priority_queue_witness :
  buffer_wf queue /\ flitBuffer.isEmpty queue = false /\
  buffer_wf (flitBuffer.insert (packet 10 0 1) queue) /\
  exists g b', flitBuffer.getTopFlit queue = Ok (g, b') /\
    flitBuffer.m_buffer queue ≡ₚ g :: flitBuffer.m_buffer b'.
Proof.
  split; [exact queue_wf|]. split; [reflexivity|].
  destruct (flitBuffer_priority_queue queue (packet 10 0 1) queue_wf) as (H1 & _ & H3).
  split; [exact H1|]. destruct (H3 eq_refl) as (g & b' & Hg & _ & Hp & _).
  exists g, b'. split; [exact Hg|exact Hp].
Defined.

Lemma flitBuffer_delivers_in_order_witness :
  take_all 3 queue = Ok [packet 8 1 3; packet 9 2 5; packet 7 0 9] /\
  exists l, take_all (length (flitBuffer.m_buffer queue)) queue = Ok l /\
    l ≡ₚ flitBuffer.m_buffer queue /\
    StronglySorted (fun f g => flit.m_time f <= flit.m_time g) l.
Proof.
  split; [vm_compute; reflexivity|]. exact (flitBuffer_delivers_in_order queue queue_wf).
Defined.

(** ** Channels *)

(** A counter of a buffer of four with one flit under way. *)
Definition counter : OutVcState.t := OutVcState.mk 0 0 ACTIVE_ 3 4.

Lemma credit_counter_correct_witness :
  credit_ok counter /\
  is_ok (OutVcState.decrement_credit counter) = true /\
  is_ok (OutVcState.increment_credit counter) = true.
Proof.
  assert (credit_ok counter) as H by (unfold credit_ok; cbn; lia).
  split; [exact H|]. destruct (credit_counter_correct counter H) as (H1 & H2 & _).
  split; [exact H1|exact H2].
Defined.

Definition router0 : Router.t := unwrap (Router.new 0 1 1 2 0) (Net.router 0 net).

Definition output0 : OutputUnit.t :=
  unwrap (OutputUnit.mk (-1) [] 0 "" 0 0 (-1) flitBuffer.new) (vec_at (Router.m_output_unit router0) 0).

Lemma select_free_vc_correct_witness :
  vnet_inside 0 output0 /\
  exists vc o' free k,
    OutputUnit.select_free_vc 0 0 output0 = Ok (vc, o') /\
    OutputUnit.has_free_vc 0 0 output0 = Ok free /\
    OutputUnit.getNumFreeVCs 0 0 output0 = Ok k.
Proof.
  assert (vnet_inside 0 output0) as H by (vm_compute; split; discriminate).
  split; [exact H|].
  destruct (select_free_vc_correct 0 0 output0 H) as (vc & o' & free & k & H1 & H2 & H3 & _).
  exists vc, o', free, k. split; [exact H1|]. split; [exact H2|exact H3].
Defined.

Definition link0 : NetworkLink.t :=
  unwrap (NetworkLink.new 0 1 2 1) (vec_at (Net.net_links net) 0).

Definition consumer0 : consumer := default CGarnetNetwork (NetworkLink.link_consumer link0).

Lemma link_wakeup_moves_one_witness :
  NetworkLink.link_consumer link0 = Some consumer0 /\
  exists f src' l', NetworkLink.wakeup 5 queue link0
    = Ok (src', l', Some (consumer0, NetworkLink.m_latency link0)) /\
    flitBuffer.m_buffer queue ≡ₚ f :: flitBuffer.m_buffer src'.
Proof.
  assert (NetworkLink.link_consumer link0 = Some consumer0) as Hc by (vm_compute; reflexivity).
  split; [exact Hc|].
  assert (buffer_wf (NetworkLink.linkBuffer link0)) as Hl
    by (replace (NetworkLink.linkBuffer link0) with flitBuffer.new by (vm_compute; reflexivity);
        exact new_wf).
  assert (Forall (fun f => 0 <= flit.m_vc f < zlen (NetworkLink.m_vc_load link0))
    (flitBuffer.m_buffer queue)) as Hf
    by (apply (proj1 (bool_decide_eq_true _)); vm_compute; reflexivity).
  destruct (link_wakeup_moves_one 5 queue link0 consumer0 queue_wf Hl Hc
    (proj1 (Forall_forall _ _) Hf)) as [[H _] | (f & src' & l' & _ & H1 & H2 & _)].
  - vm_compute in H. discriminate H.
  - exists f, src', l'. split; [exact H1|exact H2].
Defined.

(** ** Routing *)

(** The mesh with XY routing, and a packet from node 0 to node 3. *)
Definition xy_net : Net.t := net_with (cfg_with 1 false).

Definition route03 : RouteInfo.t := RouteInfo.mk 0 (dests 8) 0 0 3 3 0.

Definition routed : Z * Net.t := unwrap (-1, xy_net) (Route.outportCompute 0 route03 xy_net).

Lemma routed_ok : Route.outportCompute 0 route03 xy_net = Ok (routed.1, routed.2).
Proof.
  unfold routed.
  assert (is_ok (Route.outportCompute 0 route03 xy_net) = true) as H by (vm_compute; reflexivity).
  destruct (Route.outportCompute 0 route03 xy_net) as [[p n]|]; [reflexivity|discriminate H].
Qed.

Lemma xy_cfg : Net.cfg xy_net = cfg_with 1 false.
Proof. vm_compute. reflexivity. Qed.

Lemma outportCompute_minimal_witness :
  exists d next, outport_towards 0 d routed.1 routed.2 /\
    Mesh.get_upstreamId (NetConfig.m_num_cols (Net.cfg xy_net)) d 0 = Ok next /\
    in_mesh (Net.cfg xy_net) next /\
    distance (NetConfig.m_num_cols (Net.cfg xy_net)) next 3 =
    distance (NetConfig.m_num_cols (Net.cfg xy_net)) 0 3 - 1.
Proof.
  apply (outportCompute_minimal 0 route03 xy_net routed.1 routed.2 0).
  - rewrite xy_cfg. split; reflexivity.
  - rewrite xy_cfg. vm_compute. auto.
  - vm_compute. reflexivity.
  - rewrite xy_cfg. split; [discriminate|reflexivity].
  - rewrite xy_cfg. split; [discriminate|reflexivity].
  - discriminate.
  - exact routed_ok.
Defined.



Lemma lookupRoutingTable_best_witness :
  exists w o k, serves (dests 2) (Router.m_routing_unit router0) 1 /\
    weight (Router.m_routing_unit router0) 1 w /\ w <= INFINITE_ /\
    vec_at (Router.m_output_unit router0) 1 = Ok o /\
    OutputUnit.getNumFreeVCs 0 0 o = Ok k.
Proof.
  destruct (lookupRoutingTable_best 0 0 (dests 2) router0 1) as (w & o & k & H1 & H2 & H3 & H4 & H5 & _).
  - vm_compute. reflexivity.
  - exists w, o, k. split; [exact H1|]. split; [exact H2|]. split; [exact H3|].
    split; [exact H4|exact H5].
Defined.

End ExampleFacts.
